(* ===== verification/_CoqProject ===== *)
-Q . S2P
Prelude.v
Libu.v
Encode.v
Addr.v
Path.v
Date.v
Io.v
IoSpec.v
IoMem.v
Codec.v
Getline.v
Header.v
Vars.v
Parser.v
Atom.v
SesMem.v
Klog.v
Request.v
Multipart.v
Response.v
Http.v
Md5.v
Session.v
Files.v
SesDrv.v
Filter.v
Timer.v
Mime.v
TransC.v
Template.v
FixLine.v
Ppc.v
Server.v
PpcLog.v
SesClient.v
Cgi.v
SupFs.v
DyPage.v
Emb.v
Coder.v
Gzip.v
Cipher.v
SesCode.v
EmbCode.v
Translate.v
Site.v
Priv.v
Config.v
Access.v
