(* ===== verification/Prelude.v ===== *)
(** * KLone: a verification of the web application server

    KLone turns web pages with embedded C into C code, links them with a server, and serves
    them.  This library models its own logic, function by function, and proves what makes
    the parts correct.

    ** The program and the files

    A connection is a buffered stream ([io_t], src/src/libio/io.c) over a device, with a
    chain of codecs.  [http_serve] (src/src/libhttp/http.c) reads a request from it
    (src/src/libpage/request.c, header.c, field.c, vars.c, var.c), finds the virtual host and
    the file that the URI names (aliases, index pages, path info), chooses a supplier
    (broker.c) and lets it write the response (response.c) through the response filter
    (rsfilter.c).  Pages keep state in sessions (session.c) stored in memory (ses_mem.c over
    kloned/atom.c) or in files (ses_file.c).  Messages go to log devices (src/src/libklog).
    Alarms (timer.c) bound the time of a request.  A parent process (src/src/kloned/server.c)
    keeps pools of children that serve the connections of each back end and exchanges
    messages with them (ppc.c, ppc_*.c).  Pages are translated to C before the
    server is built (src/src/libtrans) by the site tool (src/src/tools/klone), which imports a
    directory: it writes the make rules and the C file that registers the pages, and the rules
    call it again for each file.  At its start the server reads its configuration, gives up
    root and its view of the file system, and keeps an access log.

    - [Prelude]: bytes, C strings, machine integers, results, programs over a state, lists.
    - [Libu]: the functions of the libu package that the code calls, as parameters.
    - [Encode], [Addr], [Path], [Date], [Md5], [Timer], [Getline], [Mime]: src/src/libutils.
    - [Io], [IoSpec], [IoMem], [Codec], [Files]: src/src/libio and the null codec of
      src/src/libcodec; [IoSpec] has the contracts of devices and what streams promise.
    - [Coder], [Gzip], [Cipher]: the contract of a codec that changes its data, and the
      compression and cipher codecs of src/src/libcodec with zlib and EVP as parameters.
    - [Header], [Vars], [Request], [Multipart], [Response], [Session], [SesMem], [SesDrv],
      [SesClient], [Filter]: src/src/libpage.  [SesCode]: sessions saved through the codecs.
    - [Http]: http.c, vhost.c, broker.c of src/src/libhttp.  [Cgi], [SupFs], [DyPage], [Emb]:
      sup_cgi.c, sup_fs.c, dypage.c, sup_emb.c and src/src/libemb/emb.c.  [EmbCode]: embedded
      files that are compressed or encrypted.  [Access]: access.c.
    - [Parser], [TransC], [Template], [FixLine], [Translate]: src/src/libtrans; [Translate] has
      the whole of [translate].  [Site]: main.c and pm.c of src/src/tools/klone.
    - [Atom]: src/src/kloned/atom.c.  [Klog]: src/src/libklog.
    - [Ppc], [Server], [PpcLog]: ppc.c, server.c, child.c and ppc_*.c of src/src/kloned and
      src/src/libbackend/backend.c.  [Priv]: the change of root directory and user in server.c.
    - [Config]: what http.c, klog.c, session.c, its drivers and request.c read from the
      configuration.

    Interfaces are type classes: devices ([Io.DevOps] with the contracts [IoSpec.DevSource]
    and [IoSpec.DevSink], instances in [IoMem], [Files] and [Translate]), codecs ([Io.CodecOps]
    with [Codec.Lossless], [Filter.Emitter] and [Coder]'s contract), session drivers
    ([Session.SesDriver] with [Session.SesStore], instances in [SesDrv]), suppliers ([Http.supplier]) and libu
    ([Libu.Libu], [Libu.LibuMem], with [Libu.libu_ref] to evaluate examples; its configuration
    trees in [Config.UConfig]).

    ** How code becomes definitions

    A function keeps its name.  A struct is a record; a function that changes one takes it
    and returns it.  The result type is [Prelude.res]: [Ok] for a return of 0 or a value,
    [Fail] for an error return, [Fault] for undefined behaviour (a read or write out of
    bounds, a NULL or freed pointer), [Timeout] when a bound on a loop runs out.  [prog] is
    a program over a state with such a result; the state is kept when it fails, as in the
    code.  Buffers are lists of bytes written in place; integers that can wrap are [Z] with
    the reduction written out ([w32], [w64], [i32]), sizes that cannot are [nat].  Linked
    structures that are shared or freed are in an explicit heap ([Atom], [Template]).
    Arguments that callers never pass as NULL are not optional; characters are unsigned
    bytes.  Whether memory can be had is an oracle [Libu.u_alloc] of the size; the objects
    of a fixed small size are taken to be allocated.  Time, process identifiers, signals,
    files and random numbers are explicit state or arguments.  [Session] and [Emb] are the build
    without SSL_ON and HAVE_LIBZ; [SesCode], [EmbCode] and [SesClient] are the build with them,
    the functions of zlib and OpenSSL parameters with what their documentation says.

    Loops whose end the code decides by data take fuel.  Theorems that say a function
    returns give the fuel that is enough, which is the number of bytes, lines or blocks to
    process; fuel beyond that changes nothing.

    ** What is proved

    - Safety of what a client controls: the file that is served lies below a root
      ([Http.http_serve_safe]); a URI is accepted with the path it normalises to and nothing
      else ([Request.request_uri_safe], [Path.uri_normalize_refines]); identifiers of sessions
      are hex digits
      ([Session.session_id_safe]); a client-side session whose code is wrong is not loaded
      ([SesClient.client_session_rejected]); an encrypted file is not sent without its key
      ([EmbCode.emb_no_key_no_data]).
    - Confinement: a server that has started keeps its user, its group and its root directory
      whatever its pages do ([Priv.server_confined]), and in a blind directory gets at no file
      ([Priv.blind_server_sees_nothing]).
    - Round trips between what one side writes and the other reads: requests, forms,
      response headers, cookies, sessions, dates, encodings, the bytes of translated pages.
    - Streams: reading is reading from one sequence of bytes and writing appends to one,
      with any partial reads and writes of the device and any lossless codecs
      ([IoMem.io_read_stream], [IoMem.io_write_flush_stream], [Codec.io_transform_chain],
      [Filter.filter_output]).  Codecs that change the data compose, wherever the buffers end
      ([Coder.io_coded_output]), and sessions saved through them are loaded again
      ([SesCode.coded_session_roundtrip]).
    - Refinements of abstract specifications: header loading by lines, the page parser by a
      list of blocks, sessions in memory by a bounded list ordered by age, log devices by a
      window of the last messages, sessions by any store that keeps a contract, MD5 by the
      digest of RFC 1321, template inheritance by substitution.
    - Invariants and liveness: headers, session stores, the timer ([Timer.timer_fires]), the
      pool of processes whatever its children and the system do
      ([Server.server_pool_invariant]), which fills up when there is room
      ([Server.server_pool_refills]).
    - A request from its first byte to the last byte of the answer: a file is found and sent
      with the header that describes it ([SupFs.http_get_file]); a page, as any program that
      writes and changes its session and its response, is sent with the header it has made
      ([DyPage.dypage_output]).  What the configuration selects is logged, if it fits
      ([Access.access_logged]).
    - From the site to the client: an import writes exactly the rules and registrations of the
      files of a directory ([Site.site_import]) and ends whatever the directory holds
      ([Site.import_ends]); the rule of a file makes the functions that its registration calls
      ([Site.rule_links]); the file, translated, compressed and encrypted as asked for, reaches
      the client byte by byte ([Translate.embedded_file_delivered]).
    - The configuration: the virtual hosts are those it describes, with what they inherit
      ([Config.vhosts_configured]).
    - CGI: the environment is the list of variables that the request determines
      ([Cgi.cgi_environment]); the response has the program's header and its output
      ([Cgi.cgi_response]).
    - Messages between processes: sequences of them arrive whole and in order
      ([Ppc.ppc_messages]); what a child logs reaches the log of its back end
      ([PpcLog.log_add_delivered]).
    - Errors: what the code does on the inputs it gets wrong is stated too; these theorems
      are named in the findings of the manifest.

    ** Not modelled

    TLS (calls of OpenSSL and CyaSSL around a descriptor; the device interface is where it
    attaches) and its configuration, syslog, the KILT supplier (regular expressions of the C
    library), hooks (function pointers registered by user code), the CGI mode of the server,
    the handlers of terminating signals, the command line of kloned, the Windows build, and the
    passwords and version of src/src/libutils.  Of the configuration, libu's tree itself is a
    parameter.  The messages that a command prints on the terminal are left out. *)

From Stdlib Require Export Strings.Byte ZArith Lia.
From Stdlib Require Import Strings.String.
From stdpp Require Export base list numbers option sets.
Export String.StringSyntax.

(** * Bytes *)

#[global] Instance byte_eq_dec : EqDecision byte := Byte.byte_eq_dec.

(** The value of an [unsigned char]. *)
Definition bz (b : byte) : Z := Z.of_N (Byte.to_N b).

(** Conversion of an integer to [unsigned char]: reduction modulo 256. *)
Definition zb (z : Z) : byte :=
  default x00 (Byte.of_N (Z.to_N (z mod 256))).

(** C string literals as lists of bytes (without the terminating NUL). *)
Definition bs (s : string) : list byte := String.list_byte_of_string s.
Arguments bs _%_string.

Definition all_bytes : list byte :=
  map (fun n => zb (Z.of_nat n)) (seq 0 256).

Lemma bz_range (b : byte) : (0 <= bz b < 256)%Z.
Proof. unfold bz. pose proof (Byte.to_N_bounded b). lia. Qed.

Lemma zb_bz (b : byte) : zb (bz b) = b.
Proof.
  unfold zb. rewrite Z.mod_small by apply bz_range.
  unfold bz. rewrite N2Z.id, Byte.of_to_N. done.
Qed.

Lemma bz_zb (z : Z) : bz (zb z) = (z mod 256)%Z.
Proof.
  unfold zb, bz. pose proof (Z.mod_pos_bound z 256 eq_refl) as Hz.
  destruct (Byte.of_N _) as [b|] eqn:E; simpl.
  - apply Byte.to_of_N in E. rewrite E, Z2N.id; lia.
  - apply Byte.of_N_None_iff in E. lia.
Qed.

Lemma bz_inj (a b : byte) : bz a = bz b -> a = b.
Proof. intros H. by rewrite <- (zb_bz a), <- (zb_bz b), H. Qed.

Lemma all_bytes_spec (b : byte) : In b all_bytes.
Proof.
  unfold all_bytes. apply in_map_iff. exists (Z.to_nat (bz b)).
  pose proof (bz_range b). split.
  - rewrite Z2Nat.id by lia. apply zb_bz.
  - apply in_seq. lia.
Qed.

(** Exhaustive checking of a decidable property of bytes. *)
Lemma byte_forall (P : byte -> Prop) `{forall b, Decision (P b)} :
  forallb (fun b => bool_decide (P b)) all_bytes = true -> forall b, P b.
Proof.
  intros HP b. rewrite forallb_forall in HP.
  eapply bool_decide_eq_true, HP, all_bytes_spec.
Qed.

(** Decides a universally quantified statement on bytes by evaluation. *)
Ltac byte_brute :=
  lazymatch goal with
  | |- forall b : byte, @?P b => apply (byte_forall P); vm_compute; reflexivity
  end.

(** Proves a closed decidable statement by evaluation. *)
Ltac compute_decide := apply (bool_decide_unpack _); vm_compute; exact I.

(** * Characters: the C locale's <ctype.h> *)

Definition in_range (lo hi b : byte) : bool := (bz lo <=? bz b)%Z && (bz b <=? bz hi)%Z.

Definition isdigit (b : byte) : bool := in_range "0" "9" b.
Definition isupper (b : byte) : bool := in_range "A" "Z" b.
Definition islower (b : byte) : bool := in_range "a" "z" b.
Definition isalpha (b : byte) : bool := isupper b || islower b.
Definition isalnum (b : byte) : bool := isalpha b || isdigit b.
Definition isxdigit (b : byte) : bool :=
  isdigit b || in_range "a" "f" b || in_range "A" "F" b.
Definition isspace (b : byte) : bool := bool_decide (b = " "%byte) || in_range x09 x0d b.
Definition isprint (b : byte) : bool := in_range " " "~" b.
Definition tolower (b : byte) : byte := if isupper b then zb (bz b + 32) else b.

Lemma tolower_idem (b : byte) : tolower (tolower b) = tolower b.
Proof. revert b. byte_brute. Qed.

(** * C strings: a [list byte] holds the characters before the NUL *)

(** [strchr(s, c)] for [c <> 0]: the offset of the first [c]. *)
Fixpoint strchr (s : list byte) (c : byte) : option nat :=
  match s with
  | [] => None
  | b :: s' => if decide (b = c) then Some 0 else S <$> strchr s' c
  end.

(** [strrchr(s, c)] for [c <> 0]: the offset of the last [c]. *)
Fixpoint strrchr (s : list byte) (c : byte) : option nat :=
  match s with
  | [] => None
  | b :: s' =>
      match strrchr s' c with
      | Some i => Some (S i)
      | None => if decide (b = c) then Some 0 else None
      end
  end.

(** [strcmp(s, t) == 0], [strcasecmp(s, t) == 0]. *)
Definition streq (s t : list byte) : bool := bool_decide (s = t).
Definition strcaseeq (s t : list byte) : bool := streq (map tolower s) (map tolower t).

(** [strncmp(s, t, strlen(t)) == 0], [strncasecmp(s, t, strlen(t)) == 0]. *)
Definition strprefix (t s : list byte) : bool := streq (take (length t) s) t.
Definition strcaseprefix (t s : list byte) : bool := strcaseeq (take (length t) s) t.

Lemma strchr_Some (s : list byte) (c : byte) (i : nat) :
  strchr s c = Some i <-> s !! i = Some c /\ c ∉ take i s.
Proof.
  revert i. induction s as [|b s IH]; intros i; simpl.
  - split; [done|]. intros [H _]. by rewrite lookup_nil in H.
  - destruct (decide (b = c)) as [->|Hne].
    + split.
      * intros [= <-]. split; [done|]. simpl. set_solver.
      * intros [_ H2]. destruct i; [done|]. simpl in H2. set_solver.
    + destruct i as [|i]; simpl.
      * split; [by destruct (strchr s c)|]. intros [[= ->] _]. done.
      * rewrite fmap_Some. split.
        -- intros (j & Hj & [= <-]). apply IH in Hj as [Hj1 Hj2].
           split; [done|]. set_solver.
        -- intros [H1 H2]. exists i. split; [|done]. apply IH. split; [done|]. set_solver.
Qed.

Lemma strchr_None (s : list byte) (c : byte) : strchr s c = None <-> c ∉ s.
Proof.
  induction s as [|b s IH]; simpl; [set_solver|].
  destruct (decide (b = c)) as [->|Hne]; [set_solver|].
  rewrite fmap_None, IH. set_solver.
Qed.

(** Splitting at the first occurrence. *)
Lemma strchr_split (s : list byte) (c : byte) (i : nat) :
  strchr s c = Some i -> s = take i s ++ c :: drop (S i) s.
Proof. intros [H _]%strchr_Some. by rewrite take_drop_middle. Qed.

Lemma strchr_app (s t : list byte) (c : byte) :
  c ∉ s -> strchr (s ++ c :: t) c = Some (length s).
Proof.
  intros H. apply strchr_Some. split.
  - by rewrite list_lookup_middle.
  - by rewrite take_app_length.
Qed.

Lemma strrchr_None (s : list byte) (c : byte) : strrchr s c = None <-> c ∉ s.
Proof.
  induction s as [|b s IH]; simpl; [set_solver|].
  destruct (strrchr s c) as [i|] eqn:E.
  - split; [done|]. intros Hn. assert (c ∉ s) as H%IH by set_solver. done.
  - destruct IH as [IH _]. specialize (IH eq_refl).
    destruct (decide (b = c)); set_solver.
Qed.

Lemma strrchr_app (s t : list byte) (c : byte) :
  c ∉ t -> strrchr (s ++ c :: t) c = Some (length s).
Proof.
  intros H. induction s as [|b s IH]; simpl.
  - rewrite (proj2 (strrchr_None t c)) by done. by rewrite decide_True.
  - by rewrite IH.
Qed.

Lemma streq_eq (s t : list byte) : streq s t = true <-> s = t.
Proof. apply bool_decide_eq_true. Qed.

Lemma strcaseeq_eq (s t : list byte) :
  strcaseeq s t = true <-> map tolower s = map tolower t.
Proof. apply streq_eq. Qed.

Lemma strcaseeq_refl (s : list byte) : strcaseeq s s = true.
Proof. by apply strcaseeq_eq. Qed.

Lemma strcaseeq_sym (s t : list byte) : strcaseeq s t = strcaseeq t s.
Proof. apply eq_iff_eq_true. rewrite !strcaseeq_eq. naive_solver. Qed.

Lemma strcaseeq_trans (s t u : list byte) :
  strcaseeq s t = true -> strcaseeq t u = true -> strcaseeq s u = true.
Proof. rewrite !strcaseeq_eq. congruence. Qed.

(** The C string at the start of a buffer that is followed by a NUL. *)
Fixpoint cstr (s : list byte) : list byte :=
  match s with
  | [] => []
  | c :: s' => if decide (c = x00) then [] else c :: cstr s'
  end.

Lemma cstr_id (s : list byte) : x00 ∉ s -> cstr s = s.
Proof.
  induction s as [|c s IH]; simpl; [done|]. intros H.
  rewrite decide_False, IH; set_solver.
Qed.

Lemma cstr_no_nul (s : list byte) : x00 ∉ cstr s.
Proof.
  induction s as [|c s IH]; simpl; [set_solver|]. case_decide; set_solver.
Qed.

Lemma length_cstr (s : list byte) : length (cstr s) <= length s.
Proof. induction s as [|c s IH]; simpl; [done|]. case_decide; simpl; lia. Qed.

(** * [size_t] arithmetic on a 64-bit machine *)

Definition SIZE_MOD : Z := 2 ^ 64.
Definition w64 (z : Z) : Z := z mod SIZE_MOD.

Lemma w64_small (z : Z) : (0 <= z < SIZE_MOD)%Z -> w64 z = z.
Proof. apply Z.mod_small. Qed.

(** * Outcomes of a C function

    [Ok]: the function returned normally with a value; [Fail]: it took its
    [err:] path; [Fault]: it read or wrote outside the objects it was given
    (undefined behaviour); [Timeout]: the evaluation bound of the model ran out. *)
Inductive res (A : Type) : Type :=
| Ok (a : A)
| Fail
| Fault
| Timeout.
Arguments Ok {A} _.
Arguments Fail {A}.
Arguments Fault {A}.
Arguments Timeout {A}.

#[global] Instance res_eq_dec {A} `{EqDecision A} : EqDecision (res A).
Proof. solve_decision. Defined.

#[global] Instance res_ret : MRet res := @Ok.
#[global] Instance res_bind : MBind res := fun A B f m =>
  match m with Ok a => f a | Fail => Fail | Fault => Fault | Timeout => Timeout end.
#[global] Instance res_fmap : FMap res := fun A B f m =>
  match m with Ok a => Ok (f a) | Fail => Fail | Fault => Fault | Timeout => Timeout end.

(** * Programs that thread a state

    [prog S A] is a C function on an object of type [S]: it leaves a new state and has an
    outcome.  [let!] is the sequencing of [dbg_err_if]: anything but [Ok] ends the
    function with the state reached so far. *)
Definition prog (S A : Type) : Type := S -> S * res A.

Definition pret {S A} (a : A) : prog S A := fun s => (s, Ok a).
Definition pfail {S A} : prog S A := fun s => (s, Fail).
Definition plift {S A} (r : res A) : prog S A := fun s => (s, r).
Definition pget {S} : prog S S := fun s => (s, Ok s).
Definition pput {S} (s : S) : prog S unit := fun _ => (s, Ok tt).
Definition pmod {S} (f : S -> S) : prog S unit := fun s => (f s, Ok tt).

Definition pbind {S A B} (m : prog S A) (k : A -> prog S B) : prog S B := fun s =>
  match m s with
  | (s', Ok a) => k a s'
  | (s', Fail) => (s', Fail)
  | (s', Fault) => (s', Fault)
  | (s', Timeout) => (s', Timeout)
  end.

(** [dbg_if]: a failure is ignored, undefined behaviour is not. *)
Definition pignore {S A} (m : prog S A) : prog S unit := fun s =>
  match m s with
  | (s', Ok _) | (s', Fail) => (s', Ok tt)
  | (s', Fault) => (s', Fault)
  | (s', Timeout) => (s', Timeout)
  end.

(** [if(m) handler]: what runs when a call fails. *)
Definition pelse {S A} (m handler : prog S A) : prog S A := fun s =>
  match m s with
  | (s', Fail) => handler s'
  | r => r
  end.

(** [dbg_err_if(!b)] *)
Definition pguard {S} (b : bool) : prog S unit := fun s => (s, if b then Ok tt else Fail).

Declare Scope prog_scope.
Delimit Scope prog_scope with prog.
Notation "'let!' x := m 'in' k" := (pbind m (fun x => k))
  (at level 10, x binder, m at level 100, k at level 200) : prog_scope.
Notation "m1 ;;; m2" := (pbind m1 (fun _ => m2)) (at level 199, right associativity) : prog_scope.
Open Scope prog_scope.

Lemma pbind_Ok {S A B} (m : prog S A) (k : A -> prog S B) (s s' : S) (a : A) :
  m s = (s', Ok a) -> pbind m k s = k a s'.
Proof. unfold pbind. by intros ->. Qed.

Lemma pbind_Fail {S A B} (m : prog S A) (k : A -> prog S B) (s s' : S) :
  m s = (s', Fail) -> pbind m k s = (s', Fail).
Proof. unfold pbind. by intros ->. Qed.

Lemma pelse_Ok {S A} (m handler : prog S A) (s s' : S) (a : A) :
  m s = (s', Ok a) -> pelse m handler s = (s', Ok a).
Proof. unfold pelse. by intros ->. Qed.

Lemma pbind_inv {S A B} (m : prog S A) (k : A -> prog S B) (s s'' : S) (b : B) :
  pbind m k s = (s'', Ok b) -> exists s' a, m s = (s', Ok a) /\ k a s' = (s'', Ok b).
Proof. unfold pbind. destruct (m s) as [s' []]; naive_solver. Qed.

(** [keeps R m]: whatever its outcome, [m] leaves a state related to the one it got. *)
Definition keeps {S A} (R : S -> S -> Prop) (m : prog S A) : Prop := forall s, R s (m s).1.

Section keeps.
Context {S : Type} (R : S -> S -> Prop) {PR : PreOrder R}.

Lemma keeps_ret {A} (a : A) : keeps R (pret a).
Proof. intros s. reflexivity. Qed.
Lemma keeps_fail {A} : keeps R (pfail (A:=A)).
Proof. intros s. reflexivity. Qed.
Lemma keeps_lift {A} (r : res A) : keeps R (plift r).
Proof. intros s. reflexivity. Qed.
Lemma keeps_get : keeps R pget.
Proof. intros s. reflexivity. Qed.
Lemma keeps_guard (b : bool) : keeps R (pguard b).
Proof. intros s. reflexivity. Qed.
Lemma keeps_mod (f : S -> S) : (forall s, R s (f s)) -> keeps R (pmod f).
Proof. intros H s. apply H. Qed.

Lemma keeps_bind {A B} (m : prog S A) (k : A -> prog S B) :
  keeps R m -> (forall a, keeps R (k a)) -> keeps R (pbind m k).
Proof.
  intros Hm Hk s. unfold pbind. specialize (Hm s). destruct (m s) as [s' []]; try done.
  simpl in Hm. etrans; [done|apply Hk].
Qed.

Lemma keeps_ignore {A} (m : prog S A) : keeps R m -> keeps R (pignore m).
Proof. intros Hm s. specialize (Hm s). unfold pignore. by destruct (m s) as [s' []]. Qed.

Lemma keeps_else {A} (m handler : prog S A) : keeps R m -> keeps R handler -> keeps R (pelse m handler).
Proof.
  intros Hm Hh s. specialize (Hm s). unfold pelse. destruct (m s) as [s' []]; try done.
  simpl in Hm. etrans; [done|apply Hh].
Qed.
End keeps.

Create HintDb keeps.
#[export] Hint Resolve keeps_ret keeps_fail keeps_lift keeps_get keeps_guard : keeps.

Ltac keeps_seq := apply keeps_bind; [typeclasses eauto|..].

(** Splits a program into its calls and leaves those that the hints do not know. *)
Ltac keeps_auto :=
  repeat match goal with
    | |- forall _, _ => intro
    | |- PreOrder _ => typeclasses eauto
    | |- keeps _ (match ?x with _ => _ end) => destruct x
    | |- keeps _ (pbind _ _) => apply keeps_bind
    | |- keeps _ (pignore _) => apply keeps_ignore
    | |- keeps _ (pelse _ _) => apply keeps_else
    | |- keeps _ _ => solve [eauto 2 with keeps typeclass_instances]
    end.

(** ** Pre- and postconditions

    [hoare P m Q E]: from a state in [P], [m] returns normally in [Q] or takes its error path
    in [E]; it runs neither into undefined behaviour nor out of fuel. *)
Definition hoare {S A} (P : S -> Prop) (m : prog S A) (Q : A -> S -> Prop) (E : S -> Prop) : Prop :=
  forall s, P s -> match m s with
                   | (s', Ok a) => Q a s'
                   | (s', Fail) => E s'
                   | _ => False
                   end.

Section hoare.
Context {S : Type}.
Implicit Types (P E : S -> Prop).

Lemma hoare_ret {A} (a : A) (Q : A -> S -> Prop) E : hoare (Q a) (pret a) Q E.
Proof. by intros s Hs. Qed.
Lemma hoare_fail {A} (Q : A -> S -> Prop) E : hoare E pfail Q E.
Proof. by intros s Hs. Qed.
Lemma hoare_get P E : hoare P pget (fun a s => P s /\ a = s) E.
Proof. by intros s Hs. Qed.
Lemma hoare_mod P f (Q : unit -> S -> Prop) E : (forall s, P s -> Q tt (f s)) -> hoare P (pmod f) Q E.
Proof. intros H s Hs. by apply H. Qed.
Lemma hoare_guard P (b : bool) : hoare P (pguard b) (fun _ s => P s /\ b = true) P.
Proof. intros s Hs. unfold pguard. by destruct b. Qed.

Lemma hoare_bind {A B} P (m : prog S A) (k : A -> prog S B) (M : A -> S -> Prop) (Q : B -> S -> Prop) E :
  hoare P m M E -> (forall a, hoare (M a) (k a) Q E) -> hoare P (pbind m k) Q E.
Proof.
  intros Hm Hk s Hs. specialize (Hm s Hs). unfold pbind. destruct (m s) as [s' []]; try done. by apply Hk.
Qed.

Lemma hoare_ignore {A} P (m : prog S A) (Q : unit -> S -> Prop) E E' :
  hoare P m (fun _ => Q tt) E -> (forall s, E s -> Q tt s) -> hoare P (pignore m) Q E'.
Proof. intros Hm HE s Hs. specialize (Hm s Hs). unfold pignore. destruct (m s) as [s' []]; try done. by apply HE. Qed.

Lemma hoare_else {A} P (m h : prog S A) (Q : A -> S -> Prop) E E' :
  hoare P m Q E -> hoare E h Q E' -> hoare P (pelse m h) Q E'.
Proof. intros Hm Hh s Hs. specialize (Hm s Hs). unfold pelse. destruct (m s) as [s' []]; try done. by apply Hh. Qed.

Lemma hoare_conseq {A} P P' (m : prog S A) (Q Q' : A -> S -> Prop) E E' :
  hoare P' m Q' E' -> (forall s, P s -> P' s) -> (forall a s, Q' a s -> Q a s) -> (forall s, E' s -> E s) -> hoare P m Q E.
Proof. intros Hm HP HQ HE s Hs. specialize (Hm s (HP s Hs)). destruct (m s) as [s' []]; auto. Qed.

Lemma hoare_pre {A} P P' (m : prog S A) (Q : A -> S -> Prop) E :
  hoare P' m Q E -> (forall s, P s -> P' s) -> hoare P m Q E.
Proof. intros Hm HP. by eapply hoare_conseq. Qed.
End hoare.

Create HintDb hoare.
#[export] Hint Resolve hoare_ret hoare_fail hoare_get hoare_guard : hoare.

(** [atoi(s)]: optional blanks, a sign and digits; a value that no [int] holds is
    undefined behaviour. *)
Fixpoint digits_value (acc : Z) (s : list byte) : Z :=
  match s with
  | c :: s' => if isdigit c then digits_value (10 * acc + (bz c - 48)) s' else acc
  | [] => acc
  end.

Fixpoint skip_space (s : list byte) : list byte :=
  match s with
  | c :: s' => if isspace c then skip_space s' else s
  | [] => []
  end.

Definition INT_MAX : Z := 2 ^ 31 - 1.
Definition INT_MIN : Z := - 2 ^ 31.

Definition atoi (s : list byte) : res Z :=
  let v :=
    match skip_space s with
    | c :: s' => if decide (c = "-"%byte) then - digits_value 0 s'
                 else if decide (c = "+"%byte) then digits_value 0 s'
                 else digits_value 0 (c :: s')
    | [] => 0
    end%Z in
  if decide (INT_MIN <= v <= INT_MAX)%Z then Ok v else Fault.

Definition of_option {A} (o : option A) : res A :=
  match o with Some a => Ok a | None => Fail end.

(** Memory safety of an outcome. *)
Definition safe {A} (r : res A) : Prop := r <> Fault /\ r <> Timeout.

Lemma res_fmap_Ok {A B} (f : A -> B) (m : res A) (b : B) :
  f <$> m = Ok b <-> exists a, m = Ok a /\ b = f a.
Proof. destruct m; simpl; naive_solver. Qed.

Lemma safe_fmap {A B} (f : A -> B) (m : res A) : safe (f <$> m) <-> safe m.
Proof. unfold safe. destruct m; simpl; naive_solver. Qed.

(** * Lists *)

Lemma drop_middle {A} (l r : list A) (x : A) : drop (S (length l)) (l ++ x :: r) = r.
Proof. induction l; simpl; [by rewrite drop_0|done]. Qed.

(** * Tokens: the successive results of [strtok_r(s, delim, &pp)] *)

Fixpoint strtok_go (delim : byte -> bool) (cur s : list byte) : list (list byte) :=
  match s with
  | [] => match cur with [] => [] | _ => [cur] end
  | c :: s' =>
      if delim c then
        match cur with
        | [] => strtok_go delim [] s'
        | _ => cur :: strtok_go delim [] s'
        end
      else strtok_go delim (cur ++ [c]) s'
  end.

Definition strtok (delim : byte -> bool) (s : list byte) : list (list byte) :=
  strtok_go delim [] s.

(** A token is not empty and has no delimiter in it. *)
Definition is_token (delim : byte -> bool) (t : list byte) : Prop :=
  t <> [] /\ Forall (fun c => delim c = false) t.

Lemma strtok_tokens (delim : byte -> bool) (s : list byte) :
  Forall (is_token delim) (strtok delim s).
Proof.
  unfold strtok. assert (forall cur, Forall (fun c => delim c = false) cur ->
    Forall (is_token delim) (strtok_go delim cur s)) as G; [|by apply G].
  induction s as [|c s IH]; intros cur Hcur; simpl.
  - destruct cur; [constructor|]. by apply Forall_singleton.
  - destruct (delim c) eqn:E.
    + destruct cur; [by apply IH|]. constructor; [done|]. by apply IH.
    + apply IH, Forall_app. split; [done|]. by apply Forall_singleton.
Qed.

Lemma strtok_go_app (delim : byte -> bool) (cur t s : list byte) :
  Forall (fun c => delim c = false) t ->
  strtok_go delim cur (t ++ s) = strtok_go delim (cur ++ t) s.
Proof.
  revert cur. induction t as [|c t IH]; intros cur Ht; simpl; [by rewrite app_nil_r|].
  apply Forall_cons in Ht as [Hc Ht]. rewrite Hc, IH by done. by rewrite <- app_assoc.
Qed.

(** Tokens written with a delimiter before each are read back. *)
Lemma strtok_render (delim : byte -> bool) (d : byte) (ts : list (list byte)) (tail : list byte) :
  delim d = true -> Forall (is_token delim) ts ->
  Forall (fun c => delim c = true) tail ->
  strtok delim (concat (map (cons d) ts) ++ tail) = ts.
Proof.
  intros Hd Hts Htl. unfold strtok.
  assert (strtok_go delim [] tail = []) as Htail.
  { clear Hts. induction tail as [|c tl IH]; simpl; [done|].
    apply Forall_cons in Htl as [-> Htl]. by apply IH. }
  assert (forall cur, strtok_go delim cur tail = match cur with [] => [] | _ => [cur] end) as Hend.
  { intros cur. destruct tail as [|c tl]; [done|]. simpl in *.
    apply Forall_cons in Htl as [Hc _]. rewrite Hc in Htail |- *.
    destruct cur; [done|]. by rewrite Htail. }
  induction Hts as [|t ts [Hne Ht] Hts IH]; simpl; [done|].
  rewrite Hd, <- app_assoc, strtok_go_app by done. simpl.
  destruct t as [|a t]; [done|]. clear Hne.
  destruct ts as [|u ts]; simpl in *.
  - by rewrite Hend.
  - rewrite Hd in *. by rewrite IH.
Qed.

Lemma strtok_length (delim : byte -> bool) (s : list byte) :
  sum_list (length <$> strtok delim s) + length (strtok delim s) <= S (length s).
Proof.
  unfold strtok. enough (forall cur,
    sum_list (length <$> strtok_go delim cur s) + length (strtok_go delim cur s)
    <= S (length cur + length s)) as G by apply (G []).
  induction s as [|c s IH]; intros cur; simpl.
  - destruct cur; csimpl; lia.
  - destruct (delim c).
    + specialize (IH []). destruct cur; csimpl in *; lia.
    + specialize (IH (cur ++ [c])). rewrite length_app in IH. simpl in IH. lia.
Qed.

Lemma strtok_Forall (P : byte -> Prop) (delim : byte -> bool) (s : list byte) :
  Forall P s -> Forall (Forall P) (strtok delim s).
Proof.
  unfold strtok. assert (forall cur, Forall P cur -> Forall P s ->
    Forall (Forall P) (strtok_go delim cur s)) as G; [|intros; by apply G].
  induction s as [|c s IH]; intros cur Hcur Hs; simpl.
  - destruct cur; [constructor|]. by apply Forall_singleton.
  - apply Forall_cons in Hs as [Hc Hs]. destruct (delim c).
    + destruct cur; [by apply IH|]. constructor; [done|]. by apply IH.
    + apply IH; [|done]. apply Forall_app. split; [done|]. by apply Forall_singleton.
Qed.

Lemma strtok_cons_delim (delim : byte -> bool) (d : byte) (s : list byte) :
  delim d = true -> strtok delim (d :: s) = strtok delim s.
Proof. intros H. unfold strtok. simpl. by rewrite H. Qed.

Lemma strtok_snoc_delim (delim : byte -> bool) (d : byte) (s : list byte) :
  delim d = true -> strtok delim (s ++ [d]) = strtok delim s.
Proof.
  intros H. unfold strtok.
  enough (forall cur, strtok_go delim cur (s ++ [d]) = strtok_go delim cur s) by done.
  induction s as [|c s IH]; intros cur; simpl.
  - rewrite H. destruct cur; done.
  - destruct (delim c); [|apply IH]. destruct cur; by rewrite IH.
Qed.
