(* ===== verification/Libu.v ===== *)
(** The part of the libu support library that the modelled code calls.

    libu is a separate package: its functions are parameters here.  [Libu] lists
    the operations, [LibuSpec] what the library documents about them and what the
    callers rely on, and [LibuMem] adds that memory is not exhausted.  [libu_ref]
    is one implementation, used to evaluate the model on concrete inputs. *)

From S2P Require Import Prelude.

(** A [u_string_t] is represented by its contents, a [u_list_t] by its items in
    order.  [None] is the failure return of an operation that allocates. *)
Class Libu := {
  (** [u_strlcpy(d, s, n)]: the string left in [d], and whether it was truncated
      (a non-zero return). *)
  u_strlcpy : list byte -> nat -> list byte * bool;
  (** [u_strlcat(d, s, n)]: the same, for what [d] holds *)
  u_strlcat : list byte -> list byte -> nat -> list byte * bool;
  (** [u_snprintf(d, n, ...)] of an already formatted text: the string left in [d], and
      whether it was truncated (a non-zero return). *)
  u_snprintf : list byte -> nat -> list byte * bool;
  u_isblank : byte -> bool;
  u_isnl : byte -> bool;
  (** an allocation of that many bytes succeeds *)
  u_alloc : nat -> bool;
  u_string_create : list byte -> option (list byte);
  u_string_append : list byte -> list byte -> option (list byte);
  (** [u_string_copy(dst, src)]: the contents of [dst] afterwards, and success *)
  u_string_copy : list byte -> list byte -> list byte * bool;
  (** [u_string_set(s, buf, len)]: the contents afterwards, and success *)
  u_string_set : list byte -> list byte -> list byte * bool;
  u_string_set_length : list byte -> nat -> option (list byte);
  (** a [u_buf_t] by its contents *)
  u_buf_create : option (list byte);
  u_buf_reserve : list byte -> nat -> option (list byte);
  u_buf_append : list byte -> list byte -> option (list byte);
  (** [u_path_snprintf(d, n, sep, ...)] of an already formatted text: the path left in [d],
      [None] for a non-zero return *)
  u_path_snprintf : list byte -> nat -> byte -> option (list byte);
  u_list_add : forall {A}, list A -> A -> option (list A);
  (** [u_list_get_n(l, n)], [None] past the end *)
  u_list_get_n : forall {A}, list A -> nat -> option A;
  u_list_count : forall {A}, list A -> nat;
  (** [u_list_insert(l, x, n)] puts [x] at position [n]; [u_list_del(l, x)] removes the first
      [x] and [u_list_del_n(l, n)] the item at position [n] *)
  u_list_insert : forall {A}, list A -> A -> nat -> option (list A);
  u_list_del : forall {A} `{EqDecision A}, list A -> A -> option (list A);
  u_list_del_n : forall {A}, list A -> nat -> option (list A)
}.

(** Repeated separators reduced to one. *)
Fixpoint squeeze (sep : byte) (s : list byte) : list byte :=
  match s with
  | [] => []
  | c :: s' =>
      if decide (c = sep /\ head s' = Some sep) then squeeze sep s' else c :: squeeze sep s'
  end.

Class LibuSpec (L : Libu) : Prop := {
  u_strlcpy_spec (s : list byte) (n : nat) :
    0 < n -> u_strlcpy s n = (take (n - 1) s, bool_decide (n <= length s));
  u_strlcat_spec (d s : list byte) (n : nat) :
    length d < n -> u_strlcat d s n = (take (n - 1) (d ++ s), bool_decide (n <= length (d ++ s)));
  u_snprintf_spec (s : list byte) (n : nat) :
    0 < n -> u_snprintf s n = (take (n - 1) s, bool_decide (n <= length s));
  u_isblank_spec (b : byte) : u_isblank b = bool_decide (b = " "%byte \/ b = x09);
  u_isnl_spec (b : byte) : u_isnl b = bool_decide (b = x0a \/ b = x0d);
  u_string_create_spec (s r : list byte) : u_string_create s = Some r -> r = s;
  u_string_copy_spec (d s r : list byte) : u_string_copy d s = (r, true) -> r = s;
  u_string_set_spec (d s r : list byte) : u_string_set d s = (r, true) -> r = s;
  u_string_append_spec (s b r : list byte) : u_string_append s b = Some r -> r = s ++ b;
  u_string_set_length_spec (s r : list byte) (n : nat) :
    n <= length s -> u_string_set_length s n = Some r -> r = take n s;
  u_buf_create_spec (r : list byte) : u_buf_create = Some r -> r = [];
  u_buf_reserve_spec (b r : list byte) (n : nat) : u_buf_reserve b n = Some r -> r = b;
  u_buf_append_spec (b d r : list byte) : u_buf_append b d = Some r -> r = b ++ d;
  u_path_snprintf_spec (s r : list byte) (n : nat) (sep : byte) :
    u_path_snprintf s n sep = Some r -> r = squeeze sep s;
  u_path_snprintf_fits (s : list byte) (n : nat) (sep : byte) :
    length s < n -> is_Some (u_path_snprintf s n sep);
  u_list_add_spec {A} (l r : list A) (x : A) : u_list_add l x = Some r -> r = l ++ [x];
  u_list_get_n_spec {A} (l : list A) (n : nat) : u_list_get_n l n = l !! n;
  u_list_count_spec {A} (l : list A) : u_list_count l = length l;
  u_list_insert_spec {A} (l r : list A) (x : A) (n : nat) :
    n <= length l -> u_list_insert l x n = Some r -> r = take n l ++ x :: drop n l;
  u_list_del_spec {A} `{EqDecision A} (a b : list A) (x : A) :
    x ∉ a -> u_list_del (a ++ x :: b) x = Some (a ++ b);
  u_list_del_n_spec {A} (l : list A) (n : nat) :
    n < length l -> u_list_del_n l n = Some (take n l ++ drop (S n) l)
}.

Class LibuMem (L : Libu) : Prop := {
  u_alloc_ok (n : nat) : u_alloc n = true;
  u_string_create_ok (s : list byte) : is_Some (u_string_create s);
  u_string_copy_ok (d s : list byte) : (u_string_copy d s).2 = true;
  u_string_set_ok (d s : list byte) : (u_string_set d s).2 = true;
  u_string_append_ok (s b : list byte) : is_Some (u_string_append s b);
  u_string_set_length_ok (s : list byte) (n : nat) :
    n <= length s -> is_Some (u_string_set_length s n);
  u_buf_create_ok : is_Some u_buf_create;
  u_buf_reserve_ok (b : list byte) (n : nat) : is_Some (u_buf_reserve b n);
  u_buf_append_ok (b d : list byte) : is_Some (u_buf_append b d);
  u_list_add_ok {A} (l : list A) (x : A) : is_Some (u_list_add l x);
  u_list_insert_ok {A} (l : list A) (x : A) (n : nat) : n <= length l -> is_Some (u_list_insert l x n)
}.

Section consequences.
Context {L : Libu} {LS : LibuSpec L} {LM : LibuMem L}.

Lemma u_string_append_eq (s b : list byte) : u_string_append s b = Some (s ++ b).
Proof.
  destruct (u_string_append_ok s b) as [r Hr].
  by rewrite Hr, (u_string_append_spec _ _ _ Hr).
Qed.

Lemma u_string_create_eq (s : list byte) : u_string_create s = Some s.
Proof.
  destruct (u_string_create_ok s) as [r Hr].
  by rewrite Hr, (u_string_create_spec _ _ Hr).
Qed.

Lemma u_string_copy_eq (d s : list byte) : u_string_copy d s = (s, true).
Proof.
  destruct (u_string_copy d s) as [r ok] eqn:E. pose proof (u_string_copy_ok d s) as Ho.
  rewrite E in Ho. simpl in Ho. subst ok. by rewrite (u_string_copy_spec _ _ _ E).
Qed.

Lemma u_string_set_eq (d s : list byte) : u_string_set d s = (s, true).
Proof.
  destruct (u_string_set d s) as [r ok] eqn:E. pose proof (u_string_set_ok d s) as Ho.
  rewrite E in Ho. simpl in Ho. subst ok. by rewrite (u_string_set_spec _ _ _ E).
Qed.

Lemma u_string_set_length_eq (s : list byte) (n : nat) :
  n <= length s -> u_string_set_length s n = Some (take n s).
Proof.
  intros Hn. destruct (u_string_set_length_ok s n Hn) as [r Hr].
  by rewrite Hr, (u_string_set_length_spec _ _ _ Hn Hr).
Qed.

Lemma u_buf_create_eq : u_buf_create = Some [].
Proof. destruct u_buf_create_ok as [r Hr]. by rewrite Hr, (u_buf_create_spec _ Hr). Qed.

Lemma u_buf_reserve_eq (b : list byte) (n : nat) : u_buf_reserve b n = Some b.
Proof. destruct (u_buf_reserve_ok b n) as [r Hr]. by rewrite Hr, (u_buf_reserve_spec _ _ _ Hr). Qed.

Lemma u_buf_append_eq (b d : list byte) : u_buf_append b d = Some (b ++ d).
Proof. destruct (u_buf_append_ok b d) as [r Hr]. by rewrite Hr, (u_buf_append_spec _ _ _ Hr). Qed.

Lemma u_list_add_eq {A} (l : list A) (x : A) : u_list_add l x = Some (l ++ [x]).
Proof.
  destruct (u_list_add_ok l x) as [r Hr].
  by rewrite Hr, (u_list_add_spec _ _ _ Hr).
Qed.

Lemma u_list_insert_eq {A} (l : list A) (x : A) (n : nat) : n <= length l ->
  u_list_insert l x n = Some (take n l ++ x :: drop n l).
Proof.
  intros Hn. destruct (u_list_insert_ok l x n Hn) as [r Hr].
  by rewrite Hr, (u_list_insert_spec _ _ _ _ Hn Hr).
Qed.
End consequences.

Fixpoint list_del {A} `{EqDecision A} (l : list A) (x : A) : option (list A) :=
  match l with
  | [] => None
  | y :: l' => if decide (y = x) then Some l' else cons y <$> list_del l' x
  end.

Lemma list_del_spec {A} `{EqDecision A} (a b : list A) (x : A) : x ∉ a -> list_del (a ++ x :: b) x = Some (a ++ b).
Proof.
  induction a as [|y a IH]; simpl; intros Ha; [by rewrite decide_True|].
  rewrite not_elem_of_cons in Ha. destruct Ha as [Hy Ha]. rewrite decide_False by congruence. by rewrite IH.
Qed.

(** An implementation of the contract. *)
Definition libu_ref : Libu := {|
  u_strlcpy s n := (take (n - 1) s, bool_decide (n <= length s));
  u_strlcat d s n := (take (n - 1) (d ++ s), bool_decide (n <= length (d ++ s)));
  u_snprintf s n := (take (n - 1) s, bool_decide (n <= length s));
  u_isblank b := bool_decide (b = " "%byte \/ b = x09);
  u_isnl b := bool_decide (b = x0a \/ b = x0d);
  u_alloc _ := true;
  u_string_create s := Some s;
  u_string_append s b := Some (s ++ b);
  u_string_copy d s := (s, true);
  u_string_set d s := (s, true);
  u_string_set_length s n := Some (take n s);
  u_buf_create := Some [];
  u_buf_reserve b _ := Some b;
  u_buf_append b d := Some (b ++ d);
  u_path_snprintf s n sep := if decide (length s < n) then Some (squeeze sep s) else None;
  u_list_add _ l x := Some (l ++ [x]);
  u_list_get_n _ l n := l !! n;
  u_list_count _ l := length l;
  u_list_insert _ l x n := if decide (n <= length l) then Some (take n l ++ x :: drop n l) else None;
  u_list_del _ _ l x := list_del l x;
  u_list_del_n _ l n := if decide (n < length l) then Some (take n l ++ drop (S n) l) else None
|}.

#[global] Instance libu_ref_spec : LibuSpec libu_ref.
Proof.
  constructor; simpl; try naive_solver.
  - intros s r n sep. case_decide; naive_solver.
  - intros s n sep H. rewrite decide_True; eauto.
  - intros A l r x n H. rewrite decide_True by done. naive_solver.
  - intros A EA a b x Hx. by apply list_del_spec.
  - intros A l n H. by rewrite decide_True.
Qed.

#[global] Instance libu_ref_mem : LibuMem libu_ref.
Proof. constructor; simpl; eauto. intros A l x n Hn. rewrite decide_True; eauto. Qed.
