(* ===== verification/Encode.v ===== *)
(** The text codecs of src/src/libutils/utils.c: SQL quoting, URL escaping,
    hexadecimal and HTML entities.

    Each function reads [slen] bytes at [s] and writes a NUL-terminated string at
    [d].  The model takes the memory readable at [s] (which may extend past [slen]),
    reports a read past it as [Fault], and returns the bytes written before the
    NUL; the C return value is their number, or -1 for [Fail]. *)

From S2P Require Import Prelude Libu.

Inductive copy_mode := COPY_VERBATIM | COPY_ENCODE | COPY_DECODE.

Definition quote : byte := "'".

(** * SQL quoting *)
Module Sql.

Fixpoint u_sqlncpy_encode (s : list byte) (slen : nat) {struct slen} : res (list byte) :=
  match slen with
  | 0 => Ok []
  | S n =>
      match s with
      | [] => Fault
      | c :: s' =>
          if decide (c = quote) then
            (* dbg_err_if(slen < 2) *)
            match n with
            | 0 => Fail
            | S n' => r ← u_sqlncpy_encode s' n'; Ok (c :: quote :: r)
            end
          else r ← u_sqlncpy_encode s' n; Ok (c :: r)
      end
  end.

Fixpoint sql_decode_loop (s : list byte) (slen : nat) (last : byte) {struct slen}
    : res (list byte) :=
  match slen with
  | 0 => Ok []
  | S n =>
      match s with
      | [] => Fault
      | c :: s' =>
          if bool_decide (c = quote) && bool_decide (last = c) then
            sql_decode_loop s' n x00
          else r ← sql_decode_loop s' n c; Ok (c :: r)
      end
  end.

Definition u_sqlncpy_decode (s : list byte) (slen : nat) : res (list byte) :=
  sql_decode_loop s slen x00.

Definition u_sqlncpy `{Libu} (s : list byte) (slen : nat) (flags : copy_mode)
    : res (list byte) :=
  match flags with
  | COPY_ENCODE => u_sqlncpy_encode s slen
  | COPY_DECODE => u_sqlncpy_decode s slen
  | COPY_VERBATIM => Ok (fst (u_strlcpy s (slen + 1)))
  end.

(** Reference: quotes doubled. *)
Definition sql_escape (p : list byte) : list byte :=
  flat_map (fun c => if decide (c = quote) then [c; c] else [c]) p.

Lemma sql_decode_escape (p rest : list byte) :
  u_sqlncpy_decode (sql_escape p ++ rest) (length (sql_escape p)) = Ok p.
Proof.
  unfold u_sqlncpy_decode.
  assert (forall last, last <> quote ->
    sql_decode_loop (sql_escape p ++ rest) (length (sql_escape p)) last = Ok p) as G;
    [|by apply G].
  induction p as [|c p IH]; intros last Hl; [done|].
  simpl. destruct (decide (c = quote)) as [->|Hc]; simpl.
  - rewrite (bool_decide_false (last = quote)) by done. simpl. by rewrite IH.
  - rewrite bool_decide_false by done. simpl. by rewrite IH.
Qed.

(** What a successful encoding has written: the doubled form of a prefix of the
    input, exactly [slen] bytes of it. *)
Lemma sql_encode_prefix (s : list byte) (slen : nat) (r : list byte) :
  u_sqlncpy_encode s slen = Ok r ->
  exists n, n <= slen /\ r = sql_escape (take n s) /\ length r = slen.
Proof.
  revert s r. induction slen as [slen IH] using lt_wf_ind. intros s r.
  destruct slen as [|n]; [intros [= <-]; by exists 0|].
  destruct s as [|c s]; simpl; [done|].
  destruct (decide (c = quote)) as [->|Hc].
  - destruct n as [|n]; [done|].
    destruct (u_sqlncpy_encode s n) as [r'| | |] eqn:E; intros [= <-].
    apply IH in E as (k & Hk & -> & Hl); [|lia].
    exists (S k). split_and!; simpl; [lia|done|lia].
  - destruct (u_sqlncpy_encode s n) as [r'| | |] eqn:E; intros [= <-].
    apply IH in E as (k & Hk & -> & Hl); [|lia].
    exists (S k). simpl. rewrite decide_False by done. split_and!; simpl; [lia|done|lia].
Qed.

(** Input without quotes is copied as it is. *)
Lemma sql_encode_plain (s : list byte) :
  quote ∉ s -> u_sqlncpy_encode s (length s) = Ok s.
Proof.
  induction s as [|c s IH]; simpl; [done|]. intros Hq.
  rewrite decide_False by set_solver. rewrite IH by set_solver. done.
Qed.

(** Decoding what the encoder produced gives back a prefix of the input, and
    the output never exceeds [slen] bytes. *)
Theorem sql_encode_decode (s rest : list byte) (slen : nat) (r : list byte) :
  u_sqlncpy_encode s slen = Ok r ->
  length r = slen /\
  exists n, n <= slen /\ u_sqlncpy_decode (r ++ rest) (length r) = Ok (take n s).
Proof.
  intros (n & Hn & -> & Hl)%sql_encode_prefix. split; [done|].
  exists n. split; [done|]. apply sql_decode_escape.
Qed.

Lemma sql_encode_decode_witness :
  length (bs "it''s") = 5 /\
  exists n, n <= 5 /\ u_sqlncpy_decode (bs "it''s" ++ []) 5 = Ok (take n (bs "it's ok")).
Proof. apply (sql_encode_decode (bs "it's ok") [] 5 (bs "it''s")). reflexivity. Defined.

End Sql.

(** * URL escaping *)
Module Url.

Definition hexc : list byte := bs "0123456789ABCDEF".

(** [hexc[n & 0xF]] *)
Definition hexdigit (n : Z) : byte := nth (Z.to_nat (Z.land n 15)) hexc x00.

Definition htoi (c0 : byte) : Z :=
  let c := tolower c0 in
  if isdigit c then bz c - bz "0"
  else if islower c then bz c - bz "a" + 10
  else 0.

Definition url_encode_char (c : byte) : list byte :=
  if decide (c = " "%byte) then ["+"%byte]
  else if isalnum c || bool_decide (c = "_"%byte) || bool_decide (c = "-"%byte)
          || bool_decide (c = "."%byte) then [c]
  else ["%"%byte; hexdigit (Z.shiftr (bz c) 4); hexdigit (bz c)].

Fixpoint u_urlncpy_encode (s : list byte) (slen : nat) {struct slen} : res (list byte) :=
  match slen with
  | 0 => Ok []
  | S n =>
      match s with
      | [] => Fault
      | c :: s' => r ← u_urlncpy_encode s' n; Ok (url_encode_char c ++ r)
      end
  end.

(** [slen] is a [size_t]: [slen -= 2] and [--slen] wrap around. *)
Fixpoint u_urlncpy_decode (s : list byte) (slen : Z) {struct s} : res (list byte) :=
  if decide (slen = 0%Z) then Ok [] else
  match s with
  | [] => Fault
  | c :: s' =>
      if decide (c = "%"%byte) then
        if decide (slen < 2)%Z then Fail else
        match s' with
        | [] => Fault
        | h :: s1 =>
            if negb (isxdigit h) then Fail else
            match s1 with
            | [] => Fault
            | l :: s2 =>
                if negb (isxdigit l) then Fail else
                r ← u_urlncpy_decode s2 (w64 (w64 (slen - 2) - 1));
                Ok (zb (Z.lor (Z.shiftl (htoi h) 4) (htoi l)) :: r)
            end
        end
      else
        r ← u_urlncpy_decode s' (w64 (slen - 1));
        Ok ((if decide (c = "+"%byte) then " "%byte else c) :: r)
  end.

Definition u_urlncpy `{Libu} (s : list byte) (slen : nat) (flags : copy_mode)
    : res (list byte) :=
  match flags with
  | COPY_ENCODE => u_urlncpy_encode s slen
  | COPY_DECODE => u_urlncpy_decode s (Z.of_nat slen)
  | COPY_VERBATIM => Ok (fst (u_strlcpy s (slen + 1)))
  end.

(** Reference: unescaping of a string, [None] when an escape is malformed. *)
Fixpoint url_unescape (s : list byte) : option (list byte) :=
  match s with
  | [] => Some []
  | c :: s' =>
      if decide (c = "%"%byte) then
        match s' with
        | h :: l :: s2 =>
            if isxdigit h && isxdigit l then
              cons (zb (Z.lor (Z.shiftl (htoi h) 4) (htoi l))) <$> url_unescape s2
            else None
        | _ => None
        end
      else cons (if decide (c = "+"%byte) then " "%byte else c) <$> url_unescape s'
  end.

(** Induction following the escapes. *)
Lemma url_ind (P : list byte -> Prop) :
  P [] -> (forall c s, c <> "%"%byte -> P s -> P (c :: s)) ->
  P ["%"%byte] -> (forall h, P ["%"%byte; h]) ->
  (forall h l s, P s -> P ("%"%byte :: h :: l :: s)) -> forall s, P s.
Proof.
  intros H0 Hc H1 H2 H3 s.
  induction s as [s IH] using (induction_ltof1 _ (@length byte)); unfold ltof in IH.
  destruct s as [|c s]; [done|]. destruct (decide (c = "%"%byte)) as [->|Hne].
  - destruct s as [|h [|l s]]; [done|done|]. apply H3, IH. simpl. lia.
  - apply Hc; [done|]. apply IH. simpl. lia.
Qed.

Lemma w64_pred (n : nat) : (Z.of_nat (S n) < SIZE_MOD)%Z ->
  w64 (Z.of_nat (S n) - 1) = Z.of_nat n.
Proof. intros H. rewrite w64_small by lia. lia. Qed.

Lemma w64_pred3 (n : nat) : (Z.of_nat (S (S (S n))) < SIZE_MOD)%Z ->
  w64 (w64 (Z.of_nat (S (S (S n))) - 2) - 1) = Z.of_nat n.
Proof. intros H. rewrite (w64_small (_ - 2)) by lia. rewrite w64_small by lia. lia. Qed.

Lemma res_fmap_bind {A B} (f : A -> B) (o : option A) :
  (r ← of_option o; Ok (f r)) = of_option (f <$> o).
Proof. by destruct o. Qed.

(** On NUL-terminated input the decoder computes [url_unescape]. *)
Lemma url_decode_cstring (s rest : list byte) :
  (Z.of_nat (length s) < SIZE_MOD)%Z ->
  u_urlncpy_decode (s ++ x00 :: rest) (Z.of_nat (length s)) = of_option (url_unescape s).
Proof.
  induction s as [|c s Hc IH| |h|h l s IH] using url_ind; intros Hlen.
  - done.
  - simpl app. simpl length in *. cbn [u_urlncpy_decode url_unescape].
    rewrite decide_False by lia.
    destruct (decide (c = "%"%byte)); [done|].
    rewrite w64_pred, IH by lia. apply res_fmap_bind.
  - done.
  - cbn. by destruct (isxdigit h).
  - simpl app. simpl length in *. cbn [u_urlncpy_decode url_unescape].
    rewrite decide_False by lia. destruct (decide ("%"%byte = "%"%byte)); [|done].
    rewrite decide_False by lia.
    destruct (isxdigit h); [|done]. destruct (isxdigit l); [|done]. simpl negb. simpl andb.
    cbn iota. rewrite w64_pred3, IH by lia. apply res_fmap_bind.
Qed.

Lemma url_unescape_char (c : byte) (t : list byte) :
  url_unescape (url_encode_char c ++ t) = cons c <$> url_unescape t.
Proof.
  assert (forall c, match url_encode_char c with
    | [d] => d <> "%"%byte /\ (if decide (d = "+"%byte) then " "%byte else d) = c
    | [p; h; l] => p = "%"%byte /\ isxdigit h = true /\ isxdigit l = true /\
                   zb (Z.lor (Z.shiftl (htoi h) 4) (htoi l)) = c
    | _ => False end) as G.
  { intros b. unfold url_encode_char. revert b. intros b; destruct b; vm_compute; intuition discriminate. }
  specialize (G c).
  destruct (url_encode_char c) as [|p [|h [|l [|? ?]]]]; simpl; try done.
  - destruct G as [Hp G]. destruct (decide (p = "%"%byte)); [done|]. by rewrite G.
  - destruct G as (-> & Hh & Hl & G). cbn. by rewrite Hh, Hl, G.
Qed.

Lemma url_encode_total (s rest : list byte) :
  u_urlncpy_encode (s ++ rest) (length s) = Ok (flat_map url_encode_char s).
Proof. induction s as [|c s IH]; simpl; [done|]. by rewrite IH. Qed.

Lemma url_unescape_encode (s : list byte) :
  url_unescape (flat_map url_encode_char s) = Some s.
Proof.
  induction s as [|c s IH]; simpl; [done|]. rewrite url_unescape_char, IH. done.
Qed.

Lemma url_unescape_length (s r : list byte) :
  url_unescape s = Some r -> length r <= length s.
Proof.
  revert r. induction s as [|c s Hc IH| |h|h l s IH] using url_ind; intros r.
  - by intros [= <-].
  - cbn [url_unescape]. rewrite decide_False by done.
    intros (r' & Hr & ->)%fmap_Some. apply IH in Hr. simpl. lia.
  - done.
  - done.
  - cbn. destruct (isxdigit h && isxdigit l); [|done].
    intros (r' & Hr & ->)%fmap_Some. apply IH in Hr. simpl. lia.
Qed.

(** The characters an encoded string is made of. *)
Definition url_safe (c : byte) : bool :=
  isalnum c || bool_decide (c ∈ bs "_-.+%").

Lemma url_encode_char_safe (c : byte) : forallb url_safe (url_encode_char c) = true.
Proof. revert c. byte_brute. Qed.

Lemma url_encode_char_length (c : byte) : 1 <= length (url_encode_char c) <= 3.
Proof. unfold url_encode_char. repeat case_match; simpl; lia. Qed.

(** Decoding the output of the encoder, NUL-terminated as the encoder leaves it,
    succeeds and gives back the input, for every byte string. *)
Theorem url_roundtrip (s mem rest : list byte) :
  (3 * Z.of_nat (length s) < SIZE_MOD)%Z ->
  exists e, u_urlncpy_encode (s ++ mem) (length s) = Ok e /\
            u_urlncpy_decode (e ++ x00 :: rest) (Z.of_nat (length e)) = Ok s.
Proof.
  intros Hl. exists (flat_map url_encode_char s). split; [apply url_encode_total|].
  rewrite url_decode_cstring, url_unescape_encode; [done|].
  enough (length (flat_map url_encode_char s) <= 3 * length s) by lia.
  clear Hl. induction s as [|c s IH]; simpl; [lia|].
  rewrite length_app. pose proof (url_encode_char_length c). lia.
Qed.

Lemma url_roundtrip_witness :
  exists e, u_urlncpy_encode (bs "a b/c&d" ++ []) 7 = Ok e /\
            u_urlncpy_decode (e ++ x00 :: []) (Z.of_nat (length e)) = Ok (bs "a b/c&d").
Proof. apply (url_roundtrip (bs "a b/c&d") [] []). vm_compute. reflexivity. Defined.

(** On a NUL-terminated string of length [slen] the decoder never reads past the
    terminator, fails exactly on malformed escapes and otherwise computes the
    reference unescaping; what it writes fits in [slen] bytes. *)
Theorem url_decode_correct (s rest : list byte) :
  (Z.of_nat (length s) < SIZE_MOD)%Z ->
  u_urlncpy_decode (s ++ x00 :: rest) (Z.of_nat (length s)) = of_option (url_unescape s) /\
  (forall r, url_unescape s = Some r -> length r <= length s).
Proof. intros H. split; [by apply url_decode_cstring|]. intros r. apply url_unescape_length. Qed.

Lemma url_decode_correct_witness :
  u_urlncpy_decode (bs "a%4" ++ x00 :: []) 3 = of_option (url_unescape (bs "a%4")) /\
  (forall r, url_unescape (bs "a%4") = Some r -> length r <= length (bs "a%4")).
Proof. apply (url_decode_correct (bs "a%4") []). vm_compute. reflexivity. Defined.

(** The decoder's guard [slen < 2] is one short: an escape cut by [slen] after its
    first digit, with a hexadecimal digit next in memory, makes [slen] wrap around, and
    the copy runs on to the end of the readable memory. *)
Theorem url_decode_overrun (tail : list byte) :
  (Z.of_nat (length tail) < SIZE_MOD - 1)%Z -> "%"%byte ∉ tail ->
  u_urlncpy_decode (bs "%41" ++ tail) 2 = Fault.
Proof.
  intros Hl Hp. simpl app. cbn.
  enough (forall t n, (Z.of_nat (length t) < n < SIZE_MOD)%Z -> "%"%byte ∉ t ->
    u_urlncpy_decode t n = Fault) as G.
  { rewrite G; [done| |done]. change (w64 (w64 (2 - 2) - 1)) with (SIZE_MOD - 1)%Z. lia. }
  clear. induction t as [|c t IH]; intros n Hn Hp; cbn [u_urlncpy_decode].
  - rewrite decide_False; [done|]. simpl in Hn. lia.
  - cbn [length] in Hn. rewrite decide_False by lia.
    destruct (decide (c = "%"%byte)); [set_solver|].
    rewrite IH; [done| |set_solver]. rewrite w64_small; lia.
Qed.

Lemma url_decode_overrun_witness :
  u_urlncpy_decode (bs "%41" ++ bs "secret") 2 = Fault.
Proof. apply url_decode_overrun; [done|]. set_solver. Defined.

(** The encoder reads exactly [slen] bytes, writes only unreserved characters,
    escapes and [+], and writes up to three bytes per input byte; an input that needs
    all three exists for every length, so a destination of [slen + 1] bytes is too small. *)
Theorem url_encode_output (s mem : list byte) :
  exists e, u_urlncpy_encode (s ++ mem) (length s) = Ok e /\
    Forall (fun c => url_safe c = true) e /\ length s <= length e <= 3 * length s /\
    u_urlncpy_encode (replicate (length s) "/"%byte) (length s)
      = Ok (concat (replicate (length s) (bs "%2F"))).
Proof.
  exists (flat_map url_encode_char s). split; [apply url_encode_total|].
  split; [|split].
  - induction s as [|c s IH]; simpl; [constructor|]. apply Forall_app. split; [|done].
    apply Forall_forall. intros x Hx. pose proof (url_encode_char_safe c) as G.
    rewrite forallb_forall in G. by apply G, list_elem_of_In.
  - induction s as [|c s IH]; simpl; [lia|].
    rewrite length_app. pose proof (url_encode_char_length c). lia.
  - generalize (length s). clear. intros n.
    rewrite <- (app_nil_r (replicate n _)).
    rewrite <- (length_replicate n "/"%byte) at 2. rewrite url_encode_total. f_equal.
    induction n; simpl; [done|]. by rewrite IHn.
Qed.

End Url.

(** * Hexadecimal *)
Module Hex.

Definition u_tochex (n : Z) : byte :=
  if decide (15 < n)%Z then "?"
  else if decide (n < 10)%Z then zb (n + bz "0") else zb (n - 10 + bz "a").

Definition u_hex2ch (c : byte) : Z :=
  if islower c then bz c - bz "a" + 10
  else if isupper c then bz c - bz "A" + 10
  else if isdigit c then bz c - bz "0"
  else -1.

Definition hex_encode_char (c : byte) : list byte :=
  [u_tochex (Z.land (Z.shiftr (bz c) 4) 15); u_tochex (Z.land (bz c) 15)].

Fixpoint u_hexncpy_encode (s : list byte) (slen : nat) {struct slen} : res (list byte) :=
  match slen with
  | 0 => Ok []
  | S n =>
      match s with
      | [] => Fault
      | c :: s' => r ← u_hexncpy_encode s' n; Ok (hex_encode_char c ++ r)
      end
  end.

Fixpoint hex_decode_loop (s : list byte) (slen : nat) {struct slen} : res (list byte) :=
  match slen with
  | S (S n) =>
      match s with
      | h :: l :: s' =>
          r ← hex_decode_loop s' n;
          Ok (zb (Z.lor (Z.shiftl (u_hex2ch h) 4) (u_hex2ch l)) :: r)
      | _ => Fault
      end
  | _ => Ok []
  end.

Definition u_hexncpy_decode (s : list byte) (slen : nat) : res (list byte) :=
  if decide (slen mod 2 <> 0) then Fail else hex_decode_loop s slen.

Definition u_hexncpy `{Libu} (s : list byte) (slen : nat) (flags : copy_mode)
    : res (list byte) :=
  match flags with
  | COPY_ENCODE => u_hexncpy_encode s slen
  | COPY_DECODE => u_hexncpy_decode s slen
  | COPY_VERBATIM => Ok (fst (u_strlcpy s (slen + 1)))
  end.

(** [u_tohex] has the same loop as the encoder. *)
Fixpoint u_tohex (src : list byte) (sz : nat) {struct sz} : res (list byte) :=
  match sz with
  | 0 => Ok []
  | S n =>
      match src with
      | [] => Fault
      | c :: src' =>
          r ← u_tohex src' n;
          Ok (u_tochex (Z.land (Z.shiftr (bz c) 4) 15) :: u_tochex (Z.land (bz c) 15) :: r)
      end
  end.

Lemma hex_char_roundtrip (c : byte) :
  zb (Z.lor (Z.shiftl (u_hex2ch (u_tochex (Z.land (Z.shiftr (bz c) 4) 15))) 4)
            (u_hex2ch (u_tochex (Z.land (bz c) 15)))) = c.
Proof. revert c. byte_brute. Qed.

Lemma hex_encode_total (s mem : list byte) :
  u_hexncpy_encode (s ++ mem) (length s) = Ok (flat_map hex_encode_char s).
Proof. induction s as [|c s IH]; simpl; [done|]. by rewrite IH. Qed.

Lemma hex_encode_length (s : list byte) :
  length (flat_map hex_encode_char s) = length s * 2.
Proof. induction s as [|c s IH]; simpl; [done|]. by rewrite IH. Qed.

(** The hexadecimal encoder doubles the length, and decoding its output gives the
    input back, for every byte string. *)
Theorem hex_roundtrip (s mem rest : list byte) :
  exists e, u_hexncpy_encode (s ++ mem) (length s) = Ok e /\ length e = 2 * length s /\
            u_hexncpy_decode (e ++ rest) (length e) = Ok s.
Proof.
  exists (flat_map hex_encode_char s). rewrite hex_encode_total, hex_encode_length.
  split_and!; [done|lia|]. unfold u_hexncpy_decode.
  rewrite decide_False by (rewrite Nat.Div0.mod_mul; lia).
  induction s as [|c s IH]; simpl; [done|]. by rewrite hex_char_roundtrip, IH.
Qed.

Lemma hex_decode_loop_no_fail (s mem : list byte) :
  hex_decode_loop (s ++ mem) (length s) <> Fail.
Proof.
  induction s as [s IH] using (induction_ltof1 _ (@length byte)); unfold ltof in IH.
  destruct s as [|h [|l s]]; [done|done|]. simpl.
  specialize (IH s ltac:(simpl; lia)). by destruct (hex_decode_loop _ _).
Qed.

(** The decoder rejects odd lengths but no invalid digit: any even number of bytes
    decodes to some string, whatever the characters are. *)
Theorem hex_decode_accepts (s mem : list byte) :
  u_hexncpy_decode (s ++ mem) (length s) = Fail <-> length s mod 2 = 1.
Proof.
  unfold u_hexncpy_decode. pose proof (Nat.mod_upper_bound (length s) 2).
  destruct (decide _) as [Ho|He]; [split; [lia|done]|].
  split; [|lia]. intros G. by apply hex_decode_loop_no_fail in G.
Qed.

End Hex.

(** * Substring and suffix search *)
Module Search.

(** [u_stristr]: offset of the first case-insensitive occurrence. *)
Fixpoint u_stristr (string sub : list byte) : option nat :=
  match string with
  | [] => None
  | _ :: string' =>
      if strcaseprefix sub string then Some 0 else S <$> u_stristr string' sub
  end.

(** [u_strnrchr]: offset of the last [c] among the first [len] bytes. *)
Fixpoint u_strnrchr (s : list byte) (c : byte) (len : nat) : res (option nat) :=
  match len with
  | 0 => Ok None
  | S i =>
      match s !! i with
      | None => Fault
      | Some b => if decide (b = c) then Ok (Some i) else u_strnrchr s c i
      end
  end.

(** [memchr(p, c, n)]: offset of the first [c] in the next [n] bytes. *)
Definition memchr (p : list byte) (c : byte) (n : nat) : option nat := strchr (take n p) c.

(** [u_strnstr]: [p] is the remaining buffer, [off] its offset, [plen] the bytes left. *)
Fixpoint strnstr_loop (fuel : nat) (p sub : list byte) (c0 : byte) (off plen : nat)
    : res (option nat) :=
  match fuel with
  | 0 => Timeout
  | S fuel' =>
      if decide (plen < length sub) then Ok None
      else if strprefix sub p then Ok (Some off)
      else match memchr (drop 1 p) c0 (plen - 1) with
           | None => Ok None
           | Some k => strnstr_loop fuel' (drop (S k) p) sub c0 (off + S k) (plen - S k)
           end
  end.

Definition u_strnstr (buf sub : list byte) (buflen : nat) : res (option nat) :=
  match sub with
  | [] => Ok (Some 0)
  | c0 :: _ => strnstr_loop (S buflen) buf sub c0 0 buflen
  end.

(** [u_match_ext]: the comparison runs backwards from the last characters. *)
Fixpoint match_ext_loop (rfn rext : list byte) {struct rext} : bool :=
  match rext, rfn with
  | [], _ => true
  | e :: rext', f :: rfn' =>
      if decide (tolower f = tolower e) then match_ext_loop rfn' rext' else false
  | _ :: _, [] => false
  end.

Definition u_match_ext (filename extension : option (list byte)) : bool :=
  match filename, extension with
  | Some fn, Some ext =>
      if decide (length fn < length ext) then false
      else match_ext_loop (rev fn) (rev ext)
  | _, _ => false
  end.

Lemma strprefix_spec (t s : list byte) : strprefix t s = true <-> exists r, s = t ++ r.
Proof.
  unfold strprefix. rewrite streq_eq. split.
  - intros H. exists (drop (length t) s). by rewrite <- H, take_drop at 1.
  - intros [r ->]. apply take_app_length.
Qed.

(** [sub] occurs at offset [i], inside the first [buflen] bytes. *)
Definition occurs (buf sub : list byte) (buflen i : nat) : Prop :=
  i + length sub <= buflen /\ strprefix sub (drop i buf) = true.

Lemma occurs_head (c0 : byte) (sub p : list byte) (n j : nat) :
  occurs p (c0 :: sub) n j -> p !! j = Some c0.
Proof.
  intros [_ [r Hr]%strprefix_spec]. rewrite <- (Nat.add_0_r j), <- lookup_drop, Hr. done.
Qed.

Lemma occurs_drop (buf sub : list byte) (n k j : nat) :
  k <= n -> occurs (drop k buf) sub (n - k) j <-> occurs buf sub n (k + j).
Proof. unfold occurs. rewrite drop_drop. intros. intuition lia. Qed.

(** The loop finds the first occurrence at or after its position, or none exists. *)
Lemma strnstr_loop_spec (c0 : byte) (sub : list byte) (fuel off plen : nat) (p : list byte) :
  plen <= length p -> plen < fuel ->
  match strnstr_loop fuel p (c0 :: sub) c0 off plen with
  | Ok (Some i) => off <= i /\ occurs p (c0 :: sub) plen (i - off) /\
                   forall j, j < i - off -> ~ occurs p (c0 :: sub) plen j
  | Ok None => forall j, ~ occurs p (c0 :: sub) plen j
  | _ => False
  end.
Proof.
  revert off plen p. induction fuel as [|fuel IH]; intros off plen p Hp Hf; [lia|].
  cbn [strnstr_loop]. destruct (decide _) as [Hs|Hs].
  { intros j [Hj _]. lia. }
  destruct (strprefix (c0 :: sub) p) eqn:Ep.
  { replace (off - off) with 0 by lia. split_and!; [lia| |lia]. split; [simpl in *; lia|done]. }
  assert (~ occurs p (c0 :: sub) plen 0) as H0.
  { intros [_ Ho]. rewrite drop_0 in Ho. congruence. }
  unfold memchr. destruct (strchr _ _) as [k|] eqn:Ek.
  - apply strchr_Some in Ek as [Ek1 Ek2].
    apply lookup_take_Some in Ek1 as [Ek1 Hk]. rewrite lookup_drop in Ek1.
    assert (forall j, j < S k -> ~ occurs p (c0 :: sub) plen j) as Hlt.
    { intros [|j] Hj Ho; [done|]. apply occurs_head in Ho. apply Ek2.
      apply list_elem_of_lookup. exists j.
      rewrite lookup_take_lt, lookup_take_lt, lookup_drop by lia. done. }
    specialize (IH (off + S k) (plen - S k) (drop (S k) p)).
    rewrite length_drop in IH. specialize (IH ltac:(lia) ltac:(lia)).
    destruct (strnstr_loop _ _ _ _ _ _) as [[i|]| | |]; try done.
    + destruct IH as (Hi & Ho & Hn). rewrite occurs_drop in Ho by lia.
      split_and!; [lia| |].
      * by replace (i - off) with (S k + (i - (off + S k))) by lia.
      * intros j Hj Hoj. destruct (decide (j < S k)); [by eapply Hlt|].
        apply (Hn (j - S k)); [lia|]. rewrite occurs_drop by lia.
        by replace (S k + (j - S k)) with j by lia.
    + intros j Hoj. destruct (decide (j < S k)); [by eapply Hlt|].
      apply (IH (j - S k)). rewrite occurs_drop by lia.
      by replace (S k + (j - S k)) with j by lia.
  - apply strchr_None in Ek. intros [|j] Ho; [done|]. pose proof Ho as [Hb _].
    apply occurs_head in Ho. apply Ek. apply list_elem_of_lookup. exists j.
    rewrite lookup_take_lt, lookup_drop by (simpl in *; lia). done.
Qed.

Lemma match_ext_loop_spec (rfn rext : list byte) :
  match_ext_loop rfn rext = true <->
  length rext <= length rfn /\
  map tolower (take (length rext) rfn) = map tolower rext.
Proof.
  revert rfn. induction rext as [|e rext IH]; intros rfn; simpl.
  - split; [|done]. intros _. split; [lia|done].
  - destruct rfn as [|f rfn]; simpl; [split; [done|intros [H _]; lia]|].
    destruct (decide _) as [E|E]; [rewrite IH|]; split.
    + intros [H1 H2]. split; [lia|]. congruence.
    + intros [H1 [= H2 H3]]. split; [lia|done].
    + done.
    + by intros [H1 [= H2 H3]].
Qed.

(** [u_strnstr] returns the offset of the first occurrence of a non-empty [sub]
    that lies within the first [buflen] bytes, and nothing when there is none. *)
Theorem strnstr_first (buf sub : list byte) (buflen : nat) :
  buflen <= length buf -> sub <> [] ->
  exists o, u_strnstr buf sub buflen = Ok o /\
  match o with
  | Some i => occurs buf sub buflen i /\ forall j, j < i -> ~ occurs buf sub buflen j
  | None => forall j, ~ occurs buf sub buflen j
  end.
Proof.
  intros Hl Hs. destruct sub as [|c0 sub]; [done|]. unfold u_strnstr.
  pose proof (strnstr_loop_spec c0 sub (S buflen) 0 buflen buf Hl ltac:(lia)) as H.
  destruct (strnstr_loop _ _ _ _ _ _) as [[i|]| | |]; try done; eexists; split; try done.
  rewrite Nat.sub_0_r in H. naive_solver.
Qed.

Lemma strnstr_first_witness :
  exists o, u_strnstr (bs "a--b--c") (bs "--c") 7 = Ok o /\
  match o with
  | Some i => occurs (bs "a--b--c") (bs "--c") 7 i /\
              forall j, j < i -> ~ occurs (bs "a--b--c") (bs "--c") 7 j
  | None => forall j, ~ occurs (bs "a--b--c") (bs "--c") 7 j
  end.
Proof. apply strnstr_first; [vm_compute; lia|done]. Defined.

(** [u_match_ext] holds exactly when the name ends with the extension, letter case
    aside; a missing argument never matches. *)
Theorem match_ext_suffix (fn ext : list byte) :
  (u_match_ext (Some fn) (Some ext) = true <->
   exists pre suf, fn = pre ++ suf /\ map tolower suf = map tolower ext) /\
  u_match_ext None (Some ext) = false /\ u_match_ext (Some fn) None = false.
Proof.
  split; [|done]. unfold u_match_ext.
  destruct (decide _) as [Hl|Hl].
  - split; [done|]. intros (pre & suf & -> & Hm%(f_equal length)).
    rewrite !length_map in Hm. rewrite length_app in Hl. lia.
  - rewrite match_ext_loop_spec, !length_rev. split.
    + intros [_ H]. exists (take (length fn - length ext) fn), (drop (length fn - length ext) fn).
      split; [by rewrite take_drop|].
      rewrite firstn_rev, !map_rev in H.
      by apply (f_equal (@rev _)) in H; rewrite !rev_involutive in H.
    + intros (pre & suf & -> & Hm). split; [lia|].
      pose proof (f_equal length Hm) as Hm'. rewrite !length_map in Hm'.
      rewrite rev_app_distr, take_app_le by (rewrite length_rev; lia).
      rewrite <- Hm', <- length_rev, take_ge by lia. by rewrite !map_rev, Hm.
Qed.

End Search.

(** * HTML entities *)
Module Html.
Import Search.

Definition entities : list (byte * list byte) :=
  [("&"%byte, bs "&amp;"); (x22, bs "&quot;"); (quote, bs "&#39;");
   ("<"%byte, bs "&lt;"); (">"%byte, bs "&gt;")].

(** The array [map[256]] that the encoder fills from a table of entities. *)
Definition entity_map (tbl : list (byte * list byte)) (c : byte) : option (list byte) :=
  foldl (fun acc '(k, e) => if decide (k = c) then Some e else acc) None tbl.

Definition html_encode_char (tbl : list (byte * list byte)) (c : byte) : list byte :=
  match entity_map tbl c with None => [c] | Some e => e end.

Fixpoint u_htmlncpy_encode (s : list byte) (slen : nat) {struct slen} : res (list byte) :=
  match slen with
  | 0 => Ok []
  | S n =>
      match s with
      | [] => Fault
      | c :: s' => r ← u_htmlncpy_encode s' n; Ok (html_encode_char entities c ++ r)
      end
  end.

(** The inner [while]: replace the first occurrence of [e] until there is none. *)
Fixpoint html_replace (fuel : nat) (d : list byte) (k : byte) (e : list byte)
    : res (list byte) :=
  match u_stristr d e with
  | None => Ok d
  | Some i =>
      match fuel with
      | 0 => Timeout
      | S fuel' => html_replace fuel' (take i d ++ k :: drop (i + length e) d) k e
      end
  end.

Fixpoint html_decode_passes (tbl : list (byte * list byte)) (d : list byte)
    : res (list byte) :=
  match tbl with
  | [] => Ok d
  | (k, e) :: tbl' => d' ← html_replace (length d) d k e; html_decode_passes tbl' d'
  end.

(** [s] is a C string here: [u_strlcpy] copies it up to its NUL. *)
Definition u_htmlncpy_decode `{Libu} (s : list byte) (slen : nat) : res (list byte) :=
  html_decode_passes entities (fst (u_strlcpy s (slen + 1))).

Definition u_htmlncpy `{Libu} (s : list byte) (slen : nat) (flags : copy_mode)
    : res (list byte) :=
  match flags with
  | COPY_ENCODE => u_htmlncpy_encode s slen
  | COPY_DECODE => u_htmlncpy_decode s slen
  | COPY_VERBATIM => Ok (fst (u_strlcpy s (slen + 1)))
  end.

(** ** The encoder *)

Lemma html_encode_total (s mem : list byte) :
  u_htmlncpy_encode (s ++ mem) (length s) = Ok (flat_map (html_encode_char entities) s).
Proof. induction s as [|c s IH]; simpl; [done|]. by rewrite IH. Qed.

Lemma html_encode_char_no_markup (c : byte) :
  forallb (fun b => negb (bool_decide (b ∈ [x22; quote; "<"%byte; ">"%byte])))
    (html_encode_char entities c) = true.
Proof. revert c. byte_brute. Qed.

Lemma html_encode_char_length (c : byte) :
  1 <= length (html_encode_char entities c) <= 6.
Proof. revert c. byte_brute. Qed.

(** ** The decoder *)

Lemma stristr_bound (d e : list byte) (i : nat) :
  u_stristr d e = Some i -> i < length d /\ strcaseprefix e (drop i d) = true.
Proof.
  revert i. induction d as [|c d IH]; intros i; [done|]. cbn [u_stristr].
  destruct (strcaseprefix e (c :: d)) eqn:E.
  - intros [= <-]. simpl. split; [lia|done].
  - intros (j & Hj & ->)%fmap_Some. apply IH in Hj as [H1 H2]. simpl. split; [lia|done].
Qed.

Lemma strcaseprefix_length (e s : list byte) :
  strcaseprefix e s = true -> length e <= length s.
Proof.
  unfold strcaseprefix. rewrite strcaseeq_eq. intros H%(f_equal length).
  rewrite !length_map, length_take in H. lia.
Qed.

(** Each replacement shortens the string, so the loop ends. *)
Lemma html_replace_total (fuel : nat) (d : list byte) (k : byte) (e : list byte) :
  2 <= length e -> length d <= fuel ->
  exists r, html_replace fuel d k e = Ok r /\ length r <= length d /\ u_stristr r e = None.
Proof.
  intros He. revert d. induction fuel as [|fuel IH]; intros d Hd; cbn [html_replace];
    destruct (u_stristr d e) as [i|] eqn:E; eauto.
  - apply stristr_bound in E. lia.
  - apply stristr_bound in E as [E1 E2]. apply strcaseprefix_length in E2.
    rewrite length_drop in E2.
    destruct (IH (take i d ++ k :: drop (i + length e) d)) as (r & Hr & Hl & Hn).
    { rewrite length_app, length_take. simpl. rewrite length_drop. lia. }
    exists r. split_and!; [done| |done].
    rewrite length_app, length_take in Hl. simpl in Hl. rewrite length_drop in Hl. lia.
Qed.

Lemma html_decode_passes_total (tbl : list (byte * list byte)) (d : list byte) :
  Forall (fun p => 2 <= length (snd p)) tbl ->
  exists r, html_decode_passes tbl d = Ok r /\ length r <= length d.
Proof.
  revert d. induction tbl as [|[k e] tbl IH]; intros d Ht; simpl; [eauto|].
  apply Forall_cons in Ht as [He Ht]. simpl in He.
  destruct (html_replace_total (length d) d k e He (le_n _)) as (r & -> & Hl & _).
  destruct (IH r Ht) as (r' & Hr' & Hl'). simpl. exists r'. split; [done|lia].
Qed.

(** ** Encoded text: pieces that are plain characters or entities of a table *)

Definition amp : byte := "&".

Lemma tolower_amp (b : byte) : tolower b = amp -> b = amp.
Proof. revert b. byte_brute. Qed.

(** A piece of encoded text in which the entity [e] starts nowhere. *)
Definition clean_piece (e p : list byte) : Prop :=
  (amp ∉ drop 1 p) /\ forall d, strcaseprefix e (p ++ d) = false.

Lemma stristr_no_amp (e w d : list byte) :
  amp ∉ w ->
  u_stristr (w ++ d) (amp :: e) = (fun n => length w + n) <$> (u_stristr d (amp :: e)).
Proof.
  induction w as [|c w IH]; intros Hw; simpl app.
  - by destruct (u_stristr d _).
  - cbn [u_stristr]. rewrite IH by set_solver.
    destruct (strcaseprefix _ _) eqn:E.
    + unfold strcaseprefix in E. apply strcaseeq_eq in E. simpl in E.
      injection E as E _. apply tolower_amp in E. set_solver.
    + by destruct (u_stristr d _).
Qed.

Lemma stristr_piece (e p d : list byte) :
  p <> [] -> clean_piece (amp :: e) p ->
  u_stristr (p ++ d) (amp :: e) = (fun n => length p + n) <$> (u_stristr d (amp :: e)).
Proof.
  intros Hp [Hc Hm]. destruct p as [|c p]; [done|]. simpl app. cbn [u_stristr].
  specialize (Hm d). simpl app in Hm. rewrite Hm. simpl in Hc. rewrite drop_0 in Hc.
  rewrite stristr_no_amp by done. by destruct (u_stristr d _).
Qed.

Lemma stristr_pieces (e : list byte) (ps : list (list byte)) (d : list byte) :
  Forall (fun p => p <> [] /\ clean_piece (amp :: e) p) ps ->
  u_stristr (concat ps ++ d) (amp :: e)
  = (fun n => length (concat ps) + n) <$> (u_stristr d (amp :: e)).
Proof.
  induction ps as [|p ps IH]; simpl; intros H.
  - by destruct (u_stristr d _).
  - apply Forall_cons in H as [[H1 H2] H3]. rewrite <- app_assoc, stristr_piece, IH by done.
    destruct (u_stristr d _); simpl; [|done]. rewrite length_app. f_equal. lia.
Qed.

(** One pass of the decoder undoes one entity of the table. *)
Section pass.
Context (k : byte) (e : list byte) (f g : byte -> list byte).
Context (Hk : f k = amp :: e) (Hgk : g k = [k]).
Context (Hfg : forall c, c <> k -> c <> amp -> f c = g c).
Context (Hg : forall c, c <> amp -> g c <> [] /\ clean_piece (amp :: e) (g c)).
Context (Hka : k <> amp).

Lemma html_pass (fuel : nat) (pre post : list byte) :
  amp ∉ pre -> amp ∉ post -> length post <= fuel ->
  html_replace fuel (flat_map g pre ++ flat_map f post) k (amp :: e)
  = Ok (flat_map g (pre ++ post)).
Proof.
  revert fuel pre. induction post as [|c post IH]; intros fuel pre Hpre Hpost Hf.
  - simpl. rewrite !app_nil_r. rewrite flat_map_concat_map.
    destruct fuel; cbn [html_replace];
    (replace (u_stristr _ _) with (@None nat); [done|];
     rewrite <- (app_nil_r (concat _)), stristr_pieces; [done|];
     apply Forall_map, Forall_forall; intros x Hx; apply Hg; by intros ->).
  - destruct (decide (c = k)) as [->|Hne].
    + destruct fuel as [|fuel]; [simpl in Hf; lia|]. cbn [html_replace].
      assert (u_stristr (flat_map g pre ++ flat_map f (k :: post)) (amp :: e)
              = Some (length (flat_map g pre))) as ->.
      { rewrite flat_map_concat_map, stristr_pieces.
        - simpl. rewrite Hk. simpl. unfold strcaseprefix. simpl.
          rewrite take_app_length, strcaseeq_refl. simpl. f_equal. lia.
        - apply Forall_map, Forall_forall. intros x Hx. apply Hg. by intros ->. }
      rewrite take_app_length, <- drop_drop, drop_app_length. simpl flat_map.
      rewrite Hk, drop_app_length.
      specialize (IH fuel (pre ++ [k])). rewrite flat_map_app in IH. simpl in IH.
      rewrite Hgk in IH. simpl in IH. rewrite <- app_assoc in IH. simpl in IH.
      rewrite IH; [by rewrite <- app_assoc|set_solver..|simpl in Hf; lia].
    + simpl flat_map. rewrite (Hfg c) by set_solver.
      specialize (IH fuel (pre ++ [c])). rewrite flat_map_app in IH. simpl in IH.
      rewrite app_nil_r, <- !app_assoc in IH.
      apply IH; [set_solver..|simpl in Hf; lia].
Qed.
End pass.

(** A position at which two strings differ in more than letter case. *)
Definition mismatch (e p : list byte) : bool :=
  existsb (fun '(a, b) => negb (bool_decide (tolower a = tolower b))) (combine e p).

Lemma mismatch_prefix (e p d : list byte) :
  mismatch e p = true -> strcaseprefix e (p ++ d) = false.
Proof.
  revert p. induction e as [|a e IH]; intros p H; [done|].
  destruct p as [|b p]; [done|]. unfold mismatch in H. simpl in H.
  apply not_true_is_false. unfold strcaseprefix. rewrite strcaseeq_eq. simpl.
  intros [= E1 E2]. rewrite bool_decide_true in H by done. simpl in H.
  apply IH with (p := p) in H. unfold strcaseprefix in H.
  apply not_true_iff_false in H. apply H. by rewrite strcaseeq_eq.
Qed.

(** What [html_pass] needs of the pieces, in a form that evaluation decides. *)
Lemma pieces_clean (e : list byte) (g : byte -> list byte) :
  (forall c, c <> amp -> g c <> [] /\ (amp ∉ drop 1 (g c)) /\ mismatch e (g c) = true) ->
  forall c, c <> amp -> g c <> [] /\ clean_piece e (g c).
Proof.
  intros H c Hc. destruct (H c Hc) as (H1 & H2 & H3).
  split; [done|]. split; [done|]. intros d. by apply mismatch_prefix.
Qed.

Lemma html_encode_grows (tbl : list (byte * list byte)) (s : list byte) :
  (forall c, html_encode_char tbl c <> []) ->
  length s <= length (flat_map (html_encode_char tbl) s).
Proof.
  intros H. induction s as [|c s IH]; simpl; [lia|]. rewrite length_app.
  specialize (H c). destruct (html_encode_char tbl c); simpl; [done|lia].
Qed.

(** The pass for the first entity of a table leaves the encoding by its tail. *)
Ltac html_step :=
  match goal with
  | |- context [html_replace (length (flat_map (html_encode_char ((?k, ?e) :: ?t)) ?s)) _ _ _] =>
      let H := fresh in
      assert (html_replace (length (flat_map (html_encode_char ((k, e) :: t)) s))
                (flat_map (html_encode_char ((k, e) :: t)) s) k e
              = Ok (flat_map (html_encode_char t) s)) as H;
      [apply (html_pass k (drop 1 e) (html_encode_char ((k, e) :: t)) (html_encode_char t))
         with (pre := []);
       [done|done|byte_brute|apply pieces_clean; byte_brute|done|set_solver|done
       |apply html_encode_grows; byte_brute]
      |rewrite H; clear H; cbn [mbind res_bind]]
  end.

Lemma html_passes_encoded (s : list byte) :
  amp ∉ s ->
  html_decode_passes entities (flat_map (html_encode_char entities) s) = Ok s.
Proof.
  intros Ha.
  assert (flat_map (html_encode_char entities) s
          = flat_map (html_encode_char (drop 1 entities)) s) as ->.
  { induction s as [|c s IH]; simpl; [done|]. rewrite IH by set_solver. f_equal.
    assert (c <> amp) as Hc by set_solver. revert c Hc Ha. clear.
    intros c Hc _. revert c Hc. byte_brute. }
  unfold entities. simpl drop. cbn [html_decode_passes].
  assert (forall n, html_replace n (flat_map (html_encode_char (drop 1 entities)) s) amp
            (bs "&amp;") = Ok (flat_map (html_encode_char (drop 1 entities)) s)) as Hamp.
  { intros n. assert (u_stristr (flat_map (html_encode_char (drop 1 entities)) s)
      (bs "&amp;") = None) as E.
    { rewrite flat_map_concat_map, <- (app_nil_r (concat _)).
      rewrite (stristr_pieces (bs "amp;")); [done|].
      apply Forall_map, Forall_forall. intros c Hc.
      apply pieces_clean; [byte_brute|]. by intros ->. }
    destruct n; cbn [html_replace]; by rewrite E. }
  rewrite Hamp. cbn [mbind res_bind]. unfold entities. simpl drop.
  do 4 html_step. f_equal. clear. induction s; simpl; congruence.
Qed.

(** Encoded text contains no quote and no angle bracket, whatever the input, so it
    cannot open or close a tag or an attribute; one input byte becomes 1 to 6 bytes. *)
Theorem html_encode_no_markup (s mem : list byte) :
  exists e, u_htmlncpy_encode (s ++ mem) (length s) = Ok e /\
    Forall (fun b => b <> x22 /\ b <> quote /\ b <> "<"%byte /\ b <> ">"%byte) e /\
    length s <= length e <= 6 * length s.
Proof.
  exists (flat_map (html_encode_char entities) s). split; [apply html_encode_total|].
  split; induction s as [|c s IH]; simpl; [constructor| |lia|].
  - apply Forall_app. split; [|done]. pose proof (html_encode_char_no_markup c) as G.
    rewrite forallb_forall in G. apply Forall_forall. intros b Hb.
    specialize (G b ltac:(by apply list_elem_of_In)).
    apply negb_true_iff, bool_decide_eq_false in G. set_solver.
  - rewrite length_app. pose proof (html_encode_char_length c). lia.
Qed.

(** The in-place decoder always ends, and what it leaves fits in [slen] bytes. *)
Theorem html_decode_terminates {L : Libu} {LS : LibuSpec L} (s : list byte) (slen : nat) :
  exists r, u_htmlncpy_decode s slen = Ok r /\ length r <= min slen (length s).
Proof.
  unfold u_htmlncpy_decode. rewrite u_strlcpy_spec by lia. simpl fst.
  destruct (html_decode_passes_total entities (take (slen + 1 - 1) s)) as (r & Hr & Hl).
  { repeat constructor; simpl; lia. }
  exists r. split; [done|]. rewrite length_take in Hl. lia.
Qed.

Lemma html_decode_terminates_witness :
  exists r, @u_htmlncpy_decode libu_ref (bs "&amp;amp;") 9 = Ok r /\
            length r <= min 9 (length (bs "&amp;amp;")).
Proof. exact (@html_decode_terminates libu_ref libu_ref_spec (bs "&amp;amp;") 9). Defined.

(** Decoding undoes encoding for text without ampersands. *)
Theorem html_roundtrip {L : Libu} {LS : LibuSpec L} (s : list byte) :
  amp ∉ s ->
  exists e, u_htmlncpy_encode s (length s) = Ok e /\
            u_htmlncpy_decode e (length e) = Ok s.
Proof.
  intros Ha. exists (flat_map (html_encode_char entities) s). split.
  - rewrite <- (app_nil_r s) at 1. apply html_encode_total.
  - unfold u_htmlncpy_decode. rewrite u_strlcpy_spec by lia. simpl fst.
    rewrite take_ge by lia. by apply html_passes_encoded.
Qed.

Lemma html_roundtrip_witness :
  exists e, u_htmlncpy_encode (bs "<a href='x'>") 12 = Ok e /\
            @u_htmlncpy_decode libu_ref e (length e) = Ok (bs "<a href='x'>").
Proof. apply (@html_roundtrip libu_ref libu_ref_spec (bs "<a href='x'>")). set_solver. Defined.

(** With an ampersand the two are not inverse: the decoder's first pass produces
    text that its later passes decode again, so an escaped entity loses its escape. *)
Theorem html_roundtrip_fails {L : Libu} {LS : LibuSpec L} :
  exists s e r, u_htmlncpy_encode s (length s) = Ok e /\
    u_htmlncpy_decode e (length e) = Ok r /\ r <> s.
Proof.
  exists (bs "&lt;"), (bs "&amp;lt;"), (bs "<"). split_and!; [done| |done].
  unfold u_htmlncpy_decode. rewrite u_strlcpy_spec by (simpl; lia). reflexivity.
Qed.

Lemma html_roundtrip_fails_witness :
  exists s e r, u_htmlncpy_encode s (length s) = Ok e /\
    @u_htmlncpy_decode libu_ref e (length e) = Ok r /\ r <> s.
Proof. exact (@html_roundtrip_fails libu_ref libu_ref_spec). Defined.

End Html.
