(* ===== verification/Addr.v ===== *)
(** Address strings of src/src/libutils/utils.c: splitting "addr:port" and building it. *)

From S2P Require Import Prelude Libu.

Definition colon : byte := ":".
Definition slash : byte := "/".

Section addr.
Context {L : Libu}.

(** The string left in [d] by a successful call, [None] for a NULL return. *)
Definition u_addr_get_ip (a : list byte) (dlen : nat) : option (list byte) :=
  if decide (dlen = 0) then None else
  let copy_upto (e : option nat) (off : nat) :=
    match e with
    | Some i => Some (fst (u_strlcpy (drop off a) (min (i - off + 1) dlen)))
    | None => None
    end in
  match a with
  | c :: _ =>
      if decide (c = slash) then Some (fst (u_strlcpy a dlen))
      else if decide (c = "["%byte) then copy_upto (strchr a "]") 1
      else copy_upto (strchr a colon) 0
  | [] => copy_upto (strchr a colon) 0
  end.

(** [for (p = e; *p != ':' && p > a; --p)] *)
Fixpoint port_scan (a : list byte) (p : nat) : nat :=
  if decide (a !! p = Some colon) then p else
  match p with 0 => 0 | S p' => port_scan a p' end.

Definition u_addr_get_port (a : list byte) (dlen : nat) : option (list byte) :=
  if decide (dlen = 0) then None else
  if decide (head a = Some slash) then Some [] else
  let p := port_scan a (length a) in
  Some (fst (u_strlcpy (if decide (0 < p) then drop (p + 1) a else []) dlen)).

Definition u_addr_fmt (ip port : option (list byte)) (dlen : nat) : option (list byte) :=
  if decide (dlen = 0) then None else
  match ip with
  | None | Some [] => Some []
  | Some ((c :: _) as ip) =>
      if decide (c = slash) then Some (fst (u_strlcpy ip dlen)) else
      let isv6 := match strchr ip "." with Some _ => false | None => true end in
      Some (fst (u_snprintf ((if isv6 then bs "[" else []) ++ ip ++
                             (if isv6 then bs "]" else []) ++ bs ":" ++
                             default (bs "0") port) dlen))
  end.

Lemma port_scan_app (a t : list byte) (n : nat) :
  colon ∉ t -> n <= length t ->
  port_scan (a ++ colon :: t) (length a + S n) = length a.
Proof.
  intros Ht Hn. assert (forall m, m <= S n ->
    port_scan (a ++ colon :: t) (length a + m) = length a) as G; [|by apply G].
  intros m. induction m as [|m IH]; intros Hm.
  - rewrite Nat.add_0_r. destruct (length a) eqn:E; cbn [port_scan];
      rewrite decide_True; try done; rewrite <- E; apply list_lookup_middle; done.
  - rewrite Nat.add_succ_r. cbn [port_scan]. rewrite decide_False; [apply IH; lia|].
    rewrite lookup_app_r by lia. replace (S (length a + m) - length a) with (S m) by lia.
    simpl. intros H. apply Ht, list_elem_of_lookup. eauto.
Qed.

(** An IPv4 address or name (with a dot) or an IPv6 address (without). *)
Definition ip_text (ip : list byte) : Prop :=
  match head ip with
  | Some c => c <> slash
  | None => False
  end /\
  if decide ("."%byte ∈ ip) then head ip <> Some "["%byte /\ colon ∉ ip
  else "]"%byte ∉ ip.
End addr.

Section addr_props.
Context {L : Libu} {LS : LibuSpec L}.

Lemma get_port_fmt (pre port : list byte) (dlen : nat) :
  head pre <> Some slash -> pre <> [] -> colon ∉ port -> length port < dlen ->
  u_addr_get_port (pre ++ colon :: port) dlen = Some port.
Proof.
  intros Hs Hn Hp Hd. unfold u_addr_get_port. rewrite decide_False by lia.
  destruct pre as [|c pre]; [done|]. simpl app. simpl head in *.
  rewrite decide_False by (intros [= ->]; by apply Hs).
  change (c :: pre ++ colon :: port) with ((c :: pre) ++ colon :: port).
  replace (length _) with (length (c :: pre) + S (length port))
    by (rewrite length_app; simpl; lia).
  rewrite port_scan_app by done. simpl length. rewrite decide_True by lia.
  rewrite u_strlcpy_spec by lia. simpl fst. f_equal.
  rewrite Nat.add_1_r. simpl drop. rewrite drop_middle. apply take_ge. lia.
Qed.

Lemma get_ip_v4 (ip port : list byte) (dlen : nat) :
  head ip <> Some slash -> head ip <> Some "["%byte -> ip <> [] -> colon ∉ ip ->
  length ip < dlen -> u_addr_get_ip (ip ++ colon :: port) dlen = Some ip.
Proof.
  intros Hs Hb Hn Hc Hd. unfold u_addr_get_ip. rewrite decide_False by lia. cbv zeta.
  rewrite strchr_app, Nat.sub_0_r, drop_0, Nat.min_l by (done || lia).
  rewrite !u_strlcpy_spec by lia. simpl fst. rewrite Nat.add_sub, take_app_length.
  destruct ip as [|c ip]; [done|]. simpl app. cbn iota.
  rewrite decide_False by (intros ->; by apply Hs).
  by rewrite decide_False by (intros ->; by apply Hb).
Qed.

Lemma get_ip_v6 (ip port : list byte) (dlen : nat) :
  "]"%byte ∉ ip -> length ip < dlen ->
  u_addr_get_ip (("["%byte :: ip ++ ["]"%byte]) ++ colon :: port) dlen = Some ip.
Proof.
  intros Hc Hd. unfold u_addr_get_ip. rewrite decide_False by lia. cbv zeta.
  simpl app. cbn iota. destruct (decide ("["%byte = slash)) as [|_]; [done|].
  destruct (decide ("["%byte = "["%byte)) as [_|]; [|done].
  replace ("["%byte :: (ip ++ ["]"%byte]) ++ colon :: port)
    with (("["%byte :: ip) ++ "]"%byte :: colon :: port) by (simpl; by rewrite <- app_assoc).
  rewrite strchr_app by set_solver. simpl. rewrite drop_0, Nat.sub_0_r.
  rewrite u_strlcpy_spec by lia. simpl fst.
  rewrite Nat.min_l by lia. by rewrite Nat.add_sub, take_app_length.
Qed.

(** The address built from an IP and a port splits back into the two, for both the
    IPv4 and the bracketed IPv6 form, whenever the buffers are large enough. *)
Theorem addr_roundtrip (ip port : list byte) (dlen : nat) :
  ip_text ip -> colon ∉ port -> length ip + length port + 3 < dlen ->
  exists a, u_addr_fmt (Some ip) (Some port) dlen = Some a /\
            u_addr_get_ip a dlen = Some ip /\ u_addr_get_port a dlen = Some port.
Proof.
  intros [Hh Hip] Hp Hd. unfold u_addr_fmt. rewrite decide_False by lia.
  destruct ip as [|c ip]; [done|]. simpl head in Hh. rewrite decide_False by done.
  rewrite u_snprintf_spec by lia. eexists. split; [done|].
  cbn [fst default option_rect from_option].
  assert (length (c :: ip) = S (length ip)) as Hl by done.
  destruct (decide ("."%byte ∈ c :: ip)) as [Hdot|Hdot].
  - destruct Hip as [Hb Hc].
    destruct (strchr (c :: ip) ".") eqn:E; [|by apply strchr_None in E].
    change (_ ++ _ ++ _ ++ _ ++ _) with ((c :: ip) ++ colon :: port).
    rewrite take_ge by (rewrite length_app; cbn [length] in *; lia).
    split; [apply get_ip_v4|apply get_port_fmt]; simpl in *; naive_solver lia.
  - rewrite (proj2 (strchr_None _ _) Hdot).
    replace (_ ++ _ ++ _ ++ _ ++ _) with (("["%byte :: (c :: ip) ++ ["]"%byte]) ++ colon :: port)
      by (simpl; by rewrite <- !app_assoc).
    rewrite take_ge by (cbn; rewrite !length_app; cbn; lia).
    split; [apply get_ip_v6|apply get_port_fmt]; simpl in *; naive_solver lia.
Qed.
End addr_props.

Lemma addr_roundtrip_witness :
  exists a, @u_addr_fmt libu_ref (Some (bs "10.0.0.1")) (Some (bs "80")) 64 = Some a /\
    @u_addr_get_ip libu_ref a 64 = Some (bs "10.0.0.1") /\
    @u_addr_get_port libu_ref a 64 = Some (bs "80").
Proof.
  apply (@addr_roundtrip libu_ref libu_ref_spec (bs "10.0.0.1") (bs "80") 64).
  - split; [done|]. rewrite decide_True by compute_decide. split; [done|]. compute_decide.
  - compute_decide.
  - compute_decide.
Defined.
