(* ===== verification/Path.v ===== *)
(** Path normalisation: src/src/libutils/path.c.

    [u_uri_normalize] rewrites a path in place.  The model returns the string it leaves
    in the buffer.  The abstract specification works on the list of path components. *)

From S2P Require Import Prelude Libu.

Definition SLASH : byte := "/".
Definition BACKSLASH : byte := "\".

Definition is_slash (c : byte) : bool := bool_decide (c = SLASH).

Section path.
Context {L : Libu}.

(** [for(; len && *cs != SLASH; --len, --cs)] *)
Fixpoint crop_loop (s : list byte) (len : nat) : nat :=
  match len with
  | 0 => 0
  | S n => if decide (s !! n = Some SLASH) then len else crop_loop s n
  end.

(** One token of the path: the body of the [strtok_r] loop. *)
Definition uri_step (s tok : list byte) : option (list byte) :=
  if streq tok [] then Some s
  else if streq tok (bs ".") then Some s
  else if streq tok (bs "..") then
    let len := crop_loop s (length s) in
    u_string_set_length s (match len with 0 => 0 | S n => n end)
  else u_string_append s (SLASH :: tok).

Fixpoint uri_loop (s : list byte) (toks : list (list byte)) : option (list byte) :=
  match toks with
  | [] => Some s
  | t :: toks' => s' ← uri_step s t; uri_loop s' toks'
  end.

Definition u_uri_normalize (path0 : list byte) : res (list byte) :=
  let path := map (fun c => if decide (c = BACKSLASH) then SLASH else c) path0 in
  if decide (head path <> Some SLASH) then Fail else
  let trsl := bool_decide (last path = Some SLASH) in
  if negb (u_alloc (length path + 1)) then Fail else
  of_option (
    s ← uri_loop [] (strtok is_slash path);
    if decide (s = [] \/ trsl = true) then u_string_append s [SLASH] else Some s).
End path.

(** ** Specification on components *)

Definition dot : list byte := bs ".".
Definition dotdot : list byte := bs "..".

(** A stack machine: "." is skipped, ".." removes the last component, if any. *)
Definition resolve_step (st : list (list byte)) (t : list byte) : list (list byte) :=
  if decide (t = dot) then st
  else if decide (t = dotdot) then removelast st
  else st ++ [t].

Definition resolve (ts : list (list byte)) : list (list byte) := foldl resolve_step [] ts.

Definition render (st : list (list byte)) : list byte := concat (map (cons SLASH) st).

Definition to_slashes (path : list byte) : list byte :=
  map (fun c => if decide (c = BACKSLASH) then SLASH else c) path.

Definition uri_spec (path : list byte) : list byte :=
  let st := resolve (strtok is_slash (to_slashes path)) in
  render st ++ (if decide (st = [] \/ last (to_slashes path) = Some SLASH) then [SLASH] else []).

(** A component that may appear in a normalised path. *)
Definition clean_comp (t : list byte) : Prop :=
  is_token is_slash t /\ t <> dot /\ t <> dotdot.

Lemma removelast_Forall {A} (P : A -> Prop) (l : list A) : Forall P l -> Forall P (removelast l).
Proof.
  intros H. destruct l as [|x l _] using rev_ind; [done|].
  rewrite removelast_last. by apply Forall_app in H as [H _].
Qed.

Lemma resolve_step_clean (st : list (list byte)) (t : list byte) :
  is_token is_slash t -> Forall clean_comp st -> Forall clean_comp (resolve_step st t).
Proof.
  intros Ht Hst. unfold resolve_step. repeat case_decide; [done|by apply removelast_Forall|].
  apply Forall_app. split; [done|]. by repeat constructor; try apply Ht.
Qed.

Lemma resolve_clean (ts : list (list byte)) :
  Forall (is_token is_slash) ts -> Forall clean_comp (resolve ts).
Proof.
  unfold resolve. intros Hts. assert (Forall clean_comp []) as H0 by constructor.
  revert H0. generalize (@nil (list byte)) as st.
  induction Hts as [|t ts Ht Hts IH]; intros st Hst; simpl; [done|].
  by apply IH, resolve_step_clean.
Qed.

Lemma render_app (a b : list (list byte)) : render (a ++ b) = render a ++ render b.
Proof. unfold render. by rewrite map_app, concat_app. Qed.

Lemma crop_loop_render (pre t : list byte) (n : nat) :
  Forall (fun c => is_slash c = false) t -> n <= length t ->
  crop_loop (pre ++ SLASH :: t) (length pre + S n) = S (length pre).
Proof.
  intros Ht. induction n as [|n IH]; intros Hn.
  - rewrite Nat.add_1_r. cbn [crop_loop]. rewrite decide_True; [done|].
    by apply list_lookup_middle.
  - rewrite Nat.add_succ_r. cbn [crop_loop]. rewrite decide_False; [apply IH; lia|].
    rewrite lookup_app_r by lia. replace (length pre + S n - length pre) with (S n) by lia.
    simpl. intros H. rewrite Forall_lookup in Ht. specialize (Ht n SLASH H).
    done.
Qed.

Lemma crop_loop_le (s : list byte) (n : nat) : crop_loop s n <= n.
Proof. induction n; simpl; [lia|]. case_decide; lia. Qed.

Section refinement.
Context {L : Libu} {LS : LibuSpec L}.

Lemma crop_render (st : list (list byte)) (r : list byte) :
  Forall (is_token is_slash) st ->
  uri_step (render st) dotdot = Some r -> r = render (removelast st).
Proof.
  intros Hst. unfold uri_step. simpl.
  destruct st as [|t st _] using rev_ind.
  - simpl. intros H. apply u_string_set_length_spec in H; [|lia]. by rewrite H.
  - apply Forall_app in Hst as [_ Ht]. apply Forall_cons in Ht as [[Hne Ht] _].
    rewrite removelast_last, render_app.
    replace (render [t]) with (SLASH :: t) by (unfold render; simpl; by rewrite app_nil_r).
    rewrite !length_app. cbn [length]. rewrite crop_loop_render by done.
    intros H. apply u_string_set_length_spec in H; [|rewrite length_app; lia].
    by rewrite H, take_app_length.
Qed.

(** One loop iteration refines one step of the stack machine. *)
Lemma uri_step_spec (st : list (list byte)) (t r : list byte) :
  Forall (is_token is_slash) st -> is_token is_slash t ->
  uri_step (render st) t = Some r -> r = render (resolve_step st t).
Proof.
  intros Hst [Hne Ht]. unfold resolve_step.
  destruct (decide (t = dotdot)) as [->|Hdd]; [by apply crop_render|].
  unfold uri_step. unfold streq. rewrite (bool_decide_false (t = [])) by done.
  destruct (decide (t = dot)) as [->|Hd].
  - simpl. by intros [= <-].
  - rewrite !bool_decide_false by done. intros H. apply u_string_append_spec in H.
    rewrite H, render_app. unfold render at 3. simpl. by rewrite app_nil_r.
Qed.

Lemma resolve_step_tokens (st : list (list byte)) (t : list byte) :
  is_token is_slash t -> Forall (is_token is_slash) st ->
  Forall (is_token is_slash) (resolve_step st t).
Proof.
  intros Ht Hst. unfold resolve_step. repeat case_decide; [done|by apply removelast_Forall|].
  apply Forall_app. split; [done|]. by repeat constructor; try apply Ht.
Qed.

Lemma uri_loop_spec (ts st : list (list byte)) (r : list byte) :
  Forall (is_token is_slash) ts -> Forall (is_token is_slash) st ->
  uri_loop (render st) ts = Some r -> r = render (foldl resolve_step st ts).
Proof.
  intros Hts. revert st. induction Hts as [|t ts Ht Hts IH]; intros st Hst; simpl.
  - by intros [= <-].
  - destruct (uri_step (render st) t) as [s'|] eqn:E; [|done].
    apply uri_step_spec in E; [|done..]. subst s'. apply IH.
    by apply resolve_step_tokens.
Qed.

Lemma uri_loop_total {LM : LibuMem L} (ts : list (list byte)) (s : list byte) :
  is_Some (uri_loop s ts).
Proof.
  revert s. induction ts as [|t ts IH]; intros s; simpl; [eauto|].
  assert (is_Some (uri_step s t)) as [s' ->]; [|apply IH].
  unfold uri_step. pose proof (crop_loop_le s (length s)) as Hc.
  repeat case_match; eauto using u_string_append_ok; apply u_string_set_length_ok; lia.
Qed.

Lemma render_nil (st : list (list byte)) : render st = [] <-> st = [].
Proof. destruct st; done. Qed.

Lemma uri_normalize_spec (path r : list byte) :
  u_uri_normalize path = Ok r -> r = uri_spec path /\ head (to_slashes path) = Some SLASH.
Proof.
  unfold u_uri_normalize. fold (to_slashes path). cbv zeta.
  destruct (decide _) as [Hh|Hh]; [done|]. destruct (u_alloc _); [|done]. simpl.
  destruct (uri_loop [] _) as [s|] eqn:E; [|done]. simpl.
  apply (uri_loop_spec _ []) in E; [|apply strtok_tokens|constructor].
  intros H. split; [|destruct (decide (head (to_slashes path) = Some SLASH)); naive_solver].
  unfold uri_spec. fold (resolve (strtok is_slash (to_slashes path))) in E. rewrite <- E.
  assert (s = [] <-> resolve (strtok is_slash (to_slashes path)) = []) as Hn
    by (rewrite E; apply render_nil).
  destruct (decide (s = [] \/ _)) as [Hc|Hc]; destruct (decide (_ \/ _)) as [Hc'|Hc'].
  - destruct (u_string_append s [SLASH]) eqn:Ea; [|done].
    apply u_string_append_spec in Ea. by injection H as <-.
  - rewrite bool_decide_eq_true in Hc. naive_solver.
  - rewrite bool_decide_eq_true in Hc. naive_solver.
  - injection H as <-. by rewrite app_nil_r.
Qed.

Lemma uri_normalize_total {LM : LibuMem L} (path : list byte) :
  head (to_slashes path) = Some SLASH -> exists r, u_uri_normalize path = Ok r.
Proof.
  intros Hh. unfold u_uri_normalize. fold (to_slashes path). cbv zeta.
  rewrite decide_False by naive_solver. rewrite u_alloc_ok. simpl.
  destruct (uri_loop_total (strtok is_slash (to_slashes path)) []) as [s ->]. simpl.
  case_decide; [|by eexists].
  destruct (u_string_append_ok s [SLASH]) as [r ->]. by eexists.
Qed.
End refinement.

(** ** Size of the result, and normal forms *)

Definition weight (ts : list (list byte)) : nat := length (render ts).

Lemma weight_app (a b : list (list byte)) : weight (a ++ b) = weight a + weight b.
Proof. unfold weight. by rewrite render_app, length_app. Qed.

Lemma weight_removelast (st : list (list byte)) : weight (removelast st) <= weight st.
Proof.
  destruct st as [|x st _] using rev_ind; [done|].
  rewrite removelast_last, weight_app. lia.
Qed.

Lemma weight_resolve (ts : list (list byte)) : weight (resolve ts) <= weight ts.
Proof.
  unfold resolve. enough (forall st, weight (foldl resolve_step st ts) <= weight st + weight ts)
    as G by apply (G []).
  induction ts as [|t ts IH]; intros st; simpl; [lia|].
  etrans; [apply IH|]. unfold resolve_step.
  change (t :: ts) with ([t] ++ ts). rewrite (weight_app [t]).
  pose proof (weight_removelast st). repeat case_decide; rewrite ?weight_app; lia.
Qed.

Lemma weight_strtok (s : list byte) : weight (strtok is_slash s) <= S (length s).
Proof.
  etrans; [|apply (strtok_length is_slash)]. unfold weight, render.
  induction (strtok is_slash s) as [|t ts IH]; [done|].
  csimpl. rewrite length_app. lia.
Qed.

Lemma uri_spec_length (path : list byte) :
  head (to_slashes path) = Some SLASH -> length (uri_spec path) <= length path.
Proof.
  intros Hh. assert (length path = length (to_slashes path)) as ->
    by (unfold to_slashes; by rewrite length_map).
  unfold uri_spec. generalize dependent (to_slashes path). clear path.
  intros [|c p] [= ->]. rewrite length_app.
  change (length (render ?st)) with (weight st).
  assert (forall q, strtok is_slash (SLASH :: q) = strtok is_slash q) as Hs
    by (intros; by apply strtok_cons_delim).
  rewrite Hs. destruct p as [|d p _] using rev_ind; [done|].
  pose proof (weight_resolve (strtok is_slash (p ++ [d]))) as Hr.
  pose proof (weight_strtok (p ++ [d])) as Hw.
  rewrite app_comm_cons, last_snoc. simpl. rewrite length_app in *. simpl in *.
  destruct (decide (d = SLASH)) as [->|Hd].
  - rewrite strtok_snoc_delim in * by done. pose proof (weight_strtok p).
    case_decide; simpl; lia.
  - case_decide as Hc; simpl; [|lia]. destruct Hc as [->|[=]]; [|done]. simpl. lia.
Qed.

Lemma resolve_tokens (path : list byte) :
  Forall clean_comp (resolve (strtok is_slash (to_slashes path))).
Proof. apply resolve_clean, strtok_tokens. Qed.

Lemma resolve_id (st : list (list byte)) : Forall clean_comp st -> resolve st = st.
Proof.
  unfold resolve. intros H. enough (forall a, foldl resolve_step a st = a ++ st) as G by apply (G []).
  induction H as [|t st (Ht & Hd & Hdd) Hst IH]; intros a; simpl; [by rewrite app_nil_r|].
  unfold resolve_step at 2. rewrite !decide_False by done.
  by rewrite IH, <- app_assoc.
Qed.

Lemma resolve_Forall (P : list byte -> Prop) (ts : list (list byte)) :
  Forall P ts -> Forall P (resolve ts).
Proof.
  unfold resolve. intros Hts. assert (Forall P []) as H0 by constructor. revert H0.
  generalize (@nil (list byte)). induction Hts as [|t ts Ht Hts IH]; intros st Hst; simpl; [done|].
  apply IH. unfold resolve_step. repeat case_decide; [done|by apply removelast_Forall|].
  apply Forall_app. split; [done|]. by apply Forall_singleton.
Qed.

Lemma to_slashes_no_backslash (path : list byte) :
  Forall (fun c => c <> BACKSLASH) (to_slashes path).
Proof. unfold to_slashes. apply Forall_map, Forall_true. intros c. by case_decide. Qed.

Lemma to_slashes_id (p : list byte) : Forall (fun c => c <> BACKSLASH) p -> to_slashes p = p.
Proof.
  unfold to_slashes. induction 1 as [|c p Hc Hp IH]; simpl; [done|].
  by rewrite decide_False, IH.
Qed.

Lemma render_Forall (P : byte -> Prop) (st : list (list byte)) :
  P SLASH -> Forall (Forall P) st -> Forall P (render st).
Proof.
  intros HS. unfold render. induction 1; simpl; [constructor|].
  constructor; [done|]. by apply Forall_app.
Qed.

Lemma uri_spec_tokens (path : list byte) :
  strtok is_slash (uri_spec path) = resolve (strtok is_slash (to_slashes path)).
Proof.
  unfold uri_spec. apply strtok_render; [done| |].
  - eapply Forall_impl; [apply resolve_tokens|]. by intros t [H _].
  - case_decide; [by apply Forall_singleton|constructor].
Qed.

Lemma last_render (st : list (list byte)) :
  Forall clean_comp st -> last (render st) <> Some SLASH.
Proof.
  intros H. destruct st as [|t st _] using rev_ind; [done|].
  apply Forall_app in H as [_ [[[Hne Ht] _] _]%Forall_cons].
  rewrite render_app. unfold render at 2. simpl. rewrite app_nil_r.
  destruct t as [|c t _] using rev_ind; [done|].
  rewrite app_comm_cons, app_assoc, last_snoc. intros [= ->].
  apply Forall_app in Ht as [_ [Ht _]%Forall_cons]. done.
Qed.

Lemma uri_spec_idem (path : list byte) : uri_spec (uri_spec path) = uri_spec path.
Proof.
  assert (to_slashes (uri_spec path) = uri_spec path) as Hb.
  { apply to_slashes_id. unfold uri_spec. apply Forall_app. split.
    - apply render_Forall; [done|]. apply resolve_Forall, strtok_Forall, to_slashes_no_backslash.
    - case_decide; [by apply Forall_singleton|constructor]. }
  unfold uri_spec at 1. cbv zeta. rewrite Hb, uri_spec_tokens.
  pose proof (resolve_tokens path) as Hc. rewrite resolve_id by done.
  set (st := resolve (strtok is_slash (to_slashes path))) in *.
  assert (uri_spec path = render st ++
    (if decide (st = [] \/ last (to_slashes path) = Some SLASH) then [SLASH] else [])) as E
    by reflexivity.
  assert ((st = [] \/ last (uri_spec path) = Some SLASH) <->
          (st = [] \/ last (to_slashes path) = Some SLASH)) as Hl.
  { rewrite E. case_decide as Hd; [rewrite last_snoc; naive_solver|].
    rewrite app_nil_r. apply last_render in Hc. naive_solver. }
  etrans; [|symmetry; exact E]. f_equal.
  destruct (decide (st = [] \/ last (uri_spec path) = _)), (decide (st = [] \/ _)); naive_solver.
Qed.

(** ** Properties *)
Section properties.
Context {L : Libu} {LS : LibuSpec L}.

(** A normalised path is absolute and every component of it is a plain name: no
    empty, "." or ".." component survives, so no path leads above the root; the result
    is not longer than the input, so copying it back into the buffer is within bounds. *)
Theorem uri_normalize_safe (path r : list byte) :
  u_uri_normalize path = Ok r ->
  head r = Some SLASH /\ Forall clean_comp (strtok is_slash r) /\ length r <= length path /\
  exists st tail, r = render st ++ tail /\ Forall clean_comp st /\ (tail = [] \/ tail = [SLASH]).
Proof.
  intros [-> Hh]%uri_normalize_spec. split_and!.
  - unfold uri_spec. cbv zeta. destruct (resolve _); [|done].
    rewrite decide_True by naive_solver. done.
  - rewrite uri_spec_tokens. apply resolve_tokens.
  - by apply uri_spec_length.
  - eexists _, _. split; [reflexivity|]. split; [apply resolve_tokens|]. case_decide; eauto.
Qed.

(** C6: [u_uri_normalize] implements the component-stack specification: with memory
    available it fails exactly on relative paths and otherwise returns the
    specification's result, and normalising again changes nothing. *)
Theorem uri_normalize_refines {LM : LibuMem L} (path : list byte) :
  (head (to_slashes path) = Some SLASH ->
     u_uri_normalize path = Ok (uri_spec path) /\
     u_uri_normalize (uri_spec path) = Ok (uri_spec path)) /\
  (head (to_slashes path) <> Some SLASH -> u_uri_normalize path = Fail).
Proof.
  assert (forall p, head (to_slashes p) = Some SLASH -> u_uri_normalize p = Ok (uri_spec p)) as G.
  { intros p Hp. destruct (uri_normalize_total p Hp) as [r Hr].
    rewrite Hr. by apply uri_normalize_spec in Hr as [-> _]. }
  split; intros Hh.
  - split; [by apply G|]. rewrite G; [by rewrite uri_spec_idem|].
    pose proof (G _ Hh) as [_ _]%uri_normalize_spec.
    unfold uri_spec. cbv zeta. destruct (resolve _) as [|t st].
    + by rewrite decide_True by naive_solver.
    + done.
  - unfold u_uri_normalize. fold (to_slashes path). by rewrite decide_True.
Qed.
End properties.

Lemma uri_normalize_safe_witness :
  let r := bs "/a/c/" in
  head r = Some SLASH /\ Forall clean_comp (strtok is_slash r) /\
  length r <= length (bs "/a//b\..\./c/") /\
  exists st tail, r = render st ++ tail /\ Forall clean_comp st /\ (tail = [] \/ tail = [SLASH]).
Proof. apply (@uri_normalize_safe libu_ref libu_ref_spec (bs "/a//b\..\./c/")). reflexivity. Defined.

Lemma uri_normalize_refines_witness :
  (head (to_slashes (bs "/../../etc/passwd")) = Some SLASH ->
     @u_uri_normalize libu_ref (bs "/../../etc/passwd") = Ok (uri_spec (bs "/../../etc/passwd")) /\
     @u_uri_normalize libu_ref (uri_spec (bs "/../../etc/passwd"))
       = Ok (uri_spec (bs "/../../etc/passwd"))) /\
  (head (to_slashes (bs "/../../etc/passwd")) <> Some SLASH ->
     @u_uri_normalize libu_ref (bs "/../../etc/passwd") = Fail).
Proof. exact (@uri_normalize_refines libu_ref libu_ref_spec libu_ref_mem (bs "/../../etc/passwd")). Defined.
