(* ===== verification/Date.v ===== *)
(** HTTP dates: src/src/libutils/date.c.

    The C library's [gmtime_r] and [timegm] are modelled on the proleptic Gregorian
    calendar, and [sscanf] as an interpreter of the directives that the formats use. *)

From S2P Require Import Prelude Libu.

Local Open Scope Z_scope.

(** ** The C library *)

(** [int] and [unsigned int] *)
Definition u32 (z : Z) : Z := z mod 2 ^ 32.
Definition i32 (z : Z) : Z := (z + 2 ^ 31) mod 2 ^ 32 - 2 ^ 31.

Record tm := mkTm {
  tm_sec : Z; tm_min : Z; tm_hour : Z; tm_mday : Z; tm_mon : Z; tm_year : Z; tm_wday : Z
}.

(** Days since 1970-01-01 of a civil date (month 1 to 12), and back. *)
Definition days_from_civil (y m d : Z) : Z :=
  let y' := if m <=? 2 then y - 1 else y in
  let yoe := y' mod 400 in
  let doy := (153 * (if 2 <? m then m - 3 else m + 9) + 2) / 5 + d - 1 in
  (y' / 400) * 146097 + (yoe * 365 + yoe / 4 - yoe / 100 + doy) - 719468.

Definition civil_from_days (z0 : Z) : Z * Z * Z :=
  let z := z0 + 719468 in
  let doe := z mod 146097 in
  let yoe := (doe - doe / 1460 + doe / 36524 - doe / 146096) / 365 in
  let doy := doe - (365 * yoe + yoe / 4 - yoe / 100) in
  let mp := (5 * doy + 2) / 153 in
  let m := if mp <? 10 then mp + 3 else mp - 9 in
  ((z / 146097) * 400 + yoe + (if m <=? 2 then 1 else 0), m, doy - (153 * mp + 2) / 5 + 1).

(** [None] when the year does not fit an [int]. *)
Definition gmtime_r (ts : Z) : option tm :=
  let days := ts / 86400 in
  let rem := ts mod 86400 in
  let '(y, m, d) := civil_from_days days in
  if decide (INT_MIN <= y - 1900 <= INT_MAX) then
    Some (mkTm (rem mod 60) (rem / 60 mod 60) (rem / 3600) d (m - 1) (y - 1900) ((days + 4) mod 7))
  else None.

(** [timegm] for a month in 0 to 11; the other fields may be out of range. *)
Definition timegm (t : tm) : Z :=
  (days_from_civil (tm_year t + 1900) (tm_mon t + 1) 1 + tm_mday t - 1) * 86400
  + tm_hour t * 3600 + tm_min t * 60 + tm_sec t.

(** Decimal output; ten digits are enough for an [unsigned int], twenty for an
    [unsigned long]. *)
Fixpoint dec_go (n : nat) (v : Z) : list byte :=
  match n with
  | O => []
  | S n' => if v <? 10 then [zb (48 + v)] else dec_go n' (v / 10) ++ [zb (48 + v mod 10)]
  end.
Definition fmt_u (v : Z) : list byte := dec_go 10 v.
Definition fmt_lu (v : Z) : list byte := dec_go 20 v.
Definition fmt_02u (v : Z) : list byte := if v <? 10 then "0"%byte :: fmt_u v else fmt_u v.

(** The directives of a [sscanf] format, and what they convert to. *)
Inductive dir := Dlit (c : byte) | Dsp | Du | Ds | Dc | Dset (stop : byte).
Inductive conv := CU (z : Z) | CS (s : list byte).

Fixpoint span (p : byte -> bool) (s : list byte) : list byte * list byte :=
  match s with
  | c :: s' => if p c then let '(a, r) := span p s' in (c :: a, r) else ([], s)
  | [] => ([], [])
  end.

(** An optional sign and digits, as for [strtoul]. *)
Definition scan_u (s : list byte) : option (Z * list byte) :=
  let '(neg, s1) := match s with
                    | c :: s' => if decide (c = "-"%byte) then (true, s')
                                 else if decide (c = "+"%byte) then (false, s') else (false, s)
                    | [] => (false, [])
                    end in
  match span isdigit s1 with
  | ([], _) => None
  | (ds, r) => let v := digits_value 0 ds in Some (if neg : bool then - v else v, r)
  end.

(** The conversions made before the first directive that fails; a number that no
    [unsigned int] holds is undefined. *)
Fixpoint sscanf (fmt : list dir) (s : list byte) : res (list conv) :=
  match fmt with
  | [] => Ok []
  | Dsp :: fmt' => sscanf fmt' (skip_space s)
  | Dlit c :: fmt' =>
      match s with
      | b :: s' => if decide (b = c) then sscanf fmt' s' else Ok []
      | [] => Ok []
      end
  | Dc :: fmt' =>
      match s with
      | b :: s' => cons (CS [b]) <$> sscanf fmt' s'
      | [] => Ok []
      end
  | Ds :: fmt' =>
      match span (fun c => negb (isspace c)) (skip_space s) with
      | ([], _) => Ok []
      | (w, r) => cons (CS w) <$> sscanf fmt' r
      end
  | Dset stop :: fmt' =>
      match span (fun c => negb (bool_decide (c = stop))) s with
      | ([], _) => Ok []
      | (w, r) => cons (CS w) <$> sscanf fmt' r
      end
  | Du :: fmt' =>
      match scan_u (skip_space s) with
      | None => Ok []
      | Some (v, r) =>
          if decide (- 2 ^ 32 < v < 2 ^ 32) then cons (CU (u32 v)) <$> sscanf fmt' r else Fault
      end
  end.

(** ** date.c *)

Definition DATE_BUFSZ : nat := 64.
Definition RFC822_DATE_BUFSZ : nat := 32.

Definition days3 : list (list byte) :=
  [bs "Sun"; bs "Mon"; bs "Tue"; bs "Wed"; bs "Thu"; bs "Fri"; bs "Sat"].
Definition months : list (list byte) :=
  [bs "Jan"; bs "Feb"; bs "Mar"; bs "Apr"; bs "May"; bs "Jun";
   bs "Jul"; bs "Aug"; bs "Sep"; bs "Oct"; bs "Nov"; bs "Dec"].

Fixpoint month_loop (i : Z) (ms : list (list byte)) (mon : list byte) : Z :=
  match ms with
  | [] => -1
  | m :: ms' => if strcaseeq m mon then i else month_loop (i + 1) ms' mon
  end.
Definition month_idx (mon : list byte) : Z := month_loop 0 months mon.

(** The end that the three parsers share: unsigned values into the [int] fields. *)
Definition make_time (day : Z) (mon : list byte) (year hour min sec : Z) : res Z :=
  if decide (month_idx mon < 0) then Fail
  else Ok (timegm (mkTm (i32 sec) (i32 min) (i32 hour) (i32 day) (month_idx mon)
                        (i32 (u32 (year - 1900))) 0)).

(** "%s %s %u %u:%u:%u %u" *)
Definition fmt_asctime : list dir :=
  [Ds; Dsp; Ds; Dsp; Du; Dsp; Du; Dlit ":"; Du; Dlit ":"; Du; Dsp; Du].

Definition u_asctime_to_tt (str : list byte) : res Z :=
  if decide (DATE_BUFSZ <= length str)%nat then Fail else
  r ← sscanf fmt_asctime str;
  match r with
  | [CS wday; CS mon; CU day; CU hour; CU min; CU sec; CU year] => make_time day mon year hour min sec
  | _ => Fail
  end.

(** "%[^,], %u%c%[^-]%c%u %u:%u:%u %s" *)
Definition fmt_rfc850 : list dir :=
  [Dset ","; Dlit ","; Dsp; Du; Dc; Dset "-"; Dc; Du; Dsp; Du; Dlit ":"; Du; Dlit ":"; Du; Dsp; Ds].

Definition u_rfc850_to_tt (str : list byte) : res Z :=
  if decide (DATE_BUFSZ <= length str)%nat then Fail else
  r ← sscanf fmt_rfc850 str;
  match r with
  | [CS wday; CU day; CS c1; CS mon; CS c2; CU year; CU hour; CU min; CU sec; CS tzone] =>
      make_time day mon year hour min sec
  | _ => Fail
  end.

(** "%[^,], %u %s %u %u:%u:%u %s" *)
Definition fmt_rfc822 : list dir :=
  [Dset ","; Dlit ","; Dsp; Du; Dsp; Ds; Dsp; Du; Dsp; Du; Dlit ":"; Du; Dlit ":"; Du; Dsp; Ds].

Definition u_rfc822_to_tt (str : list byte) : res Z :=
  if decide (DATE_BUFSZ <= length str)%nat then Fail else
  r ← sscanf fmt_rfc822 str;
  match r with
  | [CS wday; CU day; CS mon; CU year; CU hour; CU min; CU sec; CS tzone] =>
      make_time day mon year hour min sec
  | _ => Fail
  end.

Definition u_httpdate_to_tt (str : list byte) : res Z :=
  if decide (length str < 4)%nat then Fail
  else if decide (str !! 3%nat = Some ","%byte) then u_rfc822_to_tt str
  else if decide (str !! 3%nat = Some " "%byte) then u_asctime_to_tt str
  else u_rfc850_to_tt str.

Section date.
Context {L : Libu}.

Definition u_tt_to_rfc822 (ts : Z) : res (list byte) :=
  match gmtime_r ts with
  | None => Fail
  | Some t =>
      if decide (6 < tm_wday t \/ tm_wday t < 0) then Fail else
      if decide (11 < tm_mon t \/ tm_mon t < 0) then Fail else
      let '(buf, trunc) := u_snprintf
        (nth (Z.to_nat (tm_wday t)) days3 [] ++ bs ", " ++ fmt_02u (u32 (tm_mday t)) ++ bs " " ++
         nth (Z.to_nat (tm_mon t)) months [] ++ bs " " ++ fmt_02u (u32 (tm_year t + 1900)) ++ bs " " ++
         fmt_02u (u32 (tm_hour t)) ++ bs ":" ++ fmt_02u (u32 (tm_min t)) ++ bs ":" ++
         fmt_02u (u32 (tm_sec t)) ++ bs " GMT") RFC822_DATE_BUFSZ in
      if trunc : bool then Fail else Ok (u_strlcpy buf RFC822_DATE_BUFSZ).1
  end.
End date.

(** The example of RFC 2616 in its three forms. *)
Example httpdate_rfc822 : u_httpdate_to_tt (bs "Sun, 06 Nov 1994 08:49:37 GMT") = Ok 784111777.
Proof. reflexivity. Qed.
Example httpdate_asctime : u_httpdate_to_tt (bs "Sun Nov  6 08:49:37 1994") = Ok 784111777.
Proof. reflexivity. Qed.
Example httpdate_rfc850 : u_httpdate_to_tt (bs "Sunday, 06-Nov-94 08:49:37 GMT") = Ok (-59174032223).
Proof. vm_compute. reflexivity. Qed.
Example tt_to_rfc822 : @u_tt_to_rfc822 libu_ref 784111777 = Ok (bs "Sun, 06 Nov 1994 08:49:37 GMT").
Proof. vm_compute. reflexivity. Qed.

(** ** The calendar *)

Ltac div_lia := Z.to_euclidean_division_equations; lia.

(** The year of an era that a day falls in, and the day of that year. *)
Lemma era_year (doe : Z) : 0 <= doe < 146097 ->
  let yoe := (doe - doe / 1460 + doe / 36524 - doe / 146096) / 365 in
  0 <= yoe < 400 /\ 0 <= doe - (365 * yoe + yoe / 4 - yoe / 100) <= 365.
Proof. intros H. cbv zeta. split; div_lia. Qed.

(** The month, counted from March, and the day of the month. *)
Lemma year_month (doy : Z) : 0 <= doy <= 365 ->
  let mp := (5 * doy + 2) / 153 in 0 <= mp <= 11 /\ 0 <= doy - (153 * mp + 2) / 5 <= 30.
Proof. intros H. cbv zeta. split; div_lia. Qed.

Lemma civil_roundtrip (z y m d : Z) :
  civil_from_days z = (y, m, d) -> days_from_civil y m d = z /\ 1 <= m <= 12 /\ 1 <= d <= 31.
Proof.
  unfold civil_from_days. set (doe := (z + 719468) mod 146097). set (era := (z + 719468) / 146097).
  pose proof (Z.mod_pos_bound (z + 719468) 146097 eq_refl) as Hdoe.
  pose proof (Z.div_mod (z + 719468) 146097 ltac:(lia)) as Hz. fold doe era in Hdoe, Hz.
  destruct (era_year doe Hdoe) as [Hyoe Hdoy].
  set (yoe := (doe - _ + _ - _) / 365) in *. set (doy := doe - (365 * yoe + yoe / 4 - yoe / 100)) in *.
  destruct (year_month doy Hdoy) as [Hmp Hd]. set (mp := (5 * doy + 2) / 153) in *.
  intros [= <- <- <-]. split; [|destruct (mp <? 10) eqn:E; lia].
  unfold days_from_civil. destruct (mp <? 10) eqn:E; [apply Z.ltb_lt in E|apply Z.ltb_ge in E].
  - replace (mp + 3 <=? 2) with false by lia. replace (2 <? mp + 3) with true by lia.
    replace (mp + 3 - 3) with mp by lia. replace (era * 400 + yoe + 0) with (yoe + era * 400) by lia.
    rewrite Z.mod_add, Z.div_add by lia. rewrite Z.mod_small, Z.div_small by lia. unfold doy. lia.
  - replace (mp - 9 <=? 2) with true by lia. replace (2 <? mp - 9) with false by lia.
    replace (mp - 9 + 9) with mp by lia. replace (era * 400 + yoe + 1 - 1) with (yoe + era * 400) by lia.
    rewrite Z.mod_add, Z.div_add by lia. rewrite Z.mod_small, Z.div_small by lia. unfold doy. lia.
Qed.

Lemma timegm_gmtime (ts : Z) (t : tm) :
  gmtime_r ts = Some t ->
  timegm t = ts /\ 0 <= tm_mon t <= 11 /\ 1 <= tm_mday t <= 31 /\ 0 <= tm_hour t <= 23 /\
  0 <= tm_min t <= 59 /\ 0 <= tm_sec t <= 59 /\ 0 <= tm_wday t <= 6.
Proof.
  unfold gmtime_r. destruct (civil_from_days (ts / 86400)) as [[y m] d] eqn:E.
  apply civil_roundtrip in E as (E & Hm & Hd). case_decide; [|done]. intros [= <-].
  unfold timegm. simpl. replace (m - 1 + 1) with m by lia. replace (y - 1900 + 1900) with y by lia.
  assert (days_from_civil y m 1 + d - 1 = ts / 86400) as ->.
  { rewrite <- E. unfold days_from_civil. lia. }
  pose proof (Z.div_mod ts 86400). pose proof (Z.mod_pos_bound ts 86400 eq_refl) as Hr.
  pose proof (Z.mod_pos_bound (ts / 86400 + 4) 7 eq_refl).
  set (r := ts mod 86400) in *.
  assert (r / 3600 = r / 60 / 60) as H3 by (rewrite Z.div_div; done).
  pose proof (Z.div_mod r 60). pose proof (Z.mod_pos_bound r 60 eq_refl).
  pose proof (Z.div_mod (r / 60) 60). pose proof (Z.mod_pos_bound (r / 60) 60 eq_refl).
  lia.
Qed.

(** ** Numbers *)

Lemma digits_value_app (acc : Z) (l r : list byte) :
  Forall (fun c => isdigit c = true) l ->
  digits_value acc (l ++ r) = digits_value (digits_value acc l) r.
Proof.
  intros H. revert acc. induction H as [|c l Hc _ IH]; intros acc; simpl; [done|].
  rewrite Hc. apply IH.
Qed.

Lemma digit_of (v : Z) : 0 <= v < 10 -> isdigit (zb (48 + v)) = true /\ bz (zb (48 + v)) = 48 + v.
Proof.
  intros H. assert (bz (zb (48 + v)) = 48 + v) as E by (rewrite bz_zb, Z.mod_small; lia).
  split; [|done]. unfold isdigit, in_range. rewrite E. change (bz "0") with 48. change (bz "9") with 57.
  apply andb_true_iff. rewrite !Z.leb_le. lia.
Qed.

Lemma dec_go_spec (n : nat) (v : Z) : 0 <= v < 10 ^ Z.of_nat n ->
  Forall (fun c => isdigit c = true) (dec_go n v) /\ digits_value 0 (dec_go n v) = v /\
  ((0 < n)%nat -> dec_go n v <> []).
Proof.
  revert v. induction n as [|n IH]; intros v Hv; simpl.
  - split_and!; [constructor| |lia]. change (10 ^ Z.of_nat 0) with 1 in Hv. lia.
  - destruct (v <? 10) eqn:E.
    + apply Z.ltb_lt in E. destruct (digit_of v) as [D1 D2]; [lia|].
      split_and!; [by apply Forall_singleton| |done]. cbn [digits_value]. rewrite D1, D2. lia.
    + apply Z.ltb_ge in E. rewrite Nat2Z.inj_succ, Z.pow_succ_r in Hv by lia.
      pose proof (Z.div_mod v 10). pose proof (Z.mod_pos_bound v 10 eq_refl).
      destruct (IH (v / 10)) as (I1 & I2 & _); [split; [apply Z.div_pos; lia|apply Z.div_lt_upper_bound; lia]|].
      destruct (digit_of (v mod 10)) as [D1 D2]; [lia|]. split_and!.
      * apply Forall_app. split; [done|]. by apply Forall_singleton.
      * rewrite digits_value_app, I2 by done. cbn [digits_value]. rewrite D1, D2. lia.
      * by destruct (dec_go n (v / 10)).
Qed.

Lemma dec_go_length (n : nat) (v : Z) (k : nat) : 0 <= v < 10 ^ Z.of_nat k -> (0 < k)%nat ->
  (length (dec_go n v) <= k)%nat.
Proof.
  revert v k. induction n as [|n IH]; intros v k Hv Hk; simpl; [lia|].
  destruct (v <? 10) eqn:E; [simpl; lia|]. apply Z.ltb_ge in E.
  destruct k as [|[|k]]; [lia|change (10 ^ Z.of_nat 1) with 10 in Hv; lia|].
  rewrite length_app. simpl. rewrite Nat2Z.inj_succ, Z.pow_succ_r in Hv by lia.
  enough (length (dec_go n (v / 10)) <= S k)%nat by lia. apply IH; [|lia].
  split; [apply Z.div_pos; lia|apply Z.div_lt_upper_bound; lia].
Qed.

(** A printed number starts with a digit and is nothing but digits. *)
Lemma fmt_02u_spec (v : Z) : 0 <= v < 2 ^ 32 ->
  Forall (fun c => isdigit c = true) (fmt_02u v) /\ digits_value 0 (fmt_02u v) = v /\ fmt_02u v <> [].
Proof.
  intros H. assert (0 <= v < 10 ^ Z.of_nat 10) as Hv by (change (10 ^ Z.of_nat 10) with 10000000000; lia).
  destruct (dec_go_spec 10 v Hv) as (D1 & D2 & D3). unfold fmt_02u, fmt_u.
  destruct (v <? 10); [|split_and!; [done|done|apply D3; lia]].
  split_and!; [by constructor|done|done].
Qed.

Lemma fmt_02u_length (v : Z) (k : nat) : 0 <= v < 10 ^ Z.of_nat k -> (2 <= k)%nat ->
  (length (fmt_02u v) <= k)%nat.
Proof.
  intros Hv Hk. unfold fmt_02u, fmt_u. destruct (v <? 10) eqn:E; [|apply dec_go_length; lia].
  apply Z.ltb_lt in E. cbn [length]. enough (length (dec_go 10 v) <= 1)%nat by lia.
  apply dec_go_length; [|lia]. change (10 ^ Z.of_nat 1) with 10. lia.
Qed.

Lemma span_app (p : byte -> bool) (l r : list byte) :
  Forall (fun c => p c = true) l -> p (hd x00 r) = false -> span p (l ++ r) = (l, r).
Proof.
  intros H Hr. induction H as [|c l Hc _ IH]; simpl.
  - destruct r as [|c r]; [done|]. simpl in *. by rewrite Hr.
  - by rewrite Hc, IH.
Qed.

Lemma digit_first (c : byte) : isdigit c = true -> isspace c = false /\ c <> "-"%byte /\ c <> "+"%byte.
Proof. revert c. byte_brute. Qed.

(** Reading back a printed number. *)
Lemma sscanf_number (v : Z) (fmt : list dir) (rest : list byte) :
  0 <= v < 2 ^ 32 -> isdigit (hd x00 rest) = false ->
  sscanf (Du :: fmt) (fmt_02u v ++ rest) = cons (CU v) <$> sscanf fmt rest.
Proof.
  intros Hv Hr. destruct (fmt_02u_spec v Hv) as (D1 & D2 & D3).
  destruct (fmt_02u v) as [|c l] eqn:E; [done|]. pose proof D1 as [Hc _]%Forall_cons.
  destruct (digit_first c Hc) as (S1 & S2 & S3). cbn [sscanf app skip_space]. rewrite S1.
  unfold scan_u. rewrite !decide_False by done. rewrite app_comm_cons, span_app, D2 by done.
  rewrite decide_True by lia. unfold u32. by rewrite Z.mod_small by lia.
Qed.

Lemma sscanf_word (w rest : list byte) (fmt : list dir) :
  w <> [] -> Forall (fun c => isspace c = false) w -> isspace (hd x00 rest) = true \/ rest = [] ->
  sscanf (Ds :: fmt) (w ++ rest) = cons (CS w) <$> sscanf fmt rest.
Proof.
  intros Hw Hf Hr. destruct w as [|c w]; [done|]. pose proof Hf as [Hc _]%Forall_cons.
  assert (Forall (fun c => negb (isspace c) = true) (c :: w)) as Hf'.
  { eapply Forall_impl; [done|]. intros x Hx. simpl in Hx. by rewrite Hx. }
  cbn [sscanf app skip_space]. rewrite Hc, app_comm_cons. destruct Hr as [Hr| ->].
  - rewrite span_app; [done|done|]. by rewrite Hr.
  - rewrite app_nil_r. assert (span (fun c => negb (isspace c)) (c :: w) = (c :: w, [])) as ->; [|done].
    clear Hw Hf Hc. induction Hf' as [|x l Hx _ IH]; simpl; [done|]. by rewrite Hx, IH.
Qed.

Lemma sscanf_upto (w rest : list byte) (stop : byte) (fmt : list dir) :
  w <> [] -> stop ∉ w ->
  sscanf (Dset stop :: fmt) (w ++ stop :: rest) = cons (CS w) <$> sscanf fmt (stop :: rest).
Proof.
  intros Hw Hs. cbn [sscanf]. rewrite span_app; [by destruct w| |].
  - apply Forall_forall. intros x Hx. rewrite bool_decide_false; [done|]. by intros ->.
  - simpl. by rewrite bool_decide_true.
Qed.

Lemma sscanf_lit (c : byte) (fmt : list dir) (s : list byte) :
  sscanf (Dlit c :: fmt) (c :: s) = sscanf fmt s.
Proof. simpl. by rewrite decide_True. Qed.

Lemma sscanf_blank (fmt : list dir) (s : list byte) :
  sscanf (Dsp :: fmt) (" "%byte :: s) = sscanf fmt (skip_space s).
Proof. done. Qed.

Lemma skip_number (v : Z) (rest : list byte) :
  0 <= v < 2 ^ 32 -> skip_space (fmt_02u v ++ rest) = fmt_02u v ++ rest.
Proof.
  intros Hv. destruct (fmt_02u_spec v Hv) as (D1 & _ & D3).
  destruct (fmt_02u v) as [|c l]; [done|]. apply Forall_cons in D1 as [Hc _]. simpl.
  by destruct (digit_first c Hc) as (-> & _).
Qed.

(** The names in the tables. *)
Lemma day_name (i : Z) : 0 <= i <= 6 ->
  length (nth (Z.to_nat i) days3 []) = 3%nat /\ (","%byte ∉ nth (Z.to_nat i) days3 []).
Proof.
  intros H. assert (i = 0 \/ i = 1 \/ i = 2 \/ i = 3 \/ i = 4 \/ i = 5 \/ i = 6) as Hi by lia.
  repeat destruct Hi as [->|Hi]; [..|subst i]; (split; [reflexivity|compute_decide]).
Qed.

Lemma month_name (i : Z) : 0 <= i <= 11 ->
  let m := nth (Z.to_nat i) months [] in
  length m = 3%nat /\ Forall (fun c => isspace c = false) m /\ month_idx m = i.
Proof.
  intros H. assert (i = 0 \/ i = 1 \/ i = 2 \/ i = 3 \/ i = 4 \/ i = 5 \/ i = 6 \/
    i = 7 \/ i = 8 \/ i = 9 \/ i = 10 \/ i = 11) as Hi by lia.
  repeat destruct Hi as [->|Hi]; [..|subst i]; (split_and!; [reflexivity|compute_decide|reflexivity]).
Qed.

(** From 0000-01-01 to 9999-12-31. *)
Lemma year_range (y m d : Z) : 1 <= m <= 12 -> 1 <= d <= 31 ->
  -719528 <= days_from_civil y m d <= 2932896 -> 0 <= y <= 9999.
Proof.
  intros Hm Hd. unfold days_from_civil. set (y' := if m <=? 2 then y - 1 else y).
  set (mo := if 2 <? m then m - 3 else m + 9). intros H.
  assert (y' = y - 1 /\ 10 <= mo <= 11 \/ y' = y /\ 0 <= mo <= 9) as Hy.
  { unfold y', mo. destruct (m <=? 2) eqn:E1, (2 <? m) eqn:E2; lia. }
  clearbody y' mo.
  assert (0 <= (153 * mo + 2) / 5 <= 337 /\ (10 <= mo -> 306 <= (153 * mo + 2) / 5) /\
          (mo <= 9 -> (153 * mo + 2) / 5 <= 275)) as Hmo by div_lia.
  generalize dependent ((153 * mo + 2) / 5). intros q H Hq.
  assert (0 <= y' mod 400 < 400) by (apply Z.mod_pos_bound; lia).
  pose proof (Z.div_mod y' 400 ltac:(lia)).
  generalize dependent (y' mod 400). generalize dependent (y' / 400). intros e r Hr H He.
  div_lia.
Qed.

Lemma i32_small (z : Z) : - 2 ^ 31 <= z < 2 ^ 31 -> i32 z = z.
Proof. intros H. unfold i32. rewrite Z.mod_small by lia. lia. Qed.

Lemma i32_u32 (z : Z) : - 2 ^ 31 <= z < 2 ^ 31 -> i32 (u32 z) = z.
Proof. intros H. unfold i32, u32. rewrite Zplus_mod_idemp_l, Z.mod_small by lia. lia. Qed.

(** The text of a broken-down time. *)
Definition rfc822_text (t : tm) : list byte :=
  nth (Z.to_nat (tm_wday t)) days3 [] ++ bs ", " ++ fmt_02u (tm_mday t) ++ bs " " ++
  nth (Z.to_nat (tm_mon t)) months [] ++ bs " " ++ fmt_02u (tm_year t + 1900) ++ bs " " ++
  fmt_02u (tm_hour t) ++ bs ":" ++ fmt_02u (tm_min t) ++ bs ":" ++ fmt_02u (tm_sec t) ++ bs " GMT".

Definition tm_fits (t : tm) : Prop :=
  0 <= tm_mon t <= 11 /\ 1 <= tm_mday t <= 31 /\ 0 <= tm_hour t <= 23 /\
  0 <= tm_min t <= 59 /\ 0 <= tm_sec t <= 59 /\ 0 <= tm_wday t <= 6 /\ 0 <= tm_year t + 1900 <= 9999.

Lemma rfc822_text_length (t : tm) : tm_fits t -> (4 <= length (rfc822_text t) < 32)%nat.
Proof.
  intros (Hmo & Hd & Hh & Hmi & Hs & Hw & Hy). unfold rfc822_text. rewrite !length_app.
  rewrite (proj1 (day_name _ Hw)), (proj1 (month_name _ Hmo)). simpl length.
  pose proof (fmt_02u_length (tm_mday t) 2 ltac:(change (10 ^ Z.of_nat 2) with 100; lia) ltac:(lia)).
  pose proof (fmt_02u_length (tm_hour t) 2 ltac:(change (10 ^ Z.of_nat 2) with 100; lia) ltac:(lia)).
  pose proof (fmt_02u_length (tm_min t) 2 ltac:(change (10 ^ Z.of_nat 2) with 100; lia) ltac:(lia)).
  pose proof (fmt_02u_length (tm_sec t) 2 ltac:(change (10 ^ Z.of_nat 2) with 100; lia) ltac:(lia)).
  pose proof (fmt_02u_length (tm_year t + 1900) 4
    ltac:(change (10 ^ Z.of_nat 4) with 10000; lia) ltac:(lia)). lia.
Qed.

Lemma rfc822_text_scan (t : tm) : tm_fits t ->
  sscanf fmt_rfc822 (rfc822_text t) =
  Ok [CS (nth (Z.to_nat (tm_wday t)) days3 []); CU (tm_mday t); CS (nth (Z.to_nat (tm_mon t)) months []);
      CU (tm_year t + 1900); CU (tm_hour t); CU (tm_min t); CU (tm_sec t); CS (bs "GMT")].
Proof.
  intros (Hmo & Hd & Hh & Hmi & Hs & Hw & Hy). unfold rfc822_text, fmt_rfc822.
  destruct (day_name _ Hw) as [W1 W2]. destruct (month_name _ Hmo) as (M1 & M2 & _).
  set (dn := nth _ days3 []) in *. set (mn := nth _ months []) in *.
  assert (forall w s, w <> [] -> Forall (fun c => isspace c = false) w -> skip_space (w ++ s) = w ++ s) as Hsk.
  { intros [|c w] s Hne Hf; [done|]. apply Forall_cons in Hf as [Hc _]. simpl. by rewrite Hc. }
  change (bs ", " ++ ?r) with (","%byte :: " "%byte :: r).
  repeat change (bs " " ++ ?r) with (" "%byte :: r). repeat change (bs ":" ++ ?r) with (":"%byte :: r).
  rewrite sscanf_upto by (done || by destruct dn).
  rewrite sscanf_lit, sscanf_blank, skip_number, sscanf_number by (done || lia).
  rewrite sscanf_blank, Hsk, sscanf_word by (done || (by destruct mn) || by left).
  rewrite sscanf_blank, skip_number, sscanf_number by (done || lia).
  rewrite sscanf_blank, skip_number, sscanf_number by (done || lia).
  rewrite sscanf_lit, sscanf_number by (done || lia).
  rewrite sscanf_lit, sscanf_number by (done || lia). done.
Qed.

Lemma gmtime_fits (ts : Z) : -62167219200 <= ts <= 253402300799 ->
  exists t, gmtime_r ts = Some t /\ timegm t = ts /\ tm_fits t.
Proof.
  intros Hts. assert (exists t, gmtime_r ts = Some t /\ 0 <= tm_year t + 1900 <= 9999) as (t & G & Hy).
  { unfold gmtime_r. destruct (civil_from_days _) as [[y m] d] eqn:E.
    apply civil_roundtrip in E as (E & Hm & Hd). pose proof (year_range y m d Hm Hd) as Hy.
    rewrite E in Hy. assert (0 <= y <= 9999) by (apply Hy; div_lia).
    rewrite decide_True by (unfold INT_MIN, INT_MAX; lia). eexists. split; [done|]. simpl. lia. }
  exists t. split; [done|]. destruct (timegm_gmtime ts t G) as (T & Hf). split; [done|].
  unfold tm_fits. lia.
Qed.

Section date_claims.
Context {L : Libu} {LS : LibuSpec L}.

(** Every time of the years 0 to 9999 is printed as an HTTP date that
    [u_httpdate_to_tt] reads back as the same time. *)
Theorem httpdate_roundtrip (ts : Z) :
  -62167219200 <= ts <= 253402300799 ->
  exists d, u_tt_to_rfc822 ts = Ok d /\ (length d < RFC822_DATE_BUFSZ)%nat /\ u_httpdate_to_tt d = Ok ts.
Proof.
  intros Hts. unfold u_tt_to_rfc822.
  destruct (gmtime_fits ts Hts) as (t & -> & T & F).
  pose proof F as (Hmo & Hd & Hh & Hmi & Hs & Hw & Hy). unfold u32.
  rewrite !decide_False by lia. rewrite !Z.mod_small by lia. fold (rfc822_text t).
  pose proof (rfc822_text_length t F) as Hlen. unfold RFC822_DATE_BUFSZ.
  rewrite u_snprintf_spec by lia. rewrite take_ge by lia. rewrite bool_decide_false by lia.
  rewrite u_strlcpy_spec by lia. simpl fst. rewrite take_ge by lia.
  eexists. split_and!; [done|lia|]. unfold u_httpdate_to_tt. rewrite decide_False by lia.
  rewrite decide_True.
  2: { unfold rfc822_text. destruct (day_name _ Hw) as [W1 _].
       rewrite lookup_app_r, W1 by (rewrite W1; lia). done. }
  unfold u_rfc822_to_tt. rewrite decide_False by (unfold DATE_BUFSZ; lia). rewrite rfc822_text_scan by done.
  cbn [mbind res_bind]. unfold make_time. destruct (month_name _ Hmo) as (_ & _ & ->).
  rewrite decide_False by lia. rewrite i32_u32, !i32_small by lia.
  f_equal. etrans; [|exact T]. unfold timegm. simpl.
  replace (tm_year t + 1900 - 1900 + 1900) with (tm_year t + 1900) by lia. done.
Qed.
End date_claims.

(** The two-digit year of an RFC 850 date is taken as it is: the RFC 850 form of
    a time in the twentieth century is read as a time in the first, not the one that the
    other two forms denote. *)
Theorem rfc850_year :
  u_httpdate_to_tt (bs "Sun, 06 Nov 1994 08:49:37 GMT") = Ok 784111777 /\
  u_httpdate_to_tt (bs "Sun Nov  6 08:49:37 1994") = Ok 784111777 /\
  exists ts t, u_httpdate_to_tt (bs "Sunday, 06-Nov-94 08:49:37 GMT") = Ok ts /\
    gmtime_r ts = Some t /\ tm_year t + 1900 = 94.
Proof.
  split; [vm_compute; reflexivity|]. split; [vm_compute; reflexivity|].
  exists (-59174032223), (mkTm 37 49 8 6 10 (-1806) 6).
  split; [vm_compute; reflexivity|]. split; [vm_compute; reflexivity|reflexivity].
Qed.

Lemma httpdate_roundtrip_witness :
  exists d, @u_tt_to_rfc822 libu_ref 784111777 = Ok d /\ (length d < RFC822_DATE_BUFSZ)%nat /\
    u_httpdate_to_tt d = Ok 784111777.
Proof. apply (httpdate_roundtrip (L:=libu_ref) 784111777). lia. Defined.
