(* ===== verification/Io.v ===== *)
(** Buffered input and output: src/src/libio/io.c over src/klone/ioprv.h and
    src/klone/codec.h.

    An [io] has a device (its read, write, seek and tell operations), a chain of codecs
    that every byte crosses, a read side (the buffer [rbuf] of decoded bytes and the
    underflow buffer [ubuf] of raw bytes) and a write side ([wbuf]).  Devices and codecs
    are interfaces ([DevOps], [CodecOps]) with the contracts their clients rely on.
    Buffers are byte arrays, written in place.  The loops that a codec drives take a
    bound [fuel] and answer [Timeout] when it runs out. *)

From S2P Require Import Prelude Libu.

Definition IO_RD_BUFSZ : nat := N.to_nat 4096.
Definition IO_WR_BUFSZ : nat := N.to_nat 4096.
Definition CODEC_BUFSZ : nat := N.to_nat 4096.

(** [memcpy(buf + off, data, length data)] *)
Definition mwrite (buf : list byte) (off : nat) (data : list byte) : list byte :=
  take off buf ++ data ++ drop (off + length data) buf.

(** The [n] bytes at [buf + off]. *)
Definition mread (buf : list byte) (off n : nat) : list byte := take n (drop off buf).

Arguments mwrite : simpl never.
Arguments mread : simpl never.

(** ** Interfaces *)

(** Device operations: [None] is a negative return. *)
Class DevOps (D : Type) := {
  dev_read : D -> nat -> D * option (list byte);
  dev_write : D -> list byte -> D * option nat;
  dev_seek : D -> nat -> D * option nat;
  dev_tell : D -> option nat;
  dev_close : D -> D * bool
}.

Inductive flush_rc := CODEC_FLUSH_COMPLETE | CODEC_FLUSH_CHUNK.

#[global] Instance flush_rc_eq_dec : EqDecision flush_rc.
Proof. solve_decision. Defined.

(** Codec operations.  [c_transform st cap src]: new state, and the bytes written (at most
    [cap]) with the number of source bytes consumed.  [c_flush st cap]: new state, and the
    return code with the bytes written and the value left in [*dcount]. *)
Class CodecOps (C : Type) := {
  c_transform : C -> nat -> list byte -> C * option (list byte * nat);
  c_flush : C -> nat -> C * option (flush_rc * list byte * nat)
}.

Record codec (C : Type) := mkCodec {
  c_state : C;
  cbuf : list byte;
  ccount : nat;
  coff : nat
}.
Arguments mkCodec {C} _ _ _ _.
Arguments c_state {C} _.
Arguments cbuf {C} _.
Arguments ccount {C} _.
Arguments coff {C} _.

(** Read side. *)
Record rside := mkRside {
  r_alloc : bool;          (* rbuf != NULL *)
  rbuf : list byte;
  rbsz : nat;
  rcount : nat;
  roff : nat;
  rtot : nat;
  ubuf : list byte;
  ucount : nat;
  uoff : nat;
  io_eof : bool
}.

(** Write side. *)
Record wside := mkWside {
  w_alloc : bool;          (* wbuf != NULL *)
  wbuf : list byte;
  wbsz : nat;
  wcount : nat
}.

Record io (D C : Type) := mkIo {
  io_dev : D;
  io_codecs : list (codec C);
  io_r : rside;
  io_w : wside;
  io_refcnt : nat;
  io_name : option (list byte);
  io_secure : bool
}.
Arguments mkIo {D C} _ _ _ _ _ _ _.
Arguments io_dev {D C} _.
Arguments io_codecs {D C} _.
Arguments io_r {D C} _.
Arguments io_w {D C} _.
Arguments io_refcnt {D C} _.
Arguments io_name {D C} _.
Arguments io_secure {D C} _.

Definition rside0 : rside := mkRside false [] 0 0 0 0 [] 0 0 false.
Definition wside0 : wside := mkWside false [] 0 0.

Definition set_dev {D C} (i : io D C) (d : D) : io D C :=
  mkIo d (io_codecs i) (io_r i) (io_w i) (io_refcnt i) (io_name i) (io_secure i).
Definition set_codecs {D C} (i : io D C) (cs : list (codec C)) : io D C :=
  mkIo (io_dev i) cs (io_r i) (io_w i) (io_refcnt i) (io_name i) (io_secure i).
Definition set_r {D C} (i : io D C) (r : rside) : io D C :=
  mkIo (io_dev i) (io_codecs i) r (io_w i) (io_refcnt i) (io_name i) (io_secure i).
Definition set_w {D C} (i : io D C) (w : wside) : io D C :=
  mkIo (io_dev i) (io_codecs i) (io_r i) w (io_refcnt i) (io_name i) (io_secure i).
Definition set_refcnt {D C} (i : io D C) (n : nat) : io D C :=
  mkIo (io_dev i) (io_codecs i) (io_r i) (io_w i) n (io_name i) (io_secure i).
Definition set_name {D C} (i : io D C) (n : option (list byte)) : io D C :=
  mkIo (io_dev i) (io_codecs i) (io_r i) (io_w i) (io_refcnt i) n (io_secure i).

Section io_ops.
Context {L : Libu} {D C : Type} {DO : DevOps D} {CO : CodecOps C}.
Implicit Types (i : io D C) (k : codec C) (cs : list (codec C)).

(** [io_prv_create], [io_dup] *)
Definition io_prv_create (d : D) : io D C := mkIo d [] rside0 wside0 1 None false.
Definition io_dup i : io D C := set_refcnt i (S (io_refcnt i)).

(** [io_rbuf_alloc] and [io_wbuf_alloc]; a fresh buffer's contents are arbitrary. *)
Definition io_rbuf_alloc i : io D C * res unit :=
  let r := io_r i in
  let junk := replicate IO_RD_BUFSZ x00 in
  if u_alloc IO_RD_BUFSZ then
    (set_r i (mkRside true junk IO_RD_BUFSZ (rcount r) 0 (rtot r) junk
                      (ucount r) (uoff r) (io_eof r)), Ok tt)
  else (i, Fail).

Definition io_wbuf_alloc i : io D C * res unit :=
  if u_alloc IO_WR_BUFSZ then
    (set_w i (mkWside true (replicate IO_WR_BUFSZ x00) IO_WR_BUFSZ (wcount (io_w i))), Ok tt)
  else (i, Fail).

(** ** The codec chain *)

(** [io_transform_codec_buffer]: a codec that is not the last drains its buffer into the
    rest of the chain, through [tr], the recursive call of [io_transform]. *)
Definition io_transform_codec_buffer
    (tr : list (codec C) -> nat -> list byte -> list (codec C) * res (list byte * nat))
    k cs (cap : nat) : codec C * list (codec C) * res (list byte) :=
  if decide (ccount k = 0) then (k, cs, Ok [])
  else
    let '(cs', r) := tr cs cap (mread (cbuf k) (coff k) (ccount k)) in
    match r with
    | Ok (out, ct) =>
        let cc := ccount k - ct in
        (mkCodec (c_state k) (cbuf k) cc (if decide (0 < cc) then coff k + ct else 0),
         cs', Ok out)
    | Fail => (k, cs', Fail)
    | Fault => (k, cs', Fault)
    | Timeout => (k, cs', Timeout)
    end.

(** [io_transform].  The [do ... while] of a codec that is not the last repeats with the
    same arguments, which is the tail call. *)
Fixpoint io_transform (fuel : nat) cs (cap : nat) (src : list byte)
    : list (codec C) * res (list byte * nat) :=
  match fuel with
  | 0 => (cs, Timeout)
  | S fuel' =>
    match cs with
    | [] => (cs, Fault)
    | [k] =>
        let '(st, o) := c_transform (c_state k) cap src in
        let cs' := [mkCodec st (cbuf k) (ccount k) (coff k)] in
        match o with
        | None => (cs', Fail)
        | Some (out, c) => (cs', if decide (c = 0 /\ out = []) then Fail else Ok (out, c))
        end
    | k :: rest =>
        let '(k1, rest1, r1) := io_transform_codec_buffer (io_transform fuel') k rest cap in
        match r1 with
        | Ok out =>
            let cavail := CODEC_BUFSZ - ccount k1 - coff k1 in
            if decide (src = [] \/ cavail = 0) then
              if decide (out = [] /\ (ccount k1 <> 0 \/ src <> [])) then
                io_transform fuel' (k1 :: rest1) cap src
              else (k1 :: rest1, Ok (out, 0))
            else
              let '(st, o) := c_transform (c_state k1) cavail src in
              match o with
              | None => (mkCodec st (cbuf k1) (ccount k1) (coff k1) :: rest1, Fail)
              | Some (mid, c) =>
                  let k2 := mkCodec st (mwrite (cbuf k1) (coff k1 + ccount k1) mid)
                              (ccount k1 + length mid) (coff k1) in
                  if decide (c = 0 /\ mid = []) then (k2 :: rest1, Fail)
                  else if decide (c = 0 /\ out = []) then io_transform fuel' (k2 :: rest1) cap src
                  else (k2 :: rest1, Ok (out, c))
              end
        | Fail => (k1 :: rest1, Fail)
        | Fault => (k1 :: rest1, Fault)
        | Timeout => (k1 :: rest1, Timeout)
        end
    end
  end.

(** [io_transfer]: through the chain, or a plain copy when there is no codec. *)
Definition io_transfer (fuel : nat) cs (cap : nat) (src : list byte)
    : list (codec C) * res (list byte * nat) :=
  match cs with
  | [] => let wr := min (length src) cap in ([], Ok (take wr src, wr))
  | _ => io_transform fuel cs cap src
  end.

(** [io_chain_flush_chunk]: return code, bytes written to [dst], final [*dcount]. *)
Fixpoint io_chain_flush_chunk (fuel : nat) cs (cap : nat)
    : list (codec C) * res (flush_rc * list byte * nat) :=
  match fuel with
  | 0 => (cs, Timeout)
  | S fuel' =>
    match cs with
    | [] => ([], Ok (CODEC_FLUSH_COMPLETE, [], cap))
    | [k] =>
        let '(st, o) := c_flush (c_state k) cap in
        ([mkCodec st (cbuf k) (ccount k) (coff k)], of_option o)
    | k :: rest =>
        let '(k1, rest1, r1) := io_transform_codec_buffer (io_transform fuel') k rest cap in
        match r1 with
        | Ok (b :: out) => (k1 :: rest1, Ok (CODEC_FLUSH_CHUNK, b :: out, S (length out)))
        | Ok [] =>
            let sz := CODEC_BUFSZ - ccount k1 - coff k1 in
            let '(st, o) := c_flush (c_state k1) sz in
            match o with
            | None => (mkCodec st (cbuf k1) (ccount k1) (coff k1) :: rest1, Fail)
            | Some (er, mid, sz') =>
                let k2 := mkCodec st (mwrite (cbuf k1) (coff k1 + ccount k1) mid)
                            (ccount k1 + sz') (coff k1) in
                if decide (er = CODEC_FLUSH_COMPLETE /\ ccount k2 = 0) then
                  let '(rest2, r) := io_chain_flush_chunk fuel' rest1 cap in (k2 :: rest2, r)
                else io_chain_flush_chunk fuel' (k2 :: rest1) cap
            end
        | Fail => (k1 :: rest1, Fail)
        | Fault => (k1 :: rest1, Fault)
        | Timeout => (k1 :: rest1, Timeout)
        end
    end
  end.

(** ** Writing *)

(** The [while] of [io_flush]; the offset starts at 0 in every call. *)
Fixpoint flush_loop (fuel : nat) i (off : nat) : io D C * res unit :=
  let w := io_w i in
  if decide (wcount w = 0) then (i, Ok tt) else
  match fuel with
  | 0 => (i, Timeout)
  | S fuel' =>
      let '(d, o) := dev_write (io_dev i) (mread (wbuf w) off (wcount w)) in
      let i1 := set_dev i d in
      match o with
      | None => (i1, Fail)
      | Some 0 => (i1, Ok tt)
      | Some c =>
          if decide (wcount w < c) then (i1, Fault) else
          flush_loop fuel' (set_w i1 (mkWside (w_alloc w) (wbuf w) (wbsz w) (wcount w - c)))
                     (off + c)
      end
  end.

Definition io_flush i : io D C * res unit := flush_loop (wcount (io_w i)) i 0.

(** [memcpy] into the write buffer and [wcount += length out]. *)
Definition wbuf_put i (out : list byte) : io D C :=
  let w := io_w i in
  set_w i (mkWside (w_alloc w) (mwrite (wbuf w) (wcount w) out) (wbsz w)
                   (wcount w + length out)).

(** [IO_WBUF_FULL(io)]: flush first. *)
Definition flush_if_full i : io D C * res unit :=
  if decide (wbsz (io_w i) = wcount (io_w i)) then io_flush i else (i, Ok tt).

Fixpoint write_loop (fuel n : nat) i (rem : list byte) : io D C * res unit :=
  match rem with
  | [] => (i, Ok tt)
  | _ =>
    match n with
    | 0 => (i, Timeout)
    | S n' =>
      let '(i1, r1) := flush_if_full i in
      match r1 with
      | Ok _ =>
          let sz := wbsz (io_w i1) - wcount (io_w i1) in
          let '(cs, r) := io_transfer fuel (io_codecs i1) sz rem in
          let i2 := set_codecs i1 cs in
          match r with
          | Ok (out, c) =>
              if decide (c = 0 /\ out = []) then (i2, Fail)
              else write_loop fuel n' (wbuf_put i2 out) (drop c rem)
          | Fail => (i2, Fail)
          | Fault => (i2, Fault)
          | Timeout => (i2, Timeout)
          end
      | e => (i1, e)
      end
    end
  end.

(** [io_write]: on success it returns the size it was given. *)
Definition io_write (fuel : nat) i (buf : list byte) : io D C * res nat :=
  let '(i1, r1) := if w_alloc (io_w i) then (i, Ok tt) else io_wbuf_alloc i in
  match r1 with
  | Ok _ => let '(i2, r) := write_loop fuel fuel i1 buf in
            (i2, (fun _ => length buf) <$> r)
  | _ => (i1, Fail)
  end.

Definition io_putc (fuel : nat) i (c : byte) : io D C * res nat := io_write fuel i [c].

(** [io_vprintf] of a text already formatted: beyond 2047 characters it is built in a
    buffer from the heap. *)
Definition io_printf (fuel : nat) i (text : list byte) : io D C * res unit :=
  if decide (2048 <= length text) then
    if u_alloc (S (length text)) then
      let '(i', r) := io_write fuel i text in (i', (fun _ => tt) <$> r)
    else (i, Fail)
  else if decide (text = []) then (i, Ok tt)
  else let '(i', r) := io_write fuel i text in (i', (fun _ => tt) <$> r).

(** The inner loop of [io_chain_flush]: [count] bytes into the write buffer. *)
Fixpoint put_flushing (n : nat) i (data : list byte) : io D C * res unit :=
  match data with
  | [] => (i, Ok tt)
  | _ =>
    match n with
    | 0 => (i, Timeout)
    | S n' =>
      let '(i1, r1) := flush_if_full i in
      match r1 with
      | Ok _ =>
          let sz := min (length data) (wbsz (io_w i1) - wcount (io_w i1)) in
          put_flushing n' (wbuf_put i1 (take sz data)) (drop sz data)
      | e => (i1, e)
      end
    end
  end.

Fixpoint io_chain_flush (fuel n : nat) i : io D C * res unit :=
  match n with
  | 0 => (i, Timeout)
  | S n' =>
      let '(cs, r) := io_chain_flush_chunk fuel (io_codecs i) IO_WR_BUFSZ in
      let i1 := set_codecs i cs in
      match r with
      | Ok (CODEC_FLUSH_COMPLETE, _, _) => (i1, Ok tt)
      | Ok (CODEC_FLUSH_CHUNK, data, count) =>
          if decide (length data < count) then (i1, Fault) else
          let '(i2, r2) := put_flushing fuel i1 (take count data) in
          match r2 with
          | Ok _ => io_chain_flush fuel n' i2
          | e => (i2, e)
          end
      | Fail => (i1, Fail)
      | Fault => (i1, Fault)
      | Timeout => (i1, Timeout)
      end
  end.

Definition io_codec_add_head i (st : C) : io D C :=
  set_codecs i (mkCodec st (replicate CODEC_BUFSZ x00) 0 0 :: io_codecs i).
Definition io_codec_add_tail i (st : C) : io D C :=
  set_codecs i (io_codecs i ++ [mkCodec st (replicate CODEC_BUFSZ x00) 0 0]).

(** [io_codecs_remove]: the codecs go even when flushing them fails. *)
Definition io_codecs_remove (fuel : nat) i : io D C * res unit :=
  match io_codecs i with
  | [] => (i, Ok tt)
  | _ =>
      let '(i1, r) := if w_alloc (io_w i) then io_chain_flush fuel fuel i else (i, Ok tt) in
      (set_codecs i1 [], r)
  end.

(** ** Positioning, closing, reference counting, names *)

Definition io_seek i (off : nat) : io D C * res nat :=
  let '(i1, r) := io_flush i in
  match r with
  | Ok _ => let '(d, o) := dev_seek (io_dev i1) off in (set_dev i1 d, of_option o)
  | _ => (i1, Fail)
  end.

Definition io_tell i : io D C * res nat :=
  let '(i1, r) := io_flush i in
  match r with
  | Ok _ => (i1, of_option (dev_tell (io_dev i1)))
  | _ => (i1, Fail)
  end.

Definition io_close i : io D C * res unit :=
  let '(d, ok) := dev_close (io_dev i) in
  (set_dev i d, if (ok : bool) then Ok tt else Fail).

(** [io_free]: [Some i'] while references remain, [None] once the object is released; the
    second component is the device as it was left. *)
Definition io_free (fuel : nat) i : option (io D C) * D * res unit :=
  match io_refcnt i with
  | 0 => (Some i, io_dev i, Fail)
  | S 0 =>
      let '(i1, _) := io_codecs_remove fuel (set_refcnt i 0) in
      let '(i2, _) := io_flush i1 in
      let '(i3, _) := io_close i2 in
      (None, io_dev i3, Ok tt)
  | S n => (Some (set_refcnt i n), io_dev i, Ok tt)
  end.

Definition io_name_set i (name : list byte) : io D C * res unit :=
  if u_alloc (S (length name)) then (set_name i (Some name), Ok tt) else (i, Fail).

Definition io_name_get i (sz : nat) : res (list byte) :=
  match io_name i with
  | None => Fail
  | Some n => if decide (sz < 2) then Fail else Ok (take (min (sz - 1) (length n)) n)
  end.

(** ** Reading *)

(** The eof branch of [io_underflow]: fetch what the codecs still hold. *)
Definition underflow_eof (fuel : nat) i : io D C * res unit :=
  match io_codecs i with
  | [] => (i, Ok tt)
  | _ =>
      let r := io_r i in
      let '(cs, o) := io_chain_flush_chunk fuel (io_codecs i) (rbsz r) in
      let i1 := set_codecs i cs in
      match o with
      | Ok (rc, out, sz) =>
          (set_r i1 (mkRside (r_alloc r) (mwrite (rbuf r) 0 out) (rbsz r) (rcount r + sz) 0
                      (rtot r) (ubuf r) (ucount r) (uoff r)
                      (io_eof r || bool_decide (rc = CODEC_FLUSH_COMPLETE))), Ok tt)
      | Fail => (i1, Fail)
      | Fault => (i1, Fault)
      | Timeout => (i1, Timeout)
      end
  end.

(** The tail of the loop body: decode what [ubuf] holds into [rbuf]. *)
Definition underflow_transfer (fuel : nat) i : io D C * res unit :=
  let r := io_r i in
  let '(cs, o) := io_transfer fuel (io_codecs i) (rbsz r - rcount r)
                    (mread (ubuf r) (uoff r) (ucount r)) in
  let i1 := set_codecs i cs in
  match o with
  | Ok (out, c) =>
      if decide (c = 0 /\ out = []) then (i1, Fail) else
      let uc := ucount r - c in
      (set_r i1 (mkRside (r_alloc r) (mwrite (rbuf r) 0 out) (rbsz r) (length out) 0
                  (rtot r) (ubuf r) uc (if decide (uc = 0) then 0 else uoff r + c)
                  (io_eof r)), Ok tt)
  | Fail => (i1, Fail)
  | Fault => (i1, Fault)
  | Timeout => (i1, Timeout)
  end.

Fixpoint underflow_loop (fuel n : nat) i : io D C * res unit :=
  if decide (rcount (io_r i) <> 0) then (i, Ok tt) else
  match n with
  | 0 => (i, Timeout)
  | S n' =>
      let r := io_r i in
      if decide (ucount r = 0) then
        let '(d, o) := dev_read (io_dev i) (rbsz r) in
        let i1 := set_dev i d in
        match o with
        | None => (i1, Fail)
        | Some [] => underflow_eof fuel i1
        | Some data =>
            let i2 := set_r i1 (mkRside (r_alloc r) (rbuf r) (rbsz r) (rcount r) (roff r)
                                  (rtot r) (mwrite (ubuf r) 0 data)
                                  (ucount r + length data) (uoff r) (io_eof r)) in
            let '(i3, e) := underflow_transfer fuel i2 in
            match e with Ok _ => underflow_loop fuel n' i3 | _ => (i3, e) end
        end
      else
        let '(i3, e) := underflow_transfer fuel i in
        match e with Ok _ => underflow_loop fuel n' i3 | _ => (i3, e) end
  end.

(** [io_underflow]: on success it returns [rcount]. *)
Definition io_underflow (fuel : nat) i : io D C * res nat :=
  let '(i1, r1) := if r_alloc (io_r i) then (i, Ok tt) else io_rbuf_alloc i in
  match r1 with
  | Ok _ => let '(i2, r) := underflow_loop fuel fuel i1 in
            (i2, (fun _ => rcount (io_r i2)) <$> r)
  | _ => (i1, Fail)
  end.

(** Take the next [wr] bytes out of the read buffer. *)
Definition rbuf_get i (wr : nat) : io D C * list byte :=
  let r := io_r i in
  (set_r i (mkRside (r_alloc r) (rbuf r) (rbsz r) (rcount r - wr) (roff r + wr) (rtot r + wr)
              (ubuf r) (ucount r) (uoff r) (io_eof r)),
   mread (rbuf r) (roff r) wr).

Fixpoint read_loop (fuel n : nat) i (size : nat) : io D C * res (list byte) :=
  if decide (size = 0) then (i, Ok []) else
  match n with
  | 0 => (i, Timeout)
  | S n' =>
      let '(i1, r1) := if decide (rcount (io_r i) = 0) then io_underflow fuel i
                       else (i, Ok (rcount (io_r i))) in
      match r1 with
      | Ok 0 => (i1, Ok [])
      | Ok _ =>
          let wr := min (rcount (io_r i1)) size in
          let '(i2, out) := rbuf_get i1 wr in
          let '(i3, r) := read_loop fuel n' i2 (size - wr) in
          (i3, app out <$> r)
      | Fail => (i1, Fail)
      | Fault => (i1, Fault)
      | Timeout => (i1, Timeout)
      end
  end.

(** [io_read]: the bytes stored in [buf]; their number is the return value. *)
Definition io_read (fuel : nat) i (size : nat) : io D C * res (list byte) :=
  if io_eof (io_r i) then (i, Ok []) else read_loop fuel (S size) i size.

Definition io_getc (fuel : nat) i : io D C * res (option byte) :=
  let '(i', r) := io_read fuel i 1 in (i', head <$> r).

(** [io_strnchr] on the bytes of the window. *)
Definition io_strnchr (win : list byte) (c : byte) : option nat := strchr win c.

Fixpoint get_until_loop (fuel n : nat) i (stop_at : byte) (size : nat)
    : io D C * res (list byte) :=
  match n with
  | 0 => (i, Timeout)
  | S n' =>
      let r := io_r i in
      match io_strnchr (mread (rbuf r) (roff r) (rcount r)) stop_at with
      | Some p =>
          let '(i1, out) := rbuf_get i (min (S p) size) in (i1, Ok out)
      | None =>
          if decide (rcount r <= size) then
            let out := mread (rbuf r) (roff r) (rcount r) in
            let i1 := set_r i (mkRside (r_alloc r) (rbuf r) (rbsz r) 0 0 (rtot r + rcount r)
                                 (ubuf r) (ucount r) (uoff r) (io_eof r)) in
            let '(i2, r2) := io_underflow fuel i1 in
            match r2 with
            | Ok 0 => (i2, Ok out)
            | Ok _ => let '(i3, r3) := get_until_loop fuel n' i2 stop_at (size - rcount r) in
                      (i3, app out <$> r3)
            | Fail => (i2, Fail)
            | Fault => (i2, Fault)
            | Timeout => (i2, Timeout)
            end
          else
            let '(i1, out) := rbuf_get i size in (i1, Ok out)
      end
  end.

(** [io_get_until]: the string stored in [buf], the empty one at end of file. *)
Definition io_get_until (fuel : nat) i (stop_at : byte) (size : nat)
    : io D C * res (list byte) :=
  if decide (size < 2) then (i, Fail) else
  let '(i1, r1) := if decide (rcount (io_r i) = 0) then io_underflow fuel i
                   else (i, Ok 0) in
  match r1 with
  | Ok _ =>
      if decide (rcount (io_r i1) = 0) then (i1, Ok [])
      else get_until_loop fuel size i1 stop_at (size - 1)
  | Fail => (i1, Fail)
  | Fault => (i1, Fault)
  | Timeout => (i1, Timeout)
  end.

Definition io_gets (fuel : nat) i (size : nat) : io D C * res (list byte) :=
  io_get_until fuel i x0a size.

End io_ops.

(** ** Copying between two streams *)
Section copy.
Context {L : Libu} {D1 C1 D2 C2 : Type}.
Context {DO1 : DevOps D1} {CO1 : CodecOps C1} {DO2 : DevOps D2} {CO2 : CodecOps C2}.

Fixpoint io_copy (fuel n : nat) (out : io D1 C1) (inp : io D2 C2) (rem : nat)
    : io D1 C1 * io D2 C2 * res nat :=
  if decide (rem = 0) then (out, inp, Ok 0) else
  match n with
  | 0 => (out, inp, Timeout)
  | S n' =>
      let '(inp1, r) := io_read fuel inp (min IO_RD_BUFSZ rem) in
      match r with
      | Ok [] => (out, inp1, Ok 0)
      | Ok data =>
          let '(out1, w) := io_write fuel out data in
          match w with
          | Ok _ => let '(out2, inp2, c) := io_copy fuel n' out1 inp1 (rem - length data) in
                    (out2, inp2, Nat.add (length data) <$> c)
          | Fail => (out1, inp1, Fail)
          | Fault => (out1, inp1, Fault)
          | Timeout => (out1, inp1, Timeout)
          end
      | Fail => (out, inp1, Fail)
      | Fault => (out, inp1, Fault)
      | Timeout => (out, inp1, Timeout)
      end
  end.

Fixpoint io_pipe (fuel n : nat) (out : io D1 C1) (inp : io D2 C2)
    : io D1 C1 * io D2 C2 * res nat :=
  match n with
  | 0 => (out, inp, Timeout)
  | S n' =>
      let '(inp1, r) := io_read fuel inp IO_RD_BUFSZ in
      match r with
      | Ok [] => (out, inp1, Ok 0)
      | Ok data =>
          let '(out1, w) := io_write fuel out data in
          match w with
          | Ok _ => let '(out2, inp2, c) := io_pipe fuel n' out1 inp1 in
                    (out2, inp2, Nat.add (length data) <$> c)
          | Fail => (out1, inp1, Fail)
          | Fault => (out1, inp1, Fault)
          | Timeout => (out1, inp1, Timeout)
          end
      | Fail => (out, inp1, Fail)
      | Fault => (out, inp1, Fault)
      | Timeout => (out, inp1, Timeout)
      end
  end.
End copy.
