(* ===== verification/IoSpec.v ===== *)
(** What the buffered streams of [Io] promise.

    [DevSource] and [DevSink] are the contracts a device offers to its [io]: a source
    yields its remaining bytes in order, a sink appends what it accepts.  Against them,
    reading an [io] without codecs is reading from one byte sequence, and writing
    appends to one.  [Lossless] codecs pass their input through, possibly delayed; a
    chain of them neither loses nor reorders bytes. *)

From S2P Require Import Prelude Libu Io.

(** ** Contracts *)

Class DevSource (D : Type) {DO : DevOps D} := {
  src_rest : D -> list byte;
  dev_read_src (d : D) (n : nat) : 0 < n ->
    exists d' out, dev_read d n = (d', Some out) /\ src_rest d = out ++ src_rest d' /\
                   length out <= n /\ (out = [] -> src_rest d = [])
}.

(** [sink_ready d n]: the device will accept [n] more bytes. *)
Class DevSink (D : Type) {DO : DevOps D} := {
  sunk : D -> list byte;
  sink_ready : D -> nat -> Prop;
  dev_write_sink (d : D) (b : list byte) (n : nat) :
    0 < length b <= n -> sink_ready d n ->
    exists d' k, dev_write d b = (d', Some k) /\ 0 < k <= length b /\
                 sunk d' = sunk d ++ take k b /\ sink_ready d' (n - k)
}.

(** ** Buffers *)

Lemma length_mwrite (buf : list byte) (off : nat) (data : list byte) :
  off + length data <= length buf -> length (mwrite buf off data) = length buf.
Proof. intros H. unfold mwrite. rewrite !length_app, length_take, length_drop. lia. Qed.

Lemma mread_mwrite (buf : list byte) (off n : nat) (data : list byte) :
  off <= length buf -> n = length data -> mread (mwrite buf off data) off n = data.
Proof.
  intros H ->. unfold mread, mwrite. rewrite drop_app_length' by (rewrite length_take; lia).
  apply take_app_length.
Qed.

Lemma mread_0 (buf : list byte) (off : nat) : mread buf off 0 = [].
Proof. done. Qed.

Lemma length_mread (buf : list byte) (off n : nat) :
  off + n <= length buf -> length (mread buf off n) = n.
Proof. intros H. unfold mread. rewrite length_take, length_drop. lia. Qed.

Lemma mread_split (buf : list byte) (off m n : nat) :
  m <= n -> mread buf off n = mread buf off m ++ mread buf (off + m) (n - m).
Proof.
  intros H. unfold mread. rewrite <- (take_drop m (take n (drop off buf))).
  rewrite take_take, Nat.min_l by done. f_equal.
  by rewrite skipn_firstn_comm, drop_drop.
Qed.

Lemma mread_snoc (buf : list byte) (n : nat) (data : list byte) :
  n <= length buf ->
  mread (mwrite buf n data) 0 (n + length data) = mread buf 0 n ++ data.
Proof.
  intros H. unfold mread, mwrite. rewrite !drop_0, app_assoc.
  rewrite take_app_length'; [done|]. rewrite length_app, length_take. lia.
Qed.

Lemma IO_RD_BUFSZ_pos : 0 < IO_RD_BUFSZ.
Proof. unfold IO_RD_BUFSZ. lia. Qed.

Lemma IO_WR_BUFSZ_pos : 0 < IO_WR_BUFSZ.
Proof. unfold IO_WR_BUFSZ. lia. Qed.

Lemma IO_WR_BUFSZ_val : IO_WR_BUFSZ = N.to_nat 4096.
Proof. done. Qed.

Lemma take_mread (buf : list byte) (off m n : nat) :
  take m (mread buf off n) = mread buf off (min m n).
Proof. unfold mread. by rewrite take_take. Qed.

Lemma drop_mread (buf : list byte) (off m n : nat) :
  drop m (mread buf off n) = mread buf (off + m) (n - m).
Proof. unfold mread. by rewrite skipn_firstn_comm, drop_drop. Qed.

Lemma mread_drop_take (buf : list byte) (off sz size : nat) :
  sz <= size - off -> mread buf off sz = take sz (drop off (take size buf)).
Proof. intros H. unfold mread. rewrite skipn_firstn_comm, take_take. f_equal. lia. Qed.

Lemma take_mwrite (buf : list byte) (off : nat) (data : list byte) :
  off <= length buf -> take (off + length data) (mwrite buf off data) = take off buf ++ data.
Proof.
  intros H. unfold mwrite. rewrite app_assoc.
  rewrite take_app_length'; [done|]. rewrite length_app, length_take. lia.
Qed.

Lemma mread_snoc_off (buf : list byte) (off n : nat) (data : list byte) :
  off + n <= length buf ->
  mread (mwrite buf (off + n) data) off (n + length data) = mread buf off n ++ data.
Proof.
  intros H. unfold mread, mwrite. rewrite drop_app_le by (rewrite length_take; lia).
  rewrite skipn_firstn_comm, app_assoc. replace (off + n - off) with n by lia.
  rewrite take_app_length'; [done|]. rewrite length_app, length_take, length_drop. lia.
Qed.

#[global] Opaque IO_RD_BUFSZ IO_WR_BUFSZ CODEC_BUFSZ mread mwrite.

(** ** Reading *)

(** The first [n] bytes of [s], cut after the first [stop] among them. *)
Definition line_of (stop : byte) (n : nat) (s : list byte) : list byte :=
  match strchr (take n s) stop with
  | Some p => take (S p) s
  | None => take n s
  end.

Lemma line_of_found (stop : byte) (n p : nat) (w rest : list byte) :
  strchr w stop = Some p -> line_of stop n (w ++ rest) = take (min (S p) n) (w ++ rest).
Proof.
  intros [Hp Hn]%strchr_Some. unfold line_of. pose proof (lookup_lt_Some _ _ _ Hp) as Hl.
  destruct (decide (p < n)) as [Hlt|Hge].
  - assert (strchr (take n (w ++ rest)) stop = Some p) as ->.
    { apply strchr_Some. split.
      - rewrite lookup_take_lt, lookup_app_l by lia. done.
      - rewrite take_take, Nat.min_l, take_app_le by lia. done. }
    f_equal. lia.
  - assert (strchr (take n (w ++ rest)) stop = None) as ->.
    { apply strchr_None. rewrite take_app_le by lia. intros H. apply Hn.
      apply list_elem_of_lookup in H as [j Hj]. apply lookup_take_Some in Hj as [Hj Hj'].
      apply list_elem_of_lookup. exists j. rewrite lookup_take_lt by lia. done. }
    f_equal. lia.
Qed.

Lemma line_of_skip (stop : byte) (n : nat) (w rest : list byte) :
  stop ∉ w -> length w <= n ->
  line_of stop n (w ++ rest) = w ++ line_of stop (n - length w) rest.
Proof.
  intros Hw Hl. unfold line_of. rewrite take_app_ge by lia.
  destruct (strchr (take (n - length w) rest) stop) as [p|] eqn:E.
  - apply strchr_Some in E as [E1 E2].
    assert (strchr (w ++ take (n - length w) rest) stop = Some (length w + p)) as ->.
    { apply strchr_Some. split.
      - rewrite lookup_app_r by lia. by replace (length w + p - length w) with p by lia.
      - rewrite take_app_ge by lia. replace (length w + p - length w) with p by lia. set_solver. }
    rewrite take_app_ge by lia. f_equal. f_equal. lia.
  - apply strchr_None in E.
    rewrite (proj2 (strchr_None (w ++ _) stop)) by set_solver. done.
Qed.

Lemma line_of_short (stop : byte) (n : nat) (w rest : list byte) :
  stop ∉ w -> n <= length w -> line_of stop n (w ++ rest) = take n (w ++ rest).
Proof.
  intros Hw Hl. unfold line_of. rewrite (proj2 (strchr_None _ stop)); [done|].
  rewrite take_app_le by lia. intros H. apply Hw.
  apply list_elem_of_lookup in H as [j Hj]. apply lookup_take_Some in Hj as [Hj _].
  apply list_elem_of_lookup. eauto.
Qed.

(** The read side is consistent: windows lie inside the allocated buffers. *)
Definition rwf (r : rside) : Prop :=
  if r_alloc r then
    rbsz r = IO_RD_BUFSZ /\ length (rbuf r) = IO_RD_BUFSZ /\ length (ubuf r) = IO_RD_BUFSZ /\
    roff r + rcount r <= IO_RD_BUFSZ /\ uoff r + ucount r <= IO_RD_BUFSZ /\
    (ucount r = 0 -> uoff r = 0)
  else rcount r = 0 /\ ucount r = 0 /\ uoff r = 0.

Section reading.
Context {L : Libu} {LM : LibuMem L} {D C : Type} {DO : DevOps D} {DS : DevSource D}
        {CO : CodecOps C}.
Implicit Types i : io D C.

Definition rwin i : list byte := mread (rbuf (io_r i)) (roff (io_r i)) (rcount (io_r i)).
Definition uwin i : list byte := mread (ubuf (io_r i)) (uoff (io_r i)) (ucount (io_r i)).

(** The bytes that reading from [i] will return. *)
Definition instream i : list byte := rwin i ++ uwin i ++ src_rest (io_dev i).

(** A readable stream without codecs. *)
Definition readable i : Prop :=
  rwf (io_r i) /\ io_codecs i = [] /\ io_eof (io_r i) = false.

(** What reading leaves alone. *)
Definition same_but_read i i' : Prop :=
  io_w i' = io_w i /\ io_refcnt i' = io_refcnt i /\ io_name i' = io_name i.

Lemma rwin_length i : rwf (io_r i) -> length (rwin i) = rcount (io_r i).
Proof.
  unfold rwin, rwf. destruct (r_alloc (io_r i)).
  - intros (_ & H1 & _ & H2 & _). apply length_mread. lia.
  - intros (-> & _). done.
Qed.

Lemma rwin_nil i : rwf (io_r i) -> rcount (io_r i) = 0 -> rwin i = [].
Proof. intros _ H. unfold rwin. by rewrite H. Qed.

(** Decoding without codecs moves the raw window into the read window. *)
Lemma underflow_transfer_spec (fuel : nat) i :
  readable i -> r_alloc (io_r i) = true -> rcount (io_r i) = 0 -> ucount (io_r i) <> 0 ->
  exists i', underflow_transfer fuel i = (i', Ok tt) /\ readable i' /\
    rcount (io_r i') = ucount (io_r i) /\ instream i' = instream i /\
    rtot (io_r i') = rtot (io_r i) /\ same_but_read i i'.
Proof.
  intros (Hwf & Hcs & He) Ha Hr Hu. unfold underflow_transfer. rewrite Hcs. simpl.
  unfold rwf in Hwf. rewrite Ha in Hwf. destruct Hwf as (Hz & Hb & Hub & Hro & Huo & _).
  pose proof IO_RD_BUFSZ_pos as Hp.
  assert (length (uwin i) = ucount (io_r i)) as Hlu by (apply length_mread; lia).
  unfold uwin in Hlu. rewrite Hlu, Hr, Hz, Nat.sub_0_r, Nat.min_l by lia.
  rewrite decide_False by lia. eexists. split; [done|].
  rewrite take_ge by lia. rewrite Hlu, Nat.sub_diag, decide_True by done.
  split_and!; try done.
  - unfold readable, rwf. simpl. rewrite Ha. split_and!; try done; try lia.
    rewrite length_mwrite; lia.
  - unfold instream, rwin, uwin. simpl. rewrite Hr, !mread_0. simpl.
    f_equal. apply mread_mwrite; lia.
Qed.

Lemma underflow_loop_done (fuel n : nat) i :
  rcount (io_r i) <> 0 -> underflow_loop fuel n i = (i, Ok tt).
Proof. intros H. destruct n; simpl; by rewrite decide_True. Qed.

Lemma underflow_loop_spec (fuel n : nat) i :
  readable i -> r_alloc (io_r i) = true -> rcount (io_r i) = 0 -> 0 < n ->
  exists i', underflow_loop fuel n i = (i', Ok tt) /\ readable i' /\
    instream i' = instream i /\ (rcount (io_r i') = 0 -> instream i = []) /\
    rtot (io_r i') = rtot (io_r i) /\ same_but_read i i'.
Proof.
  intros Hrd Ha Hr Hn. destruct n as [|n]; [lia|]. cbn [underflow_loop].
  rewrite decide_False by lia. pose proof Hrd as (Hwf & Hcs & He).
  pose proof Hwf as Hwf'. unfold rwf in Hwf'. rewrite Ha in Hwf'.
  destruct Hwf' as (Hz & Hb & Hub & Hro & Huo & Hu0). pose proof IO_RD_BUFSZ_pos as Hp.
  destruct (decide (ucount (io_r i) = 0)) as [Hu|Hu].
  - destruct (dev_read_src (io_dev i) (rbsz (io_r i))) as (d & out & Hd & Hrest & Hl & Hnil);
      [lia|]. rewrite Hd. destruct out as [|b out].
    + unfold underflow_eof. simpl. rewrite Hcs. eexists. split; [done|].
      specialize (Hnil eq_refl). split_and!; try done.
      * unfold instream, rwin, uwin. simpl. by rewrite Hrest.
      * intros _. unfold instream, rwin, uwin. by rewrite Hr, Hu, Hnil.
    + set (i2 := set_r (set_dev i d) _).
      destruct (underflow_transfer_spec fuel i2) as (i3 & H1 & H2 & H3 & H4 & H5 & H6).
      * unfold readable, rwf. simpl. rewrite Ha. split_and!; try done; try lia.
        -- rewrite length_mwrite by (simpl in *; lia). done.
        -- rewrite Hu, (Hu0 Hu). simpl in *. lia.
      * done.
      * done.
      * simpl. lia.
      * rewrite H1. rewrite underflow_loop_done by (rewrite H3; simpl; lia).
        eexists. split; [done|]. split_and!; try done.
        -- rewrite H4. unfold instream, rwin, uwin. simpl. rewrite Hr, Hu, Hu0 by done.
           rewrite !mread_0. simpl. rewrite Hrest. f_equal.
           apply mread_mwrite; [lia|done].
        -- rewrite H3. simpl. lia.
  - destruct (underflow_transfer_spec fuel i) as (i3 & H1 & H2 & H3 & H4 & H5 & H6); try done.
    rewrite H1. rewrite underflow_loop_done by lia.
    exists i3. split_and!; try done. rewrite H3. lia.
Qed.

Lemma io_underflow_spec (fuel : nat) i :
  readable i -> rcount (io_r i) = 0 -> 0 < fuel ->
  exists i', io_underflow fuel i = (i', Ok (rcount (io_r i'))) /\ readable i' /\
    instream i' = instream i /\ (rcount (io_r i') = 0 -> instream i = []) /\
    rtot (io_r i') = rtot (io_r i) /\ same_but_read i i'.
Proof.
  intros Hrd Hr Hf. unfold io_underflow. destruct (r_alloc (io_r i)) eqn:Ha.
  - destruct (underflow_loop_spec fuel fuel i) as (i' & -> & H); try done.
    exists i'. simpl. naive_solver.
  - unfold io_rbuf_alloc. rewrite u_alloc_ok.
    destruct Hrd as (Hwf & Hcs & He). unfold rwf in Hwf. rewrite Ha in Hwf.
    destruct Hwf as (_ & Hu & Huo). set (i1 := set_r i _).
    destruct (underflow_loop_spec fuel fuel i1) as (i' & -> & H1 & H2 & H3 & H4 & H5); try done.
    + unfold readable, rwf. simpl. rewrite !length_replicate, Hr, Hu, Huo.
      split_and!; try done; lia.
    + assert (instream i1 = instream i) as E.
      { unfold instream, rwin, uwin. simpl. by rewrite Hr, Hu, !mread_0. }
      exists i'. simpl. rewrite E in *. split_and!; try done.
Qed.

(** Taking bytes out of the read window. *)
Lemma rbuf_get_spec i (wr : nat) :
  readable i -> wr <= rcount (io_r i) ->
  let '(i', out) := rbuf_get i wr in
  out = take wr (instream i) /\ length out = wr /\ readable i' /\
  instream i' = drop wr (instream i) /\
  rcount (io_r i') = rcount (io_r i) - wr /\
  rtot (io_r i') = rtot (io_r i) + wr /\ same_but_read i i'.
Proof.
  intros (Hwf & Hcs & He) Hwr. unfold rbuf_get. pose proof (rwin_length i Hwf) as Hl.
  assert (mread (rbuf (io_r i)) (roff (io_r i)) wr = take wr (rwin i)) as Hm
    by (unfold rwin; rewrite take_mread; f_equal; lia).
  split_and!; try done.
  - rewrite Hm. unfold instream. by rewrite take_app_le by lia.
  - rewrite Hm, length_take. lia.
  - unfold readable. simpl. split_and!; try done. unfold rwf in *. simpl.
    destruct (r_alloc (io_r i)); intuition lia.
  - unfold instream. rewrite drop_app_le by lia. f_equal.
    unfold rwin. simpl. by rewrite drop_mread.
Qed.

Lemma read_loop_spec (fuel n : nat) i (size : nat) :
  readable i -> 0 < fuel -> size < n ->
  exists i', read_loop fuel n i size = (i', Ok (take size (instream i))) /\ readable i' /\
    instream i' = drop size (instream i) /\
    rtot (io_r i') = rtot (io_r i) + length (take size (instream i)) /\ same_but_read i i'.
Proof.
  revert i size. induction n as [|n IH]; intros i size Hrd Hf Hn; [lia|].
  cbn [read_loop]. destruct (decide (size = 0)) as [->|Hs].
  { exists i. simpl. rewrite drop_0. split_and!; done || lia. }
  assert (exists i1 c, (if decide (rcount (io_r i) = 0) then io_underflow fuel i
                        else (i, Ok (rcount (io_r i)))) = (i1, Ok c) /\
    c = rcount (io_r i1) /\ readable i1 /\ instream i1 = instream i /\
    (c = 0 -> instream i = []) /\
    rtot (io_r i1) = rtot (io_r i) /\ same_but_read i i1) as (i1 & c & -> & -> & H1 & H2 & H3 & H4 & H5).
  { destruct (decide _) as [Hr|Hr].
    - destruct (io_underflow_spec fuel i Hrd Hr Hf) as (i1 & -> & ?). exists i1. naive_solver.
    - exists i, (rcount (io_r i)). split_and!; done. }
  destruct (rcount (io_r i1)) as [|c'] eqn:Ec.
  { rewrite H3 by done. rewrite take_nil, drop_nil. exists i1. rewrite H2, H3, H4 by done.
    split_and!; done || (simpl; lia). }
  rewrite <- Ec in *. pose proof (rbuf_get_spec i1 (min (rcount (io_r i1)) size) H1 ltac:(lia)) as G.
  destruct (rbuf_get i1 _) as [i2 out]. destruct G as (G1 & G2 & G3 & G4 & G5 & G6 & G7).
  set (wr := min (rcount (io_r i1)) size) in *.
  destruct (IH i2 (size - wr) G3 Hf ltac:(lia)) as (i3 & -> & K1 & K2 & K3 & K4).
  exists i3. rewrite H2 in *. rewrite G4 in *.
  assert (out ++ take (size - wr) (drop wr (instream i)) = take size (instream i)) as Eo.
  { rewrite G1. replace size with (wr + (size - wr)) at 2 by lia. by rewrite take_take_drop. }
  split_and!; try done.
  - simpl. by rewrite Eo.
  - rewrite K2, drop_drop. f_equal. lia.
  - rewrite K3, G6, H4, <- Eo, length_app, G2. lia.
  - destruct K4 as (? & ? & ?), G7 as (? & ? & ?), H5 as (? & ? & ?). split_and!; congruence.
Qed.

Lemma io_read_spec (fuel : nat) i (size : nat) :
  readable i -> 0 < fuel ->
  exists i', io_read fuel i size = (i', Ok (take size (instream i))) /\ readable i' /\
    instream i' = drop size (instream i) /\
    rtot (io_r i') = rtot (io_r i) + length (take size (instream i)) /\ same_but_read i i'.
Proof.
  intros Hrd Hf. unfold io_read. pose proof Hrd as (_ & _ & ->). apply read_loop_spec; [done..|lia].
Qed.

Lemma get_until_loop_spec (fuel n : nat) i (stop : byte) (size : nat) :
  readable i -> 0 < fuel -> rcount (io_r i) <> 0 -> size < n ->
  exists i', get_until_loop fuel n i stop size = (i', Ok (line_of stop size (instream i))) /\
    readable i' /\ instream i' = drop (length (line_of stop size (instream i))) (instream i) /\
    same_but_read i i'.
Proof.
  revert i size. induction n as [|n IH]; intros i size Hrd Hf Hr Hn; [lia|].
  cbn [get_until_loop]. pose proof Hrd as (Hwf & Hcs & He).
  pose proof (rwin_length i Hwf) as Hl. unfold io_strnchr. fold (rwin i).
  destruct (strchr (rwin i) stop) as [p|] eqn:Ep.
  - pose proof Ep as [Hp _]%strchr_Some. apply lookup_lt_Some in Hp.
    pose proof (rbuf_get_spec i (min (S p) size) Hrd ltac:(lia)) as G.
    destruct (rbuf_get i _) as [i1 out]. destruct G as (-> & Gl & G3 & G4 & G5 & G6 & G7).
    exists i1. unfold instream at 2 4. rewrite (line_of_found _ _ _ _ _ Ep).
    fold (instream i). by rewrite Gl.
  - apply strchr_None in Ep. destruct (decide (rcount (io_r i) <= size)) as [Hs|Hs].
    + set (i1 := set_r i _).
      assert (readable i1 /\ rwin i ++ instream i1 = instream i) as [H1 H2].
      { unfold i1. split; [|unfold instream, rwin, uwin; simpl; by rewrite mread_0].
        split_and!; try done. unfold rwf in *. simpl. destruct (r_alloc _); intuition lia. }
      destruct (io_underflow_spec fuel i1 H1 eq_refl Hf) as (i2 & -> & U1 & U2 & U3 & U4 & U5).
      assert (length (rwin i) = rcount (io_r i)) as Hlw by done.
      rewrite <- H2, line_of_skip, Hlw by (done || lia).
      assert (same_but_read i i2) as Hsb by (destruct U5 as (? & ? & ?); by split_and!).
      destruct (rcount (io_r i2)) as [|c] eqn:Ec.
      * exists i2. rewrite U3 by done. rewrite U2, U3 by done.
        unfold line_of. rewrite take_nil. simpl. rewrite !app_nil_r.
        split_and!; try done. by rewrite drop_all.
      * rewrite <- Ec in *.
        destruct (IH i2 (size - rcount (io_r i)) U1 Hf ltac:(lia) ltac:(lia))
          as (i3 & -> & K1 & K2 & K3).
        exists i3. rewrite U2 in *. split_and!; try done.
        -- rewrite K2, length_app, <- drop_drop, drop_app_length. done.
        -- destruct K3 as (? & ? & ?), Hsb as (? & ? & ?). split_and!; congruence.
    + pose proof (rbuf_get_spec i size Hrd ltac:(lia)) as G.
      destruct (rbuf_get i size) as [i1 out]. destruct G as (-> & Gl & G3 & G4 & G5 & G6 & G7).
      exists i1. unfold instream at 2 4. rewrite line_of_short by (done || lia).
      fold (instream i). by rewrite Gl.
Qed.

Lemma io_get_until_spec (fuel : nat) i (stop : byte) (size : nat) :
  readable i -> 0 < fuel -> 2 <= size ->
  exists i', io_get_until fuel i stop size = (i', Ok (line_of stop (size - 1) (instream i))) /\
    readable i' /\ instream i' = drop (length (line_of stop (size - 1) (instream i))) (instream i) /\
    same_but_read i i'.
Proof.
  intros Hrd Hf Hs. unfold io_get_until. rewrite decide_False by lia.
  assert (exists i1 c, (if decide (rcount (io_r i) = 0) then io_underflow fuel i
                        else (i, Ok 0)) = (i1, Ok c) /\
    readable i1 /\ instream i1 = instream i /\
    (rcount (io_r i1) = 0 -> instream i = []) /\ same_but_read i i1)
    as (i1 & c & -> & H1 & H2 & H3 & H4).
  { destruct (decide _) as [Hr|Hr].
    - destruct (io_underflow_spec fuel i Hrd Hr Hf) as (i1 & -> & ?). eexists _, _. naive_solver.
    - exists i, 0. by split_and!. }
  destruct (decide _) as [Hr|Hr].
  - exists i1. rewrite H2, H3 by done. unfold line_of. rewrite take_nil. by split_and!.
  - destruct (get_until_loop_spec fuel size i1 stop (size - 1) H1 Hf Hr ltac:(lia))
      as (i2 & -> & K1 & K2 & K3).
    exists i2. rewrite H2 in *. split_and!; try done.
    destruct K3 as (? & ? & ?), H4 as (? & ? & ?). split_and!; congruence.
Qed.

End reading.

(** ** Writing *)

Definition wwf (w : wside) : Prop :=
  if w_alloc w then
    wbsz w = IO_WR_BUFSZ /\ length (wbuf w) = IO_WR_BUFSZ /\ wcount w <= IO_WR_BUFSZ
  else wcount w = 0.

Section writing.
Context {L : Libu} {LM : LibuMem L} {D C : Type} {DO : DevOps D} {DK : DevSink D}
        {CO : CodecOps C}.
Implicit Types i : io D C.

(** Everything written to [i] so far: what the device took, then what is buffered. *)
Definition outstream i : list byte := sunk (io_dev i) ++ mread (wbuf (io_w i)) 0 (wcount (io_w i)).

Definition writable i : Prop := wwf (io_w i) /\ io_codecs i = [].

(** The device will take what is buffered and [n] bytes more. *)
Definition room i (n : nat) : Prop := sink_ready (io_dev i) (wcount (io_w i) + n).

Definition same_but_write i i' : Prop :=
  io_r i' = io_r i /\ io_codecs i' = io_codecs i /\
  io_refcnt i' = io_refcnt i /\ io_name i' = io_name i.

Lemma flush_loop_spec (fuel : nat) i (off n : nat) :
  wcount (io_w i) <= fuel -> off + wcount (io_w i) <= length (wbuf (io_w i)) -> room i n ->
  exists i', flush_loop fuel i off = (i', Ok tt) /\ wcount (io_w i') = 0 /\
    sunk (io_dev i') = sunk (io_dev i) ++ mread (wbuf (io_w i)) off (wcount (io_w i)) /\
    sink_ready (io_dev i') n /\ w_alloc (io_w i') = w_alloc (io_w i) /\
    wbuf (io_w i') = wbuf (io_w i) /\ wbsz (io_w i') = wbsz (io_w i) /\ same_but_write i i'.
Proof.
  revert i off. induction fuel as [|fuel IH]; intros i off Hf Ho Hroom; cbn [flush_loop];
    (destruct (decide (wcount (io_w i) = 0)) as [Hw|Hw];
      [exists i; unfold room in Hroom; rewrite Hw in *; rewrite mread_0, app_nil_r; by split_and!|]).
  - lia.
  - set (b := mread (wbuf (io_w i)) off (wcount (io_w i))) in *.
    assert (length b = wcount (io_w i)) as Hb by (apply length_mread; lia).
    destruct (dev_write_sink (io_dev i) b (wcount (io_w i) + n)) as (d & k & -> & Hk & Hs & Hn);
      [lia|done|]. destruct k as [|k]; [lia|]. rewrite decide_False by lia.
    set (i1 := set_w _ _). destruct (IH i1 (off + S k)) as (i' & -> & H1 & H2 & H3 & H4 & H5 & H6 & H7).
    + simpl. lia.
    + simpl. lia.
    + unfold room. simpl. by replace (wcount (io_w i) - S k + n) with (wcount (io_w i) + n - S k) by lia.
    + exists i'. split_and!; try done.
      rewrite H2. simpl. rewrite Hs, <- app_assoc. f_equal. subst b.
      rewrite take_mread, Nat.min_l by lia. symmetry. apply mread_split. lia.
Qed.

Lemma io_flush_spec i (n : nat) :
  writable i -> room i n ->
  exists i', io_flush i = (i', Ok tt) /\ writable i' /\ wcount (io_w i') = 0 /\ room i' n /\
    outstream i' = outstream i /\ w_alloc (io_w i') = w_alloc (io_w i) /\ same_but_write i i'.
Proof.
  intros [Hwf Hcs] Hroom. unfold io_flush.
  destruct (flush_loop_spec (wcount (io_w i)) i 0 n) as (i' & -> & H1 & H2 & H3 & H4 & H5 & H6 & H7);
    [done| |done|].
  { unfold wwf in Hwf. destruct (w_alloc _); [lia|]. rewrite Hwf. simpl. lia. }
  exists i'. pose proof H7 as (? & Hc & ? & ?). split_and!; try done.
  - split; [|by rewrite Hc]. unfold wwf in *. rewrite H4. destruct (w_alloc _); [|done].
    rewrite H5, H6, H1. intuition lia.
  - unfold room. by rewrite H1.
  - unfold outstream. by rewrite H1, H2, mread_0, app_nil_r.
Qed.

Lemma wbuf_put_spec i (out : list byte) (n : nat) :
  writable i -> w_alloc (io_w i) = true -> wcount (io_w i) + length out <= IO_WR_BUFSZ ->
  room i (length out + n) ->
  writable (wbuf_put i out) /\ w_alloc (io_w (wbuf_put i out)) = true /\ room (wbuf_put i out) n /\
  outstream (wbuf_put i out) = outstream i ++ out /\ same_but_write i (wbuf_put i out).
Proof.
  intros [Hwf Hcs] Ha Hl Hr. unfold wwf in Hwf. rewrite Ha in Hwf. destruct Hwf as (H1 & H2 & H3).
  split_and!; try done.
  - split; [|done]. unfold wwf. simpl. rewrite Ha, length_mwrite by lia. by split_and!.
  - unfold room in *. simpl. by rewrite <- Nat.add_assoc.
  - unfold outstream. simpl. rewrite mread_snoc by lia. by rewrite app_assoc.
Qed.

Lemma flush_if_full_spec i (n : nat) :
  writable i -> w_alloc (io_w i) = true -> room i n ->
  exists i', flush_if_full i = (i', Ok tt) /\ writable i' /\ wcount (io_w i') < IO_WR_BUFSZ /\
    wbsz (io_w i') = IO_WR_BUFSZ /\
    room i' n /\ outstream i' = outstream i /\ w_alloc (io_w i') = true /\ same_but_write i i'.
Proof.
  intros Hw Ha Hr. unfold flush_if_full. pose proof Hw as [Hwf Hcs]. pose proof IO_WR_BUFSZ_pos.
  unfold wwf in Hwf. rewrite Ha in Hwf. destruct Hwf as (H1 & H2 & H3).
  destruct (decide _) as [Hd|Hd].
  - destruct (io_flush_spec i n Hw Hr) as (i' & -> & K1 & K2 & K3 & K4 & K5 & K6).
    exists i'. rewrite K2, K5. split_and!; try done.
    destruct K1 as [Kwf _]. unfold wwf in Kwf. rewrite K5, Ha in Kwf. by destruct Kwf.
  - exists i. split_and!; try done. lia.
Qed.

Lemma write_loop_spec (fuel n : nat) i (rem : list byte) (m : nat) :
  writable i -> w_alloc (io_w i) = true -> room i (length rem + m) -> length rem <= n ->
  exists i', write_loop fuel n i rem = (i', Ok tt) /\ writable i' /\ w_alloc (io_w i') = true /\
    room i' m /\ outstream i' = outstream i ++ rem /\ same_but_write i i'.
Proof.
  revert i rem. induction n as [|n IH]; intros i rem Hw Ha Hr Hn.
  { destruct rem; [|simpl in Hn; lia]. exists i. simpl. rewrite app_nil_r. by split_and!. }
  destruct rem as [|b rem]; [exists i; simpl; rewrite app_nil_r; by split_and!|].
  cbn [write_loop].
  destruct (flush_if_full_spec i _ Hw Ha Hr) as (i1 & -> & K1 & K2 & Kz & K3 & K4 & K5 & K6).
  pose proof K1 as [_ Hcs1]. rewrite Hcs1. unfold io_transfer. rewrite Kz.
  set (wr := min (length (b :: rem)) (IO_WR_BUFSZ - wcount (io_w i1))).
  assert (0 < wr <= length (b :: rem) /\ wcount (io_w i1) + wr <= IO_WR_BUFSZ) as [Hwr Hwc]
    by (unfold wr; cbn [length]; lia).
  rewrite decide_False by lia.
  replace (set_codecs i1 []) with i1 by (destruct i1; simpl in *; by subst).
  assert (length (take wr (b :: rem)) = wr) as Hlt by (rewrite length_take; lia).
  destruct (wbuf_put_spec i1 (take wr (b :: rem)) (length (drop wr (b :: rem)) + m))
    as (P1 & P2 & P3 & P4 & P5); [done|done|lia| |].
  { rewrite Hlt, length_drop. by replace (wr + (length (b :: rem) - wr + m)) with (length (b :: rem) + m) by lia. }
  destruct (IH _ (drop wr (b :: rem)) P1 P2 P3) as (i' & -> & Q1 & Q2 & Q3 & Q4 & Q5).
  { rewrite length_drop. simpl in *. lia. }
  exists i'. split_and!; try done.
  - rewrite Q4, P4, K4, <- app_assoc, take_drop. done.
  - destruct K6 as (? & ? & ? & ?), P5 as (? & ? & ? & ?), Q5 as (? & ? & ? & ?).
    split_and!; congruence.
Qed.

Lemma io_write_spec (fuel : nat) i (data : list byte) (m : nat) :
  writable i -> room i (length data + m) -> length data <= fuel ->
  exists i', io_write fuel i data = (i', Ok (length data)) /\ writable i' /\ room i' m /\
    outstream i' = outstream i ++ data /\ same_but_write i i'.
Proof.
  intros Hw Hr Hf. unfold io_write. pose proof Hw as [Hwf Hcs]. destruct (w_alloc (io_w i)) eqn:Ha.
  - destruct (write_loop_spec fuel fuel i data m) as (i' & -> & ? & ? & ? & ? & ?); [done..|].
    by exists i'.
  - unfold io_wbuf_alloc. rewrite u_alloc_ok. unfold wwf in Hwf. rewrite Ha in Hwf.
    set (i1 := set_w i _).
    assert (outstream i1 = outstream i) as E
      by (unfold outstream; simpl; by rewrite Hwf, !mread_0).
    destruct (write_loop_spec fuel fuel i1 data m) as (i' & -> & H1 & H2 & H3 & H4 & H5); try done.
    + split; [|done]. unfold wwf. simpl. rewrite length_replicate. split_and!; [done..|lia].
    + exists i'. rewrite E in H4. by split_and!.
Qed.
End writing.
