(* ===== verification/IoMem.v ===== *)
(** The in-memory device of src/src/libio/iomem.c, an instance of the device interface,
    and the stream properties of [Io] stated for any device and evaluated on this one. *)

From S2P Require Import Prelude Libu Io IoSpec.

Record io_mem := mkIoMem {
  m_buf : list byte;
  m_size : nat;
  m_off : nat;
  m_free_buf : bool        (* flags & IO_MEM_FREE_BUF *)
}.

Definition io_mem_tell (im : io_mem) : option nat := Some (m_off im).

Definition io_mem_seek (im : io_mem) (off : nat) : io_mem * option nat :=
  if decide (m_size im <= off) then (im, None)
  else (mkIoMem (m_buf im) (m_size im) off (m_free_buf im), Some off).

Definition io_mem_read (im : io_mem) (size : nat) : io_mem * option (list byte) :=
  let sz := min size (m_size im - m_off im) in
  (mkIoMem (m_buf im) (m_size im) (m_off im + sz) (m_free_buf im),
   Some (mread (m_buf im) (m_off im) sz)).

Definition io_mem_write (im : io_mem) (buf : list byte) : io_mem * option nat :=
  let sz := min (length buf) (m_size im - m_off im) in
  (mkIoMem (mwrite (m_buf im) (m_off im) (take sz buf)) (m_size im) (m_off im + sz)
     (m_free_buf im), Some sz).

Definition io_mem_close (im : io_mem) : io_mem * bool := (im, true).

(** [io_mem_free] releases the buffer when the flag asks for it. *)
Definition io_mem_free (im : io_mem) : io_mem :=
  if m_free_buf im then mkIoMem [] 0 0 true else im.

#[global] Instance io_mem_ops : DevOps io_mem := {|
  dev_read := io_mem_read;
  dev_write := io_mem_write;
  dev_seek := io_mem_seek;
  dev_tell := io_mem_tell;
  dev_close := io_mem_close
|}.

Definition io_mem_create {C} (buf : list byte) (size : nat) (flags : bool) : io io_mem C :=
  io_prv_create (mkIoMem buf size 0 flags).

Definition io_mem_get_buf {C} (i : io io_mem C) : list byte := m_buf (io_dev i).
Definition io_mem_get_bufsz {C} (i : io io_mem C) : nat := m_size (io_dev i).

(** ** The contracts *)

#[global] Program Instance io_mem_source : DevSource io_mem := {|
  src_rest im := drop (m_off im) (take (m_size im) (m_buf im))
|}.
Next Obligation.
  intros im n Hn. eexists _, _. split; [reflexivity|]. simpl.
  set (sz := min n (m_size im - m_off im)).
  rewrite (mread_drop_take _ _ _ (m_size im)) by (unfold sz; lia). split_and!.
  - by rewrite <- drop_drop, take_drop.
  - rewrite length_take. unfold sz. lia.
  - set (rest := drop _ _). intros H. apply (f_equal length) in H.
    rewrite length_take in H. simpl in H. apply length_zero_iff_nil.
    assert (length rest <= m_size im - m_off im)
      by (unfold rest; rewrite length_drop, length_take; lia).
    unfold sz in H. lia.
Qed.

#[global] Program Instance io_mem_sink : DevSink io_mem := {|
  sunk im := take (m_off im) (m_buf im);
  sink_ready im n := m_off im + n <= m_size im <= length (m_buf im)
|}.
Next Obligation.
  intros im b n Hb [Hr1 Hr2]. eexists _, (length b).
  simpl. unfold io_mem_write. rewrite Nat.min_l, take_ge by lia.
  split; [done|]. simpl. rewrite length_mwrite by lia. split_and!; try lia.
  rewrite ?(take_ge b) by lia. apply take_mwrite. lia.
Qed.

(** ** Stream properties *)

Inductive no_codec : Set := .

#[global] Instance no_codec_ops : CodecOps no_codec := {|
  c_transform := fun (c : no_codec) _ _ => match c with end;
  c_flush := fun (c : no_codec) _ => match c with end
|}.

(** A memory stream and its contents, for evaluation. *)
Definition mem_io (data : list byte) : io io_mem no_codec :=
  io_mem_create data (length data) false.

Lemma mem_io_readable (data : list byte) : readable (mem_io data) /\ instream (mem_io data) = data.
Proof.
  split; [by split_and!|]. unfold instream, rwin, uwin. simpl. rewrite !mread_0. simpl.
  by rewrite drop_0, take_ge.
Qed.

Section stream_props.
Context {L : Libu} {LM : LibuMem L} {D C : Type} {DO : DevOps D} {CO : CodecOps C}.

(** C34: reading through the buffers is reading from one byte sequence: for every device
    that delivers its bytes in order and every request size, [io_read] returns exactly
    the next [size] bytes (fewer only at the end), keeps the rest readable in order and
    counts the bytes in [rtot]; the write side is untouched. *)
Theorem io_read_stream {DS : DevSource D} (fuel size : nat) (i : io D C) :
  readable i -> 0 < fuel ->
  exists i', io_read fuel i size = (i', Ok (take size (instream i))) /\
    readable i' /\ instream i' = drop size (instream i) /\
    rtot (io_r i') = rtot (io_r i) + length (take size (instream i)) /\ same_but_read i i'.
Proof. apply io_read_spec. Qed.

(** [io_get_until] (and [io_gets]) returns the next bytes up to and including the
    first stop character, at most [size - 1] of them and all that is left at end of
    file, across buffer refills, and leaves the stream just after them. *)
Theorem io_get_until_stream {DS : DevSource D} (fuel size : nat) (stop : byte) (i : io D C) :
  readable i -> 0 < fuel -> 2 <= size ->
  exists i', io_get_until fuel i stop size = (i', Ok (line_of stop (size - 1) (instream i))) /\
    readable i' /\ same_but_read i i' /\
    instream i = line_of stop (size - 1) (instream i) ++ instream i'.
Proof.
  intros H1 H2 H3. destruct (io_get_until_spec fuel i stop size H1 H2 H3) as (i' & -> & R1 & R2 & R3).
  exists i'. split_and!; try done. rewrite R2 at 1.
  assert (exists n, line_of stop (size - 1) (instream i) = take n (instream i)) as [n Hn].
  { unfold line_of. case_match; eauto. }
  rewrite Hn. rewrite <- (take_drop n (instream i)) at 1. f_equal.
  rewrite length_take. destruct (decide (n <= length (instream i))).
  - f_equal. lia.
  - rewrite !drop_ge by lia. done.
Qed.

(** Writing appends: after [io_write] and [io_flush] the device has received, in
    order and exactly once, everything it had before, everything that was buffered and
    the new data, whatever partial writes the device made; nothing stays buffered. *)
Theorem io_write_flush_stream {DK : DevSink D} (fuel : nat) (data : list byte) (i : io D C) :
  writable i -> room i (length data) -> length data <= fuel ->
  exists i1 i2, io_write fuel i data = (i1, Ok (length data)) /\ io_flush i1 = (i2, Ok tt) /\
    sunk (io_dev i2) = outstream i ++ data /\ wcount (io_w i2) = 0 /\ writable i2 /\
    io_r i2 = io_r i.
Proof.
  intros Hw Hr Hf. rewrite <- (Nat.add_0_r (length data)) in Hr.
  destruct (io_write_spec fuel i data 0 Hw Hr Hf) as (i1 & -> & W1 & W2 & W3 & W4).
  destruct (io_flush_spec i1 0 W1 W2) as (i2 & E & F1 & F2 & F3 & F4 & F5 & F6).
  exists i1, i2. split_and!; try done.
  - unfold outstream in F4 at 1. by rewrite F2, mread_0, app_nil_r, W3 in F4.
  - destruct W4 as (? & _), F6 as (? & _). congruence.
Qed.
End stream_props.

Lemma io_read_stream_witness :
  exists i', io_read (L:=libu_ref) 1 (mem_io (bs "hello world")) 5
               = (i', Ok (take 5 (instream (mem_io (bs "hello world"))))) /\
    readable i' /\ instream i' = drop 5 (instream (mem_io (bs "hello world"))) /\
    rtot (io_r i') = 0 + length (take 5 (instream (mem_io (bs "hello world")))) /\
    same_but_read (mem_io (bs "hello world")) i'.
Proof.
  apply (io_read_stream (L:=libu_ref) 1 5 (mem_io (bs "hello world"))); [|lia].
  apply mem_io_readable.
Defined.

Lemma io_get_until_stream_witness :
  exists i', io_get_until (L:=libu_ref) 1 (mem_io (bs "a,b")) "," 10
      = (i', Ok (line_of "," (10 - 1) (instream (mem_io (bs "a,b"))))) /\
    readable i' /\ same_but_read (mem_io (bs "a,b")) i' /\
    instream (mem_io (bs "a,b")) = line_of "," (10 - 1) (instream (mem_io (bs "a,b"))) ++ instream i'.
Proof.
  apply (io_get_until_stream (L:=libu_ref) 1 10 "," (mem_io (bs "a,b"))); [|lia..].
  apply mem_io_readable.
Defined.

Lemma io_write_flush_stream_witness :
  exists i1 i2, io_write (L:=libu_ref) 9 (mem_io (replicate 20 x00)) (bs "Hi, there")
                  = (i1, Ok 9) /\ io_flush i1 = (i2, Ok tt) /\
    sunk (io_dev i2) = outstream (mem_io (replicate 20 x00)) ++ bs "Hi, there" /\
    wcount (io_w i2) = 0 /\ writable i2 /\ io_r i2 = io_r (mem_io (replicate 20 x00)).
Proof.
  apply (io_write_flush_stream (L:=libu_ref) 9 (bs "Hi, there") (mem_io (replicate 20 x00))).
  - by split.
  - unfold room. simpl. lia.
  - simpl. lia.
Defined.

(** ** Copying, seeking, flushing *)

Section pipe.
Context {L : Libu} {LM : LibuMem L} {D1 C1 D2 C2 : Type}.
Context {DO1 : DevOps D1} {DK1 : DevSink D1} {CO1 : CodecOps C1}.
Context {DO2 : DevOps D2} {DS2 : DevSource D2} {CO2 : CodecOps C2}.

Lemma io_pipe_spec (fuel n : nat) (out : io D1 C1) (inp : io D2 C2) :
  writable out -> readable inp -> room out (length (instream inp)) ->
  IO_RD_BUFSZ <= fuel -> length (instream inp) < n ->
  exists out' inp', io_pipe fuel n out inp = (out', inp', Ok (length (instream inp))) /\
    writable out' /\ outstream out' = outstream out ++ instream inp /\ instream inp' = [].
Proof.
  pose proof IO_RD_BUFSZ_pos as Hp. revert out inp.
  induction n as [|n IH]; intros out inp Hw Hrd Hroom Hf Hn; [lia|]. cbn [io_pipe].
  destruct (io_read_spec fuel inp IO_RD_BUFSZ Hrd ltac:(lia)) as (inp1 & -> & R1 & R2 & _ & _).
  assert (instream inp = take IO_RD_BUFSZ (instream inp) ++ instream inp1) as E
    by (rewrite R2; symmetry; apply take_drop).
  assert (length (take IO_RD_BUFSZ (instream inp)) <= IO_RD_BUFSZ /\
          (take IO_RD_BUFSZ (instream inp) = [] -> instream inp1 = [])) as [Hd Hz].
  { rewrite length_take. split; [lia|]. intros H%(f_equal length). rewrite length_take in H.
    rewrite R2. apply length_zero_iff_nil. rewrite length_drop. simpl in H. lia. }
  destruct (take IO_RD_BUFSZ (instream inp)) as [|b data]; rewrite E in Hroom, Hn |- *.
  { exists out, inp1. rewrite (Hz eq_refl), !app_nil_r. by split_and!. }
  rewrite length_app in Hroom, Hn |- *.
  destruct (io_write_spec fuel out (b :: data) (length (instream inp1)) Hw Hroom ltac:(lia))
    as (out1 & -> & W1 & W2 & W3 & _).
  destruct (IH out1 inp1 W1 R1 W2 Hf ltac:(simpl in *; lia)) as (out' & inp' & -> & P1 & P2 & P3).
  exists out', inp'. split_and!; try done. by rewrite P2, W3, <- app_assoc.
Qed.

(** [io_pipe] copies the whole input to the output, in order, returns the number of
    bytes and leaves the input at its end; it terminates on every finite source. *)
Theorem io_pipe_stream (fuel : nat) (out : io D1 C1) (inp : io D2 C2) :
  writable out -> readable inp -> room out (length (instream inp)) -> IO_RD_BUFSZ <= fuel ->
  exists out' inp',
    io_pipe fuel (S (length (instream inp))) out inp = (out', inp', Ok (length (instream inp))) /\
    writable out' /\ outstream out' = outstream out ++ instream inp /\ instream inp' = [].
Proof. intros. apply io_pipe_spec; [done..|lia]. Qed.
End pipe.

Lemma io_pipe_stream_witness :
  exists out' inp',
    io_pipe (L:=libu_ref) IO_RD_BUFSZ (S (length (instream (mem_io (bs "payload")))))
      (mem_io (replicate 10 x00)) (mem_io (bs "payload"))
      = (out', inp', Ok (length (instream (mem_io (bs "payload"))))) /\
    writable out' /\
    outstream out' = outstream (mem_io (replicate 10 x00)) ++ instream (mem_io (bs "payload")) /\
    instream inp' = [].
Proof.
  apply (io_pipe_stream (L:=libu_ref)).
  - by split.
  - apply mem_io_readable.
  - rewrite (proj2 (mem_io_readable (bs "payload"))). unfold room. simpl. lia.
  - done.
Defined.

(** A memory stream over a buffer holds its bytes. *)
Lemma mem_readable {C : Type} (buf : list byte) :
  readable (io_mem_create (C:=C) buf (length buf) false) /\ instream (io_mem_create (C:=C) buf (length buf) false) = buf.
Proof.
  split; [by split_and!|]. unfold instream, rwin, uwin. simpl. rewrite !mread_0. simpl. by rewrite drop_0, take_ge.
Qed.

Section flush_seek.
Context {L : Libu} {D C : Type} {DO : DevOps D} {CO : CodecOps C}.
Implicit Types i : io D C.

(** A device that accepts [k] bytes and then none. *)
Lemma flush_stops i (d1 d2 : D) (k : nat) :
  0 < k < wcount (io_w i) ->
  dev_write (io_dev i) (mread (wbuf (io_w i)) 0 (wcount (io_w i))) = (d1, Some k) ->
  dev_write d1 (mread (wbuf (io_w i)) k (wcount (io_w i) - k)) = (d2, Some 0) ->
  io_flush i = (set_dev (set_w i (mkWside (w_alloc (io_w i)) (wbuf (io_w i)) (wbsz (io_w i)) (wcount (io_w i) - k))) d2,
                Ok tt).
Proof.
  intros Hk H1 H2. unfold io_flush. destruct (wcount (io_w i)) as [|[|n]] eqn:Ew; [lia..|].
  cbn [flush_loop]. rewrite Ew, decide_False, H1 by lia.
  destruct k as [|k]; [lia|]. rewrite decide_False by lia. cbn [io_w set_w wcount wbuf io_dev].
  rewrite decide_False by lia. simpl Nat.add. cbn [set_dev io_dev io_w set_w]. rewrite H2. done.
Qed.

(** [io_flush] reports success when the device accepts [k] bytes and then none, but
    it keeps the buffer as it was: the [wcount - k] bytes queued next are taken from the
    start of the buffer, so bytes already sent are sent again and the tail is lost. *)
Theorem io_flush_partial i (d1 d2 : D) (k : nat) :
  0 < k < wcount (io_w i) ->
  dev_write (io_dev i) (mread (wbuf (io_w i)) 0 (wcount (io_w i))) = (d1, Some k) ->
  dev_write d1 (mread (wbuf (io_w i)) k (wcount (io_w i) - k)) = (d2, Some 0) ->
  exists i', io_flush i = (i', Ok tt) /\ wcount (io_w i') = wcount (io_w i) - k /\
    mread (wbuf (io_w i')) 0 (wcount (io_w i')) = mread (wbuf (io_w i)) 0 (wcount (io_w i) - k).
Proof.
  intros Hk H1 H2. rewrite (flush_stops i d1 d2 k Hk H1 H2). by eexists.
Qed.

Lemma flush_loop_io_r (fuel : nat) i (off : nat) : io_r (fst (flush_loop fuel i off)) = io_r i.
Proof.
  revert i off. induction fuel as [|fuel IH]; intros i off; cbn [flush_loop].
  - by case_decide.
  - case_decide; [done|]. destruct (dev_write _ _) as [d [[|c]|]]; [done| |done].
    case_decide; [done|]. by rewrite IH.
Qed.

Lemma io_seek_io_r i (off : nat) : io_r (fst (io_seek i off)) = io_r i.
Proof.
  unfold io_seek, io_flush. pose proof (flush_loop_io_r (wcount (io_w i)) i 0) as H.
  destruct (flush_loop _ _ _) as [i1 [| | |]]; try done.
  by destruct (dev_seek _ _).
Qed.

(** A successful [io_seek] moves the device but keeps the bytes already buffered for
    reading: the next reads return those bytes, not the ones at the new offset. *)
Theorem io_seek_keeps_buffer (fuel off size : nat) i :
  io_eof (io_r i) = false -> 0 < size <= rcount (io_r i) ->
  snd (io_read fuel (fst (io_seek i off)) size)
  = Ok (mread (rbuf (io_r i)) (roff (io_r i)) size).
Proof.
  intros He Hs. rewrite <- (io_seek_io_r i off) in He, Hs |- *.
  generalize dependent (fst (io_seek i off)). intros j He Hs.
  unfold io_read. rewrite He. cbn [read_loop]. rewrite decide_False by lia.
  rewrite decide_False by lia. destruct (rcount (io_r j)) as [|c] eqn:Ec; [lia|].
  rewrite Nat.min_r by lia. cbn [rbuf_get]. rewrite Nat.sub_diag.
  destruct size as [|size]; [lia|]. cbn [read_loop]. rewrite decide_True by done.
  simpl. by rewrite app_nil_r.
Qed.
End flush_seek.

(** A memory stream of capacity 3 with "abcdef" queued for writing. *)
Definition queued_io : io io_mem no_codec :=
  set_w (mem_io (bs "...")) (mkWside true (bs "abcdef") 6 6).

Lemma io_flush_partial_witness :
  exists i', io_flush queued_io = (i', Ok tt) /\ wcount (io_w i') = 6 - 3 /\
    mread (wbuf (io_w i')) 0 (wcount (io_w i')) = mread (wbuf (io_w queued_io)) 0 (6 - 3).
Proof.
  apply (io_flush_partial queued_io (mkIoMem (bs "abc") 3 3 false) (mkIoMem (bs "abc") 3 3 false) 3).
  - simpl. lia.
  - vm_compute. reflexivity.
  - vm_compute. reflexivity.
Defined.

(** "abcdef" with its first byte read and the others buffered. *)
Definition part_read_io : io io_mem no_codec :=
  set_r (mem_io (bs "abcdef")) (mkRside true (bs "abcdef") 6 5 1 1 (bs "abcdef") 0 0 false).

Lemma io_seek_keeps_buffer_witness :
  snd (io_read (L:=libu_ref) 1 (fst (io_seek part_read_io 0)) 2)
  = Ok (mread (rbuf (io_r part_read_io)) (roff (io_r part_read_io)) 2).
Proof. apply io_seek_keeps_buffer; [done|]. simpl. lia. Defined.
