(* ===== verification/Codec.v ===== *)
(** Codecs: the null codec of src/src/libcodec/null.c and what a chain of codecs does to
    the bytes that cross it (the chain itself is [Io.io_transform]).

    [Lossless] is the contract of a codec that passes its input through, possibly keeping
    some of it back for a while. *)

From S2P Require Import Prelude Libu Io IoSpec.

Class Lossless (C : Type) {CO : CodecOps C} := {
  (** the bytes a codec has taken in and not yet given out *)
  c_pending : C -> list byte;
  c_transform_lossless (st st' : C) (cap n : nat) (src out : list byte) :
    c_transform st cap src = (st', Some (out, n)) ->
    n <= length src /\ length out <= cap /\ out ++ c_pending st' = c_pending st ++ take n src
}.

(** ** The null codec *)

Inductive codec_null := Null.

Definition null_transform (cn : codec_null) (cap : nat) (src : list byte)
    : codec_null * option (list byte * nat) :=
  if decide (cap = 0 \/ src = []) then (cn, None)
  else let wr := min (length src) cap in (cn, Some (take wr src, wr)).

Definition null_flush (cn : codec_null) (cap : nat)
    : codec_null * option (flush_rc * list byte * nat) :=
  (cn, Some (CODEC_FLUSH_COMPLETE, [], 0)).

#[global] Instance codec_null_ops : CodecOps codec_null := {|
  c_transform := null_transform;
  c_flush := null_flush
|}.

#[global] Program Instance codec_null_lossless : Lossless codec_null := {|
  c_pending _ := []
|}.
Next Obligation.
  intros st st' cap n src out. simpl. unfold null_transform. case_decide; [done|].
  intros H'. simplify_eq. rewrite app_nil_r, length_take. split_and!; [lia..|done].
Qed.

(** ** Chains *)

Definition codec_wf {C} (k : codec C) : Prop :=
  length (cbuf k) = CODEC_BUFSZ /\ coff k + ccount k <= CODEC_BUFSZ.

Definition cwin {C} (k : codec C) : list byte := mread (cbuf k) (coff k) (ccount k).

Section chain.
Context {C : Type} {CO : CodecOps C} {CL : Lossless C}.
Implicit Types (k : codec C) (cs : list (codec C)).

(** The bytes inside a chain, oldest first; the buffer of the last codec is not used. *)
Fixpoint pending cs : list byte :=
  match cs with
  | [] => []
  | [k] => c_pending (c_state k)
  | k :: rest => pending rest ++ cwin k ++ c_pending (c_state k)
  end.

Lemma pending_cons k cs :
  cs <> [] -> pending (k :: cs) = pending cs ++ cwin k ++ c_pending (c_state k).
Proof. by destruct cs. Qed.

(** What one pass through the chain guarantees. *)
Definition chain_step cs (cap : nat) (src : list byte) cs' (out : list byte) (n : nat) : Prop :=
  Forall codec_wf cs' /\ length cs' = length cs /\ n <= length src /\ length out <= cap /\
  out ++ pending cs' = pending cs ++ take n src.

Lemma codec_buffer_lossless
    (tr : list (codec C) -> nat -> list byte -> list (codec C) * res (list byte * nat))
    k cs (cap : nat) k' cs' (out : list byte) :
  (forall s cs2 o n, tr cs cap s = (cs2, Ok (o, n)) -> chain_step cs cap s cs2 o n) ->
  codec_wf k -> Forall codec_wf cs ->
  io_transform_codec_buffer tr k cs cap = (k', cs', Ok out) ->
  codec_wf k' /\ Forall codec_wf cs' /\ length cs' = length cs /\ length out <= cap /\
  c_state k' = c_state k /\ out ++ pending cs' ++ cwin k' = pending cs ++ cwin k.
Proof.
  intros Htr [Hk1 Hk2] Hcs. unfold io_transform_codec_buffer.
  destruct (decide (ccount k = 0)) as [H0|H0].
  { intros [= <- <- <-]. simpl. by split_and!; try lia. }
  destruct (tr cs cap _) as [cs2 [[o n]| | |]] eqn:E; try done. intros [= <- <- <-].
  apply Htr in E as (E1 & E2 & E3 & E4 & E5).
  fold (cwin k) in *. assert (length (cwin k) = ccount k) as Hl by (apply length_mread; lia).
  split_and!; try done.
  - split; [done|]. simpl. case_decide; lia.
  - rewrite app_assoc, E5, <- app_assoc. f_equal.
    rewrite <- (take_drop n (cwin k)) at 2. f_equal. unfold cwin. simpl.
    rewrite drop_mread. case_decide; [done|].
    by replace (ccount k - n) with 0 by lia.
Qed.

Lemma io_transform_lossless (fuel : nat) cs (cap : nat) (src : list byte) cs' (out : list byte) (n : nat) :
  Forall codec_wf cs -> cs <> [] ->
  io_transform fuel cs cap src = (cs', Ok (out, n)) -> chain_step cs cap src cs' out n.
Proof.
  revert cs src cs' out n. induction fuel as [|fuel IH]; intros cs src cs' out n Hwf Hne; [done|].
  destruct cs as [|k [|k2 rest]]; [done| |].
  - cbn [io_transform]. destruct (c_transform _ _ _) as [st [[o c]|]] eqn:E; [|done].
    intros H. apply c_transform_lossless in E as (E1 & E2 & E3).
    case_decide; simplify_eq. split_and!; try done.
    apply Forall_singleton. apply Forall_singleton in Hwf as [? ?]. by split.
  - apply Forall_cons in Hwf as [Hk Hrest]. cbn [io_transform].
    destruct (io_transform_codec_buffer _ _ _ _) as [[k1 rest1] r1] eqn:Eb.
    destruct r1 as [o1| | |]; try done.
    apply codec_buffer_lossless in Eb as (B1 & B2 & B3 & B4 & B5 & B6);
      [|intros; by apply IH|done..].
    assert (rest1 <> []) as Hne1 by (intros ->; simpl in B3; lia).
    assert (length (k1 :: rest1) = length (k :: k2 :: rest)) as Hlen by (simpl in *; lia).
    assert (o1 ++ pending (k1 :: rest1) = pending (k :: k2 :: rest)) as Hp.
    { rewrite !pending_cons by done. rewrite B5. rewrite !app_assoc in *. by rewrite B6. }
    destruct (decide (src = [] \/ _)) as [Hd|Hd].
    + case_decide as Hr.
      * intros E. apply IH in E as (E1 & E2 & E3 & E4 & E5); [|by constructor|done].
        destruct Hr as [-> _]. rewrite app_nil_l in Hp. rewrite Hp in E5.
        split_and!; try done. by rewrite E2.
      * intros [= <- <- <-]. split_and!; [by constructor|done|lia|done|].
        by rewrite Hp, app_nil_r.
    + destruct (c_transform _ _ _) as [st [[mid c]|]] eqn:E; [|done].
      apply c_transform_lossless in E as (E1 & E2 & E3).
      set (k3 := mkCodec st _ _ _).
      assert (codec_wf k3 /\ cwin k3 = cwin k1 ++ mid) as [K1 K2].
      { destruct B1 as [B11 B12]. split.
        - split; simpl; [rewrite length_mwrite; lia|lia].
        - unfold cwin. simpl. apply mread_snoc_off. lia. }
      assert (o1 ++ pending (k3 :: rest1) = pending (k :: k2 :: rest) ++ take c src) as Hp3.
      { rewrite <- Hp, !pending_cons by done. rewrite K2. simpl.
        rewrite <- !app_assoc. by rewrite E3. }
      case_decide; [done|]. case_decide as Hc.
      * intros E. apply IH in E as (F1 & F2 & F3 & F4 & F5); [|by constructor|done].
        destruct Hc as [-> ->]. rewrite app_nil_l in Hp3. rewrite app_nil_r in Hp3. rewrite Hp3 in F5.
        split_and!; try done. by rewrite F2.
      * intros [= <- <- <-]. split_and!; [by constructor|done|lia|done|done].
Qed.

(** A chain of codecs that pass their input through neither loses, duplicates nor
    reorders bytes: whenever a pass succeeds, the bytes given out followed by the bytes
    still inside the chain are the bytes that were inside followed by the consumed part
    of the source; nothing is written past the destination or the codec buffers. *)
Theorem io_transform_chain (fuel : nat) cs (cap : nat) (src : list byte) cs' (out : list byte) (n : nat) :
  Forall codec_wf cs -> cs <> [] ->
  io_transform fuel cs cap src = (cs', Ok (out, n)) ->
  Forall codec_wf cs' /\ length out <= cap /\ n <= length src /\
  out ++ pending cs' = pending cs ++ take n src.
Proof. intros H1 H2 H3. by apply io_transform_lossless in H3 as (? & ? & ? & ? & ?). Qed.
End chain.

(** Two null codecs in a row. *)
Definition null_chain : list (codec codec_null) :=
  replicate 2 (mkCodec Null (replicate CODEC_BUFSZ x00) 0 0).

Lemma io_transform_chain_witness :
  let '(cs, r) := io_transform 3 null_chain 10 (bs "data") in
  match r with
  | Ok (out, n) =>
      Forall codec_wf cs /\ length out <= 10 /\ n <= length (bs "data") /\
      out ++ pending cs = pending null_chain ++ take n (bs "data")
  | _ => False
  end.
Proof.
  destruct (io_transform 3 null_chain 10 (bs "data")) as [cs r] eqn:E.
  assert (exists p, r = Ok p) as [[out n] ->].
  { replace r with (snd (io_transform 3 null_chain 10 (bs "data"))) by (by rewrite E).
    vm_compute. eauto. }
  apply (io_transform_chain 3 null_chain 10 (bs "data")); [|done|done].
  repeat constructor; simpl; rewrite ?length_replicate; lia.
Defined.
