(* ===== verification/Getline.v ===== *)
(** Reading lines: [u_getline] of src/src/libutils/utils.c over [io_gets]. *)

From S2P Require Import Prelude Libu Io IoSpec IoMem.

Definition GETLINE_BUFSZ : nat := N.to_nat 1024.

Section getline.
Context {L : Libu} {D C : Type} {DO : DevOps D} {CO : CodecOps C}.

(** The loop: [ln] is the string built so far.  The last character of every chunk is left
    out ([--len]), whether or not it is the newline.  The result is the stream, the string
    and whether the function returned 0. *)
Fixpoint getline_loop (fuel n : nat) (i : io D C) (ln : list byte)
    : io D C * list byte * res unit :=
  match n with
  | 0 => (i, ln, Timeout)
  | S n' =>
      let '(i1, r) := io_gets fuel i GETLINE_BUFSZ in
      match r with
      | Ok [] => (i1, ln, Fail)
      | Ok buf =>
          let len := length buf - 1 in
          match u_string_append ln (take len buf) with
          | None => (i1, ln, Ok tt)      (* goto err with rc > 0 *)
          | Some ln' =>
              if u_isnl (List.last buf x00) then (i1, ln', Ok tt)
              else getline_loop fuel n' i1 ln'
          end
      | Fail => (i1, ln, Fail)
      | Fault => (i1, ln, Fault)
      | Timeout => (i1, ln, Timeout)
      end
  end.

Definition u_getline (fuel n : nat) (i : io D C) : io D C * list byte * res unit :=
  getline_loop fuel n i [].
End getline.

Lemma GETLINE_BUFSZ_val : GETLINE_BUFSZ = N.to_nat 1024.
Proof. done. Qed.

#[global] Opaque GETLINE_BUFSZ.

(** The longest line that fits in one chunk, without its newline. *)
Definition LINE_MAX : nat := GETLINE_BUFSZ - 2.

Lemma line_of_newline (n : nat) (w rest : list byte) :
  x0a ∉ w -> length w < n -> line_of x0a n (w ++ x0a :: rest) = w ++ [x0a].
Proof.
  intros Hw Hn. rewrite line_of_skip by (done || lia). f_equal.
  unfold line_of. destruct (n - length w) eqn:E; [lia|]. simpl. by rewrite take_0.
Qed.

Lemma drop_line (w rest : list byte) (b : byte) :
  drop (length (w ++ [b])) (w ++ b :: rest) = rest.
Proof.
  rewrite length_app. simpl. rewrite Nat.add_1_r. apply drop_middle.
Qed.

Section getline_spec.
Context {L : Libu} {LS : LibuSpec L} {LM : LibuMem L} {D C : Type}
        {DO : DevOps D} {DS : DevSource D} {CO : CodecOps C}.
Implicit Types i : io D C.

Lemma u_isnl_x0a : u_isnl x0a = true.
Proof. by rewrite u_isnl_spec. Qed.

(** [P i s] is a source of lines when [io_gets] takes them from [s]. *)
Definition line_source (P : io D C -> list byte -> Prop) (fuel : nat) : Prop :=
  forall i s size, P i s -> 2 <= size ->
  exists i', io_get_until fuel i x0a size = (i', Ok (line_of x0a (size - 1) s)) /\
    P i' (drop (length (line_of x0a (size - 1) s)) s).

Lemma readable_source (fuel : nat) : 0 < fuel -> line_source (fun i s => readable i /\ instream i = s) fuel.
Proof.
  intros Hf i s size [Hr <-] Hs. destruct (io_get_until_spec fuel i x0a size Hr Hf Hs) as (i' & -> & ? & ? & _). by exists i'.
Qed.

(** One short terminated line, appended to what was read before. *)
Lemma getline_loop_short (P : io D C -> list byte -> Prop) (fuel n : nat) i (ln w rest : list byte) :
  line_source P fuel -> P i (w ++ x0a :: rest) -> 0 < n -> x0a ∉ w -> length w <= LINE_MAX ->
  exists i', getline_loop fuel n i ln = (i', ln ++ w, Ok tt) /\ P i' rest.
Proof.
  intros HP Hi Hn Hw Hl. destruct n as [|n]; [lia|]. cbn [getline_loop]. unfold io_gets.
  assert (2 < GETLINE_BUFSZ) as Hb by (rewrite GETLINE_BUFSZ_val; lia).
  destruct (HP i _ GETLINE_BUFSZ Hi ltac:(lia)) as (i1 & -> & R2).
  unfold LINE_MAX in Hl. rewrite line_of_newline in * by (done || lia).
  destruct (w ++ [x0a]) as [|b l] eqn:E; [by destruct w|]. rewrite <- E in *.
  rewrite length_app, Nat.add_sub, take_app_length, u_string_append_eq.
  rewrite List.last_last, u_isnl_x0a. exists i1. split; [done|].
  by rewrite drop_line in R2.
Qed.

Lemma getline_end (P : io D C -> list byte -> Prop) (fuel n : nat) i :
  line_source P fuel -> P i [] -> 0 < n ->
  exists i', u_getline fuel n i = (i', [], Fail) /\ P i' [].
Proof.
  intros HP Hi Hn. unfold u_getline. destruct n as [|n]; [lia|]. cbn [getline_loop].
  unfold io_gets. assert (2 < GETLINE_BUFSZ) as Hb by (rewrite GETLINE_BUFSZ_val; lia).
  destruct (HP i [] GETLINE_BUFSZ Hi ltac:(lia)) as (i1 & -> & R2).
  unfold line_of in *. rewrite take_nil in *. simpl in *. eauto.
Qed.

Lemma getline_short (fuel n : nat) i (w rest : list byte) :
  readable i -> 0 < fuel -> 0 < n -> instream i = w ++ x0a :: rest ->
  x0a ∉ w -> length w <= LINE_MAX ->
  exists i', u_getline fuel n i = (i', w, Ok tt) /\ readable i' /\ instream i' = rest.
Proof. intros Hr Hf Hn Hi. by apply (getline_loop_short _ fuel n i [] w rest (readable_source fuel Hf)). Qed.

Lemma getline_eof (fuel n : nat) i :
  readable i -> 0 < fuel -> 0 < n -> instream i = [] ->
  exists i', u_getline fuel n i = (i', [], Fail) /\ readable i' /\ instream i' = [].
Proof. intros Hr Hf Hn Hi. by apply (getline_end _ fuel n i (readable_source fuel Hf)). Qed.

(** What is left after the last newline is not returned. *)
Lemma getline_unterminated (fuel n : nat) i (w : list byte) (c : byte) :
  readable i -> 0 < fuel -> 1 < n -> instream i = w ++ [c] -> (x0a ∉ w ++ [c]) -> c <> x0d ->
  length w <= LINE_MAX ->
  exists i', u_getline fuel n i = (i', w, Fail) /\ readable i' /\ instream i' = [].
Proof.
  intros Hr Hf Hn Hi Hw Hc Hl. unfold u_getline. destruct n as [|n]; [lia|]. cbn [getline_loop]. unfold io_gets.
  assert (2 < GETLINE_BUFSZ) as Hb by (rewrite GETLINE_BUFSZ_val; lia).
  destruct (io_get_until_spec fuel i x0a GETLINE_BUFSZ Hr Hf ltac:(lia)) as (i1 & -> & R1 & R2 & _).
  unfold LINE_MAX in Hl. assert (line_of x0a (GETLINE_BUFSZ - 1) (instream i) = w ++ [c]) as E.
  { rewrite Hi. unfold line_of. rewrite take_ge by (rewrite length_app; simpl; lia).
    by rewrite (proj2 (strchr_None _ _) Hw). }
  rewrite E in *. destruct (w ++ [c]) as [|b l] eqn:Ew; [by destruct w|]. rewrite <- Ew in *.
  rewrite length_app, Nat.add_sub, take_app_length, u_string_append_eq. rewrite List.last_last, u_isnl_spec.
  rewrite bool_decide_false by set_solver. cbn [app].
  assert (instream i1 = []) as H1 by (rewrite R2, Hi, drop_ge by (rewrite length_app; simpl; lia); done).
  destruct n as [|n]; [lia|]. cbn [getline_loop]. unfold io_gets.
  destruct (io_get_until_spec fuel i1 x0a GETLINE_BUFSZ R1 Hf ltac:(lia)) as (i2 & -> & Q1 & Q2 & _).
  rewrite H1 in *. unfold line_of in *. rewrite take_nil in *. simpl in *. eauto.
Qed.

(** A line of at most 1022 characters ended by a newline is returned without the
    newline, and the stream is left at the next line. *)
Theorem getline_reads_line (fuel n : nat) i (w rest : list byte) :
  readable i -> 0 < fuel -> 0 < n -> instream i = w ++ x0a :: rest ->
  x0a ∉ w -> length w <= LINE_MAX ->
  exists i', u_getline fuel n i = (i', w, Ok tt) /\ readable i' /\ instream i' = rest.
Proof. apply getline_short. Qed.

(** A longer line loses a character: the last one of every full chunk of 1023
    characters is dropped although it is not the newline (unless it is a carriage
    return, which ends the line there). *)
Theorem getline_long_line_loses (fuel n : nat) i (w1 w2 rest : list byte) (c : byte) :
  readable i -> 0 < fuel -> 1 < n -> instream i = (w1 ++ c :: w2) ++ x0a :: rest ->
  (x0a ∉ w1 ++ c :: w2) -> c <> x0d -> length w1 = LINE_MAX -> length w2 <= LINE_MAX ->
  exists i', u_getline fuel n i = (i', w1 ++ w2, Ok tt) /\ readable i' /\ instream i' = rest.
Proof.
  intros Hr Hf Hn Hi Hw Hc Hl1 Hl2. unfold u_getline. destruct n as [|n]; [lia|].
  cbn [getline_loop]. unfold io_gets.
  assert (2 < GETLINE_BUFSZ) as Hb by (rewrite GETLINE_BUFSZ_val; lia).
  destruct (io_get_until_spec fuel i x0a GETLINE_BUFSZ Hr Hf ltac:(lia)) as (i1 & -> & R1 & R2 & _).
  unfold LINE_MAX in *. assert (length (w1 ++ [c]) = GETLINE_BUFSZ - 1) as Hl.
  { rewrite length_app. simpl. lia. }
  assert (line_of x0a (GETLINE_BUFSZ - 1) (instream i) = w1 ++ [c]) as E.
  { rewrite Hi. replace ((w1 ++ c :: w2) ++ x0a :: rest) with ((w1 ++ [c]) ++ (w2 ++ x0a :: rest))
      by (rewrite <- !app_assoc; done).
    rewrite line_of_short by (set_solver || lia). apply take_app_length'. lia. }
  rewrite E in *. destruct (w1 ++ [c]) as [|b l] eqn:Ew; [by destruct w1|]. rewrite <- Ew in *.
  rewrite Hl. replace (GETLINE_BUFSZ - 1 - 1) with (length w1) by lia.
  rewrite take_app_length, u_string_append_eq, List.last_last.
  rewrite u_isnl_spec, bool_decide_false by set_solver.
  apply (getline_loop_short _ fuel n i1 w1 w2 rest (readable_source fuel Hf)); [|lia|set_solver|done].
  split; [done|]. rewrite R2, Hi, Hl. replace ((w1 ++ c :: w2) ++ x0a :: rest) with ((w1 ++ [c]) ++ (w2 ++ x0a :: rest))
    by (rewrite <- !app_assoc; done).
  apply drop_app_length'. lia.
Qed.
End getline_spec.

Lemma getline_reads_line_witness :
  exists i', u_getline (L:=libu_ref) 1 1 (mem_io (bs "Host: a" ++ x0a :: bs "next"))
               = (i', bs "Host: a", Ok tt) /\ readable i' /\ instream i' = bs "next".
Proof.
  apply (getline_reads_line (L:=libu_ref) 1 1 _ _ (bs "next")); try lia.
  - apply mem_io_readable.
  - apply mem_io_readable.
  - compute_decide.
  - compute_decide.
Defined.

Lemma getline_long_line_loses_witness :
  exists i', u_getline (L:=libu_ref) 1 2
       (mem_io ((replicate LINE_MAX "a"%byte ++ "X"%byte :: bs "b") ++ x0a :: bs "next"))
     = (i', replicate LINE_MAX "a"%byte ++ bs "b", Ok tt) /\ readable i' /\ instream i' = bs "next".
Proof.
  apply (getline_long_line_loses (L:=libu_ref) 1 2 _ _ (bs "b") (bs "next") "X").
  - apply mem_io_readable.
  - lia.
  - lia.
  - apply mem_io_readable.
  - compute_decide.
  - discriminate.
  - by rewrite length_replicate.
  - compute_decide.
Defined.
