(* ===== verification/Header.v ===== *)
(** HTTP header fields: src/src/libpage/field.c and src/src/libpage/header.c.

    A header is the list of its fields with a separate count.  A pointer to a field of a
    header is its position.  A field's name and value may be NULL ([None]); comparing a
    NULL name is undefined ([Fault]).  [vals] is the abstract view of a header: for each
    name, compared without case, the values in order. *)

From stdpp Require Import relations.
From S2P Require Import Prelude Libu Io IoSpec IoMem Getline.

Record field := mkField {
  f_name : option (list byte);
  f_value : option (list byte)
}.

Record header := mkHeader {
  h_fields : list field;
  nfields : nat
}.

Inductive load_mode := HLM_OVERRIDE | HLM_KEEP | HLM_ADD.

#[global] Instance field_eq_dec : EqDecision field.
Proof. solve_decision. Defined.
#[global] Instance header_eq_dec : EqDecision header.
Proof. solve_decision. Defined.
#[global] Instance load_mode_eq_dec : EqDecision load_mode.
Proof. solve_decision. Defined.

(** [sizeof(field_t)]: five pointers. *)
Definition FIELD_SIZE : nat := 40.
Definition HEADER_MAX_FIELD_COUNT : nat := 256.

Section header_ops.
Context {L : Libu}.

(** ** field.c *)

Definition field_create (name value : option (list byte)) : res field :=
  let dup (o : option (list byte)) := match o with Some s => u_alloc (S (length s)) | None => true end in
  if u_alloc FIELD_SIZE then
    if dup name && dup value then Ok (mkField name value) else Fail
  else Fail.

Definition field_set (f : field) (name value : list byte) : field * res unit :=
  if u_alloc (S (length name)) && u_alloc (S (length value))
  then (mkField (Some name) (Some value), Ok tt)
  else (f, Fail).

(** [for(++p; u_isblank( *p); ++p)] *)
Fixpoint eat_blanks (p : list byte) : list byte :=
  match p with
  | c :: p' => if u_isblank c then eat_blanks p' else p
  | [] => []
  end.

Definition field_set_from_line (f : field) (ln : list byte) : field * res unit :=
  if decide (ln = []) then (f, Fail) else
  match strchr ln ":" with
  | None => (f, Fail)
  | Some p =>
      if u_alloc (S p) then field_set f (take p ln) (eat_blanks (drop (S p) ln))
      else (f, Fail)
  end.

Definition field_get_name (f : field) : option (list byte) := f_name f.
Definition field_get_value (f : field) : option (list byte) := f_value f.

(** ** header.c *)

Definition header_create : header := mkHeader [] 0.

(** The [TAILQ_FOREACH] of [header_get_field]. *)
Fixpoint find_field (fs : list field) (name : list byte) : res (option nat) :=
  match fs with
  | [] => Ok None
  | f :: fs' =>
      match f_name f with
      | None => Fault
      | Some n => if strcaseeq n name then Ok (Some 0)
                  else (fun o : option nat => S <$> o) <$> find_field fs' name
      end
  end.

Definition header_get_field (h : header) (name : list byte) : res (option nat) :=
  find_field (h_fields h) name.

(** [Ok None] is a NULL result. *)
Definition header_get_field_value (h : header) (name : list byte) : res (option (list byte)) :=
  (fun p : option nat => p ≫= fun k => h_fields h !! k ≫= field_get_value)
    <$> header_get_field h name.

Definition header_field_count (h : header) : nat := nfields h.

Definition header_get_fieldn (h : header) (idx : nat) : option nat :=
  if decide (nfields h <= idx) then None
  else if decide (idx < length (h_fields h)) then Some idx else None.

Definition header_add_field (h : header) (f : field) : header :=
  mkHeader (h_fields h ++ [f]) (S (nfields h)).

Definition header_del_field (h : header) (k : nat) : header :=
  mkHeader (delete k (h_fields h)) (nfields h - 1).

Definition header_set_field (h : header) (name value : list byte) : header * res unit :=
  match header_get_field h name with
  | Ok None =>
      match field_create (Some name) (Some value) with
      | Ok n => (header_add_field h n, Ok tt)
      | _ => (h, Fail)
      end
  | Ok (Some k) =>
      match h_fields h !! k with
      | Some ex => let '(ex', r) := field_set ex name value in
                   (mkHeader (<[k := ex']> (h_fields h)) (nfields h), r)
      | None => (h, Fault)
      end
  | _ => (h, Fault)
  end.

(** The loop of [header_clear]. *)
Fixpoint clear_loop (fs : list field) (n : nat) : header :=
  match fs with
  | [] => mkHeader [] n
  | _ :: fs' => clear_loop fs' (n - 1)
  end.

Definition header_clear (h : header) : header := clear_loop (h_fields h) (nfields h).

Definition header_process_line (h : header) (line : list byte) (mode : load_mode)
    : header * res unit :=
  if decide (line = []) then (h, Ok tt) else
  match field_create None None with
  | Ok f0 =>
      let '(f, r) := field_set_from_line f0 (cstr line) in
      match r, field_get_name f with
      | Ok _, Some nm =>
          match mode with
          | HLM_ADD => (header_add_field h f, Ok tt)
          | HLM_OVERRIDE =>
              match header_get_field h nm with
              | Ok (Some k) => (header_add_field (header_del_field h k) f, Ok tt)
              | Ok None => (header_add_field h f, Ok tt)
              | _ => (h, Fault)
              end
          | HLM_KEEP =>
              match header_get_field h nm with
              | Ok (Some _) => (h, Ok tt)
              | Ok None => (header_add_field h f, Ok tt)
              | _ => (h, Fault)
              end
          end
      | _, _ => (h, Fail)
      end
  | _ => (h, Fail)
  end.

(** The body of [header_load_from_cgienv] for one entry of the environment. *)
Definition cgienv_entry (h : header) (e : list byte) : header :=
  if decide (5 < length e) then
    if strprefix (bs "HTTP_") e then
      let buf := (u_strlcpy (drop 5 e) 256).1 in
      match strchr buf "=" with
      | None => h
      | Some eq =>
          let name := map (fun c => if decide (c = "_"%byte) then "-"%byte else c) (take eq buf) in
          (header_set_field h name (drop (S eq) buf)).1
      end
    else h
  else h.

Definition header_load_from_cgienv (h : header) (environ : list (list byte)) : header :=
  foldl cgienv_entry h environ.

(** Removal of the trailing newline characters of a line; a failing
    [u_string_set_length] leaves the string alone. *)
Fixpoint trim_nl (len : nat) (ln line : list byte) : list byte :=
  match len with
  | 0 => line
  | S len' =>
      if u_isnl (nth len' ln x00) then trim_nl len' ln (default line (u_string_set_length line len'))
      else line
  end.

Context {D C : Type} {DO : DevOps D} {CO : CodecOps C}.

(** The loop of [header_load_ex]; [c] counts the lines still accepted, and [unfolded] is
    the logical line being put together.  [header_process_line] does
    nothing on an empty line, as the guards on the length of [unfolded] ask.  The final
    [header_process_line] is included. *)
Fixpoint load_loop (fuel n c : nat) (i : io D C) (h : header) (unfolded : list byte)
    (mode : load_mode) {struct c} : io D C * header * res unit :=
  let '(i1, line0, r) := u_getline fuel n i in
  match r with
  | Ok _ =>
      match c with
      | 0 => (i1, h, Fail)
      | S c' =>
          let line := trim_nl (length line0) line0 line0 in
          match line with
          | [] => let '(h', e) := header_process_line h unfolded mode in
                  (i1, h', match e with Fault => Fault | _ => Ok tt end)
          | b :: _ =>
              if u_isblank b then
                match u_string_append unfolded line with
                | Some u => load_loop fuel n c' i1 h u mode
                | None => (i1, h, Fail)
                end
              else
                let '(h', e) := header_process_line h unfolded mode in
                match e with
                | Fault => (i1, h', Fault)
                | _ => load_loop fuel n c' i1 h'
                         (u_string_copy [] line).1 mode
                end
          end
      end
  | Fail => let '(h', e) := header_process_line h unfolded mode in
            (i1, h', match e with Fault => Fault | _ => Ok tt end)
  | Fault => (i1, h, Fault)
  | Timeout => (i1, h, Timeout)
  end.

Definition header_load_ex (fuel n : nat) (h : header) (i : io D C) (mode : load_mode)
    : io D C * header * res unit :=
  match u_string_create [], u_string_create [] with
  | Some _, Some unfolded => load_loop fuel n HEADER_MAX_FIELD_COUNT i h unfolded mode
  | _, _ => (i, h, Fail)
  end.

Definition header_load (fuel n : nat) (h : header) (i : io D C) : io D C * header * res unit :=
  header_load_ex fuel n h i HLM_ADD.
End header_ops.

(** ** The abstract view: a case-insensitive multimap *)

Definition fmatch (name : list byte) (f : field) : bool :=
  match f_name f with Some n => strcaseeq n name | None => false end.

Definition fvals (name : list byte) (fs : list field) : list (list byte) :=
  omap f_value (List.filter (fmatch name) fs).

Definition vals (h : header) (name : list byte) : list (list byte) := fvals name (h_fields h).

(** Fields with a name and a value, counted right. *)
Definition field_ok (f : field) : Prop := is_Some (f_name f) /\ is_Some (f_value f).
Definition header_ok (h : header) : Prop :=
  nfields h = length (h_fields h) /\ Forall field_ok (h_fields h).

(** What loading a value under a mode does to the values of its name. *)
Definition merge (mode : load_mode) (old : list (list byte)) (v : list byte) : list (list byte) :=
  match mode, old with
  | HLM_ADD, _ => old ++ [v]
  | HLM_OVERRIDE, _ => tail old ++ [v]
  | HLM_KEEP, [] => [v]
  | HLM_KEEP, _ => old
  end.

Lemma fvals_app (name : list byte) (fs gs : list field) :
  fvals name (fs ++ gs) = fvals name fs ++ fvals name gs.
Proof. unfold fvals. by rewrite List.filter_app, omap_app. Qed.

Lemma fmatch_case (n m : list byte) (f : field) :
  strcaseeq n m = true -> fmatch n f = fmatch m f.
Proof.
  unfold fmatch. destruct (f_name f) as [k|]; [|done]. intros H.
  apply eq_iff_eq_true. split; intros E; eapply strcaseeq_trans; try done.
  by rewrite strcaseeq_sym.
Qed.

Lemma fvals_one (m n v : list byte) :
  fvals m [mkField (Some n) (Some v)] = if strcaseeq n m then [v] else [].
Proof. unfold fvals, fmatch. simpl. by destruct (strcaseeq n m). Qed.

Lemma fvals_none (n : list byte) (fs : list field) :
  Forall (fun f => fmatch n f = false) fs -> fvals n fs = [].
Proof.
  intros H. unfold fvals. induction H as [|f fs Hf _ IH]; simpl; [done|]. by rewrite Hf.
Qed.

Lemma fvals_other (m n : list byte) (f : field) :
  fmatch n f = true -> strcaseeq n m = false -> fvals m [f] = [].
Proof.
  unfold fvals, fmatch. simpl. destruct (f_name f) as [k|]; [|done]. intros H1 H2.
  destruct (strcaseeq k m) eqn:E; [|done].
  rewrite strcaseeq_sym in H1. by rewrite (strcaseeq_trans _ _ _ H1 E) in H2.
Qed.

(** [header_get_field] finds the first field of that name, and never faults on a
    well-formed header. *)
Lemma find_field_spec (fs : list field) (name : list byte) :
  Forall field_ok fs ->
  (find_field fs name = Ok None /\ Forall (fun f => fmatch name f = false) fs) \/
  exists pre f post, fs = pre ++ f :: post /\ find_field fs name = Ok (Some (length pre)) /\
    fmatch name f = true /\ Forall (fun f => fmatch name f = false) pre.
Proof.
  induction 1 as [|f fs [[n Hn] _] _ IH]; simpl; [by left|]. rewrite Hn.
  destruct (strcaseeq n name) eqn:E.
  - right. exists [], f, fs. unfold fmatch. by rewrite Hn.
  - assert (fmatch name f = false) as Hf by (unfold fmatch; by rewrite Hn).
    destruct IH as [[-> IH]|(pre & g & post & -> & -> & Hg & Hp)]; [left; by auto|].
    right. exists (f :: pre), g, post. split_and!; auto.
Qed.

Section header_laws.
Context {L : Libu} {LM : LibuMem L}.

(** What a line means: name and value. *)
Definition line_field (ln : list byte) : option (list byte * list byte) :=
  k ← strchr ln ":"; Some (take k ln, eat_blanks (drop (S k) ln)).

Lemma field_create_eq (n v : option (list byte)) : field_create n v = Ok (mkField n v).
Proof. unfold field_create. rewrite u_alloc_ok. destruct n, v; by rewrite ?u_alloc_ok. Qed.

Lemma field_set_eq f (n v : list byte) : field_set f n v = (mkField (Some n) (Some v), Ok tt).
Proof. unfold field_set. by rewrite !u_alloc_ok. Qed.

Lemma field_set_from_line_eq f (ln : list byte) :
  field_set_from_line f ln =
  match line_field ln with
  | Some (n, v) => (mkField (Some n) (Some v), Ok tt)
  | None => (f, Fail)
  end.
Proof.
  unfold field_set_from_line, line_field. case_decide as E; [by subst|].
  destruct (strchr ln ":"); simpl; [|done]. by rewrite u_alloc_ok, field_set_eq.
Qed.

Lemma header_add_ok (h : header) (n v : list byte) :
  header_ok h -> header_ok (header_add_field h (mkField (Some n) (Some v))).
Proof.
  intros [H1 H2]. split; simpl.
  - rewrite length_app, H1. simpl. lia.
  - apply Forall_app. split; [done|]. apply Forall_singleton. split; by eexists.
Qed.

(** Storing one parsed field under a mode. *)
Definition store (h : header) (n v : list byte) (mode : load_mode) : header :=
  let f := mkField (Some n) (Some v) in
  match mode, header_get_field h n with
  | HLM_ADD, _ => header_add_field h f
  | HLM_OVERRIDE, Ok (Some k) => header_add_field (header_del_field h k) f
  | HLM_KEEP, Ok (Some _) => h
  | _, _ => header_add_field h f
  end.

Lemma header_process_line_eq (h : header) (line : list byte) (mode : load_mode) :
  header_ok h -> line <> [] ->
  header_process_line h line mode =
  match line_field (cstr line) with
  | Some (n, v) => (store h n v mode, Ok tt)
  | None => (h, Fail)
  end.
Proof.
  intros [_ Hh] Hl. unfold header_process_line. rewrite decide_False by done.
  rewrite field_create_eq, field_set_from_line_eq.
  destruct (line_field (cstr line)) as [[n v]|]; [|done]. simpl. unfold store, header_get_field.
  destruct (find_field_spec (h_fields h) n Hh) as [[-> _]|(pre & f & post & _ & -> & _)];
    by destruct mode.
Qed.

Lemma store_ok (h : header) (n v : list byte) (mode : load_mode) :
  header_ok h -> header_ok (store h n v mode).
Proof.
  intros Hh. pose proof Hh as [Hn Hf]. unfold store, header_get_field.
  destruct (find_field_spec (h_fields h) n Hf) as [[-> _]|(pre & f & post & E & -> & _)];
    destruct mode; auto using header_add_ok.
  apply header_add_ok. split; simpl; rewrite E, delete_middle.
  - rewrite Hn, E, !length_app. simpl. lia.
  - rewrite E in Hf. apply Forall_app in Hf as [? Hf]. apply Forall_cons in Hf as [_ ?].
    by apply Forall_app.
Qed.

Lemma fvals_first (n : list byte) (pre post : list field) (f : field) :
  field_ok f -> fmatch n f = true -> Forall (fun f => fmatch n f = false) pre ->
  exists w, f_value f = Some w /\ fvals n (pre ++ f :: post) = w :: fvals n post.
Proof.
  intros [_ [w Hw]] Hf Hp. exists w. split; [done|].
  change (f :: post) with ([f] ++ post). rewrite !fvals_app, (fvals_none n pre) by done.
  unfold fvals at 1. simpl. rewrite Hf. simpl. by rewrite Hw.
Qed.

Lemma fvals_case (m n : list byte) (fs : list field) :
  strcaseeq n m = true -> fvals m fs = fvals n fs.
Proof.
  intros E. unfold fvals. f_equal. apply List.filter_ext. intros f.
  symmetry. by apply fmatch_case.
Qed.

Lemma store_vals (h : header) (n v m : list byte) (mode : load_mode) :
  header_ok h ->
  vals (store h n v mode) m =
  if strcaseeq n m then merge mode (vals h m) v else vals h m.
Proof.
  intros [_ Hf]. unfold vals, store, header_get_field.
  destruct (find_field_spec (h_fields h) n Hf) as [[-> Hn]|(pre & f & post & E & -> & Hm & Hp)].
  - assert (fvals m (h_fields h ++ [mkField (Some n) (Some v)]) =
      if strcaseeq n m then fvals m (h_fields h) ++ [v] else fvals m (h_fields h)) as A.
    { rewrite fvals_app, fvals_one. by destruct (strcaseeq n m); rewrite ?app_nil_r. }
    destruct mode; simpl; rewrite A; destruct (strcaseeq n m) eqn:Es; try done;
      by rewrite (fvals_case m n), (fvals_none n).
  - rewrite E in Hf. assert (field_ok f) as Hok by (apply Forall_app in Hf as [_ Hf]; by inversion Hf).
    destruct mode; simpl.
    + rewrite E, delete_middle, fvals_app, fvals_one. destruct (strcaseeq n m) eqn:Es.
      * destruct (fvals_first n pre post f Hok Hm Hp) as (w & _ & Ew).
        rewrite !(fvals_case m n), Ew by done. simpl. by rewrite fvals_app, (fvals_none n pre).
      * change (f :: post) with ([f] ++ post). rewrite !fvals_app, (fvals_other m n f) by done.
        by rewrite app_nil_r.
    + destruct (strcaseeq n m) eqn:Es; [|done].
      destruct (fvals_first n pre post f Hok Hm Hp) as (w & _ & Ew).
      by rewrite !(fvals_case m n), E, Ew by done.
    + rewrite fvals_app, fvals_one. by destruct (strcaseeq n m); rewrite ?app_nil_r.
Qed.

Lemma header_get_field_value_eq (h : header) (n : list byte) :
  header_ok h -> header_get_field_value h n = Ok (head (vals h n)).
Proof.
  intros [_ Hf]. unfold header_get_field_value, header_get_field, vals.
  destruct (find_field_spec (h_fields h) n Hf) as [[-> Hn]|(pre & f & post & E & -> & Hm & Hp)].
  - by rewrite fvals_none.
  - rewrite E in Hf |- *.
    assert (field_ok f) as Hok by (apply Forall_app in Hf as [_ Hf]; by inversion Hf).
    destruct (fvals_first n pre post f Hok Hm Hp) as (w & Hw & ->).
    simpl. rewrite list_lookup_middle by done. simpl. by rewrite <- Hw.
Qed.

Lemma header_set_field_vals (h : header) (n v m : list byte) :
  header_ok h ->
  exists h', header_set_field h n v = (h', Ok tt) /\ header_ok h' /\
    vals h' m = (if strcaseeq n m then v :: tail (vals h m) else vals h m) /\
    nfields h' = nfields h + (if decide (vals h n = []) then 1 else 0).
Proof.
  intros Hh. pose proof Hh as [Hn Hf]. unfold header_set_field, header_get_field, vals.
  destruct (find_field_spec (h_fields h) n Hf) as [[-> Hm]|(pre & f & post & E & -> & Hm & Hp)].
  - rewrite field_create_eq. eexists. split; [done|]. split; [by apply header_add_ok|].
    rewrite decide_True by (by apply fvals_none). split; [|simpl; lia].
    simpl. rewrite fvals_app, fvals_one. destruct (strcaseeq n m) eqn:Es; [|by rewrite app_nil_r].
    by rewrite !(fvals_case m n), fvals_none.
  - rewrite E in Hf |- *. assert (field_ok f) as Hok by (apply Forall_app in Hf as [_ Hf]; by inversion Hf).
    rewrite list_lookup_middle by done. rewrite field_set_eq. eexists. split; [done|].
    rewrite insert_app_r_alt, Nat.sub_diag by lia. simpl.
    destruct (fvals_first n pre post f Hok Hm Hp) as (w & Hw & Ew).
    rewrite decide_False by (by rewrite Ew). split_and!; [split; simpl|..].
    + rewrite Hn, E, !length_app. done.
    + apply Forall_app in Hf as [? Hf]. apply Forall_cons in Hf as [_ ?].
      apply Forall_app. split; [done|]. constructor; [split; by eexists|done].
    + change (mkField (Some n) (Some v) :: post) with ([mkField (Some n) (Some v)] ++ post).
      rewrite !fvals_app, fvals_one. destruct (strcaseeq n m) eqn:Es.
      * change (f :: post) with ([f] ++ post) in *.
        rewrite <- (fvals_app m pre ([f] ++ post)), !(fvals_case m n), Ew, (fvals_none n pre) by done. done.
      * change (f :: post) with ([f] ++ post). by rewrite !fvals_app, (fvals_other m n f).
    + lia.
Qed.
End header_laws.

(** ** The invariant, whatever allocation does *)
Section header_invariant.
Context {L : Libu}.

Lemma find_field_nofault (h : header) (n : list byte) :
  header_ok h -> exists o, header_get_field h n = Ok o /\
    forall k, o = Some k -> k < length (h_fields h).
Proof.
  intros [_ Hf]. unfold header_get_field.
  destruct (find_field_spec (h_fields h) n Hf) as [[-> _]|(pre & f & post & E & -> & _)].
  - exists None. naive_solver.
  - eexists. split; [done|]. intros k [= <-]. rewrite E, length_app. simpl. lia.
Qed.

Lemma field_ok_full (n v : list byte) : field_ok (mkField (Some n) (Some v)).
Proof. split; by eexists. Qed.

Lemma header_add_full_ok (h : header) (f : field) :
  header_ok h -> field_ok f -> header_ok (header_add_field h f).
Proof.
  intros [H1 H2] Hf. split; simpl; [rewrite length_app, H1; simpl; lia|].
  apply Forall_app. split; [done|]. by apply Forall_singleton.
Qed.

Lemma header_del_ok (h : header) (k : nat) :
  header_ok h -> k < length (h_fields h) -> header_ok (header_del_field h k).
Proof.
  intros [H1 H2] Hk. split; simpl.
  - rewrite length_delete, H1; [lia|]. by apply lookup_lt_is_Some.
  - by apply Forall_delete.
Qed.

Lemma header_clear_eq (h : header) : header_ok h -> header_clear h = mkHeader [] 0.
Proof.
  intros [H _]. unfold header_clear. rewrite H. clear H.
  induction (h_fields h) as [|f fs IH]; simpl; [done|]. by rewrite Nat.sub_0_r.
Qed.

Lemma header_set_field_ok (h : header) (n v : list byte) :
  header_ok h -> header_ok (header_set_field h n v).1 /\ safe (header_set_field h n v).2.
Proof.
  intros Hh. unfold header_set_field.
  destruct (find_field_nofault h n Hh) as ([k|] & -> & Hk).
  - specialize (Hk k eq_refl). apply lookup_lt_is_Some in Hk as [f Hf]. rewrite Hf.
    assert (header_ok (mkHeader (<[k:=mkField (Some n) (Some v)]> (h_fields h)) (nfields h))).
    { destruct Hh as [H1 H2]. split; simpl; [by rewrite length_insert|].
      apply Forall_insert; [done|apply field_ok_full]. }
    unfold field_set. destruct (_ && _); simpl; [by split|]. rewrite list_insert_id by done.
    destruct h; by split.
  - unfold field_create. destruct (u_alloc FIELD_SIZE); [|by split].
    destruct (_ && _); [|by split]. split; [|done]. apply header_add_full_ok; [done|].
    apply field_ok_full.
Qed.

Lemma field_set_from_line_full (f : field) (ln : list byte) :
  field_set_from_line f ln = (f, Fail) \/
  exists n v, field_set_from_line f ln = (mkField (Some n) (Some v), Ok tt).
Proof.
  unfold field_set_from_line, field_set. case_decide; [by left|].
  destruct (strchr ln ":"); [|by left]. destruct (u_alloc _); [|by left].
  destruct (_ && _); [|by left]. right. by eexists _, _.
Qed.

Lemma header_process_line_ok (h : header) (line : list byte) (mode : load_mode) :
  header_ok h -> header_ok (header_process_line h line mode).1 /\
                 safe (header_process_line h line mode).2.
Proof.
  intros Hh. unfold header_process_line. case_decide; [by split|].
  destruct (field_create None None) as [f0|  | |]; try by split.
  destruct (field_set_from_line_full f0 (cstr line)) as [->|(n & v & ->)]; [by split|]. simpl.
  destruct (find_field_nofault h n Hh) as ([k|] & -> & Hk).
  - destruct mode; split; try done; apply header_add_full_ok; try apply field_ok_full; [|done].
    apply header_del_ok; auto.
  - destruct mode; split; try done; apply header_add_full_ok; try done; apply field_ok_full.
Qed.

Lemma cgienv_ok (env : list (list byte)) (h : header) :
  header_ok h -> header_ok (header_load_from_cgienv h env).
Proof.
  revert h. induction env as [|e env IH]; intros h Hh; simpl; [done|]. apply IH.
  unfold cgienv_entry. case_decide; [|done]. destruct (strprefix _ _); [|done].
  destruct (strchr _ _); [|done]. by apply header_set_field_ok.
Qed.

Context {D C : Type} {DO : DevOps D} {CO : CodecOps C}.

Lemma load_loop_ok (fuel n c : nat) (i : io D C) (h : header) (u : list byte) (mode : load_mode) :
  header_ok h -> header_ok (load_loop fuel n c i h u mode).1.2.
Proof.
  revert i h u. induction c as [|c IH]; intros i h u Hh; cbn [load_loop];
    destruct (u_getline fuel n i) as [[i1 line0] r];
    destruct (header_process_line_ok h u mode Hh) as [Hp _]; revert Hp;
    destruct (header_process_line h u mode) as [h' e]; simpl; intros Hp; destruct r; try done.
  destruct (trim_nl _ _ _) as [|b l]; [done|].
  destruct (u_isblank b); [destruct (u_string_append _ _); [by apply IH|done]|].
  destruct e; try by apply IH. done.
Qed.

(** One operation on a header. *)
Inductive header_step (h : header) : header -> Prop :=
| step_set n v : header_step h (header_set_field h n v).1
| step_add f : field_ok f -> header_step h (header_add_field h f)
| step_del k : k < length (h_fields h) -> header_step h (header_del_field h k)
| step_clear : header_step h (header_clear h)
| step_cgienv env : header_step h (header_load_from_cgienv h env)
| step_load fuel n (i : io D C) mode : header_step h (header_load_ex fuel n h i mode).1.2.

Lemma header_step_ok (h h' : header) : header_step h h' -> header_ok h -> header_ok h'.
Proof.
  intros [] Hh; auto using header_add_full_ok, header_del_ok, cgienv_ok.
  - by apply header_set_field_ok.
  - by rewrite header_clear_eq.
  - unfold header_load_ex. destruct (u_string_create []); [|done].
    by apply load_loop_ok.
Qed.

(** Every header built with the operations of the module, under any pattern of
    allocation failures and from any stream, counts its fields right and has only
    fields with a name and a value, so that no operation on it faults: lookups by name
    and by position agree with the list. *)
Theorem header_reachable_ok (h : header) :
  rtc header_step header_create h ->
  header_ok h /\
  (forall n, safe (header_get_field h n)) /\
  (forall n v, safe (header_set_field h n v).2) /\
  (forall k, header_get_fieldn h k = if decide (k < header_field_count h) then Some k else None) /\
  (header_clear h = header_create).
Proof.
  intros Hr. assert (header_ok h) as Hh.
  { remember header_create as h0 eqn:E. assert (header_ok h0) as H0 by (subst; by split).
    clear E. induction Hr as [|h1 h2 h3 Hs _ IH]; [done|]. eauto using header_step_ok. }
  split_and!; [done| | | |by apply header_clear_eq].
  - intros n. destruct (find_field_nofault h n Hh) as (o & -> & _). done.
  - intros n v. by apply header_set_field_ok.
  - intros k. unfold header_get_fieldn, header_field_count. destruct Hh as [-> _].
    repeat case_decide; (done || lia).
Qed.
End header_invariant.

Lemma header_reachable_ok_witness :
  let h := (header_set_field (L:=libu_ref) header_create (bs "Host") (bs "a")).1 in
  header_ok h /\ (forall n, safe (header_get_field h n)) /\
  (forall n v, safe (header_set_field (L:=libu_ref) h n v).2) /\
  (forall k, header_get_fieldn h k = if decide (k < header_field_count h) then Some k else None) /\
  (header_clear h = header_create).
Proof.
  apply (header_reachable_ok (L:=libu_ref) (D:=io_mem) (C:=no_codec)).
  eapply rtc_l; [|apply rtc_refl]. apply step_set.
Defined.

(** ** Headers as clients use them *)
Section header_claims.
Context {L : Libu} {LS : LibuSpec L} {LM : LibuMem L}.

(** [header_set_field] replaces the first value of its name, compared without
    case, or adds the field, and [header_get_field_value] returns it; other names keep
    their values. *)
Theorem header_set_get (h : header) (n v : list byte) :
  header_ok h ->
  exists h', header_set_field h n v = (h', Ok tt) /\ header_ok h' /\
    header_get_field_value h' n = Ok (Some v) /\
    (forall m, vals h' m = if strcaseeq n m then v :: tail (vals h m) else vals h m) /\
    nfields h' = nfields h + (if decide (vals h n = []) then 1 else 0).
Proof.
  intros Hh. destruct (header_set_field_vals h n v n Hh) as (h' & E & Hh' & Hv & Hc).
  exists h'. split_and!; try done.
  - by rewrite header_get_field_value_eq, Hv, strcaseeq_refl.
  - intros m. destruct (header_set_field_vals h n v m Hh) as (h2 & E2 & _ & Hv2 & _). congruence.
Qed.

(** A header line "name: value" is stored as its load mode says: [HLM_ADD] adds a
    value, [HLM_KEEP] adds it only if the name has none, [HLM_OVERRIDE] drops the
    first value of the name and adds the new one at the end; a line without a colon
    changes nothing.  Other names are not touched. *)
Theorem header_process_line_merge (h : header) (line : list byte) (mode : load_mode) :
  header_ok h -> line <> [] ->
  match line_field (cstr line) with
  | Some (n, v) =>
      exists h', header_process_line h line mode = (h', Ok tt) /\ header_ok h' /\
        forall m, vals h' m = if strcaseeq n m then merge mode (vals h m) v else vals h m
  | None => header_process_line h line mode = (h, Fail)
  end.
Proof.
  intros Hh Hl. rewrite header_process_line_eq by done.
  destruct (line_field (cstr line)) as [[n v]|]; [|done].
  exists (store h n v mode). split_and!; [done|by apply store_ok|].
  intros m. by apply store_vals.
Qed.

(** Overriding a name that occurs twice leaves the second old value in front: the
    lookup does not return the new value. *)
Theorem header_override_duplicates (h : header) (n v w1 w2 : list byte) (ws : list (list byte))
    (line : list byte) :
  header_ok h -> line <> [] -> line_field (cstr line) = Some (n, v) ->
  vals h n = w1 :: w2 :: ws ->
  exists h', header_process_line h line HLM_OVERRIDE = (h', Ok tt) /\
    header_get_field_value h' n = Ok (Some w2).
Proof.
  intros Hh Hl Hn Hv. rewrite header_process_line_eq, Hn by done. eexists. split; [done|].
  by rewrite header_get_field_value_eq, store_vals, strcaseeq_refl, Hv by auto using store_ok.
Qed.

(** An environment variable HTTP_NAME=value that fits the buffer becomes the header
    field NAME, with dashes for underscores; other variables are ignored. *)
Theorem header_cgienv_entry (h : header) (n v e : list byte) :
  (("="%byte ∉ n) -> length n + length v < 255 ->
   cgienv_entry h (bs "HTTP_" ++ n ++ "="%byte :: v) =
   (header_set_field h (map (fun c => if decide (c = "_"%byte) then "-"%byte else c) n) v).1) /\
  (strprefix (bs "HTTP_") e = false -> cgienv_entry h e = h).
Proof.
  split.
  - intros Hn Hl. unfold cgienv_entry. rewrite decide_True by (simpl; rewrite length_app; simpl; lia).
    assert (strprefix (bs "HTTP_") (bs "HTTP_" ++ n ++ "="%byte :: v) = true) as ->.
    { unfold strprefix. rewrite take_app_length. by apply streq_eq. }
    rewrite u_strlcpy_spec by lia. simpl. rewrite drop_0.
    rewrite take_ge by (rewrite length_app; simpl; lia).
    rewrite strchr_app by done. by rewrite take_app_length, drop_middle.
  - intros He. unfold cgienv_entry. case_decide; [|done]. by rewrite He.
Qed.
End header_claims.

(** ** Loading a header from a stream *)

Definition crlf : list byte := [x0d; x0a].

(** The physical lines [ls], as sent, and the empty line after them. *)
Definition send_lines (ls : list (list byte)) : list byte :=
  concat (map (fun l => l ++ crlf) ls) ++ crlf.

(** A physical line that [u_getline] reads whole. *)
Definition line_ok (l : list byte) : Prop :=
  l <> [] /\ (x0a ∉ l) /\ last l <> Some x0d /\ length l < LINE_MAX.

(** The logical lines: a physical line that starts with a blank continues the one before. *)
Fixpoint unfold_lines {L : Libu} (cur : list byte) (ls : list (list byte)) : list (list byte) :=
  match ls with
  | [] => [cur]
  | l :: ls' =>
      if u_isblank (hd x00 l) then unfold_lines (cur ++ l) ls' else cur :: unfold_lines l ls'
  end.

Definition process_all {L : Libu} (mode : load_mode) (h : header) (ls : list (list byte)) : header :=
  foldl (fun h l => (header_process_line h l mode).1) h ls.

Section header_loading.
Context {L : Libu} {LS : LibuSpec L} {LM : LibuMem L}.
Context {D C : Type} {DO : DevOps D} {CO : CodecOps C} {DS : DevSource D}.

Lemma nth_last (l r : list byte) (b : byte) (k : nat) :
  length l = S k -> last l = Some b -> nth k (l ++ r) x00 = b.
Proof.
  intros Hl Hb. apply last_Some in Hb as [l' ->]. rewrite length_app in Hl. simpl in Hl.
  rewrite <- app_assoc, app_nth2 by lia. replace (k - length l') with 0 by lia. done.
Qed.

Lemma trim_line (l : list byte) :
  last l <> Some x0d -> (x0a ∉ l) -> trim_nl (length (l ++ [x0d])) (l ++ [x0d]) (l ++ [x0d]) = l.
Proof.
  intros Hl Hn. rewrite length_app. simpl. rewrite Nat.add_1_r. cbn [trim_nl].
  rewrite app_nth2, Nat.sub_diag by lia. simpl.
  rewrite u_isnl_spec, bool_decide_true by auto.
  rewrite u_string_set_length_eq by (rewrite length_app; lia). simpl. rewrite take_app_length.
  destruct (length l) as [|k] eqn:E; [done|]. cbn [trim_nl].
  destruct (last l) as [b|] eqn:Eb; [|by apply last_None in Eb; subst].
  rewrite (nth_last l [x0d] b k) by done. rewrite u_isnl_spec, bool_decide_false; [done|].
  intros [->| ->]; [|done]. apply Hn. apply last_Some in Eb as [l' ->]. set_solver.
Qed.

Lemma process_line_ok_fst (h : header) (l : list byte) (mode : load_mode) :
  header_ok h -> header_ok (header_process_line h l mode).1.
Proof. apply header_process_line_ok. Qed.

Lemma process_nofault (h : header) (u : list byte) (mode : load_mode) {A} (x y : A) :
  header_ok h ->
  match (header_process_line h u mode).2 with Fault => x | _ => y end = y.
Proof.
  intros Hh. destruct (header_process_line_ok h u mode Hh) as [_ [Hs _]].
  by destruct (header_process_line h u mode) as [h' []].
Qed.

Lemma load_loop_lines (fuel n : nat) (mode : load_mode) (rest : list byte) (ls : list (list byte)) :
  0 < fuel -> 0 < n -> Forall line_ok ls ->
  forall (c : nat) (i : io D C) (h : header) (u : list byte),
  header_ok h -> readable i -> instream i = send_lines ls ++ rest ->
  if decide (length ls < c)
  then exists i', load_loop fuel n c i h u mode = (i', process_all mode h (unfold_lines u ls), Ok tt) /\
         readable i' /\ instream i' = rest
  else (load_loop fuel n c i h u mode).2 = Fail.
Proof.
  intros Hf Hn Hls. unfold send_lines.
  induction Hls as [|l ls (Hne & Hnl & Hcr & Hlen) Hls IH]; intros c i h u Hh Hr Hi; simpl in Hi |- *.
  - destruct (getline_short fuel n i [x0d] rest Hr Hf Hn Hi ltac:(set_solver)) as (i1 & E & R1 & R2).
    { simpl. unfold LINE_MAX. rewrite GETLINE_BUFSZ_val. lia. }
    destruct c as [|c]; cbn [load_loop]; rewrite E; simpl; [done|].
    pose proof (trim_line [] ltac:(done) ltac:(set_solver)) as Ht. simpl in Ht. rewrite Ht.
    pose proof (process_nofault h u mode (Fault : res unit) (Ok tt) Hh) as Hp.
    destruct (header_process_line h u mode) as [h' e]. simpl in *. rewrite Hp. eauto.
  - unfold crlf in Hi at 1. rewrite <- !app_assoc in Hi. simpl in Hi.
    destruct (getline_short fuel n i (l ++ [x0d]) (concat (map (fun l => l ++ crlf) ls) ++ crlf ++ rest)
                Hr Hf Hn) as (i1 & E & R1 & R2).
    { rewrite Hi. rewrite <- !app_assoc. done. }
    { set_solver. }
    { rewrite length_app. simpl. lia. }
    destruct c as [|c]; cbn [load_loop]; rewrite E; [done|].
    rewrite trim_line by done. destruct l as [|b l]; [done|]. simpl hd.
    rewrite app_assoc in R2.
    destruct (u_isblank b).
    + rewrite u_string_append_eq. specialize (IH c i1 h (u ++ b :: l) Hh R1 R2).
      repeat case_decide; (done || lia).
    + pose proof (process_line_ok_fst h u mode Hh) as Hok.
      pose proof (process_nofault h u mode
        (i1, (header_process_line h u mode).1, Fault)
        (load_loop fuel n c i1 (header_process_line h u mode).1 (u_string_copy [] (b :: l)).1 mode) Hh) as Hp.
      unfold process_all. simpl foldl.
      destruct (header_process_line h u mode) as [h' e]. simpl in Hok, Hp |- *.
      rewrite Hp, u_string_copy_eq. simpl.
      specialize (IH c i1 h' (b :: l) Hok R1 R2). repeat case_decide; (done || lia).
Qed.

(** C25: loading a header reads its physical lines up to the empty one, joins the folded
    ones, stores every logical line under the load mode and leaves the stream just
    after the header.  At most 255 physical lines are accepted: one more makes it
    fail. *)
Theorem header_load_lines (fuel n : nat) (mode : load_mode) (h : header) (i : io D C)
    (ls : list (list byte)) (rest : list byte) :
  0 < fuel -> 0 < n -> Forall line_ok ls -> header_ok h -> readable i ->
  instream i = send_lines ls ++ rest ->
  if decide (length ls < HEADER_MAX_FIELD_COUNT)
  then exists i', header_load_ex fuel n h i mode = (i', process_all mode h (unfold_lines [] ls), Ok tt) /\
         readable i' /\ instream i' = rest
  else (header_load_ex fuel n h i mode).2 = Fail.
Proof.
  intros. unfold header_load_ex. rewrite u_string_create_eq. by apply load_loop_lines.
Qed.
End header_loading.

(** ** Round trip of a list of fields *)

Definition field_line (nv : list byte * list byte) : list byte := nv.1 ++ bs ": " ++ nv.2.

Definition mk_field (nv : list byte * list byte) : field := mkField (Some nv.1) (Some nv.2).

(** No colon or leading blank in the name, no leading blank in the value, no control
    character that ends a line or a C string, and a line that fits. *)
Definition plain (l : list byte) : Prop := (x0a ∉ l) /\ (x00 ∉ l) /\ (x0d ∉ l).

Definition not_blank (l : list byte) : Prop := hd x00 l <> " "%byte /\ hd x00 l <> x09.

Definition pair_ok (nv : list byte * list byte) : Prop :=
  plain nv.1 /\ plain nv.2 /\ (":"%byte ∉ nv.1) /\ not_blank nv.1 /\ not_blank nv.2 /\
  length nv.1 + length nv.2 + 2 < LINE_MAX.

Section header_roundtrip.
Context {L : Libu} {LS : LibuSpec L} {LM : LibuMem L}.
Context {D C : Type} {DO : DevOps D} {CO : CodecOps C} {DS : DevSource D}.

Lemma field_line_ok nv : pair_ok nv -> line_ok (field_line nv).
Proof.
  destruct nv as [n v]. intros ((Hn1 & _ & Hn3) & (Hv1 & _ & Hv3) & Hc & _ & _ & Hl).
  unfold field_line. simpl in *. split_and!.
  - destruct n; discriminate.
  - set_solver.
  - rewrite last_app. destruct (last (":"%byte :: " "%byte :: v)) eqn:E.
    + intros [= ->]. apply last_Some in E as [l' E].
      assert (x0d ∈ ":"%byte :: " "%byte :: v) by (rewrite E; set_solver). set_solver.
    + by apply last_None in E.
  - rewrite length_app. simpl. lia.
Qed.

Lemma not_blank_isblank (l : list byte) : not_blank l -> u_isblank (hd x00 l) = false.
Proof. intros []. rewrite u_isblank_spec. apply bool_decide_false. naive_solver. Qed.

Lemma eat_blanks_value (v : list byte) : not_blank v -> eat_blanks (" "%byte :: v) = v.
Proof.
  intros H. simpl. rewrite u_isblank_spec, bool_decide_true by auto.
  destruct v as [|b v]; [done|]. simpl. apply not_blank_isblank in H. simpl in H. by rewrite H.
Qed.

Lemma field_line_field nv : pair_ok nv -> line_field (cstr (field_line nv)) = Some nv.
Proof.
  destruct nv as [n v]. intros ((_ & Hn & _) & (_ & Hv & _) & Hc & _ & Hb & _).
  unfold field_line. simpl in *. rewrite cstr_id by set_solver.
  unfold line_field. rewrite strchr_app by done. simpl.
  rewrite take_app_length, drop_middle. by rewrite eat_blanks_value.
Qed.

Lemma field_line_hd nv : pair_ok nv -> u_isblank (hd x00 (field_line nv)) = false.
Proof.
  destruct nv as [n v]. intros (_ & _ & _ & Hb & _). unfold field_line.
  destruct n as [|b n]; simpl; [by rewrite u_isblank_spec, bool_decide_false by naive_solver|].
  by apply (not_blank_isblank (b :: n)).
Qed.

Lemma unfold_lines_plain (ls : list (list byte)) (u : list byte) :
  Forall (fun l => u_isblank (hd x00 l) = false) ls -> unfold_lines u ls = u :: ls.
Proof.
  intros H. revert u. induction H as [|l ls Hl _ IH]; intros u; simpl; [done|].
  by rewrite Hl, IH.
Qed.

Lemma process_all_nil (mode : load_mode) (h : header) (ls : list (list byte)) :
  process_all mode h ([] :: ls) = process_all mode h ls.
Proof. done. Qed.

Lemma process_all_add (nvs : list (list byte * list byte)) (h : header) :
  Forall pair_ok nvs -> header_ok h ->
  process_all HLM_ADD h (map field_line nvs) =
  mkHeader (h_fields h ++ map mk_field nvs) (nfields h + length nvs).
Proof.
  intros H. revert h. induction H as [|nv nvs Hnv _ IH]; intros h Hh; simpl.
  - rewrite app_nil_r, Nat.add_0_r. by destruct h.
  - unfold process_all in *. simpl.
    assert (field_line nv <> []) as Hne by apply (field_line_ok nv Hnv).
    rewrite header_process_line_eq, field_line_field by done. destruct nv as [n v]. simpl.
    rewrite IH by (by apply header_add_ok). simpl. rewrite <- app_assoc. simpl. f_equal. lia.
Qed.

Lemma header_load_pairs (fuel n : nat) (h : header) (i : io D C)
    (nvs : list (list byte * list byte)) (body : list byte) :
  0 < fuel -> 0 < n -> Forall pair_ok nvs -> length nvs < HEADER_MAX_FIELD_COUNT ->
  header_ok h -> readable i -> instream i = send_lines (map field_line nvs) ++ body ->
  exists i', header_load fuel n h i =
      (i', mkHeader (h_fields h ++ map mk_field nvs) (nfields h + length nvs), Ok tt) /\
    readable i' /\ instream i' = body.
Proof.
  intros Hf Hn Hp Hl Hh Hr Hi. unfold header_load, header_load_ex. rewrite u_string_create_eq.
  assert (Forall line_ok (map field_line nvs)) as Hok.
  { apply Forall_map. eapply Forall_impl; [done|]. apply field_line_ok. }
  pose proof (load_loop_lines fuel n HLM_ADD body (map field_line nvs) Hf Hn Hok
                HEADER_MAX_FIELD_COUNT i h [] Hh Hr Hi) as H.
  rewrite length_map, decide_True in H by done.
  rewrite unfold_lines_plain in H.
  - by rewrite process_all_nil, process_all_add in H.
  - apply Forall_map. eapply Forall_impl; [done|]. apply field_line_hd.
Qed.

(** Up to 255 fields sent as "name: value" lines and an empty line are read back
    by [header_load] as the same fields, in order, after those already there; the body
    that follows is left in the stream. *)
Theorem header_roundtrip (fuel n : nat) (h : header) (i : io D C)
    (nvs : list (list byte * list byte)) (body : list byte) :
  0 < fuel -> 0 < n -> Forall pair_ok nvs -> length nvs < HEADER_MAX_FIELD_COUNT ->
  header_ok h -> readable i -> instream i = send_lines (map field_line nvs) ++ body ->
  exists i', header_load fuel n h i =
      (i', mkHeader (h_fields h ++ map mk_field nvs) (nfields h + length nvs), Ok tt) /\
    readable i' /\ instream i' = body.
Proof. apply header_load_pairs. Qed.
End header_roundtrip.

(** ** Evaluation *)

Definition two_hosts : header :=
  mkHeader [mk_field (bs "Host", bs "a"); mk_field (bs "HOST", bs "b")] 2.

Lemma header_set_get_witness :
  exists h', header_set_field (L:=libu_ref) two_hosts (bs "host") (bs "c") = (h', Ok tt) /\ header_ok h' /\
    header_get_field_value h' (bs "host") = Ok (Some (bs "c")) /\
    (forall m, vals h' m = if strcaseeq (bs "host") m then bs "c" :: tail (vals two_hosts m)
                           else vals two_hosts m) /\
    nfields h' = nfields two_hosts + (if decide (vals two_hosts (bs "host") = []) then 1 else 0).
Proof. apply (header_set_get (L:=libu_ref)). split; [done|]. repeat constructor; by eexists. Defined.

Lemma header_process_line_merge_witness :
  match line_field (L:=libu_ref) (cstr (bs "Host: c")) with
  | Some (n, v) =>
      exists h', header_process_line (L:=libu_ref) two_hosts (bs "Host: c") HLM_KEEP = (h', Ok tt) /\
        header_ok h' /\
        forall m, vals h' m = if strcaseeq n m then merge HLM_KEEP (vals two_hosts m) v
                              else vals two_hosts m
  | None => header_process_line (L:=libu_ref) two_hosts (bs "Host: c") HLM_KEEP = (two_hosts, Fail)
  end.
Proof.
  apply (header_process_line_merge (L:=libu_ref)); [|done]. split; [done|].
  repeat constructor; by eexists.
Defined.

Lemma header_override_duplicates_witness :
  exists h', header_process_line (L:=libu_ref) two_hosts (bs "Host: c") HLM_OVERRIDE = (h', Ok tt) /\
    header_get_field_value h' (bs "Host") = Ok (Some (bs "b")).
Proof.
  apply (header_override_duplicates (L:=libu_ref) two_hosts (bs "Host") (bs "c") (bs "a") (bs "b") []);
    [|done|compute_decide|compute_decide].
  split; [done|]. repeat constructor; by eexists.
Defined.

Lemma header_cgienv_entry_witness :
  cgienv_entry (L:=libu_ref) header_create (bs "HTTP_" ++ bs "USER_AGENT" ++ "="%byte :: bs "x") =
  (header_set_field (L:=libu_ref) header_create
     (map (fun c => if decide (c = "_"%byte) then "-"%byte else c) (bs "USER_AGENT")) (bs "x")).1.
Proof.
  apply (header_cgienv_entry (L:=libu_ref) header_create (bs "USER_AGENT") (bs "x") []);
    [compute_decide|simpl; lia].
Defined.

Definition sample_lines : list (list byte) := [bs "Host: a"; bs "X-Long: 1"; bs " 2"].

Lemma header_load_lines_witness :
  exists i', header_load_ex (L:=libu_ref) 1 1 header_create
      (mem_io (send_lines sample_lines ++ bs "body")) HLM_ADD =
    (i', process_all (L:=libu_ref) HLM_ADD header_create (unfold_lines (L:=libu_ref) [] sample_lines), Ok tt) /\
    readable i' /\ instream i' = bs "body".
Proof.
  apply (header_load_lines (L:=libu_ref) 1 1 HLM_ADD header_create
           (mem_io (send_lines sample_lines ++ bs "body")) sample_lines (bs "body")).
  - lia.
  - lia.
  - repeat constructor; try discriminate; compute_decide.
  - by split.
  - apply mem_io_readable.
  - apply mem_io_readable.
Defined.

Lemma header_roundtrip_witness :
  exists i', header_load (L:=libu_ref) 1 1 two_hosts
      (mem_io (send_lines (map field_line [(bs "Accept", bs "x/y")]) ++ bs "body")) =
    (i', mkHeader (h_fields two_hosts ++ [mk_field (bs "Accept", bs "x/y")]) (2 + 1), Ok tt) /\
    readable i' /\ instream i' = bs "body".
Proof.
  apply (header_roundtrip (L:=libu_ref) 1 1 two_hosts _ [(bs "Accept", bs "x/y")] (bs "body")).
  - lia.
  - lia.
  - repeat constructor; try discriminate; compute_decide.
  - compute_decide.
  - split; [done|]. repeat constructor; by eexists.
  - apply mem_io_readable.
  - apply mem_io_readable.
Defined.

(** Folding and the override mode, evaluated. *)
Example load_folded :
  (header_load_ex (L:=libu_ref) 1 1 two_hosts
     (mem_io (send_lines [bs "Accept: a,"; bs "  b"; bs "Host: z"; bs "junk"] ++ bs "body")) HLM_OVERRIDE).1.2
  = mkHeader (map mk_field [(bs "HOST", bs "b"); (bs "Accept", bs "a,  b"); (bs "Host", bs "z")]) 3.
Proof. vm_compute. reflexivity. Qed.
