(* ===== verification/Vars.v ===== *)
(** Variables and lists of variables: src/src/libpage/var.c and src/src/libpage/vars.c.

    A list of variables holds pointers to variables; here a variable is its value and a
    pointer into a list is its position.  The variable's data is the buffer as allocated,
    with the NUL that [var_set_bin_value] puts after the [v_size] bytes. *)

From S2P Require Import Prelude Libu Encode.

Record var := mkVar {
  v_sname : list byte;
  v_svalue : option (list byte);   (* svalue, the u_string made on demand *)
  v_data : option (list byte);
  v_size : nat;
  v_opaque : option nat            (* an address the module never follows *)
}.

Record vars := mkVars {
  v_list : list var;
  v_foreign : bool                 (* flags & VARS_FLAG_FOREIGN *)
}.

#[global] Instance var_eq_dec : EqDecision var.
Proof. solve_decision. Defined.

(** [sizeof(var_t)]: seven words. *)
Definition VAR_SIZE : nat := 56.
Definition NAMESZ : nat := N.to_nat 256.
Definition VALSZ : nat := N.to_nat 4096.

Section vars_ops.
Context {L : Libu}.

(** ** var.c *)

(** On a failed allocation [data] is NULL but [size] has already been set. *)
Definition var_set_bin_value (v : var) (data : list byte) : var * res unit :=
  let set d n sv := mkVar (v_sname v) sv d n (v_opaque v) in
  let store d n :=
    match v_svalue v with
    | None => (set d n None, Ok tt)
    | Some sv => let '(sv', ok) := u_string_set sv (take n (default [] d)) in
                 (set d n (Some sv'), if ok : bool then Ok tt else Fail)
    end in
  if decide (0 < length data) then
    if u_alloc (S (length data)) then store (Some (data ++ [x00])) (length data)
    else (set None (length data) (v_svalue v), Fail)
  else store None 0.

Definition var_bin_create (name data : list byte) : res var :=
  if u_alloc VAR_SIZE then
    match u_string_create name with
    | None => Fail
    | Some sname =>
        let '(v, r) := var_set_bin_value (mkVar sname None None 0 None) data in
        (fun _ => v) <$> r
    end
  else Fail.

(** The value of [var_create] is copied with its terminating NUL. *)
Definition var_create (name value : list byte) : res var := var_bin_create name (value ++ [x00]).

Definition var_set_name (v : var) (name : list byte) : var * res unit :=
  let '(s, ok) := u_string_set (v_sname v) name in
  (mkVar s (v_svalue v) (v_data v) (v_size v) (v_opaque v), if ok : bool then Ok tt else Fail).

Definition var_set_value (v : var) (value : list byte) : var * res unit :=
  var_set_bin_value v (value ++ [x00]).

Definition var_set (v : var) (name value : list byte) : var * res unit :=
  let '(v1, r) := var_set_name v name in
  match r with Ok _ => var_set_value v1 value | _ => (v1, Fail) end.

Definition var_set_opaque (v : var) (o : option nat) : var :=
  mkVar (v_sname v) (v_svalue v) (v_data v) (v_size v) o.
Definition var_get_opaque (v : var) : option nat := v_opaque v.

(** [var_get_name] and [var_get_value] point to C strings, [None] for NULL. *)
Definition var_get_name_s (v : var) : list byte := v_sname v.
Definition var_get_name (v : var) : list byte := cstr (v_sname v).
Definition var_get_value (v : var) : option (list byte) := v_data v.
Definition var_get_value_size (v : var) : nat := v_size v.

Definition var_get_value_s (v : var) : var * option (list byte) :=
  match v_svalue v with
  | Some s => (v, Some s)
  | None =>
      let o := u_string_create (take (v_size v) (default [] (v_data v))) in
      (mkVar (v_sname v) o (v_data v) (v_size v) (v_opaque v), o)
  end.

(** ** vars.c *)

Definition vars_create : vars := mkVars [] false.
Definition vars_set_flags (vs : vars) (foreign : bool) : vars := mkVars (v_list vs) foreign.

Definition vars_add (vs : vars) (v : var) : vars * res unit :=
  match u_list_add (v_list vs) v with
  | Some l => (mkVars l (v_foreign vs), Ok tt)
  | None => (vs, Fail)
  end.

(** [vars_del] of the variable at a position of the list. *)
Definition vars_del (vs : vars) (k : nat) : vars := mkVars (delete k (v_list vs)) (v_foreign vs).

Definition vars_count (vs : vars) : nat := u_list_count (v_list vs).

Definition vars_getn (vs : vars) (i : nat) : option var :=
  if decide (u_list_count (v_list vs) <= i) then None else u_list_get_n (v_list vs) i.

(** The loop of [vars_countn]; the list ends at the first NULL. *)
Fixpoint countn_loop (fuel t : nat) (l : list var) (name : list byte) : res nat :=
  match fuel with
  | 0 => Timeout
  | S fuel' =>
      match u_list_get_n l t with
      | None => Ok 0
      | Some v => Nat.add (if strcaseeq (var_get_name v) name then 1 else 0)
                    <$> countn_loop fuel' (S t) l name
      end
  end.

Definition vars_countn (vs : vars) (name : list byte) : res nat :=
  countn_loop (S (length (v_list vs))) 0 (v_list vs) name.

(** The loop of [vars_geti]: the variable found and its position. *)
Fixpoint geti_loop (fuel t : nat) (l : list var) (name : list byte) (i : nat) : res (option (nat * var)) :=
  match fuel with
  | 0 => Timeout
  | S fuel' =>
      match u_list_get_n l t with
      | None => Ok None
      | Some v =>
          if strcaseeq (var_get_name v) name then
            match i with
            | 0 => Ok (Some (t, v))
            | S i' => geti_loop fuel' (S t) l name i'
            end
          else geti_loop fuel' (S t) l name i
      end
  end.

Definition vars_geti (vs : vars) (name : list byte) (i : nat) : res (option (nat * var)) :=
  geti_loop (S (length (v_list vs))) 0 (v_list vs) name i.
Definition vars_get (vs : vars) (name : list byte) : res (option (nat * var)) := vars_geti vs name 0.

Definition vars_geti_value (vs : vars) (name : list byte) (ith : nat) : res (option (list byte)) :=
  (fun o : option (nat * var) => o ≫= fun kv => var_get_value kv.2) <$> vars_geti vs name ith.
Definition vars_get_value (vs : vars) (name : list byte) : res (option (list byte)) :=
  vars_geti_value vs name 0.

Definition vars_geti_value_i (vs : vars) (name : list byte) (ith : nat) : res Z :=
  o ← vars_geti_value vs name ith;
  match o with None => Ok 0%Z | Some d => atoi (cstr d) end.
Definition vars_get_value_i (vs : vars) (name : list byte) : res Z := vars_geti_value_i vs name 0.

(** [vars_geti_value_s]: the list, where the string value of the variable may have been
    created, and the string. *)
Definition vars_geti_value_s (vs : vars) (name : list byte) (ith : nat)
    : vars * res (option (list byte)) :=
  match vars_geti vs name ith with
  | Ok None => (vs, Ok None)
  | Ok (Some (k, v)) =>
      let '(v', s) := var_get_value_s v in
      (mkVars (<[k := v']> (v_list vs)) (v_foreign vs), Ok s)
  | Fail => (vs, Fail)
  | Fault => (vs, Fault)
  | Timeout => (vs, Timeout)
  end.

(** [vars_foreach]: the callback threads a state and stops by answering [true]. *)
Fixpoint foreach_loop {S} (cb : var -> S -> S * bool) (l : list var) (s : S) : S :=
  match l with
  | [] => s
  | v :: l' => let '(s', stop) := cb v s in if stop : bool then s' else foreach_loop cb l' s'
  end.
Definition vars_foreach {S} (vs : vars) (cb : var -> S -> S * bool) (s : S) : S :=
  foreach_loop cb (v_list vs) s.

(** [vars_add_urlvar(vs, cstr, pv)].  [str] is the copy of the argument with a NUL in
    place of the first '='; both decodings run on its memory.  A return of 0 from the
    decoder counts as an error. *)
Definition vars_add_urlvar (vs : vars) (s : list byte) : vars * res var :=
  if u_alloc (S (length s)) then
    match strchr s "=" with
    | None => (vs, Fail)
    | Some k =>
        let val := drop (S k) s in
        let str := take k s ++ x00 :: val ++ [x00] in
        let val_len := length val in
        let nam_len := k in
        if (bool_decide (NAMESZ <= nam_len) && negb (u_alloc (S nam_len)))
           || (bool_decide (VALSZ <= val_len) && negb (u_alloc (S val_len))) then (vs, Fail) else
        match Url.u_urlncpy str nam_len COPY_DECODE with
        | Ok name =>
            if decide (name = []) then (vs, Fail) else
            let value :=
              if decide (0 < val_len)
              then Url.u_urlncpy (drop (S k) str) val_len COPY_DECODE
              else Ok [x00] in
            match value with
            | Ok value =>
                if decide (value = []) then (vs, Fail) else
                match var_bin_create (cstr name) value with
                | Ok v => let '(vs', r) := vars_add vs v in (vs', (fun _ => v) <$> r)
                | _ => (vs, Fail)
                end
            | Fail => (vs, Fail)
            | Fault => (vs, Fault)
            | Timeout => (vs, Timeout)
            end
        | Fail => (vs, Fail)
        | Fault => (vs, Fault)
        | Timeout => (vs, Timeout)
        end
    end
  else (vs, Fail).

Definition vars_add_strvar (vs : vars) (s : list byte) : vars * res unit :=
  if u_alloc (S (length s)) then
    match strchr s "=" with
    | None => (vs, Fail)
    | Some k =>
        match var_create (take k s) (drop (S k) s) with
        | Ok v => vars_add vs v
        | _ => (vs, Fail)
        end
    end
  else (vs, Fail).
End vars_ops.

(** ** Specification *)

(** The variables of a name, compared without case, in order. *)
Definition named (name : list byte) (l : list var) : list var :=
  List.filter (fun v => strcaseeq (var_get_name v) name) l.

(** A variable whose data holds its value and the NUL after it. *)
Definition var_ok (v : var) : Prop :=
  match v_data v with
  | Some d => length d = S (v_size v) /\ last d = Some x00 /\ 0 < v_size v
  | None => v_size v = 0
  end.

(** The value bytes of a variable. *)
Definition var_bytes (v : var) : list byte := take (v_size v) (default [] (v_data v)).

(** What a parsed variable looks like. *)
Definition fresh_var (name data : list byte) : var :=
  mkVar name None (Some (data ++ [x00])) (length data) None.

Lemma named_app (name : list byte) (l k : list var) : named name (l ++ k) = named name l ++ named name k.
Proof. apply List.filter_app. Qed.

Section vars_spec.
Context {L : Libu} {LS : LibuSpec L}.

Lemma countn_loop_eq (l : list var) (name : list byte) (fuel t : nat) :
  length l - t < fuel -> countn_loop fuel t l name = Ok (length (named name (drop t l))).
Proof.
  revert t. induction fuel as [|fuel IH]; intros t Hf; [lia|]. simpl.
  rewrite u_list_get_n_spec. destruct (l !! t) as [v|] eqn:E.
  - assert (t < length l) by (by eapply lookup_lt_Some). rewrite IH by lia.
    rewrite (drop_S l v t E). unfold named. simpl. by destruct (strcaseeq _ _).
  - apply lookup_ge_None in E. by rewrite drop_ge.
Qed.

Lemma geti_loop_eq (l : list var) (name : list byte) (fuel t i : nat) :
  length l - t < fuel ->
  exists o, geti_loop fuel t l name i = Ok o /\ snd <$> o = named name (drop t l) !! i /\
    forall k v, o = Some (k, v) -> l !! k = Some v.
Proof.
  revert t i. induction fuel as [|fuel IH]; intros t i Hf; [lia|]. simpl.
  rewrite u_list_get_n_spec. destruct (l !! t) as [v|] eqn:E.
  - assert (t < length l) by (by eapply lookup_lt_Some).
    rewrite (drop_S l v t E). unfold named. simpl. destruct (strcaseeq _ _); [|apply IH; lia].
    destruct i as [|i]; [|apply IH; lia]. eexists. split_and!; [done|done|]. naive_solver.
  - apply lookup_ge_None in E. rewrite drop_ge by done. exists None. by split_and!.
Qed.

Lemma vars_geti_eq (vs : vars) (name : list byte) (i : nat) :
  exists o, vars_geti vs name i = Ok o /\ snd <$> o = named name (v_list vs) !! i /\
    forall k v, o = Some (k, v) -> v_list vs !! k = Some v.
Proof. unfold vars_geti. apply (geti_loop_eq _ _ _ 0). lia. Qed.

Lemma vars_countn_eq (vs : vars) (name : list byte) :
  vars_countn vs name = Ok (length (named name (v_list vs))).
Proof. unfold vars_countn. by rewrite (countn_loop_eq _ _ _ 0) by lia. Qed.

Lemma vars_geti_value_eq (vs : vars) (name : list byte) (i : nat) :
  vars_geti_value vs name i = Ok (named name (v_list vs) !! i ≫= v_data).
Proof.
  unfold vars_geti_value. destruct (vars_geti_eq vs name i) as (o & -> & Ho & _).
  rewrite <- Ho. by destruct o as [[]|].
Qed.

Lemma var_set_bin_value_ok (v : var) (data : list byte) (v' : var) (r : unit) :
  var_set_bin_value v data = (v', Ok r) -> var_ok v' /\ var_bytes v' = data /\ v_sname v' = v_sname v.
Proof.
  unfold var_set_bin_value. case_decide as Hd.
  - destruct (u_alloc _); [|done].
    assert (length (data ++ [x00]) = S (length data) /\ last (data ++ [x00]) = Some x00) as [A B].
    { rewrite length_app, last_snoc. simpl. split; [lia|done]. }
    assert (take (length data) (data ++ [x00]) = data) as T by apply take_app_length.
    destruct (v_svalue v) as [sv|]; [destruct (u_string_set _ _) as [s []]|]; intros [= <- <-];
      unfold var_ok, var_bytes; simpl; auto.
  - destruct data; [|simpl in Hd; lia].
    destruct (v_svalue v) as [sv|]; [destruct (u_string_set _ _) as [s []]|]; intros [= <- <-];
      unfold var_ok, var_bytes; simpl; auto.
Qed.

Context {LM : LibuMem L}.

Lemma var_bin_create_eq (name data : list byte) :
  data <> [] -> var_bin_create name data = Ok (fresh_var name data).
Proof.
  intros Hd. unfold var_bin_create, var_set_bin_value. rewrite u_alloc_ok, u_string_create_eq.
  destruct data as [|b data]; [done|]. simpl. by rewrite u_alloc_ok.
Qed.

Lemma vars_add_eq (vs : vars) (v : var) :
  vars_add vs v = (mkVars (v_list vs ++ [v]) (v_foreign vs), Ok tt).
Proof. unfold vars_add. by rewrite u_list_add_eq. Qed.

(** The variable that "name=value" stands for, when both parts decode. *)
Definition urlvar (s : list byte) : option var :=
  k ← strchr s "=";
  name ← Url.url_unescape (take k s);
  value ← (if decide (drop (S k) s = []) then Some [x00] else Url.url_unescape (drop (S k) s));
  if decide (name = []) then None else Some (fresh_var (cstr name) value).

Lemma url_unescape_nil (s : list byte) : Url.url_unescape s = Some [] -> s = [].
Proof.
  destruct s as [|c s]; [done|]. simpl. case_decide.
  - destruct s as [|h [|l s]]; [done|done|]. destruct (_ && _); [|done].
    by destruct (Url.url_unescape s).
  - by destruct (Url.url_unescape s).
Qed.

Lemma vars_add_urlvar_eq (vs : vars) (s : list byte) :
  (Z.of_nat (length s) < SIZE_MOD)%Z ->
  vars_add_urlvar vs s =
  match urlvar s with
  | Some v => (mkVars (v_list vs ++ [v]) (v_foreign vs), Ok v)
  | None => (vs, Fail)
  end.
Proof.
  intros Hs. unfold vars_add_urlvar, urlvar. rewrite u_alloc_ok.
  destruct (strchr s "=") as [k|] eqn:Ek; [|done]. simpl.
  assert (k < length s) as Hk by (apply strchr_Some in Ek as [Ek _]; by eapply lookup_lt_Some).
  rewrite !u_alloc_ok, !andb_false_r. simpl.
  assert (length (take k s) = k) as Hlk by (rewrite length_take; lia).
  assert (Z.of_nat (length (drop (S k) s)) < SIZE_MOD)%Z as Hv by (rewrite length_drop; lia).
  assert (Z.of_nat (length (take k s)) < SIZE_MOD)%Z as Ht by (rewrite Hlk; lia).
  pose proof (Url.url_decode_cstring (take k s) (drop (S k) s ++ [x00]) Ht) as Hn.
  rewrite Hlk in Hn. rewrite Hn.
  assert (drop (S k) (take k s ++ x00 :: drop (S k) s ++ [x00]) = drop (S k) s ++ x00 :: []) as Hd.
  { rewrite drop_app, Hlk, drop_ge by lia. by replace (S k - k) with 1 by lia. }
  rewrite Hd, Url.url_decode_cstring by done.
  destruct (Url.url_unescape (take k s)) as [name|]; simpl; [|done].
  destruct (drop (S k) s) as [|b val] eqn:Ev.
  - rewrite (decide_False (P := 0 < length [])) by (simpl; lia). cbn [decide].
    rewrite (decide_True (P := @nil byte = [])) by done. simpl.
    case_decide; [done|]. by rewrite var_bin_create_eq, vars_add_eq.
  - rewrite (decide_True (P := 0 < length (b :: val))) by (simpl; lia).
    rewrite (decide_False (P := b :: val = [])) by done.
    destruct (Url.url_unescape (b :: val)) as [value|] eqn:Eu; cbn [of_option mbind option_bind]; [|by case_decide].
    case_decide; [done|]. assert (value <> []) as Hne.
    { intros ->. by apply url_unescape_nil in Eu. }
    rewrite decide_False by done. by rewrite var_bin_create_eq, vars_add_eq.
Qed.
End vars_spec.

Lemma url_encode_no_eq (s : list byte) : "="%byte ∉ flat_map Url.url_encode_char s.
Proof.
  assert (forall c, "="%byte ∉ Url.url_encode_char c) as H by byte_brute.
  induction s as [|c s IH]; simpl; [set_solver|]. specialize (H c). set_solver.
Qed.

Lemma url_encode_char_ne (c : byte) : Url.url_encode_char c <> [].
Proof. revert c. byte_brute. Qed.

(** "name=value", encoded. *)
Definition encode_pair (n v : list byte) : list byte :=
  flat_map Url.url_encode_char n ++ "="%byte :: flat_map Url.url_encode_char v.

(** The data of a decoded variable: one NUL stands for the empty value. *)
Definition var_data (v : list byte) : list byte := if decide (v = []) then [x00] else v.

Lemma urlvar_encode (n v : list byte) :
  n <> [] -> (x00 ∉ n) -> urlvar (encode_pair n v) = Some (fresh_var n (var_data v)).
Proof.
  intros Hn Hz. unfold urlvar, encode_pair. rewrite strchr_app by apply url_encode_no_eq. simpl.
  rewrite take_app_length, drop_middle, (Url.url_unescape_encode n). simpl.
  assert ((if decide (flat_map Url.url_encode_char v = []) then Some [x00]
           else Url.url_unescape (flat_map Url.url_encode_char v)) = Some (var_data v)) as ->.
  { unfold var_data. rewrite Url.url_unescape_encode. destruct v as [|b v]; [done|].
    rewrite decide_False; [done|]. simpl. intros E. apply app_eq_nil in E as [E _].
    revert E. apply url_encode_char_ne. }
  simpl. rewrite decide_False by done. by rewrite cstr_id.
Qed.

Section vars_claims.
Context {L : Libu} {LS : LibuSpec L} {LM : LibuMem L}.

(** Lookups by name go over the variables of that name, compared without case, in
    the order of their insertion: [vars_geti] returns the i-th one (a variable of the
    list), and NULL exactly from [vars_countn] on. *)
Theorem vars_lookup (vs : vars) (name : list byte) (i : nat) :
  vars_geti_value vs name i = Ok (named name (v_list vs) !! i ≫= v_data) /\
  (exists o, vars_geti vs name i = Ok o /\ snd <$> o = named name (v_list vs) !! i /\
     forall k v, o = Some (k, v) -> v_list vs !! k = Some v) /\
  vars_countn vs name = Ok (length (named name (v_list vs))) /\
  (forall k, vars_getn vs k = v_list vs !! k) /\ vars_count vs = length (v_list vs).
Proof.
  split_and!; [apply vars_geti_value_eq|apply vars_geti_eq|apply vars_countn_eq| |].
  - intros k. unfold vars_getn. rewrite u_list_count_spec, u_list_get_n_spec.
    case_decide; [|done]. symmetry. by apply lookup_ge_None.
  - apply u_list_count_spec.
Qed.

(** [vars_add_urlvar] adds the variable its argument stands for, and fails without
    changing the list exactly when there is no '=', a malformed escape or an empty
    name; the decodings stay inside the copied string, and the decoded parts are not
    longer than the encoded ones, for which the buffers were chosen. *)
Theorem vars_add_urlvar_spec (vs : vars) (s : list byte) :
  (Z.of_nat (length s) < SIZE_MOD)%Z ->
  vars_add_urlvar vs s =
    match urlvar s with
    | Some v => (mkVars (v_list vs ++ [v]) (v_foreign vs), Ok v)
    | None => (vs, Fail)
    end /\
  (forall v, urlvar s = Some v -> var_ok v /\ length (v_sname v) + length (var_bytes v) <= length s).
Proof.
  intros Hs. split; [by apply vars_add_urlvar_eq|]. intros v. unfold urlvar.
  destruct (strchr s "=") as [k|] eqn:Ek; [|done]. simpl.
  destruct (Url.url_unescape (take k s)) as [name|] eqn:En; [|done]. simpl.
  destruct (if decide (drop (S k) s = []) then _ else _) as [value|] eqn:Ev; [|done]. simpl.
  destruct (decide (name = [])) as [|Hn]; [done|]. intros [= <-]. unfold var_ok, var_bytes. simpl.
  rewrite take_app_length, length_app, last_snoc. simpl.
  assert (value <> [] /\ length value <= S (length (drop (S k) s)) /\
          (drop (S k) s <> [] -> length value <= length (drop (S k) s))) as (H1 & H2 & H3).
  { revert Ev. case_decide as Hd.
    - intros [= <-]. simpl. split_and!; [done|lia|naive_solver].
    - intros Ev. pose proof (Url.url_unescape_length _ _ Ev). split_and!; [|lia|lia].
      intros ->. by apply url_unescape_nil in Ev. }
  pose proof (Url.url_unescape_length _ _ En) as Hln. apply strchr_Some in Ek as [Ek _].
  apply lookup_lt_Some in Ek. rewrite length_take in Hln. rewrite length_drop in H2, H3.
  assert (length (cstr name) <= length name) by apply length_cstr.
  split; [split_and!; [lia|done|destruct value; [done|simpl; lia]]|].
  destruct (decide (drop (S k) s = [])) as [E|E]; [|specialize (H3 E); lia].
  apply (f_equal length) in E. rewrite length_drop in E. simpl in E. lia.
Qed.

(** A variable sent URL-encoded is found again under its name, after the variables
    of that name already there, with exactly the bytes of its value (a single NUL for
    the empty value); no other lookup changes. *)
Theorem vars_urlvar_roundtrip (vs : vars) (n v : list byte) :
  let s := encode_pair n v in
  let data := var_data v in
  n <> [] -> (x00 ∉ n) -> (Z.of_nat (length s) < SIZE_MOD)%Z ->
  exists vs', vars_add_urlvar vs s = (vs', Ok (fresh_var n data)) /\
    (forall m i, vars_geti_value vs' m i =
       if decide (strcaseeq n m = true /\ i = length (named m (v_list vs)))
       then Ok (Some (data ++ [x00])) else vars_geti_value vs m i).
Proof.
  intros s data Hn Hz Hs. exists (mkVars (v_list vs ++ [fresh_var n data]) (v_foreign vs)). split.
  - rewrite vars_add_urlvar_eq by done. unfold s. by rewrite urlvar_encode.
  - intros m i. rewrite !vars_geti_value_eq. simpl. rewrite named_app.
    unfold named at 2. simpl. unfold var_get_name. simpl. rewrite cstr_id by done.
    destruct (strcaseeq n m).
    + case_decide as Hi.
      * destruct Hi as [_ ->]. by rewrite lookup_app_r, Nat.sub_diag by lia.
      * destruct (decide (i < length (named m (v_list vs)))); [by rewrite lookup_app_l|].
        rewrite lookup_app_r by lia. rewrite !(proj2 (lookup_ge_None _ _)); [done|lia|].
        simpl. assert (i <> length (named m (v_list vs))) by naive_solver. lia.
    + rewrite app_nil_r. by rewrite decide_False by naive_solver.
Qed.
End vars_claims.

Lemma vars_lookup_witness :
  let vs := mkVars [fresh_var (bs "a") (bs "1"); fresh_var (bs "A") (bs "2")] false in
  vars_geti_value (L:=libu_ref) vs (bs "a") 1 = Ok (named (bs "a") (v_list vs) !! 1 ≫= v_data) /\
  (exists o, vars_geti (L:=libu_ref) vs (bs "a") 1 = Ok o /\ snd <$> o = named (bs "a") (v_list vs) !! 1 /\
     forall k v, o = Some (k, v) -> v_list vs !! k = Some v) /\
  vars_countn (L:=libu_ref) vs (bs "a") = Ok (length (named (bs "a") (v_list vs))) /\
  (forall k, vars_getn (L:=libu_ref) vs k = v_list vs !! k) /\
  vars_count (L:=libu_ref) vs = length (v_list vs).
Proof. apply (vars_lookup (L:=libu_ref)). Defined.

Lemma vars_add_urlvar_spec_witness :
  vars_add_urlvar (L:=libu_ref) vars_create (bs "q=a%20b") =
    match urlvar (bs "q=a%20b") with
    | Some v => (mkVars [v] false, Ok v)
    | None => (vars_create, Fail)
    end /\
  (forall v, urlvar (bs "q=a%20b") = Some v -> var_ok v /\ length (v_sname v) + length (var_bytes v) <= 7).
Proof. apply (vars_add_urlvar_spec (L:=libu_ref) vars_create (bs "q=a%20b")). vm_compute. reflexivity. Defined.

Lemma vars_urlvar_roundtrip_witness :
  exists vs', vars_add_urlvar (L:=libu_ref) vars_create
      (encode_pair (bs "k y") (bs "a=b"))
      = (vs', Ok (fresh_var (bs "k y") (bs "a=b"))) /\
    (forall m i, vars_geti_value (L:=libu_ref) vs' m i =
       if decide (strcaseeq (bs "k y") m = true /\ i = length (named m (v_list vars_create)))
       then Ok (Some (bs "a=b" ++ [x00])) else vars_geti_value (L:=libu_ref) vars_create m i).
Proof.
  apply (vars_urlvar_roundtrip (L:=libu_ref) vars_create (bs "k y") (bs "a=b")).
  - done.
  - compute_decide.
  - vm_compute. reflexivity.
Defined.
