(* ===== verification/Parser.v ===== *)
(** The page parser: src/src/libtrans/parser.c.

    It cuts a page into blocks of text and of code, "<%c ... %>", and passes them to two
    callbacks.  The state machine is [run_loop], generic in the source of characters:
    [parser_run] reads an [io]; the proofs also run it on a list.  A callback takes its
    argument's state and answers the new state and whether it failed; the code callback
    also gets what it reads from the parser, the line where the code starts.  The 256K
    buffer is the list of the characters stored in it. *)

From S2P Require Import Prelude Libu Io IoSpec IoMem.

Inductive parser_state :=
| S_START | S_IN_DOUBLE_QUOTE | S_IN_SINGLE_QUOTE | S_HTML | S_WAIT_PERC
| S_START_CODE | S_CODE | S_WAIT_GT | S_EAT_NEWLINE.

#[global] Instance parser_state_eq_dec : EqDecision parser_state.
Proof. solve_decision. Defined.

Record parser := mkParser {
  state : parser_state;
  prev_state : parser_state;
  cmd_code : byte;
  line : nat;
  code_line : nat
}.

Definition PARSER_BUFSZ : nat := N.to_nat 262144.

Lemma PARSER_BUFSZ_val : PARSER_BUFSZ = N.to_nat 262144.
Proof. done. Qed.

#[global] Opaque PARSER_BUFSZ.

Definition set_state (p : parser) (s : parser_state) : parser :=
  mkParser s (state p) (cmd_code p) (line p) (code_line p).
Definition set_cmd (p : parser) (c : byte) : parser :=
  mkParser (state p) (prev_state p) c (line p) (code_line p).

(** [parser_reset], and [parser_create] of zeroed memory *)
Definition parser_reset (p : parser) : parser := mkParser S_START S_START x00 1 (code_line p).
Definition parser_create : parser := parser_reset (mkParser S_START S_START x00 0 0).

(** The line count of [fetch_next_char]: CR LF and LF CR count once. *)
Definition next_line (ln : nat) (prev c : byte) : nat :=
  if decide (c = x0d /\ prev <> x0a \/ c = x0a /\ prev <> x0d) then S ln else ln.

Section parser_ops.
Context {A : Type}.
Variable cb_html : option (A -> list byte -> A * bool).
Variable cb_code : option (A -> nat -> byte -> list byte -> A * bool).

(** [parser_on_block].  The quote states look at the previous state once; the state
    [S_EAT_NEWLINE] has no case and would loop. *)
Definition on_block_text (a : A) (buf : list byte) : A * res unit :=
  match buf, cb_html with
  | [], _ | _, None => (a, Ok tt)
  | _, Some cb => let '(a', failed) := cb a buf in (a', if failed : bool then Fail else Ok tt)
  end.

Definition on_block_code (p : parser) (a : A) (buf : list byte) : A * res unit :=
  match buf, cb_code with
  | [], _ | _, None => (a, Ok tt)
  | _, Some cb => let '(a', failed) := cb a (code_line p) (cmd_code p) buf in
                  (a', if failed : bool then Fail else Ok tt)
  end.

Fixpoint on_block_loop (n : nat) (p : parser) (a : A) (buf : list byte) : parser * A * res unit :=
  match n with
  | 0 => (p, a, Timeout)
  | S n' =>
      match state p with
      | S_START => (p, a, Ok tt)
      | S_IN_DOUBLE_QUOTE | S_IN_SINGLE_QUOTE =>
          if decide (state p <> prev_state p) then
            on_block_loop n' (mkParser (prev_state p) (prev_state p) (cmd_code p) (line p) (code_line p)) a buf
          else (p, a, Ok tt)
      | S_HTML | S_WAIT_PERC => let '(a', r) := on_block_text a buf in (p, a', r)
      | S_START_CODE | S_CODE | S_WAIT_GT => let '(a', r) := on_block_code p a buf in (p, a', r)
      | S_EAT_NEWLINE => on_block_loop n' p a buf
      end
  end.

(** Two looks at the state are enough ([on_block_total]). *)
Definition parser_on_block (p : parser) (a : A) (buf : list byte) : parser * A * res unit :=
  on_block_loop 2 p a buf.

Lemma on_block_total (p : parser) (a : A) (buf : list byte) :
  state p <> S_EAT_NEWLINE -> prev_state p <> S_EAT_NEWLINE ->
  (parser_on_block p a buf).2 <> Timeout.
Proof.
  intros Hs Hp. unfold parser_on_block, on_block_text, on_block_code. cbn [on_block_loop].
  unfold on_block_text, on_block_code.
  destruct (state p) eqn:Es, (prev_state p) eqn:Ep; repeat (case_match; simplify_eq/=); done.
Qed.

(** ** The loop *)

Context {I : Type}.
Variable getc : I -> I * res (option byte).

(** [fetch_next_char]; at end of file the parser keeps the old character. *)
Definition fetch_next_char (i : I) (p : parser) (c : byte) : I * parser * res (option byte) :=
  let '(i', r) := getc i in
  match r with
  | Ok (Some c') =>
      (i', mkParser (state p) (prev_state p) (cmd_code p) (next_line (line p) c c') (code_line p),
       Ok (Some c'))
  | r => (i', p, r)
  end.

(** [oc] is the character in [c] when [rc > 0], [None] at end of file; [n] bounds the
    iterations. *)
Fixpoint run_loop (n : nat) (i : I) (p : parser) (a : A) (buf : list byte) (oc : option byte)
    : I * parser * A * res unit :=
  let next n' i p a buf c :=
    let '(i', p', r) := fetch_next_char i p c in
    match r with
    | Ok oc' => run_loop n' i' p' a buf oc'
    | Fail => (i', p', a, Fail)
    | Fault => (i', p', a, Fault)
    | Timeout => (i', p', a, Timeout)
    end in
  match oc with
  | None =>
      match buf with
      | [] => (i, p, a, Ok tt)
      | _ => let '(p', a', r) := parser_on_block p a buf in (i, p', a', r)
      end
  | Some c =>
      match n with
      | 0 => (i, p, a, Timeout)
      | S n' =>
          (* buf[idx++] = c, and so on to the end of the loop body *)
          let push p :=
            let buf' := buf ++ [c] in
            if decide (length buf' = PARSER_BUFSZ - 1) then
              let '(p', a', r) := parser_on_block p a buf' in
              match r with
              | Ok _ => next n' i p' a' [] c
              | e => (i, p', a', e)
              end
            else next n' i p a buf' c in
          (* the end of a tag: drop its first character, hand over what comes before *)
          let cut (k : parser -> A -> list byte -> I * parser * A * res unit) :=
            match buf with
            | [] => k p a []
            | _ =>
                let buf' := take (length buf - 1) buf in
                match buf' with
                | [] => k p a []
                | _ =>
                    let '(p', a', r) := parser_on_block p a buf' in
                    match r with
                    | Ok _ => k p' a' []
                    | e => (i, p', a', e)
                    end
                end
            end in
          let prev := c in
          match state p with
          | S_START => run_loop n' i (set_state p S_HTML) a buf (Some c)
          | S_IN_DOUBLE_QUOTE =>
              push (if decide (c = x22 /\ prev <> x5c) then set_state p (prev_state p) else p)
          | S_IN_SINGLE_QUOTE =>
              push (if decide (c = x27 /\ prev <> x5c) then set_state p (prev_state p) else p)
          | S_HTML => push (if decide (c = "<"%byte) then set_state p S_WAIT_PERC else p)
          | S_WAIT_PERC =>
              if decide (c = "%"%byte) then
                cut (fun p a buf =>
                  let p1 := set_state p S_START_CODE in
                  next n' i (mkParser (state p1) (prev_state p1) (cmd_code p1) (line p1) (line p1))
                       a buf c)
              else run_loop n' i (set_state p S_HTML) a buf (Some c)
          | S_START_CODE =>
              if isspace c then run_loop n' i (set_state (set_cmd p x00) S_CODE) a buf (Some c)
              else
                let '(i', p', r) := fetch_next_char i (set_cmd p c) c in
                match r with
                | Ok oc' => run_loop n' i' (set_state p' S_CODE) a buf oc'
                | Fail => (i', p', a, Fail)
                | Fault => (i', p', a, Fault)
                | Timeout => (i', p', a, Timeout)
                end
          | S_CODE => push (if decide (c = "%"%byte) then set_state p S_WAIT_GT else p)
          | S_WAIT_GT =>
              if decide (c = ">"%byte) then
                cut (fun p a buf =>
                  let '(i', p', r) := fetch_next_char i p c in
                  match r with
                  | Ok oc' => run_loop n' i' (set_state (set_cmd p' x00) S_HTML) a buf oc'
                  | Fail => (i', p', a, Fail)
                  | Fault => (i', p', a, Fault)
                  | Timeout => (i', p', a, Timeout)
                  end)
              else run_loop n' i (set_state p S_CODE) a buf (Some c)
          | S_EAT_NEWLINE =>
              if decide (c = x0d \/ c = x0a) then next n' i p a buf c
              else run_loop n' i (set_state p S_HTML) a buf (Some c)
          end
      end
  end.

Definition run_parser (n : nat) (i : I) (p : parser) (a : A) : I * parser * A * res unit :=
  if decide (1 < line p) then (i, p, a, Fail) else
  let '(i', p', r) := fetch_next_char i p x00 in
  match r with
  | Ok oc => run_loop n i' p' a [] oc
  | Fail => (i', p', a, Fail)
  | Fault => (i', p', a, Fault)
  | Timeout => (i', p', a, Timeout)
  end.
End parser_ops.

(** [parser_run] on an input stream. *)
Definition parser_run {L : Libu} {D C : Type} {DO : DevOps D} {CO : CodecOps C} {A : Type}
    cb_html cb_code (fuel n : nat) (i : io D C) (p : parser) (a : A)
    : io D C * parser * A * res unit :=
  run_parser cb_html cb_code (io_getc fuel) n i p a.

(** ** Specification: the blocks of a page *)

Inductive block :=
| Html (t : list byte)
| Code (ln : nat) (cmd : byte) (t : list byte).

(** The text before the first "xy", and what follows it. *)
Fixpoint split2 (x y : byte) (s : list byte) : list byte * option (list byte) :=
  match s with
  | [] => ([], None)
  | c :: s' =>
      let '(t, o) := split2 x y s' in
      match s' with
      | d :: s'' => if decide (c = x /\ d = y) then ([], Some s'') else (c :: t, o)
      | [] => ([c], None)
      end
  end.

(** The line number after more characters; [prev] is the character before them. *)
Fixpoint lines (ln : nat) (prev : byte) (s : list byte) : nat :=
  match s with
  | [] => ln
  | c :: s' => lines (next_line ln prev c) c s'
  end.

(** An empty text makes no block. *)
Definition nonempty (mk : list byte -> block) (t : list byte) : list block :=
  match t with [] => [] | _ => [mk t] end.

(** The blocks of [s], in text or in code (just after "<%") from line [ln] on; the
    recursion follows the tags, [length s] of them at most. *)
Fixpoint blocks (fuel : nat) (in_code : bool) (ln : nat) (prev : byte) (s : list byte) : list block :=
  match fuel with
  | 0 => []
  | S fuel' =>
      if in_code then
        match s with
        | [] => []
        | x :: s' =>
            let sp := isspace x in
            let cmd := if sp then x00 else x in
            let body := if sp then s else s' in
            let ln1 := if sp then ln else next_line ln prev x in
            let prev1 := if sp then prev else x in
            let '(t, o) := split2 "%" ">" body in
            nonempty (Code ln cmd) t ++
            match o with
            | None => []
            | Some r => blocks fuel' false (lines ln1 prev1 (t ++ bs "%>")) ">" r
            end
        end
      else
        let '(t, o) := split2 "<" "%" s in
        nonempty Html t ++
        match o with
        | None => []
        | Some r => blocks fuel' true (lines ln prev (t ++ bs "<%")) "%" r
        end
  end.

Definition page_blocks (s : list byte) : list block := blocks (S (length s)) false 1 x00 s.

Definition block_text (b : block) : list byte := match b with Html t | Code _ _ t => t end.

(** Handing blocks to the callbacks, until one fails. *)
Section feed.
Context {A : Type}.
Variable cb_html : option (A -> list byte -> A * bool).
Variable cb_code : option (A -> nat -> byte -> list byte -> A * bool).

Definition feed1 (a : A) (b : block) : A * res unit :=
  match b, cb_html, cb_code with
  | Html t, Some cb, _ => let '(a', f) := cb a t in (a', if f : bool then Fail else Ok tt)
  | Code ln cmd t, _, Some cb => let '(a', f) := cb a ln cmd t in (a', if f : bool then Fail else Ok tt)
  | _, _, _ => (a, Ok tt)
  end.

Fixpoint feed (a : A) (bl : list block) : A * res unit :=
  match bl with
  | [] => (a, Ok tt)
  | b :: bl' => match feed1 a b with (a', Ok _) => feed a' bl' | x => x end
  end.

Lemma feed_app (a : A) (bl bl' : list block) :
  feed a (bl ++ bl') = match feed a bl with (a', Ok _) => feed a' bl' | x => x end.
Proof.
  revert a. induction bl as [|b bl IH]; intros a; simpl; [done|].
  destruct (feed1 a b) as [a' []]; done.
Qed.

Lemma feed_html (a : A) (t : list byte) : feed a (nonempty Html t) = on_block_text cb_html a t.
Proof.
  unfold on_block_text. destruct t as [|c t]; simpl; [by destruct cb_html|].
  destruct cb_html as [cb|]; [|done]. by destruct (cb a (c :: t)) as [a' []].
Qed.

Lemma feed_code (p : parser) (a : A) (t : list byte) :
  feed a (nonempty (Code (code_line p) (cmd_code p)) t) = on_block_code cb_code p a t.
Proof.
  unfold on_block_code. destruct t as [|c t]; simpl; [by destruct cb_code|].
  destruct cb_html, cb_code as [cb|]; try done; by destruct (cb a _ _ (c :: t)) as [a' []].
Qed.
End feed.

(** ** The loop on a list of characters *)

Definition lget (s : list byte) : list byte * res (option byte) :=
  match s with [] => ([], Ok None) | c :: s' => (s', Ok (Some c)) end.

Definition cur_line (ln : nat) (prev : byte) (s : list byte) : nat :=
  match s with c :: _ => next_line ln prev c | [] => ln end.

Lemma split2_cons (x y c : byte) (s : list byte) :
  split2 x y (c :: s) =
  match s with
  | d :: s'' => if decide (c = x /\ d = y) then ([], Some s'')
                else let '(t, o) := split2 x y s in (c :: t, o)
  | [] => ([c], None)
  end.
Proof. destruct s as [|d s]; [done|]. cbn [split2]. by repeat case_match; simplify_eq. Qed.

Lemma split2_skip (x y c : byte) (s : list byte) :
  c <> x -> split2 x y (c :: s) = let '(t, o) := split2 x y s in (c :: t, o).
Proof. intros H. rewrite split2_cons. destruct s; [done|]. rewrite decide_False; naive_solver. Qed.

Lemma split2_length (x y : byte) (s t r : list byte) :
  split2 x y s = (t, Some r) -> length s = length t + 2 + length r.
Proof.
  revert t r. induction s as [|c s IH]; intros t r; [done|]. rewrite split2_cons.
  destruct s as [|d s]; [done|]. case_decide.
  - intros [= <- <-]. simpl. lia.
  - destruct (split2 x y (d :: s)) as [t' o'] eqn:E. intros [= <- ->].
    specialize (IH t' r eq_refl). simpl in *. lia.
Qed.

Section on_list.
Context {A : Type}.
Variable cb_html : option (A -> list byte -> A * bool).
Variable cb_code : option (A -> nat -> byte -> list byte -> A * bool).

Definition outcome {X Y : Type} (x : X * Y * A * res unit) : A * res unit := (x.1.2, x.2).

(** The head of the loop with [s] ahead, its first character already fetched. *)
Definition at_ (n : nat) (s : list byte) (p : parser) (a : A) (buf : list byte) :=
  outcome (match s with
           | c :: s' => run_loop cb_html cb_code lget n s' p a buf (Some c)
           | [] => run_loop cb_html cb_code lget n [] p a buf None
           end).

Definition bump (p : parser) (prev : byte) (s : list byte) : parser :=
  mkParser (state p) (prev_state p) (cmd_code p) (cur_line (line p) prev s) (code_line p).

Definition keeps (p p' : parser) : Prop :=
  cmd_code p' = cmd_code p /\ code_line p' = code_line p.

Lemma fetch_list (s : list byte) (p : parser) (c : byte) :
  fetch_next_char lget s p c = (tail s, bump p c s, Ok (head s)).
Proof. destruct s as [|d s]; [|done]. unfold fetch_next_char, bump. simpl. by destruct p. Qed.

Lemma on_block_text_nil (a : A) : on_block_text cb_html a [] = (a, Ok tt).
Proof. done. Qed.

Lemma on_block_code_nil (p : parser) (a : A) : on_block_code cb_code p a [] = (a, Ok tt).
Proof. done. Qed.

Lemma at_fetched (n : nat) (s : list byte) (p : parser) (a : A) (buf : list byte) :
  outcome (run_loop cb_html cb_code lget n (tail s) p a buf (head s)) = at_ n s p a buf.
Proof. by destruct s. Qed.

Lemma at_nil (n : nat) (p : parser) (a : A) (buf : list byte) :
  at_ n [] p a buf =
  match state p with
  | S_HTML | S_WAIT_PERC => on_block_text cb_html a buf
  | S_START_CODE | S_CODE | S_WAIT_GT => on_block_code cb_code p a buf
  | _ => at_ n [] p a buf
  end.
Proof.
  unfold at_. destruct n, buf as [|b buf]; simpl; destruct (state p) eqn:E; try done;
    unfold parser_on_block; simpl; rewrite ?E; unfold on_block_text, on_block_code;
    repeat case_match; simplify_eq/=; done.
Qed.

(** A character that is stored. *)
Lemma at_push (n : nat) (c : byte) (s : list byte) (p p' : parser) (a : A) (buf : list byte) :
  (state p = S_HTML /\ p' = if decide (c = "<"%byte) then set_state p S_WAIT_PERC else p) \/
  (state p = S_CODE /\ p' = if decide (c = "%"%byte) then set_state p S_WAIT_GT else p) ->
  S (length buf) < PARSER_BUFSZ - 1 ->
  at_ (S n) (c :: s) p a buf = at_ n s (bump p' c s) a (buf ++ [c]).
Proof.
  intros Hp Hb. unfold at_ at 1. cbn [run_loop].
  assert (length (buf ++ [c]) <> PARSER_BUFSZ - 1) as Hl by (rewrite length_app; simpl; lia).
  destruct Hp as [[-> ->]|[-> ->]]; rewrite (decide_False (P := length _ = _)) by done;
    rewrite fetch_list, <- at_fetched; done.
Qed.

(** A character that does not end the tag is looked at again. *)
Lemma at_back (n : nat) (c : byte) (s : list byte) (p p' : parser) (a : A) (buf : list byte) :
  (state p = S_WAIT_PERC /\ c <> "%"%byte /\ p' = set_state p S_HTML) \/
  (state p = S_WAIT_GT /\ c <> ">"%byte /\ p' = set_state p S_CODE) ->
  at_ (S n) (c :: s) p a buf = at_ n (c :: s) p' a buf.
Proof.
  intros Hp. unfold at_. cbn [run_loop].
  by destruct Hp as [(-> & H & ->)|(-> & H & ->)]; rewrite (decide_False (P := c = _)).
Qed.

(** The second character of a tag: what was stored before the first is handed over. *)
Lemma at_open (n : nat) (s : list byte) (p : parser) (a : A) (buf : list byte) :
  state p = S_WAIT_PERC ->
  at_ (S n) ("%"%byte :: s) p a (buf ++ ["<"%byte]) =
  match on_block_text cb_html a buf with
  | (a', Ok _) => at_ n s (bump (mkParser S_START_CODE S_WAIT_PERC (cmd_code p) (line p) (line p)) "%" s) a' []
  | x => x
  end.
Proof.
  intros Hp. unfold at_ at 1. cbn [run_loop]. rewrite Hp.
  rewrite (decide_True (P := "%"%byte = "%"%byte)) by done.
  rewrite length_app. simpl (length ["<"%byte]). rewrite Nat.add_sub, take_app_length.
  destruct (buf ++ ["<"%byte]) as [|b0 l0] eqn:E; [by destruct buf|]. clear E b0 l0.
  destruct buf as [|b buf].
  - rewrite fetch_list, on_block_text_nil, <- at_fetched. simpl. by rewrite Hp.
  - unfold parser_on_block. cbn [on_block_loop]. rewrite Hp.
    destruct (on_block_text cb_html a (b :: buf)) as [a' []]; try done.
    rewrite fetch_list, <- at_fetched. simpl. by rewrite Hp.
Qed.

Lemma at_close (n : nat) (s : list byte) (p : parser) (a : A) (buf : list byte) :
  state p = S_WAIT_GT ->
  at_ (S n) (">"%byte :: s) p a (buf ++ ["%"%byte]) =
  match on_block_code cb_code p a buf with
  | (a', Ok _) => at_ n s (bump (mkParser S_HTML S_WAIT_GT x00 (line p) (code_line p)) ">" s) a' []
  | x => x
  end.
Proof.
  intros Hp. unfold at_ at 1. cbn [run_loop]. rewrite Hp.
  rewrite (decide_True (P := ">"%byte = ">"%byte)) by done.
  rewrite length_app. simpl (length ["%"%byte]). rewrite Nat.add_sub, take_app_length.
  destruct (buf ++ ["%"%byte]) as [|b0 l0] eqn:E; [by destruct buf|]. clear E b0 l0.
  destruct buf as [|b buf].
  - rewrite fetch_list, on_block_code_nil, <- at_fetched.
    unfold set_state, set_cmd, bump. simpl. by rewrite Hp.
  - unfold parser_on_block. cbn [on_block_loop]. rewrite Hp.
    destruct (on_block_code cb_code p a (b :: buf)) as [a' []]; try done.
    rewrite fetch_list, <- at_fetched. unfold set_state, set_cmd, bump. simpl. by rewrite Hp.
Qed.


(** From the head of the loop to the end of the text: the text is handed over, and the
    loop goes on after the tag. *)
Definition to_code (x : A * res unit) (a : A) (ln : nat) (prev : byte) (text t : list byte)
    (o : option (list byte)) : Prop :=
  match o with
  | None => x = on_block_text cb_html a text
  | Some r => exists n' p', 3 * length r + 4 <= n' /\ state p' = S_START_CODE /\
      line p' = cur_line (lines ln prev (t ++ bs "<%")) "%" r /\
      code_line p' = lines ln prev (t ++ bs "<%") /\
      x = match on_block_text cb_html a text with (a', Ok _) => at_ n' r p' a' [] | y => y end
  end.

Lemma scan_html (s : list byte) :
  (forall n p a buf ln prev t o, 3 * length s + 3 <= n -> state p = S_HTML ->
     line p = cur_line ln prev s -> split2 "<" "%" s = (t, o) ->
     S (length (buf ++ t)) < PARSER_BUFSZ - 1 ->
     to_code (at_ n s p a buf) a ln prev (buf ++ t) t o) /\
  (forall n p a b ln prev t o, 3 * length s + 4 <= n -> state p = S_WAIT_PERC ->
     line p = cur_line (next_line ln prev "<") "<" s -> split2 "<" "%" ("<"%byte :: s) = (t, o) ->
     S (length (b ++ t)) < PARSER_BUFSZ - 1 ->
     to_code (at_ n s p a (b ++ ["<"%byte])) a ln prev (b ++ t) t o).
Proof.
  induction s as [|c s [IHh IHw]].
  { split; intros n p a b ln prev t o Hn Hp Hl [= <- <-] Hb; unfold to_code.
    - by rewrite at_nil, Hp, app_nil_r.
    - by rewrite at_nil, Hp. }
  assert (forall n p a buf ln prev t o, 3 * length (c :: s) + 3 <= n -> state p = S_HTML ->
     line p = cur_line ln prev (c :: s) -> split2 "<" "%" (c :: s) = (t, o) ->
     S (length (buf ++ t)) < PARSER_BUFSZ - 1 ->
     to_code (at_ n (c :: s) p a buf) a ln prev (buf ++ t) t o) as Hh.
  { intros [|n] p a buf ln prev t o Hn Hp Hl Ht Hb; [lia|]. simpl in Hn.
    rewrite length_app in Hb. erewrite at_push; [|left; by split|lia].
    destruct (decide (c = "<"%byte)) as [->|Hc].
    - apply IHw; [lia|done|simpl; by rewrite Hl|done|by rewrite length_app].
    - rewrite split2_skip in Ht by done. destruct (split2 "<" "%" s) as [t' o'] eqn:E.
      injection Ht as <- <-. simpl in Hb.
      pose proof (IHh n (bump p c s) a (buf ++ [c]) (next_line ln prev c) c t' o') as H. rewrite <- app_assoc in H.
      simpl in H. simpl in Hl. rewrite Hl in H. apply H; try done; [lia|].
      rewrite length_app. simpl. lia. }
  split; [done|]. intros [|n] p a b ln prev t o Hn Hp Hl Ht Hb; [lia|]. simpl in Hn.
  destruct (decide (c = "%"%byte)) as [->|Hc].
  - rewrite split2_cons, decide_True in Ht by done. injection Ht as <- <-.
    rewrite at_open by done. rewrite app_nil_r. unfold to_code.
    eexists n, _. split_and!; [| | | |done]; simpl; [lia|done|by rewrite Hl|by rewrite Hl].
  - rewrite split2_cons, decide_False in Ht by naive_solver.
    destruct (split2 "<" "%" (c :: s)) as [t' o'] eqn:E. injection Ht as <- <-.
    erewrite at_back by (left; by split_and!).
    pose proof (Hh n (set_state p S_HTML) a (b ++ ["<"%byte]) (next_line ln prev "<") "<"%byte t' o') as H.
    rewrite <- app_assoc in H. simpl in H. unfold to_code in *. apply H; try done. simpl. lia.
Qed.

Definition to_html (x : A * res unit) (p : parser) (a : A) (ln : nat) (prev : byte)
    (text t : list byte) (o : option (list byte)) : Prop :=
  match o with
  | None => x = on_block_code cb_code p a text
  | Some r => exists n' p', 3 * length r + 3 <= n' /\ state p' = S_HTML /\
      line p' = cur_line (lines ln prev (t ++ bs "%>")) ">" r /\
      x = match on_block_code cb_code p a text with (a', Ok _) => at_ n' r p' a' [] | y => y end
  end.

Lemma on_block_code_keeps (p p' : parser) (a : A) (t : list byte) :
  keeps p p' -> on_block_code cb_code p' a t = on_block_code cb_code p a t.
Proof. intros [H1 H2]. unfold on_block_code. by rewrite H1, H2. Qed.

Lemma scan_code (q : parser) (s : list byte) :
  (forall n p a buf ln prev t o, 3 * length s + 3 <= n -> state p = S_CODE -> keeps q p ->
     line p = cur_line ln prev s -> split2 "%" ">" s = (t, o) ->
     S (length (buf ++ t)) < PARSER_BUFSZ - 1 ->
     to_html (at_ n s p a buf) q a ln prev (buf ++ t) t o) /\
  (forall n p a b ln prev t o, 3 * length s + 4 <= n -> state p = S_WAIT_GT -> keeps q p ->
     line p = cur_line (next_line ln prev "%") "%" s -> split2 "%" ">" ("%"%byte :: s) = (t, o) ->
     S (length (b ++ t)) < PARSER_BUFSZ - 1 ->
     to_html (at_ n s p a (b ++ ["%"%byte])) q a ln prev (b ++ t) t o).
Proof.
  induction s as [|c s [IHh IHw]].
  { split; intros n p a b ln prev t o Hn Hp Hk Hl [= <- <-] Hb; unfold to_html.
    - by rewrite at_nil, Hp, app_nil_r, (on_block_code_keeps q p).
    - by rewrite at_nil, Hp, (on_block_code_keeps q p). }
  assert (forall n p a buf ln prev t o, 3 * length (c :: s) + 3 <= n -> state p = S_CODE -> keeps q p ->
     line p = cur_line ln prev (c :: s) -> split2 "%" ">" (c :: s) = (t, o) ->
     S (length (buf ++ t)) < PARSER_BUFSZ - 1 ->
     to_html (at_ n (c :: s) p a buf) q a ln prev (buf ++ t) t o) as Hh.
  { intros [|n] p a buf ln prev t o Hn Hp Hk Hl Ht Hb; [lia|]. simpl in Hn.
    rewrite length_app in Hb. erewrite at_push; [|right; by split|lia].
    destruct (decide (c = "%"%byte)) as [->|Hc].
    - apply IHw; [lia|done|done|simpl; by rewrite Hl|done|by rewrite length_app].
    - rewrite split2_skip in Ht by done. destruct (split2 "%" ">" s) as [t' o'] eqn:E.
      injection Ht as <- <-. simpl in Hb.
      pose proof (IHh n (bump p c s) a (buf ++ [c]) (next_line ln prev c) c t' o') as H. rewrite <- app_assoc in H.
      simpl in H. simpl in Hl. rewrite Hl in H. apply H; try done; [lia|].
      rewrite length_app. simpl. lia. }
  split; [done|]. intros [|n] p a b ln prev t o Hn Hp Hk Hl Ht Hb; [lia|]. simpl in Hn.
  destruct (decide (c = ">"%byte)) as [->|Hc].
  - rewrite split2_cons, decide_True in Ht by done. injection Ht as <- <-.
    rewrite at_close by done. rewrite app_nil_r, (on_block_code_keeps q p) by done. unfold to_html.
    eexists n, _. split_and!; [| | |done]; simpl; [lia|done|by rewrite Hl].
  - rewrite split2_cons, decide_False in Ht by naive_solver.
    destruct (split2 "%" ">" (c :: s)) as [t' o'] eqn:E. injection Ht as <- <-.
    erewrite at_back by (right; by split_and!).
    pose proof (Hh n (set_state p S_CODE) a (b ++ ["%"%byte]) (next_line ln prev "%") "%"%byte t' o') as H.
    rewrite <- app_assoc in H. simpl in H. unfold to_html in *. apply H; try done. simpl. lia.
Qed.

Definition small (b : block) : Prop := S (length (block_text b)) < PARSER_BUFSZ - 1.

Lemma small_nonempty (mk : list byte -> block) (t : list byte) :
  (forall t, block_text (mk t) = t) -> 2 < PARSER_BUFSZ -> Forall small (nonempty mk t) ->
  S (length t) < PARSER_BUFSZ - 1.
Proof.
  intros Hm Hb. destruct t as [|c t]; simpl; [lia|]. intros [H _]%Forall_cons.
  unfold small in H. rewrite Hm in H. simpl in H. lia.
Qed.

Lemma at_start_code (n : nat) (x : byte) (s : list byte) (p : parser) (a : A) :
  state p = S_START_CODE ->
  at_ (S n) (x :: s) p a [] =
  if isspace x then at_ n (x :: s) (set_state (set_cmd p x00) S_CODE) a []
  else at_ n s (set_state (bump (set_cmd p x) x s) S_CODE) a [].
Proof.
  intros Hp. unfold at_ at 1. cbn [run_loop]. rewrite Hp. destruct (isspace x); [done|].
  rewrite fetch_list, <- at_fetched. done.
Qed.

(** The character that fills the buffer. *)
Lemma at_push_full (n : nat) (s : list byte) (p : parser) (a : A) (buf : list byte) :
  state p = S_HTML -> S (length buf) = PARSER_BUFSZ - 1 ->
  at_ (S n) ("<"%byte :: s) p a buf =
  match on_block_text cb_html a (buf ++ ["<"%byte]) with
  | (a', Ok _) => at_ n s (bump (set_state p S_WAIT_PERC) "<" s) a' []
  | x => x
  end.
Proof.
  intros Hp Hb. unfold at_ at 1. cbn [run_loop]. rewrite Hp.
  rewrite (decide_True (P := length _ = _)) by (rewrite length_app; simpl; lia).
  rewrite (decide_True (P := "<"%byte = _)) by done.
  unfold parser_on_block. cbn [on_block_loop set_state state].
  destruct (on_block_text cb_html a (buf ++ ["<"%byte])) as [a' []]; try done.
  by rewrite fetch_list, <- at_fetched.
Qed.

Lemma at_open_empty (n : nat) (s : list byte) (p : parser) (a : A) :
  state p = S_WAIT_PERC ->
  at_ (S n) ("%"%byte :: s) p a [] =
  at_ n s (bump (mkParser S_START_CODE S_WAIT_PERC (cmd_code p) (line p) (line p)) "%" s) a [].
Proof.
  intros Hp. unfold at_ at 1. cbn [run_loop]. rewrite Hp.
  rewrite (decide_True (P := "%"%byte = _)) by done.
  rewrite fetch_list, <- at_fetched. simpl. by rewrite Hp.
Qed.

Lemma split2_le (x y : byte) (s : list byte) : length (split2 x y s).1 <= length s.
Proof.
  induction s as [|c s IH]; [done|]. rewrite split2_cons. destruct s as [|d s]; [done|].
  case_decide; [simpl; lia|]. destruct (split2 x y (d :: s)) as [t o]. cbn [fst length] in *. lia.
Qed.

Lemma blocks_length (k fuel : nat) : forall in_code ln prev s,
  length s <= k -> Forall (fun b => length (block_text b) <= k) (blocks fuel in_code ln prev s).
Proof.
  assert (forall mk t, (forall t, block_text (mk t) = t) -> length t <= k ->
    Forall (fun b => length (block_text b) <= k) (nonempty mk t)) as G.
  { intros mk [|c t] Hm Ht; constructor; [|done]. by rewrite Hm. }
  induction fuel as [|fuel IH]; intros [] ln prev s Hs; cbn [blocks]; try done.
  - destruct s as [|x s]; [done|]. set (body := if isspace x then x :: s else s).
    assert (length body <= S (length s)) by (unfold body; destruct (isspace x); simpl; lia).
    pose proof (split2_le "%" ">" body). destruct (split2 "%" ">" body) as [t [r|]] eqn:E; simpl in *;
      apply Forall_app; split; try done; try (apply G; [done|lia]).
    apply split2_length in E. apply IH. lia.
  - pose proof (split2_le "<" "%" s). destruct (split2 "<" "%" s) as [t [r|]] eqn:E; simpl in *;
      apply Forall_app; split; try done; try (apply G; [done|lia]).
    apply split2_length in E. apply IH. lia.
Qed.

Lemma blocks_small (fuel : nat) (in_code : bool) (ln : nat) (prev : byte) (s : list byte) :
  S (length s) < PARSER_BUFSZ - 1 -> Forall small (blocks fuel in_code ln prev s).
Proof.
  intros Hs. eapply Forall_impl; [apply (blocks_length (length s)); done|]. unfold small. simpl. intros b Hb. lia.
Qed.

Lemma at_blocks (fuel : nat) (Hbuf : 2 < PARSER_BUFSZ) :
  forall s, length s < fuel ->
  (forall n p a ln prev, 3 * length s + 3 <= n -> state p = S_HTML -> line p = cur_line ln prev s ->
     Forall small (blocks fuel false ln prev s) ->
     at_ n s p a [] = feed cb_html cb_code a (blocks fuel false ln prev s)) /\
  (forall n p a ln prev, 3 * length s + 4 <= n -> state p = S_START_CODE ->
     line p = cur_line ln prev s -> code_line p = ln ->
     Forall small (blocks fuel true ln prev s) ->
     at_ n s p a [] = feed cb_html cb_code a (blocks fuel true ln prev s)).
Proof.
  induction fuel as [|fuel IH]; intros s Hs; [lia|]. cbn [blocks]. split.
  - intros n p a ln prev Hn Hp Hl Hsm. destruct (split2 "<" "%" s) as [t o] eqn:E.
    apply Forall_app in Hsm as [Hsm1 Hsm2]. pose proof (small_nonempty Html t ltac:(done) Hbuf Hsm1) as Ht.
    destruct (scan_html s) as [Hh _].
    specialize (Hh n p a [] ln prev t o Hn Hp Hl E Ht). rewrite feed_app, feed_html.
    destruct o as [r|]; simpl in Hh.
    + destruct Hh as (n' & p' & Hn' & Hp' & Hl' & Hc' & ->).
      apply split2_length in E. destruct (IH r ltac:(lia)) as [_ IHc].
      destruct (on_block_text cb_html a t) as [a' []]; try done. by apply IHc.
    + rewrite Hh. by destruct (on_block_text cb_html a t) as [a' [[]| | |]].
  - intros n p a ln prev Hn Hp Hl Hcl Hsm. destruct s as [|x s]; [by rewrite at_nil, Hp|].
    destruct n as [|n]; [lia|]. rewrite at_start_code by done. simpl in Hn, Hs.
    set (sp := isspace x) in *.
    set (q := if sp then set_state (set_cmd p x00) S_CODE else set_state (bump (set_cmd p x) x s) S_CODE).
    assert ((if sp then at_ n (x :: s) (set_state (set_cmd p x00) S_CODE) a []
             else at_ n s (set_state (bump (set_cmd p x) x s) S_CODE) a [])
            = at_ n (if sp then x :: s else s) q a []) as -> by (unfold q; by destruct sp).
    set (body := if sp then x :: s else s) in *.
    destruct (split2 "%" ">" body) as [t o] eqn:E.
    apply Forall_app in Hsm as [Hsm1 Hsm2].
    pose proof (small_nonempty (Code ln _) t ltac:(done) Hbuf Hsm1) as Ht.
    destruct (scan_code q body) as [Hh _].
    set (ln1 := if sp then ln else next_line ln prev x) in *.
    set (prev1 := if sp then prev else x) in *.
    assert (length body <= S (length s)) as Hlb by (unfold body; destruct sp; simpl; lia).
    assert (line q = cur_line ln1 prev1 body) as Hlq.
    { unfold q, ln1, prev1, body. destruct sp; simpl; [done|]. by rewrite Hl. }
    assert (cmd_code q = if sp then x00 else x) as Hcq by (unfold q; by destruct sp).
    assert (code_line q = ln) as Hclq by (unfold q; by destruct sp).
    assert (state q = S_CODE) as Hsq by (unfold q; by destruct sp).
    specialize (Hh n q a [] ln1 prev1 t o ltac:(lia) Hsq ltac:(done) Hlq E Ht).
    rewrite feed_app, <- Hclq, <- Hcq, feed_code. destruct o as [r|]; simpl in Hh.
    + destruct Hh as (n' & p' & Hn' & Hp' & Hl' & ->).
      apply split2_length in E. destruct (IH r ltac:(lia)) as [IHh _].
      destruct (on_block_code cb_code q a t) as [a' []]; try done. by apply IHh.
    + rewrite Hh. by destruct (on_block_code cb_code q a t) as [a' [[]| | |]].
Qed.
End on_list.

(** ** The loop on a stream *)

(** Both runs fetch the same character. *)
Ltac sim_fetch Hf IH :=
  lazymatch goal with
  | |- context [fetch_next_char _ _ ?p ?c] =>
      let r := fresh "r" in
      destruct (Hf p c) as (? & ? & ? & r & -> & -> & ?); destruct r; [by apply IH|by split_and!..]
  end.

Section simulation.
Context {A I J : Type}.
Variable cb_html : option (A -> list byte -> A * bool).
Variable cb_code : option (A -> nat -> byte -> list byte -> A * bool).
Variable getc1 : I -> I * res (option byte).
Variable getc2 : J -> J * res (option byte).
Variable R : I -> J -> Prop.
Hypothesis getc_sim : forall i j, R i j ->
  (getc1 i).2 = (getc2 j).2 /\ R (getc1 i).1 (getc2 j).1.

Definition related (x : I * parser * A * res unit) (y : J * parser * A * res unit) : Prop :=
  R x.1.1.1 y.1.1.1 /\ x.1.1.2 = y.1.1.2 /\ outcome x = outcome y.

Lemma fetch_sim (i : I) (j : J) (p : parser) (c : byte) :
  R i j -> exists i' j' p' r, fetch_next_char getc1 i p c = (i', p', r) /\
    fetch_next_char getc2 j p c = (j', p', r) /\ R i' j'.
Proof.
  intros H. destruct (getc_sim i j H) as [E1 E2]. unfold fetch_next_char.
  destruct (getc1 i) as [i' r1], (getc2 j) as [j' r2]. simpl in *. subst.
  destruct r2 as [[c'|]| | |]; eexists _, _, _, _; split_and!; done.
Qed.

Lemma run_loop_sim (n : nat) : forall i j p a buf oc, R i j ->
  related (run_loop cb_html cb_code getc1 n i p a buf oc) (run_loop cb_html cb_code getc2 n j p a buf oc).
Proof.
  induction n as [|n IH]; intros i j p a buf [c|] H; cbn [run_loop]; try (by split_and!);
    try (destruct buf; [by split_and!|]; by destruct (parser_on_block _ _ _ _ _) as [[? ?] ?]).
  assert (forall p c, exists i' j' p' r, fetch_next_char getc1 i p c = (i', p', r) /\
    fetch_next_char getc2 j p c = (j', p', r) /\ R i' j') as Hf by (intros; by apply fetch_sim).
  destruct (state p); try (by apply IH).
  all: repeat first
    [ progress case_decide
    | sim_fetch Hf IH
    | by apply IH
    | lazymatch goal with
      | |- context [parser_on_block ?x ?y ?p ?a ?b] =>
          destruct (parser_on_block x y p a b) as [[? ?] []]
      | |- context [isspace ?c] => destruct (isspace c)
      | |- context [match ?b with [] => _ | _ :: _ => _ end] => destruct b
      end
    | by split_and! ].
Qed.
End simulation.

Lemma PARSER_BUFSZ_big : 2 < PARSER_BUFSZ.
Proof. rewrite PARSER_BUFSZ_val. lia. Qed.

Section parser_claims.
Context {L : Libu} {LM : LibuMem L} {D C : Type} {DO : DevOps D} {CO : CodecOps C} {DS : DevSource D}.
Context {A : Type}.
Variable cb_html : option (A -> list byte -> A * bool).
Variable cb_code : option (A -> nat -> byte -> list byte -> A * bool).

Definition stream_is (i : io D C) (s : list byte) : Prop := readable i /\ instream i = s.

Lemma io_getc_sim (fuel : nat) (i : io D C) (s : list byte) :
  0 < fuel -> stream_is i s ->
  (io_getc fuel i).2 = (lget s).2 /\ stream_is (io_getc fuel i).1 (lget s).1.
Proof.
  intros Hf [Hr Hi]. unfold io_getc.
  destruct (io_read_spec fuel i 1 Hr Hf) as (i' & -> & R1 & R2 & _).
  rewrite Hi in *. destruct s; simpl in *; by rewrite ?take_0, ?drop_0 in *.
Qed.

Lemma parser_run_list (fuel n : nat) (i : io D C) (a : A) :
  readable i -> 0 < fuel ->
  outcome (parser_run cb_html cb_code fuel (S n) i parser_create a) =
  at_ cb_html cb_code n (instream i) (bump (mkParser S_HTML S_START x00 1 0) x00 (instream i)) a [].
Proof.
  intros Hr Hf. unfold parser_run, run_parser. simpl (line parser_create).
  rewrite decide_False by lia.
  destruct (fetch_sim (io_getc fuel) lget stream_is (fun i s => io_getc_sim fuel i s Hf)
              i (instream i) parser_create x00 (conj Hr eq_refl)) as (i' & j' & p' & r & -> & E & HR).
  rewrite fetch_list in E. injection E as <- <- <-.
  destruct (run_loop_sim cb_html cb_code (io_getc fuel) lget stream_is
    (fun i s => io_getc_sim fuel i s Hf) (S n) i' (tail (instream i))
    (bump parser_create x00 (instream i)) a [] (head (instream i)) HR) as (_ & _ & ->).
  destruct (instream i) as [|c s]; [by destruct n|]. done.
Qed.

Lemma parser_run_feeds (fuel n : nat) (i : io D C) (a : A) :
  readable i -> 0 < fuel -> 3 * length (instream i) + 4 <= n ->
  Forall small (page_blocks (instream i)) ->
  outcome (parser_run cb_html cb_code fuel n i parser_create a) =
  feed cb_html cb_code a (page_blocks (instream i)).
Proof.
  intros Hr Hf Hn Hs. destruct n as [|n]; [lia|]. rewrite parser_run_list by done.
  destruct (at_blocks cb_html cb_code (S (length (instream i))) PARSER_BUFSZ_big (instream i))
    as [H _]; [lia|]. apply H; try done. lia.
Qed.

(** C27: the parser hands the callbacks exactly the blocks of the page, in order: the
    text between the tags, the code with its command character and the line number it
    starts on, until a callback fails; empty blocks are left out.  It needs at most
    three iterations per character, for pages whose blocks fit its buffer. *)
Theorem parser_run_blocks (fuel n : nat) (i : io D C) (a : A) :
  readable i -> 0 < fuel -> 3 * length (instream i) + 4 <= n ->
  Forall small (page_blocks (instream i)) ->
  outcome (parser_run cb_html cb_code fuel n i parser_create a) =
  feed cb_html cb_code a (page_blocks (instream i)).
Proof. apply parser_run_feeds. Qed.

Lemma at_plain (t : list byte) : forall n s p a buf,
  state p = S_HTML -> ("<"%byte ∉ t) -> length (buf ++ t) < PARSER_BUFSZ - 1 ->
  exists p', state p' = S_HTML /\
    at_ cb_html cb_code (length t + n) (t ++ s) p a buf = at_ cb_html cb_code n s p' a (buf ++ t).
Proof.
  induction t as [|c t IH]; intros n s p a buf Hp Ht Hb; simpl.
  - exists p. by rewrite app_nil_r.
  - rewrite length_app in Hb. simpl in Hb.
    rewrite (at_push _ _ _ _ _ p p) by (lia || left; rewrite decide_False; set_solver).
    destruct (IH n s (bump p c (t ++ s)) a (buf ++ [c])) as (p' & Hp' & ->); [done|set_solver| |].
    + rewrite !length_app. simpl. lia.
    + exists p'. by rewrite <- app_assoc.
Qed.

(** A tag whose '<' is the character that fills the buffer is not recognised as
    a whole: the '<' has been handed over with the text before it. *)
Theorem parser_boundary_leak (fuel n : nat) (i : io D C) (a : A) (t s : list byte) :
  readable i -> 0 < fuel -> instream i = t ++ "<"%byte :: "%"%byte :: s ->
  length t = PARSER_BUFSZ - 2 -> ("<"%byte ∉ t) -> S (length s) < PARSER_BUFSZ - 1 ->
  length t + 3 * length s + 7 <= n ->
  exists ln, outcome (parser_run cb_html cb_code fuel n i parser_create a) =
    feed cb_html cb_code a (Html (t ++ ["<"%byte]) :: blocks (S (length s)) true ln "%" s).
Proof.
  intros Hr Hf Hi Ht Hlt Hs Hn. pose proof PARSER_BUFSZ_big as Hb.
  assert (exists m, n = S (length t + S (S m)) /\ 3 * length s + 4 <= m) as (m & -> & Hm).
  { exists (n - length t - 3). lia. }
  rewrite parser_run_list, Hi by done.
  destruct (at_plain t (S (S m)) ("<"%byte :: "%"%byte :: s)
    (bump (mkParser S_HTML S_START x00 1 0) x00 (t ++ "<"%byte :: "%"%byte :: s)) a [])
    as (p & Hp & ->); [done|done|simpl; lia|].
  assert (S (length ([] ++ t)) = PARSER_BUFSZ - 1) as Hfull by (rewrite app_nil_l; lia).
  rewrite (at_push_full cb_html cb_code _ _ p a _ Hp Hfull).
  set (q := bump (set_state p S_WAIT_PERC) "<" ("%"%byte :: s)). exists (line q).
  change (Html (t ++ ["<"%byte]) :: ?l) with ([Html (t ++ ["<"%byte])] ++ l).
  assert (nonempty Html (t ++ ["<"%byte]) = [Html (t ++ ["<"%byte])]) as <- by (by destruct t).
  rewrite feed_app, feed_html, app_nil_l.
  destruct (on_block_text cb_html a (t ++ ["<"%byte])) as [a' []]; try done.
  rewrite at_open_empty by done.
  destruct (at_blocks cb_html cb_code (S (length s)) Hb s ltac:(lia)) as [_ H].
  apply H; [exact Hm|reflexivity|reflexivity|reflexivity|]. apply blocks_small. exact Hs.
Qed.
End parser_claims.

(** ** Round trip of a page *)

(** A page as text and code by turns; [cmd] is the command character, NUL for none. *)
Definition render_seg (g : list byte * byte * list byte) : list byte :=
  let '(h, cmd, code) := g in
  h ++ bs "<%" ++ (if decide (cmd = x00) then [] else [cmd]) ++ code ++ bs "%>".

Definition seg_ok (g : list byte * byte * list byte) : Prop :=
  let '(h, cmd, code) := g in
  split2 "<" "%" h = (h, None) /\ split2 "%" ">" code = (code, None) /\
  if decide (cmd = x00) then isspace (hd x00 code) = true else isspace cmd = false.

Definition seg_blocks (g : list byte * byte * list byte) : list block :=
  let '(h, cmd, code) := g in nonempty Html h ++ nonempty (Code 0 cmd) code.

Definition erase (b : block) : block :=
  match b with Html t => Html t | Code _ cmd t => Code 0 cmd t end.

Lemma split2_tag (x y : byte) (t r : list byte) :
  x <> y -> split2 x y t = (t, None) -> split2 x y (t ++ x :: y :: r) = (t, Some r).
Proof.
  intros Hxy. induction t as [|c t IH]; intros H.
  - rewrite app_nil_l, split2_cons. cbv iota. by rewrite decide_True.
  - rewrite split2_cons in H. rewrite <- app_comm_cons, split2_cons. destruct t as [|d t].
    + rewrite app_nil_l in IH |- *. cbv iota. rewrite decide_False by naive_solver. by rewrite IH.
    + rewrite <- app_comm_cons in IH |- *. cbv iota. case_decide as Hd; [done|].
      destruct (split2 x y (d :: t)) as [t' o]. injection H as -> ->. by rewrite IH.
Qed.

Lemma erase_html (t : list byte) : map erase (nonempty Html t) = nonempty Html t.
Proof. by destruct t. Qed.

Lemma erase_code (ln : nat) (cmd : byte) (t : list byte) :
  map erase (nonempty (Code ln cmd) t) = nonempty (Code 0 cmd) t.
Proof. by destruct t. Qed.

Lemma blocks_render (segs : list (list byte * byte * list byte)) (tl : list byte) :
  Forall seg_ok segs -> split2 "<" "%" tl = (tl, None) ->
  forall fuel ln prev, 2 * length segs < fuel ->
  map erase (blocks fuel false ln prev (flat_map render_seg segs ++ tl)) =
  flat_map seg_blocks segs ++ nonempty Html tl.
Proof.
  intros H Htl. induction H as [|[[h cmd] code] segs (Hh & Hc & Hcmd) _ IH]; intros fuel ln prev Hf.
  - destruct fuel; [simpl in Hf; lia|]. cbn [blocks flat_map]. rewrite app_nil_l, Htl.
    by rewrite app_nil_r, erase_html.
  - destruct fuel as [|[|fuel]]; [simpl in Hf; lia..|]. cbn [blocks flat_map render_seg].
    rewrite <- !app_assoc. simpl (bs "<%" ++ _). rewrite split2_tag by done. simpl in Hf.
    rewrite map_app, erase_html. cbn [seg_blocks]. rewrite <- !app_assoc. f_equal.
    simpl (bs "%>" ++ _). case_decide as Hz.
    + subst cmd. rewrite app_nil_l. destruct code as [|x code]; [done|]. simpl in Hcmd.
      rewrite <- app_comm_cons. cbv iota zeta. rewrite Hcmd, app_comm_cons, split2_tag by done.
      rewrite map_app, erase_code, IH by lia. done.
    + rewrite <- app_comm_cons, app_nil_l. cbv iota zeta. rewrite Hcmd, split2_tag by done.
      rewrite map_app, erase_code, IH by lia. done.
Qed.

(** Callbacks that record the blocks. *)
Definition rec_html (a : list block) (t : list byte) : list block * bool := (a ++ [Html t], false).
Definition rec_code (a : list block) (ln : nat) (cmd : byte) (t : list byte) : list block * bool :=
  (a ++ [Code ln cmd t], false).

Lemma feed_rec (bl a : list block) : feed (Some rec_html) (Some rec_code) a bl = (a ++ bl, Ok tt).
Proof.
  revert a. induction bl as [|b bl IH]; intros a; simpl; [by rewrite app_nil_r|].
  destruct b; simpl; rewrite IH, <- app_assoc; done.
Qed.

Lemma length_render (segs : list (list byte * byte * list byte)) :
  2 * length segs <= length (flat_map render_seg segs).
Proof.
  induction segs as [|[[h cmd] code] segs IH]; simpl; [lia|].
  rewrite !length_app. simpl. rewrite !length_app. simpl. lia.
Qed.

(** A page written as text and tagged code, and parsed with callbacks that record
    what they get, gives back exactly these texts and codes, in order, with their
    command characters (line numbers aside). *)
Theorem page_roundtrip {L : Libu} {LM : LibuMem L} {D C : Type} {DO : DevOps D} {CO : CodecOps C}
    {DS : DevSource D} (segs : list (list byte * byte * list byte)) (tl : list byte)
    (fuel n : nat) (i : io D C) :
  Forall seg_ok segs -> split2 "<" "%" tl = (tl, None) ->
  readable i -> 0 < fuel -> instream i = flat_map render_seg segs ++ tl ->
  S (length (instream i)) < PARSER_BUFSZ - 1 -> 3 * length (instream i) + 4 <= n ->
  exists bl, outcome (parser_run (Some rec_html) (Some rec_code) fuel n i parser_create []) = (bl, Ok tt) /\
    map erase bl = flat_map seg_blocks segs ++ nonempty Html tl.
Proof.
  intros Hs Htl Hr Hf Hi Hsm Hn. exists (page_blocks (instream i)). split.
  - destruct n as [|n]; [lia|]. rewrite parser_run_list by done.
    destruct (at_blocks (Some rec_html) (Some rec_code) (S (length (instream i))) PARSER_BUFSZ_big (instream i))
      as [H _]; [lia|]. unfold page_blocks. rewrite (H n _ [] 1 x00); [apply feed_rec|lia|done|done|].
    apply blocks_small. exact Hsm.
  - rewrite Hi. apply blocks_render; try done. pose proof (length_render segs).
    rewrite length_app. lia.
Qed.

(** ** Evaluation *)

Definition sample_page : list byte :=
  bs "<html>" ++ [x0a] ++ bs "<%! int i; %>" ++ [x0a] ++ bs "a < b <%= i %>.<% f(); %>".

Lemma parser_run_blocks_witness :
  outcome (parser_run (L:=libu_ref) (Some rec_html) (Some rec_code) 1 200 (mem_io sample_page)
             parser_create []) =
  feed (Some rec_html) (Some rec_code) [] (page_blocks sample_page).
Proof.
  destruct (mem_io_readable sample_page) as [Hr Hi].
  rewrite <- Hi at 2.
  apply (parser_run_blocks (L:=libu_ref) (Some rec_html) (Some rec_code)).
  - exact Hr.
  - lia.
  - rewrite Hi. vm_compute. lia.
  - apply blocks_small. rewrite Hi. pose proof PARSER_BUFSZ_val. vm_compute (length sample_page). lia.
Defined.

Example sample_page_blocks :
  page_blocks sample_page =
  [Html (bs "<html>" ++ [x0a]); Code 2 "!" (bs " int i; "); Html (x0a :: bs "a < b ");
   Code 3 "=" (bs " i "); Html (bs "."); Code 3 x00 (bs " f(); ")].
Proof. vm_compute. reflexivity. Qed.

Definition sample_segs : list (list byte * byte * list byte) :=
  [(bs "a < b", "="%byte, bs "x"); ([], x00, bs " y ")].

Lemma page_roundtrip_witness :
  exists bl, outcome (parser_run (L:=libu_ref) (Some rec_html) (Some rec_code) 1 100
      (mem_io (flat_map render_seg sample_segs ++ bs "z")) parser_create []) = (bl, Ok tt) /\
    map erase bl = flat_map seg_blocks sample_segs ++ nonempty Html (bs "z").
Proof.
  destruct (mem_io_readable (flat_map render_seg sample_segs ++ bs "z")) as [Hr Hi].
  apply (page_roundtrip (L:=libu_ref) sample_segs (bs "z") 1 100).
  - repeat constructor.
  - reflexivity.
  - exact Hr.
  - lia.
  - exact Hi.
  - rewrite Hi. pose proof PARSER_BUFSZ_val. vm_compute (length _). lia.
  - rewrite Hi. vm_compute (length _). lia.
Defined.

Lemma parser_boundary_leak_witness :
  let t := replicate (PARSER_BUFSZ - 2) "a"%byte in
  exists ln, outcome (parser_run (L:=libu_ref) (Some rec_html) (Some rec_code) 1 (length t + 22)
      (mem_io (t ++ "<"%byte :: "%"%byte :: bs "=i %>")) parser_create []) =
    feed (Some rec_html) (Some rec_code) [] (Html (t ++ ["<"%byte]) :: blocks 6 true ln "%" (bs "=i %>")).
Proof.
  intros t.
  apply (parser_boundary_leak (L:=libu_ref) (Some rec_html) (Some rec_code) 1 (length t + 22)
    (mem_io (t ++ "<"%byte :: "%"%byte :: bs "=i %>")) [] t (bs "=i %>")).
  - apply mem_io_readable.
  - lia.
  - apply mem_io_readable.
  - unfold t. apply length_replicate.
  - unfold t. intros [H _]%elem_of_replicate. discriminate H.
  - pose proof PARSER_BUFSZ_val. simpl (length (bs _)). lia.
  - simpl (length (bs _)). lia.
Defined.
