(* ===== verification/Atom.v ===== *)
(** Lists of atoms: src/src/kloned/atom.c over the LIST macros of <sys/queue.h>.

    An atom may be reached both through the list and through a pointer that a caller
    kept, also after it left the list, so the list is modelled in memory: [heap] maps
    addresses to atoms with their two links.  [le_prev] is the address of the pointer to
    the atom: [None] the list head, [Some p] the [le_next] of the atom at [p].  A use of a
    freed atom is a [Fault].  Sizes and counts are [size_t]. *)

From stdpp Require Import gmap.
From S2P Require Import Prelude Libu.

Record atom := mkAtom {
  a_id : list byte;
  a_data : list byte;
  a_size : Z;
  a_arg : Z;
  le_next : option nat;
  le_prev : option nat
}.

Record atoms := mkAtoms {
  heap : gmap nat atom;
  fresh : nat;               (* addresses from here on have never been used *)
  lh_first : option nat;
  as_size : Z;
  as_count : Z
}.

(** [sizeof(atom_t)] *)
Definition ATOM_SIZE : nat := 48.

Definition set_next (a : atom) (v : option nat) : atom :=
  mkAtom (a_id a) (a_data a) (a_size a) (a_arg a) v (le_prev a).
Definition set_prev (a : atom) (v : option nat) : atom :=
  mkAtom (a_id a) (a_data a) (a_size a) (a_arg a) (le_next a) v.

Definition set_heap (s : atoms) (h : gmap nat atom) : atoms :=
  mkAtoms h (fresh s) (lh_first s) (as_size s) (as_count s).

(** [*loc = v] for a link [loc] *)
Definition write_link (s : atoms) (loc v : option nat) : res atoms :=
  match loc with
  | None => Ok (mkAtoms (heap s) (fresh s) v (as_size s) (as_count s))
  | Some p =>
      match heap s !! p with
      | Some a => Ok (set_heap s (<[p := set_next a v]> (heap s)))
      | None => Fault
      end
  end.

(** [p->np.le_prev = v] *)
Definition write_prev (s : atoms) (p : nat) (v : option nat) : res atoms :=
  match heap s !! p with
  | Some a => Ok (set_heap s (<[p := set_prev a v]> (heap s)))
  | None => Fault
  end.

(** LIST_INSERT_HEAD(&as->list, p, np) *)
Definition LIST_INSERT_HEAD (s : atoms) (p : nat) : res atoms :=
  s1 ← write_link s (Some p) (lh_first s);
  s2 ← match lh_first s1 with
       | Some q => write_prev s1 q (Some p)
       | None => Ok s1
       end;
  s3 ← write_link s2 None (Some p);
  write_prev s3 p None.

(** LIST_REMOVE(p, np): the links of [p] itself are left as they are. *)
Definition LIST_REMOVE (s : atoms) (p : nat) : res atoms :=
  match heap s !! p with
  | None => Fault
  | Some a =>
      s1 ← match le_next a with
           | Some q => write_prev s q (le_prev a)
           | None => Ok s
           end;
      write_link s1 (le_prev a) (le_next a)
  end.

Section atom_ops.
Context {L : Libu}.

(** [atom_create]: the address of the new atom. *)
Definition atom_create (s : atoms) (id data : list byte) (arg : Z) : atoms * res nat :=
  if u_alloc ATOM_SIZE && u_alloc (S (length id)) && u_alloc (length data) then
    (mkAtoms (<[fresh s := mkAtom id data (Z.of_nat (length data)) arg None None]> (heap s))
             (S (fresh s)) (lh_first s) (as_size s) (as_count s),
     Ok (fresh s))
  else (s, Fail).

Definition atom_free (s : atoms) (p : nat) : atoms := set_heap s (delete p (heap s)).

Definition atoms_create : atoms := mkAtoms ∅ 0 None 0 0.
Definition atoms_size (s : atoms) : Z := as_size s.
Definition atoms_count (s : atoms) : Z := as_count s.

(** The LIST_FOREACH of [atoms_getn]. *)
Fixpoint getn_loop (h : gmap nat atom) (n : nat) (cur : option nat) : res nat :=
  match cur with
  | None => Fail
  | Some p =>
      match h !! p with
      | None => Fault
      | Some a => match n with 0 => Ok p | S n' => getn_loop h n' (le_next a) end
      end
  end.

Definition atoms_getn (s : atoms) (n : nat) : res nat :=
  if decide (as_count s <= Z.of_nat n)%Z then Fail else getn_loop (heap s) n (lh_first s).

(** The LIST_FOREACH of [atoms_get]; a list without a cycle has at most [fresh] atoms. *)
Fixpoint get_loop (fuel : nat) (h : gmap nat atom) (id : list byte) (cur : option nat) : res nat :=
  match fuel with
  | 0 => Timeout
  | S fuel' =>
      match cur with
      | None => Fail
      | Some p =>
          match h !! p with
          | None => Fault
          | Some a => if streq id (a_id a) then Ok p else get_loop fuel' h id (le_next a)
          end
      end
  end.

Definition atoms_get (s : atoms) (id : list byte) : res nat :=
  get_loop (S (fresh s)) (heap s) id (lh_first s).

Definition atoms_add (s : atoms) (p : nat) : res atoms :=
  s1 ← LIST_INSERT_HEAD s p;
  match heap s1 !! p with
  | Some a => Ok (mkAtoms (heap s1) (fresh s1) (lh_first s1)
                          (w64 (as_size s1 + a_size a)) (w64 (as_count s1 + 1)))
  | None => Fault
  end.

Definition atoms_remove (s : atoms) (p : nat) : res atoms :=
  s1 ← LIST_REMOVE s p;
  match heap s1 !! p with
  | Some a => Ok (mkAtoms (heap s1) (fresh s1) (lh_first s1)
                          (w64 (as_size s1 - a_size a)) (w64 (as_count s1 - 1)))
  | None => Fault
  end.

(** The loop of [atoms_free]; the atoms themselves are not freed. *)
Fixpoint atoms_free_loop (fuel : nat) (s : atoms) : res atoms :=
  if decide (as_count s = 0)%Z then Ok s else
  match fuel with
  | 0 => Timeout
  | S fuel' => p ← atoms_getn s 0; s' ← atoms_remove s p; atoms_free_loop fuel' s'
  end.
Definition atoms_free (s : atoms) : res atoms := atoms_free_loop (Z.to_nat (as_count s)) s.
End atom_ops.

(** ** The list a heap represents *)

Record entry := mkEntry { e_id : list byte; e_data : list byte; e_arg : Z }.

#[global] Instance entry_eq_dec : EqDecision entry.
Proof. solve_decision. Defined.

Definition entry_of (a : atom) : entry := mkEntry (a_id a) (a_data a) (a_arg a).
Definition e_size (e : entry) : Z := Z.of_nat (length (e_data e)).

Definition node_is (h : gmap nat atom) (pe : nat * entry) (prev next : option nat) : Prop :=
  exists a, h !! pe.1 = Some a /\ entry_of a = pe.2 /\ a_size a = e_size pe.2 /\
            le_prev a = prev /\ le_next a = next.

(** The part of the list from the link [prev], which holds [cur], to the link [prev'],
    which holds [cur']. *)
Fixpoint lseg (h : gmap nat atom) (prev cur : option nat) (l : list (nat * entry))
    (prev' cur' : option nat) : Prop :=
  match l with
  | [] => prev = prev' /\ cur = cur'
  | pe :: l' => cur = Some pe.1 /\ exists next, node_is h pe prev next /\
                                    lseg h (Some pe.1) next l' prev' cur'
  end.

Definition total (l : list (nat * entry)) : Z := foldr (fun pe n => e_size pe.2 + n)%Z 0%Z l.

Definition repr (s : atoms) (l : list (nat * entry)) : Prop :=
  (exists tl, lseg (heap s) None (lh_first s) l tl None) /\
  NoDup l.*1 /\ Forall (fun p => p < fresh s) l.*1 /\
  as_count s = Z.of_nat (length l) /\ as_size s = total l.

Lemma total_nonneg (l : list (nat * entry)) : (0 <= total l)%Z.
Proof. induction l; simpl; unfold e_size in *; lia. Qed.

Lemma total_app (l k : list (nat * entry)) : total (l ++ k) = (total l + total k)%Z.
Proof. induction l as [|x l IH]; simpl; [done|]. rewrite IH. lia. Qed.

Lemma lseg_app h prev cur l1 l2 prev' cur' :
  lseg h prev cur (l1 ++ l2) prev' cur' <->
  exists p c, lseg h prev cur l1 p c /\ lseg h p c l2 prev' cur'.
Proof.
  revert prev cur. induction l1 as [|pe l1 IH]; intros prev cur; simpl.
  - split; [intros; by eexists _, _|]. intros (p & c & [-> ->] & H). done.
  - split.
    + intros (-> & next & Hn & (p & c & H1 & H2)%IH). eexists _, _. split; [|done]. eauto.
    + intros (p & c & (-> & next & Hn & H1) & H2). split; [done|]. exists next.
      split; [done|]. apply IH. eauto.
Qed.

Lemma node_is_other h q a pe prev next :
  q <> pe.1 -> node_is (<[q := a]> h) pe prev next <-> node_is h pe prev next.
Proof. intros H. unfold node_is. by rewrite lookup_insert_ne. Qed.

(** Writing to an atom outside the part changes nothing in it. *)
Lemma lseg_frame h q a prev cur l prev' cur' :
  (q ∉ l.*1) -> lseg h prev cur l prev' cur' -> lseg (<[q := a]> h) prev cur l prev' cur'.
Proof.
  revert prev cur. induction l as [|pe l IH]; intros prev cur Hq; simpl; [done|].
  intros (-> & next & Hn & H). split; [done|]. exists next. rewrite fmap_cons in Hq.
  split; [apply node_is_other; [set_solver|done]|]. apply IH; [set_solver|done].
Qed.

(** Redirecting the link that ends a part. *)
Lemma lseg_set_end h prev cur l pv c :
  lseg h prev cur l pv c -> NoDup l.*1 ->
  (l = [] /\ pv = prev /\ cur = c) \/
  exists r ar, pv = Some r /\ h !! r = Some ar /\ r ∈ l.*1 /\
    forall v, lseg (<[r := set_next ar v]> h) prev cur l pv v.
Proof.
  revert prev cur. induction l as [|pe l IH]; intros prev cur Hl Hd; simpl in Hl.
  - destruct Hl as [-> ->]. by left.
  - right. destruct Hl as (-> & next & Hn & Hl). rewrite fmap_cons in Hd |- *.
    apply NoDup_cons in Hd as [Hnin Hd].
    destruct (IH _ _ Hl Hd) as [(-> & -> & ->)|(r & ar & -> & Hr & Hin & H)].
    + destruct Hn as (a & Ha & He & Hs & Hp & Hx). exists pe.1, a. split_and!; [done|done|set_solver|].
      intros v. split; [done|]. exists v. split; [|done]. exists (set_next a v).
      by rewrite lookup_insert_eq.
    + exists r, ar. split_and!; [done|done|set_solver|]. intros v. split; [done|].
      exists next. split; [|apply H]. apply node_is_other; [set_solver|done].
Qed.

(** Redirecting the back link of the first atom of a part. *)
Lemma lseg_set_start h prev cur l pv c v :
  lseg h prev cur l pv c -> NoDup l.*1 ->
  match cur with
  | Some q => forall pe l', l = pe :: l' -> exists b, h !! q = Some b /\ q = pe.1 /\
                lseg (<[q := set_prev b v]> h) v cur l pv c
  | None => l = []
  end \/ l = [].
Proof.
  destruct l as [|pe l]; [by right|]. intros (-> & next & Hn & Hl) Hd. left. intros pe' l' [= <- <-].
  destruct Hn as (b & Hb & He & Hs & Hp & Hx). exists b. split_and!; [done|done|]. split; [done|].
  exists next. rewrite fmap_cons in Hd. apply NoDup_cons in Hd as [Hnin Hd].
  split; [|by apply lseg_frame]. exists (set_prev b v). by rewrite lookup_insert_eq.
Qed.

(** Contents survive link updates. *)
Definition same_info (h h' : gmap nat atom) : Prop :=
  forall q, (fun a => (entry_of a, a_size a)) <$> h' !! q = (fun a => (entry_of a, a_size a)) <$> h !! q.

Lemma same_info_insert (h : gmap nat atom) (q : nat) (a b : atom) :
  h !! q = Some a -> entry_of b = entry_of a -> a_size b = a_size a -> same_info h (<[q := b]> h).
Proof.
  intros Ha He Hs p. destruct (decide (q = p)) as [->|].
  - rewrite lookup_insert_eq, Ha. simpl. by rewrite He, Hs.
  - by rewrite lookup_insert_ne.
Qed.

Lemma same_info_refl (h : gmap nat atom) : same_info h h.
Proof. done. Qed.

Lemma same_info_trans (h1 h2 h3 : gmap nat atom) : same_info h1 h2 -> same_info h2 h3 -> same_info h1 h3.
Proof. intros H1 H2 q. by rewrite H2, H1. Qed.

Lemma same_info_lookup (h h' : gmap nat atom) (q : nat) (a : atom) :
  same_info h h' -> h !! q = Some a ->
  exists a', h' !! q = Some a' /\ entry_of a' = entry_of a /\ a_size a' = a_size a.
Proof.
  intros H Ha. specialize (H q). rewrite Ha in H. simpl in H.
  apply fmap_Some in H as (a' & -> & E).
  pose proof (f_equal fst E). pose proof (f_equal snd E). by exists a'.
Qed.

Lemma list_insert_head_spec (s : atoms) (p : nat) (a : atom) (l : list (nat * entry)) (tl : option nat) :
  lseg (heap s) None (lh_first s) l tl None -> NoDup l.*1 -> heap s !! p = Some a ->
  (p ∉ l.*1) -> a_size a = e_size (entry_of a) ->
  exists s' tl', LIST_INSERT_HEAD s p = Ok s' /\
    lseg (heap s') None (lh_first s') ((p, entry_of a) :: l) tl' None /\
    same_info (heap s) (heap s') /\ fresh s' = fresh s /\
    as_size s' = as_size s /\ as_count s' = as_count s.
Proof.
  intros Hl Hd Ha Hp Hs. unfold LIST_INSERT_HEAD. simpl. rewrite Ha. simpl.
  set (h1 := <[p := set_next a (lh_first s)]> (heap s)).
  assert (lseg h1 None (lh_first s) l tl None) as Hl1 by (by apply lseg_frame).
  assert (h1 !! p = Some (set_next a (lh_first s))) as Hp1 by apply lookup_insert_eq.
  assert (same_info (heap s) h1) as Hi1 by (by apply (same_info_insert _ p a)).
  destruct l as [|[q e] l].
  - destruct Hl as [<- Hf]. rewrite Hf. unfold write_prev. simpl. rewrite Hp1. simpl.
    eexists _, _. split; [done|split; [|split; [|by split_and!]]].
    + simpl. split; [done|]. exists None. split; [|done]. eexists. rewrite lookup_insert_eq.
      by split_and!.
    + eapply same_info_trans; [exact Hi1|].
      by apply (same_info_insert h1 p _ _ Hp1).
  - pose proof (lseg_set_start h1 None (lh_first s) ((q, e) :: l) tl None (Some p) Hl1 Hd) as Hst.
    pose proof Hl as (Eq & _). simpl in Eq. rewrite Eq in *. simpl.
    destruct Hst as [Hst|]; [|done]. destruct (Hst _ _ eq_refl) as (b & Hb & _ & Hl2).
    unfold write_prev. simpl. rewrite Hb. simpl.
    assert (p <> q) as Hpq by set_solver. rewrite lookup_insert_ne, Hp1 by done. simpl.
    eexists _, tl. split; [done|split; [|split; [|by split_and!]]].
    + simpl. split; [done|]. exists (Some q). split.
      * eexists. rewrite lookup_insert_eq. by split_and!.
      * by apply (lseg_frame _ p (set_prev (set_next a (Some q)) None) (Some p) (Some q) ((q, e) :: l)) in Hl2.
    + eapply same_info_trans; [exact Hi1|].
      eapply (same_info_trans _ (<[q := set_prev b (Some p)]> h1)).
      * by apply (same_info_insert h1 q b).
      * eapply same_info_insert; [by rewrite lookup_insert_ne|done|done].
Qed.

Lemma list_remove_spec (s : atoms) (l1 l2 : list (nat * entry)) (p : nat) (e : entry) (tl : option nat) :
  lseg (heap s) None (lh_first s) (l1 ++ (p, e) :: l2) tl None -> NoDup (l1 ++ (p, e) :: l2).*1 ->
  exists s' tl', LIST_REMOVE s p = Ok s' /\
    lseg (heap s') None (lh_first s') (l1 ++ l2) tl' None /\
    same_info (heap s) (heap s') /\ fresh s' = fresh s /\
    as_size s' = as_size s /\ as_count s' = as_count s.
Proof.
  intros Hl Hd. apply lseg_app in Hl as (pv & c & H1 & Hp & nx & Hn & H2). simpl in Hp. subst c.
  rewrite fmap_app, fmap_cons in Hd. apply NoDup_app in Hd as (Hd1 & Hx & Hd2).
  apply NoDup_cons in Hd2 as [Hp2 Hd2]. simpl in Hp2, Hx.
  destruct Hn as (a & Ha & He & Hs & Hpv & Hnx). simpl in Ha, He, Hs.
  unfold LIST_REMOVE. rewrite Ha, Hpv, Hnx.
  (* the back link of the next atom *)
  assert (exists h1 tl', match nx with Some q => write_prev s q pv | None => Ok s end = Ok (set_heap s h1) /\
    lseg h1 pv nx l2 tl' None /\ lseg h1 None (lh_first s) l1 pv (Some p) /\ same_info (heap s) h1)
    as (h1 & tl' & -> & A2 & A1 & Ai).
  { destruct l2 as [|[q e2] l2].
    - destruct H2 as [<- ->]. exists (heap s), pv. split_and!; try done. by destruct s.
    - destruct (lseg_set_start _ _ _ _ _ _ pv H2 Hd2) as [Hst|]; [|done].
      pose proof H2 as (Eq & _). simpl in Eq. rewrite Eq in *. destruct (Hst _ _ eq_refl) as (b & Hb & _ & Hl2).
      exists (<[q := set_prev b pv]> (heap s)), tl. unfold write_prev. rewrite Hb.
      split; [done|]. split; [done|]. split.
      + apply lseg_frame; [|done]. intros Hq. apply (Hx q Hq). set_solver.
      + by apply (same_info_insert _ q b). }
  (* the forward link to the atom *)
  simpl. destruct (lseg_set_end _ _ _ _ _ _ A1 Hd1) as [(-> & -> & Hf)|(r & ar & -> & Hr & Hin & Hset)].
  - simpl. eexists _, tl'. split; [done|]. simpl. by split_and!.
  - simpl. rewrite Hr. eexists _, tl'. split; [done|]. simpl. split; [|split_and!; try done].
    + apply lseg_app. eexists _, _. split; [apply Hset|]. apply lseg_frame; [|done].
      intros Hq. apply (Hx r Hin). set_solver.
    + eapply same_info_trans; [exact Ai|]. by apply (same_info_insert _ r ar).
Qed.

Lemma lseg_lookup h prev cur l1 p e l2 pv c :
  lseg h prev cur (l1 ++ (p, e) :: l2) pv c ->
  exists a, h !! p = Some a /\ entry_of a = e /\ a_size a = e_size e.
Proof.
  intros (pv' & c' & _ & _ & nx & (a & Ha & He & Hs & _) & _)%lseg_app. by exists a.
Qed.

Lemma getn_loop_spec h prev cur l pv (n : nat) :
  lseg h prev cur l pv None ->
  getn_loop h n cur = match l !! n with Some pe => Ok pe.1 | None => Fail end.
Proof.
  revert prev cur l. induction n as [|n IH]; intros prev cur l Hl; destruct l as [|pe l]; simpl in *.
  - by destruct Hl as [_ ->].
  - destruct Hl as (-> & nx & (a & Ha & _) & _). by rewrite Ha.
  - by destruct Hl as [_ ->].
  - destruct Hl as (-> & nx & (a & Ha & _ & _ & _ & <-) & Hl). rewrite Ha. by eapply IH.
Qed.

(** The first atom with an id. *)
Definition lookup_id (id : list byte) (l : list (nat * entry)) : option (nat * entry) :=
  List.find (fun pe => streq id (e_id pe.2)) l.

Lemma get_loop_spec h prev cur l pv (id : list byte) (fuel : nat) :
  lseg h prev cur l pv None -> length l < fuel ->
  get_loop fuel h id cur = match lookup_id id l with Some pe => Ok pe.1 | None => Fail end.
Proof.
  revert prev cur fuel. induction l as [|pe l IH]; intros prev cur [|fuel] Hl Hf; simpl in *; try lia.
  - by destruct Hl as [_ ->].
  - destruct Hl as (-> & nx & (a & Ha & He & _ & _ & Hx) & Hl). rewrite Ha, Hx.
    unfold lookup_id. simpl. rewrite <- He. simpl. destruct (streq id (a_id a)); [done|].
    eapply IH; [done|lia].
Qed.

(** ** Operations on represented lists *)

Lemma repr_create : repr atoms_create [].
Proof. split_and!; try done; [by exists None|constructor]. Qed.

Lemma repr_length (s : atoms) l : repr s l -> length l <= fresh s.
Proof.
  intros (_ & Hd & Hf & _). rewrite <- (length_fmap fst).
  transitivity (length (seq 0 (fresh s))); [|by rewrite length_seq].
  apply submseteq_length, NoDup_submseteq; [done|]. intros p Hp.
  rewrite Forall_forall in Hf. apply elem_of_seq. specialize (Hf p Hp). lia.
Qed.

Lemma atoms_get_spec (s : atoms) l (id : list byte) :
  repr s l -> atoms_get s id = match lookup_id id l with Some pe => Ok pe.1 | None => Fail end.
Proof.
  intros Hr. pose proof (repr_length s l Hr). destruct Hr as ([tl Hl] & _).
  eapply get_loop_spec; [done|lia].
Qed.

Lemma atoms_getn_spec (s : atoms) l (n : nat) :
  repr s l -> atoms_getn s n = match l !! n with Some pe => Ok pe.1 | None => Fail end.
Proof.
  intros ([tl Hl] & _ & _ & Hc & _). unfold atoms_getn. rewrite Hc. case_decide as Hd.
  - by rewrite (proj2 (lookup_ge_None l n)) by lia.
  - by eapply getn_loop_spec.
Qed.

Lemma atoms_remove_spec (s : atoms) l1 p e l2 :
  repr s (l1 ++ (p, e) :: l2) -> (total (l1 ++ (p, e) :: l2) < SIZE_MOD)%Z ->
  (Z.of_nat (length (l1 ++ (p, e) :: l2)) < SIZE_MOD)%Z ->
  exists s', atoms_remove s p = Ok s' /\ repr s' (l1 ++ l2) /\
    same_info (heap s) (heap s') /\ fresh s' = fresh s.
Proof.
  intros ([tl Hl] & Hd & Hf & Hc & Hs) Hz Hz2. pose proof (lseg_lookup _ _ _ _ _ _ _ _ _ Hl) as (a & Ha & He & Hsz).
  destruct (list_remove_spec s l1 l2 p e tl Hl Hd) as (s1 & tl' & E & Hl' & Hi & Hfr & Hs1 & Hc1).
  unfold atoms_remove. rewrite E. simpl.
  destruct (same_info_lookup _ _ p a Hi Ha) as (a' & -> & _ & Hsz').
  eexists. split; [done|]. split; [|done]. pose proof (total_nonneg l1). pose proof (total_nonneg l2).
  rewrite fmap_app, fmap_cons in Hd, Hf. rewrite !total_app in *. rewrite !length_app in *. simpl in *.
  unfold e_size in *. split_and!; simpl; [by exists tl'| | | |].
  - rewrite fmap_app. apply NoDup_app in Hd as (? & Hx & Hd). apply NoDup_cons in Hd as [? ?].
    apply NoDup_app. split_and!; [done| |done]. set_solver.
  - rewrite fmap_app, Hfr. apply Forall_app in Hf as [? Hf]. apply Forall_cons in Hf as [_ ?].
    by apply Forall_app.
  - rewrite Hc1, Hc, length_app, w64_small; simpl; lia.
  - rewrite Hs1, Hs, Hsz', Hsz, total_app, w64_small; lia.
Qed.

Lemma repr_lookup (s : atoms) l p e :
  repr s l -> (p, e) ∈ l -> exists a, heap s !! p = Some a /\ entry_of a = e /\ a_size a = e_size e.
Proof. intros ([tl Hl] & _) (l1 & l2 & ->)%list_elem_of_split. by eapply lseg_lookup. Qed.

Section create.
Context {L : Libu} {LM : LibuMem L}.

(** [atom_create] then [atoms_add]. *)
Lemma create_add_spec (s : atoms) l (id data : list byte) (arg : Z) :
  let e := mkEntry id data arg in
  repr s l -> (total l + e_size e < SIZE_MOD)%Z -> (Z.of_nat (length l) + 1 < SIZE_MOD)%Z ->
  exists s1 s2, atom_create s id data arg = (s1, Ok (fresh s)) /\ atoms_add s1 (fresh s) = Ok s2 /\
    repr s2 ((fresh s, e) :: l) /\
    (forall p a, heap s !! p = Some a -> p < fresh s ->
       exists a', heap s2 !! p = Some a' /\ entry_of a' = entry_of a /\ a_size a' = a_size a).
Proof.
  intros e ([tl Hl] & Hd & Hf & Hc & Hs) Hz Hz2. unfold atom_create. rewrite !u_alloc_ok. simpl.
  eexists. set (s1 := mkAtoms _ _ _ _ _).
  assert (fresh s ∉ l.*1) as Hnin.
  { intros Hin. rewrite Forall_forall in Hf. specialize (Hf _ Hin). lia. }
  destruct (list_insert_head_spec s1 (fresh s) (mkAtom id data (Z.of_nat (length data)) arg None None) l tl)
    as (s2 & tl' & E & Hl' & Hi & Hfr & Hs2 & Hc2); [by apply lseg_frame|done|by apply lookup_insert_eq|done|done|].
  unfold atoms_add. rewrite E. simpl.
  destruct (same_info_lookup _ _ (fresh s) _ Hi (lookup_insert_eq _ _ _)) as (a' & -> & _ & Hsz').
  eexists. split; [done|]. split; [done|]. split.
  - pose proof (total_nonneg l). unfold e_size in *. simpl in *. split_and!; simpl; [by exists tl'| | | |].
    + by constructor.
    + rewrite Hfr. constructor; [simpl; lia|]. eapply Forall_impl; [done|]. simpl. intros. lia.
    + rewrite Hc2, Hc, w64_small; simpl; lia.
    + rewrite Hs2, Hs, Hsz', w64_small; simpl; unfold e_size; simpl; lia.
  - intros p a Ha Hp. eapply same_info_lookup; [done|]. simpl. rewrite lookup_insert_ne by lia. done.
Qed.
End create.
