(* ===== verification/SesMem.v ===== *)
(** Sessions kept in memory: src/src/libpage/ses_mem.c over the atom list.

    The parent process owns the list; a child works on its own copy and tells the parent
    through ppc commands, which are modelled as the messages a child sends and the
    handlers the parent runs on them.  [pipc] says whether the process is a child. *)

From stdpp Require Import gmap.
From S2P Require Import Prelude Libu Atom.

Record session_opt := mkSo {
  so_atoms : atoms;
  max_count : Z;
  mem_limit : Z
}.

(** The ppc commands of the module with their payloads. *)
Inductive ppc_msg :=
| MSES_SAVE (mtime : Z) (filename data : list byte)
| MSES_DELOLD
| MSES_REMOVE (filename : list byte).

Definition SESSION_FILENAME_MAX_LENGTH : nat := N.to_nat 256.
(** [sizeof(enc_ses_mem_t)], with its padding *)
Definition ENC_SES_MEM_SIZE : nat := N.to_nat 280.

Definition set_atoms (so : session_opt) (s : atoms) : session_opt :=
  mkSo s (max_count so) (mem_limit so).

(** The search of [so_atom_delete_oldest]. *)
Fixpoint oldest_loop (s : atoms) (n i oldest : nat) : res nat :=
  match n with
  | 0 => Ok oldest
  | S n' =>
      p ← atoms_getn s i;
      match heap s !! p, heap s !! oldest with
      | Some a, Some o =>
          oldest_loop s n' (S i) (if decide (a_arg a <= a_arg o)%Z then p else oldest)
      | _, _ => Fault
      end
  end.

(** The atom leaves the list; it is not freed. *)
Definition so_atom_delete_oldest (so : session_opt) : session_opt * res unit :=
  let s := so_atoms so in
  let count := atoms_count s in
  if decide (count = 0)%Z then (so, Fail) else
  match (o ← atoms_getn s 0; o ← oldest_loop s (Z.to_nat (count - 1)) 1 o; atoms_remove s o) with
  | Ok s' => (set_atoms so s', Ok tt)
  | Fail => (so, Fail)
  | Fault => (so, Fault)
  | Timeout => (so, Timeout)
  end.

Definition so_atom_remove (so : session_opt) (id : list byte) : session_opt * res unit :=
  match atoms_get (so_atoms so) id with
  | Ok p =>
      match atoms_remove (so_atoms so) p with
      | Ok s => (set_atoms so (atom_free s p), Ok tt)
      | Fail => (so, Fail)
      | Fault => (so, Fault)
      | Timeout => (so, Timeout)
      end
  | Fail => (so, Ok tt)
  | Fault => (so, Fault)
  | Timeout => (so, Timeout)
  end.

Section ses_mem.
Context {L : Libu}.
Variable pipc : bool.
Variable ppc_write : ppc_msg -> bool.

(** The messages sent so far come along. *)
Definition session_delete_oldest (so : session_opt) (sent : list ppc_msg)
    : session_opt * list ppc_msg * res unit :=
  if pipc then
    if ppc_write MSES_DELOLD then
      let '(so', r) := so_atom_delete_oldest so in (so', sent ++ [MSES_DELOLD], r)
    else (so, sent, Fail)
  else let '(so', r) := so_atom_delete_oldest so in (so', sent, r).

(** The [for] of [so_atom_add]; [old] is the atom to be replaced. *)
Fixpoint mem_loop (fuel : nat) (so : session_opt) (sent : list ppc_msg) (size : Z) (old : option nat)
    : session_opt * list ppc_msg * res unit :=
  match fuel with
  | 0 => (so, sent, Timeout)
  | S fuel' =>
      match (match old with
             | None => Some 0%Z
             | Some p => a_size <$> heap (so_atoms so) !! p
             end) with
      | None => (so, sent, Fault)
      | Some old_size =>
          let new_size := w64 (atoms_size (so_atoms so) + size - old_size) in
          if decide (atoms_count (so_atoms so) <> 0 /\ mem_limit so < new_size)%Z then
            let '(so', sent', r) := session_delete_oldest so sent in
            match r with
            | Ok _ => mem_loop fuel' so' sent' size old
            | Fault => (so', sent', Fault)
            | Timeout => (so', sent', Timeout)
            | Fail => (so', sent', Fail)
            end
          else (so, sent, Ok tt)
      end
  end.

(** The two limits of [so_atom_add]; there is room for [fresh] atoms at most, so that
    many turns of the loop are enough. *)
Definition limit_count (so : session_opt) (sent : list ppc_msg) (old_found : Z)
    : session_opt * list ppc_msg * res unit :=
  if decide (max_count so <> 0 /\ max_count so <= w64 (atoms_count (so_atoms so) - old_found))%Z
  then session_delete_oldest so sent else (so, sent, Ok tt).

Definition limit_memory (so : session_opt) (sent : list ppc_msg) (size : Z) (old : option nat)
    : session_opt * list ppc_msg * res unit :=
  if decide (mem_limit so = 0)%Z then (so, sent, Ok tt)
  else if decide (mem_limit so < size)%Z then (so, sent, Fail)
  else mem_loop (S (fresh (so_atoms so))) so sent size old.

(** From the creation of the new atom on. *)
Definition add_replace (so : session_opt) (id buf : list byte) (arg : Z) (old : option nat)
    : session_opt * res unit :=
  let '(s1, r) := atom_create (so_atoms so) id buf arg in
  match r with
  | Ok p =>
      match atoms_add s1 p with
      | Ok s2 =>
          match old with
          | None => (set_atoms so s2, Ok tt)
          | Some q =>
              match atoms_remove s2 q with
              | Ok s3 => (set_atoms so (atom_free s3 q), Ok tt)
              | Fail => (set_atoms so (atom_free s2 p), Fail)
              | Fault => (set_atoms so s2, Fault)
              | Timeout => (set_atoms so s2, Timeout)
              end
          end
      | Fail => (set_atoms so (atom_free s1 p), Fail)
      | Fault => (set_atoms so s1, Fault)
      | Timeout => (set_atoms so s1, Timeout)
      end
  | Fail => (set_atoms so s1, Fail)
  | Fault => (set_atoms so s1, Fault)
  | Timeout => (set_atoms so s1, Timeout)
  end.

Definition so_atom_add (so : session_opt) (sent : list ppc_msg) (id buf : list byte) (arg : Z)
    : session_opt * list ppc_msg * res unit :=
  let size := Z.of_nat (length buf) in
  match atoms_get (so_atoms so) id with
  | Fault => (so, sent, Fault)
  | Timeout => (so, sent, Timeout)
  | found =>
      let old := match found with Ok p => Some p | _ => None end in
      let old_found := match old with Some _ => 1%Z | None => 0%Z end in
      let '(so1, sent1, r1) := limit_count so sent old_found in
      match r1 with
      | Ok _ =>
          let '(so2, sent2, r2) := limit_memory so1 sent1 size old in
          match r2 with
          | Ok _ => let '(so3, r3) := add_replace so2 id buf arg old in (so3, sent2, r3)
          | Fault => (so2, sent2, Fault)
          | Timeout => (so2, sent2, Timeout)
          | Fail => (so2, sent2, Fail)
          end
      | Fault => (so1, sent1, Fault)
      | Timeout => (so1, sent1, Timeout)
      | Fail => (so1, sent1, Fail)
      end
  end.

(** [session_mem_add]; [now] is [time(0)]. *)
Definition session_mem_add (now : Z) (so : session_opt) (sent : list ppc_msg)
    (filename buf : list byte) (mtime : Z) : session_opt * list ppc_msg * res unit :=
  if pipc then
    if u_alloc (length buf + ENC_SES_MEM_SIZE) then
      if decide (SESSION_FILENAME_MAX_LENGTH < length filename) then (so, sent, Fail) else
      let m := MSES_SAVE now (u_strlcpy filename SESSION_FILENAME_MAX_LENGTH).1 buf in
      if ppc_write m then so_atom_add so (sent ++ [m]) filename buf mtime
      else (so, sent, Fail)
    else (so, sent, Fail)
  else so_atom_add so sent filename buf mtime.

Definition session_mem_remove (so : session_opt) (sent : list ppc_msg) (filename : list byte)
    : session_opt * list ppc_msg * res unit :=
  if pipc then
    if ppc_write (MSES_REMOVE filename) then
      let '(so', r) := so_atom_remove so filename in (so', sent ++ [MSES_REMOVE filename], r)
    else (so, sent, Fail)
  else let '(so', r) := so_atom_remove so filename in (so', sent, r).
End ses_mem.

(** The parent's handlers: [session_cmd_save], [session_cmd_delold], [session_cmd_remove]. *)
Definition session_cmd {L : Libu} (so : session_opt) (m : ppc_msg) : session_opt :=
  match m with
  | MSES_SAVE mtime filename data =>
      (so_atom_add false (fun _ => true) so [] filename data mtime).1.1
  | MSES_DELOLD => (so_atom_delete_oldest so).1
  | MSES_REMOVE filename => (so_atom_remove so filename).1
  end.

(** What [session_mem_load] finds outside the prefork model: data and mtime. *)
Definition session_mem_load (so : session_opt) (filename : list byte) : res (list byte * Z) :=
  if decide (filename = []) then Fail else
  match atoms_get (so_atoms so) filename with
  | Ok p => match heap (so_atoms so) !! p with
            | Some a => Ok (a_data a, a_arg a)
            | None => Fault
            end
  | Fail => Fail
  | Fault => Fault
  | Timeout => Timeout
  end.

(** ** The oldest session *)

Definition arg_of (pe : nat * entry) : Z := e_arg pe.2.

Fixpoint pick (best : nat * entry) (l : list (nat * entry)) : nat * entry :=
  match l with
  | [] => best
  | x :: l' => pick (if decide (arg_of x <= arg_of best)%Z then x else best) l'
  end.

Definition is_oldest (pe : nat * entry) (l : list (nat * entry)) : Prop :=
  pe ∈ l /\ forall x, x ∈ l -> (arg_of pe <= arg_of x)%Z.

Lemma pick_oldest (l : list (nat * entry)) (b : nat * entry) : is_oldest (pick b l) (b :: l).
Proof.
  revert b. induction l as [|x l IH]; intros b; simpl.
  - split; [set_solver|]. intros y ->%list_elem_of_singleton. lia.
  - specialize (IH (if decide (arg_of x <= arg_of b)%Z then x else b)) as [H1 H2].
    split; [case_decide; set_solver|]. intros y Hy. apply elem_of_cons in Hy as [->|Hy].
    + pose proof (H2 (if decide (arg_of x <= arg_of b)%Z then x else b) ltac:(set_solver)).
      case_decide; lia.
    + apply elem_of_cons in Hy as [->|Hy]; [|apply H2; set_solver].
      pose proof (H2 (if decide (arg_of x <= arg_of b)%Z then x else b) ltac:(set_solver)).
      case_decide; lia.
Qed.

Lemma oldest_loop_spec (s : atoms) (l : list (nat * entry)) :
  repr s l -> forall n i best, n + i = length l -> best ∈ l ->
  oldest_loop s n i best.1 = Ok (pick best (drop i l)).1.
Proof.
  intros Hr n. induction n as [|n IH]; intros i best Hn Hb; simpl.
  - by rewrite drop_ge by lia.
  - rewrite (atoms_getn_spec s l i Hr). destruct (l !! i) as [x|] eqn:Ex;
      [|apply lookup_ge_None in Ex; lia]. simpl.
    assert (x ∈ l) as Hx by (by eapply list_elem_of_lookup_2).
    destruct x as [p e], best as [q f]. simpl.
    destruct (repr_lookup s l p e Hr Hx) as (a & -> & <- & _).
    destruct (repr_lookup s l q f Hr Hb) as (o & -> & <- & _).
    rewrite (drop_S l _ i Ex). simpl. unfold arg_of. simpl. case_decide.
    + apply (IH (S i) (p, entry_of a)); [lia|done].
    + apply (IH (S i) (q, entry_of o)); [lia|done].
Qed.

(** Lists small enough for [size_t]. *)
Definition fits (l : list (nat * entry)) : Prop :=
  (total l < SIZE_MOD)%Z /\ (Z.of_nat (length l) < SIZE_MOD)%Z.

Lemma delete_oldest_spec (so : session_opt) (l : list (nat * entry)) :
  repr (so_atoms so) l -> fits l -> l <> [] ->
  exists l1 pe l2 s', l = l1 ++ pe :: l2 /\ (forall x, x ∈ l -> (arg_of pe <= arg_of x)%Z) /\
    so_atom_delete_oldest so = (set_atoms so s', Ok tt) /\ repr s' (l1 ++ l2) /\
    same_info (heap (so_atoms so)) (heap s') /\ fresh s' = fresh (so_atoms so).
Proof.
  intros Hr [Hz1 Hz2] Hl. pose proof Hr as (_ & _ & _ & Hc & _).
  destruct l as [|x l]; [done|]. unfold so_atom_delete_oldest, atoms_count. rewrite Hc.
  rewrite decide_False by (simpl; lia). rewrite (atoms_getn_spec _ _ 0 Hr). simpl.
  replace (Z.to_nat _) with (length l) by lia.
  rewrite (oldest_loop_spec _ _ Hr) by (simpl; lia || set_solver). simpl. rewrite drop_0.
  destruct (pick_oldest l x) as [Hin Hmin].
  apply list_elem_of_split in Hin as (l1 & l2 & E). destruct (pick x l) as [p e].
  rewrite E in Hr, Hz1, Hz2. simpl.
  destruct (atoms_remove_spec _ _ _ _ _ Hr Hz1 Hz2) as (s' & -> & H1 & H2 & H3).
  exists l1, (p, e), l2, s'. by split_and!.
Qed.

(** ** Eviction *)

(** [evicted l gone left]: taking the oldest session out again and again. *)
Inductive evicted : list (nat * entry) -> list (nat * entry) -> list (nat * entry) -> Prop :=
| ev_none l : evicted l [] l
| ev_one l1 pe l2 gone left :
    (forall x, x ∈ l1 ++ pe :: l2 -> (arg_of pe <= arg_of x)%Z) ->
    evicted (l1 ++ l2) gone left -> evicted (l1 ++ pe :: l2) (pe :: gone) left.

Lemma evicted_trans l g1 m g2 r : evicted l g1 m -> evicted m g2 r -> evicted l (g1 ++ g2) r.
Proof. induction 1; simpl; [done|]. intros. constructor; auto. Qed.

(** Who stays is in the old order, and is at least as recent as all who went. *)
Lemma evicted_split l gone left :
  evicted l gone left -> l ≡ₚ gone ++ left /\ sublist left l /\
    forall g x, g ∈ gone -> x ∈ left -> (arg_of g <= arg_of x)%Z.
Proof.
  induction 1 as [l|l1 pe l2 gone left Hmin _ (IH1 & IH2 & IH3)].
  - split_and!; [done|done|set_solver].
  - split_and!.
    + rewrite <- Permutation_middle, IH1. done.
    + etrans; [exact IH2|]. by apply sublist_app, sublist_cons.
    + intros g x Hg Hx. apply elem_of_cons in Hg as [->|Hg]; [|by apply IH3].
      apply Hmin. assert (x ∈ l1 ++ l2) as Hx2 by (rewrite IH1; set_solver). set_solver.
Qed.

Lemma fits_remove (l1 l2 : list (nat * entry)) (pe : nat * entry) :
  fits (l1 ++ pe :: l2) -> fits (l1 ++ l2).
Proof.
  unfold fits. rewrite !total_app, !length_app. simpl. unfold e_size. lia.
Qed.

Lemma total_remove (l1 l2 : list (nat * entry)) (pe : nat * entry) :
  (total (l1 ++ l2) <= total (l1 ++ pe :: l2))%Z /\ length (l1 ++ pe :: l2) = S (length (l1 ++ l2)).
Proof. rewrite !total_app, !length_app. simpl. unfold e_size. lia. Qed.

Lemma lookup_id_None (id : list byte) (l k : list (nat * entry)) :
  (forall x, x ∈ k -> x ∈ l) -> lookup_id id l = None -> lookup_id id k = None.
Proof.
  intros Hs H. destruct (lookup_id id k) as [x|] eqn:E; [|done].
  apply find_some in E as [Hin He]. apply list_elem_of_In in Hin.
  assert (streq id (e_id x.2) = false) as Hx; [|congruence].
  apply (find_none _ _ H). by apply list_elem_of_In, Hs.
Qed.

Section add_spec.
Context {L : Libu} {LM : LibuMem L}.
Variable pipc : bool.
Variable ppc_write : ppc_msg -> bool.
Hypothesis ppc_ok : forall m, ppc_write m = true.

Definition delold_msgs (n : nat) : list ppc_msg := if pipc then replicate n MSES_DELOLD else [].

Lemma session_delete_oldest_spec (so : session_opt) (sent : list ppc_msg) (l : list (nat * entry)) :
  repr (so_atoms so) l -> fits l -> l <> [] ->
  exists l1 pe l2 s', l = l1 ++ pe :: l2 /\ (forall x, x ∈ l -> (arg_of pe <= arg_of x)%Z) /\
    session_delete_oldest pipc ppc_write so sent = (set_atoms so s', sent ++ delold_msgs 1, Ok tt) /\
    repr s' (l1 ++ l2) /\ same_info (heap (so_atoms so)) (heap s') /\ fresh s' = fresh (so_atoms so).
Proof.
  intros Hr Hf Hl.
  destruct (delete_oldest_spec so l Hr Hf Hl) as (l1 & pe & l2 & s' & E & Hm & Ed & H1 & H2 & H3).
  exists l1, pe, l2, s'. split_and!; try done. unfold session_delete_oldest, delold_msgs.
  rewrite ppc_ok, Ed. destruct pipc; [done|]. by rewrite app_nil_r.
Qed.

Lemma delold_msgs_app (m n : nat) : delold_msgs m ++ delold_msgs n = delold_msgs (m + n).
Proof. unfold delold_msgs. destruct pipc; [|done]. by rewrite replicate_add. Qed.

Lemma mem_loop_spec (size : Z) : (0 <= size)%Z -> forall fuel so sent l,
  repr (so_atoms so) l -> fits l -> (total l + size < SIZE_MOD)%Z -> (size <= mem_limit so)%Z ->
  length l < fuel ->
  exists s' gone left, mem_loop pipc ppc_write fuel so sent size None
      = (set_atoms so s', sent ++ delold_msgs (length gone), Ok tt) /\
    repr s' left /\ evicted l gone left /\ (total left + size <= mem_limit so)%Z /\
    fresh s' = fresh (so_atoms so) /\ ((total l + size <= mem_limit so)%Z -> gone = []).
Proof.
  intros Hs fuel. induction fuel as [|fuel IH]; intros so sent l Hr Hf Hz Hsz Hl; [lia|]. simpl.
  pose proof Hr as (_ & _ & _ & Hc & Ht). unfold atoms_size, atoms_count. rewrite Hc, Ht.
  pose proof (total_nonneg l). rewrite w64_small by lia. rewrite Z.sub_0_r.
  case_decide as Hd.
  - assert (l <> []) as Hne by (intros ->; simpl in Hd; lia).
    destruct (session_delete_oldest_spec so sent l Hr Hf Hne) as (l1 & pe & l2 & s' & -> & Hm & -> & H1 & H2 & H3).
    destruct (total_remove l1 l2 pe) as [Ht1 Ht2].
    destruct (IH (set_atoms so s') (sent ++ delold_msgs 1) (l1 ++ l2)) as (s'' & gone & left & E & A1 & A2 & A3 & A4 & A5);
      [done|by eapply fits_remove|lia|done|lia|].
    rewrite E. exists s'', (pe :: gone), left. split.
    { rewrite <- app_assoc, delold_msgs_app. done. }
    split_and!; [done|by constructor|done|simpl in A4; congruence|]. intros. lia.
  - exists (so_atoms so), [], l. split.
    { unfold delold_msgs. simpl. destruct pipc; rewrite app_nil_r; by destruct so. }
    split_and!; [done|constructor| |done|done].
    destruct (decide (length l = 0)) as [H0|]; [|lia].
    destruct l; [|done]. simpl. lia.
Qed.

Lemma delold_none (so : session_opt) (sent : list ppc_msg) (l : list (nat * entry)) :
  (so, sent, Ok tt) = (set_atoms so (so_atoms so), sent ++ delold_msgs (length (@nil (nat * entry))), Ok tt).
Proof. unfold delold_msgs. simpl. destruct pipc; rewrite app_nil_r; by destruct so. Qed.

Lemma limit_count_spec (so : session_opt) (sent : list ppc_msg) (l : list (nat * entry)) :
  repr (so_atoms so) l -> fits l ->
  (max_count so = 0 \/ Z.of_nat (length l) <= max_count so)%Z ->
  exists s1 gone left, limit_count pipc ppc_write so sent 0
      = (set_atoms so s1, sent ++ delold_msgs (length gone), Ok tt) /\
    repr s1 left /\ evicted l gone left /\ fits left /\ (total left <= total l)%Z /\
    length left <= length l /\
    (max_count so <> 0 -> Z.of_nat (length left) + 1 <= max_count so)%Z /\
    ((max_count so = 0 \/ Z.of_nat (length l) < max_count so)%Z -> gone = [] /\ left = l) /\
    (max_count so = Z.of_nat (length l) -> max_count so <> 0%Z -> length gone = 1).
Proof.
  intros Hr Hf Hmc. pose proof Hr as (_ & _ & _ & Hc & _). pose proof Hf as [_ Hf2].
  unfold limit_count, atoms_count. rewrite Hc, Z.sub_0_r, w64_small by lia.
  case_decide as Hd.
  - assert (l <> []) as Hne by (intros ->; simpl in Hd; lia).
    destruct (session_delete_oldest_spec so sent l Hr Hf Hne) as (l1 & pe & l2 & s' & -> & Hm & -> & H1 & H2 & H3).
    destruct (total_remove l1 l2 pe) as [Ht1 Ht2].
    exists s', [pe], (l1 ++ l2). split_and!; try done; try lia.
    + constructor; [done|constructor].
    + by eapply fits_remove.
  - exists (so_atoms so), [], l. split; [by apply delold_none|].
    split_and!; try done; try lia. constructor.
Qed.

Lemma limit_memory_spec (so : session_opt) (sent : list ppc_msg) (size : Z) (l : list (nat * entry)) :
  repr (so_atoms so) l -> fits l -> (0 <= size)%Z -> (total l + size < SIZE_MOD)%Z ->
  (mem_limit so = 0 \/ size <= mem_limit so)%Z ->
  exists s2 gone left, limit_memory pipc ppc_write so sent size None
      = (set_atoms so s2, sent ++ delold_msgs (length gone), Ok tt) /\
    repr s2 left /\ evicted l gone left /\
    (mem_limit so <> 0 -> total left + size <= mem_limit so)%Z /\
    ((mem_limit so = 0 \/ total l + size <= mem_limit so)%Z -> gone = []).
Proof.
  intros Hr Hf Hs Hz Hml. unfold limit_memory. case_decide as H0.
  - exists (so_atoms so), [], l. split; [by apply delold_none|]. split_and!; try done. constructor.
  - rewrite decide_False by lia. pose proof (repr_length _ _ Hr).
    destruct (mem_loop_spec size Hs (S (fresh (so_atoms so))) so sent l)
      as (s2 & gone & left & E & A1 & A2 & A3 & A4 & A5); [done|done|done|lia|lia|].
    rewrite E. exists s2, gone, left. split_and!; try done. intros [?|?]; [done|by apply A5].
Qed.

Lemma evicted_total l gone left : evicted l gone left -> (total left <= total l)%Z.
Proof.
  induction 1 as [|l1 pe l2 g r _ _ IH]; [done|]. pose proof (total_remove l1 l2 pe). lia.
Qed.

Lemma so_atom_add_new_spec (so : session_opt) (sent : list ppc_msg) (l : list (nat * entry))
    (id buf : list byte) (arg : Z) :
  let e := mkEntry id buf arg in
  repr (so_atoms so) l -> fits l -> (total l + e_size e < SIZE_MOD)%Z ->
  (Z.of_nat (length l) + 1 < SIZE_MOD)%Z ->
  lookup_id id l = None ->
  (max_count so = 0 \/ Z.of_nat (length l) <= max_count so)%Z ->
  (mem_limit so = 0 \/ e_size e <= mem_limit so)%Z ->
  exists s' gone left p,
    so_atom_add pipc ppc_write so sent id buf arg
      = (set_atoms so s', sent ++ delold_msgs (length gone), Ok tt) /\
    repr s' ((p, e) :: left) /\ evicted l gone left /\
    (max_count so <> 0 -> Z.of_nat (length left) + 1 <= max_count so)%Z /\
    (mem_limit so <> 0 -> total left + e_size e <= mem_limit so)%Z /\
    ((max_count so = 0 \/ Z.of_nat (length l) < max_count so)%Z ->
     (mem_limit so = 0 \/ total l + e_size e <= mem_limit so)%Z -> gone = []) /\
    (mem_limit so = 0%Z -> max_count so = Z.of_nat (length l) -> max_count so <> 0%Z -> length gone = 1).
Proof.
  intros e Hr Hf Hz Hz2 Hid Hmc Hml. unfold so_atom_add. rewrite (atoms_get_spec _ _ _ Hr), Hid.
  destruct (limit_count_spec so sent l Hr Hf Hmc) as (s1 & g1 & m1 & -> & R1 & E1 & F1 & T1 & L1 & C1 & G1 & G2).
  assert (0 <= e_size e)%Z as He by (unfold e_size; lia).
  destruct (limit_memory_spec (set_atoms so s1) (sent ++ delold_msgs (length g1)) (e_size e) m1)
    as (s2 & g2 & m2 & E & R2 & E2 & M2 & G3); [done|done|done|lia|done|].
  change (Z.of_nat (length buf)) with (e_size e). rewrite E.
  destruct (evicted_split _ _ _ E2) as (_ & S2 & _). pose proof (evicted_total _ _ _ E2) as T2.
  pose proof (sublist_length _ _ S2) as L2. unfold add_replace. simpl (so_atoms _).
  destruct (create_add_spec s2 m2 id buf arg R2) as (s3 & s4 & -> & -> & R4 & _); [unfold e in *; lia|lia|].
  exists s4, (g1 ++ g2), m2, (fresh s2). split.
  { rewrite <- app_assoc, delold_msgs_app, length_app. done. }
  split_and!; try done.
  - by eapply evicted_trans.
  - intros H. specialize (C1 H). lia.
  - intros Ha Hb. destruct (G1 Ha) as [-> ->]. by rewrite G3.
  - intros Ha Hb Hc'. rewrite length_app, G3 by auto. simpl. rewrite G2 by done. lia.
Qed.
End add_spec.

(** ** Removal and replacement *)

Lemma node_is_delete h q pe prev next :
  q <> pe.1 -> node_is (delete q h) pe prev next <-> node_is h pe prev next.
Proof. intros H. unfold node_is. by rewrite lookup_delete_ne. Qed.

Lemma repr_free (s : atoms) (l : list (nat * entry)) (q : nat) :
  repr s l -> (q ∉ l.*1) -> repr (atom_free s q) l.
Proof.
  intros ([tl Hl] & Hrest) Hq. split; [|done]. exists tl. simpl. revert Hl.
  generalize (lh_first s) as cur. generalize (@None nat) at 1 3 as prev. clear Hrest.
  induction l as [|pe l IH]; intros prev cur; simpl; [done|]. rewrite fmap_cons in Hq.
  intros (-> & next & Hn & Hl). split; [done|]. exists next.
  split; [apply node_is_delete; [set_solver|done]|]. apply IH; [set_solver|done].
Qed.

Lemma lookup_id_split (id : list byte) (l : list (nat * entry)) (pe : nat * entry) :
  lookup_id id l = Some pe ->
  exists l1 l2, l = l1 ++ pe :: l2 /\ lookup_id id l1 = None /\ e_id pe.2 = id.
Proof.
  induction l as [|x l IH]; [done|]. unfold lookup_id in *. simpl.
  destruct (streq id (e_id x.2)) eqn:E.
  - intros [= ->]. exists [], l. apply streq_eq in E. by split_and!.
  - intros H. destruct (IH H) as (l1 & l2 & -> & H1 & H2). exists (x :: l1), l2.
    split_and!; [done| |done]. simpl. by rewrite E.
Qed.

Lemma remove_free_spec (s : atoms) l1 q e l2 :
  repr s (l1 ++ (q, e) :: l2) -> fits (l1 ++ (q, e) :: l2) ->
  exists s', atoms_remove s q = Ok s' /\ repr (atom_free s' q) (l1 ++ l2).
Proof.
  intros Hr [Hz1 Hz2]. destruct (atoms_remove_spec _ _ _ _ _ Hr Hz1 Hz2) as (s' & E & H1 & _).
  exists s'. split; [done|]. apply repr_free; [done|]. destruct Hr as (_ & Hd & _).
  rewrite fmap_app, fmap_cons in Hd. rewrite fmap_app.
  apply NoDup_app in Hd as (_ & Hx & Hd). apply NoDup_cons in Hd as [Hd _]. simpl in *.
  intros [Hin|Hin]%elem_of_app; [|done]. apply (Hx q Hin). set_solver.
Qed.

Lemma session_mem_load_hd (so : session_opt) (s : atoms) p id buf arg l :
  repr s ((p, mkEntry id buf arg) :: l) -> id <> [] ->
  session_mem_load (set_atoms so s) id = Ok (buf, arg).
Proof.
  intros Hr Hid. unfold session_mem_load. rewrite decide_False by done. simpl.
  rewrite (atoms_get_spec _ _ _ Hr). unfold lookup_id. simpl.
  rewrite (proj2 (streq_eq id id) eq_refl). simpl.
  destruct (repr_lookup _ _ p (mkEntry id buf arg) Hr) as (a & -> & He & _); [set_solver|].
  injection He as _ -> ->. done.
Qed.

Section ses_claims.
Context {L : Libu} {LM : LibuMem L}.
Variable pipc : bool.
Variable ppc_write : ppc_msg -> bool.
Hypothesis ppc_ok : forall m, ppc_write m = true.

(** C35: saving a session under a new name succeeds and the session is found again; the
    sessions removed to make room are the oldest ones, none is removed without need,
    and afterwards both the count limit and the memory limit hold (a zero limit is no
    limit).  A child sends the parent one deletion for each session it removed. *)
Theorem session_save_new (so : session_opt) (sent : list ppc_msg) (l : list (nat * entry))
    (id buf : list byte) (arg : Z) :
  let e := mkEntry id buf arg in
  repr (so_atoms so) l -> fits l -> (total l + e_size e < SIZE_MOD)%Z ->
  (Z.of_nat (length l) + 1 < SIZE_MOD)%Z -> id <> [] -> lookup_id id l = None ->
  (max_count so = 0 \/ Z.of_nat (length l) <= max_count so)%Z ->
  (mem_limit so = 0 \/ e_size e <= mem_limit so)%Z ->
  exists s' gone left p,
    so_atom_add pipc ppc_write so sent id buf arg
      = (set_atoms so s', sent ++ delold_msgs pipc (length gone), Ok tt) /\
    repr s' ((p, e) :: left) /\ session_mem_load (set_atoms so s') id = Ok (buf, arg) /\
    l ≡ₚ gone ++ left /\ sublist left l /\
    (forall g x, g ∈ gone -> x ∈ left -> arg_of g <= arg_of x)%Z /\
    (max_count so <> 0 -> Z.of_nat (S (length left)) <= max_count so)%Z /\
    (mem_limit so <> 0 -> total left + e_size e <= mem_limit so)%Z /\
    ((max_count so = 0 \/ Z.of_nat (length l) < max_count so)%Z ->
     (mem_limit so = 0 \/ total l + e_size e <= mem_limit so)%Z -> gone = []).
Proof.
  intros e Hr Hf Hz Hz2 Hne Hid Hmc Hml.
  destruct (so_atom_add_new_spec pipc ppc_write ppc_ok so sent l id buf arg Hr Hf Hz Hz2 Hid Hmc Hml)
    as (s' & gone & left & p & E & R & Ev & C1 & M1 & G & _).
  destruct (evicted_split _ _ _ Ev) as (P & S & O).
  exists s', gone, left, p. split_and!; try done.
  - by eapply session_mem_load_hd.
  - intros H. specialize (C1 H). lia.
Qed.

Lemma so_atom_add_again (so : session_opt) (sent : list ppc_msg) (l1 l2 : list (nat * entry))
    (q : nat) (eo : entry) (id buf : list byte) (arg : Z) :
  let e := mkEntry id buf arg in
  let l := l1 ++ (q, eo) :: l2 in
  repr (so_atoms so) l -> (total l + e_size e < SIZE_MOD)%Z ->
  (Z.of_nat (length l) + 1 < SIZE_MOD)%Z -> id <> [] ->
  lookup_id id l1 = None -> e_id eo = id ->
  (max_count so = 0 \/ Z.of_nat (length l) <= max_count so)%Z ->
  (mem_limit so = 0 \/ total l + e_size e - e_size eo <= mem_limit so)%Z ->
  exists s' p,
    so_atom_add pipc ppc_write so sent id buf arg = (set_atoms so s', sent, Ok tt) /\
    repr s' ((p, e) :: l1 ++ l2) /\ heap s' !! q = None /\
    session_mem_load (set_atoms so s') id = Ok (buf, arg).
Proof.
  intros e l Hr Hz Hz2 Hne Hid Heo Hmc Hml. pose proof Hr as (_ & _ & _ & Hc & Ht).
  pose proof (total_nonneg l) as Hp. assert (0 <= e_size e)%Z as He by (unfold e_size; lia).
  assert (e_size eo <= total l /\ 0 <= e_size eo)%Z as Heo2.
  { unfold l. rewrite total_app. simpl. pose proof (total_nonneg l1). pose proof (total_nonneg l2).
    unfold e_size. lia. }
  assert (e_size e <= total l + e_size e - e_size eo)%Z by lia.
  unfold so_atom_add. rewrite (atoms_get_spec _ _ _ Hr).
  assert (lookup_id id l = Some (q, eo)) as ->.
  { unfold l. clear -Hid Heo. unfold lookup_id in *. induction l1 as [|x l1 IH]; simpl in *.
    - by rewrite (proj2 (streq_eq id (e_id eo)) (eq_sym Heo)).
    - destruct (streq id (e_id x.2)); [done|]. by apply IH. }
  cbn [fst]. unfold limit_count, atoms_count.
  rewrite Hc, w64_small by (unfold l in *; rewrite length_app in *; simpl in *; lia).
  rewrite (decide_False (P := (max_count so <> 0 /\ _)%Z)) by lia.
  destruct (repr_lookup _ _ q eo Hr) as (a & Ha & _ & Hsz); [unfold l; set_solver|].
  assert (limit_memory pipc ppc_write so sent (Z.of_nat (length buf)) (Some q) = (so, sent, Ok tt)) as ->.
  { unfold limit_memory. case_decide; [done|]. change (Z.of_nat (length buf)) with (e_size e).
    rewrite decide_False by lia. cbn [mem_loop]. simpl. rewrite Ha. simpl. rewrite Hsz.
    unfold atoms_size. rewrite Ht, w64_small by lia. by rewrite decide_False by lia. }
  unfold add_replace. destruct (create_add_spec (so_atoms so) l id buf arg Hr) as (s3 & s4 & -> & -> & R4 & _);
    [unfold e in *; lia|lia|].
  destruct (remove_free_spec s4 ((fresh (so_atoms so), e) :: l1) q eo l2 R4) as (s5 & -> & R5).
  { split; simpl; unfold l in *; rewrite ?total_app, ?length_app in *; simpl in *; lia. }
  eexists _, _. split; [done|]. split; [exact R5|]. split; [apply lookup_delete_eq|].
  by eapply session_mem_load_hd.
Qed.

(** Saving a session again, when it fits without removing others, replaces it: the
    list holds the new data in place of the old, the old atom is freed, nothing else
    changes. *)
Theorem session_save_again (so : session_opt) (sent : list ppc_msg) (l1 l2 : list (nat * entry))
    (q : nat) (eo : entry) (id buf : list byte) (arg : Z) :
  let e := mkEntry id buf arg in
  let l := l1 ++ (q, eo) :: l2 in
  repr (so_atoms so) l -> (total l + e_size e < SIZE_MOD)%Z ->
  (Z.of_nat (length l) + 1 < SIZE_MOD)%Z -> id <> [] ->
  lookup_id id l1 = None -> e_id eo = id ->
  (max_count so = 0 \/ Z.of_nat (length l) <= max_count so)%Z ->
  (mem_limit so = 0 \/ total l + e_size e - e_size eo <= mem_limit so)%Z ->
  exists s' p,
    so_atom_add pipc ppc_write so sent id buf arg = (set_atoms so s', sent, Ok tt) /\
    repr s' ((p, e) :: l1 ++ l2) /\ heap s' !! q = None /\
    session_mem_load (set_atoms so s') id = Ok (buf, arg).
Proof. apply so_atom_add_again. Qed.
End ses_claims.

(** Removing a session takes out the first atom with its name and frees it, or
    changes nothing when there is none. *)
Theorem session_remove_spec (so : session_opt) (l : list (nat * entry)) (id : list byte) :
  repr (so_atoms so) l -> fits l ->
  match lookup_id id l with
  | None => so_atom_remove so id = (so, Ok tt)
  | Some (q, eo) =>
      exists l1 l2 s', l = l1 ++ (q, eo) :: l2 /\ lookup_id id l1 = None /\ e_id eo = id /\
        so_atom_remove so id = (set_atoms so s', Ok tt) /\ repr s' (l1 ++ l2) /\ heap s' !! q = None
  end.
Proof.
  intros Hr Hf. unfold so_atom_remove. rewrite (atoms_get_spec _ _ _ Hr).
  destruct (lookup_id id l) as [[q eo]|] eqn:E; [|done].
  destruct (lookup_id_split _ _ _ E) as (l1 & l2 & -> & H1 & H2). simpl in *.
  destruct (remove_free_spec _ _ _ _ _ Hr Hf) as (s' & -> & R).
  exists l1, l2, (atom_free s' q). split_and!; try done. apply lookup_delete_eq.
Qed.

(** In a child, saving a new session when the count limit is reached costs the
    parent one session too many: the save command already makes the parent drop its
    oldest session, and the deletion the child sends after it drops another.  With a
    limit of one the parent loses the session just saved. *)
Theorem session_child_double_delete {L : Libu} {LS : LibuSpec L} {LM : LibuMem L}
    (so : session_opt) (l : list (nat * entry)) (id buf : list byte) (now mtime : Z) :
  repr (so_atoms so) l -> fits l -> (total l + Z.of_nat (length buf) < SIZE_MOD)%Z ->
  (Z.of_nat (length l) + 1 < SIZE_MOD)%Z -> lookup_id id l = None ->
  mem_limit so = 0%Z -> max_count so = Z.of_nat (length l) -> l <> [] -> length id < 256 ->
  exists child sent parent,
    session_mem_add true (fun _ => true) now so [] id buf mtime = (child, sent, Ok tt) /\
    foldl session_cmd so sent = parent /\
    atoms_count (so_atoms child) = max_count so /\
    atoms_count (so_atoms parent) = (max_count so - 1)%Z /\
    (max_count so = 1%Z -> session_mem_load parent id = Fail).
Proof.
  intros Hr Hf Hz Hz2 Hid Hml Hmc Hne Hlen.
  assert (max_count so <> 0%Z) as Hm0 by (destruct l; [done|]; simpl in *; lia).
  assert (forall pipc arg, exists s' x left p, so_atom_add pipc (fun _ => true) so
      (if pipc then [MSES_SAVE now id buf] else []) id buf arg
      = (set_atoms so s', (if pipc then [MSES_SAVE now id buf] else []) ++ delold_msgs pipc 1, Ok tt) /\
      repr s' ((p, mkEntry id buf arg) :: left) /\ l ≡ₚ x :: left /\ fits ((p, mkEntry id buf arg) :: left))
    as Hadd.
  { intros pipc arg. destruct (so_atom_add_new_spec pipc (fun _ => true) (fun _ => eq_refl) so
      (if pipc then [MSES_SAVE now id buf] else []) l id buf arg Hr Hf Hz Hz2 Hid) as
      (s' & gone & rest & p & E & R & Ev & _ & _ & _ & G); [right; lia|by left|].
    specialize (G Hml Hmc Hm0). pose proof (evicted_total _ _ _ Ev).
    destruct (evicted_split _ _ _ Ev) as (P & S & _). apply sublist_length in S.
    destruct gone as [|x [|]]; [done| |done]. exists s', x, rest, p. split_and!; try done.
    unfold fits. simpl. unfold e_size. simpl. lia. }
  unfold session_mem_add. rewrite u_alloc_ok.
  rewrite decide_False by (unfold SESSION_FILENAME_MAX_LENGTH; lia).
  rewrite u_strlcpy_spec, take_ge by (unfold SESSION_FILENAME_MAX_LENGTH; lia). simpl ([] ++ _). cbn [fst].
  destruct (Hadd true mtime) as (sc & xc & lc & pc & Ec & Rc & Pc & _). rewrite Ec.
  eexists _, _, _. split; [done|]. split; [done|]. simpl.
  destruct (Hadd false now) as (sp & xp & lp & pp & Ep & Rp & Pp & Fp). rewrite Ep. simpl.
  destruct (delete_oldest_spec (set_atoms so sp) _ Rp Fp ltac:(done)) as (l1 & pe & l2 & s2 & El & _ & -> & R2 & _).
  apply Permutation_length in Pc, Pp. simpl in Pc, Pp. simpl.
  pose proof (f_equal length El) as El2. rewrite length_app in El2. simpl in El2.
  destruct Rc as (_ & _ & _ & Hcc & _). pose proof R2 as (_ & _ & _ & Hcp & _). unfold atoms_count.
  rewrite Hcc, Hcp, length_app. simpl. split_and!; [lia|lia|]. intros H1.
  assert (l1 ++ l2 = []) as E0 by (apply nil_length_inv; rewrite length_app; lia).
  rewrite E0 in R2. unfold session_mem_load. case_decide; [done|]. simpl.
  by rewrite (atoms_get_spec _ _ _ R2).
Qed.

(** ** Evaluation *)

Definition so_empty (mc ml : Z) : session_opt := mkSo atoms_create mc ml.

(** Saving in the parent. *)
Definition save (so : session_opt) (id buf : list byte) (arg : Z) : session_opt :=
  (so_atom_add (L:=libu_ref) false (fun _ => true) so [] id buf arg).1.1.

Definition so_two : session_opt := save (save (so_empty 0 12) (bs "A") (bs "aaaaa") 1) (bs "B") (bs "bbbbb") 2.

(** Saving again a session that is itself the oldest, when that exceeds the memory
    limit, takes its old atom out of the list twice: afterwards the list holds two
    sessions of 14 bytes in all under a limit of 12, but counts one session of 9 bytes,
    so that no well-formed list describes it. *)
Theorem session_accounting_breaks :
  exists so', so_atom_add (L:=libu_ref) false (fun _ => true) so_two [] (bs "A") (bs "aaaaaaaaa") 3
      = (so', [], Ok tt) /\
    session_mem_load so' (bs "A") = Ok (bs "aaaaaaaaa", 3%Z) /\
    session_mem_load so' (bs "B") = Ok (bs "bbbbb", 2%Z) /\
    mem_limit so' = 12%Z /\ atoms_size (so_atoms so') = 9%Z /\ atoms_count (so_atoms so') = 1%Z /\
    ~ exists l, repr (so_atoms so') l.
Proof.
  eexists. split; [vm_compute; reflexivity|]. split_and!; [vm_compute; reflexivity..|].
  intros [l Hr]. pose proof Hr as (_ & _ & _ & Hc & _).
  pose proof (atoms_get_spec _ _ (bs "A") Hr) as HA. pose proof (atoms_get_spec _ _ (bs "B") Hr) as HB.
  assert (Z.of_nat (length l) = 1)%Z as H1 by (rewrite <- Hc; vm_compute; reflexivity).
  destruct (lookup_id (bs "A") l) as [x|] eqn:LA; [|vm_compute in HA; discriminate HA].
  destruct (lookup_id (bs "B") l) as [y|] eqn:LB; [|vm_compute in HB; discriminate HB].
  apply find_some in LA as [InA EA]. apply find_some in LB as [InB EB].
  apply streq_eq in EA, EB. destruct l as [|z [|]]; simpl in H1; [lia| |lia].
  destruct InA as [->|[]], InB as [->|[]]. rewrite <- EA in EB. discriminate EB.
Qed.

Definition two_list : list (nat * entry) :=
  [(1, mkEntry (bs "B") (bs "bbbbb") 2); (0, mkEntry (bs "A") (bs "aaaaa") 1)].

Lemma so_two_repr : repr (so_atoms so_two) two_list.
Proof.
  unfold repr. split_and!.
  - exists (Some 0). simpl. split; [vm_compute; reflexivity|]. exists (Some 0).
    split; [eexists; split_and!; vm_compute; reflexivity|]. split; [done|]. exists None.
    split; [eexists; split_and!; vm_compute; reflexivity|]. done.
  - compute_decide.
  - compute_decide.
  - vm_compute. reflexivity.
  - vm_compute. reflexivity.
Qed.

Lemma session_save_new_witness :
  let e := mkEntry (bs "C") (bs "cccc") 3 in
  exists s' gone left p,
    so_atom_add (L:=libu_ref) true (fun _ => true) so_two [] (bs "C") (bs "cccc") 3
      = (set_atoms so_two s', [] ++ delold_msgs true (length gone), Ok tt) /\
    repr s' ((p, e) :: left) /\ session_mem_load (set_atoms so_two s') (bs "C") = Ok (bs "cccc", 3%Z) /\
    two_list ≡ₚ gone ++ left /\ sublist left two_list /\
    (forall g x, g ∈ gone -> x ∈ left -> arg_of g <= arg_of x)%Z /\
    (max_count so_two <> 0 -> Z.of_nat (S (length left)) <= max_count so_two)%Z /\
    (mem_limit so_two <> 0 -> total left + e_size e <= mem_limit so_two)%Z /\
    ((max_count so_two = 0 \/ Z.of_nat (length two_list) < max_count so_two)%Z ->
     (mem_limit so_two = 0 \/ total two_list + e_size e <= mem_limit so_two)%Z -> gone = []).
Proof.
  apply (session_save_new (L:=libu_ref) true (fun _ => true) (fun _ => eq_refl) so_two [] two_list (bs "C")).
  - exact so_two_repr.
  - split; compute_decide.
  - compute_decide.
  - compute_decide.
  - discriminate.
  - reflexivity.
  - left. reflexivity.
  - right. compute_decide.
Defined.

Lemma session_save_again_witness :
  exists s' p,
    so_atom_add (L:=libu_ref) false (fun _ => true) so_two [] (bs "A") (bs "aa") 3
      = (set_atoms so_two s', [], Ok tt) /\
    repr s' ((p, mkEntry (bs "A") (bs "aa") 3) :: [(1, mkEntry (bs "B") (bs "bbbbb") 2)] ++ []) /\
    heap s' !! 0 = None /\ session_mem_load (set_atoms so_two s') (bs "A") = Ok (bs "aa", 3%Z).
Proof.
  apply (session_save_again (L:=libu_ref) false (fun _ => true) (fun _ => eq_refl) so_two []
           [(1, mkEntry (bs "B") (bs "bbbbb") 2)] [] 0 (mkEntry (bs "A") (bs "aaaaa") 1)).
  - exact so_two_repr.
  - compute_decide.
  - compute_decide.
  - discriminate.
  - reflexivity.
  - reflexivity.
  - left. reflexivity.
  - right. compute_decide.
Defined.

Lemma session_remove_spec_witness :
  match lookup_id (bs "B") two_list with
  | None => so_atom_remove so_two (bs "B") = (so_two, Ok tt)
  | Some (q, eo) =>
      exists l1 l2 s', two_list = l1 ++ (q, eo) :: l2 /\ lookup_id (bs "B") l1 = None /\ e_id eo = bs "B" /\
        so_atom_remove so_two (bs "B") = (set_atoms so_two s', Ok tt) /\ repr s' (l1 ++ l2) /\
        heap s' !! q = None
  end.
Proof. apply (session_remove_spec so_two two_list (bs "B") so_two_repr). split; compute_decide. Defined.

Definition so_full : session_opt := mkSo (so_atoms so_two) 2 0.

Lemma session_child_double_delete_witness :
  exists child sent parent,
    session_mem_add (L:=libu_ref) true (fun _ => true) 4 so_full [] (bs "C") (bs "c") 3 = (child, sent, Ok tt) /\
    foldl (session_cmd (L:=libu_ref)) so_full sent = parent /\
    atoms_count (so_atoms child) = max_count so_full /\
    atoms_count (so_atoms parent) = (max_count so_full - 1)%Z /\
    (max_count so_full = 1%Z -> session_mem_load parent (bs "C") = Fail).
Proof.
  apply (session_child_double_delete (L:=libu_ref) so_full two_list (bs "C") (bs "c") 4 3).
  - exact so_two_repr.
  - split; compute_decide.
  - compute_decide.
  - compute_decide.
  - reflexivity.
  - reflexivity.
  - reflexivity.
  - discriminate.
  - simpl. lia.
Defined.
