(* ===== verification/Klog.v ===== *)
(** The logging facility: src/src/libklog/klog.c, common.c, mem.c and file.c.

    A log filters messages by level and passes them to its back end: a window of the last
    messages in memory, or a ring of files.  A page file is the list of its lines; the
    directory of a log is [disk], its pages by number and its saved head.  Formatted text
    and the time come in as arguments; [ctime] is a parameter (libc), and so is whether
    [fopen] succeeds. *)

From stdpp Require Import gmap.
From S2P Require Import Prelude Libu.

(** Levels are [int]s, 0 (debug) to 7. *)
Definition KLOG_DEBUG : Z := 0.
Definition KLOG_EMERG : Z := 7.
Definition KLOG_LEVEL_UNKNOWN : Z := 8.

Definition kloglev : list (list byte) :=
  [bs "DBG"; bs "INF"; bs "NTC"; bs "WRN"; bs "ERR"; bs "CRT"; bs "ALR"; bs "EMR"].

Definition KLOG_LN_SZ : nat := N.to_nat 512.
Definition KLOG_ID_SZ : nat := 8.
Definition KLOG_MLIMIT_DFL : Z := 250.
Definition KLOG_FLIMIT_DFL : Z := 250.
Definition KLOG_FSPLITS_DFL : Z := 4.

Definition klog_to_str (lev : Z) : list byte :=
  if decide (lev < KLOG_DEBUG \/ KLOG_EMERG < lev)%Z then bs "?"
  else nth (Z.to_nat lev) kloglev [].

(** ** Data *)

(** sizeof(klog_mem_t) and sizeof(klog_t) *)
Definition KLM_SIZE : nat := 32.
Definition KLOG_SIZE : nat := 80.

Record klog_mem_msg := mkMsg {
  m_level : Z;
  m_timestamp : Z;
  m_line : option (list byte)     (* NULL when it could not be copied *)
}.

Record klog_mem := mkKlm {
  klm_bound : nat;
  klm_nmsgs : nat;
  klm_msgs : list klog_mem_msg    (* newest first *)
}.

Record klog_file := mkKlf {
  klf_npages : nat;
  klf_nlines : nat;
  klf_wpageid : nat;
  klf_offset : nat;
  klf_wfp : bool                  (* wfp != NULL *)
}.

Inductive klog_backend :=
| Knone                           (* not opened yet: no callbacks *)
| Kmem (m : klog_mem)
| Kfile (f : klog_file).

Record klog := mkKlog {
  kl_threshold : Z;
  kl_ident : list byte;
  kl_u : klog_backend
}.

Record disk := mkDisk {
  pages : gmap nat (list (list byte));
  d_head : option (nat * nat * nat * nat)   (* npages, nlines, wpageid, offset *)
}.

Section klog_ops.
Context {L : Libu}.
Variable ctime : Z -> list byte.
Variable fopen_ok : nat -> bool.
Variable klf_size : nat.          (* sizeof(klog_file_t): depends on a constant of libu *)

(** "[%s] %s <%s>: %s" with the first 24 characters of the time *)
Definition log_line (level t : Z) (ident text : list byte) : list byte :=
  bs "[" ++ klog_to_str level ++ bs "] " ++ take 24 (ctime t) ++ bs " <" ++ ident ++ bs ">: " ++ text.

(** ** mem.c *)

Definition klog_open_mem (ln_max : nat) : res klog_mem :=
  if u_alloc KLM_SIZE then Ok (mkKlm (if decide (ln_max = 0) then 1 else ln_max) 0 []) else Fail.

Definition klog_mem_msg_new (s : list byte) (level now : Z) : res klog_mem_msg :=
  if u_alloc 40 then
    let s' := take KLOG_LN_SZ s in
    Ok (mkMsg level now (if u_alloc (S (length s')) then Some s' else None))
  else Fail.

Definition klog_mem_msg_push (klm : klog_mem) (m : klog_mem_msg) : klog_mem :=
  let klm1 :=
    if decide (klm_bound klm <= klm_nmsgs klm) then
      match klm_msgs klm with
      | [] => klm
      | _ => mkKlm (klm_bound klm) (klm_nmsgs klm - 1)
                   (take (length (klm_msgs klm) - 1) (klm_msgs klm))
      end
    else klm in
  mkKlm (klm_bound klm1) (S (klm_nmsgs klm1)) (m :: klm_msgs klm1).

(** The callback [klog_mem]; [text] is the formatted message. *)
Definition klog_mem_log (klm : klog_mem) (level now : Z) (text : list byte) : klog_mem * res unit :=
  match klog_mem_msg_new (take KLOG_LN_SZ text) level now with
  | Ok m => (klog_mem_msg_push klm m, Ok tt)
  | _ => (klm, Fail)
  end.

(** TAILQ_FOREACH with [if (i-- == 1) break]; the end of the list leaves NULL. *)
Fixpoint getln_loop (i : nat) (msgs : list klog_mem_msg) : option klog_mem_msg :=
  match msgs with
  | [] => None
  | m :: ms => if decide (i = 1) then Some m else getln_loop (i - 1) ms
  end.

Definition klog_getln_mem (klm : klog_mem) (ident : list byte) (n : nat) : res (list byte) :=
  if decide (klm_nmsgs klm < n) then Fail else if decide (n = 0) then Fail else
  match getln_loop n (klm_msgs klm) with
  | None => Fault
  | Some m =>
      match m_line m with
      | None => Fault
      | Some l => Ok (take KLOG_LN_SZ (log_line (m_level m) (m_timestamp m) ident l))
      end
  end.

Definition klog_countln_mem (klm : klog_mem) : nat := klm_nmsgs klm.

(** [klog_clear_mem]: the messages go one by one, then the count is reset. *)
Definition klog_clear_mem (klm : klog_mem) : klog_mem := mkKlm (klm_bound klm) 0 [].

(** ** file.c *)

Definition klog_file_head_load (d : disk) : option klog_file :=
  '(np, nl, w, o) ← d_head d; if u_alloc klf_size then Some (mkKlf np nl w o false) else None.

(** The head file opens for writing or not. *)
Definition klog_file_head_dump (head_ok : bool) (d : disk) (f : klog_file) : disk :=
  if head_ok
  then mkDisk (pages d) (Some (klf_npages f, klf_nlines f, klf_wpageid f, klf_offset f))
  else d.

Definition klog_close_file (head_ok : bool) (d : disk) (f : klog_file) : disk :=
  klog_file_head_dump head_ok d
    (mkKlf (klf_npages f) (klf_nlines f) (klf_wpageid f) (klf_offset f) false).

(** fopen(wf, "a"): the page keeps its lines. *)
Definition klog_file_open_page (d : disk) (f : klog_file) : disk * klog_file * res unit :=
  if fopen_ok (klf_wpageid f) then
    (mkDisk (<[klf_wpageid f := default [] (pages d !! klf_wpageid f)]> (pages d)) (d_head d),
     mkKlf (klf_npages f) (klf_nlines f) (klf_wpageid f) (klf_offset f) true, Ok tt)
  else (d, f, Fail).

Definition klog_open_file (d : disk) (npages nlines : nat) : disk * res klog_file :=
  match (match klog_file_head_load d with
         | None => if u_alloc klf_size then Some (mkKlf npages nlines 0 0 false) else None
         | Some f =>
             if decide (klf_npages f <> npages \/ klf_nlines f <> nlines)
             then Some (mkKlf npages nlines 0 0 false) else Some f
         end) with
  | None => (d, Fail)
  | Some f => let '(d', f', r) := klog_file_open_page d f in (d', (fun _ => f') <$> r)
  end.

(** fopen(wf, "w"): the next page starts empty.  A remainder by zero is undefined. *)
Definition klog_file_shift_page (d : disk) (f : klog_file) : disk * klog_file * res unit :=
  if decide (klf_npages f = 0) then (d, f, Fault) else
  let w := (klf_wpageid f + 1) mod klf_npages f in
  if fopen_ok w then
    (mkDisk (<[w := []]> (pages d)) (d_head d),
     mkKlf (klf_npages f) (klf_nlines f) w 0 true, Ok tt)
  else (d, mkKlf (klf_npages f) (klf_nlines f) (klf_wpageid f) (klf_offset f) false, Fail).

Definition klog_file_append (d : disk) (f : klog_file) (id : list byte) (level now : Z)
    (ln : list byte) : disk * klog_file * res unit :=
  if klf_wfp f then
    if decide (now = -1)%Z then (d, f, Fail) else
    (mkDisk (<[klf_wpageid f := default [] (pages d !! klf_wpageid f) ++ [log_line level now id ln]]> (pages d))
            (d_head d),
     mkKlf (klf_npages f) (klf_nlines f) (klf_wpageid f) (S (klf_offset f)) true, Ok tt)
  else (d, f, Fail).

(** The callback [klog_file]. *)
Definition klog_file_log (d : disk) (f : klog_file) (id : list byte) (level now : Z)
    (text : list byte) : disk * klog_file * res unit :=
  let ln := take KLOG_LN_SZ text in
  let '(d1, f1, r) := if decide (klf_nlines f <= klf_offset f) then klog_file_shift_page d f
                      else (d, f, Ok tt) in
  match r with
  | Ok _ => klog_file_append d1 f1 id level now ln
  | e => (d1, f1, e)
  end.

(** ** klog.c *)

Definition KLOG_TYPE_MEM : Z := 1.
Definition KLOG_TYPE_FILE : Z := 2.
Definition KLOG_TYPE_SYSLOG : Z := 3.

(** The identifier is cut to its field. *)
Definition klog_new (type threshold : Z) (ident : option (list byte)) : res klog :=
  if u_alloc KLOG_SIZE then
    if decide (KLOG_TYPE_MEM <= type <= KLOG_TYPE_SYSLOG)%Z
    then Ok (mkKlog threshold (u_strlcpy (default [] ident) (S KLOG_ID_SZ)).1 Knone)
    else Fail
  else Fail.

(** [klog_open], in a build without syslog. *)
Definition klog_open (d : disk) (type threshold : Z) (ident : option (list byte))
    (mlimit fsplits flimit : nat) : disk * res klog :=
  match klog_new type threshold ident with
  | Ok kl =>
      if decide (type = KLOG_TYPE_MEM) then
        (d, m ← klog_open_mem mlimit; Ok (mkKlog (kl_threshold kl) (kl_ident kl) (Kmem m)))
      else if decide (type = KLOG_TYPE_FILE) then
        let '(d', r) := klog_open_file d fsplits flimit in
        (d', f ← r; Ok (mkKlog (kl_threshold kl) (kl_ident kl) (Kfile f)))
      else (d, Fail)
  | e => (d, e)
  end.

Definition klog_close (head_ok : bool) (d : disk) (kl : klog) : disk :=
  match kl_u kl with Kfile f => klog_close_file head_ok d f | _ => d end.

Definition klog_log (d : disk) (kl : klog) (level now : Z) (text : list byte)
    : disk * klog * res unit :=
  if decide (level < KLOG_DEBUG \/ KLOG_LEVEL_UNKNOWN <= level)%Z then (d, kl, Ok tt)
  else if decide (level < kl_threshold kl)%Z then (d, kl, Ok tt)
  else
    match kl_u kl with
    | Knone => (d, kl, Ok tt)
    | Kmem m => let '(m', r) := klog_mem_log m level now text in
                (d, mkKlog (kl_threshold kl) (kl_ident kl) (Kmem m'), r)
    | Kfile f => let '(d', f', r) := klog_file_log d f (kl_ident kl) level now text in
                 (d', mkKlog (kl_threshold kl) (kl_ident kl) (Kfile f'), r)
    end.

(** [klog_getln], [klog_countln], [klog_clear]: only the memory log has callbacks. *)
Definition klog_getln (kl : klog) (n : nat) : res (list byte) :=
  match kl_u kl with Kmem m => klog_getln_mem m (kl_ident kl) n | _ => Ok [] end.
Definition klog_countln (kl : klog) : res nat :=
  match kl_u kl with Kmem m => Ok (klog_countln_mem m) | _ => Fail end.
Definition klog_clear (kl : klog) : klog * res unit :=
  match kl_u kl with
  | Kmem m => (mkKlog (kl_threshold kl) (kl_ident kl) (Kmem (klog_clear_mem m)), Ok tt)
  | _ => (kl, Fail)
  end.

(** [klog_threshold]: the level a configuration names, or [KLOG_LEVEL_UNKNOWN]. *)
Fixpoint threshold_loop (i : Z) (levs : list (list byte)) (threshold : list byte) : Z :=
  match levs with
  | [] => KLOG_LEVEL_UNKNOWN
  | l :: levs' => if strcaseeq threshold l then i else threshold_loop (i + 1) levs' threshold
  end.
Definition klog_threshold (threshold : option (list byte)) : Z :=
  match threshold with
  | None => KLOG_LEVEL_UNKNOWN
  | Some t => threshold_loop KLOG_DEBUG kloglev t
  end.
End klog_ops.

(** ** The memory window *)

(** A logged message: level, time and text. *)
Abbreviation event := (Z * Z * list byte)%type.

Definition accepted (threshold : Z) (ev : event) : bool :=
  let '(level, _, _) := ev in
  bool_decide (KLOG_DEBUG <= level < KLOG_LEVEL_UNKNOWN /\ threshold <= level)%Z.

Definition event_msg (ev : event) : klog_mem_msg :=
  let '(level, now, text) := ev in mkMsg level now (Some (take KLOG_LN_SZ text)).

Definition log_all {L : Libu} ctime fopen_ok (d : disk) (kl : klog) (evs : list event) : disk * klog :=
  foldl (fun s ev => (klog_log ctime fopen_ok s.1 s.2 ev.1.1 ev.1.2 ev.2).1) (d, kl) evs.

Section klog_mem_spec.
Context {L : Libu} {LM : LibuMem L}.
Variable ctime : Z -> list byte.
Variable fopen_ok : nat -> bool.
Variable klf_size : nat.

(** The log holds the last [bound] of the messages [ms], newest first. *)
Definition window (bound : nat) (ms : list klog_mem_msg) : klog_mem :=
  mkKlm bound (min bound (length ms)) (take bound (rev ms)).

Lemma push_window (bound : nat) (ms : list klog_mem_msg) (m : klog_mem_msg) :
  0 < bound -> klog_mem_msg_push (window bound ms) m = window bound (ms ++ [m]).
Proof.
  intros Hb. unfold klog_mem_msg_push, window. simpl.
  rewrite rev_app_distr, length_app. simpl. case_decide as Hd.
  - assert (bound <= length ms) as Hl by lia.
    assert (length (take bound (rev ms)) = bound) as Hlen by (rewrite length_take, length_rev; lia).
    destruct (take bound (rev ms)) as [|x l] eqn:E; [simpl in Hlen; lia|]. rewrite <- E. simpl.
    rewrite <- E in Hlen. rewrite Hlen, take_take. f_equal; [lia|].
    destruct bound; [lia|]. simpl. do 2 f_equal. lia.
  - rewrite !(take_ge (rev ms)) by (rewrite length_rev; lia).
    rewrite take_ge by (simpl; rewrite length_rev; lia). simpl. f_equal. lia.
Qed.

Lemma klog_log_window (d : disk) (thr : Z) (ident : list byte) (bound : nat)
    (ms : list klog_mem_msg) (ev : event) :
  0 < bound ->
  (klog_log ctime fopen_ok d (mkKlog thr ident (Kmem (window bound ms))) ev.1.1 ev.1.2 ev.2).1 =
  (d, mkKlog thr ident (Kmem (window bound
        (if accepted thr ev then ms ++ [event_msg ev] else ms)))).
Proof.
  intros Hb. destruct ev as [[level now] text]. unfold klog_log, accepted. simpl.
  repeat case_decide; case_bool_decide; try lia; try done.
  unfold klog_mem_log, klog_mem_msg_new. rewrite !u_alloc_ok, take_take, Nat.min_id. simpl.
  by rewrite push_window.
Qed.

Lemma log_all_window (evs : list event) : forall (d : disk) thr ident bound ms, 0 < bound ->
  log_all ctime fopen_ok d (mkKlog thr ident (Kmem (window bound ms))) evs =
  (d, mkKlog thr ident (Kmem (window bound (ms ++ map event_msg (List.filter (accepted thr) evs))))).
Proof.
  induction evs as [|ev evs IH]; intros d thr ident bound ms Hb; simpl; [by rewrite app_nil_r|].
  unfold log_all in *. simpl. rewrite klog_log_window by done.
  destruct (accepted thr ev); rewrite IH by done; [|done]. by rewrite <- app_assoc.
Qed.

Lemma getln_loop_spec (n : nat) (ms : list klog_mem_msg) :
  0 < n -> getln_loop n ms = ms !! (n - 1).
Proof.
  revert n. induction ms as [|m ms IH]; intros n Hn; simpl; [done|].
  case_decide as Hd; [by subst|]. rewrite IH by lia. destruct n as [|[|n]]; [lia|lia|]. simpl. by rewrite Nat.sub_0_r.
Qed.

(** Opening a memory log succeeds, and a memory log opened for [limit] lines (at least one) keeps exactly the last
    [limit] messages that pass its threshold: it counts them, gives back the n-th
    newest formatted and cut to 512 characters, and fails for any other n. *)
Theorem klog_mem_window (d : disk) (thr : Z) (ident : option (list byte)) (limit : nat)
    (fsplits flimit : nat) (evs : list event) (n : nat) :
  let bound := max 1 limit in
  let acc := rev (List.filter (accepted thr) evs) in
  exists kl0 kl,
  klog_open fopen_ok klf_size d KLOG_TYPE_MEM thr ident limit fsplits flimit = (d, Ok kl0) /\
  log_all ctime fopen_ok d kl0 evs = (d, kl) /\
  klog_countln kl = Ok (min bound (length acc)) /\
  klog_getln ctime kl n =
    match (if decide (0 < n <= bound) then acc !! (n - 1) else None) with
    | Some (level, now, text) =>
        Ok (take KLOG_LN_SZ (log_line ctime level now (kl_ident kl) (take KLOG_LN_SZ text)))
    | None => Fail
    end.
Proof.
  intros bound acc.
  set (id := (u_strlcpy (default [] ident) (S KLOG_ID_SZ)).1).
  set (ms := map event_msg (List.filter (accepted thr) evs)).
  exists (mkKlog thr id (Kmem (window bound []))), (mkKlog thr id (Kmem (window bound ms))).
  split; [|split; [rewrite log_all_window by lia; done|]].
  { unfold klog_open, klog_new, klog_open_mem. rewrite !u_alloc_ok. simpl.
    unfold window, bound, id. simpl. rewrite take_nil, Nat.min_0_r.
    do 4 f_equal. case_decide; f_equal; lia. }
  assert (rev ms = map event_msg acc) as Hrev by (unfold ms, acc; by rewrite map_rev).
  assert (length ms = length acc) as Hlen by (unfold ms, acc; by rewrite length_map, length_rev).
  unfold klog_countln, klog_getln, klog_countln_mem, klog_getln_mem, window. simpl.
  rewrite Hlen, Hrev. split; [done|]. case_decide as H1.
  - case_decide as H2; [|done]. by rewrite lookup_ge_None_2 by lia.
  - case_decide as H2; [by rewrite decide_False by lia|].
    rewrite decide_True by lia. rewrite getln_loop_spec by lia.
    rewrite lookup_take_lt by lia. change (map event_msg acc) with (event_msg <$> acc).
    rewrite list_lookup_fmap.
    destruct (acc !! (n - 1)) as [[[level now] text]|] eqn:E; [done|].
    apply lookup_ge_None in E. lia.
Qed.
End klog_mem_spec.

(** ** The ring of files *)

Section klog_file_spec.
Context {L : Libu} {LM : LibuMem L}.
Variable ctime : Z -> list byte.
Variable fopen_ok : nat -> bool.
Hypothesis fopen_works : forall p, fopen_ok p = true.
Variable klf_size : nat.

(** [chunks] are the pages written so far, the last one still growing: full ones have
    [nlines] lines, and the last [npages] of them are on disk, each under its number
    modulo [npages]. *)
Definition ring (d : disk) (f : klog_file) (chunks : list (list (list byte))) : Prop :=
  0 < length chunks /\ klf_wfp f = true /\ 0 < klf_npages f /\
  klf_wpageid f = (length chunks - 1) mod klf_npages f /\
  (forall i c, chunks !! i = Some c -> S i < length chunks -> length c = klf_nlines f) /\
  (exists c, last chunks = Some c /\ klf_offset f = length c /\ length c <= klf_nlines f) /\
  (forall i c, chunks !! i = Some c -> length chunks <= i + klf_npages f ->
     pages d !! (i mod klf_npages f) = Some c).

Lemma mod_ring (n i j : nat) : 0 < n -> i < j -> j < i + n -> i mod n <> j mod n.
Proof.
  intros Hn Hij Hjn E.
  assert (j = i + (j - i)) as Hj by lia.
  pose proof (Nat.Div0.div_mod i n). pose proof (Nat.Div0.div_mod j n).
  assert (n * (j / n) - n * (i / n) = j - i) by lia.
  assert (n * (j / n - i / n) = j - i) by (rewrite Nat.mul_sub_distr_l; lia).
  destruct (j / n - i / n) as [|k]; [lia|]. nia.
Qed.

Lemma last_lookup_chunks {A} (l : list A) (x : A) : last l = Some x -> l !! (length l - 1) = Some x.
Proof. intros H. rewrite last_lookup in H. by rewrite <- Nat.sub_1_r in H. Qed.

(** Appending to the page in use. *)
Lemma append_ring (d : disk) (f : klog_file) (cs : list (list (list byte))) (c : list (list byte))
    (id : list byte) (level now : Z) (ln : list byte) :
  ring d f (cs ++ [c]) -> length c < klf_nlines f -> now <> (-1)%Z ->
  exists d' f', klog_file_append ctime d f id level now ln = (d', f', Ok tt) /\
    klf_npages f' = klf_npages f /\ klf_nlines f' = klf_nlines f /\
    ring d' f' (cs ++ [c ++ [log_line ctime level now id ln]]).
Proof.
  intros (Hl & Hw & Hn & Hwp & Hfull & (c' & Hc' & Ho & _) & Hd) Hc Hnow.
  rewrite last_snoc in Hc'. injection Hc' as <-. rewrite !length_app in *. simpl in *.
  unfold klog_file_append. rewrite Hw, decide_False by done. eexists _, _. split; [done|]. simpl.
  split_and!; [done|done|]. rewrite Nat.add_sub in Hwp.
  assert (pages d !! (klf_wpageid f) = Some c) as Hpg.
  { rewrite Hwp. apply Hd; [by apply list_lookup_middle|lia]. }
  rewrite Hpg. simpl. unfold ring. simpl. rewrite !length_app. simpl. rewrite Nat.add_sub.
  split_and!; try done.
  - intros i x Hx Hi. apply (Hfull i x); [|lia].
    rewrite lookup_app_l in Hx |- * by lia. done.
  - eexists. rewrite last_snoc. split; [done|]. rewrite length_app. simpl. split; lia.
  - intros i x Hx Hi. destruct (decide (i < length cs)) as [Hlt|Hge].
    + rewrite lookup_app_l in Hx by done.
      rewrite lookup_insert_ne by (rewrite Hwp; apply not_eq_sym, mod_ring; lia).
      apply Hd; [by rewrite lookup_app_l|lia].
    + assert (i = length cs) as -> by (apply lookup_lt_Some in Hx; rewrite length_app in Hx; simpl in Hx; lia).
      rewrite list_lookup_middle in Hx by done. injection Hx as <-. by rewrite Hwp, lookup_insert_eq.
Qed.

(** Moving on to the next page. *)
Lemma shift_ring (d : disk) (f : klog_file) (cs : list (list (list byte))) :
  ring d f cs -> klf_offset f = klf_nlines f ->
  exists d' f', klog_file_shift_page fopen_ok d f = (d', f', Ok tt) /\
    klf_npages f' = klf_npages f /\ klf_nlines f' = klf_nlines f /\ ring d' f' (cs ++ [[]]).
Proof.
  intros (Hl & Hw & Hn & Hwp & Hfull & (c & Hc & Ho & Hle) & Hd) Hof.
  unfold klog_file_shift_page. rewrite decide_False by lia. rewrite fopen_works.
  assert ((klf_wpageid f + 1) mod klf_npages f = length cs mod klf_npages f) as ->.
  { rewrite Hwp, Nat.Div0.add_mod_idemp_l. f_equal. lia. }
  eexists _, _. split; [done|]. simpl. split_and!; [done|done|]. unfold ring. simpl.
  rewrite !length_app. simpl. rewrite Nat.add_sub. split_and!; try done; try lia.
  - intros i x Hx Hi. rewrite lookup_app_l in Hx by lia.
    destruct (decide (S i < length cs)); [by eapply Hfull|].
    assert (i = length cs - 1) as -> by lia. rewrite (last_lookup_chunks _ _ Hc) in Hx.
    injection Hx as <-. congruence.
  - exists []. rewrite last_snoc. simpl. split_and!; [done|done|lia].
  - intros i x Hx Hi. destruct (decide (i < length cs)) as [Hlt|Hge].
    + rewrite lookup_app_l in Hx by done. rewrite lookup_insert_ne by (apply not_eq_sym, mod_ring; lia).
      apply Hd; [done|lia].
    + assert (i = length cs) as -> by (apply lookup_lt_Some in Hx; rewrite length_app in Hx; simpl in Hx; lia).
      rewrite list_lookup_middle in Hx by done. injection Hx as <-. apply lookup_insert_eq.
Qed.

Definition ring_lines (chunks : list (list (list byte))) : list (list byte) := concat chunks.

(** The line that an event becomes. *)
Definition event_line (id : list byte) (ev : event) : list byte :=
  log_line ctime ev.1.1 ev.1.2 id (take KLOG_LN_SZ ev.2).

Lemma file_log_ring (d : disk) (f : klog_file) (cs : list (list (list byte))) (id : list byte) (ev : event) :
  ring d f cs -> 0 < klf_nlines f -> ev.1.2 <> (-1)%Z ->
  exists d' f' cs', klog_file_log ctime fopen_ok d f id ev.1.1 ev.1.2 ev.2 = (d', f', Ok tt) /\
    klf_npages f' = klf_npages f /\ klf_nlines f' = klf_nlines f /\ ring d' f' cs' /\
    ring_lines cs' = ring_lines cs ++ [event_line id ev].
Proof.
  intros Hr Hnl Hnow. unfold klog_file_log.
  pose proof Hr as (Hl & _ & _ & _ & _ & (c & Hc & Ho & Hle) & _).
  apply last_Some in Hc as [cs0 ->]. case_decide as Hd.
  - destruct (shift_ring d f (cs0 ++ [c]) Hr ltac:(lia)) as (d1 & f1 & -> & P1 & P2 & R1).
    destruct (append_ring d1 f1 (cs0 ++ [c]) [] id ev.1.1 ev.1.2 (take KLOG_LN_SZ ev.2) R1)
      as (d2 & f2 & -> & Q1 & Q2 & R2); [simpl; lia|done|].
    exists d2, f2, ((cs0 ++ [c]) ++ [[event_line id ev]]). split_and!; try done; try congruence.
    unfold ring_lines. by rewrite concat_app.
  - destruct (append_ring d f cs0 c id ev.1.1 ev.1.2 (take KLOG_LN_SZ ev.2) Hr)
      as (d2 & f2 & -> & Q1 & Q2 & R2); [lia|done|].
    exists d2, f2, (cs0 ++ [c ++ [event_line id ev]]). split_and!; try done.
    unfold ring_lines. rewrite !concat_app. simpl. by rewrite !app_nil_r, app_assoc.
Qed.

Lemma log_all_ring (ident : list byte) (thr : Z) (evs : list event) :
  Forall (fun ev : event => ev.1.2 <> (-1)%Z) evs ->
  forall d0 f0 cs, ring d0 f0 cs -> 0 < klf_nlines f0 ->
  exists d f chunks,
    log_all ctime fopen_ok d0 (mkKlog thr ident (Kfile f0)) evs = (d, mkKlog thr ident (Kfile f)) /\
    klf_npages f = klf_npages f0 /\ klf_nlines f = klf_nlines f0 /\
    concat chunks = concat cs ++ map (event_line ident) (List.filter (accepted thr) evs) /\
    ring d f chunks.
Proof.
  induction 1 as [|ev evs Hev _ IH]; intros d0 f0 cs Hr Hnl.
  - exists d0, f0, cs. simpl. by rewrite app_nil_r.
  - unfold log_all in *. simpl.
    destruct (file_log_ring d0 f0 cs ident ev Hr Hnl Hev) as (d1 & f1 & cs1 & E & P1 & P2 & R1 & C1).
    unfold klog_log at 2. cbn [kl_u kl_threshold kl_ident snd fst].
    unfold accepted at 1. destruct ev as [[level now] text]. simpl in E |- *.
    repeat case_decide; case_bool_decide; try lia; [by apply IH..|].
    rewrite E. simpl.
    destruct (IH d1 f1 cs1 R1 ltac:(lia)) as (d & f & chunks & -> & Q1 & Q2 & C2 & R2).
    exists d, f, chunks. split_and!; try done; try congruence.
    rewrite C2. unfold ring_lines in C1. by rewrite C1, <- app_assoc.
Qed.

(** A file log opened on an empty directory cuts the sequence of its lines into
    pages of [nlines] lines and keeps the last [npages] pages, page i in the file i
    modulo [npages]: a line is lost only when its page is reused, [npages] pages later. *)
Theorem klog_file_ring (npages nlines : nat) (ident : list byte) (thr : Z) (evs : list event) :
  0 < npages -> 0 < nlines -> Forall (fun ev : event => ev.1.2 <> (-1)%Z) evs ->
  exists d0 f0 d f chunks, klog_open_file fopen_ok klf_size (mkDisk ∅ None) npages nlines = (d0, Ok f0) /\
    log_all ctime fopen_ok d0 (mkKlog thr ident (Kfile f0)) evs = (d, mkKlog thr ident (Kfile f)) /\
    klf_npages f = npages /\ klf_nlines f = nlines /\
    concat chunks = map (event_line ident) (List.filter (accepted thr) evs) /\ ring d f chunks.
Proof.
  intros Hnp Hnl Hevs. unfold klog_open_file, klog_file_head_load, klog_file_open_page. simpl.
  rewrite u_alloc_ok. simpl. rewrite fopen_works. simpl.
  set (d0 := mkDisk _ _). set (f0 := mkKlf npages nlines 0 0 true). exists d0, f0.
  assert (ring d0 f0 [[]]) as R0.
  { unfold ring. simpl. split_and!; [lia|done|done|by rewrite Nat.Div0.mod_0_l|intros; lia| |].
    - exists []. simpl. split_and!; [done|done|lia].
    - intros [|i] c Hc Hi; [|done]. injection Hc as <-. rewrite Nat.Div0.mod_0_l.
      unfold d0. simpl. by rewrite lookup_insert_eq. }
  destruct (log_all_ring ident thr evs Hevs d0 f0 [[]] R0 Hnl) as (d & f & chunks & E & P1 & P2 & C & R).
  exists d, f, chunks. by split_and!.
Qed.

(** Closing a file log and opening it again with the same sizes resumes exactly where
    it stopped, with every page as it was. *)
Theorem klog_file_resume (d : disk) (f : klog_file) (chunks : list (list (list byte)))
    (thr : Z) (ident : option (list byte)) (mlimit : nat) :
  ring d f chunks ->
  exists d1 d2 kl, klog_close true d (mkKlog thr (default [] ident) (Kfile f)) = d1 /\
    klog_open fopen_ok klf_size d1 KLOG_TYPE_FILE thr ident mlimit (klf_npages f) (klf_nlines f) =
      (d2, Ok kl) /\
    kl_u kl = Kfile f /\ pages d2 = pages d /\ ring d2 f chunks.
Proof.
  intros Hr. pose proof Hr as (Hl & Hw & Hn & Hwp & _ & (c & Hc & _ & _) & Hd).
  assert (pages d !! klf_wpageid f = Some c) as Hpg.
  { rewrite Hwp. apply Hd; [by apply last_lookup_chunks|lia]. }
  unfold klog_close, klog_close_file, klog_file_head_dump. simpl. eexists _, _, _. split; [done|].
  unfold klog_open, klog_new. rewrite !u_alloc_ok. simpl.
  unfold klog_open_file, klog_file_head_load. simpl. rewrite u_alloc_ok. simpl.
  rewrite decide_False by (intros [|]; congruence). unfold klog_file_open_page. simpl.
  rewrite fopen_works, Hpg. simpl. split; [done|]. simpl. rewrite insert_id by done.
  split_and!; [destruct f; simpl in *; congruence|done|].
  destruct Hr as (? & ? & ? & ? & ? & ? & ?). by split_and!.
Qed.

(** When the saved head does not match the configured sizes, writing starts over at
    page 0, but the old lines of that page stay in the file: the past log is not
    discarded, and the page grows beyond its size. *)
Theorem klog_file_reopen_keeps (d : disk) (np nl w o npages nlines : nat) (old : list (list byte)) :
  d_head d = Some (np, nl, w, o) -> np <> npages \/ nl <> nlines -> pages d !! 0 = Some old ->
  0 < nlines ->
  exists d1 f1, klog_open_file fopen_ok klf_size d npages nlines = (d1, Ok f1) /\
    klf_offset f1 = 0 /\ klf_nlines f1 = nlines /\
    forall id level now text, now <> (-1)%Z ->
      exists d2 f2, klog_file_log ctime fopen_ok d1 f1 id level now text = (d2, f2, Ok tt) /\
        pages d2 !! 0 = Some (old ++ [log_line ctime level now id (take KLOG_LN_SZ text)]).
Proof.
  intros Hh Hne Hold Hnl. unfold klog_open_file, klog_file_head_load. rewrite Hh. simpl.
  rewrite u_alloc_ok. simpl. rewrite decide_True by done. unfold klog_file_open_page.
  rewrite fopen_works. simpl. rewrite Hold. simpl. eexists _, _. split_and!; [done|done|done|].
  intros id level now text Hnow. unfold klog_file_log. simpl. rewrite decide_False by lia.
  unfold klog_file_append. simpl. rewrite decide_False by done. rewrite lookup_insert_eq. simpl.
  eexists _, _. split; [done|]. simpl. apply lookup_insert_eq.
Qed.
End klog_file_spec.

Definition sample_events : list event :=
  [(1, 0, bs "a"); (0, 0, bs "b"); (3, 0, bs "c"); (2, 0, bs "d")]%Z.

Lemma klog_mem_window_witness :
  let acc := rev (List.filter (accepted 1) sample_events) in
  exists kl0 kl,
  klog_open (L:=libu_ref) (fun _ => true) 100 (mkDisk ∅ None) KLOG_TYPE_MEM 1 None 2 0 0 =
    (mkDisk ∅ None, Ok kl0) /\
  log_all (L:=libu_ref) (fun _ => bs "now") (fun _ => true) (mkDisk ∅ None) kl0 sample_events =
    (mkDisk ∅ None, kl) /\
  klog_countln kl = Ok (min 2 (length acc)) /\
  klog_getln (fun _ => bs "now") kl 2 =
    match (if decide (0 < 2 <= 2) then acc !! (2 - 1) else None) with
    | Some (level, now, text) =>
        Ok (take KLOG_LN_SZ (log_line (fun _ => bs "now") level now (kl_ident kl) (take KLOG_LN_SZ text)))
    | None => Fail
    end.
Proof.
  apply (klog_mem_window (L:=libu_ref) (fun _ => bs "now") (fun _ => true) 100 (mkDisk ∅ None)
           1 None 2 0 0 sample_events 2).
Defined.

Lemma klog_file_ring_witness :
  exists d0 f0 d f chunks,
    klog_open_file (L:=libu_ref) (fun _ => true) 100 (mkDisk ∅ None) 2 3 = (d0, Ok f0) /\
    log_all (L:=libu_ref) (fun _ => bs "now") (fun _ => true) d0 (mkKlog 0 (bs "k") (Kfile f0))
      (replicate 8 (1, 5, bs "x")%Z) = (d, mkKlog 0 (bs "k") (Kfile f)) /\
    klf_npages f = 2 /\ klf_nlines f = 3 /\
    concat chunks = map (event_line (fun _ => bs "now") (bs "k"))
                        (List.filter (accepted 0) (replicate 8 (1, 5, bs "x")%Z)) /\ ring d f chunks.
Proof.
  apply (klog_file_ring (L:=libu_ref) (fun _ => bs "now") (fun _ => true) (fun _ => eq_refl) 100 2 3); [lia|lia|].
  repeat constructor; discriminate.
Defined.

Lemma klog_file_reopen_keeps_witness :
  exists d1 f1, klog_open_file (L:=libu_ref) (fun _ => true) 100
      (mkDisk {[ 0 := [bs "old"] ]} (Some (2, 1, 0, 1))) 2 4 = (d1, Ok f1) /\
    klf_offset f1 = 0 /\ klf_nlines f1 = 4 /\
    forall id level now text, now <> (-1)%Z ->
      exists d2 f2, klog_file_log (fun _ => bs "now") (fun _ => true) d1 f1 id level now text = (d2, f2, Ok tt) /\
        pages d2 !! 0 = Some ([bs "old"] ++ [log_line (fun _ => bs "now") level now id (take KLOG_LN_SZ text)]).
Proof.
  apply (klog_file_reopen_keeps (L:=libu_ref) (fun _ => bs "now") (fun _ => true) (fun _ => eq_refl) 100 _ 2 1 0 1).
  - reflexivity.
  - right. lia.
  - reflexivity.
  - lia.
Defined.

Lemma klog_file_resume_witness :
  exists d1 d2 kl, klog_close true (mkDisk {[ 0 := [bs "a"] ]} None)
      (mkKlog 0 [] (Kfile (mkKlf 2 3 0 1 true))) = d1 /\
    klog_open (L:=libu_ref) (fun _ => true) 100 d1 KLOG_TYPE_FILE 0 None 0 2 3 = (d2, Ok kl) /\
    kl_u kl = Kfile (mkKlf 2 3 0 1 true) /\ pages d2 = {[ 0 := [bs "a"] ]} /\
    ring d2 (mkKlf 2 3 0 1 true) [[bs "a"]].
Proof.
  refine (klog_file_resume (L:=libu_ref) (fun _ => true) (fun _ => eq_refl) 100
           (mkDisk {[ 0 := [bs "a"] ]} None) (mkKlf 2 3 0 1 true) [[bs "a"]] 0 None 0 _).
  unfold ring. simpl. split_and!; try lia; try done; try (intros; lia).
  - exists [bs "a"]. simpl. split_and!; [done|done|lia].
  - intros [|i] c Hc Hi; [|done]. injection Hc as <-. reflexivity.
Defined.
