(* ===== verification/Request.v ===== *)
(** HTTP requests: src/src/libpage/request.c, without multipart bodies.

    The request line, the URI with its path and query, the header, cookies, and the
    variables of the query string and of an urlencoded body.  A string field is [None]
    when the pointer is NULL.  The functions run in [prog (request D C)]: they leave the
    request as the C code leaves it, also when they fail.  The validation callback of a
    URI gets the whole path and a length, as in C. *)

From S2P Require Import Prelude Libu Encode Path Date Io IoSpec IoMem Getline Header Vars.

(** klone/http.h *)
Inductive method := HM_UNKNOWN | HM_GET | HM_HEAD | HM_POST | HM_PUT | HM_DELETE.

#[global] Instance method_eq_dec : EqDecision method.
Proof. solve_decision. Defined.

(** What is known of an uploaded file; [upload_infos] of a request holds them, and the
    opaque pointer of a variable of [uploads] is an index into it. *)
Record upload_info := mkUpload {
  up_mime_type : list byte;
  up_filename : list byte;
  up_size : nat
}.

Record request (D C : Type) := mkRq {
  rq_io : io D C;
  rq_header : header;
  rq_method : method;
  cli_rq : option (list byte);
  rq_uri : option (list byte);
  protocol : option (list byte);
  path_info : option (list byte);
  query : option (list byte);
  filename : option (list byte);
  resolved_path_info : option (list byte);
  resolved_filename : option (list byte);
  args : vars;
  args_get : vars;
  args_post : vars;
  cookies : vars;
  uploads : vars;
  upload_infos : list upload_info;
  content_type : option (list byte);
  content_encoding : option (list byte);
  content_length : Z;
  if_modified_since : Z;
  cgi : bool;
  post_maxsize : Z;
  body_off : nat
}.
Arguments mkRq {D C} _ _ _ _ _ _ _ _ _ _ _ _ _ _ _ _ _ _ _ _ _ _ _ _.
Arguments rq_io {D C} _.
Arguments rq_header {D C} _.
Arguments rq_method {D C} _.
Arguments cli_rq {D C} _.
Arguments rq_uri {D C} _.
Arguments protocol {D C} _.
Arguments path_info {D C} _.
Arguments query {D C} _.
Arguments filename {D C} _.
Arguments resolved_path_info {D C} _.
Arguments resolved_filename {D C} _.
Arguments args {D C} _.
Arguments args_get {D C} _.
Arguments args_post {D C} _.
Arguments cookies {D C} _.
Arguments uploads {D C} _.
Arguments upload_infos {D C} _.
Arguments content_type {D C} _.
Arguments content_encoding {D C} _.
Arguments content_length {D C} _.
Arguments if_modified_since {D C} _.
Arguments cgi {D C} _.
Arguments post_maxsize {D C} _.
Arguments body_off {D C} _.

Section setters.
Context {D C : Type}.
Implicit Types rq : request D C.
Definition set_rq_io rq (v : io D C) : request D C :=
  let 'mkRq f0 f1 f2 f3 f4 f5 f6 f7 f8 f9 f10 f11 f12 f13 f14 f15 f16 f17 f18 f19 f20 f21 f22 f23 := rq in
  mkRq v f1 f2 f3 f4 f5 f6 f7 f8 f9 f10 f11 f12 f13 f14 f15 f16 f17 f18 f19 f20 f21 f22 f23.
Definition set_rq_header rq (v : header) : request D C :=
  let 'mkRq f0 f1 f2 f3 f4 f5 f6 f7 f8 f9 f10 f11 f12 f13 f14 f15 f16 f17 f18 f19 f20 f21 f22 f23 := rq in
  mkRq f0 v f2 f3 f4 f5 f6 f7 f8 f9 f10 f11 f12 f13 f14 f15 f16 f17 f18 f19 f20 f21 f22 f23.
Definition set_rq_method rq (v : method) : request D C :=
  let 'mkRq f0 f1 f2 f3 f4 f5 f6 f7 f8 f9 f10 f11 f12 f13 f14 f15 f16 f17 f18 f19 f20 f21 f22 f23 := rq in
  mkRq f0 f1 v f3 f4 f5 f6 f7 f8 f9 f10 f11 f12 f13 f14 f15 f16 f17 f18 f19 f20 f21 f22 f23.
Definition set_cli_rq rq (v : option (list byte)) : request D C :=
  let 'mkRq f0 f1 f2 f3 f4 f5 f6 f7 f8 f9 f10 f11 f12 f13 f14 f15 f16 f17 f18 f19 f20 f21 f22 f23 := rq in
  mkRq f0 f1 f2 v f4 f5 f6 f7 f8 f9 f10 f11 f12 f13 f14 f15 f16 f17 f18 f19 f20 f21 f22 f23.
Definition set_rq_uri rq (v : option (list byte)) : request D C :=
  let 'mkRq f0 f1 f2 f3 f4 f5 f6 f7 f8 f9 f10 f11 f12 f13 f14 f15 f16 f17 f18 f19 f20 f21 f22 f23 := rq in
  mkRq f0 f1 f2 f3 v f5 f6 f7 f8 f9 f10 f11 f12 f13 f14 f15 f16 f17 f18 f19 f20 f21 f22 f23.
Definition set_protocol rq (v : option (list byte)) : request D C :=
  let 'mkRq f0 f1 f2 f3 f4 f5 f6 f7 f8 f9 f10 f11 f12 f13 f14 f15 f16 f17 f18 f19 f20 f21 f22 f23 := rq in
  mkRq f0 f1 f2 f3 f4 v f6 f7 f8 f9 f10 f11 f12 f13 f14 f15 f16 f17 f18 f19 f20 f21 f22 f23.
Definition set_path_info rq (v : option (list byte)) : request D C :=
  let 'mkRq f0 f1 f2 f3 f4 f5 f6 f7 f8 f9 f10 f11 f12 f13 f14 f15 f16 f17 f18 f19 f20 f21 f22 f23 := rq in
  mkRq f0 f1 f2 f3 f4 f5 v f7 f8 f9 f10 f11 f12 f13 f14 f15 f16 f17 f18 f19 f20 f21 f22 f23.
Definition set_query rq (v : option (list byte)) : request D C :=
  let 'mkRq f0 f1 f2 f3 f4 f5 f6 f7 f8 f9 f10 f11 f12 f13 f14 f15 f16 f17 f18 f19 f20 f21 f22 f23 := rq in
  mkRq f0 f1 f2 f3 f4 f5 f6 v f8 f9 f10 f11 f12 f13 f14 f15 f16 f17 f18 f19 f20 f21 f22 f23.
Definition set_filename rq (v : option (list byte)) : request D C :=
  let 'mkRq f0 f1 f2 f3 f4 f5 f6 f7 f8 f9 f10 f11 f12 f13 f14 f15 f16 f17 f18 f19 f20 f21 f22 f23 := rq in
  mkRq f0 f1 f2 f3 f4 f5 f6 f7 v f9 f10 f11 f12 f13 f14 f15 f16 f17 f18 f19 f20 f21 f22 f23.
Definition set_resolved_path_info rq (v : option (list byte)) : request D C :=
  let 'mkRq f0 f1 f2 f3 f4 f5 f6 f7 f8 f9 f10 f11 f12 f13 f14 f15 f16 f17 f18 f19 f20 f21 f22 f23 := rq in
  mkRq f0 f1 f2 f3 f4 f5 f6 f7 f8 v f10 f11 f12 f13 f14 f15 f16 f17 f18 f19 f20 f21 f22 f23.
Definition set_resolved_filename rq (v : option (list byte)) : request D C :=
  let 'mkRq f0 f1 f2 f3 f4 f5 f6 f7 f8 f9 f10 f11 f12 f13 f14 f15 f16 f17 f18 f19 f20 f21 f22 f23 := rq in
  mkRq f0 f1 f2 f3 f4 f5 f6 f7 f8 f9 v f11 f12 f13 f14 f15 f16 f17 f18 f19 f20 f21 f22 f23.
Definition set_args rq (v : vars) : request D C :=
  let 'mkRq f0 f1 f2 f3 f4 f5 f6 f7 f8 f9 f10 f11 f12 f13 f14 f15 f16 f17 f18 f19 f20 f21 f22 f23 := rq in
  mkRq f0 f1 f2 f3 f4 f5 f6 f7 f8 f9 f10 v f12 f13 f14 f15 f16 f17 f18 f19 f20 f21 f22 f23.
Definition set_args_get rq (v : vars) : request D C :=
  let 'mkRq f0 f1 f2 f3 f4 f5 f6 f7 f8 f9 f10 f11 f12 f13 f14 f15 f16 f17 f18 f19 f20 f21 f22 f23 := rq in
  mkRq f0 f1 f2 f3 f4 f5 f6 f7 f8 f9 f10 f11 v f13 f14 f15 f16 f17 f18 f19 f20 f21 f22 f23.
Definition set_args_post rq (v : vars) : request D C :=
  let 'mkRq f0 f1 f2 f3 f4 f5 f6 f7 f8 f9 f10 f11 f12 f13 f14 f15 f16 f17 f18 f19 f20 f21 f22 f23 := rq in
  mkRq f0 f1 f2 f3 f4 f5 f6 f7 f8 f9 f10 f11 f12 v f14 f15 f16 f17 f18 f19 f20 f21 f22 f23.
Definition set_cookies rq (v : vars) : request D C :=
  let 'mkRq f0 f1 f2 f3 f4 f5 f6 f7 f8 f9 f10 f11 f12 f13 f14 f15 f16 f17 f18 f19 f20 f21 f22 f23 := rq in
  mkRq f0 f1 f2 f3 f4 f5 f6 f7 f8 f9 f10 f11 f12 f13 v f15 f16 f17 f18 f19 f20 f21 f22 f23.
Definition set_uploads rq (v : vars) : request D C :=
  let 'mkRq f0 f1 f2 f3 f4 f5 f6 f7 f8 f9 f10 f11 f12 f13 f14 f15 f16 f17 f18 f19 f20 f21 f22 f23 := rq in
  mkRq f0 f1 f2 f3 f4 f5 f6 f7 f8 f9 f10 f11 f12 f13 f14 v f16 f17 f18 f19 f20 f21 f22 f23.
Definition set_upload_infos rq (v : list upload_info) : request D C :=
  let 'mkRq f0 f1 f2 f3 f4 f5 f6 f7 f8 f9 f10 f11 f12 f13 f14 f15 f16 f17 f18 f19 f20 f21 f22 f23 := rq in
  mkRq f0 f1 f2 f3 f4 f5 f6 f7 f8 f9 f10 f11 f12 f13 f14 f15 v f17 f18 f19 f20 f21 f22 f23.
Definition set_content_type rq (v : option (list byte)) : request D C :=
  let 'mkRq f0 f1 f2 f3 f4 f5 f6 f7 f8 f9 f10 f11 f12 f13 f14 f15 f16 f17 f18 f19 f20 f21 f22 f23 := rq in
  mkRq f0 f1 f2 f3 f4 f5 f6 f7 f8 f9 f10 f11 f12 f13 f14 f15 f16 v f18 f19 f20 f21 f22 f23.
Definition set_content_encoding rq (v : option (list byte)) : request D C :=
  let 'mkRq f0 f1 f2 f3 f4 f5 f6 f7 f8 f9 f10 f11 f12 f13 f14 f15 f16 f17 f18 f19 f20 f21 f22 f23 := rq in
  mkRq f0 f1 f2 f3 f4 f5 f6 f7 f8 f9 f10 f11 f12 f13 f14 f15 f16 f17 v f19 f20 f21 f22 f23.
Definition set_content_length rq (v : Z) : request D C :=
  let 'mkRq f0 f1 f2 f3 f4 f5 f6 f7 f8 f9 f10 f11 f12 f13 f14 f15 f16 f17 f18 f19 f20 f21 f22 f23 := rq in
  mkRq f0 f1 f2 f3 f4 f5 f6 f7 f8 f9 f10 f11 f12 f13 f14 f15 f16 f17 f18 v f20 f21 f22 f23.
Definition set_if_modified_since rq (v : Z) : request D C :=
  let 'mkRq f0 f1 f2 f3 f4 f5 f6 f7 f8 f9 f10 f11 f12 f13 f14 f15 f16 f17 f18 f19 f20 f21 f22 f23 := rq in
  mkRq f0 f1 f2 f3 f4 f5 f6 f7 f8 f9 f10 f11 f12 f13 f14 f15 f16 f17 f18 f19 v f21 f22 f23.
Definition set_body_off rq (v : nat) : request D C :=
  let 'mkRq f0 f1 f2 f3 f4 f5 f6 f7 f8 f9 f10 f11 f12 f13 f14 f15 f16 f17 f18 f19 f20 f21 f22 f23 := rq in
  mkRq f0 f1 f2 f3 f4 f5 f6 f7 f8 f9 f10 f11 f12 f13 f14 f15 f16 f17 f18 f19 f20 f21 f22 v.
End setters.

Definition QMARK : byte := "?".
Definition MAX_URI : nat := N.to_nat 4096.       (* sizeof(cp) *)
Definition RQ_LINE_BUFSZ : nat := N.to_nat 4096.
Definition COOKIE_BUFSZ : nat := N.to_nat 4096.

Section request_ops.
Context {L : Libu} {D C : Type} {DO : DevOps D} {CO : CodecOps C}.

Abbreviation rprog A := (prog (request D C) A).

(** [REQUEST_SET_STRING_FIELD]: the old string is freed first. *)
Definition set_string_field (set : request D C -> option (list byte) -> request D C)
    (rval : list byte) : rprog unit :=
  pmod (fun rq => set rq None);;;
  if u_alloc (S (length rval)) then pmod (fun rq => set rq (Some rval)) else pfail.

Definition request_set_filename : list byte -> rprog unit := set_string_field set_filename.
Definition request_set_query_string : list byte -> rprog unit := set_string_field set_query.
Definition request_set_path_info : list byte -> rprog unit := set_string_field set_path_info.
Definition request_set_resolved_filename : list byte -> rprog unit :=
  set_string_field set_resolved_filename.
Definition request_set_resolved_path_info : list byte -> rprog unit :=
  set_string_field set_resolved_path_info.

Definition request_clear_uri : rprog unit := pmod (fun rq =>
  set_content_encoding (set_content_type (set_resolved_filename (set_resolved_path_info
    (set_filename (set_query (set_path_info (set_protocol (set_rq_uri rq
      None) None) None) None) None) None) None) None) None).

(** ** The URI *)

(** The [for(;;)] of [request_set_uri]: [len] is [pi - fn]. *)
Fixpoint path_info_loop (fuel : nat) (is_valid_uri : option (list byte -> nat -> bool))
    (fn : list byte) (len : nat) : rprog unit :=
  match fuel with
  | 0 => plift Timeout
  | S fuel' =>
      if match is_valid_uri with None => true | Some valid => valid fn len end then
        request_set_filename fn;;;
        pmod (fun rq => set_filename rq (take len <$> filename rq));;;
        if decide (drop len fn = []) then pret tt else request_set_path_info (drop len fn)
      else
        let! p := plift (Search.u_strnrchr fn SLASH len) in
        match p with
        | None => pret tt
        | Some p => path_info_loop fuel' is_valid_uri fn p
        end
  end.

(** The string before the first [c]. *)
Definition upto (c : byte) (s : list byte) : list byte :=
  match strchr s c with Some k => take k s | None => s end.

Definition request_set_uri (uri : list byte) (is_valid_uri : option (list byte -> nat -> bool))
    : rprog unit :=
  request_clear_uri;;;
  pguard (bool_decide (length uri < MAX_URI));;;
  set_string_field set_rq_uri uri;;;
  match strchr uri QMARK with
  | Some k => request_set_query_string (drop (S k) uri)
  | None => pret tt
  end;;;
  let! cp := plift (Url.u_urlncpy (uri ++ [x00]) (length uri) COPY_DECODE) in
  pguard (bool_decide (cp <> []));;;
  let! path := plift (u_uri_normalize (upto QMARK (cstr cp))) in
  request_set_filename path;;;
  path_info_loop (S (length path)) is_valid_uri path (length path).

(** ** The request line *)

Definition request_set_proto (proto : list byte) : rprog unit :=
  if strcaseprefix (bs "http") proto then set_string_field set_protocol proto else pfail.

(** The characters before the first newline character. *)
Fixpoint cut_nl (s : list byte) : list byte :=
  match s with
  | c :: s' => if decide (c = x0d \/ c = x0a) then [] else c :: cut_nl s'
  | [] => []
  end.

Definition request_set_client_request (ln : list byte) : rprog unit :=
  if u_alloc (S (length ln)) then pmod (fun rq => set_cli_rq rq (Some (cut_nl ln)))
  else pmod (fun rq => set_cli_rq rq None);;; pfail.

Definition method_of (m : list byte) : method :=
  if strcaseeq m (bs "get") then HM_GET
  else if strcaseeq m (bs "head") then HM_HEAD
  else if strcaseeq m (bs "post") then HM_POST
  else if strcaseeq m (bs "put") then HM_PUT
  else if strcaseeq m (bs "delete") then HM_DELETE
  else HM_UNKNOWN.

Definition request_set_method (m : list byte) : rprog unit :=
  pmod (fun rq => set_rq_method rq (method_of m));;;
  pguard (negb (bool_decide (method_of m = HM_UNKNOWN))).

(** ** Header fields *)

Definition request_field (name : list byte) : rprog (option (list byte)) := fun rq =>
  (rq, header_get_field_value (rq_header rq) name).

(** The [int] of [atoi] becomes a [size_t]: the test for a negative length never holds. *)
Definition request_set_content_length : rprog unit :=
  let! clen := request_field (bs "Content-Length") in
  match clen with
  | None => pfail
  | Some c => let! len := plift (atoi c) in pmod (fun rq => set_content_length rq (w64 len))
  end.

(** A date that cannot be parsed is ignored. *)
Definition request_parse_ims : rprog unit :=
  pmod (fun rq => set_if_modified_since rq 0);;;
  let! ims := request_field (bs "If-Modified-Since") in
  match ims with
  | None => pret tt
  | Some s => pignore (let! t := plift (u_httpdate_to_tt s) in pmod (fun rq => set_if_modified_since rq t))
  end.

Definition is_comma_sep (c : byte) : bool := bool_decide (c = " "%byte \/ c = ","%byte).

Definition request_is_encoding_accepted (encoding : list byte) : rprog bool :=
  let! ae := request_field (bs "Accept-Encoding") in
  match ae with
  | None => pret false
  | Some s => pret (u_alloc (S (length s)) &&
                    existsb (fun tok => strcaseeq tok encoding) (strtok is_comma_sep s))
  end.

Definition match_content_type (h : header) (mime_type : list byte) : res bool :=
  (fun ct : option (list byte) =>
     match ct with Some s => strcaseprefix mime_type s | None => false end)
    <$> header_get_field_value h (bs "Content-Type").

Definition request_is_multipart_formdata : rprog bool := fun rq =>
  (rq, match_content_type (rq_header rq) (bs "multipart/form-data")).

Definition request_is_urlencoded : rprog bool :=
  let! ct := request_field (bs "Content-Type") in
  match ct with
  | None => pret true
  | Some _ => fun rq => (rq, match_content_type (rq_header rq) (bs "application/x-www-form-urlencoded"))
  end.

(** ** Variables *)

(** A function on one of the lists of variables of the request. *)
Definition on_vars {A} (get : request D C -> vars) (set : request D C -> vars -> request D C)
    (f : vars -> vars * res A) : rprog A := fun rq =>
  let '(vs, r) := f (get rq) in (set rq vs, r).

Fixpoint pfor {A} (f : A -> rprog unit) (l : list A) : rprog unit :=
  match l with
  | [] => pret tt
  | x :: l' => f x;;; pfor f l'
  end.

Definition is_cookie_sep (c : byte) : bool := bool_decide (c = " "%byte \/ c = ";"%byte).
Definition is_amp (c : byte) : bool := bool_decide (c = "&"%byte).

Definition request_parse_cookie (f : field) : rprog unit :=
  match field_get_value f with
  | None => pfail
  | Some v =>
      pfor (fun tok => pignore (on_vars cookies set_cookies (fun vs => vars_add_urlvar vs tok)))
           (strtok is_cookie_sep (u_strlcpy v COOKIE_BUFSZ).1)
  end.

Definition request_parse_cookies : rprog unit :=
  let! rq0 := pget in
  pfor (fun i =>
    let! rq := pget in
    match header_get_fieldn (rq_header rq) i ≫= (fun k => h_fields (rq_header rq) !! k) with
    | None => pfail
    | Some f =>
        match field_get_name f with
        | None => plift Fault
        | Some n => if strcaseeq n (bs "cookie") then request_parse_cookie f else pret tt
        end
    end) (seq 0 (header_field_count (rq_header rq0))).

(** A variable that does not decode is ignored; one that does goes into [args] and into
    the other list. *)
Definition request_cb_add_var (also : request D C -> vars)
    (set_also : request D C -> vars -> request D C) (tok : list byte) : rprog unit := fun rq =>
  let '(vs, r) := vars_add_urlvar (args rq) tok in
  let rq1 := set_args rq vs in
  match r with
  | Ok v => on_vars also set_also (fun vs => vars_add vs v) rq1
  | Fail => (rq1, Ok tt)
  | Fault => (rq1, Fault)
  | Timeout => (rq1, Timeout)
  end.

Definition request_cb_add_post_var : list byte -> rprog unit := request_cb_add_var args_post set_args_post.
Definition request_cb_add_get_var : list byte -> rprog unit := request_cb_add_var args_get set_args_get.

(** [urlquery] is the buffer, NUL-terminated somewhere from [offset] on. *)
Definition foreach_query_var (urlquery : option (list byte)) (offset : nat)
    (cb : list byte -> rprog unit) : rprog unit :=
  match urlquery with
  | None => pret tt
  | Some q =>
      let query := cstr (drop offset q) in
      if u_alloc (S (length query)) then pfor cb (strtok is_amp query) else pfail
  end.

Definition request_parse_query_args : rprog unit :=
  let! rq := pget in foreach_query_var (query rq) 0 request_cb_add_get_var.

(** [io_read] on the stream of the request. *)
Definition rq_read (fuel size : nat) : rprog (list byte) := fun rq =>
  let '(i, r) := io_read fuel (rq_io rq) size in (set_rq_io rq i, r).
Definition rq_gets (fuel size : nat) : rprog (list byte) := fun rq =>
  let '(i, r) := io_gets fuel (rq_io rq) size in (set_rq_io rq i, r).

(** The query buffer is enlarged and the body read behind what it holds; a negative length
    would write before the buffer.  When the body is short the buffer keeps the bytes
    read so far, without a terminator. *)
Definition request_parse_urlencoded_data (fuel : nat) : rprog unit :=
  let! rq := pget in
  let q := default [] (query rq) in
  if decide (2 ^ 63 <= content_length rq)%Z then plift Fault else
  let len := Z.to_nat (content_length rq) in
  if u_alloc (len + length q + 2) then
    let pre := if decide (q = []) then [] else q ++ bs "&" in
    pmod (fun rq => set_query rq (Some pre));;;
    let! data := rq_read fuel len in
    pmod (fun rq => set_query rq (Some (cstr (pre ++ data))));;;
    pguard (bool_decide (length data = len));;;
    foreach_query_var (Some (pre ++ data)) (length pre) request_cb_add_post_var
  else pmod (fun rq => set_query rq None);;; pfail.

(** ** The whole header *)

Definition is_wp (c : byte) : bool := bool_decide (c = " "%byte \/ c = x09 \/ c = x0d \/ c = x0a).

(** [header_load] on the header and the stream of the request. *)
Definition rq_header_load (fuel n : nat) : rprog unit := fun rq =>
  let '(i, h, r) := header_load fuel n (rq_header rq) (rq_io rq) in
  (set_rq_header (set_rq_io rq i) h, r).

(** [timer]: [timerm_add] succeeds; the alarm itself closes the stream, which reading
    would report as an error.  [environ] is used by a CGI request. *)
Definition request_parse_header (fuel n : nat) (timer : bool) (environ : list (list byte))
    (is_valid_uri : option (list byte -> nat -> bool)) : rprog unit :=
  pguard timer;;;
  let! rq := pget in
  (if cgi rq then pmod (fun rq => set_rq_header rq (header_load_from_cgienv (rq_header rq) environ))
   else
     let! buf := rq_gets fuel RQ_LINE_BUFSZ in
     pguard (bool_decide (buf <> []));;;
     let ln := cstr buf in
     request_set_client_request ln;;;
     let toks := strtok is_wp ln in
     match toks !! 0 with None => pfail | Some m => request_set_method m end;;;
     match toks !! 1 with None => pfail | Some uri => request_set_uri uri is_valid_uri end;;;
     match toks !! 2 with None => pfail | Some proto => request_set_proto proto end;;;
     rq_header_load fuel n);;;
  request_parse_ims;;;
  request_parse_cookies;;;
  let! rq := pget in
  if decide (rq_method rq = HM_POST) then request_set_content_length else pret tt.
End request_ops.

(** ** Specification of the URI *)

Definition uri_query (uri : list byte) : option (list byte) :=
  (fun k => drop (S k) uri) <$> strchr uri QMARK.

(** The path a URI asks for: decoded, cut at the question mark and normalised. *)
Definition uri_path (uri : list byte) : option (list byte) :=
  d ← Url.url_unescape uri;
  let p := upto QMARK (cstr d) in
  if decide (head (to_slashes p) = Some SLASH) then Some (uri_spec p) else None.

(** Where a path may be split: at its end and before each of its slashes, from the right. *)
Definition cuts_below (path : list byte) (len : nat) : list nat :=
  rev (List.filter (fun k => bool_decide (path !! k = Some SLASH)) (seq 0 len)).
Definition cuts (path : list byte) : list nat := length path :: cuts_below path (length path).

(** The longest valid prefix is the file, the rest the path info. *)
Definition split_path (valid : list byte -> nat -> bool) (path : list byte)
    : list byte * option (list byte) :=
  match List.find (valid path) (cuts path) with
  | Some k => (take k path, if decide (drop k path = []) then None else Some (drop k path))
  | None => (path, None)
  end.

Definition the_valid (v : option (list byte -> nat -> bool)) : list byte -> nat -> bool :=
  default (fun _ _ => true) v.

Lemma strnrchr_cuts (path : list byte) (len : nat) : len <= length path ->
  exists o, Search.u_strnrchr path SLASH len = Ok o /\
    match o with
    | None => cuts_below path len = []
    | Some p => p < len /\ cuts_below path len = p :: cuts_below path p
    end.
Proof.
  induction len as [|i IH]; intros Hl; simpl; [by exists None|].
  destruct (lookup_lt_is_Some_2 path i) as [b Hb]; [lia|]. rewrite Hb.
  assert (cuts_below path (S i) = if decide (b = SLASH) then i :: cuts_below path i else cuts_below path i)
    as E.
  { unfold cuts_below. rewrite seq_S, List.filter_app. simpl. rewrite Hb.
    destruct (decide (b = SLASH)) as [->|Hne].
    - by rewrite bool_decide_true, rev_app_distr.
    - by rewrite bool_decide_false, app_nil_r by congruence. }
  rewrite E. destruct (decide (b = SLASH)) as [->|Hne]; [exists (Some i); split_and!; [done|lia|done]|].
  destruct (IH ltac:(lia)) as (o & -> & Ho). exists o. split; [done|].
  destruct o; [|done]. destruct Ho. split; [lia|done].
Qed.

Section request_uri.
Context {L : Libu} {LS : LibuSpec L} {D C : Type}.
Implicit Types rq : request D C.

Lemma set_string_field_Ok (set : request D C -> option (list byte) -> request D C) (v : list byte)
    rq rq' (u : unit) :
  set_string_field set v rq = (rq', Ok u) -> rq' = set (set rq None) (Some v).
Proof.
  unfold set_string_field, pbind, pmod. destruct (u_alloc _); [|done]. by intros [= <- _].
Qed.

Lemma path_info_loop_Ok (fuel : nat) (valid : option (list byte -> nat -> bool)) (path : list byte)
    (len : nat) rq rq' (u : unit) :
  len < fuel -> len <= length path -> filename rq = Some path -> path_info rq = None ->
  path_info_loop fuel valid path len rq = (rq', Ok u) ->
  let '(fn, pi) := match List.find (the_valid valid path) (len :: cuts_below path len) with
                   | Some k => (take k path, if decide (drop k path = []) then None else Some (drop k path))
                   | None => (path, None)
                   end in
  rq' = set_path_info (set_filename rq (Some fn)) pi.
Proof.
  revert len. induction fuel as [|fuel IH]; intros len Hf Hl Hfn Hpi; [lia|]. cbn [path_info_loop].
  assert (match valid with None => true | Some v => v path len end = the_valid valid path len) as ->
    by (by destruct valid).
  cbn [List.find]. destruct (the_valid valid path len).
  - unfold pbind at 1. destruct (request_set_filename path rq) as [rq1 []] eqn:E; try done.
    apply set_string_field_Ok in E as ->. unfold pbind at 1, pmod. cbn beta iota.
    destruct (decide (drop len path = [])) as [Hd|Hd].
    + intros [= <- _]. destruct rq; simpl in *. by rewrite Hpi.
    + intros H. apply set_string_field_Ok in H as ->. by destruct rq.
  - destruct (strnrchr_cuts path len Hl) as (o & E & Ho). unfold pbind, plift. rewrite E.
    destruct o as [p|].
    + destruct Ho as [Hp ->]. apply IH; (done || lia).
    + rewrite Ho. intros [= <- _]. destruct rq; simpl in *. by rewrite Hfn, Hpi.
Qed.

Definition cleared rq : request D C := (request_clear_uri rq).1.

(** The request after a URI has been set. *)
Definition uri_request rq (uri path : list byte) (valid : option (list byte -> nat -> bool)) : request D C :=
  let '(fn, pi) := split_path (the_valid valid) path in
  set_path_info (set_filename (set_query (set_rq_uri (cleared rq) (Some uri)) (uri_query uri)) (Some fn)) pi.

Lemma MAX_URI_small (n : nat) : n < MAX_URI -> (Z.of_nat n < SIZE_MOD)%Z.
Proof. unfold MAX_URI, SIZE_MOD. lia. Qed.

#[local] Opaque MAX_URI.

Lemma request_set_uri_Ok (uri : list byte) (valid : option (list byte -> nat -> bool)) rq rq' (u : unit) :
  request_set_uri uri valid rq = (rq', Ok u) ->
  length uri < MAX_URI /\ exists path, uri_path uri = Some path /\ rq' = uri_request rq uri path valid.
Proof.
  unfold request_set_uri. unfold pbind at 1. cbn [request_clear_uri pmod]. fold (cleared rq).
  intros (r1 & [] & H1 & H)%pbind_inv. unfold pguard in H1.
  case_bool_decide as Hlen; [|done]. injection H1 as <-. split; [done|].
  apply pbind_inv in H as (r2 & [] & H2 & H). apply set_string_field_Ok in H2.
  apply pbind_inv in H as (r3 & [] & H3 & H).
  assert (r3 = set_query (set_rq_uri (cleared rq) (Some uri)) (uri_query uri)) as ->.
  { unfold uri_query. destruct (strchr uri QMARK) as [k|]; simpl in H3 |- *.
    - apply set_string_field_Ok in H3. rewrite H3, H2. destruct rq; reflexivity.
    - injection H3 as <-. rewrite H2. destruct rq; reflexivity. }
  clear H2 H3. apply pbind_inv in H as (r4 & cp & H4 & H). unfold plift in H4.
  injection H4 as <- H4. unfold Url.u_urlncpy in H4.
  rewrite Url.url_decode_cstring in H4 by (by apply MAX_URI_small).
  apply pbind_inv in H as (r5 & [] & H5 & H). unfold pguard in H5. case_bool_decide; [|done].
  injection H5 as <-. apply pbind_inv in H as (r6 & path & H6 & H). unfold plift in H6.
  injection H6 as <- H6. apply uri_normalize_spec in H6 as [Hpath Habs].
  apply pbind_inv in H as (r7 & [] & H7 & H). apply set_string_field_Ok in H7. exists path. split.
  { unfold uri_path. destruct (Url.url_unescape uri) as [d|]; simpl in H4; [|done].
    injection H4 as ->. simpl. by rewrite decide_True, <- Hpath. }
  eapply path_info_loop_Ok in H; [|lia|lia|rewrite H7; by destruct rq|rewrite H7; by destruct rq].
  unfold uri_request, split_path, cuts.
  destruct (List.find _ _) as [k|]; subst rq' r7; destruct rq; reflexivity.
Qed.

Context {LM : LibuMem L}.

Lemma set_string_field_total (set : request D C -> option (list byte) -> request D C) (v : list byte) rq :
  set_string_field set v rq = (set (set rq None) (Some v), Ok tt).
Proof. unfold set_string_field, pbind, pmod. by rewrite u_alloc_ok. Qed.

Lemma path_info_loop_total (fuel : nat) (valid : option (list byte -> nat -> bool)) (path : list byte)
    (len : nat) rq :
  len < fuel -> len <= length path -> (path_info_loop fuel valid path len rq).2 = Ok tt.
Proof.
  revert len rq. induction fuel as [|fuel IH]; intros len rq Hf Hl; [lia|]. cbn [path_info_loop].
  destruct (match valid with None => true | Some v => v path len end).
  - erewrite pbind_Ok by apply set_string_field_total. erewrite pbind_Ok by done.
    case_decide; [done|]. unfold request_set_path_info. by rewrite set_string_field_total.
  - destruct (strnrchr_cuts path len Hl) as (o & E & Ho). unfold pbind, plift. rewrite E.
    destruct o as [p|]; [|done]. apply IH; lia.
Qed.

Lemma request_set_uri_outcome (uri : list byte) (valid : option (list byte -> nat -> bool)) rq :
  (request_set_uri uri valid rq).2 =
  if decide (length uri < MAX_URI) then
    match uri_path uri with Some _ => Ok tt | None => Fail end
  else Fail.
Proof.
  unfold request_set_uri. erewrite pbind_Ok by done. unfold pbind at 1, pguard.
  destruct (decide _) as [Hlen|Hlen]; [rewrite bool_decide_true by done|by rewrite bool_decide_false].
  erewrite pbind_Ok by apply set_string_field_total.
  assert (forall r : request D C, exists r', match strchr uri QMARK with
      | Some k => request_set_query_string (drop (S k) uri) | None => pret tt end r = (r', Ok tt)) as G.
  { intros r. destruct (strchr uri QMARK) as [k|]; [|by eexists].
    unfold request_set_query_string. rewrite set_string_field_total. by eexists. }
  edestruct G as [r3 E3]. erewrite pbind_Ok by exact E3. clear E3 G.
  unfold pbind at 1, plift, Url.u_urlncpy. rewrite Url.url_decode_cstring by (by apply MAX_URI_small).
  unfold uri_path. destruct (Url.url_unescape uri) as [d|]; simpl; [|done].
  unfold pbind at 1. case_bool_decide as Hd; cycle 1.
  { by subst d. }
  unfold pbind at 1. set (p := upto QMARK (cstr d)). destruct (decide _) as [Hp|Hp].
  - destruct (uri_normalize_total p Hp) as [path ->].
    erewrite pbind_Ok by apply set_string_field_total.
    apply (path_info_loop_total (S (length path))); lia.
  - unfold u_uri_normalize. fold (to_slashes p). by rewrite decide_True.
Qed.
End request_uri.

Lemma find_cuts_app (valid : list byte -> nat -> bool) (path : list byte) :
  let '(fn, pi) := split_path valid path in path = fn ++ default [] pi.
Proof.
  unfold split_path. destruct (List.find _ _) as [k|]; [|by rewrite app_nil_r].
  case_decide as E; simpl; [|by rewrite take_drop].
  by rewrite app_nil_r, <- (take_drop k path) at 1; rewrite E, app_nil_r.
Qed.

Section request_uri_claims.
Context {L : Libu} {LS : LibuSpec L} {D C : Type}.
Implicit Types rq : request D C.


Context {LM : LibuMem L}.

(** A URI shorter than 4096 bytes that decodes to an absolute path is accepted: the
    query string is what follows the first question mark, the file name is the longest
    prefix of the normalised path, cut at a component, that the server knows, the path
    info is the rest, and without a known prefix the whole path is the file name.  Any
    other URI is refused. *)
Theorem request_set_uri_spec (uri : list byte) (valid : option (list byte -> nat -> bool)) rq :
  match (if decide (length uri < MAX_URI) then uri_path uri else None) with
  | Some path =>
      exists rq', request_set_uri uri valid rq = (rq', Ok tt) /\
        rq' = uri_request rq uri path valid /\
        rq_uri rq' = Some uri /\ query rq' = uri_query uri /\
        (filename rq', path_info rq') =
          let '(fn, pi) := split_path (the_valid valid) path in (Some fn, pi)
  | None => (request_set_uri uri valid rq).2 = Fail
  end.
Proof.
  pose proof (request_set_uri_outcome uri valid rq) as Ho. destruct (decide _); [|done].
  destruct (uri_path uri) as [path|] eqn:Ep; [|done].
  destruct (request_set_uri uri valid rq) as [rq' r] eqn:E. simpl in Ho. subst r.
  pose proof (request_set_uri_Ok _ _ _ _ _ E) as (_ & path' & Hp & ->).
  assert (path' = path) as -> by congruence. eexists. split_and!; [done|done|..];
    unfold uri_request; destruct (split_path _ _); by destruct rq.
Qed.
End request_uri_claims.

(** ** What the rest of the header leaves alone *)

(** The paths of a request, which only the URI and its resolution set. *)
Definition same_paths {D C} (rq rq' : request D C) : Prop :=
  filename rq' = filename rq /\ path_info rq' = path_info rq /\
  resolved_filename rq' = resolved_filename rq /\ resolved_path_info rq' = resolved_path_info rq.

#[global] Instance same_paths_preorder {D C} : PreOrder (same_paths (D:=D) (C:=C)).
Proof. split; [by intros ?; split_and!|]. intros ??? (?&?&?&?) (?&?&?&?). split_and!; congruence. Qed.

Section same_paths.
Context {L : Libu} {D C : Type} {DO : DevOps D} {CO : CodecOps C}.
Abbreviation keeps_paths m := (keeps (same_paths (D:=D) (C:=C)) m).

Lemma pfor_keeps {A} (f : A -> prog (request D C) unit) (l : list A) :
  (forall a, keeps_paths (f a)) -> keeps_paths (pfor f l).
Proof. intros H. induction l; cbn [pfor]; keeps_auto. Qed.

Lemma parse_ims_keeps : keeps_paths request_parse_ims.
Proof.
  unfold request_parse_ims. keeps_seq; [apply keeps_mod; intros []; by split_and!|intros _].
  keeps_seq; [by intros rq; split_and!|]. keeps_auto. apply keeps_mod. intros []. by split_and!.
Qed.

Lemma parse_cookies_keeps : keeps_paths request_parse_cookies.
Proof.
  unfold request_parse_cookies. keeps_seq; [keeps_auto|intros rq0].
  apply pfor_keeps. intros i. keeps_seq; [keeps_auto|intros rq]. keeps_auto.
  unfold request_parse_cookie. keeps_auto. apply pfor_keeps. keeps_auto.
  intros r. unfold on_vars. destruct (vars_add_urlvar _ _). by destruct r.
Qed.

Lemma set_content_length_keeps : keeps_paths request_set_content_length.
Proof.
  unfold request_set_content_length. keeps_seq; [by intros rq; split_and!|]. keeps_auto.
  apply keeps_mod. intros []. by split_and!.
Qed.

Lemma header_load_keeps (fuel n : nat) : keeps_paths (rq_header_load fuel n).
Proof. intros rq. unfold rq_header_load. destruct (header_load _ _ _ _) as [[i h] r]. by destruct rq. Qed.

#[local] Hint Resolve parse_ims_keeps parse_cookies_keeps set_content_length_keeps header_load_keeps : keeps.

(** A parsed request has the paths that its URI gave it. *)
Lemma parse_header_paths (fuel n : nat) (timer : bool) (environ : list (list byte))
    (valid : option (list byte -> nat -> bool)) (rq rq' : request D C) (u : unit) :
  cgi rq = false ->
  request_parse_header fuel n timer environ valid rq = (rq', Ok u) ->
  exists uri rq1 rq2, request_set_uri uri valid rq1 = (rq2, Ok tt) /\ same_paths rq2 rq'.
Proof.
  intros Hcgi H. unfold request_parse_header in H. apply pbind_inv in H as (r0 & [] & H0 & H).
  unfold pguard in H0. destruct timer; [|done]. injection H0 as <-.
  apply pbind_inv in H as (r0 & ? & [= <- <-] & H). rewrite Hcgi in H.
  apply pbind_inv in H as (r9 & [] & H9 & H).
  apply pbind_inv in H9 as (r1 & buf & H1 & H9). apply pbind_inv in H9 as (r2 & [] & H2 & H9).
  apply pbind_inv in H9 as (r3 & [] & H3 & H9). apply pbind_inv in H9 as (r4 & [] & H4 & H9).
  apply pbind_inv in H9 as (r5 & [] & H5 & H9).
  destruct (strtok is_wp (cstr buf) !! 1) as [uri|]; [|done]. exists uri, r4, r5. split; [done|].
  assert (keeps_paths (match strtok is_wp (cstr buf) !! 2 with None => pfail | Some p => request_set_proto p end;;;
            rq_header_load fuel n)) as K1.
  { keeps_seq; [|intros _; apply header_load_keeps]. unfold request_set_proto, set_string_field.
    keeps_auto; apply keeps_mod; intros []; by split_and!. }
  specialize (K1 r5). rewrite H9 in K1. simpl in K1.
  assert (keeps_paths (request_parse_ims;;; request_parse_cookies;;;
    let! rq := pget in if decide (rq_method rq = HM_POST) then request_set_content_length else pret tt)) as K2.
  { keeps_auto. }
  specialize (K2 r9). rewrite H in K2. simpl in K2. by etrans.
Qed.
End same_paths.

(** ** Variables of a request *)

Definition vars_app (vs : vars) (l : list var) : vars := mkVars (v_list vs ++ l) (v_foreign vs).

Lemma vars_app_nil (vs : vars) : vars_app vs [] = vs.
Proof. destruct vs. unfold vars_app. simpl. by rewrite app_nil_r. Qed.

Lemma vars_app_app (vs : vars) (l k : list var) : vars_app (vars_app vs l) k = vars_app vs (l ++ k).
Proof. unfold vars_app. simpl. by rewrite app_assoc. Qed.

(** The variables that a query string carries. *)
Definition query_vars (q : list byte) : list var := omap urlvar (strtok is_amp q).

(** The query string of a list of variables. *)
Definition encode_query (nvs : list (list byte * list byte)) : list byte :=
  drop 1 (concat (map (cons "&"%byte) (map (fun nv => encode_pair nv.1 nv.2) nvs))).

Lemma token_bound (delim : byte -> bool) (s : list byte) (n : nat) :
  length s < n -> Forall (fun t => length t < n) (strtok delim s).
Proof.
  intros Hn. pose proof (strtok_length delim s) as H.
  assert (sum_list (length <$> strtok delim s) <= length s) as H'.
  { destruct (strtok delim s); simpl in *; lia. }
  clear H. apply Forall_forall. intros t Ht.
  assert (length t <= sum_list (length <$> strtok delim s)); [|lia].
  clear H'. induction Ht as [t l|t u l _ IH]; csimpl in *; lia.
Qed.

Lemma url_encode_no_amp (s : list byte) : Forall (fun c => is_amp c = false) (flat_map Url.url_encode_char s).
Proof.
  assert (forall c, Forall (fun c => is_amp c = false) (Url.url_encode_char c)) as H by byte_brute.
  induction s as [|c s IH]; simpl; [constructor|]. by apply Forall_app.
Qed.

Lemma encode_pair_token (n v : list byte) : is_token is_amp (encode_pair n v).
Proof.
  unfold encode_pair. split; [by destruct (flat_map _ n)|]. apply Forall_app.
  split; [apply url_encode_no_amp|]. constructor; [done|apply url_encode_no_amp].
Qed.

(** A query string that was encoded carries the variables it was made of. *)
Lemma query_vars_encode (nvs : list (list byte * list byte)) :
  Forall (fun nv => nv.1 <> [] /\ (x00 ∉ nv.1)) nvs ->
  query_vars (encode_query nvs) = map (fun nv => fresh_var nv.1 (var_data nv.2)) nvs.
Proof.
  intros H. unfold query_vars, encode_query.
  assert (strtok is_amp (drop 1 (concat (map (cons "&"%byte) (map (fun nv => encode_pair nv.1 nv.2) nvs)))) =
          map (fun nv => encode_pair nv.1 nv.2) nvs) as ->.
  { pose proof (strtok_render is_amp "&" (map (fun nv => encode_pair nv.1 nv.2) nvs) []) as R.
    rewrite app_nil_r in R. destruct nvs as [|nv nvs]; [done|]. simpl in *. rewrite drop_0.
    rewrite <- (strtok_cons_delim is_amp "&") by done. apply R; [done| |constructor].
    constructor; [apply encode_pair_token|]. apply Forall_map, Forall_true. intros. apply encode_pair_token. }
  induction H as [|[n v] nvs [Hn Hz] _ IH]; simpl in *; [done|].
  rewrite urlvar_encode by done. by rewrite <- IH.
Qed.

Section request_vars.
Context {L : Libu} {LS : LibuSpec L} {LM : LibuMem L} {D C : Type} {DO : DevOps D} {CO : CodecOps C}.
Implicit Types rq : request D C.

Definition add_get rq (l : list var) : request D C :=
  set_args_get (set_args rq (vars_app (args rq) l)) (vars_app (args_get rq) l).
Definition add_post rq (l : list var) : request D C :=
  set_args_post (set_args rq (vars_app (args rq) l)) (vars_app (args_post rq) l).

Lemma add_get_nil rq : add_get rq [] = rq.
Proof. unfold add_get. rewrite !vars_app_nil. by destruct rq. Qed.
Lemma add_post_nil rq : add_post rq [] = rq.
Proof. unfold add_post. rewrite !vars_app_nil. by destruct rq. Qed.
Lemma add_get_app rq (l k : list var) : add_get (add_get rq l) k = add_get rq (l ++ k).
Proof. unfold add_get. destruct rq. simpl. by rewrite !vars_app_app. Qed.
Lemma add_post_app rq (l k : list var) : add_post (add_post rq l) k = add_post rq (l ++ k).
Proof. unfold add_post. destruct rq. simpl. by rewrite !vars_app_app. Qed.

Definition list_of_opt {A} (o : option A) : list A := match o with Some a => [a] | None => [] end.

Lemma cb_get_eq rq (tok : list byte) : (Z.of_nat (length tok) < SIZE_MOD)%Z ->
  request_cb_add_get_var tok rq = (add_get rq (list_of_opt (urlvar tok)), Ok tt).
Proof.
  intros Ht. unfold request_cb_add_get_var, request_cb_add_var. rewrite vars_add_urlvar_eq by done.
  destruct (urlvar tok) as [v|]; simpl.
  - unfold on_vars. rewrite vars_add_eq. unfold add_get, vars_app. by destruct rq.
  - rewrite add_get_nil. by destruct rq.
Qed.

Lemma cb_post_eq rq (tok : list byte) : (Z.of_nat (length tok) < SIZE_MOD)%Z ->
  request_cb_add_post_var tok rq = (add_post rq (list_of_opt (urlvar tok)), Ok tt).
Proof.
  intros Ht. unfold request_cb_add_post_var, request_cb_add_var. rewrite vars_add_urlvar_eq by done.
  destruct (urlvar tok) as [v|]; simpl.
  - unfold on_vars. rewrite vars_add_eq. unfold add_post, vars_app. by destruct rq.
  - rewrite add_post_nil. by destruct rq.
Qed.

(** A loop over tokens that only adds what each token stands for. *)
Lemma pfor_adds (f : list byte -> prog (request D C) unit) (add : request D C -> list var -> request D C)
    (toks : list (list byte)) rq :
  (forall rq, add rq [] = rq) -> (forall rq l k, add (add rq l) k = add rq (l ++ k)) ->
  Forall (fun t => forall rq, f t rq = (add rq (list_of_opt (urlvar t)), Ok tt)) toks ->
  pfor f toks rq = (add rq (omap urlvar toks), Ok tt).
Proof.
  intros Hn Ha H. revert rq. induction H as [|t toks Ht _ IH]; intros rq; simpl.
  - by rewrite Hn.
  - unfold pbind. rewrite Ht, IH, Ha. by destruct (urlvar t).
Qed.

Lemma query_vars_eq (q : list byte) rq :
  (Z.of_nat (length q) < SIZE_MOD)%Z ->
  pfor request_cb_add_get_var (strtok is_amp q) rq = (add_get rq (query_vars q), Ok tt) /\
  pfor request_cb_add_post_var (strtok is_amp q) rq = (add_post rq (query_vars q), Ok tt).
Proof.
  intros Hq.
  assert (Forall (fun t => length t < Z.to_nat SIZE_MOD) (strtok is_amp q)) as Ht
    by (apply token_bound; lia).
  split; apply pfor_adds; auto using add_get_nil, add_post_nil, add_get_app, add_post_app;
    (eapply Forall_impl; [exact Ht|]); intros t Hl r; cbv beta in Hl;
    [apply cb_get_eq|apply cb_post_eq]; lia.
Qed.

(** The variables of the query string are added, in order, to the arguments and to
    the GET arguments; pieces that are not variables are skipped. *)
Theorem request_query_args rq (q : list byte) :
  query rq = Some q -> (x00 ∉ q) -> (Z.of_nat (length q) < SIZE_MOD)%Z ->
  request_parse_query_args rq = (add_get rq (query_vars q), Ok tt) /\
  forall nvs, Forall (fun nv => nv.1 <> [] /\ (x00 ∉ nv.1)) nvs -> q = encode_query nvs ->
    query_vars q = map (fun nv => fresh_var nv.1 (var_data nv.2)) nvs.
Proof.
  intros Hq Hz Hl. split; [|intros nvs Hn ->; by apply query_vars_encode].
  unfold request_parse_query_args. unfold pbind, pget. rewrite Hq. unfold foreach_query_var.
  rewrite drop_0, cstr_id, u_alloc_ok by done. by apply query_vars_eq.
Qed.

Context {DS : DevSource D}.

(** The body of a POST, as long as its announced length, is read from the stream
    and nothing more; its variables go to the arguments and to the POST arguments, and
    the body is appended to the query string. *)
Theorem request_post_args (fuel : nat) rq (body rest : list byte) :
  readable (rq_io rq) -> instream (rq_io rq) = body ++ rest -> 0 < fuel -> (x00 ∉ body) ->
  content_length rq = Z.of_nat (length body) -> (content_length rq < 2 ^ 63)%Z ->
  exists i', request_parse_urlencoded_data fuel rq =
      (add_post (set_query (set_rq_io rq i') (Some (cstr (match query rq with
           | Some (b :: q) => (b :: q) ++ bs "&" | _ => [] end ++ body)))) (query_vars body), Ok tt) /\
    readable i' /\ instream i' = rest.
Proof.
  intros Hr Hi Hf Hz Hc Hlt. unfold request_parse_urlencoded_data. unfold pbind at 1, pget.
  rewrite decide_False by lia. rewrite u_alloc_ok, Hc, Nat2Z.id.
  set (pre := if decide (default [] (query rq) = []) then [] else default [] (query rq) ++ bs "&").
  assert (match query rq with Some (b :: q) => (b :: q) ++ bs "&" | _ => [] end = pre) as ->.
  { unfold pre. by destruct (query rq) as [[|b q]|]. }
  unfold pbind at 1, pmod at 1. unfold pbind at 1, rq_read.
  replace (rq_io (set_query rq (Some pre))) with (rq_io rq) by (by destruct rq).
  destruct (io_read_spec fuel (rq_io rq) (length body) Hr Hf) as (i' & -> & R1 & R2 & _).
  rewrite Hi, take_app_length in *. rewrite drop_app_length in R2. unfold pbind at 1, pmod.
  unfold pbind, pguard. rewrite bool_decide_true by done. unfold foreach_query_var.
  rewrite drop_app_length, cstr_id, u_alloc_ok by done.
  destruct (query_vars_eq body (set_query (set_rq_io (set_query rq (Some pre)) i')
             (Some (cstr (pre ++ body))))) as [_ ->]; [unfold SIZE_MOD; lia|].
  exists i'. split_and!; [|done|done]. by destruct rq.
Qed.
End request_vars.

(** ** The whole request header *)

(** The variables of the Cookie fields. *)
Definition cookie_vars (fs : list field) : list var :=
  flat_map (fun f => if fmatch (bs "cookie") f
                     then omap urlvar (strtok is_cookie_sep (take (COOKIE_BUFSZ - 1) (default [] (f_value f))))
                     else []) fs.

Lemma COOKIE_BUFSZ_val : COOKIE_BUFSZ = N.to_nat 4096.
Proof. done. Qed.
Lemma RQ_LINE_BUFSZ_val : RQ_LINE_BUFSZ = N.to_nat 4096.
Proof. done. Qed.
#[local] Opaque COOKIE_BUFSZ RQ_LINE_BUFSZ MAX_URI.

Lemma cut_nl_app (l r : list byte) :
  (x0d ∉ l) -> (x0a ∉ l) -> cut_nl (l ++ x0d :: r) = l.
Proof.
  induction l as [|c l IH]; simpl; [done|]. intros H1 H2.
  rewrite decide_False by set_solver. rewrite IH by set_solver. done.
Qed.

Section request_header.
Context {L : Libu} {LS : LibuSpec L} {LM : LibuMem L} {D C : Type} {DO : DevOps D} {CO : CodecOps C}.
Implicit Types rq : request D C.

Definition add_cookies rq (l : list var) : request D C := set_cookies rq (vars_app (cookies rq) l).

Lemma add_cookies_nil rq : add_cookies rq [] = rq.
Proof. unfold add_cookies. rewrite vars_app_nil. by destruct rq. Qed.
Lemma add_cookies_app rq (l k : list var) : add_cookies (add_cookies rq l) k = add_cookies rq (l ++ k).
Proof. unfold add_cookies. destruct rq. simpl. by rewrite vars_app_app. Qed.
Lemma add_cookies_header rq (l : list var) : rq_header (add_cookies rq l) = rq_header rq.
Proof. by destruct rq. Qed.

Lemma parse_cookie_eq (f : field) (v : list byte) rq :
  f_value f = Some v ->
  request_parse_cookie f rq =
    (add_cookies rq (omap urlvar (strtok is_cookie_sep (take (COOKIE_BUFSZ - 1) v))), Ok tt).
Proof.
  intros Hv. unfold request_parse_cookie, field_get_value. rewrite Hv.
  rewrite u_strlcpy_spec by (rewrite COOKIE_BUFSZ_val; lia). simpl fst.
  apply pfor_adds; [apply add_cookies_nil|apply add_cookies_app|].
  eapply Forall_impl; [apply (token_bound _ _ COOKIE_BUFSZ)|].
  { rewrite length_take, COOKIE_BUFSZ_val. lia. }
  intros t Ht r. cbv beta in Ht. unfold pignore, on_vars.
  rewrite vars_add_urlvar_eq by (rewrite COOKIE_BUFSZ_val in Ht; unfold SIZE_MOD; lia).
  destruct (urlvar t); simpl; unfold add_cookies, vars_app; simpl; [done|].
  rewrite app_nil_r. f_equal. destruct r; simpl. by destruct cookies0.
Qed.

Lemma parse_cookies_eq rq : header_ok (rq_header rq) ->
  request_parse_cookies rq = (add_cookies rq (cookie_vars (h_fields (rq_header rq))), Ok tt).
Proof.
  intros [Hn Hf]. unfold request_parse_cookies. unfold pbind at 1, pget at 1.
  unfold header_field_count. rewrite Hn. set (h := rq_header rq) in *.
  assert (forall fs pre r, h_fields h = pre ++ fs -> rq_header r = h -> Forall field_ok fs ->
    forall g, (forall i r', rq_header r' = h -> g i r' =
       match header_get_fieldn h i ≫= (fun k => h_fields h !! k) with
       | None => pfail | Some f =>
           match field_get_name f with
           | None => plift Fault
           | Some n => if strcaseeq n (bs "cookie") then request_parse_cookie f else pret tt
           end end r') ->
    pfor g (seq (length pre) (length fs)) r = (add_cookies r (cookie_vars fs), Ok tt)) as G.
  { induction fs as [|f fs IH]; intros pre r Hh Hr Hok g Hg.
    - simpl. by rewrite add_cookies_nil.
    - simpl. unfold pbind at 1. rewrite Hg by done. apply Forall_cons in Hok as [[[n Hfn] [v Hfv]] Hok].
      unfold header_get_fieldn. rewrite Hn, Hh, length_app. simpl.
      rewrite decide_False by lia. rewrite decide_True by lia. simpl.
      rewrite list_lookup_middle by done. unfold field_get_name, fmatch. rewrite Hfn.
      assert (h_fields h = (pre ++ [f]) ++ fs) as Hh' by (rewrite Hh, <- app_assoc; done).
      assert (S (length pre) = length (pre ++ [f])) as Hl by (rewrite length_app; simpl; lia).
      rewrite Hl. destruct (strcaseeq n (bs "cookie")).
      + rewrite (parse_cookie_eq f v) by done. rewrite Hfv. simpl default.
        rewrite (IH _ _ Hh') by (done || by rewrite add_cookies_header).
        by rewrite add_cookies_app.
      + unfold pret. rewrite (IH _ _ Hh') by done. done. }
  apply (G (h_fields h) [] rq); [done|done|done|].
  intros i r' Hr'. unfold pbind, pget. by rewrite Hr'.
Qed.

(** The time of a conditional request, 0 when there is none or it cannot be read. *)
Definition ims_time (h : header) : Z :=
  match head (vals h (bs "If-Modified-Since")) with
  | Some s => match u_httpdate_to_tt s with Ok t => t | _ => 0 end
  | None => 0
  end.

Lemma parse_ims_eq rq : header_ok (rq_header rq) ->
  (forall s, head (vals (rq_header rq) (bs "If-Modified-Since")) = Some s -> safe (u_httpdate_to_tt s)) ->
  request_parse_ims rq = (set_if_modified_since rq (ims_time (rq_header rq)), Ok tt).
Proof.
  intros Hh Hs. unfold request_parse_ims, ims_time. unfold pbind at 1, pmod at 1. unfold pbind at 1, request_field.
  replace (rq_header (set_if_modified_since rq 0)) with (rq_header rq) by (by destruct rq).
  rewrite header_get_field_value_eq by done.
  destruct (head _) as [s|]; [|done]. specialize (Hs s eq_refl) as [H1 H2].
  unfold pignore, pbind, plift, pmod. destruct (u_httpdate_to_tt s) as [t| | |]; try done.
  by destruct rq.
Qed.

Lemma set_content_length_eq rq (c : list byte) (z : Z) : header_ok (rq_header rq) ->
  head (vals (rq_header rq) (bs "Content-Length")) = Some c -> atoi c = Ok z ->
  request_set_content_length rq = (set_content_length rq (w64 z), Ok tt).
Proof.
  intros Hh Hc Hz. unfold request_set_content_length. unfold pbind at 1, request_field.
  rewrite header_get_field_value_eq, Hc by done. unfold pbind, plift. by rewrite Hz.
Qed.
End request_header.

(** The request line, without its newline. *)
Definition request_line (m uri proto : list byte) : list byte := m ++ bs " " ++ uri ++ bs " " ++ proto.

(** A word of the request line. *)
Definition is_word (w : list byte) : Prop := is_token is_wp w /\ (x00 ∉ w).

Lemma word_no_nl (w : list byte) : is_word w -> (x0d ∉ w) /\ (x0a ∉ w) /\ (x00 ∉ w) /\ w <> [].
Proof.
  intros [[Hne Hw] Hz]. rewrite Forall_forall in Hw.
  split_and!; [|..|done]; [| |done]; intros H; specialize (Hw _ H); done.
Qed.

Lemma request_line_tokens (m uri proto : list byte) :
  is_word m -> is_word uri -> is_word proto ->
  strtok is_wp (request_line m uri proto ++ [x0d; x0a]) = [m; uri; proto].
Proof.
  intros [Hm _] [Hu _] [Hp _].
  pose proof (strtok_render is_wp " " [m; uri; proto] [x0d; x0a]) as R. simpl in R.
  rewrite strtok_cons_delim in R by done. unfold request_line. simpl. rewrite <- app_assoc. simpl.
  rewrite <- app_assoc. simpl. rewrite app_nil_r, <- !app_assoc in R. simpl in R. rewrite <- !app_assoc in R. simpl in R.
  apply R; [done|by repeat constructor; try apply Hm; try apply Hu; try apply Hp|by repeat constructor].
Qed.

Lemma request_line_plain (m uri proto : list byte) :
  is_word m -> is_word uri -> is_word proto ->
  let l := request_line m uri proto in (x0d ∉ l) /\ (x0a ∉ l) /\ (x00 ∉ l).
Proof.
  intros (? & ? & ? & _)%word_no_nl (? & ? & ? & _)%word_no_nl (? & ? & ? & _)%word_no_nl.
  unfold request_line. simpl. split_and!; set_solver.
Qed.

Section request_parsing.
Context {L : Libu} {LS : LibuSpec L} {LM : LibuMem L} {D C : Type} {DO : DevOps D} {CO : CodecOps C}
        {DS : DevSource D}.
Implicit Types rq : request D C.

Lemma rq_gets_line (fuel : nat) rq (l rest : list byte) :
  readable (rq_io rq) -> 0 < fuel -> instream (rq_io rq) = l ++ [x0d; x0a] ++ rest ->
  (x0a ∉ l) -> length l + 2 < RQ_LINE_BUFSZ ->
  exists i', rq_gets fuel RQ_LINE_BUFSZ rq = (set_rq_io rq i', Ok (l ++ [x0d; x0a])) /\
    readable i' /\ instream i' = rest.
Proof.
  intros Hr Hf Hi Hl Hn. unfold rq_gets, io_gets.
  destruct (io_get_until_spec fuel (rq_io rq) x0a RQ_LINE_BUFSZ Hr Hf ltac:(lia)) as (i' & -> & R1 & R2 & _).
  assert (line_of x0a (RQ_LINE_BUFSZ - 1) (instream (rq_io rq)) = l ++ [x0d; x0a]) as E.
  { rewrite Hi. replace (l ++ [x0d; x0a] ++ rest) with ((l ++ [x0d]) ++ x0a :: rest)
      by (rewrite <- app_assoc; done).
    rewrite line_of_newline; [by rewrite <- app_assoc|set_solver|rewrite length_app; simpl; lia]. }
  rewrite E in *. exists i'. split_and!; [done|done|]. rewrite R2, Hi, app_assoc. apply drop_app_length.
Qed.

(** The header as the client sent it. *)
Definition loaded rq (nvs : list (list byte * list byte)) : header :=
  mkHeader (h_fields (rq_header rq) ++ map mk_field nvs) (nfields (rq_header rq) + length nvs).

(** The request line and the header are read and the request built, up to the checks on
    the header fields. *)
Lemma request_line_parsed (fuel n : nat) rq (m uri proto path : list byte)
    (nvs : list (list byte * list byte)) (body : list byte) (valid : option (list byte -> nat -> bool)) :
  readable (rq_io rq) -> 0 < fuel -> 0 < n ->
  instream (rq_io rq) = request_line m uri proto ++ [x0d; x0a] ++ send_lines (map field_line nvs) ++ body ->
  length (request_line m uri proto) + 2 < RQ_LINE_BUFSZ ->
  is_word m -> is_word uri -> is_word proto -> length uri < MAX_URI ->
  method_of m <> HM_UNKNOWN -> uri_path uri = Some path -> strcaseprefix (bs "http") proto = true ->
  header_ok (rq_header rq) -> Forall pair_ok nvs -> length nvs < HEADER_MAX_FIELD_COUNT ->
  exists i', readable i' /\ instream i' = body /\
  (let! buf := rq_gets fuel RQ_LINE_BUFSZ in
   pguard (bool_decide (buf <> []));;;
   let ln := cstr buf in
   request_set_client_request ln;;;
   let toks := strtok is_wp ln in
   match toks !! 0 with None => pfail | Some m => request_set_method m end;;;
   match toks !! 1 with None => pfail | Some uri => request_set_uri uri valid end;;;
   match toks !! 2 with None => pfail | Some proto => request_set_proto proto end;;;
   rq_header_load fuel n) rq =
  (set_rq_header (set_rq_io (set_protocol (uri_request
     (set_rq_method (set_cli_rq rq (Some (request_line m uri proto))) (method_of m))
     uri path valid) (Some proto)) i') (loaded rq nvs), Ok tt).
Proof.
  intros Hr Hf Hn Hi Hl Hm Hu Hp Hul Hmm Hpath Hpr Hh Hnv Hnl.
  destruct (request_line_plain m uri proto Hm Hu Hp) as (P1 & P2 & P3).
  destruct (rq_gets_line fuel rq _ _ Hr Hf Hi P2 Hl) as (i1 & E1 & R1 & I1).
  assert (cstr (request_line m uri proto ++ [x0d; x0a]) = request_line m uri proto ++ [x0d; x0a]) as Ec
    by (apply cstr_id; set_solver).
  erewrite pbind_Ok by exact E1. unfold pbind at 1, pguard.
  rewrite bool_decide_true by (by destruct (request_line m uri proto)). cbv zeta. rewrite Ec.
  rewrite request_line_tokens by done. cbn [lookup list_lookup].
  set (r2 := set_cli_rq (set_rq_io rq i1) (Some (request_line m uri proto))).
  erewrite pbind_Ok by (unfold request_set_client_request; rewrite u_alloc_ok, cut_nl_app by done; reflexivity).
  erewrite pbind_Ok.
  2: { unfold request_set_method, pbind, pmod, pguard. rewrite bool_decide_false by done. reflexivity. }
  pose proof (request_set_uri_outcome uri valid (set_rq_method r2 (method_of m))) as Eo.
  rewrite decide_True, Hpath in Eo by done. fold r2.
  destruct (request_set_uri uri valid (set_rq_method r2 (method_of m))) as [r4 o] eqn:E4. simpl in Eo. subst o.
  pose proof (request_set_uri_Ok _ _ _ _ _ E4) as (_ & path' & Hp' & ->).
  assert (path' = path) as -> by congruence. erewrite pbind_Ok by exact E4.
  erewrite pbind_Ok by (unfold request_set_proto; rewrite Hpr; apply set_string_field_total).
  unfold rq_header_load. set (r5 := set_protocol (set_protocol _ None) (Some proto)).
  assert (rq_header r5 = rq_header rq /\ rq_io r5 = i1) as [-> ->].
  { unfold r5, uri_request, r2. destruct (split_path _ _). by destruct rq. }
  destruct (header_load_pairs fuel n (rq_header rq) i1 nvs body Hf Hn Hnv Hnl Hh R1 I1) as (i2 & -> & R2 & I2).
  exists i2. split_and!; [done|done|]. fold (loaded rq nvs). unfold r5, uri_request, r2.
  destruct (split_path _ _). by destruct rq.
Qed.

Lemma loaded_ok rq (nvs : list (list byte * list byte)) : header_ok (rq_header rq) -> header_ok (loaded rq nvs).
Proof.
  intros [H1 H2]. split; simpl; [rewrite length_app, length_map; lia|].
  apply Forall_app. split; [done|]. apply Forall_map, Forall_true. intros nv. split; by eexists.
Qed.

(** The request after its header has been parsed, but for the length of a POST. *)
Definition parsed_request rq (m uri proto path : list byte) (nvs : list (list byte * list byte))
    (valid : option (list byte -> nat -> bool)) (i' : io D C) : request D C :=
  let h := loaded rq nvs in
  add_cookies (set_if_modified_since (set_rq_header (set_rq_io (set_protocol (uri_request
     (set_rq_method (set_cli_rq rq (Some (request_line m uri proto))) (method_of m))
     uri path valid) (Some proto)) i') h) (ims_time h)) (cookie_vars (h_fields h)).

Lemma request_parsed (fuel n : nat) rq (m uri proto path : list byte)
    (nvs : list (list byte * list byte)) (body : list byte) (valid : option (list byte -> nat -> bool))
    (environ : list (list byte)) :
  readable (rq_io rq) -> 0 < fuel -> 0 < n -> cgi rq = false -> header_ok (rq_header rq) ->
  instream (rq_io rq) = request_line m uri proto ++ [x0d; x0a] ++ send_lines (map field_line nvs) ++ body ->
  length (request_line m uri proto) + 2 < RQ_LINE_BUFSZ ->
  is_word m -> is_word uri -> is_word proto -> length uri < MAX_URI ->
  method_of m <> HM_UNKNOWN -> uri_path uri = Some path -> strcaseprefix (bs "http") proto = true ->
  Forall pair_ok nvs -> length nvs < HEADER_MAX_FIELD_COUNT ->
  (forall s, head (vals (loaded rq nvs) (bs "If-Modified-Since")) = Some s -> safe (u_httpdate_to_tt s)) ->
  exists i', readable i' /\ instream i' = body /\
    request_parse_header fuel n true environ valid rq =
    (if decide (method_of m = HM_POST) then request_set_content_length else pret tt)
      (parsed_request rq m uri proto path nvs valid i').
Proof.
  intros Hr Hf Hn Hc Hh Hi Hl Hm Hu Hp Hul Hmm Hpath Hpr Hnv Hnl Hims.
  destruct (request_line_parsed fuel n rq m uri proto path nvs body valid) as (i' & R & I & E); try done.
  exists i'. split; [done|]. split; [done|].
  unfold request_parse_header. unfold pbind at 1, pguard at 1. unfold pbind at 1, pget at 1. rewrite Hc.
  erewrite pbind_Ok by exact E. clear E. unfold parsed_request. cbv zeta. set (r6 := set_rq_header _ _).
  assert (rq_header r6 = loaded rq nvs) as H6 by (by unfold r6; destruct (set_rq_io _ _)).
  pose proof (loaded_ok rq nvs Hh) as Hok.
  erewrite pbind_Ok by (apply parse_ims_eq; by rewrite H6). rewrite H6. set (r7 := set_if_modified_since r6 _).
  assert (rq_header r7 = loaded rq nvs) as H7 by (rewrite <- H6; unfold r7; by destruct r6).
  erewrite pbind_Ok by (apply parse_cookies_eq; by rewrite H7). rewrite H7.
  set (r8 := add_cookies r7 _). unfold pbind, pget.
  assert (rq_method r8 = method_of m) as Hm8.
  { unfold r8, r7, r6, uri_request. destruct (split_path _ _). by destruct rq. }
  by rewrite Hm8.
Qed.

(** C7: a request sent as a request line, header lines and an empty line is parsed into
    its parts: method, verbatim URI with its path and query, protocol, header fields in
    order and cookies; for a POST the announced length; and the stream is left at the
    body. *)
Theorem request_roundtrip (fuel n : nat) rq (m uri proto path : list byte)
    (nvs : list (list byte * list byte)) (body : list byte) (valid : option (list byte -> nat -> bool))
    (environ : list (list byte)) (len : Z) :
  readable (rq_io rq) -> 0 < fuel -> 0 < n -> cgi rq = false -> header_ok (rq_header rq) ->
  instream (rq_io rq) = request_line m uri proto ++ [x0d; x0a] ++ send_lines (map field_line nvs) ++ body ->
  length (request_line m uri proto) + 2 < RQ_LINE_BUFSZ ->
  is_word m -> is_word uri -> is_word proto -> length uri < MAX_URI ->
  method_of m <> HM_UNKNOWN -> uri_path uri = Some path -> strcaseprefix (bs "http") proto = true ->
  Forall pair_ok nvs -> length nvs < HEADER_MAX_FIELD_COUNT ->
  (forall s, head (vals (loaded rq nvs) (bs "If-Modified-Since")) = Some s -> safe (u_httpdate_to_tt s)) ->
  (method_of m = HM_POST ->
     exists c, head (vals (loaded rq nvs) (bs "Content-Length")) = Some c /\ atoi c = Ok len) ->
  exists rq', request_parse_header fuel n true environ valid rq = (rq', Ok tt) /\
    rq_method rq' = method_of m /\ rq_uri rq' = Some uri /\ query rq' = uri_query uri /\
    (filename rq', path_info rq') = (let '(fn, pi) := split_path (the_valid valid) path in (Some fn, pi)) /\
    protocol rq' = Some proto /\ cli_rq rq' = Some (request_line m uri proto) /\
    h_fields (rq_header rq') = h_fields (rq_header rq) ++ map mk_field nvs /\
    cookies rq' = vars_app (cookies rq) (cookie_vars (h_fields (rq_header rq'))) /\
    (method_of m = HM_POST -> content_length rq' = w64 len) /\
    readable (rq_io rq') /\ instream (rq_io rq') = body.
Proof.
  intros Hr Hf Hn Hc Hh Hi Hl Hm Hu Hp Hul Hmm Hpath Hpr Hnv Hnl Hims Hpost.
  destruct (request_parsed fuel n rq m uri proto path nvs body valid environ) as (i' & R & I & ->); try done.
  pose proof (loaded_ok rq nvs Hh) as Hok. set (r8 := parsed_request _ _ _ _ _ _ _ _).
  assert (rq_header r8 = loaded rq nvs) as H8.
  { unfold r8, parsed_request, uri_request. destruct (split_path _ _). by destruct rq. }
  case_decide as Hd.
  - destruct (Hpost Hd) as (c & Hcl & Hat).
    rewrite (set_content_length_eq r8 c len) by (by rewrite ?H8). eexists. split; [done|].
    unfold r8, parsed_request, uri_request. destruct (split_path _ _). destruct rq. by split_and!.
  - eexists. split; [done|].
    unfold r8, parsed_request, uri_request. destruct (split_path _ _). destruct rq. by split_and!.
Qed.
End request_parsing.

(** ** Evaluation *)

Definition rq0 : request io_mem no_codec :=
  mkRq (mem_io []) header_create HM_UNKNOWN None None None None None None None None
    vars_create vars_create vars_create vars_create vars_create [] None None 0 0 false 5120000 0.

(** A server that knows the file /cgi/env only. *)
Definition knows_env (path : list byte) (len : nat) : bool := streq (take len path) (bs "/cgi/env").


Lemma request_set_uri_spec_witness :
  exists rq', request_set_uri (L:=libu_ref) (bs "/cgi//env/a/../b?x=1") (Some knows_env) rq0 = (rq', Ok tt) /\
    rq' = uri_request rq0 (bs "/cgi//env/a/../b?x=1") (bs "/cgi/env/b") (Some knows_env) /\
    rq_uri rq' = Some (bs "/cgi//env/a/../b?x=1") /\ query rq' = uri_query (bs "/cgi//env/a/../b?x=1") /\
    (filename rq', path_info rq') =
      let '(fn, pi) := split_path (the_valid (Some knows_env)) (bs "/cgi/env/b") in (Some fn, pi).
Proof. exact (request_set_uri_spec (L:=libu_ref) (bs "/cgi//env/a/../b?x=1") (Some knows_env) rq0). Defined.

Definition nvs2 : list (list byte * list byte) := [(bs "a", bs "1&2"); (bs "b c", [])].

Lemma request_query_args_witness :
  request_parse_query_args (L:=libu_ref) (set_query rq0 (Some (encode_query nvs2))) =
    (add_get (set_query rq0 (Some (encode_query nvs2))) (query_vars (encode_query nvs2)), Ok tt) /\
  forall nvs, Forall (fun nv => nv.1 <> [] /\ (x00 ∉ nv.1)) nvs -> encode_query nvs2 = encode_query nvs ->
    query_vars (encode_query nvs2) = map (fun nv => fresh_var nv.1 (var_data nv.2)) nvs.
Proof.
  apply (request_query_args (L:=libu_ref) (set_query rq0 (Some (encode_query nvs2))) (encode_query nvs2)).
  - reflexivity.
  - compute_decide.
  - vm_compute. reflexivity.
Defined.

Definition rq_post : request io_mem no_codec :=
  set_content_length (set_query (set_rq_io rq0 (mem_io (bs "a=1&b=2" ++ bs "next"))) (Some (bs "q=0"))) 7.

Lemma request_post_args_witness :
  exists i', request_parse_urlencoded_data (L:=libu_ref) 1 rq_post =
      (add_post (set_query (set_rq_io rq_post i') (Some (cstr (bs "q=0&" ++ bs "a=1&b=2"))))
                (query_vars (bs "a=1&b=2")), Ok tt) /\
    readable i' /\ instream i' = bs "next".
Proof.
  apply (request_post_args (L:=libu_ref) 1 rq_post (bs "a=1&b=2") (bs "next")).
  - apply mem_io_readable.
  - apply mem_io_readable.
  - lia.
  - compute_decide.
  - reflexivity.
  - simpl. lia.
Defined.

Definition sample_fields : list (list byte * list byte) :=
  [(bs "Host", bs "example.org"); (bs "Cookie", bs "id=42; lang=en"); (bs "Content-Length", bs "4")].

Definition sample_wire : list byte :=
  request_line (bs "POST") (bs "/a/../b?x=1") (bs "HTTP/1.1") ++ [x0d; x0a] ++
  send_lines (map field_line sample_fields) ++ bs "body".

Definition rq_wire : request io_mem no_codec := set_rq_io rq0 (mem_io sample_wire).

Lemma request_roundtrip_witness :
  exists rq', request_parse_header (L:=libu_ref) 1 1 true [] None rq_wire = (rq', Ok tt) /\
    rq_method rq' = method_of (bs "POST") /\ rq_uri rq' = Some (bs "/a/../b?x=1") /\
    query rq' = uri_query (bs "/a/../b?x=1") /\
    (filename rq', path_info rq') =
      (let '(fn, pi) := split_path (the_valid None) (bs "/b") in (Some fn, pi)) /\
    protocol rq' = Some (bs "HTTP/1.1") /\
    cli_rq rq' = Some (request_line (bs "POST") (bs "/a/../b?x=1") (bs "HTTP/1.1")) /\
    h_fields (rq_header rq') = [] ++ map mk_field sample_fields /\
    cookies rq' = vars_app vars_create (cookie_vars (h_fields (rq_header rq'))) /\
    (method_of (bs "POST") = HM_POST -> content_length rq' = w64 4) /\
    readable (rq_io rq') /\ instream (rq_io rq') = bs "body".
Proof.
  apply (request_roundtrip (L:=libu_ref) 1 1 rq_wire (bs "POST") (bs "/a/../b?x=1") (bs "HTTP/1.1")
           (bs "/b") sample_fields (bs "body") None [] 4).
  - apply mem_io_readable.
  - lia.
  - lia.
  - reflexivity.
  - split; [reflexivity|constructor].
  - apply mem_io_readable.
  - rewrite RQ_LINE_BUFSZ_val. vm_compute. repeat constructor.
  - compute_decide.
  - compute_decide.
  - compute_decide.
  - compute_decide.
  - discriminate.
  - reflexivity.
  - reflexivity.
  - compute_decide.
  - compute_decide.
  - intros s H. vm_compute in H. discriminate H.
  - intros _. exists (bs "4"). split; vm_compute; reflexivity.
Defined.
