(* ===== verification/Multipart.v ===== *)
(** Request bodies: the multipart/form-data parser and [request_parse_data] of
    src/src/libpage/request.c.

    Reading is on the buffer as it is: [read_until] writes byte after byte into an output
    buffer of a given size, and a write beyond it is [Fault].  Uploaded files go to
    temporary files, opened by [u_tmpfile_open] on a device of type [T]; the devices of
    the files that were completed are collected in order. *)

From S2P Require Import Prelude Libu Encode Path Date Io IoSpec IoMem Getline Header Vars Request.

Definition MP_BUFSZ : nat := N.to_nat 4096.
Definition MP_PRMSZ : nat := N.to_nat 512.
Definition BOUNDARY_BUFSZ : nat := N.to_nat 128.
Definition PREAMBLE_BUFSZ : nat := N.to_nat 1024.
Definition MIME_TYPE_BUFSZ : nat := N.to_nat 256.

(** Status codes of klone/http.h *)
Definition HTTP_STATUS_BAD_REQUEST : Z := 400.
Definition HTTP_STATUS_LENGTH_REQUIRED : Z := 411.
Definition HTTP_STATUS_REQUEST_TOO_LARGE : Z := 413.

Section multipart_read.
Context {L : Libu} {D C : Type} {DO : DevOps D} {CO : CodecOps C}.

(** The loop of [read_until]: [ptr] is how much of [stop_at] has been matched, [out] what
    has been written to a buffer of [cap] bytes, so that [size], a [size_t], is the
    difference. *)
Fixpoint read_until_loop (fuel n : nat) (i : io D C) (stop_at : list byte) (ptr : nat)
    (out : list byte) (cap : nat) : io D C * res (list byte * bool) :=
  match n with
  | 0 => (i, Timeout)
  | S n' =>
      let size := w64 (Z.of_nat cap - Z.of_nat (length out)) in
      if bool_decide (ptr = 0) && bool_decide (size < Z.of_nat (length stop_at) + 1)%Z
      then (i, Ok (out, false))
      else
        let '(i1, r) := io_read fuel i 1 in
        match r with
        | Ok [] => (i1, Ok (out, false))
        | Ok (c :: _) =>
            if decide (cap <= length out) then (i1, Fault) else
            let ptr1 := if decide (nth ptr stop_at x00 = c) then ptr else 0 in
            if decide (nth ptr1 stop_at x00 = c) then
              if decide (S ptr1 = length stop_at) then (i1, Ok (out ++ [c], true))
              else read_until_loop fuel n' i1 stop_at (S ptr1) (out ++ [c]) cap
            else read_until_loop fuel n' i1 stop_at ptr1 (out ++ [c]) cap
        | Fail => (i1, Fail)
        | Fault => (i1, Fault)
        | Timeout => (i1, Timeout)
        end
  end.

(** The bytes written and whether [stop_at] was found. *)
Definition read_until (fuel n : nat) (i : io D C) (stop_at : list byte) (size : nat)
    : io D C * res (list byte * bool) :=
  if decide (size < length stop_at) then (i, Fail) else read_until_loop fuel n i stop_at 0 [] size.

(** The loop of [request_read_until_boundary]; the result is the data and the buffer as it
    is left. *)
Fixpoint until_boundary_loop (fuel n k : nat) (i : io D C) (boundary : list byte) (size : nat)
    (maxsize : Z) (ubuf : option (list byte)) (trb : Z) : io D C * res (list byte * list byte) :=
  match k with
  | 0 => (i, Timeout)
  | S k' =>
      let '(i1, r) := read_until fuel n i boundary size in
      match r with
      | Ok (out, found) =>
          if decide (out = []) then (i1, Fail)
          else if found : bool then
            if decide (length out < length boundary) then (i1, Fail) else
            let rc := length out - length boundary in
            let data := take rc out in
            let trb1 := w64 (trb + Z.of_nat rc) in
            if decide (maxsize < trb1)%Z then (i1, Fail) else
            let buf := data ++ [x00] ++ drop (S rc) out in
            match ubuf with
            | None => (i1, Ok (data, buf))
            | Some u => if decide (rc = 0) then (i1, Ok (u, buf)) else
                        match u_buf_append u data with
                        | Some u' => (i1, Ok (u', buf))
                        | None => (i1, Fail)
                        end
            end
          else
            match (match ubuf with
                   | Some u => Some u
                   | None => u ← u_buf_create; u_buf_reserve u (2 * size)
                   end) with
            | None => (i1, Fail)
            | Some u =>
                let trb1 := w64 (trb + Z.of_nat (length out)) in
                if decide (maxsize < trb1)%Z then (i1, Fail) else
                match u_buf_append u out with
                | Some u' => until_boundary_loop fuel n k' i1 boundary size maxsize (Some u') trb1
                | None => (i1, Fail)
                end
            end
      | Fail => (i1, Fail)
      | Fault => (i1, Fault)
      | Timeout => (i1, Timeout)
      end
  end.

Definition request_read_until_boundary (fuel n k : nat) (i : io D C) (boundary : list byte) (size : nat)
    (maxsize : Z) : io D C * res (list byte * list byte) :=
  until_boundary_loop fuel n k i boundary size maxsize None 0.

(** The copy of an uploaded file into the temporary file. *)
Context {T Ct : Type} {DOT : DevOps T} {COT : CodecOps Ct}.
Fixpoint upload_loop (fuel n k : nat) (i : io D C) (tmp : io T Ct) (boundary : list byte)
    : io D C * io T Ct * res unit :=
  match k with
  | 0 => (i, tmp, Timeout)
  | S k' =>
      let '(i1, r) := read_until fuel n i boundary MP_BUFSZ in
      match r with
      | Ok (out, found) =>
          if decide (out = []) then (i1, tmp, Fail) else
          if found && bool_decide (length out < length boundary) then (i1, tmp, Fail) else
          let data := if found then take (length out - length boundary) out else out in
          let '(tmp1, w) := io_write fuel tmp data in
          match w with
          | Ok _ => if found : bool then (i1, tmp1, Ok tt)
                    else upload_loop fuel n k' i1 tmp1 boundary
          | Fail => (i1, tmp1, Fail)
          | Fault => (i1, tmp1, Fault)
          | Timeout => (i1, tmp1, Timeout)
          end
      | Fail => (i1, tmp, Fail)
      | Fault => (i1, tmp, Fault)
      | Timeout => (i1, tmp, Timeout)
      end
  end.
End multipart_read.

(** ** Header parameters *)

Section multipart_header.
Context {L : Libu}.

(** A parameter value ends at a semicolon, a space or the end of the string. *)
Fixpoint param_end (s : list byte) : list byte :=
  match s with
  | c :: s' => if decide (c = ";"%byte) then [] else if isspace c then [] else c :: param_end s'
  | [] => []
  end.

Definition request_get_fieldparam (h : header) (field_name param_name : list byte) (size : nat)
    : res (list byte) :=
  fv ← header_get_field_value h field_name;
  match fv with
  | None => Fail
  | Some v =>
      match Search.u_stristr v param_name with
      | None => Fail
      | Some k =>
          match drop (k + length param_name) v with
          | c :: pv =>
              if decide (c = "="%byte) then
                let value := param_end pv in
                if decide (size < length value + 1) then Fail
                else Ok (u_strlcpy pv (length value + 1)).1
              else Fail
          | [] => Fail
          end
      end
  end.

Definition is_multipart_mixed (h : header) : res bool := match_content_type h (bs "multipart/mixed").

Definition is_encoded (h : header) : res bool :=
  (fun cte : option (list byte) =>
     match cte with None => false | Some v => negb (strcaseeq v (bs "binary")) end)
    <$> header_get_field_value h (bs "Content-Transfer-Encoding").

(** The quote that a value starts with goes, and the same quote at its end. *)
Definition unquote (tok : list byte) : list byte :=
  match tok with
  | c :: tok' =>
      if decide (c = x22 \/ c = "'"%byte) then
        if decide (last tok' = Some c) then take (length tok' - 1) tok' else tok'
      else tok
  | [] => []
  end.

Definition is_semi (c : byte) : bool := bool_decide (c = ";"%byte).

(** One parameter of Content-Disposition, into the name or the file name. *)
Definition disposition_step (prmsz : nat) (st : list byte * list byte) (tok0 : list byte)
    : list byte * list byte :=
  let tok := skip_space tok0 in
  if strprefix (bs "form-data") tok then st
  else if strprefix (bs "name=") tok then ((u_strlcpy (unquote (drop 5 tok)) prmsz).1, st.2)
  else if strprefix (bs "filename=") tok then (st.1, (u_strlcpy (unquote (drop 9 tok)) prmsz).1)
  else st.

Definition parse_content_disposition (h : header) (prmsz : nat) : res (list byte * list byte) :=
  o ← header_get_field_value h (bs "Content-Disposition");
  match o with
  | None => Fail
  | Some cd =>
      if decide (512 <= length cd) then Fail
      else if strprefix (bs "form-data") cd
      then Ok (foldl (disposition_step prmsz) ([], []) (strtok is_semi (u_strlcpy cd 512).1))
      else Fail
  end.
End multipart_header.

(** ** Parts and the whole body *)

Section multipart_body.
Context {L : Libu} {D C T Ct : Type} {DO : DevOps D} {CO : CodecOps C} {DOT : DevOps T} {COT : CodecOps Ct}.
(** [U_FILENAME_MAX] of libu, the result of opening the n-th temporary file, and the size
    that [stat] reports. *)
Variable FILENAME_MAX : nat.
Variable tmpfile_open : nat -> option (io T Ct).
Variable stat_size : list byte -> option nat.

(** The request and the devices of the completed temporary files. *)
Definition mpstate : Type := request D C * list T.
Abbreviation mprog A := (prog mpstate A).

Definition on_rq {A} (m : prog (request D C) A) : mprog A := fun s =>
  let '(rq, r) := m s.1 in ((rq, s.2), r).
Definition on_io {A} (f : io D C -> io D C * res A) : mprog A := fun s =>
  let '(i, r) := f (rq_io s.1) in ((set_rq_io s.1 i, s.2), r).

Definition UPLOAD_INFO_SIZE : nat := MIME_TYPE_BUFSZ + FILENAME_MAX + 8.

(** The opaque pointer of the new variable is the index of its information. *)
Definition request_add_uploaded_file (name fn tmp_filename : list byte) (mime_type : option (list byte))
    : mprog unit :=
  match stat_size tmp_filename with
  | None => pfail
  | Some sz =>
      let! v := plift (var_create name tmp_filename) in
      if u_alloc UPLOAD_INFO_SIZE then
        let info := mkUpload (take (MIME_TYPE_BUFSZ - 1) (default [] mime_type))
                             (take (FILENAME_MAX - 1) fn) sz in
        on_rq (fun rq =>
          let rq1 := set_upload_infos rq (upload_infos rq ++ [info]) in
          on_vars uploads set_uploads
            (fun vs => vars_add vs (var_set_opaque v (Some (length (upload_infos rq))))) rq1)
      else pfail
  end.

(** Reading and ignoring the epilogue. *)
Fixpoint epilogue_loop (fuel k : nat) (rall : nat) : mprog unit := fun s =>
  match k with
  | 0 => (s, Timeout)
  | S k' =>
      let rtot := rtot (io_r (rq_io s.1)) in
      if decide (rtot < rall) then
        match on_io (fun i => io_read fuel i (min (rall - rtot) MP_BUFSZ)) s with
        | (s', Ok []) | (s', Fail) => (s', Ok tt)
        | (s', Ok _) => epilogue_loop fuel k' rall s'
        | (s', Fault) => (s', Fault)
        | (s', Timeout) => (s', Timeout)
        end
      else (s, Ok tt)
  end.

(** One part: whether it was the last one.  The two bytes after the boundary are read into
    the buffer, whose second byte is left from before when only one arrives. *)
Definition request_parse_multipart_chunk (fuel n k : nat) (boundary : list byte) : mprog bool :=
  let! h := (fun s => let '(i, h, r) := header_load fuel n header_create (rq_io s.1) in
                      ((set_rq_io s.1 i, s.2), (fun _ => h) <$> r)) in
  let! mixed := plift (is_multipart_mixed h) in
  pguard (negb mixed);;;
  let! enc := plift (is_encoded h) in
  pguard (negb enc);;;
  let! nf := plift (parse_content_disposition h MP_PRMSZ) in
  let '(name, fn) := nf in
  let! buf :=
    (if decide (fn = []) then
       let! s := pget in
       let! db := on_io (fun i => request_read_until_boundary fuel n k i boundary MP_BUFSZ
                                    (post_maxsize s.1)) in
       let! v := plift (var_bin_create name db.1) in
       pignore (on_rq (on_vars args set_args (fun vs => vars_add vs v)));;;
       pignore (on_rq (on_vars args_post set_args_post (fun vs => vars_add vs v)));;;
       pret db.2
     else
       pguard (bool_decide (length boundary < MP_BUFSZ));;;
       let! s := pget in
       let! tmp := plift (of_option (tmpfile_open (length s.2))) in
       let! tmp1 := (fun s => let '(i, tmp1, r) := upload_loop fuel n k (rq_io s.1) tmp boundary in
                              ((set_rq_io s.1 i, s.2), (fun _ => tmp1) <$> r)) in
       let! tmpname := plift (io_name_get tmp1 MP_BUFSZ) in
       pmod (fun s => (s.1, s.2 ++ [(io_free fuel tmp1).1.2]));;;
       let! ct := plift (header_get_field_value h (bs "Content-Type")) in
       request_add_uploaded_file name fn tmpname ct;;;
       pret (tmpname ++ [x00])) in
  let! two := on_io (fun i => io_read fuel i 2) in
  pguard (bool_decide (two <> []));;;
  if strprefix (bs "--") (two ++ drop (length two) buf) then
    let! s := pget in
    epilogue_loop fuel k (Z.to_nat (content_length s.1) + body_off s.1);;;
    pret true
  else pret false.

(** The lines before the first boundary. *)
Fixpoint preamble_loop (fuel k : nat) (boundary : list byte) : mprog unit :=
  match k with
  | 0 => plift Timeout
  | S k' =>
      let! buf := on_io (fun i => io_gets fuel i PREAMBLE_BUFSZ) in
      if decide (buf = []) then pfail
      else if strprefix boundary (cstr buf) then pret tt
      else preamble_loop fuel k' boundary
  end.

Fixpoint parts_loop (fuel n k m : nat) (boundary : list byte) : mprog unit :=
  match m with
  | 0 => plift Timeout
  | S m' => let! eof := request_parse_multipart_chunk fuel n k boundary in
            if eof : bool then pret tt else parts_loop fuel n k m' boundary
  end.

Definition request_parse_multipart_data (fuel n k : nat) : mprog unit :=
  let! s := pget in
  let! b := plift (request_get_fieldparam (rq_header s.1) (bs "Content-Type") (bs "boundary")
                     (BOUNDARY_BUFSZ - 2)) in
  let boundary := bs "--" ++ b in
  preamble_loop fuel k boundary;;;
  let nl_boundary := [x0d; x0a] ++ boundary in
  pguard (bool_decide (length nl_boundary < BOUNDARY_BUFSZ));;;
  parts_loop fuel n k k nl_boundary.

(** [request_parse_data] returns 0 or a status code. *)
Definition with_status (rc : Z) (m : mprog Z) : mprog Z := fun s =>
  match m s with
  | (s', Fail) => (s', Ok rc)
  | x => x
  end.

Definition request_parse_data (fuel n k : nat) (timer : bool) : mprog Z :=
  with_status HTTP_STATUS_BAD_REQUEST (
    let! s := pget in
    if decide (rq_method s.1 = HM_POST) then
      on_rq request_parse_query_args;;;
      fun s => match on_rq request_set_content_length s with
      | (s1, Fail) => (s1, Ok HTTP_STATUS_LENGTH_REQUIRED)
      | (s1, Fault) => (s1, Fault)
      | (s1, Timeout) => (s1, Timeout)
      | (s1, Ok _) =>
        (let! s := pget in
         if decide (content_length s.1 = 0)%Z then pret 0%Z else
         on_rq (pmod (fun rq => set_body_off rq (rtot (io_r (rq_io rq)))));;;
         pguard timer;;;
         if decide (post_maxsize s.1 < content_length s.1)%Z
         then pret HTTP_STATUS_REQUEST_TOO_LARGE
         else
           let! mp := on_rq request_is_multipart_formdata in
           if mp : bool then request_parse_multipart_data fuel n k;;; pret 0%Z
           else
             let! ue := on_rq request_is_urlencoded in
             if ue : bool then on_rq (request_parse_urlencoded_data fuel);;; pret 0%Z
             else pret 0%Z) s1
      end
    else on_rq request_parse_query_args;;; pret 0%Z).
End multipart_body.

(** ** Reading up to a boundary *)

(** [stop] occurs in [w ++ stop] only at the end. *)
Definition only_at_end (w stop : list byte) : Prop :=
  forall u v, w ++ stop = u ++ stop ++ v -> v = [].

Section read_until_spec.
Context {L : Libu} {LS : LibuSpec L} {LM : LibuMem L} {D C : Type} {DO : DevOps D} {CO : CodecOps C}
        {DS : DevSource D}.
Implicit Types i : io D C.

Lemma read_one (fuel : nat) i (c : byte) (s : list byte) :
  readable i -> 0 < fuel -> instream i = c :: s ->
  exists i', io_read fuel i 1 = (i', Ok [c]) /\ readable i' /\ instream i' = s.
Proof.
  intros Hr Hf Hi. destruct (io_read_spec fuel i 1 Hr Hf) as (i' & E & R1 & R2 & _).
  rewrite Hi in *. simpl in *. rewrite take_0 in E. rewrite drop_0 in R2. eauto.
Qed.

Lemma size_left (cap : nat) (out : list byte) :
  length out <= cap -> (Z.of_nat cap < SIZE_MOD)%Z ->
  w64 (Z.of_nat cap - Z.of_nat (length out)) = (Z.of_nat cap - Z.of_nat (length out))%Z.
Proof. intros. apply w64_small. lia. Qed.

(** How much of the boundary has been matched when [out] has been read of [w ++ b :: t]. *)
Definition matching (w stop out : list byte) (ptr : nat) : Prop :=
  ptr < length stop /\
  if decide (length w < length out) then ptr = length out - length w
  else exists u, out = u ++ take ptr stop.

(** One character: what the matcher does next, [None] when it has found the boundary. *)
Definition match_next (stop : list byte) (ptr : nat) (c : byte) : option nat :=
  let ptr1 := if decide (nth ptr stop x00 = c) then ptr else 0 in
  if decide (nth ptr1 stop x00 = c) then
    if decide (S ptr1 = length stop) then None else Some (S ptr1)
  else Some ptr1.

Lemma match_next_branch {A} (stop : list byte) (ptr : nat) (c : byte) (x : A) (y : nat -> A) :
  (let ptr1 := if decide (nth ptr stop x00 = c) then ptr else 0 in
   if decide (nth ptr1 stop x00 = c) then if decide (S ptr1 = length stop) then x else y (S ptr1)
   else y ptr1) =
  match match_next stop ptr c with None => x | Some p => y p end.
Proof.
  unfold match_next. destruct (decide (nth ptr stop x00 = c)); cbv zeta;
    destruct (decide (nth _ stop x00 = c)); try destruct (decide (_ = length stop)); done.
Qed.

Lemma match_next_suffix (stop out u : list byte) (ptr : nat) (c : byte) :
  ptr < length stop -> out = u ++ take ptr stop ->
  exists u', match match_next stop ptr c with
             | None => out ++ [c] = u' ++ stop
             | Some p => p < length stop /\ out ++ [c] = u' ++ take p stop
             end.
Proof.
  intros Hp ->. unfold match_next.
  assert (forall q v, q < length stop -> nth q stop x00 = c ->
    (v ++ take q stop) ++ [c] = v ++ take (S q) stop) as G.
  { intros q v Hq Hn. rewrite <- app_assoc. f_equal.
    destruct (lookup_lt_is_Some_2 stop q Hq) as [x Hx].
    rewrite nth_lookup, Hx in Hn. simpl in Hn. subst x. symmetry. by apply take_S_r. }
  destruct (decide (nth ptr stop x00 = c)) as [H1|H1].
  - rewrite decide_True by done. exists u. case_decide as Hl.
    + rewrite G, Hl, firstn_all by done. done.
    + split; [lia|]. by apply G.
  - case_decide as H2; [case_decide as Hl|].
    + exists (u ++ take ptr stop). rewrite <- (app_nil_r (u ++ take ptr stop)) at 1.
      replace (@nil byte) with (take 0 stop) by done. by rewrite G, Hl, firstn_all by (done || lia).
    + exists (u ++ take ptr stop). split; [lia|]. rewrite <- (app_nil_r (u ++ take ptr stop)) at 1.
      replace (@nil byte) with (take 0 stop) by done. by rewrite G by (done || lia).
    + exists ((u ++ take ptr stop) ++ [c]). split; [lia|]. by rewrite take_0, app_nil_r.
Qed.

Lemma match_step (w out s : list byte) (b c : byte) (t : list byte) (ptr : nat) :
  (b ∉ t) -> only_at_end w (b :: t) -> out ++ c :: s = w ++ b :: t -> matching w (b :: t) out ptr ->
  match match_next (b :: t) ptr c with
  | None => s = []
  | Some p => s <> [] /\ matching w (b :: t) (out ++ [c]) p
  end.
Proof.
  intros Hb Hend E [Hp Hm]. set (stop := b :: t) in *. unfold matching.
  rewrite length_app. simpl length. rewrite Nat.add_1_r.
  destruct (decide (length out < length w)) as [Hlt|Hge].
  - rewrite decide_False in Hm by lia. destruct Hm as [u Hu].
    assert (exists w', w = out ++ c :: w' /\ s = w' ++ stop) as (w' & Hw & Hs).
    { exists (drop (S (length out)) w). assert (take (length out) w = out) as Ht.
      { rewrite <- (take_app_le w stop), <- E by lia. apply take_app_length. }
      rewrite <- (take_drop (length out) w) in E. rewrite Ht, <- app_assoc in E.
      apply app_inv_head in E. destruct (drop (length out) w) as [|c' w'] eqn:Ed.
      { apply (f_equal length) in Ed. rewrite length_drop in Ed. simpl in Ed. lia. }
      injection E as <- ->. rewrite <- (take_drop (length out) w) at 1. rewrite Ht, Ed.
      replace (drop (S (length out)) w) with w'; [done|].
      rewrite <- Nat.add_1_r, <- drop_drop, Ed. simpl. by rewrite drop_0. }
    destruct (match_next_suffix stop out u ptr c Hp Hu) as [u' G].
    destruct (match_next stop ptr c) as [p|].
    + destruct G as [Gp G]. split; [rewrite Hs; by destruct w'|]. rewrite decide_False by lia. eauto.
    + exfalso. specialize (Hend u' (w' ++ stop)). destruct (app_eq_nil w' stop); [|done].
      apply Hend. rewrite app_assoc, <- G, Hw, <- !app_assoc. done.
  - assert (exists o, out = w ++ o /\ o ++ c :: s = stop) as (o & -> & Ho).
    { exists (drop (length w) out). assert (take (length w) out = w) as Ht.
      { rewrite <- (take_app_le out (c :: s)), E by lia. apply take_app_length. }
      rewrite <- (take_drop (length w) out) in E at 1. rewrite Ht, <- app_assoc in E.
      apply app_inv_head in E. split; [|done]. rewrite <- (take_drop (length w) out) at 1. by rewrite Ht. }
    rewrite length_app in *. unfold match_next.
    assert (forall q, q = length o -> nth q stop x00 = c) as Hn.
    { intros q ->. rewrite <- Ho, app_nth2, Nat.sub_diag by lia. done. }
    assert (length stop = length o + S (length s)) as Hl by (rewrite <- Ho, length_app; done).
    assert ((if decide (nth ptr stop x00 = c) then ptr else 0) = length o) as Eq.
    { destruct o as [|x o].
      - simpl in *. injection Ho as -> ->. clear Hm. case_decide as Hc; [|done]. destruct ptr as [|ptr]; [done|].
        exfalso. apply Hb. rewrite <- Hc. simpl. apply list_elem_of_In, nth_In. simpl in Hp. lia.
      - cbn [length] in *. rewrite decide_True in Hm by lia. assert (ptr = S (length o)) as -> by lia.
        rewrite Hn by done. by rewrite decide_True. }
    rewrite Eq, (Hn (length o)) by done. rewrite decide_True by done. clear Eq Hm.
    change (length stop) with (S (length t)) in *. case_decide as Hc.
    + destruct s; [done|simpl in *; lia].
    + split; [destruct s; [simpl in *; lia|done]|]. split; [lia|]. rewrite decide_True by lia. lia.
Qed.

Lemma read_until_found (fuel : nat) (w rest : list byte) (b : byte) (t : list byte) (cap : nat) :
  (b ∉ t) -> only_at_end w (b :: t) -> length w + length (b :: t) < cap ->
  (Z.of_nat cap < SIZE_MOD)%Z -> 0 < fuel ->
  forall s n i out ptr, readable i -> instream i = s ++ rest -> out ++ s = w ++ b :: t -> s <> [] ->
  matching w (b :: t) out ptr -> length s < n ->
  exists i', read_until_loop fuel n i (b :: t) ptr out cap = (i', Ok (w ++ b :: t, true)) /\
    readable i' /\ instream i' = rest.
Proof.
  intros Hb Hend Hcap Hmod Hf.
  induction s as [|c s IH]; intros n i out ptr Hr Hi E Hne Hm Hn; [done|]. clear Hne.
  destruct n as [|n]; [simpl in Hn; lia|]. cbn [read_until_loop].
  assert (length out < cap) as Ho.
  { apply (f_equal length) in E. rewrite !length_app in E. simpl in E, Hcap. lia. }
  rewrite size_left by lia.
  assert (bool_decide (ptr = 0) && bool_decide
    (Z.of_nat cap - Z.of_nat (length out) < Z.of_nat (length (b :: t)) + 1)%Z = false) as ->.
  { apply andb_false_iff. destruct (decide (ptr = 0)) as [->|]; [right|left; by apply bool_decide_false].
    apply bool_decide_false. destruct Hm as [_ Hm]. case_decide; lia. }
  destruct (read_one fuel i c (s ++ rest) Hr Hf Hi) as (i1 & -> & R1 & I1).
  rewrite decide_False by lia.
  pose proof (match_step w out s b c t ptr Hb Hend E Hm) as M.
  assert ((out ++ [c]) ++ s = w ++ b :: t) as E' by (by rewrite <- app_assoc).
  rewrite (match_next_branch (b :: t) ptr c _
             (fun p => read_until_loop fuel n i1 (b :: t) p (out ++ [c]) cap)).
  destruct (match_next (b :: t) ptr c) as [p|].
  - destruct M as [Ms M]. apply (IH n i1 (out ++ [c]) p); try done. simpl in Hn. lia.
  - subst s. rewrite app_nil_r in E'. rewrite E'. eauto.
Qed.

(** A boundary whose first character does not occur in the data: data that fits in the
    buffer is read with the boundary, longer data by the buffer. *)
Lemma read_until_chunk (fuel : nat) (b : byte) (t : list byte) (cap : nat) (rest : list byte) :
  (Z.of_nat cap < SIZE_MOD)%Z -> 0 < fuel -> length (b :: t) <= cap ->
  forall w n i out, (b ∉ w) -> readable i -> instream i = w ++ rest -> length w < n ->
  length out + length (b :: t) <= cap -> cap <= length out + length w + length (b :: t) ->
  let k := cap - length (b :: t) - length out in
  exists i', read_until_loop fuel n i (b :: t) 0 out cap = (i', Ok (out ++ take k w, false)) /\
    readable i' /\ instream i' = drop k w ++ rest.
Proof.
  intros Hmod Hf Hst. induction w as [|c w IH]; intros n i out Hw Hr Hi Hn Ho Hc k;
    (destruct n as [|n]; [simpl in Hn; lia|]); cbn [read_until_loop]; rewrite size_left by lia.
  - rewrite bool_decide_true by done. rewrite bool_decide_true by (simpl in *; lia). simpl.
    exists i. rewrite take_nil, drop_nil, app_nil_r. by split_and!.
  - destruct (decide (k = 0)) as [Hk|Hk].
    + rewrite bool_decide_true by done. rewrite bool_decide_true by (unfold k in Hk; lia). simpl.
      exists i. rewrite Hk, take_0, drop_0, app_nil_r. by split_and!.
    + rewrite (bool_decide_false (_ < _)%Z) by (unfold k in Hk; lia). rewrite andb_false_r.
      destruct (read_one fuel i c (w ++ rest) Hr Hf Hi) as (i1 & -> & R1 & I1).
      rewrite decide_False by (unfold k in Hk; simpl in *; lia).
      rewrite (match_next_branch (b :: t) 0 c _ (fun p => read_until_loop fuel n i1 (b :: t) p (out ++ [c]) cap)).
      assert (b <> c) as Hbc by set_solver.
      unfold match_next. simpl nth. rewrite (decide_False (P:=b = c)) by done. cbv zeta.
      rewrite (decide_False (P:=b = c)) by done.
      destruct (IH n i1 (out ++ [c])) as (i' & -> & R2 & I2); try done.
      * set_solver.
      * simpl in Hn. lia.
      * rewrite length_app. unfold k in Hk. simpl in *. lia.
      * rewrite length_app. simpl in *. lia.
      * exists i'. rewrite length_app in *. cbn [length] in *.
        replace k with (S (cap - S (length t) - (length out + 1))) by (unfold k in *; cbn [length] in *; lia).
        simpl. rewrite <- app_assoc. by split_and!.
Qed.

Lemma only_at_end_fresh (w t : list byte) (b : byte) : (b ∉ w) -> (b ∉ t) -> only_at_end w (b :: t).
Proof.
  intros Hw Ht u v E. assert ((w ++ b :: t) !! length u = Some b) as Hl.
  { rewrite E. simpl. by apply list_lookup_middle. }
  assert (length u = length w) as Hu.
  { destruct (decide (length u < length w)) as [H|H].
    - rewrite lookup_app_l in Hl by done. exfalso. apply Hw. by eapply list_elem_of_lookup_2.
    - rewrite lookup_app_r in Hl by lia. destruct (length u - length w) eqn:Ed; [lia|].
      simpl in Hl. exfalso. apply Ht. by eapply list_elem_of_lookup_2. }
  apply (f_equal length) in E. rewrite !length_app in E. simpl in E. destruct v; [done|]. simpl in E. lia.
Qed.

(** [read_until] on data without the first character of the boundary. *)
Lemma read_until_data (fuel n : nat) i (w rest : list byte) (b : byte) (t : list byte) (cap : nat) :
  (b ∉ t) -> (b ∉ w) -> (Z.of_nat cap < SIZE_MOD)%Z -> 0 < fuel -> length (b :: t) <= cap ->
  readable i -> instream i = w ++ (b :: t) ++ rest -> length w + length (b :: t) < n ->
  exists i', readable i' /\
    if decide (length w + length (b :: t) < cap)
    then read_until fuel n i (b :: t) cap = (i', Ok (w ++ b :: t, true)) /\ instream i' = rest
    else let k := cap - length (b :: t) in
         read_until fuel n i (b :: t) cap = (i', Ok (take k w, false)) /\
         instream i' = drop k w ++ (b :: t) ++ rest.
Proof.
  intros Ht Hw Hmod Hf Hst Hr Hi Hn. unfold read_until. rewrite decide_False by lia.
  destruct (decide (length w + length (b :: t) < cap)) as [Hlt|Hge].
  - destruct (read_until_found fuel w rest b t cap Ht (only_at_end_fresh w t b Hw Ht) Hlt Hmod Hf
                (w ++ b :: t) n i [] 0) as (i' & E & R & I); try done.
    + by rewrite Hi, <- app_assoc.
    + by destruct w.
    + split; [simpl; lia|]. case_decide; [simpl in *; lia|]. by exists [].
    + rewrite length_app. simpl in *. lia.
    + eauto.
  - destruct (read_until_chunk fuel b t cap ((b :: t) ++ rest) Hmod Hf Hst w n i []) as (i' & E & R & I);
      try done; [simpl in *; lia..|].
    exists i'. rewrite Nat.sub_0_r in *. by split_and!.
Qed.

(** A field of a form: the data before the boundary, of any length up to the limit. *)
Lemma until_boundary_spec (fuel n size : nat) (maxsize : Z) (b : byte) (t rest : list byte) :
  (b ∉ t) -> (Z.of_nat size < SIZE_MOD)%Z -> 0 < fuel -> length (b :: t) < size ->
  (maxsize < SIZE_MOD)%Z ->
  forall k w i ubuf trb, (b ∉ w) -> readable i -> instream i = w ++ (b :: t) ++ rest ->
  length w < k -> length w + length (b :: t) < n -> (0 <= trb)%Z -> (trb + Z.of_nat (length w) <= maxsize)%Z ->
  exists i' buf, until_boundary_loop fuel n k i (b :: t) size maxsize ubuf trb =
      (i', Ok (default [] ubuf ++ w, buf)) /\ readable i' /\ instream i' = rest.
Proof.
  intros Ht Hmod Hf Hst Hmax. induction k as [|k IH]; intros w i ubuf trb Hw Hr Hi Hk Hn H0 Htrb; [lia|].
  cbn [until_boundary_loop].
  destruct (read_until_data fuel n i w rest b t size Ht Hw Hmod Hf ltac:(lia) Hr Hi Hn) as (i1 & R1 & E).
  destruct (decide (length w + length (b :: t) < size)) as [Hlt|Hge].
  - destruct E as [-> I1]. rewrite decide_False by (by destruct w).
    rewrite decide_False by (rewrite length_app; lia).
    rewrite length_app, Nat.add_sub, take_app_length.
    rewrite w64_small by lia. rewrite decide_False by lia.
    destruct ubuf as [u|]; [|by eauto]. case_decide as Hz; [|rewrite u_buf_append_eq; by eauto].
    destruct w; [|done]. rewrite app_nil_r. by eauto.
  - cbv zeta in E. destruct E as [-> I1]. set (kk := size - length (b :: t)) in *.
    assert (0 < kk <= length w) as Hkk by (unfold kk; lia).
    rewrite decide_False by (intros Hnil; apply (f_equal length) in Hnil; rewrite length_take in Hnil; simpl in Hnil; lia).
    assert ((match ubuf with Some u => Some u | None => u ← u_buf_create; u_buf_reserve u (2 * size) end)
            = Some (default [] ubuf)) as ->.
    { destruct ubuf; [done|]. rewrite u_buf_create_eq. simpl. apply u_buf_reserve_eq. }
    rewrite length_take, w64_small by lia. rewrite decide_False by lia. rewrite u_buf_append_eq.
    destruct (IH (drop kk w) i1 (Some (default [] ubuf ++ take kk w)) (trb + Z.of_nat (kk `min` length w))%Z)
      as (i' & buf & -> & R & I); try done; rewrite ?length_drop; try lia.
    + intros Hb. apply Hw. apply list_elem_of_lookup in Hb as [j Hj]. rewrite lookup_drop in Hj.
      by eapply list_elem_of_lookup_2.
    + simpl. rewrite <- app_assoc, take_drop. by eauto.
Qed.

Context {T Ct : Type} {DOT : DevOps T} {DKT : DevSink T} {COT : CodecOps Ct}.

(** An uploaded file: the same into the temporary file. *)
Lemma upload_loop_spec (fuel n m : nat) (b : byte) (t rest : list byte) :
  (b ∉ t) -> MP_BUFSZ <= fuel -> length (b :: t) < MP_BUFSZ ->
  forall k w i (tmp : io T Ct), (b ∉ w) -> readable i -> instream i = w ++ (b :: t) ++ rest ->
  length w < k -> length w + length (b :: t) < n -> writable tmp -> room tmp (length w + m) ->
  exists i' tmp', upload_loop fuel n k i tmp (b :: t) = (i', tmp', Ok tt) /\
    readable i' /\ instream i' = rest /\ writable tmp' /\ room tmp' m /\
    outstream tmp' = outstream tmp ++ w /\ same_but_write tmp tmp'.
Proof.
  intros Ht Hf Hst.
  assert (Z.of_nat MP_BUFSZ < SIZE_MOD)%Z as Hmod by (unfold MP_BUFSZ, SIZE_MOD; lia).
  induction k as [|k IH]; intros w i tmp Hw Hr Hi Hk Hn Hwr Hroom; [lia|]. cbn [upload_loop].
  destruct (read_until_data fuel n i w rest b t MP_BUFSZ Ht Hw Hmod ltac:(lia) ltac:(lia) Hr Hi Hn)
    as (i1 & R1 & E).
  destruct (decide (length w + length (b :: t) < MP_BUFSZ)) as [Hlt|Hge].
  - destruct E as [-> I1]. rewrite decide_False by (by destruct w).
    rewrite bool_decide_false by (rewrite length_app; lia). cbn [andb].
    rewrite length_app, Nat.add_sub, take_app_length.
    destruct (io_write_spec fuel tmp w m Hwr Hroom ltac:(lia)) as (tmp' & -> & W1 & W2 & W3 & W4).
    eexists _, _. by split_and!.
  - cbv zeta in E. destruct E as [-> I1]. set (kk := MP_BUFSZ - length (b :: t)) in *.
    assert (0 < kk <= length w) as Hkk by (unfold kk; lia).
    rewrite decide_False by (intros Hnil; apply (f_equal length) in Hnil; rewrite length_take in Hnil; simpl in Hnil; lia).
    cbn [andb]. rewrite <- (take_drop kk w), length_app, <- Nat.add_assoc in Hroom.
    destruct (io_write_spec fuel tmp (take kk w) (length (drop kk w) + m) Hwr Hroom)
      as (tmp1 & -> & W1 & W2 & W3 & W4); [rewrite length_take; unfold kk in *; lia|].
    destruct (IH (drop kk w) i1 tmp1) as (i' & tmp' & -> & R & I & X1 & X2 & X3 & X4);
      try done; rewrite ?length_drop; try lia.
    + intros Hb. apply Hw. apply list_elem_of_lookup in Hb as [j Hj]. rewrite lookup_drop in Hj.
      by eapply list_elem_of_lookup_2.
    + eexists _, _. split_and!; try done.
      * rewrite X3, W3, <- app_assoc, take_drop. done.
      * destruct W4 as (? & ? & ? & ?), X4 as (? & ? & ? & ?). unfold same_but_write. split_and!; congruence.
Qed.
End read_until_spec.

(** ** Overrunning the buffer *)

Section overflow.
Context {L : Libu} {LS : LibuSpec L} {LM : LibuMem L} {D C : Type} {DO : DevOps D} {CO : CodecOps C}
        {DS : DevSource D}.
Implicit Types i : io D C.

Lemma match_next_again (b c : byte) (t : list byte) (ptr : nat) :
  b <> c -> ptr = 0 \/ ptr = 1 -> match_next (b :: c :: t) ptr b = Some 1.
Proof.
  intros Hbc [->| ->]; unfold match_next; simpl nth.
  - rewrite !(decide_True (P := b = b)) by done. by rewrite decide_False by (simpl; lia).
  - rewrite !(decide_False (P := c = b)) by congruence. cbv zeta iota.
    rewrite (decide_True (P := b = b)) by done. by rewrite decide_False by (simpl; lia).
Qed.

(** Once a character has matched, the same character again keeps the matcher at 1, where
    the room left in the buffer is not looked at. *)
Lemma read_until_runs (fuel cap : nat) (b c : byte) (t rest : list byte) :
  b <> c -> 0 < fuel -> forall j n i out, length out + j = cap -> readable i ->
  instream i = replicate (S j) b ++ rest -> j < n ->
  (read_until_loop fuel n i (b :: c :: t) 1 out cap).2 = Fault.
Proof.
  intros Hbc Hf. induction j as [|j IH]; intros n i out Ho Hr Hi Hn;
    (destruct n as [|n]; [lia|]); cbn [read_until_loop]; rewrite bool_decide_false by lia; cbn [andb];
    destruct (read_one fuel i b _ Hr Hf Hi) as (i1 & -> & R1 & I1).
  - by rewrite decide_True by lia.
  - rewrite decide_False by lia.
    rewrite (match_next_branch (b :: c :: t) 1 b _
               (fun p => read_until_loop fuel n i1 (b :: c :: t) p (out ++ [b]) cap)).
    rewrite match_next_again by auto.
    apply IH; [rewrite length_app; simpl; lia|done|done|lia].
Qed.

Lemma read_until_overrun (fuel n cap m : nat) (b c : byte) (t rest : list byte) i :
  b <> c -> 0 < fuel -> (Z.of_nat cap < SIZE_MOD)%Z -> length (b :: c :: t) < cap -> cap < m -> cap < n ->
  readable i -> instream i = replicate m b ++ rest ->
  (read_until fuel n i (b :: c :: t) cap).2 = Fault.
Proof.
  intros Hbc Hf Hmod Hst Hm Hn Hr Hi. unfold read_until. rewrite decide_False by lia.
  destruct n as [|n]; [lia|]. destruct m as [|m]; [lia|]. cbn [read_until_loop].
  rewrite size_left by (simpl; lia). rewrite (bool_decide_false (_ < _)%Z) by (simpl in *; lia).
  rewrite andb_false_r. destruct (read_one fuel i b _ Hr Hf Hi) as (i1 & -> & R1 & I1).
  rewrite decide_False by (simpl; lia).
  rewrite (match_next_branch (b :: c :: t) 0 b _
             (fun p => read_until_loop fuel n i1 (b :: c :: t) p ([] ++ [b]) cap)).
  rewrite match_next_again by auto.
  apply (read_until_runs fuel cap b c t (replicate (m - cap) b ++ rest) Hbc Hf (cap - 1)); try done; [simpl; lia| |lia].
  change (foldr _ _ _) with (replicate m b) in I1. rewrite I1.
  rewrite app_assoc, <- replicate_add. do 2 f_equal. lia.
Qed.
End overflow.

Definition part_boundary (bd : list byte) : list byte := [x0d; x0a] ++ bs "--" ++ bd.

(** A part of a multipart body that consists of more than 4096 carriage returns
    makes the parser write beyond its buffer, whether the part is a form field or an
    uploaded file, and whatever the boundary is. *)
Theorem multipart_overflow {L : Libu} {LS : LibuSpec L} {LM : LibuMem L} {D C T Ct : Type}
    {DO : DevOps D} {CO : CodecOps C} {DS : DevSource D} {DOT : DevOps T} {COT : CodecOps Ct}
    (fuel n k m : nat) (maxsize : Z) (i : io D C) (tmp : io T Ct) (bd rest : list byte) :
  0 < fuel -> 0 < k -> MP_BUFSZ < n -> MP_BUFSZ < m -> length bd < BOUNDARY_BUFSZ ->
  readable i -> instream i = replicate m x0d ++ rest ->
  (request_read_until_boundary fuel n k i (part_boundary bd) MP_BUFSZ maxsize).2 = Fault /\
  (upload_loop fuel n k i tmp (part_boundary bd)).2 = Fault.
Proof.
  intros Hf Hk Hn Hm Hbd Hr Hi. destruct k as [|k]; [lia|].
  assert ((read_until fuel n i (part_boundary bd) MP_BUFSZ).2 = Fault) as E.
  { apply (read_until_overrun fuel n MP_BUFSZ m x0d x0a (bs "--" ++ bd) rest i); try done.
    - change (length (x0d :: x0a :: bs "--" ++ bd)) with (4 + length bd).
      unfold BOUNDARY_BUFSZ in Hbd. unfold MP_BUFSZ. lia. }
  unfold request_read_until_boundary. cbn [until_boundary_loop upload_loop].
  destruct (read_until fuel n i (part_boundary bd) MP_BUFSZ) as [i1 r]. simpl in E. by subst r.
Qed.

(** ** Parts of a form *)

Definition quoted (s : list byte) : list byte := x22 :: s ++ [x22].
Definition disposition_field (nm : list byte) : list byte := bs "form-data; name=" ++ quoted nm.
Definition disposition_file (nm fn : list byte) : list byte :=
  bs "form-data; name=" ++ quoted nm ++ bs "; filename=" ++ quoted fn.

(** A name that can be written between quotes in a header line. *)
Definition plain_name (s : list byte) : Prop :=
  s <> [] /\ (";"%byte ∉ s) /\ (x22 ∉ s) /\ plain s.

Lemma unquote_quoted (s : list byte) : unquote (quoted s) = s.
Proof.
  unfold unquote, quoted. rewrite decide_True by auto. rewrite last_snoc, decide_True by done.
  rewrite length_app, Nat.add_sub. apply take_app_length.
Qed.

Lemma strprefix_app (p s : list byte) : strprefix p (p ++ s) = true.
Proof. unfold strprefix. rewrite take_app_length. by apply streq_eq. Qed.

Lemma semi_token (s : list byte) : s <> [] -> ";"%byte ∉ s -> is_token is_semi s.
Proof.
  intros Hn Hs. split; [done|]. apply Forall_forall. intros c Hc. apply bool_decide_false. by intros ->.
Qed.

Lemma strtok_semi (a : list byte) (ts : list (list byte)) :
  is_token is_semi a -> Forall (is_token is_semi) ts ->
  strtok is_semi (a ++ concat (map (cons ";"%byte) ts)) = a :: ts.
Proof.
  intros Ha Hts. pose proof (strtok_render is_semi ";" (a :: ts) []) as R. simpl in R.
  rewrite strtok_cons_delim, app_nil_r in R by done. apply R; [done|by constructor|constructor].
Qed.

Section disposition.
Context {L : Libu} {LS : LibuSpec L} {LM : LibuMem L}.

Lemma disposition_name (prmsz : nat) (st : list byte * list byte) (nm : list byte) :
  length nm < prmsz ->
  disposition_step prmsz st (bs " name=" ++ quoted nm) = (nm, st.2).
Proof.
  intros Hn. unfold disposition_step. simpl skip_space.
  change ("n"%byte :: ?r) with (bs "name=" ++ quoted nm).
  assert (strprefix (bs "form-data") (bs "name=" ++ quoted nm) = false) as ->
    by (unfold strprefix; by apply bool_decide_false).
  rewrite strprefix_app. change (drop 5 (bs "name=" ++ quoted nm)) with (quoted nm).
  rewrite unquote_quoted, u_strlcpy_spec by lia. simpl. by rewrite take_ge by lia.
Qed.

Lemma disposition_filename (prmsz : nat) (st : list byte * list byte) (fn : list byte) :
  length fn < prmsz ->
  disposition_step prmsz st (bs " filename=" ++ quoted fn) = (st.1, fn).
Proof.
  intros Hn. unfold disposition_step. simpl skip_space.
  change ("f"%byte :: ?r) with (bs "filename=" ++ quoted fn).
  assert (strprefix (bs "form-data") (bs "filename=" ++ quoted fn) = false) as ->
    by (unfold strprefix; by apply bool_decide_false).
  assert (strprefix (bs "name=") (bs "filename=" ++ quoted fn) = false) as ->
    by (unfold strprefix; by apply bool_decide_false).
  rewrite strprefix_app. change (drop 9 (bs "filename=" ++ quoted fn)) with (quoted fn).
  rewrite unquote_quoted, u_strlcpy_spec by lia. simpl. by rewrite take_ge by lia.
Qed.

Lemma disposition_parsed (h : header) (nm : list byte) (fn : option (list byte)) :
  let cd := match fn with None => disposition_field nm | Some f => disposition_file nm f end in
  header_ok h -> head (vals h (bs "Content-Disposition")) = Some cd ->
  plain_name nm -> (forall f, fn = Some f -> plain_name f) ->
  length nm + length (default [] fn) < 400 ->
  parse_content_disposition h MP_PRMSZ = Ok (nm, default [] fn).
Proof.
  intros cd Hh Hv (Hn1 & Hn2 & Hn3 & _) Hfn Hl. unfold parse_content_disposition.
  rewrite header_get_field_value_eq, Hv by done. cbn [mbind res_bind].
  assert (length cd < 512) as Hlen.
  { unfold cd, disposition_field, disposition_file, quoted. destruct fn; simpl in *;
      rewrite ?length_app; simpl; rewrite ?length_app; simpl; lia. }
  rewrite decide_False by lia.
  assert (strprefix (bs "form-data") cd = true) as ->.
  { unfold cd. destruct fn; exact (strprefix_app (bs "form-data") _). }
  rewrite u_strlcpy_spec by lia. simpl fst. rewrite take_ge by lia.
  assert (is_token is_semi (bs "form-data")) as T0 by (apply semi_token; [done|compute_decide]).
  assert (is_token is_semi (bs " name=" ++ quoted nm)) as T1.
  { apply semi_token; [done|]. unfold quoted. simpl. set_solver. }
  assert (forall st, disposition_step MP_PRMSZ st (bs "form-data") = st) as D0 by done.
  assert (MP_PRMSZ = N.to_nat 512) as Hp by done.
  destruct fn as [f|]; simpl in cd, Hl.
  - destruct (Hfn f eq_refl) as (Hf1 & Hf2 & Hf3 & _).
    assert (cd = bs "form-data" ++ concat (map (cons ";"%byte)
              [bs " name=" ++ quoted nm; bs " filename=" ++ quoted f])) as ->.
    { unfold cd, disposition_file. cbn [map concat]. rewrite app_nil_r. simpl.
      rewrite <- !app_assoc. done. }
    rewrite strtok_semi; [|done|constructor; [done|constructor; [|constructor]]].
    2: { apply semi_token; [done|]. unfold quoted. simpl. set_solver. }
    cbn [foldl]. rewrite D0, disposition_name, disposition_filename by lia. done.
  - assert (cd = bs "form-data" ++ concat (map (cons ";"%byte) [bs " name=" ++ quoted nm])) as ->.
    { unfold cd, disposition_field. cbn [map concat]. by rewrite app_nil_r. }
    rewrite strtok_semi; [|done|constructor; [done|constructor]].
    cbn [foldl]. rewrite D0, disposition_name by lia. done.
Qed.
End disposition.

(** A form as a client sends it: the parts with their names and data, each followed by the
    boundary; the last boundary has two dashes behind it. *)
Definition part_bytes (bd : list byte) (nw : list byte * list byte) : list byte :=
  send_lines [field_line (bs "Content-Disposition", disposition_field nw.1)] ++ nw.2 ++ part_boundary bd.

Fixpoint parts_bytes (bd : list byte) (nws : list (list byte * list byte)) : list byte :=
  match nws with
  | [] => []
  | [nw] => part_bytes bd nw ++ bs "--"
  | nw :: nws' => part_bytes bd nw ++ [x0d; x0a] ++ parts_bytes bd nws'
  end.

Definition form_bytes (bd : list byte) (nws : list (list byte * list byte)) : list byte :=
  bs "--" ++ bd ++ [x0d; x0a] ++ parts_bytes bd nws.

(** A field that the parser reads back. *)
Definition part_ok (maxsize : Z) (nw : list byte * list byte) : Prop :=
  plain_name nw.1 /\ length nw.1 < 400 /\ nw.2 <> [] /\ (x0d ∉ nw.2) /\
  (Z.of_nat (length nw.2) <= maxsize)%Z.

Lemma part_pair_ok (nm : list byte) :
  plain_name nm -> length nm < 400 -> pair_ok (bs "Content-Disposition", disposition_field nm).
Proof.
  intros (Hne & _ & _ & H1 & H2 & H3) Hl. unfold pair_ok, plain, not_blank, disposition_field, quoted.
  cbn [fst snd]. split_and!; try compute_decide; try (simpl; set_solver); try done.
  rewrite !length_app. unfold LINE_MAX. rewrite GETLINE_BUFSZ_val. simpl. rewrite length_app. simpl. lia.
Qed.

Section form.
Context {L : Libu} {LS : LibuSpec L} {LM : LibuMem L} {D C T Ct : Type} {DO : DevOps D} {CO : CodecOps C}
        {DS : DevSource D} {DOT : DevOps T} {COT : CodecOps Ct}.
Variable FILENAME_MAX : nat.
Variable tmpfile_open : nat -> option (io T Ct).
Variable stat_size : list byte -> option nat.
Implicit Types rq : request D C.

Abbreviation chunk := (request_parse_multipart_chunk FILENAME_MAX tmpfile_open stat_size).
Abbreviation parts := (parts_loop FILENAME_MAX tmpfile_open stat_size).

Lemma MP_BUFSZ_val : MP_BUFSZ = N.to_nat 4096.
Proof. done. Qed.

Lemma epilogue_spec (fuel rall : nat) (files : list T) (Hf : 0 < fuel) :
  forall k rq, readable (rq_io rq) -> length (instream (rq_io rq)) < k ->
  exists i', epilogue_loop fuel k rall (rq, files) = ((set_rq_io rq i', files), Ok tt) /\ readable i'.
Proof.
  induction k as [|k IH]; intros rq Hr Hk; [lia|]. cbn [epilogue_loop fst].
  destruct (decide _) as [Hlt|Hge]; [|exists (rq_io rq); split; [by destruct rq|done]].
  set (m := min (rall - rtot (io_r (rq_io rq))) MP_BUFSZ).
  assert (0 < m) as Hm by (unfold m; rewrite MP_BUFSZ_val; lia).
  destruct (io_read_spec fuel (rq_io rq) m Hr Hf) as (i1 & E & R1 & I1 & _).
  unfold on_io. cbn [fst snd]. rewrite E.
  destruct (take m (instream (rq_io rq))) as [|c l] eqn:Et; [by exists i1|].
  destruct (IH (set_rq_io rq i1)) as (i' & -> & R').
  - by destruct rq.
  - replace (rq_io (set_rq_io rq i1)) with i1 by (by destruct rq). rewrite I1, length_drop.
    destruct (instream (rq_io rq)); [by rewrite take_nil in Et|]. simpl in *. lia.
  - exists i'. split; [by destruct rq|done].
Qed.

(** The header of a part. *)
Lemma part_header (fuel n : nat) (i : io D C) (nm rest : list byte) :
  0 < fuel -> 0 < n -> plain_name nm -> length nm < 400 -> readable i ->
  instream i = send_lines [field_line (bs "Content-Disposition", disposition_field nm)] ++ rest ->
  exists i' h, header_load fuel n header_create i = (i', h, Ok tt) /\ readable i' /\ instream i' = rest /\
    is_multipart_mixed h = Ok false /\ is_encoded h = Ok false /\
    parse_content_disposition h MP_PRMSZ = Ok (nm, []).
Proof.
  intros Hf Hn Hnm Hl Hr Hi.
  destruct (header_load_pairs fuel n header_create i [(bs "Content-Disposition", disposition_field nm)] rest)
    as (i' & E & R & I); try done.
  { constructor; [by apply part_pair_ok|constructor]. }
  { unfold HEADER_MAX_FIELD_COUNT. simpl. lia. }
  eexists _, _. split; [done|]. split_and!; try done.
  apply (disposition_parsed _ nm None).
  - split; [done|]. by repeat constructor; eexists.
  - done.
  - done.
  - done.
  - simpl. lia.
Qed.

(** A field and the two bytes after its boundary, up to the decision what comes next. *)
Lemma chunk_field (fuel n k : nat) rq (files : list T) (bd : list byte) (nw : list byte * list byte)
    (two rest : list byte) :
  0 < fuel -> 0 < n -> (x0d ∉ bd) -> length bd < BOUNDARY_BUFSZ -> (post_maxsize rq < SIZE_MOD)%Z ->
  part_ok (post_maxsize rq) nw -> length nw.2 < k -> length nw.2 + length (part_boundary bd) < n ->
  readable (rq_io rq) -> instream (rq_io rq) = part_bytes bd nw ++ two ++ rest -> length two = 2 ->
  exists i', readable i' /\ instream i' = rest /\
    let rq' := add_post (set_rq_io rq i') [fresh_var nw.1 nw.2] in
    chunk fuel n k (part_boundary bd) (rq, files) =
    if strprefix (bs "--") two then
      (epilogue_loop fuel k (Z.to_nat (content_length rq) + body_off rq);;; pret true) (rq', files)
    else ((rq', files), Ok false).
Proof.
  intros Hf Hn Hbd Hbl Hmax (Hnm & Hnl & Hne & Hcr & Hsz) Hk Hn2 Hr Hi Htwo.
  destruct nw as [nm w]. cbn [fst snd] in *. unfold part_bytes in Hi. cbn [fst snd] in Hi.
  rewrite <- !app_assoc in Hi.
  destruct (part_header fuel n (rq_io rq) nm _ Hf Hn Hnm Hnl Hr Hi) as (i1 & h & E1 & R1 & I1 & Hm & He & Hc).
  unfold request_parse_multipart_chunk. unfold pbind at 1. cbn [fst snd]. rewrite E1.
  cbn [fmap res_fmap]. unfold pbind at 1, plift at 1. rewrite Hm. unfold pbind at 1, pguard at 1.
  cbn [negb]. unfold pbind at 1, plift at 1. rewrite He. unfold pbind at 1, pguard at 1. cbn [negb].
  unfold pbind at 1, plift at 1. rewrite Hc. cbv zeta beta iota.
  set (r1 := set_rq_io rq i1).
  assert (rq_io r1 = i1 /\ post_maxsize r1 = post_maxsize rq) as [Hio1 Hmx1] by (by destruct rq).
  rewrite decide_True by done.
  destruct (until_boundary_spec (D:=D) (C:=C) fuel n MP_BUFSZ (post_maxsize rq) x0d (x0a :: bs "--" ++ bd) (two ++ rest))
    with (k := k) (w := w) (i := i1) (ubuf := @None (list byte)) (trb := 0%Z)
    as (i2 & buf & E2 & R2 & I2); try done.
  { simpl. set_solver. }
  { change (length (x0d :: x0a :: bs "--" ++ bd)) with (4 + length bd).
    unfold BOUNDARY_BUFSZ in Hbl. unfold MP_BUFSZ. lia. }
  assert (on_io (fun i => request_read_until_boundary fuel n k i (part_boundary bd) MP_BUFSZ
                            (post_maxsize r1)) (r1, files) = ((set_rq_io r1 i2, files), Ok (w, buf))) as E3.
  { unfold on_io, request_read_until_boundary. cbn [fst snd]. rewrite Hio1, Hmx1.
    change (part_boundary bd) with (x0d :: x0a :: bs "--" ++ bd). rewrite E2. done. }
  set (r2 := set_rq_io r1 i2). fold r2 in E3.
  rewrite (pbind_Ok _ _ _ (add_post r2 [fresh_var nm w], files) buf); cycle 1.
  { unfold pbind at 1, pget at 1. cbn [fst snd]. erewrite pbind_Ok by exact E3. cbn [fst snd].
    unfold pbind at 1, plift. rewrite var_bin_create_eq by done.
    unfold pbind at 1, pignore at 1, on_rq at 1, on_vars at 1. cbn [fst snd]. rewrite vars_add_eq.
    unfold pbind at 1, pignore, on_rq, on_vars. cbn [fst snd]. rewrite vars_add_eq. unfold pret.
    do 2 f_equal. unfold add_post, vars_app. by destruct r2. }
  clear E1 E2 E3. set (r3 := add_post r2 _).
  assert (rq_io r3 = i2) as Hio3 by (unfold r3, r2, r1; by destruct rq).
  unfold pbind at 1, on_io at 1. cbn [fst snd]. rewrite Hio3.
  destruct (io_read_spec fuel i2 2 R2 Hf) as (i4 & -> & R4 & I4 & _).
  rewrite I2, take_app_length', drop_app_length' in * by done.
  unfold pbind at 1, pguard. rewrite bool_decide_true by (by destruct two).
  exists i4. split; [done|]. split; [done|]. cbv zeta.
  assert (set_rq_io r3 i4 = add_post (set_rq_io rq i4) [fresh_var nm w]) as ->
    by (unfold r3, r2, r1, add_post; by destruct rq).
  assert (strprefix (bs "--") (two ++ drop (length two) buf) = strprefix (bs "--") two) as ->.
  { unfold strprefix. change (length (bs "--")) with 2. rewrite <- Htwo at 1.
    rewrite take_app_length, take_ge by lia. done. }
  destruct (strprefix (bs "--") two); [|done].
  unfold pbind at 1, pget. cbn [fst snd]. unfold add_post. by destruct rq.
Qed.

Definition field_vars (nws : list (list byte * list byte)) : list var :=
  map (fun nw => fresh_var nw.1 nw.2) nws.

Lemma parts_spec (fuel n k : nat) (files : list T) (bd rest : list byte) :
  0 < fuel -> (x0d ∉ bd) -> length bd < BOUNDARY_BUFSZ ->
  forall nws m rq, nws <> [] -> length nws <= m -> (post_maxsize rq < SIZE_MOD)%Z ->
  Forall (part_ok (post_maxsize rq)) nws -> readable (rq_io rq) ->
  instream (rq_io rq) = parts_bytes bd nws ++ rest ->
  length (instream (rq_io rq)) < n -> length (instream (rq_io rq)) < k ->
  exists i', parts fuel n k m (part_boundary bd) (rq, files) =
      ((add_post (set_rq_io rq i') (field_vars nws), files), Ok tt) /\ readable i'.
Proof.
  intros Hf Hbd Hbl. induction nws as [|nw nws IH]; intros m rq Hne Hm Hmax Hok Hr Hi Hn Hk; [done|].
  destruct m as [|m]; [simpl in Hm; lia|]. cbn [parts_loop].
  apply Forall_cons in Hok as [Hnw Hok].
  set (two := match nws with [] => bs "--" | _ => [x0d; x0a] end).
  set (rest' := match nws with [] => rest | _ => parts_bytes bd nws ++ rest end).
  assert (instream (rq_io rq) = part_bytes bd nw ++ two ++ rest') as Hi'.
  { rewrite Hi. unfold two, rest'. destruct nws; simpl; by rewrite <- ?app_assoc. }
  assert (length (instream (rq_io rq)) = length (part_bytes bd nw) + 2 + length rest') as Hlen.
  { rewrite Hi', !length_app. unfold two. destruct nws; simpl; lia. }
  assert (length nw.2 + length (part_boundary bd) <= length (part_bytes bd nw)) as Hpl.
  { unfold part_bytes. rewrite !length_app. lia. }
  destruct (chunk_field fuel n k rq files bd nw two rest') as (i1 & R1 & I1 & E); try done; try lia.
  { unfold two. by destruct nws. }
  unfold pbind. rewrite E. clear E. unfold two, rest' in *. destruct nws as [|nw2 nws].
  - change (strprefix (bs "--") (bs "--")) with true. cbn iota.
    destruct (epilogue_spec fuel (Z.to_nat (content_length rq) + body_off rq) files Hf k
                (add_post (set_rq_io rq i1) [fresh_var nw.1 nw.2])) as (i2 & E2 & R2).
    + by destruct rq.
    + replace (rq_io _) with i1 by (by destruct rq). rewrite I1. lia.
    + erewrite pbind_Ok by exact E2. exists i2. split; [|done]. unfold pret, add_post. by destruct rq.
  - change (strprefix (bs "--") [x0d; x0a]) with false. cbn iota.
    set (r1 := add_post (set_rq_io rq i1) [fresh_var nw.1 nw.2]).
    assert (rq_io r1 = i1 /\ post_maxsize r1 = post_maxsize rq) as [Hio Hmx] by (by destruct rq).
    destruct (IH m r1) as (i2 & -> & R2); try done; try (rewrite ?Hio, ?Hmx; done).
    + simpl in *. lia.
    + rewrite Hio, I1. lia.
    + rewrite Hio, I1. lia.
    + exists i2. split; [|done]. unfold field_vars. cbn [map]. do 2 f_equal.
      change (fresh_var nw.1 nw.2 :: ?l) with ([fresh_var nw.1 nw.2] ++ l). rewrite <- add_post_app.
      unfold r1, add_post. by destruct rq.
Qed.

(** The boundary parameter of a multipart content type. *)
Lemma boundary_param (h : header) (bd : list byte) :
  header_ok h -> head (vals h (bs "Content-Type")) = Some (bs "multipart/form-data; boundary=" ++ bd) ->
  Forall (fun c => c <> ";"%byte /\ isspace c = false) bd -> length bd < BOUNDARY_BUFSZ - 2 ->
  request_get_fieldparam h (bs "Content-Type") (bs "boundary") (BOUNDARY_BUFSZ - 2) = Ok bd.
Proof.
  intros Hh Hv Hbd Hl. unfold request_get_fieldparam. rewrite header_get_field_value_eq, Hv by done.
  cbn [mbind res_bind].
  assert (Search.u_stristr (bs "multipart/form-data; boundary=" ++ bd) (bs "boundary") = Some 21) as ->
    by (vm_compute; reflexivity).
  change (drop (21 + length (bs "boundary")) (bs "multipart/form-data; boundary=" ++ bd))
    with ("="%byte :: drop 0 bd). rewrite drop_0, decide_True by done.
  assert (param_end bd = bd) as ->.
  { clear -Hbd. induction Hbd as [|c l [H1 H2] _ IH]; simpl; [done|]. by rewrite decide_False, H2, IH. }
  rewrite decide_False by lia. rewrite u_strlcpy_spec by lia. simpl. by rewrite take_ge by lia.
Qed.

End form.

(** ** Limits on the body *)

Section data_limits.
Context {L : Libu} {LS : LibuSpec L} {LM : LibuMem L} {D C T Ct : Type} {DO : DevOps D} {CO : CodecOps C}
        {DOT : DevOps T} {COT : CodecOps Ct}.
Variable FILENAME_MAX : nat.
Variable tmpfile_open : nat -> option (io T Ct).
Variable stat_size : list byte -> option nat.
Implicit Types rq : request D C.

Lemma query_args_run rq :
  (forall q, query rq = Some q -> (x00 ∉ q) /\ (Z.of_nat (length q) < SIZE_MOD)%Z) ->
  exists l, request_parse_query_args rq = (add_get rq l, Ok tt).
Proof.
  intros Hq. unfold request_parse_query_args, pbind, pget, foreach_query_var.
  destruct (query rq) as [q|]; [|exists []; by rewrite add_get_nil].
  destruct (Hq q eq_refl) as [Hz Hl]. rewrite drop_0, cstr_id, u_alloc_ok by done.
  exists (query_vars q). by apply query_vars_eq.
Qed.

Lemma atoi_range (s : list byte) (z : Z) : atoi s = Ok z -> (INT_MIN <= z <= INT_MAX)%Z.
Proof. unfold atoi. case_decide; [|done]. naive_solver. Qed.

End data_limits.

(** ** Evaluation *)

Definition form2 : list (list byte * list byte) := [(bs "a", bs "1"); (bs "b", bs "two words")].

Definition rq_form : request io_mem no_codec :=
  set_rq_io (set_rq_header rq0
    (mkHeader [mk_field (bs "Content-Type", bs "multipart/form-data; boundary=XyZ")] 1))
    (mem_io (form_bytes (bs "XyZ") form2 ++ bs "tail")).


Lemma multipart_overflow_witness :
  (request_read_until_boundary (L:=libu_ref) 1 (S MP_BUFSZ) 1 (mem_io (replicate (S MP_BUFSZ) x0d ++ []))
     (part_boundary (bs "XyZ")) MP_BUFSZ 5120000).2 = Fault /\
  (upload_loop (L:=libu_ref) 1 (S MP_BUFSZ) 1 (mem_io (replicate (S MP_BUFSZ) x0d ++ []))
     (mem_io []) (part_boundary (bs "XyZ"))).2 = Fault.
Proof.
  apply (multipart_overflow (L:=libu_ref) 1 (S MP_BUFSZ) 1 (S MP_BUFSZ) 5120000 _ (mem_io []) (bs "XyZ") []).
  - lia.
  - lia.
  - lia.
  - lia.
  - compute_decide.
  - apply mem_io_readable.
  - apply mem_io_readable.
Defined.

Definition rq_negative : request io_mem no_codec :=
  set_rq_method (set_rq_header rq0 (mkHeader [mk_field (bs "Content-Length", bs "-1")] 1)) HM_POST.

