(* ===== verification/Response.v ===== *)
(** HTTP responses: src/src/libpage/response.c, and the table of status descriptions of
    src/src/libhttp/http.c.

    A response is its header, its output stream, its status and its method.  The functions
    run in [prog (response D C)].  [io_printf] gets the text already formatted; [fmt_d] is
    the conversion of an [int]. *)

From S2P Require Import Prelude Libu Encode Path Date Io IoSpec IoMem Getline Header Vars Request.

(** ** http.h and the table of descriptions *)

Definition http_status_map : list (Z * list byte) := [
  (200, bs "OK"); (304, bs "Not Modified"); (404, bs "Not Found");
  (500, bs "Internal Server Error"); (301, bs "Moved Permanently"); (302, bs "Moved Temporarily");
  (201, bs "Created"); (202, bs "Accepted"); (204, bs "No Content"); (400, bs "Bad Request");
  (401, bs "Unauthorized"); (403, bs "Forbidden"); (411, bs "Content-Length required");
  (413, bs "Request data too big"); (430, bs "Key needed"); (501, bs "Not Implemented");
  (502, bs "Bad Gateway"); (503, bs "Service Unavailable")]%Z.

Fixpoint status_loop (map : list (Z * list byte)) (status : Z) : list byte :=
  match map with
  | [] => bs "Unknown Status Code"
  | (s, desc) :: map' => if decide (s = status) then desc else status_loop map' status
  end.
Definition http_get_status_desc (status : Z) : list byte := status_loop http_status_map status.

Definition fmt_d (v : Z) : list byte := if decide (v < 0)%Z then bs "-" ++ fmt_u (- v) else fmt_u v.

(** ** The response *)

Record response (D C : Type) := mkRs {
  rs_header : header;
  rs_io : io D C;
  rs_status : Z;
  rs_method : method;
  rs_cgi : bool
}.
Arguments mkRs {D C} _ _ _ _ _.
Arguments rs_header {D C} _.
Arguments rs_io {D C} _.
Arguments rs_status {D C} _.
Arguments rs_method {D C} _.
Arguments rs_cgi {D C} _.

Definition COOKIE_OUT_BUFSZ : nat := N.to_nat 4096.     (* BUFSZ of response_set_cookie *)
Definition RS_BUFSZ : nat := N.to_nat 64.               (* BUFSZ of the setters of dates and numbers *)

Section response_ops.
Context {L : Libu} {D C : Type} {DO : DevOps D} {CO : CodecOps C}.
Implicit Types rs : response D C.
Abbreviation sprog A := (prog (response D C) A).

Definition set_rs_header rs (v : header) : response D C :=
  let 'mkRs _ b c d e := rs in mkRs v b c d e.
Definition set_rs_io rs (v : io D C) : response D C :=
  let 'mkRs a _ c d e := rs in mkRs a v c d e.
Definition set_rs_status rs (v : Z) : response D C :=
  let 'mkRs a b _ d e := rs in mkRs a b v d e.
Definition set_rs_method rs (v : method) : response D C :=
  let 'mkRs a b c _ e := rs in mkRs a b c v e.
Definition set_rs_cgi rs (v : bool) : response D C :=
  let 'mkRs a b c d _ := rs in mkRs a b c d v.

Definition response_set_status (status : Z) : sprog unit := pmod (fun rs => set_rs_status rs status).
Definition response_set_method (m : method) : sprog unit := pmod (fun rs => set_rs_method rs m).
Definition response_set_cgi (cgi : bool) : sprog unit := pmod (fun rs => set_rs_cgi rs cgi).
Definition response_bind (out : io D C) : sprog unit := pmod (fun rs => set_rs_io rs out).
Definition response_get_status rs : Z := rs_status rs.

(** ** Fields *)

Definition response_set_field (name value : list byte) : sprog unit := fun rs =>
  let '(h, r) := header_set_field (rs_header rs) name value in (set_rs_header rs h, r).

Definition response_del_field (name : list byte) : sprog unit :=
  let! rs := pget in
  let! f := plift (header_get_field (rs_header rs) name) in
  match f with
  | None => pfail
  | Some k => pmod (fun rs => set_rs_header rs (header_del_field (rs_header rs) k))
  end.

Definition response_add_field (name value : list byte) : sprog unit :=
  let! f := plift (field_create (Some name) (Some value)) in
  pmod (fun rs => set_rs_header rs (header_add_field (rs_header rs) f)).

Definition response_set_content_encoding (encoding : list byte) : sprog unit :=
  response_set_field (bs "Content-Encoding") encoding.
Definition response_set_content_type (mime_type : list byte) : sprog unit :=
  response_set_field (bs "Content-Type") mime_type.

Definition response_disable_caching : sprog unit :=
  response_set_field (bs "Cache-Control") (bs "no-cache, must-revalidate");;;
  response_set_field (bs "Expires") (bs "Mon, 1 Jan 1990 05:00:00 GMT");;;
  response_set_field (bs "Pragma") (bs "no-cache").

Definition response_enable_caching : sprog unit :=
  response_del_field (bs "Cache-Control");;;
  response_del_field (bs "Expires");;;
  response_del_field (bs "Pragma").

Definition response_set_date (date : Z) : sprog unit :=
  let! buf := plift (u_tt_to_rfc822 date) in response_set_field (bs "Date") buf.
Definition response_set_last_modified (mtime : Z) : sprog unit :=
  let! buf := plift (u_tt_to_rfc822 mtime) in response_set_field (bs "Last-Modified") buf.

(** [%u] takes the low 32 bits of the [size_t]. *)
Definition response_set_content_length (sz : Z) : sprog unit :=
  let '(buf, trunc) := u_snprintf (fmt_u (u32 sz)) RS_BUFSZ in
  pguard (negb trunc);;;
  response_set_field (bs "Content-Length") buf.

Definition response_redirect (url : list byte) : sprog unit :=
  response_set_status 302;;;
  response_add_field (bs "Location") url.

(** ** Cookies *)

(** [u_snprintf(buf + strlen(buf), BUFSZ - strlen(buf), ...)] *)
Definition buf_append (buf text : list byte) : res (list byte) :=
  let '(t, trunc) := u_snprintf text (COOKIE_OUT_BUFSZ - length buf) in
  if trunc : bool then Fail else Ok (buf ++ t).

(** The text of a cookie.  [u_urlncpy] is not told the size of the buffer. *)
Definition cookie_text (name : list byte) (value : option (list byte)) (expire : Z)
    (path domain : option (list byte)) (secure : bool) : res (list byte) :=
  match value with
  | None => buf_append [] (name ++ bs "=; expires=Wed, 01-Jan-1990 10:10:10 GMT")
  | Some v =>
      buf ← buf_append [] (name ++ bs "=");
      enc ← Url.u_urlncpy (v ++ [x00]) (length v) COPY_ENCODE;
      if decide (COOKIE_OUT_BUFSZ < length buf + length enc + 1) then Fault else
      if decide (enc = []) then Fail else
      let buf := buf ++ enc in
      buf ← (if decide (expire = 0%Z) then Ok buf else
             date ← u_tt_to_rfc822 expire; buf_append buf (bs "; expires=" ++ date));
      buf ← match path with Some p => buf_append buf (bs "; path=" ++ p) | None => Ok buf end;
      buf ← match domain with Some d => buf_append buf (bs "; domain=" ++ d) | None => Ok buf end;
      if secure then buf_append buf (bs "; secure") else Ok buf
  end.

Definition response_set_cookie (name : list byte) (value : option (list byte)) (expire : Z)
    (path domain : option (list byte)) (secure : bool) : sprog unit :=
  let! buf := plift (cookie_text name value expire path domain secure) in
  response_add_field (bs "Set-Cookie") buf.

(** ** Output *)

Definition rs_printf (fuel : nat) (text : list byte) : sprog unit := fun rs =>
  let '(i, r) := io_printf fuel (rs_io rs) text in (set_rs_io rs i, r).

Definition response_print_status (fuel : nat) : sprog unit :=
  let! rs := pget in
  rs_printf fuel (bs "HTTP/1.0 " ++ fmt_d (rs_status rs) ++ bs " " ++
                  http_get_status_desc (rs_status rs) ++ crlf).

(** Printing a NULL string is undefined behaviour. *)
Definition response_print_field (fuel : nat) (f : field) : sprog unit :=
  match f_name f, f_value f with
  | Some n, Some v => rs_printf fuel (n ++ bs ": " ++ v ++ crlf)
  | _, _ => plift Fault
  end.

Fixpoint print_fields (fuel : nat) (h : header) (idxs : list nat) : sprog unit :=
  match idxs with
  | [] => pret tt
  | i :: idxs' =>
      match header_get_fieldn h i ≫= fun k => h_fields h !! k with
      | Some f => response_print_field fuel f
      | None => plift Fault
      end;;;
      print_fields fuel h idxs'
  end.

Definition response_print_header (fuel : nat) : sprog unit :=
  let! rs := pget in
  (if rs_cgi rs then pret tt else response_print_status fuel);;;
  print_fields fuel (rs_header rs) (seq 0 (header_field_count (rs_header rs)));;;
  rs_printf fuel crlf.

(** The loop of [response_get_max_header_size]. *)
Fixpoint header_size (h : header) (idxs : list nat) : res nat :=
  match idxs with
  | [] => Ok 0
  | i :: idxs' =>
      match header_get_fieldn h i ≫= fun k => h_fields h !! k with
      | Some f =>
          r ← header_size h idxs';
          Ok (length (default [] (field_get_name f)) + length (default [] (field_get_value f)) + 4 + r)
      | None => Fault
      end
  end.

Definition response_get_max_header_size rs : res nat :=
  n ← header_size (rs_header rs) (seq 0 (header_field_count (rs_header rs)));
  Ok (16 + length (http_get_status_desc (rs_status rs)) + n + 2 + 64).
End response_ops.

(** ** The printed header *)

Definition status_line (status : Z) : list byte :=
  bs "HTTP/1.0 " ++ fmt_d status ++ bs " " ++ http_get_status_desc status ++ crlf.

Definition field_text (f : field) : list byte :=
  default [] (f_name f) ++ bs ": " ++ default [] (f_value f) ++ crlf.

(** The header as a client gets it. *)
Definition header_text {D C} (rs : response D C) : list byte :=
  (if rs_cgi rs then [] else status_line (rs_status rs)) ++
  concat (map field_text (h_fields (rs_header rs))) ++ crlf.

Section response_output.
Context {L : Libu} {LS : LibuSpec L} {LM : LibuMem L} {D C : Type} {DO : DevOps D} {DK : DevSink D}
        {CO : CodecOps C}.
Implicit Types rs : response D C.

Lemma io_printf_spec (fuel : nat) (i : io D C) (text : list byte) (m : nat) :
  writable i -> room i (length text + m) -> length text <= fuel ->
  exists i', io_printf fuel i text = (i', Ok tt) /\ writable i' /\ room i' m /\
    outstream i' = outstream i ++ text /\ same_but_write i i'.
Proof.
  intros Hw Hr Hf. destruct (io_write_spec fuel i text m Hw Hr Hf) as (i' & E & H1 & H2 & H3 & H4).
  unfold io_printf. rewrite u_alloc_ok, E. case_decide; [by exists i'|].
  case_decide as Hn; [|by exists i']. subst text. exists i. rewrite app_nil_r. by split_and!.
Qed.

(** [rs'] is [rs] with [text] written to its stream. *)
Definition printed rs rs' (text : list byte) : Prop :=
  rs' = set_rs_io rs (rs_io rs') /\ writable (rs_io rs') /\
  outstream (rs_io rs') = outstream (rs_io rs) ++ text /\ same_but_write (rs_io rs) (rs_io rs').

Lemma printed_refl rs : writable (rs_io rs) -> printed rs rs [].
Proof. intros. unfold printed. rewrite app_nil_r. split_and!; try done. by destruct rs. Qed.

Lemma printed_trans rs1 rs2 rs3 (t u : list byte) :
  printed rs1 rs2 t -> printed rs2 rs3 u -> printed rs1 rs3 (t ++ u).
Proof.
  intros (E1 & _ & O1 & S1 & S2 & S3 & S4) (E2 & W2 & O2 & T1 & T2 & T3 & T4). split_and!; try done.
  - rewrite E2, E1. destruct rs1; simpl. done.
  - by rewrite O2, O1, app_assoc.
  - split_and!; congruence.
Qed.

Lemma rs_printf_spec (fuel : nat) rs (text : list byte) (m : nat) :
  writable (rs_io rs) -> room (rs_io rs) (length text + m) -> length text <= fuel ->
  exists rs', rs_printf fuel text rs = (rs', Ok tt) /\ printed rs rs' text /\ room (rs_io rs') m.
Proof.
  intros Hw Hr Hf. unfold rs_printf.
  destruct (io_printf_spec fuel (rs_io rs) text m Hw Hr Hf) as (i' & -> & W & R & O & S).
  exists (set_rs_io rs i'). destruct rs. by split_and!.
Qed.

Lemma print_fields_spec (fuel : nat) (h : header) (m : nat) (fs pre : list field) rs :
  header_ok h -> h_fields h = pre ++ fs ->
  writable (rs_io rs) -> room (rs_io rs) (length (concat (map field_text fs)) + m) ->
  length (concat (map field_text fs)) <= fuel ->
  exists rs', print_fields fuel h (seq (length pre) (length fs)) rs = (rs', Ok tt) /\
    printed rs rs' (concat (map field_text fs)) /\ room (rs_io rs') m.
Proof.
  intros [Hn Hok]. revert pre rs. induction fs as [|f fs IH]; intros pre rs Hh Hw Hr Hf.
  { exists rs. split_and!; [done|by apply printed_refl|done]. }
  simpl in *. rewrite length_app in *. assert (field_ok f) as [[n Hfn] [v Hfv]].
  { rewrite Hh in Hok. by apply Forall_app in Hok as [_ [? _]%Forall_cons]. }
  destruct (rs_printf_spec fuel rs (field_text f) (length (concat (map field_text fs)) + m))
    as (rs1 & E1 & P1 & R1); [done|by rewrite Nat.add_assoc|lia|].
  assert (match header_get_fieldn h (length pre) ≫= (fun k => h_fields h !! k) with
          | Some f => response_print_field fuel f | None => plift Fault end rs = (rs1, Ok tt)) as E.
  { unfold header_get_fieldn. rewrite Hn, Hh, length_app. simpl.
    rewrite decide_False, decide_True by lia. simpl. rewrite list_lookup_middle by done.
    unfold response_print_field. rewrite Hfn, Hfv. rewrite <- E1. unfold field_text. by rewrite Hfn, Hfv. }
  erewrite pbind_Ok by exact E.
  assert (h_fields h = (pre ++ [f]) ++ fs) as Hh' by (rewrite Hh, <- app_assoc; done).
  replace (S (length pre)) with (length (pre ++ [f])) by (rewrite length_app; simpl; lia).
  destruct (IH _ rs1 Hh') as (rs2 & -> & P2 & R2); [apply P1|done|lia|].
  exists rs2. split_and!; [done|by eapply printed_trans|done].
Qed.

Lemma print_header_spec (fuel : nat) rs (m : nat) :
  header_ok (rs_header rs) -> writable (rs_io rs) -> room (rs_io rs) (length (header_text rs) + m) ->
  length (header_text rs) <= fuel ->
  exists rs', response_print_header fuel rs = (rs', Ok tt) /\ printed rs rs' (header_text rs) /\
    room (rs_io rs') m.
Proof.
  intros Hh Hw Hr Hf. unfold response_print_header. erewrite pbind_Ok by done. unfold header_text in *.
  rewrite !length_app in *. set (fs := h_fields (rs_header rs)) in *.
  set (sl := if rs_cgi rs then [] else status_line (rs_status rs)) in *.
  assert (exists rs1, (if rs_cgi rs then pret tt else response_print_status fuel) rs = (rs1, Ok tt) /\
    printed rs rs1 sl /\ room (rs_io rs1) (length (concat (map field_text fs)) + (length crlf + m)))
    as (rs1 & E1 & P1 & R1).
  { unfold sl in *. replace (length _ + (_ + length crlf) + m) with
      (length sl + (length (concat (map field_text fs)) + (length crlf + m))) in Hr by (unfold sl; lia).
    unfold sl in *. destruct (rs_cgi rs).
    - exists rs. split_and!; [done|by apply printed_refl|done].
    - apply rs_printf_spec; [done|done|lia]. }
  erewrite pbind_Ok by exact E1. unfold header_field_count. rewrite (proj1 Hh). fold fs.
  destruct (print_fields_spec fuel (rs_header rs) (length crlf + m) fs [] rs1 Hh eq_refl)
    as (rs2 & E2 & P2 & R2); [apply P1|done|lia|].
  erewrite pbind_Ok by exact E2.
  destruct (rs_printf_spec fuel rs2 crlf m) as (rs3 & E3 & P3 & R3); [apply P2|done|lia|].
  exists rs3. split_and!; [done| |done]. eapply printed_trans; [exact P1|]. by eapply printed_trans.
Qed.
End response_output.

Section response_claims.
Context {L : Libu} {LS : LibuSpec L} {LM : LibuMem L} {D C : Type} {DO : DevOps D} {DK : DevSink D}
        {CO : CodecOps C}.
Context {D2 C2 : Type} {DO2 : DevOps D2} {DS2 : DevSource D2} {CO2 : CodecOps C2}.
Implicit Types rs : response D C.

(** C24: what a server prints as a header a client reads back.  [response_print_header]
    writes the status line and the fields; when the fields are fit to be sent,
    [header_load] on any stream that starts with the printed fields returns the header of
    the response and leaves the body. *)
Theorem response_header_roundtrip (fuel : nat) rs (nvs : list (list byte * list byte)) :
  rs_header rs = mkHeader (map mk_field nvs) (length nvs) -> Forall pair_ok nvs ->
  length nvs < HEADER_MAX_FIELD_COUNT ->
  writable (rs_io rs) -> room (rs_io rs) (length (header_text rs)) -> length (header_text rs) <= fuel ->
  exists rs' fields, response_print_header fuel rs = (rs', Ok tt) /\
    rs_header rs' = rs_header rs /\ rs_status rs' = rs_status rs /\
    outstream (rs_io rs') =
      outstream (rs_io rs) ++ (if rs_cgi rs then [] else status_line (rs_status rs)) ++ fields /\
    forall (i : io D2 C2) (f n : nat) (body : list byte),
      0 < f -> 0 < n -> readable i -> instream i = fields ++ body ->
      exists i', header_load f n header_create i = (i', rs_header rs, Ok tt) /\ instream i' = body.
Proof.
  intros Hh Hp Hl Hw Hr Hf.
  assert (header_ok (rs_header rs)) as Hok.
  { rewrite Hh. split; simpl; [by rewrite length_map|]. apply Forall_map, Forall_true.
    intros [n v]. apply field_ok_full. }
  destruct (print_header_spec fuel rs 0 Hok Hw) as (rs' & E & (E' & _ & O & _) & _); [by rewrite Nat.add_0_r|done|].
  exists rs', (send_lines (map field_line nvs)). split_and!; [done|by rewrite E'; destruct rs..| |].
  - rewrite O. f_equal. unfold header_text. f_equal. unfold send_lines. f_equal. rewrite Hh. simpl.
    rewrite !map_map. f_equal. apply map_ext. intros [n v]. unfold field_text, field_line.
    simpl. by rewrite <- app_assoc.
  - intros i f n body Hf0 Hn0 Hi Hs.
    destruct (header_load_pairs f n header_create i nvs body) as (i' & -> & _ & ?); try done.
    exists i'. by rewrite Hh.
Qed.

Lemma header_size_eq (h : header) (fs pre : list field) :
  header_ok h -> h_fields h = pre ++ fs ->
  header_size h (seq (length pre) (length fs)) = Ok (length (concat (map field_text fs))).
Proof.
  intros [Hn Hok]. revert pre. induction fs as [|f fs IH]; intros pre Hh; [done|]. simpl.
  unfold header_get_fieldn. rewrite Hn, Hh, length_app. simpl. rewrite decide_False, decide_True by lia.
  simpl. rewrite list_lookup_middle by done.
  assert (h_fields h = (pre ++ [f]) ++ fs) as Hh' by (rewrite Hh, <- app_assoc; done).
  replace (S (length pre)) with (length (pre ++ [f])) by (rewrite length_app; simpl; lia).
  rewrite IH by done. simpl. f_equal. rewrite length_app. unfold field_text, field_get_name, field_get_value.
  rewrite !length_app. simpl. lia.
Qed.

Lemma header_size_enough rs :
  header_ok (rs_header rs) -> (0 <= rs_status rs < 10 ^ 10)%Z ->
  exists n, response_get_max_header_size rs = Ok n /\ length (header_text rs) <= n /\
    ((rs_status rs < 1000)%Z -> length (header_text rs) + 64 < n).
Proof.
  intros Hh Hs. unfold response_get_max_header_size, header_field_count. rewrite (proj1 Hh).
  rewrite (header_size_eq _ (h_fields (rs_header rs)) []) by done. eexists. split; [done|].
  assert (forall k, (0 < k)%nat -> (rs_status rs < 10 ^ Z.of_nat k)%Z ->
    length (fmt_d (rs_status rs)) <= k) as Hd.
  { intros k Hk Hlt. unfold fmt_d. rewrite decide_False by lia. apply dec_go_length; lia. }
  pose proof (Hd 10%nat ltac:(lia) (proj2 Hs)) as H10. unfold header_text.
  assert (length (if rs_cgi rs then [] else status_line (rs_status rs)) <=
    12 + length (fmt_d (rs_status rs)) + length (http_get_status_desc (rs_status rs))) as Hsl.
  { destruct (rs_cgi rs); [cbn [length]; lia|]. unfold status_line. rewrite !length_app.
    change (length (bs "HTTP/1.0 ")) with 9. change (length (bs " ")) with 1. change (length crlf) with 2. lia. }
  rewrite !length_app. change (length crlf) with 2. cbn [length]. split; [lia|]. intros Hlt.
  pose proof (Hd 3%nat ltac:(lia) Hlt). lia.
Qed.

(** The size that [response_get_max_header_size] computes is enough for the header
    that [response_print_header] prints, whatever the fields and a status of up to ten
    digits; the guard bytes are never needed for a three-digit status. *)
Theorem response_header_size rs :
  header_ok (rs_header rs) -> (0 <= rs_status rs < 10 ^ 10)%Z ->
  exists n, response_get_max_header_size rs = Ok n /\ length (header_text rs) <= n /\
    ((rs_status rs < 1000)%Z -> length (header_text rs) + 64 < n).
Proof. apply header_size_enough. Qed.
End response_claims.

(** ** Cookies that come back *)

(** The attributes of a cookie. *)
Definition cookie_attrs (date path domain : option (list byte)) (secure : bool) : list byte :=
  default [] ((app (bs "; expires=")) <$> date) ++ default [] (app (bs "; path=") <$> path) ++
  default [] (app (bs "; domain=") <$> domain) ++ (if secure then bs "; secure" else []).

Section cookies.
Context {L : Libu} {LS : LibuSpec L}.

Lemma COOKIE_OUT_BUFSZ_val : COOKIE_OUT_BUFSZ = N.to_nat 4096.
Proof. done. Qed.
#[local] Opaque COOKIE_OUT_BUFSZ.

Lemma buf_append_eq (buf text : list byte) : length buf < COOKIE_OUT_BUFSZ ->
  buf_append buf text =
  if decide (length buf + length text < COOKIE_OUT_BUFSZ) then Ok (buf ++ text) else Fail.
Proof.
  intros Hb. unfold buf_append. rewrite u_snprintf_spec by lia.
  destruct (decide (length buf + length text < COOKIE_OUT_BUFSZ)).
  - rewrite bool_decide_false by lia. by rewrite take_ge by lia.
  - rewrite bool_decide_true by lia. done.
Qed.

Lemma buf_append_opt (buf : list byte) (pre : list byte) (o : option (list byte)) :
  length buf < COOKIE_OUT_BUFSZ ->
  match o with Some p => buf_append buf (pre ++ p) | None => Ok buf end =
  if decide (length (buf ++ default [] (app pre <$> o)) < COOKIE_OUT_BUFSZ)
  then Ok (buf ++ default [] (app pre <$> o)) else Fail.
Proof.
  intros Hb. destruct o as [p|]; simpl.
  { rewrite buf_append_eq by done. rewrite (length_app buf). done. }
  by rewrite app_nil_r, decide_True.
Qed.

(** [date] is what is printed for the time of expiry. *)
Lemma cookie_text_eq (n v : list byte) (expire : Z) (date path domain : option (list byte)) (secure : bool) :
  match date with Some d => expire <> 0%Z /\ u_tt_to_rfc822 expire = Ok d | None => expire = 0%Z end ->
  v <> [] -> length n + 1 + length (flat_map Url.url_encode_char v) < COOKIE_OUT_BUFSZ ->
  cookie_text n (Some v) expire path domain secure =
  let text := n ++ bs "=" ++ flat_map Url.url_encode_char v ++ cookie_attrs date path domain secure in
  if decide (length text < COOKIE_OUT_BUFSZ) then Ok text else Fail.
Proof.
  intros Hd Hv Hl. unfold cookie_text. set (e := flat_map Url.url_encode_char v) in *.
  rewrite buf_append_eq by (simpl; lia). rewrite decide_True by (rewrite length_app; simpl; lia). cbn [mbind res_bind].
  unfold Url.u_urlncpy. rewrite Url.url_encode_total. fold e. cbn [mbind res_bind].
  rewrite decide_False by (rewrite !length_app; simpl; lia).
  rewrite decide_False.
  2: { unfold e. destruct v as [|c v]; [done|]. simpl. pose proof (Url.url_encode_char_length c).
       destruct (Url.url_encode_char c); simpl in *; [lia|done]. }
  cbv zeta. change ([] ++ n ++ bs "=") with (n ++ bs "=").
  assert ((if decide (expire = 0%Z) then Ok ((n ++ bs "=") ++ e) else
            d ← u_tt_to_rfc822 expire; buf_append ((n ++ bs "=") ++ e) (bs "; expires=" ++ d)) =
          match date with Some d => buf_append ((n ++ bs "=") ++ e) (bs "; expires=" ++ d)
                     | None => Ok ((n ++ bs "=") ++ e) end) as ->.
  { destruct date as [d|]; [|by rewrite decide_True].
    destruct Hd as [H0 ->]. by rewrite decide_False. }
  assert (((n ++ bs "=") ++ e) = n ++ bs "=" ++ e) as -> by (by rewrite <- app_assoc).
  rewrite buf_append_opt by (rewrite !length_app; simpl; lia). cbv zeta. unfold cookie_attrs.
  set (b0 := n ++ bs "=" ++ e).
  replace (n ++ bs "=" ++ e ++ _) with (b0 ++ cookie_attrs date path domain secure)
    by (unfold b0; by rewrite <- !app_assoc).
  unfold cookie_attrs. set (a1 := default [] (app (bs "; expires=") <$> date)).
  destruct (decide (length (b0 ++ a1) < _)) as [H1|H1]; cbn [mbind res_bind].
  2: { rewrite decide_False; [done|]. rewrite !length_app in *. lia. }
  rewrite buf_append_opt by done. set (a2 := default [] (app (bs "; path=") <$> path)).
  destruct (decide (length ((b0 ++ a1) ++ a2) < _)) as [H2|H2]; cbn [mbind res_bind].
  2: { rewrite decide_False; [done|]. rewrite !length_app in *. lia. }
  rewrite buf_append_opt by done. set (a3 := default [] (app (bs "; domain=") <$> domain)).
  destruct (decide (length (((b0 ++ a1) ++ a2) ++ a3) < _)) as [H3|H3]; cbn [mbind res_bind].
  2: { rewrite decide_False; [done|]. rewrite !length_app in *. lia. }
  destruct secure.
  - rewrite buf_append_eq by done. rewrite !length_app. repeat case_decide; try lia; [|done].
    by rewrite <- !app_assoc.
  - rewrite app_nil_r, decide_True by (rewrite !length_app in *; lia). by rewrite <- !app_assoc.
Qed.

Context {LM : LibuMem L} {D C : Type} {DO : DevOps D} {CO : CodecOps C}.
Context {D2 C2 : Type}.

Lemma encoded_no_sep (s : list byte) :
  Forall (fun c => is_cookie_sep c = false) (flat_map Url.url_encode_char s) /\
  (x00 ∉ flat_map Url.url_encode_char s) /\ (";"%byte ∉ flat_map Url.url_encode_char s).
Proof.
  assert (forall c, Forall (fun c => is_cookie_sep c = false /\ c <> x00 /\ c <> ";"%byte)
                      (Url.url_encode_char c)) as H by byte_brute.
  assert (Forall (fun c => is_cookie_sep c = false /\ c <> x00 /\ c <> ";"%byte)
            (flat_map Url.url_encode_char s)) as G.
  { induction s as [|c s IH]; simpl; [constructor|]. by apply Forall_app. }
  split_and!; [eapply Forall_impl; [exact G|naive_solver]|..];
    intros Hin; rewrite Forall_forall in G; by destruct (G _ Hin) as (? & ? & ?).
Qed.

(** The part of a Set-Cookie field that a client sends back. *)
Lemma cookie_pair (n v attrs : list byte) :
  flat_map Url.url_encode_char n = n -> hd ";"%byte attrs = ";"%byte ->
  upto ";" (n ++ bs "=" ++ flat_map Url.url_encode_char v ++ attrs) = encode_pair n v.
Proof.
  intros Hn Ha. set (p := n ++ bs "=" ++ flat_map Url.url_encode_char v).
  assert (encode_pair n v = p) as -> by (unfold encode_pair, p; by rewrite Hn).
  assert (";"%byte ∉ p) as Hp.
  { unfold p. rewrite <- Hn. pose proof (encoded_no_sep n) as (_ & _ & ?).
    pose proof (encoded_no_sep v) as (_ & _ & ?). set_solver. }
  replace (n ++ bs "=" ++ flat_map Url.url_encode_char v ++ attrs) with (p ++ attrs)
    by (unfold p; by rewrite <- !app_assoc).
  unfold upto. destruct attrs as [|a attrs].
  - rewrite app_nil_r. by rewrite (proj2 (strchr_None p ";") Hp).
  - simpl in Ha. subst a. rewrite strchr_app by done. by rewrite take_app_length.
Qed.

Lemma set_cookie_back (n v : list byte) (expire : Z) (date path domain : option (list byte))
    (secure : bool) (rs : response D C) :
  n <> [] -> flat_map Url.url_encode_char n = n -> v <> [] ->
  match date with Some d => expire <> 0%Z /\ u_tt_to_rfc822 expire = Ok d | None => expire = 0%Z end ->
  length (n ++ bs "=" ++ flat_map Url.url_encode_char v ++ cookie_attrs date path domain secure)
    < COOKIE_OUT_BUFSZ ->
  exists rs' txt, response_set_cookie n (Some v) expire path domain secure rs = (rs', Ok tt) /\
    h_fields (rs_header rs') = h_fields (rs_header rs) ++ [mk_field (bs "Set-Cookie", txt)] /\
    forall rq : request D2 C2, request_parse_cookie (mk_field (bs "Cookie", upto ";" txt)) rq = (add_cookies rq [fresh_var n v], Ok tt).
Proof.
  intros Hn Hen Hv Hd Hl. pose proof Hl as Hl'. rewrite !length_app in Hl'. simpl in Hl'.
  unfold response_set_cookie. rewrite (cookie_text_eq n v expire date) by (done || lia). cbv zeta.
  rewrite decide_True by done. unfold pbind at 1, plift at 1. unfold response_add_field.
  rewrite field_create_eq. eexists _, _. split_and!; [done|by destruct rs|]. intros rq.
  assert (hd ";"%byte (cookie_attrs date path domain secure) = ";"%byte) as Ha.
  { unfold cookie_attrs. by destruct date, path, domain, secure. }
  rewrite cookie_pair by done. erewrite parse_cookie_eq by done. do 2 f_equal.
  assert (length (encode_pair n v) < COOKIE_BUFSZ) as Hlen.
  { unfold encode_pair. rewrite length_app, Hen. simpl. rewrite COOKIE_BUFSZ_val.
    rewrite COOKIE_OUT_BUFSZ_val in Hl'. lia. }
  cbn [snd]. rewrite take_ge by lia.
  assert (strtok is_cookie_sep (encode_pair n v) = [encode_pair n v]) as ->.
  { rewrite <- (strtok_cons_delim is_cookie_sep ";"%byte) by done.
    pose proof (strtok_render is_cookie_sep ";"%byte [encode_pair n v] []) as R. simpl in R.
    rewrite !app_nil_r in R. apply R; [done| |constructor]. apply Forall_singleton. unfold encode_pair.
    split; [by destruct (flat_map _ n)|]. apply Forall_app. split; [apply encoded_no_sep|].
    constructor; [done|apply encoded_no_sep]. }
  cbn [omap list_omap]. rewrite urlvar_encode; [|done|rewrite <- Hen; apply encoded_no_sep]. unfold var_data.
  by rewrite decide_False.
Qed.

(** A cookie comes back with the value it was set to.  When its text fits the buffer
    [response_set_cookie] adds a Set-Cookie field, and the name and value that a client
    returns from it are read by [request_parse_cookie] as one cookie with that name and
    that value, whatever bytes the value has and whatever the attributes. *)
Theorem response_cookie_roundtrip (n v : list byte) (expire : Z) (date path domain : option (list byte))
    (secure : bool) (rs : response D C) (rq : request D2 C2) :
  n <> [] -> flat_map Url.url_encode_char n = n -> v <> [] ->
  match date with Some d => expire <> 0%Z /\ u_tt_to_rfc822 expire = Ok d | None => expire = 0%Z end ->
  length (n ++ bs "=" ++ flat_map Url.url_encode_char v ++ cookie_attrs date path domain secure)
    < COOKIE_OUT_BUFSZ ->
  exists rs' txt, response_set_cookie n (Some v) expire path domain secure rs = (rs', Ok tt) /\
    h_fields (rs_header rs') = h_fields (rs_header rs) ++ [mk_field (bs "Set-Cookie", txt)] /\
    request_parse_cookie (mk_field (bs "Cookie", upto ";" txt)) rq = (add_cookies rq [fresh_var n v], Ok tt).
Proof.
  intros H1 H2 H3 H4 H5. destruct (set_cookie_back n v expire date path domain secure rs H1 H2 H3 H4 H5)
    as (rs' & txt & E1 & E2 & E3). eauto.
Qed.

(** [response_set_cookie] escapes the value into a buffer of 4096 bytes without a
    bound: a value whose escaped form, with the name, reaches that size is written past the
    end of the buffer; a value of 1365 bytes that need escaping is enough. *)
Theorem response_cookie_overflow (n v : list byte) (expire : Z) (path domain : option (list byte))
    (secure : bool) (rs : response D C) :
  length n + 1 < COOKIE_OUT_BUFSZ ->
  COOKIE_OUT_BUFSZ <= length n + 1 + length (flat_map Url.url_encode_char v) ->
  response_set_cookie n (Some v) expire path domain secure rs = (rs, Fault).
Proof.
  intros Hn Hv. unfold response_set_cookie, cookie_text. rewrite buf_append_eq by (simpl; lia).
  rewrite decide_True by (rewrite length_app; simpl; lia). cbn [mbind res_bind].
  unfold Url.u_urlncpy. rewrite Url.url_encode_total. cbn [mbind res_bind].
  rewrite decide_True by (rewrite !length_app; simpl; lia). done.
Qed.
End cookies.

(** ** Evaluation *)

Definition rs_fields : list (list byte * list byte) :=
  [(bs "Server", bs "klone"); (bs "Content-Type", bs "text/html")].

Definition rs0 : response io_mem no_codec :=
  mkRs (mkHeader (map mk_field rs_fields) 2) (mem_io (replicate 200 x00)) 200 HM_GET false.

Lemma response_header_roundtrip_witness :
  exists rs' fields, response_print_header (L:=libu_ref) 200 rs0 = (rs', Ok tt) /\
    rs_header rs' = rs_header rs0 /\ rs_status rs' = rs_status rs0 /\
    outstream (rs_io rs') = outstream (rs_io rs0) ++ status_line 200 ++ fields /\
    forall (i : io io_mem no_codec) (f n : nat) (body : list byte),
      0 < f -> 0 < n -> readable i -> instream i = fields ++ body ->
      exists i', header_load (L:=libu_ref) f n header_create i = (i', rs_header rs0, Ok tt) /\ instream i' = body.
Proof.
  apply (response_header_roundtrip (L:=libu_ref) 200 rs0 rs_fields).
  - reflexivity.
  - repeat constructor; try discriminate; compute_decide.
  - compute_decide.
  - by split.
  - unfold room. simpl. lia.
  - compute_decide.
Defined.

Lemma response_header_size_witness :
  exists n, response_get_max_header_size rs0 = Ok n /\ length (header_text rs0) <= n /\
    ((rs_status rs0 < 1000)%Z -> length (header_text rs0) + 64 < n).
Proof.
  apply response_header_size; [|by split]. split; [done|]. repeat constructor; by eexists.
Defined.

Lemma response_cookie_roundtrip_witness :
  exists rs' txt, response_set_cookie (L:=libu_ref) (bs "sid") (Some (bs "a;b c")) 784111777
      (Some (bs "/")) None true rs0 = (rs', Ok tt) /\
    h_fields (rs_header rs') = h_fields (rs_header rs0) ++ [mk_field (bs "Set-Cookie", txt)] /\
    request_parse_cookie (L:=libu_ref) (mk_field (bs "Cookie", upto ";" txt)) rq0 =
      (add_cookies rq0 [fresh_var (bs "sid") (bs "a;b c")], Ok tt).
Proof.
  apply (response_cookie_roundtrip (L:=libu_ref) (bs "sid") (bs "a;b c") 784111777
           (Some (bs "Sun, 06 Nov 1994 08:49:37 GMT"))).
  - done.
  - reflexivity.
  - done.
  - split; [done|]. vm_compute. reflexivity.
  - compute_decide.
Defined.

Lemma response_cookie_overflow_witness :
  response_set_cookie (L:=libu_ref) (bs "sid") (Some (replicate 1365 "%"%byte)) 0 None None false rs0 = (rs0, Fault).
Proof. apply (response_cookie_overflow (L:=libu_ref)); compute_decide. Defined.

(** A cookie with an empty value cannot be set. *)
Example cookie_empty :
  (response_set_cookie (L:=libu_ref) (bs "sid") (Some []) 0 None None false rs0).2 = Fail.
Proof. vm_compute. reflexivity. Qed.
