(* ===== verification/Http.v ===== *)
(** From a connection to a response: src/src/libhttp/http.c, the virtual hosts of vhost.c
    and the choice of a supplier in broker.c.

    A virtual host carries the values of its configuration keys, which the code reads
    through libu's configuration tree.  A supplier is its two functions; [conn] is what
    they and the server work on: the request, the response, and the two things the server
    caches in the request, the virtual host and the supplier found for its URI. *)

From S2P Require Import Prelude Libu Encode Path Date Io IoSpec IoMem Getline Header Vars Request Response.

(** ** vhost.c *)

Record vhost := mkVhost {
  vh_host : list byte;
  vh_id : nat;
  vh_dir_root : list byte;
  vh_server_sig : list byte;
  vh_dir_alias : list (option (list byte));      (* the values of the dir_alias keys *)
  vh_script_alias : list (option (list byte));   (* those of cgi.script_alias *)
  vh_index : option (list byte);
  vh_error : list (Z * list byte)                (* the error.NNN keys *)
}.

Definition set_vh_id (v : vhost) (id : nat) : vhost :=
  mkVhost (vh_host v) id (vh_dir_root v) (vh_server_sig v) (vh_dir_alias v) (vh_script_alias v)
    (vh_index v) (vh_error v).

Definition vhost_list_add (vs : list vhost) (v : vhost) : list vhost :=
  match last vs with
  | Some l => vs ++ [set_vh_id v (S (vh_id l))]
  | None => [set_vh_id v 0]
  end.

Fixpoint vhost_list_get (vs : list vhost) (host : list byte) : option vhost :=
  match vs with
  | [] => None
  | v :: vs' => if streq (vh_host v) host then Some v else vhost_list_get vs' host
  end.

Fixpoint vhost_list_get_n (vs : list vhost) (n : nat) : option vhost :=
  match vs, n with
  | [], _ => None
  | v :: _, 0 => Some v
  | _ :: vs', S n' => vhost_list_get_n vs' n'
  end.

(** The value of a configuration key that is a number. *)
Fixpoint conf_lookup (kvs : list (Z * list byte)) (k : Z) : option (list byte) :=
  match kvs with
  | [] => None
  | (k', v) :: kvs' => if decide (k' = k) then Some v else conf_lookup kvs' k
  end.

(** ** The connection *)

Record conn (D C : Type) := mkConn {
  cn_rq : request D C;
  cn_rs : response D C;
  cn_sup : option (nat * Z);        (* si_sup and si_mtime *)
  cn_vhost : option vhost
}.
Arguments mkConn {D C} _ _ _ _.
Arguments cn_rq {D C} _.
Arguments cn_rs {D C} _.
Arguments cn_sup {D C} _.
Arguments cn_vhost {D C} _.

(** klone/supplier.h.  [sup_valid] gets the header and the cached virtual host, which is
    what a supplier of the repository looks at in the request; it gives the modification
    time.  [sup_user_status]: the supplier is [sup_emb] or [sup_kilt]. *)
Record supplier (D C : Type) := mkSup {
  sup_valid : header -> option vhost -> list byte -> option Z;
  sup_serve : prog (conn D C) unit;
  sup_user_status : bool
}.
Arguments mkSup {D C} _ _ _.
Arguments sup_valid {D C} _ _ _ _.
Arguments sup_serve {D C} _ _.
Arguments sup_user_status {D C} _.

Record http (D C : Type) := mkHttp {
  ht_broker : list (supplier D C);
  ht_vhosts : list vhost;
  ht_error : list (Z * list byte)
}.
Arguments mkHttp {D C} _ _ _.
Arguments ht_broker {D C} _.
Arguments ht_vhosts {D C} _.
Arguments ht_error {D C} _.

Definition URI_MAX : nat := N.to_nat 2048.
Definition ALIAS_BUFSZ : nat := N.to_nat 1024.
Definition HOST_BUFSZ : nat := N.to_nat 128.
Definition INDEX_CONF_BUFSZ : nat := N.to_nat 256.
Definition INDEX_BUFSZ : nat := N.to_nat 128.
Definition INDEX_URI_BUFSZ : nat := N.to_nat 1024.

Definition is_alias_sep (c : byte) : bool := bool_decide (c = " "%byte \/ c = x09).
Definition is_qmark (c : byte) : bool := bool_decide (c = QMARK).

Section http_ops.
Context {L : Libu} {D C : Type} {DO : DevOps D} {CO : CodecOps C}.
Variable FILENAME_MAX : nat.          (* U_FILENAME_MAX of libu *)
Variable KLONE_VERSION : list byte.   (* from the build *)
Implicit Types h : http D C.
Abbreviation cprog A := (prog (conn D C) A).

Definition set_cn_sup (cn : conn D C) (s : option (nat * Z)) : conn D C :=
  let 'mkConn a b _ d := cn in mkConn a b s d.
Definition set_cn_vhost (cn : conn D C) (v : option vhost) : conn D C :=
  let 'mkConn a b c _ := cn in mkConn a b c v.
Definition set_cn_rq (cn : conn D C) (rq : request D C) : conn D C :=
  let 'mkConn _ b c d := cn in mkConn rq b c d.
Definition set_cn_rs (cn : conn D C) (rs : response D C) : conn D C :=
  let 'mkConn a _ c d := cn in mkConn a rs c d.

(** A function of the request, or of the response, run on the connection. *)
Definition with_rq {A} (m : prog (request D C) A) : cprog A := fun cn =>
  let '(rq, r) := m (cn_rq cn) in (set_cn_rq cn rq, r).
Definition with_rs {A} (m : prog (response D C) A) : cprog A := fun cn =>
  let '(rs, r) := m (cn_rs cn) in (set_cn_rs cn rs, r).

(** ** broker.c *)

(** The first supplier that knows the URI, and the time it reports. *)
Fixpoint broker_find (sups : list (supplier D C)) (k : nat) (hd : header) (vh : option vhost)
    (uri : list byte) : option (nat * Z) :=
  match sups with
  | [] => None
  | s :: sups' =>
      match sup_valid s hd vh uri with
      | Some mtime => Some (k, mtime)
      | None => broker_find sups' (S k) hd vh uri
      end
  end.

(** [request_set_sup_info] is called with what was found. *)
Definition broker_is_valid_uri h (uri : list byte) : cprog bool := fun cn =>
  match broker_find (ht_broker h) 0 (rq_header (cn_rq cn)) (cn_vhost cn) uri with
  | Some i => (set_cn_sup cn (Some i), Ok true)
  | None => (cn, Ok false)
  end.

(** The returned status is 0 when the page was served. *)
Definition broker_serve (fuel : nat) h : cprog Z :=
  pelse
   (let! cn := pget in
    let! '(k, mtime) :=
      match cn_sup cn with
      | Some i => pret i
      | None =>
          match ht_broker h, resolved_filename (cn_rq cn) with
          | [], _ => pfail
          | _, None => plift Fault
          | sups, Some fn => plift (of_option (broker_find sups 0 (rq_header (cn_rq cn)) (cn_vhost cn) fn))
          end
      end in
    match ht_broker h !! k with
    | None => plift Fault
    | Some sup =>
        let ims := if_modified_since (cn_rq cn) in
        if decide (ims <> 0 /\ mtime <> 0 /\ mtime <= ims)%Z then
          with_rs (response_set_status 304);;;
          with_rs (response_print_header fuel);;;
          pret 0%Z
        else
          sup_serve sup;;;
          let! cn := pget in
          let status := rs_status (cn_rs cn) in
          if decide (status = 430)%Z then pret status
          else if bool_decide (400 <= status)%Z && negb (sup_user_status sup) then pret status
          else pret 0%Z
    end)
   (with_rs (response_set_status 404);;; pret 404%Z).

(** ** Aliases *)

Definition http_try_resolv (alias : option (list byte)) (uri : list byte) (sz : nat) : option (list byte) :=
  a ← alias;
  let '(v, trunc) := u_strlcpy a ALIAS_BUFSZ in
  if trunc : bool then None else
  let toks := strtok is_alias_sep v in
  src ← toks !! 0;
  if strprefix src uri then
    if negb (bool_decide (last src = Some SLASH)) && negb (bool_decide (uri !! length src = Some SLASH))
    then None
    else res ← toks !! 1; u_path_snprintf (res ++ bs "/" ++ drop (length src) uri) sz SLASH
  else None.

(** The first rule that resolves. *)
Fixpoint try_rules (rules : list (option (list byte))) (uri : list byte) (sz : nat) : option (list byte) :=
  match rules with
  | [] => None
  | r :: rules' =>
      match http_try_resolv r uri sz with
      | Some dst => Some dst
      | None => try_rules rules' uri sz
      end
  end.

(** The host a request is for; a Host field that does not fit its buffer gives none. *)
Definition http_get_vhost h (cached : option vhost) (hd : header) : res (option vhost) :=
  match cached with
  | Some v => Ok (Some v)
  | None =>
      f ← header_get_field_value hd (bs "Host");
      match f with
      | None => Ok (vhost_list_get_n (ht_vhosts h) 0)
      | Some host =>
          let '(hostcp, trunc) := u_strlcpy host HOST_BUFSZ in
          if trunc : bool then Ok None else
          let name := match strrchr hostcp ":" with Some k => take k hostcp | None => hostcp end in
          Ok (match vhost_list_get (ht_vhosts h) name with
              | Some v => Some v
              | None => vhost_list_get_n (ht_vhosts h) 0
              end)
      end
  end.

Definition alias_resolv (v : vhost) (uri : list byte) (sz : nat) : option (list byte) :=
  match try_rules (vh_dir_alias v) uri sz with
  | Some dst => Some dst
  | None =>
      match try_rules (vh_script_alias v) uri sz with
      | Some dst => Some dst
      | None => u_path_snprintf (vh_dir_root v ++ bs "/" ++ uri) sz SLASH
      end
  end.

Definition http_alias_resolv h (cached : option vhost) (hd : header) (uri : list byte) (sz : nat)
    : res (list byte) :=
  v ← http_get_vhost h cached hd;
  match v with
  | None => Fail
  | Some v => of_option (alias_resolv v uri sz)
  end.

(** What [http_is_valid_uri] finds for a URI: the URI itself is tried first, then the file
    it resolves to. *)
Definition valid_info h (cached : option vhost) (hd : header) (uri : list byte) : option (nat * Z) :=
  if decide (URI_MAX < length uri + 1) then None else
  match broker_find (ht_broker h) 0 hd cached uri with
  | Some i => Some i
  | None =>
      match http_alias_resolv h cached hd uri FILENAME_MAX with
      | Ok resolved => broker_find (ht_broker h) 0 hd cached resolved
      | _ => None
      end
  end.

Definition http_is_valid_uri h (uri : list byte) : cprog bool := fun cn =>
  match valid_info h (cn_vhost cn) (rq_header (cn_rq cn)) uri with
  | Some i => (set_cn_sup cn (Some i), Ok true)
  | None => (cn, Ok false)
  end.

Definition http_resolv_request h : cprog unit :=
  let! cn := pget in
  match filename (cn_rq cn) with
  | None => pret tt
  | Some fn =>
      let! r := plift (http_alias_resolv h (cn_vhost cn) (rq_header (cn_rq cn)) fn FILENAME_MAX) in
      with_rq (request_set_resolved_filename r)
  end;;;
  match path_info (cn_rq cn) with
  | None => pret tt
  | Some pi =>
      let! r := plift (http_alias_resolv h (cn_vhost cn) (rq_header (cn_rq cn)) pi FILENAME_MAX) in
      with_rq (request_set_resolved_path_info r)
  end.

(** ** Index pages *)

Definition http_is_valid_index h (uri : list byte) : cprog bool :=
  let! cn := pget in
  match resolved_filename (cn_rq cn) with
  | None => plift Fault
  | Some rf =>
      match u_path_snprintf (rf ++ bs "/" ++ uri) FILENAME_MAX SLASH with
      | Some resolved => broker_is_valid_uri h resolved
      | None => pret false
      end
  end.

Definition indexes : list (list byte) :=
  [bs "/index.kl1"; bs "/index.html"; bs "/index.htm"; bs "/index.klx"; bs "/index.klone"; bs "/index.klc"].

(** The loop of both searches: the first candidate that exists and fits. *)
Fixpoint first_index h (cands : list (list byte)) : cprog (list byte) :=
  match cands with
  | [] => pfail
  | c :: cands' =>
      let! ok := http_is_valid_index h c in
      if ok : bool then
        let '(idx, trunc) := u_strlcpy c INDEX_BUFSZ in if trunc : bool then pfail else pret idx
      else first_index h cands'
  end.

Definition http_get_config_index h : cprog (list byte) :=
  let! cn := pget in
  let! v := plift (http_get_vhost h (cn_vhost cn) (rq_header (cn_rq cn))) in
  match v ≫= vh_index with
  | None => pfail
  | Some c =>
      let '(buf, trunc) := u_strlcpy c INDEX_CONF_BUFSZ in
      if trunc : bool then pfail else first_index h (strtok is_alias_sep buf)
  end.

Definition http_get_default_index h : cprog (list byte) := first_index h indexes.

Definition http_set_index_request h : cprog unit :=
  let! idx := pelse (http_get_config_index h) (http_get_default_index h) in
  let! cn := pget in
  match filename (cn_rq cn) with
  | None => plift Fault
  | Some fn =>
      let '(uri, trunc) := u_snprintf (fn ++ idx) INDEX_URI_BUFSZ in
      pguard (negb trunc);;;
      pignore (with_rq (request_set_filename uri));;;
      http_resolv_request h
  end.

(** ** Serving a connection *)

Definition http_add_default_header h (now : Z) : cprog unit :=
  let! cn := pget in
  let! v := plift (http_get_vhost h (cn_vhost cn) (rq_header (cn_rq cn))) in
  match v with
  | None => pfail
  | Some v =>
      with_rs (response_set_field (bs "Server") (vh_server_sig v));;;
      with_rs (response_set_date now)
  end.

(** The default page; the URI goes into it as the client sent it. *)
Definition error_page_text (status : Z) (uri : list byte) : list byte :=
  bs "<!DOCTYPE HTML PUBLIC " ++ [x22] ++ bs "-//IETF//DTD HTML 2.0//EN" ++ [x22] ++ bs ">" ++
  bs "<html><head><title>" ++ fmt_d status ++ bs " " ++ http_get_status_desc status ++
  bs "</title></head>" ++ [x0a] ++ bs "<body><h1>" ++ http_get_status_desc status ++
  bs "</h1><p>URL: " ++ uri ++ bs "</p><hr><address>KLone/" ++ KLONE_VERSION ++
  bs " web server - www.koanlogic.com</address></body></html>".

(** A page of the configuration was found and served. *)
Definition configured_page (fuel : nat) h (err_page : option (list byte)) : cprog bool :=
  match err_page with
  | None => pret false
  | Some p =>
      let! set := pelse (with_rq (request_set_uri p None);;; pret true) (pret false) in
      if set : bool then
        http_resolv_request h;;;
        let '(s, trunc) := u_strlcpy p URI_MAX in
        pguard (negb trunc);;;
        match strtok is_qmark s !! 0 with
        | None => pfail
        | Some sp =>
            let! ok := http_is_valid_uri h sp in
            if ok : bool then let! _ := broker_serve fuel h in pret true else pret false
        end
      else pret false
  end.

Definition http_print_error_page (fuel : nat) h (now http_status : Z) : cprog unit :=
  pguard (negb (bool_decide (http_status = 0)%Z));;;
  (if decide (http_status = 302)%Z then pret tt
   else with_rs (pmod (fun rs => set_rs_header rs (header_clear (rs_header rs)))));;;
  http_add_default_header h now;;;
  with_rs response_disable_caching;;;
  let! cn := pget in
  let! v := plift (http_get_vhost h (cn_vhost cn) (rq_header (cn_rq cn))) in
  let! served := configured_page fuel h
    (conf_lookup (match v with Some v => vh_error v | None => ht_error h end) http_status) in
  if served : bool then pret tt else
  with_rs (response_set_status http_status);;;
  pignore (with_rs (response_print_header fuel));;;
  let! cn := pget in
  if decide (rq_method (cn_rq cn) = HM_HEAD) then pret tt
  else with_rs (rs_printf fuel (error_page_text http_status (default [] (rq_uri (cn_rq cn))))).

(** Where a directory without its final slash is redirected to. *)
Definition redirect_uri (rq : request D C) (uri : list byte) : list byte :=
  let nuri := (u_strlcpy uri URI_MAX).1 in
  let nuri := (u_strlcat nuri (bs "/") URI_MAX).1 in
  let nuri := match path_info rq with Some pi => (u_strlcat nuri pi URI_MAX).1 | None => nuri end in
  match query rq with
  | Some q => (u_strlcat (u_strlcat nuri (bs "?") URI_MAX).1 q URI_MAX).1
  | None => nuri
  end.

(** [c[strlen(c)-1] == '/'] *)
Definition ends_in_slash (s : list byte) : res bool :=
  match last s with None => Fault | Some c => Ok (bool_decide (c = SLASH)) end.

(** Parsing, with the callback that looks for the file; the supplier it leaves in the
    request is the one of the prefix it accepted, or none when it accepted none. *)
Definition http_parse (fuel n : nat) (timer : bool) (environ : list (list byte)) h : cprog unit := fun cn =>
  let valid buf len := bool_decide (is_Some (valid_info h (cn_vhost cn) (rq_header (cn_rq cn)) (take len buf))) in
  let '(rq, r) := request_parse_header fuel n timer environ (Some valid) (cn_rq cn) in
  let sup := match filename rq with
             | Some fn => valid_info h (cn_vhost cn) (rq_header (cn_rq cn)) fn
             | None => cn_sup cn
             end in
  (set_cn_sup (set_cn_rq cn rq) sup, r).

(** The redirection to the index page of a directory, after a 404. *)
Definition try_redirect h (rc : Z) : cprog Z :=
  let! cn := pget in
  match rq_uri (cn_rq cn) with
  | Some uri =>
      let! slash := (if decide (rs_status (cn_rs cn) = 404)%Z then plift (ends_in_slash uri) else pret true) in
      if slash : bool then pret rc else
      pelse
       (http_set_index_request h;;;
        let! cn := pget in
        pignore (with_rs (response_redirect (redirect_uri (cn_rq cn) uri)));;;
        pret 302%Z)
       (pret rc)
  | None => pret rc
  end.

(** [http_serve] from the first read to the call of the broker. *)
Definition serve_prepare (fuel n : nat) (timer : bool) (environ : list (list byte)) h (now : Z) : cprog unit :=
  with_rs (response_set_method HM_GET);;;
  with_rs (response_set_status 400);;;
  http_parse fuel n timer environ h;;;
  (fun cn => with_rs (response_set_method (rq_method (cn_rq cn))) cn);;;
  let! cn := pget in
  let! v := plift (http_get_vhost h (cn_vhost cn) (rq_header (cn_rq cn))) in
  match v with
  | None => pfail
  | Some v => pmod (fun cn => set_cn_vhost cn (Some v))
  end;;;
  http_resolv_request h;;;
  let! cn := pget in
  match cn_sup cn, filename (cn_rq cn) with
  | None, Some fn =>
      let! slash := plift (ends_in_slash fn) in
      if slash : bool then pignore (http_set_index_request h) else pret tt
  | _, _ => pret tt
  end;;;
  http_add_default_header h now;;;
  with_rs (response_set_status 200).

(** [http_serve] from the first read to [err]: the value is [rc]. *)
Definition serve_page (fuel n : nat) (timer : bool) (environ : list (list byte)) h (now : Z) : cprog Z :=
  serve_prepare fuel n timer environ h now;;;
  let! rc := broker_serve fuel h in
  try_redirect h rc.

(** On failure [rc] is still 400.  The access log and the hooks are not modelled. *)
Definition http_serve (fuel n : nat) (timer : bool) (environ : list (list byte)) h (now : Z) : cprog unit :=
  let! rc := pelse (serve_page fuel n timer environ h now) (pret 400%Z) in
  if decide (rc = 0)%Z then pret tt
  else http_print_error_page fuel h now rc;;; pfail.
End http_ops.

(** ** Files stay below the directories of the configuration *)

Lemma strtok_go_delim (delim : byte -> bool) (d : byte) (a b cur : list byte) :
  delim d = true -> strtok_go delim cur (a ++ d :: b) = strtok_go delim cur a ++ strtok_go delim [] b.
Proof.
  intros Hd. revert cur. induction a as [|c a IH]; intros cur; simpl.
  - rewrite Hd. by destruct cur.
  - destruct (delim c); [|apply IH]. destruct cur; [apply IH|]. simpl. by rewrite IH.
Qed.

Lemma strtok_app_delim (delim : byte -> bool) (d : byte) (a b : list byte) :
  delim d = true -> strtok delim (a ++ d :: b) = strtok delim a ++ strtok delim b.
Proof. intros. unfold strtok. by apply strtok_go_delim. Qed.

Lemma strtok_squeeze (s : list byte) : strtok is_slash (squeeze SLASH s) = strtok is_slash s.
Proof.
  unfold strtok. generalize ([] : list byte). induction s as [|c s IH]; intros cur; [done|]. cbn [squeeze].
  destruct (decide (c = SLASH /\ head s = Some SLASH)) as [[-> Hs]|_].
  - rewrite IH. destruct s as [|c s]; [done|]. injection Hs as ->. simpl. by destruct cur.
  - simpl. destruct (is_slash c); [|apply IH]. destruct cur; by rewrite IH.
Qed.

(** Where a configuration lets a path end up: below its root or below the target of an
    alias. *)
Definition alias_target (a : option (list byte)) : option (list byte) :=
  a ← a; strtok is_alias_sep a !! 1.
Definition roots (v : vhost) : list (list byte) :=
  vh_dir_root v :: omap alias_target (vh_dir_alias v ++ vh_script_alias v).

(** [p] is [root] followed by components that stay below it. *)
Definition below (root p : list byte) : Prop :=
  exists cs, strtok is_slash p = strtok is_slash root ++ cs /\ Forall clean_comp cs.

Section http_safety.
Context {L : Libu} {LS : LibuSpec L} {D C : Type} {DO : DevOps D} {CO : CodecOps C}.
Variable FILENAME_MAX : nat.
Implicit Types h : http D C.

Lemma below_join (root uri : list byte) :
  Forall clean_comp (strtok is_slash uri) -> below root (squeeze SLASH (root ++ bs "/" ++ uri)).
Proof.
  intros H. exists (strtok is_slash uri). split; [|done]. rewrite strtok_squeeze.
  by apply strtok_app_delim.
Qed.

Lemma clean_drop (pre s : list byte) : last pre = Some SLASH \/ head s = Some SLASH ->
  Forall clean_comp (strtok is_slash (pre ++ s)) -> Forall clean_comp (strtok is_slash s).
Proof.
  intros [Hl|Hs] H.
  - apply last_Some in Hl as [pre' ->]. rewrite <- app_assoc in H. simpl in H.
    rewrite strtok_app_delim in H by done. by apply Forall_app in H as [_ ?].
  - destruct s as [|c s]; [done|]. injection Hs as ->. rewrite strtok_app_delim in H by done.
    rewrite strtok_cons_delim by done. by apply Forall_app in H as [_ ?].
Qed.

Lemma try_resolv_below (a : option (list byte)) (uri dst : list byte) (sz : nat) :
  Forall clean_comp (strtok is_slash uri) -> http_try_resolv a uri sz = Some dst ->
  exists root, alias_target a = Some root /\ below root dst.
Proof.
  intros Hc. unfold http_try_resolv, alias_target. destruct a as [a|]; simpl; [|done].
  rewrite u_strlcpy_spec by (unfold ALIAS_BUFSZ; lia). case_bool_decide as Hl; [done|].
  rewrite take_ge by lia. destruct (strtok is_alias_sep a !! 0) as [src|] eqn:E0; simpl; [|done].
  destruct (strprefix src uri) eqn:Ep; [|done]. destruct (_ && _) eqn:Eb; [done|].
  destruct (strtok is_alias_sep a !! 1) as [root|] eqn:E1; simpl; [|done].
  intros ->%u_path_snprintf_spec. exists root. split; [done|]. apply below_join.
  unfold strprefix, streq in Ep. apply bool_decide_eq_true in Ep.
  rewrite <- (take_drop (length src) uri), Ep in Hc.
  apply (clean_drop src); [|done]. apply andb_false_iff in Eb as [Eb|Eb];
    apply negb_false_iff, bool_decide_eq_true in Eb; [by left|right].
  rewrite <- Eb. rewrite <- (Nat.add_0_r (length src)) at 2. rewrite <- lookup_drop.
  by destruct (drop (length src) uri).
Qed.

Definition clean_path (p : list byte) : Prop := Forall clean_comp (strtok is_slash p).
Definition in_roots (v : vhost) (p : list byte) : Prop := exists root, root ∈ roots v /\ below root p.

Lemma alias_resolv_below (v : vhost) (uri dst : list byte) (sz : nat) :
  clean_path uri -> alias_resolv v uri sz = Some dst -> in_roots v dst.
Proof.
  intros Hc. unfold alias_resolv.
  assert (forall rules d, incl rules (vh_dir_alias v ++ vh_script_alias v) ->
    try_rules rules uri sz = Some d -> in_roots v d) as G.
  { induction rules as [|r rules IH]; intros d Hi; simpl; [done|].
    apply incl_cons_inv in Hi as [Hr Hi].
    destruct (http_try_resolv r uri sz) as [d'|] eqn:E; [|by apply IH].
    intros [= ->]. destruct (try_resolv_below r uri d sz Hc E) as (root & Hroot & Hb).
    exists root. split; [|done]. apply elem_of_cons. right.
    apply list_elem_of_omap. exists r. split; [|done]. by apply list_elem_of_In. }
  destruct (try_rules (vh_dir_alias v) uri sz) as [d|] eqn:E1.
  { intros [= ->]. eapply G; [|exact E1]. apply incl_appl, incl_refl. }
  destruct (try_rules (vh_script_alias v) uri sz) as [d|] eqn:E2.
  { intros [= ->]. eapply G; [|exact E2]. apply incl_appr, incl_refl. }
  intros ->%u_path_snprintf_spec. exists (vh_dir_root v). split; [apply elem_of_cons; by left|]. by apply below_join.
Qed.

(** What holds of the paths of a request for the virtual host [v]. *)
Definition paths_ok (v : vhost) (rq : request D C) : Prop :=
  (forall p, filename rq = Some p -> clean_path p) /\
  (forall p, path_info rq = Some p -> clean_path p) /\
  (forall p, resolved_filename rq = Some p -> in_roots v p) /\
  (forall p, resolved_path_info rq = Some p -> in_roots v p).

Lemma uri_paths_ok (v : vhost) (uri : list byte) (valid : option (list byte -> nat -> bool))
    (rq rq' : request D C) (u : unit) :
  request_set_uri uri valid rq = (rq', Ok u) -> paths_ok v rq'.
Proof.
  intros (_ & path & Hp & ->)%request_set_uri_Ok. unfold uri_request.
  assert (clean_path path) as Hc.
  { unfold uri_path in Hp. destruct (Url.url_unescape uri) as [d|]; simpl in Hp; [|done].
    destruct (decide _); [|done]. injection Hp as <-. unfold clean_path. rewrite uri_spec_tokens.
    apply resolve_tokens. }
  assert (let '(fn, pi) := split_path (the_valid valid) path in
          clean_path fn /\ (forall p, pi = Some p -> clean_path p)) as Hs.
  { unfold split_path. destruct (List.find _ _) as [k|] eqn:E; [|done].
    apply find_some in E as [Hk _]. unfold cuts, cuts_below in Hk.
    assert (k = length path \/ path !! k = Some SLASH) as [->|Hk'].
    { destruct Hk as [<-|Hk]; [by left|right]. apply in_rev, filter_In in Hk as [_ Hk].
      by apply bool_decide_eq_true in Hk. }
    - rewrite take_ge, drop_ge by lia. by rewrite decide_True.
    - pose proof Hk' as Hsp. apply take_drop_middle in Hsp. unfold clean_path in *.
      rewrite <- Hsp, strtok_app_delim in Hc by done. apply Forall_app in Hc as [Hc1 Hc2].
      split; [done|]. intros p Hpi. case_decide; [done|]. injection Hpi as <-.
      rewrite (drop_S path _ k Hk'), strtok_cons_delim by done. done. }
  destruct (split_path _ _) as [fn pi]. destruct Hs. unfold paths_ok. destruct rq; simpl.
  split_and!; [|done|done..]. by intros p [= <-].
Qed.

Lemma pbind_state {S A B} (P : S -> Prop) (m : prog S A) (k : A -> prog S B) (s : S) :
  P (m s).1 -> (forall s' a, m s = (s', Ok a) -> P s' -> P (k a s').1) -> P (pbind m k s).1.
Proof. intros H1 H2. unfold pbind. destruct (m s) as [s' []] eqn:E; simpl in *; auto. Qed.

(** The connection is for [v] and its paths are safe. *)
Definition conn_ok (v : vhost) (cn : conn D C) : Prop :=
  cn_vhost cn = Some v /\ paths_ok v (cn_rq cn).

Lemma alias_resolv_ok h (v : vhost) (cn : conn D C) (uri r : list byte) :
  conn_ok v cn -> clean_path uri ->
  http_alias_resolv h (cn_vhost cn) (rq_header (cn_rq cn)) uri FILENAME_MAX = Ok r -> in_roots v r.
Proof.
  intros [Hv _] Hc. unfold http_alias_resolv. rewrite Hv. simpl.
  destruct (alias_resolv v uri FILENAME_MAX) as [d|] eqn:E; simpl; [|done]. intros [= <-].
  by eapply alias_resolv_below.
Qed.

Lemma with_rq_state {A} (m : prog (request D C) A) (P : conn D C -> Prop) (cn : conn D C) :
  P (set_cn_rq cn (m (cn_rq cn)).1) -> P (with_rq m cn).1.
Proof. unfold with_rq. by destruct (m (cn_rq cn)). Qed.

Lemma set_resolved_ok (v : vhost) (cn : conn D C) (r : list byte) :
  conn_ok v cn -> in_roots v r ->
  conn_ok v (with_rq (request_set_resolved_filename r) cn).1 /\
  conn_ok v (with_rq (request_set_resolved_path_info r) cn).1.
Proof.
  intros [Hv (H1 & H2 & H3 & H4)] Hr. destruct cn as [rq rs sup vh].
  unfold with_rq, request_set_resolved_filename, request_set_resolved_path_info, set_string_field, pbind, pmod.
  simpl. destruct (u_alloc _); destruct rq; (split; (split; [done|])); unfold paths_ok in *; simpl in *;
    split_and!; try done; by intros p [= <-].
Qed.

Lemma resolv_request_ok h (v : vhost) (cn : conn D C) :
  conn_ok v cn -> conn_ok v (http_resolv_request FILENAME_MAX h cn).1.
Proof.
  intros Hc. unfold http_resolv_request. apply pbind_state; [done|]. intros ? ? [= <- <-] _.
  pose proof Hc as [_ (H1 & H2 & _ & _)]. apply pbind_state.
  - destruct (filename (cn_rq cn)) as [fn|]; [|done]. apply pbind_state; [done|].
    intros ? r [= <- Hr] _. apply set_resolved_ok; [done|]. eapply alias_resolv_ok; [done| |done]. by apply H1.
  - intros cn' _ _ Hc'. destruct (path_info (cn_rq cn)) as [pi|]; [|done]. apply pbind_state; [done|].
    intros ? r [= <- Hr] _. apply set_resolved_ok; [done|]. eapply alias_resolv_ok; [exact Hc| |done].
    by apply H2.
Qed.

(** Looking for an index page changes nothing but the cached supplier. *)
Lemma first_index_spec h (cands : list (list byte)) (cn : conn D C) :
  exists s, (first_index FILENAME_MAX h cands cn).1 = set_cn_sup cn s /\
    forall idx, (first_index FILENAME_MAX h cands cn).2 = Ok idx -> idx ∈ cands.
Proof.
  revert cn. induction cands as [|c cands IH]; intros cn; cbn [first_index].
  { exists (cn_sup cn). by destruct cn. }
  assert (exists s, (http_is_valid_index FILENAME_MAX h c cn).1 = set_cn_sup cn s) as [s1 E1].
  { unfold http_is_valid_index, pbind, pget. destruct (resolved_filename (cn_rq cn)).
    - destruct (u_path_snprintf _ _ _); [|exists (cn_sup cn); by destruct cn].
      unfold broker_is_valid_uri. destruct (broker_find _ _ _ _ _); [by eexists|].
      exists (cn_sup cn). by destruct cn.
    - exists (cn_sup cn). by destruct cn. }
  unfold pbind. destruct (http_is_valid_index FILENAME_MAX h c cn) as [cn1 r1]. simpl in E1. subst cn1.
  destruct r1 as [[]| | |]; try (exists s1; by split).
  - destruct (u_strlcpy c INDEX_BUFSZ) as [idx trunc] eqn:Eu. exists s1.
    destruct trunc; split; try done. simpl. intros ? [= <-]. apply elem_of_cons. left.
    rewrite u_strlcpy_spec in Eu by (unfold INDEX_BUFSZ; lia). injection Eu as <- Ht.
    apply bool_decide_eq_false in Ht. apply take_ge. unfold INDEX_BUFSZ in *. lia.
  - destruct (IH (set_cn_sup cn s1)) as (s2 & E2 & H2). exists s2. split; [rewrite E2; by destruct cn|].
    intros idx Hi. apply elem_of_cons. right. by apply H2.
Qed.

Definition index_clean (v : vhost) : Prop :=
  forall c, vh_index v = Some c -> Forall clean_path (strtok is_alias_sep c).

Lemma conn_ok_sup (v : vhost) (cn : conn D C) s : conn_ok v (set_cn_sup cn s) <-> conn_ok v cn.
Proof. by destruct cn. Qed.

(** The index page that is found, and the connection it is found with. *)
Lemma index_spec h (v : vhost) (cn : conn D C) :
  conn_ok v cn -> index_clean v ->
  let run := pelse (http_get_config_index FILENAME_MAX h) (http_get_default_index FILENAME_MAX h) cn in
  exists s, run.1 = set_cn_sup cn s /\ forall idx, run.2 = Ok idx -> clean_path idx.
Proof.
  intros Hc Hi. unfold pelse. cbv zeta.
  assert (exists s, (http_get_config_index FILENAME_MAX h cn).1 = set_cn_sup cn s /\
    forall idx, (http_get_config_index FILENAME_MAX h cn).2 = Ok idx -> clean_path idx) as (s1 & E1 & H1).
  { unfold http_get_config_index, pbind, pget, plift. rewrite (proj1 Hc). simpl.
    assert (exists s, cn = set_cn_sup cn s) as [s0 E0] by (exists (cn_sup cn); by destruct cn).
    destruct (vh_index v) as [c|] eqn:Ec; [|by exists s0].
    rewrite u_strlcpy_spec by (unfold INDEX_CONF_BUFSZ; lia).
    case_bool_decide; [by exists s0|]. rewrite take_ge by lia.
    destruct (first_index_spec h (strtok is_alias_sep c) cn) as (s & E & H'). exists s. split; [done|].
    intros idx Hidx. pose proof (Hi c Ec) as Hf. rewrite Forall_forall in Hf. apply Hf, H', Hidx. }
  destruct (http_get_config_index FILENAME_MAX h cn) as [cn1 r1]. simpl in E1, H1. subst cn1.
  destruct r1; try (exists s1; by split).
  unfold http_get_default_index. destruct (first_index_spec h indexes (set_cn_sup cn s1)) as (s2 & E2 & H2).
  exists s2. split; [rewrite E2; by destruct cn|]. intros idx Hidx. apply H2 in Hidx.
  assert (Forall clean_path indexes) as Hf by (unfold clean_path; repeat constructor; done).
  rewrite Forall_forall in Hf. by apply Hf.
Qed.

Lemma set_index_ok h (v : vhost) (cn : conn D C) (fn : list byte) :
  conn_ok v cn -> index_clean v -> filename (cn_rq cn) = Some fn -> last fn = Some SLASH ->
  conn_ok v (http_set_index_request FILENAME_MAX h cn).1.
Proof.
  intros Hc Hi Hfn Hl. unfold http_set_index_request.
  destruct (index_spec h v cn Hc Hi) as (s & E & H). apply pbind_state.
  { rewrite E. by apply conn_ok_sup. }
  intros cn1 idx E1 _. rewrite E1 in E, H. simpl in E, H. subst cn1. specialize (H idx eq_refl).
  apply pbind_state; [by apply conn_ok_sup|]. intros ? ? [= <- <-] Hc1.
  assert (filename (cn_rq (set_cn_sup cn s)) = Some fn) as -> by (by destruct cn).
  destruct (u_snprintf (fn ++ idx) INDEX_URI_BUFSZ) as [uri trunc] eqn:Eu.
  apply pbind_state; [done|]. intros ? [] [= <- Ht] _. destruct trunc; [done|].
  rewrite u_snprintf_spec in Eu by (unfold INDEX_URI_BUFSZ; lia). injection Eu as <- Hb.
  apply bool_decide_eq_false in Hb. unfold INDEX_URI_BUFSZ in *. rewrite take_ge by lia.
  assert (clean_path (fn ++ idx)) as Hclean.
  { apply last_Some in Hl as [f' ->]. rewrite <- app_assoc. unfold clean_path. simpl.
    rewrite strtok_app_delim by done. apply Forall_app. split; [|done].
    destruct Hc as [_ (H1 & _)]. specialize (H1 _ Hfn). unfold clean_path in H1.
    by rewrite strtok_snoc_delim in H1. }
  assert (conn_ok v (pignore (with_rq (request_set_filename (fn ++ idx))) (set_cn_sup cn s)).1) as Hset.
  { destruct Hc1 as [Hv (P1 & P2 & P3 & P4)]. destruct cn as [rq rs sup vh]. destruct rq.
    unfold pignore, with_rq, request_set_filename, set_string_field, pbind, pmod. simpl.
    destruct (u_alloc _); simpl; (split; [done|]); split_and!; simpl; try done. by intros p [= <-]. }
  apply pbind_state; [done|]. intros cn2 [] _ Hc2. by apply resolv_request_ok.
Qed.

Context {LM : LibuMem L}.

(** A resolved file name stays one. *)
Definition resolved_stays (cn cn' : conn D C) : Prop :=
  (is_Some (resolved_filename (cn_rq cn)) -> is_Some (resolved_filename (cn_rq cn'))).

#[local] Instance resolved_stays_preorder : PreOrder resolved_stays.
Proof. split; [by intros ??|]. intros ??? H1 H2 ?. auto. Qed.

Lemma resolv_request_keeps h : keeps resolved_stays (http_resolv_request FILENAME_MAX h).
Proof.
  unfold http_resolv_request. keeps_seq; [keeps_auto|intros cn0].
  keeps_seq; [destruct (filename _)|intros _; destruct (path_info _)]; keeps_auto; intros cn Hs; destruct cn as [rq];
    unfold with_rq, request_set_resolved_filename, request_set_resolved_path_info;
    rewrite set_string_field_total; by destruct rq.
Qed.

Lemma set_index_keeps h (v : vhost) (cn : conn D C) :
  conn_ok v cn -> index_clean v -> resolved_stays cn (http_set_index_request FILENAME_MAX h cn).1.
Proof.
  intros Hc Hi. unfold http_set_index_request.
  destruct (index_spec h v cn Hc Hi) as (s & E & _). apply pbind_state; [rewrite E; destruct cn; by intros ?|].
  intros cn1 idx E1 Hr. etrans; [exact Hr|].
  match goal with |- resolved_stays _ (?m cn1).1 => enough (keeps resolved_stays m) as K by apply K end.
  clear -LM LS. keeps_seq; [keeps_auto|intros cn]. destruct (filename (cn_rq cn)); [|keeps_auto].
  destruct (u_snprintf _ _). keeps_auto; [|apply resolv_request_keeps].
  intros c Hs. unfold with_rq, request_set_filename. rewrite set_string_field_total. destruct c as [rq]. by destruct rq.
Qed.

Lemma resolv_request_some h (cn cn' : conn D C) (u : unit) :
  is_Some (filename (cn_rq cn)) -> http_resolv_request FILENAME_MAX h cn = (cn', Ok u) ->
  is_Some (resolved_filename (cn_rq cn')).
Proof.
  intros [fn Hfn] H. unfold http_resolv_request in H. apply pbind_inv in H as (c & ? & [= <- <-] & H).
  rewrite Hfn in H. apply pbind_inv in H as (c1 & [] & H1 & H).
  apply pbind_inv in H1 as (c0 & r & [= <- _] & H1).
  assert (is_Some (resolved_filename (cn_rq c1))) as Hs.
  { unfold with_rq, request_set_resolved_filename in H1. rewrite set_string_field_total in H1.
    injection H1 as <-. destruct cn as [rq]. by destruct rq. }
  destruct (path_info (cn_rq cn)); [|by injection H as <-].
  apply pbind_inv in H as (c2 & r2 & [= <- _] & H).
  unfold with_rq, request_set_resolved_path_info in H. rewrite set_string_field_total in H.
  injection H as <-. destruct c1 as [rq]. by destruct rq.
Qed.

Lemma get_vhost_in h (hd : header) (v : vhost) : http_get_vhost h None hd = Ok (Some v) -> v ∈ ht_vhosts h.
Proof.
  assert (forall vs w n, vhost_list_get_n vs n = Some w -> w ∈ vs) as Hn.
  { induction vs as [|x vs IH]; intros w [|n]; simpl; try done; [intros [= ->]; apply elem_of_cons; by left|].
    intros ?%IH. apply elem_of_cons. by right. }
  assert (forall vs w n, vhost_list_get vs n = Some w -> w ∈ vs) as Hg.
  { induction vs as [|x vs IH]; intros w n; simpl; [done|]. destruct (streq _ _).
    - intros [= ->]. apply elem_of_cons. by left.
    - intros ?%IH. apply elem_of_cons. by right. }
  unfold http_get_vhost. destruct (header_get_field_value hd (bs "Host")) as [[host|]| | |]; simpl; try done.
  - destruct (u_strlcpy host HOST_BUFSZ) as [cp []]; [done|].
    destruct (vhost_list_get _ _) eqn:E; intros [= H]; [subst; eauto|eauto].
  - intros [= H]. eauto.
Qed.

(** Only the response changes. *)
Definition same_request (cn cn' : conn D C) : Prop := cn_rq cn' = cn_rq cn /\ cn_vhost cn' = cn_vhost cn.

#[local] Instance same_request_preorder : PreOrder same_request.
Proof. split; [by split|]. intros ??? [] []. split; congruence. Qed.

Lemma with_rs_keeps {A} (m : prog (response D C) A) : keeps same_request (with_rs m).
Proof. intros cn. unfold with_rs. destruct (m _). by destruct cn. Qed.

#[local] Hint Resolve with_rs_keeps : keeps.

Lemma default_header_keeps h (now : Z) : keeps same_request (http_add_default_header h now).
Proof. unfold http_add_default_header. keeps_auto. Qed.

Lemma http_parse_ok (fuel n : nat) (timer : bool) (environ : list (list byte)) h (cn cn' : conn D C) (u : unit) :
  cgi (cn_rq cn) = false -> http_parse FILENAME_MAX fuel n timer environ h cn = (cn', Ok u) ->
  cn_vhost cn' = cn_vhost cn /\ is_Some (filename (cn_rq cn')) /\ forall v, paths_ok v (cn_rq cn').
Proof.
  intros Hcgi H. unfold http_parse in H. destruct (request_parse_header _ _ _ _ _ _) as [rq r] eqn:Ep.
  injection H as <- ->.
  destruct (parse_header_paths _ _ _ _ _ _ _ _ Hcgi Ep) as (uri & rq1 & rq2 & Eu & Hsame).
  assert (cn_rq (set_cn_sup (set_cn_rq cn rq) match filename rq with
    | Some fn => valid_info FILENAME_MAX h (cn_vhost cn) (rq_header (cn_rq cn)) fn
    | None => cn_sup cn end) = rq) as -> by (by destruct cn).
  destruct Hsame as (S1 & S2 & S3 & S4). split_and!; [by destruct cn| |].
  - rewrite S1. apply request_set_uri_Ok in Eu as (_ & path & _ & ->). unfold uri_request.
    destruct (split_path _ _). by destruct rq1.
  - intros v. unfold paths_ok. rewrite S1, S2, S3, S4. by eapply uri_paths_ok.
Qed.

(** The choice of an index page. *)
Lemma index_step_ok h (v : vhost) (cn cn' : conn D C) (u : unit) :
  conn_ok v cn -> index_clean v -> is_Some (resolved_filename (cn_rq cn)) ->
  match cn_sup cn, filename (cn_rq cn) with
  | None, Some fn =>
      let! slash := plift (ends_in_slash fn) in
      if slash : bool then pignore (http_set_index_request FILENAME_MAX h) else pret tt
  | _, _ => pret tt
  end cn = (cn', Ok u) ->
  conn_ok v cn' /\ is_Some (resolved_filename (cn_rq cn')).
Proof.
  intros Hc Hi Hr H. destruct (cn_sup cn); [by injection H as <-|].
  destruct (filename (cn_rq cn)) as [fn|] eqn:Ef; [|by injection H as <-].
  apply pbind_inv in H as (c8 & slash & [= <- Hs] & H). unfold ends_in_slash in Hs.
  destruct (last fn) as [ch|] eqn:El; [|done]. injection Hs as <-.
  case_bool_decide; [|by injection H as <-]. subst ch.
  pose proof (set_index_ok h v cn fn Hc Hi Ef El) as K1.
  pose proof (set_index_keeps h v cn Hc Hi Hr) as K2.
  unfold pignore in H. destruct (http_set_index_request _ _ cn) as [c8 []]; by injection H as <-.
Qed.

(** C1: whatever a client sends, when the server gets to serving a file that file lies
    below the root of the virtual host, or below the target of one of its aliases: the
    resolved name is that directory followed by components none of which is empty, "." or
    "..", and so is the resolved path info, also when an index page was chosen. *)
Theorem http_serve_safe (fuel n : nat) (timer : bool) (environ : list (list byte)) h (now : Z)
    (cn cn' : conn D C) :
  cgi (cn_rq cn) = false -> cn_vhost cn = None -> (forall v, v ∈ ht_vhosts h -> index_clean v) ->
  serve_prepare FILENAME_MAX fuel n timer environ h now cn = (cn', Ok tt) ->
  exists v file, v ∈ ht_vhosts h /\ cn_vhost cn' = Some v /\
    resolved_filename (cn_rq cn') = Some file /\ in_roots v file /\
    (forall p, resolved_path_info (cn_rq cn') = Some p -> in_roots v p).
Proof.
  intros Hcgi Hvh Hidx H. unfold serve_prepare in H.
  apply pbind_inv in H as (c1 & [] & H1 & H). apply pbind_inv in H as (c2 & [] & H2 & H).
  apply pbind_inv in H as (c3 & [] & H3 & H). apply pbind_inv in H as (c4 & [] & H4 & H).
  apply pbind_inv in H as (c5 & x & [= <- <-] & H). apply pbind_inv in H as (c5 & ov & [= <- Hv] & H).
  destruct ov as [v|]; [|by apply pbind_inv in H as (? & ? & ? & ?)].
  apply pbind_inv in H as (c6 & [] & [= <-] & H). apply pbind_inv in H as (c7 & [] & H7 & H).
  apply pbind_inv in H as (c8 & x & [= <- <-] & H). apply pbind_inv in H as (c9 & [] & H9 & H).
  apply pbind_inv in H as (c10 & [] & H10 & H).
  pose proof (with_rs_keeps (response_set_method HM_GET) cn) as K1. rewrite H1 in K1.
  pose proof (with_rs_keeps (response_set_status 400) c1) as K2. rewrite H2 in K2.
  assert (same_request cn c2) as [E1 E2] by (by etrans). clear K1 K2.
  apply http_parse_ok in H3 as (V3 & Hfn & Hp); [|by rewrite E1].
  pose proof (with_rs_keeps (response_set_method (rq_method (cn_rq c3))) c3) as K. rewrite H4 in K.
  destruct K as [E3 E4]. simpl in E3, E4. rewrite E4, V3, E2, Hvh in Hv.
  pose proof (get_vhost_in _ _ _ Hv) as Hin. rewrite <- E3 in Hfn, Hp.
  assert (conn_ok v (set_cn_vhost c4 (Some v))) as Hc6 by (destruct c4; by split).
  pose proof (resolv_request_ok h v _ Hc6) as Hc7. rewrite H7 in Hc7. simpl in Hc7.
  assert (is_Some (resolved_filename (cn_rq c7))) as Hr7.
  { eapply resolv_request_some; [|exact H7]. by destruct c4. }
  destruct (index_step_ok h v c7 c9 _ Hc7 (Hidx v Hin) Hr7 H9) as [[Hv9 (_ & _ & P3 & P4)] [file Hr9]].
  pose proof (default_header_keeps h now c9) as K1. rewrite H10 in K1.
  pose proof (with_rs_keeps (response_set_status 200) c10) as K2. rewrite H in K2.
  assert (same_request c9 cn') as [E5 E6] by (by etrans). rewrite E5, E6.
  exists v, file. split_and!; [done|done|done|by apply P3|done].
Qed.
End http_safety.

(** ** Error pages *)

Section http_errors.
Context {L : Libu} {LS : LibuSpec L} {LM : LibuMem L} {D C : Type} {DO : DevOps D} {DK : DevSink D}
        {CO : CodecOps C}.
Variable FILENAME_MAX : nat.
Variable KLONE_VERSION : list byte.
Implicit Types h : http D C.

Lemma set_field_new (fs : list (list byte * list byte)) (n v : list byte) :
  forallb (fun nv => negb (strcaseeq nv.1 n)) fs = true ->
  header_set_field (mkHeader (map mk_field fs) (length fs)) n v =
  (mkHeader (map mk_field (fs ++ [(n, v)])) (length (fs ++ [(n, v)])), Ok tt).
Proof.
  intros H. unfold header_set_field, header_get_field. simpl h_fields.
  assert (find_field (map mk_field fs) n = Ok None) as ->.
  { induction fs as [|[m w] fs IH]; simpl in *; [done|]. apply andb_true_iff in H as [H1 H2].
    apply negb_true_iff in H1. by rewrite H1, IH. }
  rewrite field_create_eq. unfold header_add_field. simpl. rewrite map_app, length_app. simpl.
  do 2 f_equal. lia.
Qed.

(** The fields of every error page. *)
Definition error_fields (sig date : list byte) : list (list byte * list byte) :=
  [(bs "Server", sig); (bs "Date", date); (bs "Cache-Control", bs "no-cache, must-revalidate");
   (bs "Expires", bs "Mon, 1 Jan 1990 05:00:00 GMT"); (bs "Pragma", bs "no-cache")].

(** The response of an error page before it is printed. *)
Definition error_response (rs : response D C) (sig date : list byte) (status : Z) : response D C :=
  mkRs (mkHeader (map mk_field (error_fields sig date)) 5) (rs_io rs) status (rs_method rs) (rs_cgi rs).

(** A response with these fields. *)
Definition with_fields (rs : response D C) (fs : list (list byte * list byte)) : response D C :=
  set_rs_header rs (mkHeader (map mk_field fs) (length fs)).

Lemma response_set_new (fs : list (list byte * list byte)) (n v : list byte) (rs : response D C) :
  forallb (fun nv => negb (strcaseeq nv.1 n)) fs = true ->
  response_set_field n v (with_fields rs fs) = (with_fields rs (fs ++ [(n, v)]), Ok tt).
Proof.
  intros H. unfold response_set_field, with_fields. destruct rs as [h0 i0 s0 m0 c0]. cbn [set_rs_header rs_header].
  by rewrite set_field_new.
Qed.

Lemma disable_caching_new (sig date : list byte) (rs : response D C) :
  response_disable_caching (with_fields rs [(bs "Server", sig); (bs "Date", date)]) =
  (with_fields rs (error_fields sig date), Ok tt).
Proof.
  unfold response_disable_caching. erewrite pbind_Ok by (by apply response_set_new).
  erewrite pbind_Ok by (by apply response_set_new). by rewrite response_set_new.
Qed.

Lemma with_rs_Ok {A} (m : prog (response D C) A) (cn : conn D C) (rs' : response D C) (a : A) :
  m (cn_rs cn) = (rs', Ok a) -> with_rs m cn = (set_cn_rs cn rs', Ok a).
Proof. unfold with_rs. by intros ->. Qed.

Lemma default_header_new h (v : vhost) (now : Z) (date : list byte) (cn : conn D C) (rs : response D C) :
  http_get_vhost h (cn_vhost cn) (rq_header (cn_rq cn)) = Ok (Some v) -> u_tt_to_rfc822 now = Ok date ->
  cn_rs cn = with_fields rs [] ->
  http_add_default_header h now cn =
  (set_cn_rs cn (with_fields rs [(bs "Server", vh_server_sig v); (bs "Date", date)]), Ok tt).
Proof.
  intros Hv Hd E. unfold http_add_default_header. erewrite pbind_Ok by done.
  unfold pbind at 1, plift. rewrite Hv.
  erewrite pbind_Ok by (apply with_rs_Ok; rewrite E; by apply (response_set_new [])).
  erewrite with_rs_Ok; [by destruct cn|]. unfold response_set_date, pbind, plift. rewrite Hd.
  destruct cn. by apply (response_set_new [_]).
Qed.

(** An error of a virtual host without a page of its own for it is answered with
    the status line of the error, exactly the five header fields that identify the server
    and forbid caching, and, unless the method was HEAD, the default page, which names the
    status and repeats the URI of the request without escaping it. *)
Theorem http_error_page (fuel : nat) h (v : vhost) (now status : Z) (date : list byte) (cn : conn D C) :
  status <> 0%Z -> status <> 302%Z ->
  http_get_vhost h (cn_vhost cn) (rq_header (cn_rq cn)) = Ok (Some v) ->
  conf_lookup (vh_error v) status = None -> u_tt_to_rfc822 now = Ok date ->
  header_ok (rs_header (cn_rs cn)) -> writable (rs_io (cn_rs cn)) ->
  let rs := error_response (cn_rs cn) (vh_server_sig v) date status in
  let page := if decide (rq_method (cn_rq cn) = HM_HEAD) then []
              else error_page_text KLONE_VERSION status (default [] (rq_uri (cn_rq cn))) in
  room (rs_io rs) (length (header_text rs) + length page) ->
  length (header_text rs) + length page <= fuel ->
  exists cn', http_print_error_page FILENAME_MAX KLONE_VERSION fuel h now status cn = (cn', Ok tt) /\
    cn_rq cn' = cn_rq cn /\ rs_status (cn_rs cn') = status /\
    outstream (rs_io (cn_rs cn')) = outstream (rs_io (cn_rs cn)) ++ header_text rs ++ page.
Proof.
  intros Hs Hn Hv Hconf Hdate Hh Hw rs page Hroom Hfuel. destruct cn as [rq rs0 sup vh]. simpl in Hv, Hh, Hw.
  unfold http_print_error_page. rewrite bool_decide_false by done. erewrite pbind_Ok by done.
  rewrite decide_False by done. erewrite pbind_Ok by (by apply with_rs_Ok). cbv beta. cbn [cn_rs].
  rewrite header_clear_eq by done. change (set_rs_header rs0 (mkHeader [] 0)) with (with_fields rs0 []).
  erewrite pbind_Ok by (by eapply default_header_new).
  erewrite pbind_Ok by (apply with_rs_Ok, disable_caching_new).
  erewrite pbind_Ok by done. unfold pbind at 1, plift. cbn [set_cn_rs cn_vhost cn_rq]. rewrite Hv, Hconf.
  erewrite pbind_Ok by done. cbv beta iota. erewrite pbind_Ok by (by apply with_rs_Ok).
  cbn [set_cn_rs cn_rs].
  assert (set_rs_status (with_fields rs0 (error_fields (vh_server_sig v) date)) status = rs) as ->
    by (by destruct rs0).
  destruct (print_header_spec fuel rs (length page)) as (rs1 & E1 & P1 & R1);
    [split; [done|repeat constructor; by eexists]|by destruct rs0|done|lia|].
  assert (pignore (with_rs (response_print_header fuel)) (mkConn rq rs sup vh) =
          (mkConn rq rs1 sup vh, Ok tt)) as E2.
  { unfold pignore. by rewrite (with_rs_Ok _ _ rs1 tt). }
  erewrite pbind_Ok by exact E2. erewrite pbind_Ok by done. cbn [cn_rq].
  assert (rs_io rs = rs_io rs0) as Eio by done.
  destruct P1 as (F1 & W1 & O1 & _). unfold page in *. destruct (decide _).
  - eexists. split; [done|]. simpl. split_and!; [done|by rewrite F1|]. by rewrite O1, app_nil_r, Eio.
  - destruct (rs_printf_spec fuel rs1 _ 0 W1 ltac:(by rewrite Nat.add_0_r) ltac:(lia))
      as (rs2 & E3 & (F2 & _ & O2 & _) & _).
    exists (mkConn rq rs2 sup vh). split; [by apply (with_rs_Ok _ (mkConn rq rs1 sup vh))|]. simpl. split_and!; [done| |].
    + rewrite F2, F1. by destruct rs0.
    + by rewrite O2, O1, <- app_assoc, Eio.
Qed.
End http_errors.

(** ** Redirections *)

Lemma unescape_qmark (p r : list byte) :
  Url.url_unescape (p ++ QMARK :: r) =
  (dp ← Url.url_unescape p; dr ← Url.url_unescape r; Some (dp ++ QMARK :: dr)).
Proof.
  induction p as [|c s Hc IH| |x|x l s IH] using Url.url_ind; simpl app.
  - cbn [Url.url_unescape]. rewrite decide_False by done. by destruct (Url.url_unescape r).
  - cbn [Url.url_unescape]. rewrite !(decide_False (P:=c = "%"%byte)) by done. rewrite IH.
    by destruct (Url.url_unescape s), (Url.url_unescape r).
  - by destruct r.
  - simpl. destruct (isxdigit x); [|done]. by destruct r.
  - cbn [Url.url_unescape]. destruct (decide _); [|done]. destruct (_ && _); [|done]. rewrite IH.
    destruct (Url.url_unescape s); simpl; [|done]. by destruct (Url.url_unescape r).
Qed.

Lemma upto_cons (c x : byte) (s : list byte) : upto c (x :: s) = if decide (x = c) then [] else x :: upto c s.
Proof. unfold upto. simpl. destruct (decide (x = c)); [done|]. by destruct (strchr s c). Qed.

Lemma upto_cstr (c : byte) (a b : list byte) : c <> x00 -> upto c (cstr (a ++ c :: b)) = upto c (cstr a).
Proof.
  intros Hc. induction a as [|x a IH]; simpl.
  - destruct (decide (c = x00)); [done|]. rewrite upto_cons. by rewrite decide_True.
  - destruct (decide (x = x00)); [done|]. rewrite !upto_cons. by rewrite IH.
Qed.

(** What follows the question mark of a URI does not change its path. *)
Lemma uri_path_qmark (p r r' : list byte) :
  is_Some (Url.url_unescape (p ++ QMARK :: r)) -> is_Some (Url.url_unescape (p ++ QMARK :: r')) ->
  uri_path (p ++ QMARK :: r) = uri_path (p ++ QMARK :: r').
Proof.
  rewrite !unescape_qmark. intros [d E] [d' E']. unfold uri_path. rewrite !unescape_qmark.
  destruct (Url.url_unescape p) as [dp|]; simpl in *; [|done].
  destruct (Url.url_unescape r), (Url.url_unescape r'); simpl in *; try done.
  by rewrite !(upto_cstr QMARK dp).
Qed.

Section http_redirects.
Context {L : Libu} {LS : LibuSpec L} {D C : Type}.

Lemma URI_MAX_pos : 2 < URI_MAX.
Proof. unfold URI_MAX. lia. Qed.
#[local] Opaque URI_MAX.

Lemma strlcat_take (d s t : list byte) :
  (u_strlcat (take (URI_MAX - 1) (d ++ s)) t URI_MAX).1 = take (URI_MAX - 1) (d ++ s ++ t).
Proof.
  pose proof URI_MAX_pos. rewrite u_strlcat_spec by (rewrite length_take; lia). simpl. rewrite app_assoc.
  destruct (decide (length (d ++ s) <= URI_MAX - 1)) as [Hl|Hl].
  - by rewrite (take_ge (d ++ s)) by done.
  - rewrite take_app_le by (rewrite length_take; lia). rewrite take_take, Nat.min_id.
    by rewrite (take_app_le (d ++ s) t) by lia.
Qed.

(** The URI that is redirected is followed by more text, cut at 2047 bytes. *)
Lemma redirect_uri_eq (rq : request D C) (uri : list byte) :
  exists rest, redirect_uri rq uri = take (URI_MAX - 1) (uri ++ rest).
Proof.
  pose proof URI_MAX_pos. unfold redirect_uri. rewrite u_strlcpy_spec by lia. cbn [fst].
  assert (take (URI_MAX - 1) uri = take (URI_MAX - 1) (uri ++ [])) as -> by (by rewrite app_nil_r).
  rewrite strlcat_take. destruct (path_info rq), (query rq); rewrite ?strlcat_take; eauto.
Qed.

(** The redirection of a directory asked for with a query leads back to the same
    place: the query string is part of the URI that gets the slash appended, so the URI
    the client is sent to gives the same file name and path info as the one it asked for,
    and is redirected again. *)
Theorem http_redirect_query (uri : list byte) (k : nat) (valid : option (list byte -> nat -> bool))
    (rq0 rq rq1 rq2 : request D C) :
  strchr uri QMARK = Some k -> k < URI_MAX - 1 ->
  request_set_uri uri valid rq0 = (rq1, Ok tt) ->
  request_set_uri (redirect_uri rq uri) valid rq0 = (rq2, Ok tt) ->
  filename rq2 = filename rq1 /\ path_info rq2 = path_info rq1.
Proof.
  intros Hq Hk (_ & path1 & P1 & ->)%request_set_uri_Ok (_ & path2 & P2 & ->)%request_set_uri_Ok.
  destruct (redirect_uri_eq rq uri) as [rest E]. rewrite E in P2. clear E.
  pose proof Hq as Hsplit. apply strchr_split in Hsplit. apply strchr_Some in Hq as [Hq _].
  assert (k < length uri) as Hl by (by apply lookup_lt_Some in Hq).
  assert (exists r, take (URI_MAX - 1) (uri ++ rest) = take k uri ++ QMARK :: r) as [r E].
  { exists (take (URI_MAX - 1 - S k) (drop (S k) uri ++ rest)). rewrite Hsplit at 1. rewrite <- app_assoc. simpl.
    rewrite take_app_ge by (rewrite length_take; lia). f_equal.
    replace (URI_MAX - 1 - length (take k uri)) with (S (URI_MAX - 1 - S k)) by (rewrite length_take; lia).
    done. }
  rewrite E in P2. rewrite Hsplit in P1.
  assert (path2 = path1) as ->.
  { rewrite (uri_path_qmark _ _ r) in P1; [congruence| |].
    - unfold uri_path in P1. destruct (Url.url_unescape _); [by eexists|done].
    - unfold uri_path in P2. destruct (Url.url_unescape _); [by eexists|done]. }
  unfold uri_request. destruct (split_path _ _). by destruct rq0.
Qed.
End http_redirects.

(** ** Evaluation *)

(** Two virtual hosts and a supplier that knows a list of files with their times. *)
Definition vh_a : vhost :=
  mkVhost [] 0 (bs "/a") (bs "klone") [Some (bs "/doc /usr/doc")] [] None [].
Definition vh_b : vhost :=
  mkVhost (bs "b.org") 1 (bs "/b") (bs "klone") [] [] (Some (bs "home.html index.html")) [].

Definition files_sup (files : list (list byte * Z)) : supplier io_mem no_codec :=
  mkSup (fun _ _ p => snd <$> List.find (fun f => streq f.1 p) files)
        (fun cn => with_rs (response_print_header (L:=libu_ref) 1000) cn) false.

Definition server (files : list (list byte * Z)) : http io_mem no_codec :=
  mkHttp [files_sup files] [vh_a; vh_b] [].

Definition client (lines : list (list byte)) : conn io_mem no_codec :=
  mkConn (set_rq_io rq0 (mem_io (send_lines lines)))
         (mkRs header_create (mem_io (replicate 1000 x00)) 0 HM_UNKNOWN false) None None.

Abbreviation serve files lines :=
  (http_serve (L:=libu_ref) 1024 (bs "x") 1000 1 true [] (server files) 784111777 (client lines)).

Example serve_alias :
  let '(cn, r) := serve [(bs "/usr/doc/x/y.html", 5%Z)] [bs "GET /doc/./x//y.html/info HTTP/1.0"] in
  r = Ok tt /\ rs_status (cn_rs cn) = 200%Z /\
  resolved_filename (cn_rq cn) = Some (bs "/usr/doc/x/y.html") /\ path_info (cn_rq cn) = Some (bs "/info").
Proof. vm_compute. by split_and!. Qed.

Example serve_index :
  let '(cn, r) := serve [(bs "/b/d/index.html", 5%Z)] [bs "GET /d/ HTTP/1.0"; bs "Host: b.org:80"] in
  r = Ok tt /\ resolved_filename (cn_rq cn) = Some (bs "/b/d/index.html").
Proof. vm_compute. by split_and!. Qed.

(** A directory with a query: where the client is sent, twice. *)
Example serve_redirect :
  let location cn := header_get_field_value (rs_header (cn_rs cn)) (bs "Location") in
  let '(cn1, _) := serve [(bs "/a/d/index.html", 5%Z)] [bs "GET /d?x=1 HTTP/1.0"] in
  let '(cn2, _) := serve [(bs "/a/d/index.html", 5%Z)] [bs "GET /d?x=1/?x=1 HTTP/1.0"] in
  rs_status (cn_rs cn1) = 302%Z /\ location cn1 = Ok (Some (bs "/d?x=1/?x=1")) /\
  rs_status (cn_rs cn2) = 302%Z /\ location cn2 = Ok (Some (bs "/d?x=1/?x=1/?x=1/?x=1")).
Proof. vm_compute. by split_and!. Qed.

(** The file that decides about a conditional request can be the wrong one.  The
    supplier and the modification time of a URI are looked up while the request line is
    parsed, when the Host field has not been read: with the same path on two virtual
    hosts, a request for the second one is answered 304 although its file is newer than
    the client's copy, because the file of the first one is older. *)
Theorem http_stale_not_modified :
  let files := [(bs "/a/x", 1000000000%Z); (bs "/b/x", 1500000000%Z)] in
  let '(cn, r) := serve files [bs "GET /x HTTP/1.0"; bs "Host: b.org";
                               bs "If-Modified-Since: Sat, 01 Jan 2005 00:00:00 GMT"] in
  r = Ok tt /\ rs_status (cn_rs cn) = 304%Z /\
  resolved_filename (cn_rq cn) = Some (bs "/b/x") /\ if_modified_since (cn_rq cn) = 1104537600%Z.
Proof. vm_compute. by split_and!. Qed.

Lemma http_serve_safe_witness :
  let run := serve_prepare (L:=libu_ref) 1024 1000 1 true [] (server [(bs "/b/d/index.html", 5%Z)]) 784111777
               (client [bs "GET /d/../d/ HTTP/1.0"; bs "Host: b.org"]) in
  exists v file, v ∈ [vh_a; vh_b] /\ cn_vhost run.1 = Some v /\
    resolved_filename (cn_rq run.1) = Some file /\ in_roots v file /\
    (forall p, resolved_path_info (cn_rq run.1) = Some p -> in_roots v p).
Proof.
  intros run. apply (http_serve_safe (L:=libu_ref) 1024 1000 1 true [] (server [(bs "/b/d/index.html", 5%Z)])
    784111777 (client [bs "GET /d/../d/ HTTP/1.0"; bs "Host: b.org"])).
  - reflexivity.
  - reflexivity.
  - intros v Hv c Hc. apply elem_of_cons in Hv as [->|Hv]; [done|]. apply list_elem_of_singleton in Hv as ->.
    injection Hc as <-. unfold clean_path. repeat constructor; done.
  - unfold run. vm_compute. reflexivity.
Defined.

Definition lost : conn io_mem no_codec :=
  set_cn_rq (client []) (set_rq_uri (set_rq_method rq0 HM_GET) (Some (bs "/<b>"))).

Lemma http_error_page_witness :
  let rs := error_response (cn_rs lost) (bs "klone") (bs "Sun, 06 Nov 1994 08:49:37 GMT") 404 in
  exists cn', http_print_error_page (L:=libu_ref) 1024 (bs "x") 1000 (server []) 784111777 404 lost = (cn', Ok tt) /\
    cn_rq cn' = cn_rq lost /\ rs_status (cn_rs cn') = 404%Z /\
    outstream (rs_io (cn_rs cn')) =
      outstream (rs_io (cn_rs lost)) ++ header_text rs ++ error_page_text (bs "x") 404 (bs "/<b>").
Proof.
  apply (http_error_page (L:=libu_ref) 1024 (bs "x") 1000 (server []) vh_a 784111777 404
           (bs "Sun, 06 Nov 1994 08:49:37 GMT") lost).
  - done.
  - done.
  - reflexivity.
  - reflexivity.
  - vm_compute. reflexivity.
  - by split.
  - by split.
  - compute_decide.
  - compute_decide.
Defined.

Lemma http_redirect_query_witness :
  let rq1 := (request_set_uri (L:=libu_ref) (bs "/d?x=1") (Some knows_env) rq0).1 in
  let rq2 := (request_set_uri (L:=libu_ref) (redirect_uri (L:=libu_ref) rq1 (bs "/d?x=1")) (Some knows_env) rq0).1 in
  filename rq2 = filename rq1 /\ path_info rq2 = path_info rq1.
Proof.
  intros rq1 rq2. apply (http_redirect_query (L:=libu_ref) (bs "/d?x=1") 2 (Some knows_env) rq0 rq1).
  - reflexivity.
  - compute_decide.
  - unfold rq1. vm_compute. reflexivity.
  - unfold rq2, rq1. vm_compute. reflexivity.
Defined.
