(* ===== verification/Md5.v ===== *)
(** MD5: src/src/libutils/md5.c, and u_md5 and u_md5io of src/src/libutils/utils.c.

    Words are [Z] reduced modulo 2^32.  The sixty-four SET lines are a table of the
    message word, the rotation and the constant of each; [set_step] is the macro, with the
    registers renamed as the next line uses them. *)

From S2P Require Import Prelude Libu Encode Io IoSpec IoMem.

Local Open Scope Z_scope.

Definition w32 (z : Z) : Z := z mod 2 ^ 32.

(** ** md5.h *)

Definition regs : Type := Z * Z * Z * Z.

Record md5_state := mkMd5 {
  count0 : Z;
  count1 : Z;
  abcd : regs;
  md5_buf : list byte
}.

Definition T_MASK : Z := 2 ^ 32 - 1.
Definition Tx (z : Z) : Z := Z.lxor T_MASK z.

Definition ROTATE_LEFT (x n : Z) : Z := Z.lor (w32 (Z.shiftl x n)) (Z.shiftr x (32 - n)).
Definition wnot (x : Z) : Z := Z.lxor T_MASK x.

Definition F (x y z : Z) : Z := Z.lor (Z.land x y) (Z.land (wnot x) z).
Definition G (x y z : Z) : Z := Z.lor (Z.land x z) (Z.land y (wnot z)).
Definition H (x y z : Z) : Z := Z.lxor (Z.lxor x y) z.
Definition I (x y z : Z) : Z := Z.lxor y (Z.lor x (wnot z)).

(** [SET(a, b, c, d, k, s, Ti)]; the next line calls [d] what this one calls [c]. *)
Definition set_step (f : Z -> Z -> Z -> Z) (X : list Z) (r : regs) (op : nat * Z * Z) : regs :=
  let '(a, b, c, d) := r in
  let '(k, s, Ti) := op in
  let t := w32 (a + f b c d + nth k X 0 + Ti) in
  (d, w32 (ROTATE_LEFT t s + b), b, c).

Definition round1 : list (nat * Z * Z) := [
  (0%nat, 7, Tx 0x28955b87); (1%nat, 12, Tx 0x173848a9); (2%nat, 17, 0x242070db); (3%nat, 22, Tx 0x3e423111);
  (4%nat, 7, Tx 0x0a83f050); (5%nat, 12, 0x4787c62a); (6%nat, 17, Tx 0x57cfb9ec); (7%nat, 22, Tx 0x02b96afe);
  (8%nat, 7, 0x698098d8); (9%nat, 12, Tx 0x74bb0850); (10%nat, 17, Tx 0x0000a44e); (11%nat, 22, Tx 0x76a32841);
  (12%nat, 7, 0x6b901122); (13%nat, 12, Tx 0x02678e6c); (14%nat, 17, Tx 0x5986bc71); (15%nat, 22, 0x49b40821)].

Definition round2 : list (nat * Z * Z) := [
  (1%nat, 5, Tx 0x09e1da9d); (6%nat, 9, Tx 0x3fbf4cbf); (11%nat, 14, 0x265e5a51); (0%nat, 20, Tx 0x16493855);
  (5%nat, 5, Tx 0x29d0efa2); (10%nat, 9, 0x02441453); (15%nat, 14, Tx 0x275e197e); (4%nat, 20, Tx 0x182c0437);
  (9%nat, 5, 0x21e1cde6); (14%nat, 9, Tx 0x3cc8f829); (3%nat, 14, Tx 0x0b2af278); (8%nat, 20, 0x455a14ed);
  (13%nat, 5, Tx 0x561c16fa); (2%nat, 9, Tx 0x03105c07); (7%nat, 14, 0x676f02d9); (12%nat, 20, Tx 0x72d5b375)].

Definition round3 : list (nat * Z * Z) := [
  (5%nat, 4, Tx 0x0005c6bd); (8%nat, 11, Tx 0x788e097e); (11%nat, 16, 0x6d9d6122); (14%nat, 23, Tx 0x021ac7f3);
  (1%nat, 4, Tx 0x5b4115bb); (4%nat, 11, 0x4bdecfa9); (7%nat, 16, Tx 0x0944b49f); (10%nat, 23, Tx 0x4140438f);
  (13%nat, 4, 0x289b7ec6); (0%nat, 11, Tx 0x155ed805); (3%nat, 16, Tx 0x2b10cf7a); (6%nat, 23, 0x04881d05);
  (9%nat, 4, Tx 0x262b2fc6); (12%nat, 11, Tx 0x1924661a); (15%nat, 16, 0x1fa27cf8); (2%nat, 23, Tx 0x3b53a99a)].

Definition round4 : list (nat * Z * Z) := [
  (0%nat, 6, Tx 0x0bd6ddbb); (7%nat, 10, 0x432aff97); (14%nat, 15, Tx 0x546bdc58); (5%nat, 21, Tx 0x036c5fc6);
  (12%nat, 6, 0x655b59c3); (3%nat, 10, Tx 0x70f3336d); (10%nat, 15, Tx 0x00100b82); (1%nat, 21, Tx 0x7a7ba22e);
  (8%nat, 6, 0x6fa87e4f); (15%nat, 10, Tx 0x01d3191f); (6%nat, 15, Tx 0x5cfebceb); (13%nat, 21, 0x4e0811a1);
  (4%nat, 6, Tx 0x08ac817d); (11%nat, 10, Tx 0x42c50dca); (2%nat, 15, 0x2ad7d2bb); (9%nat, 21, Tx 0x14792c6e)].

(** The words of a block, least significant byte first. *)
Fixpoint words (data : list byte) : list Z :=
  match data with
  | b0 :: b1 :: b2 :: b3 :: data' =>
      (bz b0 + Z.shiftl (bz b1) 8 + Z.shiftl (bz b2) 16 + Z.shiftl (bz b3) 24) :: words data'
  | _ => []
  end.

Definition md5_process (r0 : regs) (data : list byte) : regs :=
  let X := words data in
  let r := foldl (set_step F X) r0 round1 in
  let r := foldl (set_step G X) r round2 in
  let r := foldl (set_step H X) r round3 in
  let '(a, b, c, d) := foldl (set_step I X) r round4 in
  let '(a0, b0, c0, d0) := r0 in
  (w32 (a0 + a), w32 (b0 + b), w32 (c0 + c), w32 (d0 + d)).

Definition regs0 : regs := (0x67452301, Tx 0x10325476, Tx 0x67452301, 0x10325476).

(** [buf0] is what the state's buffer held. *)
Definition md5_init (buf0 : list byte) : md5_state := mkMd5 0 0 regs0 buf0.

(** The [for] over full blocks: the registers, and the bytes left. *)
Fixpoint full_blocks (n : nat) (r : regs) (p : list byte) : regs * list byte :=
  match n with
  | 0%nat => (r, p)
  | S n' =>
      if decide (64 <= length p)%nat then full_blocks n' (md5_process r (take 64 p)) (drop 64 p) else (r, p)
  end.

(** [nbytes] is an [int]: [nbytes << 3] must not overflow it. *)
Definition md5_append (s : md5_state) (data : list byte) : res md5_state :=
  let nbytes := length data in
  if decide (2 ^ 28 <= Z.of_nat nbytes) then Fault else
  if decide (nbytes = 0%nat) then Ok s else
  let offset := Z.to_nat (Z.land (Z.shiftr (count0 s) 3) 63) in
  let nbits := w32 (Z.shiftl (Z.of_nat nbytes) 3) in
  let c1 := w32 (count1 s + Z.shiftr (Z.of_nat nbytes) 29) in
  let c0 := w32 (count0 s + nbits) in
  let c1 := if decide (c0 < nbits) then w32 (c1 + 1) else c1 in
  if decide (offset = 0%nat) then
    let '(r, rem) := full_blocks nbytes (abcd s) data in
    Ok (mkMd5 c0 c1 r (mwrite (md5_buf s) 0 rem))
  else
    let copy := if decide (64 < offset + nbytes)%nat then (64 - offset)%nat else nbytes in
    let buf := mwrite (md5_buf s) offset (take copy data) in
    if decide (offset + copy < 64)%nat then Ok (mkMd5 c0 c1 (abcd s) buf) else
    let '(r, rem) := full_blocks nbytes (md5_process (abcd s) buf) (drop copy data) in
    Ok (mkMd5 c0 c1 r (mwrite buf 0 rem)).

Definition pad : list byte := x80 :: replicate 63 x00.

(** The bytes of two words, and of four, least significant byte first. *)
Definition word_bytes (w : Z) : list byte :=
  [zb w; zb (Z.shiftr w 8); zb (Z.shiftr w 16); zb (Z.shiftr w 24)].

Definition md5_finish (s : md5_state) : res (list byte) :=
  let data := word_bytes (count0 s) ++ word_bytes (count1 s) in
  s1 ← md5_append s (take (Z.to_nat (Z.land (55 - Z.shiftr (count0 s) 3) 63) + 1) pad);
  s2 ← md5_append s1 data;
  let '(a, b, c, d) := abcd s2 in
  Ok (word_bytes a ++ word_bytes b ++ word_bytes c ++ word_bytes d).

(** ** utils.c *)

Definition u_md5 (buf : list byte) (buf0 : list byte) : res (list byte) :=
  s ← md5_append (md5_init buf0) buf;
  digest ← md5_finish s;
  Hex.u_tohex digest 16.

Section md5io.
Context {L : Libu} {D C : Type} {DO : DevOps D} {CO : CodecOps C}.

(** The [while] of [u_md5io].  [cnt] is a [size_t], so the -1 of a failed read is not the
    end of the loop; [md5_append] takes it back to an [int] and does nothing. *)
Fixpoint md5io_loop (fuel n : nat) (io : io D C) (s : md5_state) : Io.io D C * res md5_state :=
  match n with
  | 0%nat => (io, Timeout)
  | S n' =>
      let '(io1, r) := io_read fuel io (N.to_nat 4096) in
      match r with
      | Ok [] => (io1, Ok s)
      | Ok buf =>
          match md5_append s buf with
          | Ok s' => md5io_loop fuel n' io1 s'
          | e => (io1, e)
          end
      | Fail => md5io_loop fuel n' io1 s
      | Fault => (io1, Fault)
      | Timeout => (io1, Timeout)
      end
  end.

Definition u_md5io (fuel n : nat) (io : io D C) (buf0 : list byte) : Io.io D C * res (list byte) :=
  let '(io1, r) := md5io_loop fuel n io (md5_init buf0) in
  (io1, s ← r; digest ← md5_finish s; Hex.u_tohex digest 16).
End md5io.

Example md5_abc : u_md5 (bs "abc") (replicate 64 x00) = Ok (bs "900150983cd24fb0d6963f7d28e17f72").
Proof. vm_compute. reflexivity. Qed.
Example md5_long :
  u_md5 (bs "12345678901234567890123456789012345678901234567890123456789012345678901234567890") (replicate 64 x00)
  = Ok (bs "57edf4a22be3c955ac49da2e2107b67a").
Proof. vm_compute. reflexivity. Qed.
Example md5_empty : u_md5 [] (replicate 64 x00) = Ok (bs "d41d8cd98f00b204e9800998ecf8427e").
Proof. vm_compute. reflexivity. Qed.

(** ** The digest of a message, RFC 1321 *)

(** The full blocks of a message. *)
Definition chunks64 (m : list byte) : list (list byte) :=
  map (fun i => take 64 (drop (64 * i) m)) (seq 0 (length m / 64)).

(** A one bit, zeros up to 56 bytes modulo 64, and the length in bits in eight bytes. *)
Definition padding (m : list byte) : list byte :=
  x80 :: replicate (Z.to_nat ((55 - Z.of_nat (length m)) mod 64)) x00.
Definition length_bytes (m : list byte) : list byte :=
  map (fun i => zb (Z.shiftr (8 * Z.of_nat (length m)) (8 * Z.of_nat i))) (seq 0 8).

Definition regs_bytes (r : regs) : list byte :=
  let '(a, b, c, d) := r in word_bytes a ++ word_bytes b ++ word_bytes c ++ word_bytes d.

Definition md5_ref (m : list byte) : list byte :=
  regs_bytes (foldl md5_process regs0 (chunks64 (m ++ padding m ++ length_bytes m))).

Local Open Scope nat_scope.

Lemma blocks_short (m : list byte) : length m < 64 -> chunks64 m = [].
Proof. intros Hl. unfold chunks64. by rewrite Nat.div_small. Qed.

Lemma blocks_step (m : list byte) : 64 <= length m -> chunks64 m = take 64 m :: chunks64 (drop 64 m).
Proof.
  intros Hl. unfold chunks64. rewrite length_drop.
  assert (length m / 64 = S ((length m - 64) / 64)) as ->.
  { replace (length m) with (length m - 64 + 1 * 64) at 1 by lia. rewrite Nat.div_add by lia. lia. }
  simpl seq. rewrite <- seq_shift, map_cons, map_map. f_equal. apply map_ext. intros i. rewrite drop_drop.
  do 2 f_equal. lia.
Qed.

Lemma blocks_app (k : nat) (a b : list byte) : length a = 64 * k -> chunks64 (a ++ b) = chunks64 a ++ chunks64 b.
Proof.
  revert a. induction k as [|k IH]; intros a Ha.
  - destruct a; [done|simpl in Ha; lia].
  - rewrite blocks_step by (rewrite length_app; lia). rewrite (blocks_step a) by lia.
    rewrite take_app_le, drop_app_le by lia. simpl. f_equal. apply IH. rewrite length_drop. lia.
Qed.

Lemma full_blocks_eq (n : nat) (r : regs) (p : list byte) : length p <= n ->
  full_blocks n r p = (foldl md5_process r (chunks64 p), drop (64 * (length p / 64)) p).
Proof.
  revert r p. induction n as [|n IH]; intros r p Hn; cbn [full_blocks].
  - destruct p; [done|simpl in Hn; lia].
  - destruct (decide (64 <= length p)) as [Hl|Hl].
    + rewrite IH by (rewrite length_drop; lia). rewrite (blocks_step p) by done. simpl foldl. f_equal.
      rewrite drop_drop, length_drop. f_equal.
      replace (length p) with (length p - 64 + 1 * 64) at 2 by lia. rewrite Nat.div_add by lia. lia.
    + rewrite blocks_short, Nat.div_small by lia. by rewrite Nat.mul_0_r.
Qed.

(** The state after the message [m]. *)
Definition md5_at (s : md5_state) (m : list byte) : Prop :=
  count0 s = w32 (8 * Z.of_nat (length m)) /\
  count1 s = w32 (8 * Z.of_nat (length m) / 2 ^ 32) /\
  abcd s = foldl md5_process regs0 (chunks64 m) /\
  length (md5_buf s) = 64 /\
  take (length m mod 64) (md5_buf s) = drop (64 * (length m / 64)) m.

Lemma md5_init_at (buf0 : list byte) : length buf0 = 64 -> md5_at (md5_init buf0) [].
Proof. intros. by split_and!. Qed.

Lemma offset_eq (l : nat) :
  Z.to_nat (Z.land (Z.shiftr (w32 (8 * Z.of_nat l)) 3) 63) = l mod 64.
Proof.
  replace 63%Z with (Z.ones 6) by done. rewrite Z.land_ones by lia. rewrite Z.shiftr_div_pow2 by lia.
  unfold w32. rewrite <- (Nat2Z.id (l mod 64)), Nat2Z.inj_mod. f_equal.
  change (2 ^ 32)%Z with 4294967296%Z. change (2 ^ 3)%Z with 8%Z. change (2 ^ 6)%Z with 64%Z.
  change (Z.of_nat 64) with 64%Z. Z.to_euclidean_division_equations. lia.
Qed.

Lemma counts_eq (l n : nat) : (Z.of_nat n < 2 ^ 28)%Z ->
  let nbits := w32 (Z.shiftl (Z.of_nat n) 3) in
  let c1 := w32 (w32 (8 * Z.of_nat l / 2 ^ 32) + Z.shiftr (Z.of_nat n) 29) in
  let c0 := w32 (w32 (8 * Z.of_nat l) + nbits) in
  c0 = w32 (8 * Z.of_nat (l + n)) /\
  (if decide (c0 < nbits)%Z then w32 (c1 + 1) else c1) = w32 (8 * Z.of_nat (l + n) / 2 ^ 32).
Proof.
  intros Hn. rewrite Z.shiftl_mul_pow2, Z.shiftr_div_pow2 by lia. unfold w32.
  change (2 ^ 28)%Z with 268435456%Z in Hn.
  change (2 ^ 32)%Z with 4294967296%Z. change (2 ^ 3)%Z with 8%Z. change (2 ^ 29)%Z with 536870912%Z.
  rewrite (Z.div_small (Z.of_nat n)) by lia. rewrite (Z.mod_small (Z.of_nat n * 8)) by lia.
  rewrite Nat2Z.inj_add. set (M := 4294967296%Z). set (A := (8 * Z.of_nat l)%Z). set (B := (Z.of_nat n * 8)%Z).
  replace (8 * (Z.of_nat l + Z.of_nat n))%Z with (A + B)%Z by lia. cbv zeta.
  rewrite Zplus_mod_idemp_l. split; [done|]. rewrite Z.add_0_r, Z.mod_mod by done.
  pose proof (Z.div_mod A M ltac:(done)) as HA. pose proof (Z.mod_pos_bound A M ltac:(done)) as Hr.
  set (q := (A / M)%Z) in *. set (r := (A mod M)%Z) in *.
  assert (0 <= B < 2147483648)%Z as HB by lia.
  replace (A + B)%Z with (r + B + q * M)%Z by lia. rewrite Z.mod_add, Z.div_add by done.
  destruct (decide (r + B < M)%Z) as [Hc|Hc].
  - rewrite (Z.mod_small (r + B)), (Z.div_small (r + B)) by lia. rewrite decide_False by lia. f_equal; lia.
  - assert ((r + B) mod M = r + B - M /\ (r + B) / M = 1)%Z as [-> ->].
    { replace (r + B)%Z with (r + B - M + 1 * M)%Z by lia. rewrite Z.mod_add, Z.div_add by done.
      rewrite Z.mod_small, Z.div_small by (unfold M in *; lia). lia. }
    rewrite decide_True by lia. rewrite Zplus_mod_idemp_l. f_equal. lia.
Qed.

(** A position in a message by its block and its offset. *)
Lemma pos_split (l : nat) : exists q o, o < 64 /\ l = 64 * q + o /\ l / 64 = q /\ l mod 64 = o.
Proof.
  exists (l / 64), (l mod 64). pose proof (Nat.div_mod l 64 ltac:(lia)). pose proof (Nat.mod_upper_bound l 64 ltac:(lia)).
  by split_and!.
Qed.

Lemma pos_unique (q o : nat) : o < 64 -> (64 * q + o) / 64 = q /\ (64 * q + o) mod 64 = o.
Proof.
  intros Ho. rewrite Nat.mul_comm. rewrite Nat.div_add_l, Nat.div_small by lia. split; [lia|].
  rewrite Nat.add_comm, Nat.Div0.mod_add, Nat.mod_small by lia. done.
Qed.

Lemma blocks_tail (k : nat) (a t : list byte) : length a = 64 * k -> length t < 64 ->
  chunks64 (a ++ t) = chunks64 a.
Proof. intros Ha Ht. by rewrite (blocks_app k), (blocks_short t), app_nil_r. Qed.

(** The registers and the buffer after more data, when the message so far fills its blocks. *)
Lemma full_blocks_at (k : nat) (m p : list byte) (buf : list byte) :
  length m = 64 * k -> length buf = 64 ->
  let '(r, rem) := full_blocks (length p) (foldl md5_process regs0 (chunks64 m)) p in
  r = foldl md5_process regs0 (chunks64 (m ++ p)) /\ length (mwrite buf 0 rem) = 64 /\
  take (length (m ++ p) mod 64) (mwrite buf 0 rem) = drop (64 * (length (m ++ p) / 64)) (m ++ p).
Proof.
  intros Hm Hb. rewrite full_blocks_eq by lia. rewrite (blocks_app k) by done. rewrite foldl_app.
  destruct (pos_split (length p)) as (q & o & Ho & Hp & Hq & Hmod). rewrite Hq.
  assert (length (drop (64 * q) p) = o) as Hrem by (rewrite length_drop; lia).
  rewrite length_app, Hm, Hp. replace (64 * k + (64 * q + o)) with (64 * (k + q) + o) by lia.
  destruct (pos_unique (k + q) o Ho) as [-> ->]. split_and!; [done|by rewrite length_mwrite by lia|].
  pose proof (take_mwrite buf 0 (drop (64 * q) p)) as E. rewrite Hrem, Nat.add_0_l in E. rewrite E by lia. rewrite take_0, app_nil_l.
  rewrite drop_app_ge by lia. f_equal. lia.
Qed.

(** Data that stays within the last block, and data that completes it. *)
Lemma blocks_within (q o : nat) (m d : list byte) : length m = 64 * q + o -> o + length d < 64 ->
  chunks64 (m ++ d) = chunks64 m.
Proof.
  intros Hm Hd. rewrite <- (take_drop (64 * q) m), <- app_assoc.
  rewrite !(blocks_tail q); rewrite ?length_app, ?length_take, ?length_drop; done || lia.
Qed.

Lemma blocks_fill (q o : nat) (m d : list byte) : length m = 64 * q + o -> o < 64 -> o + length d = 64 ->
  chunks64 (m ++ d) = chunks64 m ++ [drop (64 * q) m ++ d].
Proof.
  intros Hm Ho Hd. rewrite <- (take_drop (64 * q) m) at 1. rewrite <- app_assoc.
  rewrite (blocks_app q) by (rewrite length_take; lia). f_equal.
  - rewrite <- (take_drop (64 * q) m) at 2. by rewrite (blocks_tail q) by (rewrite ?length_take, ?length_drop; lia).
  - assert (length (drop (64 * q) m ++ d) = 64) as Hl by (rewrite length_app, length_drop; lia).
    rewrite blocks_step, (take_ge (_ ++ d)), (drop_ge (_ ++ d)) by lia. done.
Qed.

Lemma md5_append_at (s : md5_state) (m d : list byte) :
  (Z.of_nat (length d) < 2 ^ 28)%Z -> md5_at s m -> exists s', md5_append s d = Ok s' /\ md5_at s' (m ++ d).
Proof.
  intros Hd (Hc0 & Hc1 & Hr & Hb & Ht). unfold md5_append. rewrite decide_False by lia.
  destruct (decide (length d = 0)) as [Hz|Hz].
  { exists s. destruct d; [|done]. rewrite app_nil_r. by split_and!. }
  rewrite Hc0, Hc1, offset_eq. destruct (counts_eq (length m) (length d) Hd) as [E0 E1]. cbv zeta in E0, E1.
  rewrite E1, E0, <- length_app. clear E0 E1.
  destruct (pos_split (length m)) as (q & o & Ho & Hm & Hq & Hmod). rewrite Hmod, Hq in *.
  assert (length (drop (64 * q) m) = o) as Hlt by (rewrite length_drop; lia).
  destruct (decide (o = 0)) as [Ho0|Ho0].
  { pose proof (full_blocks_at q m d (md5_buf s) ltac:(lia) Hb) as Hf. rewrite Hr.
    destruct (full_blocks _ _ _) as [r rem]. destruct Hf as (F1 & F2 & F3). eexists. split; [done|]. by split_and!. }
  set (copy := if decide (64 < o + length d) then 64 - o else length d).
  assert (copy <= length d /\ o + copy <= 64 /\ (o + copy < 64 -> copy = length d)) as (C1 & C2 & C3)
    by (unfold copy; case_decide; lia).
  assert (length (take copy d) = copy) as Hcp by (rewrite length_take; lia).
  set (buf := mwrite (md5_buf s) o (take copy d)).
  assert (length buf = 64) as Hbuf by (unfold buf; rewrite length_mwrite by lia; done).
  assert (take (o + copy) buf = drop (64 * q) m ++ take copy d) as Htk.
  { unfold buf. rewrite <- Ht. rewrite <- Hcp at 1. apply take_mwrite. lia. }
  destruct (decide (o + copy < 64)) as [Hlt64|Hge].
  - rewrite (C3 Hlt64), (take_ge d) in Htk by lia. eexists. split; [done|].
    split_and!; cbn [count0 count1 abcd md5_buf]; try done.
    + by rewrite (blocks_within q o) by lia.
    + rewrite length_app, Hm, <- Nat.add_assoc. destruct (pos_unique q (o + length d)) as [-> ->]; [lia|].
      rewrite Htk. by rewrite drop_app_le by lia.
  - rewrite take_ge in Htk by lia.
    assert (foldl md5_process regs0 (chunks64 (m ++ take copy d)) = md5_process (abcd s) buf) as Er
      by (rewrite (blocks_fill q o), foldl_app, Hr, Htk by lia; done).
    pose proof (full_blocks_at (S q) (m ++ take copy d) (drop copy d) buf ltac:(rewrite length_app; lia) Hbuf) as Hf.
    rewrite Er, full_blocks_eq in Hf by lia. rewrite full_blocks_eq by (rewrite length_drop; lia).
    destruct Hf as (F1 & F2 & F3). rewrite <- app_assoc, take_drop in F1, F3.
    eexists. split; [done|]. by split_and!.
Qed.

Lemma zb_mod (a b : Z) : (a mod 256 = b mod 256)%Z -> zb a = zb b.
Proof. unfold zb. by intros ->. Qed.

(** The bytes of a number of 64 bits from its two words. *)
Lemma length_bytes_eq (m : list byte) :
  word_bytes (w32 (8 * Z.of_nat (length m))) ++ word_bytes (w32 (8 * Z.of_nat (length m) / 2 ^ 32)) = length_bytes m.
Proof.
  unfold length_bytes, word_bytes. cbn [map seq app]. generalize (length m). intros l.
  assert (0 <= 8 * Z.of_nat l)%Z as Hx by lia. generalize dependent (8 * Z.of_nat l)%Z. intros x Hx. unfold w32.
  rewrite !Z.shiftr_div_pow2 by lia. simpl Z.mul. simpl Z.pow. change (2 ^ 32)%Z with 4294967296%Z.
  repeat (apply (f_equal2 cons); [apply zb_mod; Z.to_euclidean_division_equations; lia|]). done.
Qed.

Lemma pad_take (n : nat) : n < 64 -> take (n + 1) pad = x80 :: replicate n x00.
Proof.
  intros Hn. rewrite Nat.add_1_r. unfold pad. cbn [take]. f_equal. rewrite take_replicate. f_equal. lia.
Qed.

Lemma md5_finish_at (s : md5_state) (m : list byte) : md5_at s m -> md5_finish s = Ok (md5_ref m).
Proof.
  intros Hs. unfold md5_finish. pose proof Hs as (Hc0 & Hc1 & _). rewrite Hc0, Hc1, length_bytes_eq.
  assert (Z.to_nat (Z.land (55 - Z.shiftr (w32 (8 * Z.of_nat (length m))) 3) 63) =
          Z.to_nat ((55 - Z.of_nat (length m)) mod 64)) as ->.
  { replace 63%Z with (Z.ones 6) by done. rewrite Z.land_ones, Z.shiftr_div_pow2 by lia. unfold w32.
    change (2 ^ 32)%Z with 4294967296%Z. change (2 ^ 3)%Z with 8%Z. change (2 ^ 6)%Z with 64%Z.
    f_equal. Z.to_euclidean_division_equations. lia. }
  pose proof (Z.mod_pos_bound (55 - Z.of_nat (length m)) 64 ltac:(lia)) as Hk.
  rewrite pad_take by lia. fold (padding m).
  destruct (md5_append_at s m (padding m)) as (s1 & -> & H1);
    [unfold padding; rewrite length_cons, length_replicate; lia|done|].
  destruct (md5_append_at s1 (m ++ padding m) (length_bytes m)) as (s2 & E2 & _ & _ & Hr & _); [done|done|].
  cbn [mbind res_bind]. rewrite E2. cbn [mbind res_bind]. rewrite <- app_assoc in Hr. unfold md5_ref.
  rewrite <- Hr. unfold regs_bytes. by destruct (abcd s2) as [[[a b] c] d].
Qed.

(** Data given in pieces. *)
Fixpoint md5_appends (s : md5_state) (ds : list (list byte)) : res md5_state :=
  match ds with
  | [] => Ok s
  | d :: ds' => s' ← md5_append s d; md5_appends s' ds'
  end.

Lemma md5_appends_at (ds : list (list byte)) (s : md5_state) (m : list byte) :
  Forall (fun d => (Z.of_nat (length d) < 2 ^ 28)%Z) ds -> md5_at s m ->
  exists s', md5_appends s ds = Ok s' /\ md5_at s' (m ++ concat ds).
Proof.
  intros Hd. revert s m. induction Hd as [|d ds Hl _ IH]; intros s m Hs; simpl.
  - rewrite app_nil_r. by exists s.
  - destruct (md5_append_at s m d Hl Hs) as (s1 & -> & H1). cbn [mbind res_bind].
    rewrite app_assoc. by apply IH.
Qed.



Lemma u_md5_eq (m buf0 : list byte) : length buf0 = 64 -> (Z.of_nat (length m) < 2 ^ 28)%Z ->
  u_md5 m buf0 = Hex.u_tohex (md5_ref m) 16.
Proof.
  intros Hb Hm. unfold u_md5. destruct (md5_append_at _ [] m Hm (md5_init_at buf0 Hb)) as (s & -> & Hs).
  cbn [mbind res_bind]. by rewrite (md5_finish_at s m Hs).
Qed.

Lemma md5_ref_length (m : list byte) : length (md5_ref m) = 16.
Proof. unfold md5_ref, regs_bytes. by destruct (foldl _ _ _) as [[[a b] c] d]. Qed.

(** The hexadecimal form of a digest. *)
Lemma tohex_digits (n : nat) (src : list byte) : n <= length src ->
  exists r, Hex.u_tohex src n = Ok r /\ length r = 2 * n /\ forallb isxdigit r = true.
Proof.
  assert (forall c, isxdigit (Hex.u_tochex (Z.land (Z.shiftr (bz c) 4) 15)) = true /\
                    isxdigit (Hex.u_tochex (Z.land (bz c) 15)) = true) as Hx by byte_brute.
  revert src. induction n as [|n IH]; intros src Hn; [by exists []|]. destruct src as [|c src]; [simpl in Hn; lia|].
  cbn [Hex.u_tohex]. destruct (IH src) as (r & -> & Hl & Hr); [simpl in Hn; lia|]. cbn [mbind res_bind].
  eexists. split; [done|]. cbn [length forallb]. destruct (Hx c) as [-> ->]. rewrite Hr. split; [lia|done].
Qed.

(** ** Streams *)

Section stream.
Context {L : Libu} {LM : LibuMem L} {D C : Type} {DO : DevOps D} {DS : DevSource D} {CO : CodecOps C}.

Lemma md5io_loop_at (fuel n : nat) (io : io D C) (s : md5_state) (m : list byte) :
  readable io -> 0 < fuel -> length (instream io) < n -> md5_at s m ->
  exists io' s', md5io_loop fuel n io s = (io', Ok s') /\ md5_at s' (m ++ instream io) /\ instream io' = [].
Proof.
  revert io s m. induction n as [|n IH]; intros io s m Hrd Hf Hn Hs; [lia|]. cbn [md5io_loop].
  assert (0 < N.to_nat 4096 /\ (Z.of_nat (N.to_nat 4096) < 2 ^ 28)%Z) as [Hp Hp'] by (split; [lia|done]).
  generalize dependent (N.to_nat 4096). intros page Hp Hp'.
  destruct (io_read_spec fuel io page Hrd Hf) as (io1 & -> & R1 & R2 & _).
  pose proof (take_drop page (instream io)) as E. rewrite <- R2 in E.
  pose proof (length_take (instream io) page) as Hl.
  destruct (take page (instream io)) as [|b data] eqn:Et.
  - assert (instream io = []) as E0 by (destruct (instream io); [done|simpl in Hl; lia]).
    rewrite E0 in *. exists io1, s. rewrite app_nil_r. by split_and!.
  - destruct (md5_append_at s m (b :: data)) as (s1 & -> & H1); [lia|done|].
    destruct (IH io1 s1 (m ++ b :: data) R1 Hf) as (io' & s' & -> & H2 & H3); [|done|].
    { apply (f_equal length) in E. rewrite length_app in E. simpl in E. lia. }
    exists io', s'. rewrite <- app_assoc, E in H2. by split_and!.
Qed.

(** The digest of a stream is the digest of the bytes it delivers. *)
Theorem md5io_stream (fuel : nat) (io : io D C) (buf0 : list byte) :
  readable io -> 0 < fuel -> length buf0 = 64 ->
  exists io', u_md5io fuel (S (length (instream io))) io buf0 =
                (io', Hex.u_tohex (md5_ref (instream io)) 16) /\ instream io' = [].
Proof.
  intros Hrd Hf Hb. unfold u_md5io.
  destruct (md5io_loop_at fuel (S (length (instream io))) io _ [] Hrd Hf ltac:(lia) (md5_init_at buf0 Hb))
    as (io' & s' & -> & H & H'). exists io'. cbn [mbind res_bind]. rewrite (md5_finish_at s' _ H). done.
Qed.
End stream.

(** The loop of [u_md5io] does not end when the stream fails: the count is unsigned,
    so the -1 of a failed read counts as more data, and the stream is read again for as
    long as it fails. *)
Theorem md5io_error_loops {L : Libu} {D C : Type} {DO : DevOps D} {CO : CodecOps C}
    (bad : io D C -> Prop) (fuel n : nat) (io : io D C) (buf0 : list byte) :
  (forall j, bad j -> exists j', io_read fuel j (N.to_nat 4096) = (j', Fail) /\ bad j') -> bad io ->
  (u_md5io fuel n io buf0).2 = Timeout.
Proof.
  intros Hbad Hi. unfold u_md5io. generalize (md5_init buf0). intros s.
  assert (exists io', md5io_loop fuel n io s = (io', Timeout)) as [io' ->]; [|done].
  revert io Hi. induction n as [|n IH]; intros io Hi; cbn [md5io_loop]; [eauto|].
  destruct (Hbad io Hi) as (io1 & -> & H1). by apply IH.
Qed.

(** A device whose reads fail. *)
Inductive broken_dev : Set := Broken.

#[local] Instance broken_ops : DevOps broken_dev := {|
  dev_read := fun d _ => (d, None);
  dev_write := fun d _ => (d, None);
  dev_seek := fun d _ => (d, None);
  dev_tell := fun _ => None;
  dev_close := fun d => (d, true)
|}.

Definition broken_io : io broken_dev no_codec := io_prv_create Broken.

(** Nothing buffered and not at the end. *)
Definition drained (j : io broken_dev no_codec) : Prop :=
  rcount (io_r j) = 0 /\ ucount (io_r j) = 0 /\ io_eof (io_r j) = false.

Lemma broken_read {L : Libu} {LM : LibuMem L} (fuel size : nat) (j : io broken_dev no_codec) :
  drained j -> 0 < fuel -> 0 < size -> exists j', io_read fuel j size = (j', Fail) /\ drained j'.
Proof.
  intros (Hr & Hu & He) Hf Hs. unfold io_read. rewrite He. cbn [read_loop]. rewrite decide_False, decide_True by lia.
  destruct fuel as [|fuel]; [lia|]. unfold io_underflow, drained.
  destruct (r_alloc (io_r j)); [|unfold io_rbuf_alloc; rewrite u_alloc_ok];
    cbn [underflow_loop set_r io_r rcount ucount]; rewrite Hr, Hu; eauto.
Qed.

Lemma md5io_error_loops_witness : (u_md5io (L:=libu_ref) 1 1000 broken_io (replicate 64 x00)).2 = Timeout.
Proof.
  apply (md5io_error_loops (L:=libu_ref) drained); [|done].
  intros j Hj. by apply (broken_read (L:=libu_ref)); [|lia|lia].
Defined.
