(* ===== verification/Session.v ===== *)
(** Sessions: src/src/libpage/session.c, with src/klone/ses_prv.h.

    A session is a list of variables with an identifier that the client keeps in a cookie.
    The module works on a driver (memory, files) through the pointers [load], [save],
    [remove]; the driver is an interface here ([SesDriver]) with the contract that the
    module relies on ([SesStore]).  Variables are saved one per line, name and value URL
    encoded.  The model is the build without SSL_ON: no key variable, no client-side
    sessions ([SesCode] and [SesClient] have them); the codecs that a session is saved and
    loaded through are parameters. *)

From S2P Require Import Prelude Libu Encode Path Date Io IoSpec IoMem Getline Header Vars Request Response Md5.

Definition SESSION_ID_LENGTH : nat := 32.

Record session := mkSess {
  ss_vars : vars;
  ss_filename : list byte;
  ss_id : list byte;
  ss_removed : bool;
  ss_mtime : Z
}.

Definition set_ss_vars (ss : session) (v : vars) : session :=
  let 'mkSess _ b c d e := ss in mkSess v b c d e.
Definition set_ss_filename (ss : session) (v : list byte) : session :=
  let 'mkSess a _ c d e := ss in mkSess a v c d e.
Definition set_ss_id (ss : session) (v : list byte) : session :=
  let 'mkSess a b _ d e := ss in mkSess a b v d e.
Definition set_ss_removed (ss : session) (v : bool) : session :=
  let 'mkSess a b c _ e := ss in mkSess a b c v e.
Definition set_ss_mtime (ss : session) (v : Z) : session :=
  let 'mkSess a b c d _ := ss in mkSess a b c d v.

(** The options of the module and what it takes from the request and the system: the name
    of the cookie, the directory of the files, the greatest age; the cookies and the local
    address of the request; the time, the process and a random number. *)
Record ses_env := mkEnv {
  so_name : list byte;
  so_path : list byte;
  so_max_age : Z;
  rq_cookies : vars;
  rq_addr : list byte;
  now : Z;
  now_usec : Z;
  pid : Z;
  rnd : Z
}.

(** ** Saving and loading *)

Section serial.
Context {L : Libu} {D C : Type} {DO : DevOps D} {CO : CodecOps C}.
Variables save_codecs load_codecs : list C.

(** The bytes that [session_prv_calc_maxsize] adds for a variable. *)
Definition session_prv_calc_maxsize (v : var) (sz : nat) : nat :=
  sz + (3 * length (var_get_name v) + 3) +
  match var_get_value v with Some d => 3 * length (cstr d) + 1 | None => 0 end.

(** The value is encoded with its size, so the NUL that ends a text is encoded too. *)
Definition session_prv_save_var (fuel : nat) (v : var) (io : io D C) : Io.io D C * res unit :=
  let nsz := 1 + 3 * length (var_get_name v) in
  let vsz := 1 + 3 * var_get_value_size v in
  if bool_decide (NAMESZ <= nsz) && negb (u_alloc nsz) then (io, Fail) else
  match Url.u_urlncpy (var_get_name v ++ [x00]) (length (var_get_name v)) COPY_ENCODE with
  | Ok uname =>
      if decide (uname = []) then (io, Fail) else
      match var_get_value v with
      | Some d =>
          if bool_decide (VALSZ <= vsz) && negb (u_alloc vsz) then (io, Fail) else
          match Url.u_urlncpy d (var_get_value_size v) COPY_ENCODE with
          | Ok uvalue =>
              if decide (uvalue = []) then (io, Fail) else
              io_printf fuel io (uname ++ bs "=" ++ uvalue ++ [x0a])
          | Fail => (io, Fail)
          | Fault => (io, Fault)
          | Timeout => (io, Timeout)
          end
      | None => io_printf fuel io (uname ++ bs "=" ++ [x0a])
      end
  | Fail => (io, Fail)
  | Fault => (io, Fault)
  | Timeout => (io, Timeout)
  end.

(** The callback of [vars_foreach]: a failure stops it. *)
Definition save_cb (fuel : nat) (v : var) (s : io D C * res unit) : (io D C * res unit) * bool :=
  let '(io, r) := session_prv_save_var fuel v s.1 in
  ((io, r), match r with Ok _ => false | _ => true end).

(** What [dbg_if] or an ignored return does with an outcome. *)
Definition ignored {A} (r : res A) : res unit :=
  match r with Ok _ | Fail => Ok tt | Fault => Fault | Timeout => Timeout end.

Definition session_prv_save_to_io (fuel : nat) (ss : session) (out : io D C) : io D C * res unit :=
  let out := foldl io_codec_add_tail out save_codecs in
  let '(out1, r) := vars_foreach (ss_vars ss) (save_cb fuel) (out, Ok tt) in
  let '(out2, r2) := io_codecs_remove fuel out1 in
  (out2, _ ← ignored r; ignored r2).

(** The [while] of [session_prv_load_from_io]. *)
Fixpoint load_vars_loop (fuel n : nat) (vs : vars) (io : io D C) : vars * Io.io D C * res unit :=
  match n with
  | 0 => (vs, io, Timeout)
  | S n' =>
      let '(io1, line, r) := u_getline fuel fuel io in
      match r with
      | Ok _ =>
          if decide (line = []) then load_vars_loop fuel n' vs io1 else
          let '(vs1, o) := vars_add_urlvar vs (cstr line) in
          match o with
          | Ok _ => load_vars_loop fuel n' vs1 io1
          | Fail => (vs1, io1, Fail)
          | Fault => (vs1, io1, Fault)
          | Timeout => (vs1, io1, Timeout)
          end
      | Fail => (vs, io1, Ok tt)
      | Fault => (vs, io1, Fault)
      | Timeout => (vs, io1, Timeout)
      end
  end.

Definition session_prv_load_from_io (fuel n : nat) (ss : session) (io : io D C) : session * Io.io D C * res unit :=
  let io := foldl io_codec_add_tail io load_codecs in
  let '(vs, io1, r) := load_vars_loop fuel n (ss_vars ss) io in
  let '(io2, r2) := io_codecs_remove fuel io1 in
  (set_ss_vars ss vs, io2, a ← r; _ ← ignored r2; Ok a).
End serial.

Section buffers.
Context {L : Libu} {C : Type} {CO : CodecOps C}.
Variables save_codecs load_codecs : list C.

(** [io_tell] answers -1 when the last flush fails, which becomes a huge size. *)
Definition session_prv_save_to_buf (fuel : nat) (ss : session) : res (list byte) :=
  let sz := vars_foreach (ss_vars ss) (fun v sz => (session_prv_calc_maxsize v sz, false)) 0 in
  if u_alloc sz then
    let io := io_mem_create (C:=C) (replicate sz x00) sz false in
    let '(io1, r) := session_prv_save_to_io save_codecs fuel ss io in
    _ ← r;
    let '(io2, r2) := io_codecs_remove fuel io1 in
    _ ← r2;
    let '(io3, r3) := io_tell io2 in
    match r3 with
    | Ok n => Ok (take n (io_mem_get_buf io3))
    | Fail => Fault
    | Fault => Fault
    | Timeout => Timeout
    end
  else Fail.

Definition session_prv_load_from_buf (fuel n : nat) (ss : session) (buf : list byte) : session * res unit :=
  let io := io_mem_create (C:=C) buf (length buf) false in
  let '(ss1, _, r) := session_prv_load_from_io load_codecs fuel n ss io in (ss1, r).
End buffers.

(** ** Variables of a session *)

Section ses_vars.
Context {L : Libu}.

(** [var_get_value] of the first variable of the name, as a C string. *)
Definition session_get (ss : session) (name : list byte) : res (option (list byte)) :=
  o ← vars_get (ss_vars ss) name;
  Ok (o ≫= fun kv => cstr <$> var_get_value kv.2).

Definition session_set (name value : list byte) : prog session unit := fun ss =>
  if decide (name = []) then (ss, Fail) else
  match vars_get (ss_vars ss) name with
  | Ok None =>
      match var_create name value with
      | Ok v => let '(vs, r) := vars_add (ss_vars ss) v in (set_ss_vars ss vs, r)
      | _ => (ss, Fail)
      end
  | Ok (Some (k, v)) =>
      let '(v', r) := var_set_value v value in
      (set_ss_vars ss (mkVars (<[k := v']> (v_list (ss_vars ss))) (v_foreign (ss_vars ss))), r)
  | Fail => (ss, Fail)
  | Fault => (ss, Fault)
  | Timeout => (ss, Timeout)
  end.

Definition session_del (name : list byte) : prog session unit := fun ss =>
  match vars_get (ss_vars ss) name with
  | Ok None => (ss, Fail)
  | Ok (Some (k, _)) => (set_ss_vars ss (vars_del (ss_vars ss) k), Ok tt)
  | Fail => (ss, Fail)
  | Fault => (ss, Fault)
  | Timeout => (ss, Timeout)
  end.

(** The [while] of [session_clean]. *)
Fixpoint clean_loop (fuel : nat) (vs : vars) : vars * res unit :=
  match vars_getn vs 0 with
  | None => (vs, Ok tt)
  | Some _ =>
      match fuel with
      | 0 => (vs, Timeout)
      | S fuel' => clean_loop fuel' (vars_del vs 0)
      end
  end.
Definition session_clean : prog session unit := fun ss =>
  let '(vs, r) := clean_loop (vars_count (ss_vars ss)) (ss_vars ss) in (set_ss_vars ss vs, r).

(** [(int)(now - ss->mtime)] *)
Definition session_age (env : ses_env) (ss : session) : Z := i32 (now env - ss_mtime ss).
End ses_vars.

(** ** The life of a session *)

(** The pointers [load], [save], [remove] and [term] of a session, and the constructor of
    the driver, which gives the time of the last change after [session_prv_init]. *)
Class SesDriver (St : Type) := {
  drv_load : ses_env -> St -> session -> St * session * res unit;
  drv_save : ses_env -> St -> session -> St * session * res unit;
  drv_remove : ses_env -> St -> session -> St * session * res unit;
  drv_mtime : ses_env -> St -> session -> Z
}.

(** What the functions of the module change: the session, the response that gets the
    cookies and the driver's storage. *)
Record world (St D C : Type) := mkWorld {
  w_ss : session;
  w_rs : response D C;
  w_store : St
}.
Arguments mkWorld {St D C} _ _ _.
Arguments w_ss {St D C} _.
Arguments w_rs {St D C} _.
Arguments w_store {St D C} _.

(** [session_is_good_id]: as long as an identifier and made of hex digits. *)
Definition session_is_good_id (id : list byte) : bool :=
  bool_decide (length id = SESSION_ID_LENGTH) && forallb isxdigit id.

Section life.
Context {L : Libu} {St D C : Type} {SD : SesDriver St} {DO : DevOps D} {CO : CodecOps C}.
Variable FILENAME_MAX : nat.          (* U_FILENAME_MAX of libu *)
Variable env : ses_env.
Abbreviation wprog A := (prog (world St D C) A).

Definition on_ss {A} (m : prog session A) : wprog A := fun w =>
  let '(ss, r) := m (w_ss w) in (mkWorld ss (w_rs w) (w_store w), r).
Definition on_rs {A} (m : prog (response D C) A) : wprog A := fun w =>
  let '(rs, r) := m (w_rs w) in (mkWorld (w_ss w) rs (w_store w), r).
Definition on_drv (f : ses_env -> St -> session -> St * session * res unit) : wprog unit := fun w =>
  let '(st, ss, r) := f env (w_store w) (w_ss w) in (mkWorld ss (w_rs w) st, r).

Definition session_set_filename : prog session unit :=
  let! ss := pget in
  if decide (ss_id ss = []) then pfail else
  match u_path_snprintf (so_path env ++ bs "/klone_sess_" ++ ss_id ss ++ bs "_" ++ rq_addr env)
          FILENAME_MAX SLASH with
  | Some f => pmod (fun ss => set_ss_filename ss f)
  | None => pfail
  end.

(** "%lu%u%lu%d" of seconds, process, microseconds and random number *)
Definition sid_text : list byte :=
  fmt_lu (w64 (now env)) ++ fmt_u (u32 (pid env)) ++ fmt_lu (w64 (now_usec env)) ++ fmt_d (rnd env).

Definition session_gen_id : wprog unit :=
  on_ss (pmod (fun ss => set_ss_id ss []));;;
  let '(buf, trunc) := u_snprintf sid_text (N.to_nat 257) in
  pguard (negb trunc);;;
  let! id := plift (u_md5 buf (replicate 64 x00)) in
  on_ss (pmod (fun ss => set_ss_id ss id));;;
  on_rs (response_set_cookie (so_name env) None 0 None None false);;;
  on_rs (response_set_cookie (so_name env) (Some id) 0 None None false).

Definition session_prv_set_id (sid : option (list byte)) : wprog unit :=
  match sid with
  | Some id =>
      if session_is_good_id id then
        let '(buf, trunc) := u_snprintf id (S SESSION_ID_LENGTH) in
        on_ss (pmod (fun ss => set_ss_id ss buf));;;
        pguard (negb trunc)
      else session_gen_id
  | None => session_gen_id
  end;;;
  on_ss session_set_filename.

Definition session_load : wprog unit := on_drv drv_load.

Definition session_remove : wprog unit :=
  pignore (on_rs (response_set_cookie (so_name env) None 0 None None false));;;
  on_ss (pmod (fun ss => set_ss_removed ss true));;;
  on_drv drv_remove.

Definition session_save : wprog unit :=
  let! w := pget in
  let ss := w_ss w in
  if decide (vars_count (ss_vars ss) = 0) then
    if decide (ss_id ss = []) then pret tt else session_remove
  else
    (if decide (ss_id ss = []) then session_prv_set_id None else pret tt);;;
    on_drv drv_save.

(** [request_get_cookie(ss->rq, ss->so->name)] *)
Definition request_get_cookie : res (option (list byte)) :=
  o ← vars_get (rq_cookies env) (so_name env);
  Ok (o ≫= fun kv => cstr <$> var_get_value kv.2).

(** The session starts zeroed, with an empty list of variables. *)
Definition session_prv_init : wprog unit :=
  on_ss (pmod (fun ss => set_ss_vars ss vars_create));;;
  let! sid := plift request_get_cookie in
  match sid with
  | Some id => session_prv_set_id (Some id)
  | None => pret tt
  end.

Definition session_free : wprog unit :=
  let! w := pget in
  if ss_removed (w_ss w) then pret tt else pignore session_save.

(** The driver's constructor and the rest of [session_create]; a failure frees the session. *)
Definition ses_zero : session := mkSess vars_create [] [] false 0.

Definition driver_create : wprog unit :=
  on_ss (pmod (fun _ => ses_zero));;;
  pelse (session_prv_init;;;
         let! w := pget in
         on_ss (pmod (fun ss => set_ss_mtime ss (drv_mtime env (w_store w) (w_ss w)))))
        (session_free;;; pfail).

Definition session_create : wprog unit :=
  driver_create;;;
  let! w := pget in
  if decide (ss_id (w_ss w) = []) then pret tt else
  pignore session_load;;;
  let! w := pget in
  if decide (so_max_age env < session_age env (w_ss w))%Z then
    pignore (on_ss session_clean);;;
    pignore session_remove
  else pret tt.
End life.

(** ** What is saved *)

(** A variable with a name and a value as the functions of var.c leave it. *)
Definition saveable (v : var) : Prop :=
  var_ok v /\ is_Some (v_data v) /\ v_sname v <> [] /\ (x00 ∉ v_sname v).

Definition var_line (v : var) : list byte := encode_pair (v_sname v) (var_bytes v).

(** The text of a session. *)
Definition session_text (vs : list var) : list byte := concat (map (fun v => var_line v ++ [x0a]) vs).

(** What a variable is after it was saved and loaded. *)
Definition reloaded (v : var) : var := fresh_var (v_sname v) (var_bytes v).

Lemma saveable_data (v : var) : saveable v ->
  v_data v = Some (var_bytes v ++ [x00]) /\ length (var_bytes v) = v_size v /\ var_bytes v <> [].
Proof.
  intros (Hok & [d Hd] & _). unfold var_ok, var_bytes in *. rewrite Hd in *. simpl.
  destruct Hok as (Hl & Hlast & Hs). assert (length (take (v_size v) d) = v_size v) as Ht by (rewrite length_take; lia).
  split_and!; [|done|intros E; rewrite E in Ht; simpl in Ht; lia].
  f_equal. apply last_Some in Hlast as [d' ->]. rewrite length_app in Hl. simpl in Hl.
  by rewrite take_app_length' by lia.
Qed.

Lemma enc_nonempty (s : list byte) : s <> [] -> flat_map Url.url_encode_char s <> [].
Proof.
  destruct s as [|c s]; [done|]. simpl. intros _ E. apply app_eq_nil in E as [E _]. by eapply url_encode_char_ne.
Qed.

Lemma enc_plain (s : list byte) : (x0a ∉ flat_map Url.url_encode_char s) /\ (x00 ∉ flat_map Url.url_encode_char s).
Proof.
  assert (forall c, (x0a ∉ Url.url_encode_char c) /\ (x00 ∉ Url.url_encode_char c)) as H by byte_brute.
  induction s as [|c s IH]; simpl; [set_solver|]. specialize (H c). set_solver.
Qed.

Lemma var_line_plain (v : var) : (x0a ∉ var_line v) /\ (x00 ∉ var_line v) /\ var_line v <> [].
Proof.
  unfold var_line, encode_pair. pose proof (enc_plain (v_sname v)). pose proof (enc_plain (var_bytes v)).
  split_and!; [set_solver|set_solver|]. by destruct (flat_map _ (v_sname v)).
Qed.

Section save_spec.
Context {L : Libu} {LS : LibuSpec L} {LM : LibuMem L} {D C : Type} {DO : DevOps D} {DK : DevSink D} {CO : CodecOps C}.

(** A variable that can be saved is printed as its line. *)
Lemma save_var_prints (fuel : nat) (v : var) (io : io D C) : saveable v ->
  session_prv_save_var fuel v io = io_printf fuel io (var_line v ++ [x0a]).
Proof.
  intros Hv. destruct (saveable_data v Hv) as (Hd & Hl & Hne). destruct Hv as (_ & _ & Hn & Hz).
  unfold session_prv_save_var, var_get_name, var_get_value, var_get_value_size. rewrite cstr_id by done.
  rewrite !u_alloc_ok, !andb_false_r, Hd. unfold Url.u_urlncpy.
  rewrite Url.url_encode_total. rewrite <- Hl, Url.url_encode_total.
  rewrite !decide_False by (by apply enc_nonempty). unfold var_line, encode_pair. by rewrite <- !app_assoc.
Qed.

Lemma save_loop_spec (fuel m : nat) (vs : list var) (io : io D C) :
  Forall saveable vs -> writable io -> room io (length (session_text vs) + m) -> length (session_text vs) <= fuel ->
  exists io', foreach_loop (save_cb fuel) vs (io, Ok tt) = (io', Ok tt) /\ writable io' /\ room io' m /\
    outstream io' = outstream io ++ session_text vs /\ same_but_write io io'.
Proof.
  intros Hvs. revert io. induction Hvs as [|v vs Hv _ IH]; intros io Hw Hr Hf.
  { exists io. rewrite app_nil_r. by split_and!. }
  unfold session_text in Hr, Hf |- *. cbn [map concat] in *. fold (session_text vs) in *.
  rewrite length_app in Hr, Hf. cbn [foreach_loop]. unfold save_cb at 1. cbn [fst].
  rewrite save_var_prints by done.
  destruct (io_printf_spec fuel io (var_line v ++ [x0a]) (length (session_text vs) + m)) as
    (io1 & -> & W1 & R1 & O1 & S1 & S2 & S3 & S4); [done|by rewrite Nat.add_assoc|lia|].
  destruct (IH io1 W1 R1 ltac:(lia)) as (io2 & -> & W2 & R2 & O2 & T1 & T2 & T3 & T4).
  exists io2. split_and!; try done; [by rewrite O2, O1, <- (app_assoc (outstream io))|].
  unfold same_but_write in *. split_and!; congruence.
Qed.

Lemma save_to_io_spec (fuel m : nat) (ss : session) (io : io D C) :
  let vs := v_list (ss_vars ss) in
  Forall saveable vs -> writable io -> room io (length (session_text vs) + m) -> length (session_text vs) <= fuel ->
  exists io', session_prv_save_to_io [] fuel ss io = (io', Ok tt) /\ writable io' /\ room io' m /\
    outstream io' = outstream io ++ session_text vs /\ same_but_write io io'.
Proof.
  intros vs Hvs Hw Hr Hf. unfold session_prv_save_to_io. cbn [foldl]. unfold vars_foreach.
  destruct (save_loop_spec fuel m vs io Hvs Hw Hr Hf) as (io' & E & W & R & O & S).
  fold vs. rewrite E. unfold io_codecs_remove. rewrite (proj2 W). by exists io'.
Qed.
End save_spec.

Section load_spec.
Context {L : Libu} {LS : LibuSpec L} {LM : LibuMem L} {D C : Type} {DO : DevOps D} {DS : DevSource D} {CO : CodecOps C}.

Lemma load_vars_loop_lines (P : io D C -> list byte -> Prop) (fuel n : nat) (vs0 : list var) (vs : vars) (io : io D C) :
  Forall saveable vs0 -> Forall (fun v => length (var_line v) <= LINE_MAX) vs0 ->
  line_source P fuel -> P io (session_text vs0) -> 0 < fuel -> length vs0 < n ->
  exists io', load_vars_loop fuel n vs io =
    (mkVars (v_list vs ++ map reloaded vs0) (v_foreign vs), io', Ok tt) /\ P io' [].
Proof.
  intros Hs Hlen HP. revert n vs io. induction Hs as [|v vs0 Hv _ IH]; intros n vs io Hi Hf Hn;
    (destruct n as [|n]; [simpl in Hn; lia|]); cbn [load_vars_loop].
  - destruct (getline_end P fuel fuel io HP Hi Hf) as (io1 & -> & R1). exists io1.
    rewrite app_nil_r. by destruct vs.
  - apply Forall_cons in Hlen as [Hl Hlen]. destruct (var_line_plain v) as (P1 & P2 & P3).
    unfold session_text in Hi. cbn [map concat] in Hi. rewrite <- app_assoc in Hi.
    destruct (getline_loop_short P fuel fuel io [] (var_line v) (session_text vs0) HP Hi Hf P1 Hl) as (io1 & E & R1).
    unfold u_getline. rewrite E. cbn [app].
    rewrite decide_False, cstr_id by done. rewrite vars_add_urlvar_eq.
    2: { unfold LINE_MAX in Hl. rewrite GETLINE_BUFSZ_val in Hl. unfold SIZE_MOD. lia. }
    destruct (saveable_data v Hv) as (_ & _ & Hne). destruct Hv as (_ & _ & Hn0 & Hz).
    unfold var_line. rewrite urlvar_encode by done. unfold var_data. rewrite decide_False by done.
    fold (reloaded v).
    destruct (IH Hlen n (mkVars (v_list vs ++ [reloaded v]) (v_foreign vs)) io1 R1 Hf) as (io' & -> & Hio);
      [simpl in Hn; lia|]. exists io'. cbn [map v_list v_foreign]. by rewrite <- app_assoc.
Qed.

Lemma load_from_io_spec (fuel n : nat) (vs0 : list var) (ss : session) (io : io D C) :
  Forall saveable vs0 -> Forall (fun v => length (var_line v) <= LINE_MAX) vs0 ->
  readable io -> instream io = session_text vs0 -> 0 < fuel -> length vs0 < n ->
  exists io', session_prv_load_from_io [] fuel n ss io =
    (set_ss_vars ss (vars_app (ss_vars ss) (map reloaded vs0)), io', Ok tt).
Proof.
  intros Hs Hlen Hrd Hi Hf Hn. unfold session_prv_load_from_io. cbn [foldl].
  destruct (load_vars_loop_lines _ fuel n vs0 (ss_vars ss) io Hs Hlen (readable_source fuel Hf) (conj Hrd Hi) Hf Hn) as (io' & -> & R & _).
  unfold io_codecs_remove. rewrite (proj1 (proj2 R)). by exists io'.
Qed.
End load_spec.

(** The size that is set aside for a variable. *)
Definition var_room (v : var) : nat :=
  3 * length (var_get_name v) + 3 + match var_get_value v with Some d => 3 * length (cstr d) + 1 | None => 0 end.

Lemma maxsize_eq (vs : list var) (sz : nat) :
  foreach_loop (fun v sz => (session_prv_calc_maxsize v sz, false)) vs sz = sz + sum_list (map var_room vs).
Proof.
  revert sz. induction vs as [|v vs IH]; intros sz; cbn [foreach_loop map sum_list sum_list_with]; [lia|].
  rewrite IH. unfold session_prv_calc_maxsize, var_room. simpl. lia.
Qed.

(** A text: no NUL but the one that ends it. *)
Definition text_var (v : var) : Prop := saveable v /\ exists t, var_bytes v = t ++ [x00] /\ (x00 ∉ t).

(** Some character of the name or the value needs no escape. *)
Definition has_plain (s : list byte) : bool := existsb (fun c => bool_decide (length (Url.url_encode_char c) = 1)) s.

Lemma enc_char_length (c : byte) : length (Url.url_encode_char c) = 1 \/ length (Url.url_encode_char c) = 3.
Proof. revert c. byte_brute. Qed.

Lemma enc_length (s : list byte) :
  length (flat_map Url.url_encode_char s) + (if has_plain s then 2 else 0) <= 3 * length s.
Proof.
  induction s as [|c s IH]; simpl; [lia|]. rewrite length_app. unfold has_plain in *. simpl.
  destruct (enc_char_length c) as [E|E]; rewrite E; simpl; [destruct (existsb _ s); lia|].
  destruct (existsb _ s); lia.
Qed.

Lemma text_var_room (v : var) : text_var v -> has_plain (v_sname v ++ var_bytes v) = true ->
  length (var_line v ++ [x0a]) <= var_room v.
Proof.
  intros [Hv (t & Ht & Hz)] Hp. destruct (saveable_data v Hv) as (Hd & _ & _). destruct Hv as (_ & _ & _ & Hz').
  unfold var_room, var_get_name, var_get_value. rewrite Hd, cstr_id by done. rewrite Ht.
  rewrite <- app_assoc. change ([x00] ++ [x00]) with (x00 :: [x00]).
  assert (cstr (t ++ x00 :: [x00]) = t) as ->.
  { clear -Hz. induction t as [|c t IH]; simpl; [done|]. rewrite decide_False by set_solver. f_equal. apply IH. set_solver. }
  unfold var_line, encode_pair. rewrite !length_app. cbn [length]. pose proof (enc_length (v_sname v ++ var_bytes v)) as He.
  rewrite Hp, flat_map_app, Ht, flat_map_app, !length_app in He. rewrite Ht, flat_map_app, length_app.
  change (length (flat_map Url.url_encode_char [x00])) with 3 in *. simpl length in *. lia.
Qed.

Section buf_spec.
Context {L : Libu} {LS : LibuSpec L} {LM : LibuMem L} {C : Type} {CO : CodecOps C}.

Lemma save_to_buf_spec (fuel : nat) (ss : session) :
  let vs := v_list (ss_vars ss) in
  Forall saveable vs -> length (session_text vs) <= sum_list (map var_room vs) -> length (session_text vs) <= fuel ->
  session_prv_save_to_buf (C:=C) [] fuel ss = Ok (session_text vs).
Proof.
  intros vs Hvs Hl Hf. unfold session_prv_save_to_buf, vars_foreach. fold vs. rewrite maxsize_eq, Nat.add_0_l.
  set (sz := sum_list (map var_room vs)) in *. rewrite u_alloc_ok.
  set (io := io_mem_create (replicate sz x00) sz false).
  destruct (save_to_io_spec fuel 0 ss io) as (io1 & -> & W & R & O & _); [done|by split| |done|].
  { unfold room. simpl. rewrite length_replicate. fold vs. lia. }
  cbn [mbind res_bind]. unfold io_codecs_remove. rewrite (proj2 W). cbn [mbind res_bind]. unfold io_tell.
  destruct (io_flush_spec io1 0 W R) as (io2 & -> & F1 & F2 & F3 & F4 & F5 & F6). simpl of_option.
  unfold outstream in F4 at 1. rewrite F2, mread_0, app_nil_r, O in F4. simpl sunk in F4.
  unfold io_mem_get_buf. f_equal. etrans; [exact F4|]. unfold outstream. simpl. by rewrite mread_0.
Qed.
End buf_spec.

Section buf_load.
Context {L : Libu} {LS : LibuSpec L} {LM : LibuMem L} {C : Type} {CO : CodecOps C}.

Lemma load_from_buf_spec (fuel n : nat) (vs : list var) (ss : session) :
  Forall saveable vs -> Forall (fun v => length (var_line v) <= LINE_MAX) vs -> 0 < fuel -> length vs < n ->
  session_prv_load_from_buf (C:=C) [] fuel n ss (session_text vs) =
    (set_ss_vars ss (vars_app (ss_vars ss) (map reloaded vs)), Ok tt).
Proof.
  intros Hs Hl Hf Hn. unfold session_prv_load_from_buf. destruct (mem_readable (C:=C) (session_text vs)) as [Hr Hi].
  by destruct (load_from_io_spec fuel n vs ss _ Hs Hl Hr Hi Hf Hn) as (io' & ->).
Qed.

(** A text that fits the write buffer stays there. *)
Lemma write_buffered {D : Type} {DO : DevOps D} (fuel : nat) (i : io D C) (text : list byte) :
  io_codecs i = [] -> w_alloc (io_w i) = false -> wcount (io_w i) = 0 ->
  0 < length text <= IO_WR_BUFSZ -> 0 < fuel ->
  io_printf fuel i text =
    (set_w i (mkWside true (mwrite (replicate IO_WR_BUFSZ x00) 0 text) IO_WR_BUFSZ (length text)), Ok tt).
Proof.
  intros Hc Ha Hw Hl Hf.
  assert (io_write fuel i text = (set_w i (mkWside true (mwrite (replicate IO_WR_BUFSZ x00) 0 text) IO_WR_BUFSZ
    (length text)), Ok (length text))) as Ew.
  { unfold io_write. rewrite Ha. unfold io_wbuf_alloc. rewrite u_alloc_ok, Hw. destruct fuel as [|fuel]; [lia|].
    destruct text as [|b text]; [simpl in Hl; lia|]. cbn [write_loop]. unfold flush_if_full.
    cbn [set_w io_w wbsz wcount io_codecs]. rewrite decide_False by lia.
    cbn [set_w io_w wbsz wcount io_codecs]. rewrite Hc. unfold io_transfer. rewrite Nat.sub_0_r, Nat.min_l by lia.
    rewrite take_ge, drop_ge by lia. rewrite decide_False by (by intros [_ ?]).
    destruct i. simpl in *. subst. by destruct fuel. }
  unfold io_printf. rewrite u_alloc_ok, Ew. case_decide; [done|].
  rewrite decide_False by (intros ->; simpl in Hl; lia). done.
Qed.

Lemma mem_write_part (buf text : list byte) (sz off : nat) (f : bool) : sz - off <= length text ->
  io_mem_write (mkIoMem buf sz off f) text =
    (mkIoMem (mwrite buf off (take (sz - off) text)) sz (off + (sz - off)) f, Some (sz - off)).
Proof. intros H. unfold io_mem_write. cbn [m_buf m_size m_off m_free_buf]. by rewrite Nat.min_r. Qed.

(** A text that the memory has no room for: what fits is written, and no error is seen. *)
Lemma mem_truncates (fuel sz : nat) (text : list byte) :
  0 < sz < length text -> length text <= IO_WR_BUFSZ -> 0 < fuel ->
  exists io1 io2, io_printf fuel (io_mem_create (C:=C) (replicate sz x00) sz false) text = (io1, Ok tt) /\
    io_codecs io1 = [] /\ io_tell io1 = (io2, Ok sz) /\ take sz (io_mem_get_buf io2) = take sz text.
Proof.
  intros Hsz Hl Hf. rewrite write_buffered by (done || lia). set (io1 := set_w _ _).
  pose proof (mread_mwrite (replicate IO_WR_BUFSZ x00) 0 (length text) text ltac:(lia) eq_refl) as E.
  set (buf := mwrite (replicate sz x00) 0 (take sz text)).
  assert (io_flush io1 = (set_dev (set_w io1 (mkWside true (wbuf (io_w io1)) IO_WR_BUFSZ (length text - sz)))
    (mkIoMem (mwrite buf sz []) sz sz false), Ok tt)) as Ef.
  { apply (flush_stops io1 (mkIoMem buf sz sz false) _ sz); cbn [io1 set_w io_w wcount wbuf io_dev].
    - lia.
    - rewrite E. etrans; [apply mem_write_part; lia|]. by rewrite Nat.sub_0_r.
    - etrans; [apply mem_write_part; lia|]. by rewrite Nat.sub_diag, Nat.add_0_r. }
  exists io1. unfold io_tell. rewrite Ef. eexists. split_and!; [done|done|done|].
  cbn [io_mem_get_buf set_dev io_dev m_buf].
  assert (length buf = sz) as Hb by (unfold buf; rewrite length_mwrite; rewrite length_replicate, ?length_take; lia).
  pose proof (take_mwrite buf sz []) as T. cbn [length] in T. rewrite Nat.add_0_r in T. rewrite T, app_nil_r by lia.
  pose proof (take_mwrite (replicate sz x00) 0 (take sz text)) as T2. rewrite length_take, Nat.min_l in T2 by lia.
  apply T2. lia.
Qed.
End buf_load.

(** ** Variables *)

Section get_set.
Context {L : Libu} {LS : LibuSpec L}.

Lemma session_get_eq (ss : session) (name : list byte) :
  session_get ss name = Ok (named name (v_list (ss_vars ss)) !! 0 ≫= fun v => cstr <$> v_data v).
Proof.
  unfold session_get, vars_get. destruct (vars_geti_eq (ss_vars ss) name 0) as (o & -> & Ho & _).
  cbn [mbind res_bind]. rewrite <- Ho. by destruct o as [[k v]|].
Qed.

Lemma named_cons (name : list byte) (v : var) (l : list var) :
  named name (v :: l) = if strcaseeq (var_get_name v) name then v :: named name l else named name l.
Proof. done. Qed.

(** Names are compared without case. *)
Lemma named_case (n m : list byte) (l : list var) : strcaseeq n m = true -> named m l = named n l.
Proof.
  intros E. apply filter_ext. intros x. apply eq_iff_eq_true. split; intros H; [|by eapply strcaseeq_trans].
  eapply strcaseeq_trans; [done|]. by rewrite strcaseeq_sym.
Qed.

Lemma cstr_text (t : list byte) : cstr ((t ++ [x00]) ++ [x00]) = cstr t.
Proof. induction t as [|c t IH]; [done|]. simpl. case_decide; [done|]. f_equal. apply IH. Qed.

Lemma named_reloaded (name : list byte) (vs : list var) :
  named name (map reloaded vs) = map reloaded (named name vs).
Proof.
  induction vs as [|v vs IH]; [done|]. simpl map. rewrite !named_cons, IH.
  change (var_get_name (reloaded v)) with (var_get_name v). by destruct (strcaseeq _ _).
Qed.

Lemma session_get_reloaded (ss ss' : session) (name : list byte) : Forall saveable (v_list (ss_vars ss)) ->
  v_list (ss_vars ss') = map reloaded (v_list (ss_vars ss)) -> session_get ss' name = session_get ss name.
Proof.
  intros Hs E. rewrite !session_get_eq, E, named_reloaded, list_lookup_fmap.
  destruct (named name (v_list (ss_vars ss)) !! 0) as [v|] eqn:Ev; [|done]. simpl.
  assert (saveable v) as Hv.
  { apply list_elem_of_lookup_2 in Ev. unfold named in Ev. apply list_elem_of_In, filter_In in Ev as [Ev _].
    rewrite Forall_forall in Hs. by apply Hs, list_elem_of_In. }
  destruct (saveable_data v Hv) as (-> & _). done.
Qed.

Context {LM : LibuMem L}.

(** The position of the first variable of a name. *)
Lemma vars_get_first (vs : vars) (name : list byte) :
  match named name (v_list vs) with
  | [] => vars_get vs name = Ok None
  | v :: _ => exists l1 l2, v_list vs = l1 ++ v :: l2 /\ named name l1 = [] /\
                vars_get vs name = Ok (Some (length l1, v))
  end.
Proof.
  unfold vars_get, vars_geti.
  assert (forall fuel l1 l2, v_list vs = l1 ++ l2 -> length l2 < fuel -> named name l1 = [] ->
    match named name l2 with
    | [] => geti_loop fuel (length l1) (v_list vs) name 0 = Ok None
    | v :: _ => exists k1 k2, v_list vs = k1 ++ v :: k2 /\ named name k1 = [] /\
                  geti_loop fuel (length l1) (v_list vs) name 0 = Ok (Some (length k1, v))
    end) as G; [|by apply (G (S (length (v_list vs))) [] (v_list vs)); [|lia|]].
  induction fuel as [|fuel IH]; intros l1 l2 E Hf H1; [lia|]. cbn [geti_loop].
  rewrite u_list_get_n_spec, E. destruct l2 as [|v l2].
  - by rewrite (proj2 (lookup_ge_None _ _)) by (rewrite app_nil_r; lia).
  - rewrite list_lookup_middle by done. unfold named at 1. cbn [List.filter].
    destruct (strcaseeq (var_get_name v) name) eqn:Ev.
    + exists l1, l2. by split_and!.
    + specialize (IH (l1 ++ [v]) l2). rewrite length_app, Nat.add_1_r, <- app_assoc, E in IH.
      apply IH; [done|simpl in Hf; lia|]. rewrite named_app, H1. unfold named. simpl. by rewrite Ev.
Qed.

Lemma var_set_value_eq (w : var) (v : list byte) : exists w', var_set_value w v = (w', Ok tt) /\
  v_data w' = Some ((v ++ [x00]) ++ [x00]) /\ v_sname w' = v_sname w /\ var_ok w'.
Proof.
  unfold var_set_value. destruct (var_set_bin_value w (v ++ [x00])) as [w' r] eqn:Ew. exists w'.
  assert (r = Ok tt /\ v_data w' = Some ((v ++ [x00]) ++ [x00])) as [-> Hd].
  { revert Ew. unfold var_set_bin_value. rewrite decide_True by (rewrite length_app; simpl; lia). rewrite u_alloc_ok.
    destruct (v_svalue w); [rewrite u_string_set_eq|]; by intros [= <- <-]. }
  destruct (var_set_bin_value_ok _ _ _ _ Ew) as (Hok & _ & Hsn). by split_and!.
Qed.

(** The list that [session_set] leaves: the first variable of the name has the new value,
    or a new one is at the end. *)
Lemma session_set_list (ss : session) (n v : list byte) : n <> [] -> (x00 ∉ n) ->
  exists l1 w l2, session_set n v ss =
      (set_ss_vars ss (mkVars (l1 ++ w :: l2) (v_foreign (ss_vars ss))), Ok tt) /\
    named n l1 = [] /\ strcaseeq (var_get_name w) n = true /\ v_data w = Some ((v ++ [x00]) ++ [x00]) /\
    (saveable w \/ exists w0, w0 ∈ v_list (ss_vars ss) /\ (saveable w0 -> saveable w)) /\
    (v_list (ss_vars ss) = l1 /\ l2 = [] \/
     exists w0, v_list (ss_vars ss) = l1 ++ w0 :: l2 /\ var_get_name w0 = var_get_name w).
Proof.
  intros Hn Hz. unfold session_set. rewrite decide_False by done. pose proof (vars_get_first (ss_vars ss) n) as Hg.
  destruct (named n (v_list (ss_vars ss))) as [|w0 ws] eqn:En.
  - rewrite Hg. unfold var_create. rewrite var_bin_create_eq by (by destruct v). rewrite vars_add_eq.
    eexists _, (fresh_var n (v ++ [x00])), []. split_and!; [done|done| |done| |by left].
    + unfold var_get_name. simpl. by rewrite cstr_id, strcaseeq_refl.
    + left. unfold saveable, var_ok. cbn. rewrite !length_app, last_snoc. cbn. split_and!; [lia|done|lia|by eexists|done|done].
  - destruct Hg as (l1 & l2 & E & H1 & ->). destruct (var_set_value_eq w0 v) as (w & -> & Hd & Hsn & Hok).
    exists l1, w, l2. rewrite E, insert_app_r_alt, Nat.sub_diag by lia. cbn [insert list_insert].
    assert (var_get_name w = var_get_name w0) as Hnm by (unfold var_get_name; by rewrite Hsn).
    split_and!; [done|done| |done| |].
    + rewrite Hnm. assert (w0 ∈ named n (v_list (ss_vars ss))) as Hin by (rewrite En; left).
      by apply list_elem_of_In, filter_In in Hin as [_ ?].
    + right. exists w0. split; [set_solver|]. intros (_ & _ & N1 & N2). unfold saveable. rewrite Hsn, Hd. by split_and!.
    + right. by exists w0.
Qed.

Lemma session_set_spec (ss : session) (n v : list byte) : n <> [] -> (x00 ∉ n) ->
  exists vs, session_set n v ss = (set_ss_vars ss vs, Ok tt) /\
    (forall m, session_get (set_ss_vars ss vs) m = if strcaseeq n m then Ok (Some (cstr v)) else session_get ss m) /\
    (Forall saveable (v_list (ss_vars ss)) -> Forall saveable (v_list vs)).
Proof.
  intros Hn Hz. destruct (session_set_list ss n v Hn Hz) as (l1 & w & l2 & E & H1 & Hw & Hd & Hs & Hl).
  eexists. split; [done|]. destruct ss as [vs f i r mt]. cbn [ss_vars] in *. split.
  - intros m. rewrite !session_get_eq. cbn [set_ss_vars ss_vars v_list]. rewrite named_app, named_cons.
    destruct (strcaseeq n m) eqn:Em.
    + rewrite (named_case n m l1), H1, (strcaseeq_trans _ n) by done. simpl. rewrite Hd. simpl. by rewrite cstr_text.
    + assert (strcaseeq (var_get_name w) m = false) as Hwm.
      { destruct (strcaseeq (var_get_name w) m) eqn:E2; [|done]. rewrite <- Em.
        symmetry. eapply strcaseeq_trans; [|exact E2]. by rewrite strcaseeq_sym. }
      rewrite Hwm. destruct Hl as [[-> ->]|(w0 & -> & Hw0)]; [by rewrite app_nil_r|].
      by rewrite named_app, named_cons, Hw0, Hwm.
  - intros Hall. cbn [v_list]. assert (saveable w) as Hsw.
    { destruct Hs as [|(w0 & Hin & Hsv)]; [done|]. rewrite Forall_forall in Hall. auto. }
    destruct Hl as [[<- ->]|(w0 & E0 & _)]; [by apply Forall_app; split; [|constructor]|].
    rewrite E0 in Hall. apply Forall_app in Hall as [? [_ ?]%Forall_cons]. apply Forall_app. by split; [|constructor].
Qed.
End get_set.

(** ** Round trips through a buffer *)

Section buf_claims.
Context {L : Libu} {LS : LibuSpec L} {LM : LibuMem L} {C : Type} {CO : CodecOps C}.

(** A session that is saved to memory and loaded again has the same variables.  The
    size computed beforehand is enough when each variable has a character that needs no
    escape in its name or its value, and a line must not be longer than 1022 characters. *)
Theorem session_buf_roundtrip (fuel n : nat) (ss ss0 : session) :
  let vs := v_list (ss_vars ss) in
  Forall text_var vs -> Forall (fun v => has_plain (v_sname v ++ var_bytes v) = true) vs ->
  Forall (fun v => length (var_line v) <= LINE_MAX) vs ->
  length (session_text vs) <= fuel -> 0 < fuel -> length vs < n -> ss_vars ss0 = vars_create ->
  exists buf ss1, session_prv_save_to_buf (C:=C) [] fuel ss = Ok buf /\
    session_prv_load_from_buf (C:=C) [] fuel n ss0 buf = (ss1, Ok tt) /\
    ss1 = set_ss_vars ss0 (ss_vars ss1) /\ forall name, session_get ss1 name = session_get ss name.
Proof.
  intros vs Ht Hp Hl Hf Hf0 Hn H0. assert (Forall saveable vs) as Hs by (eapply Forall_impl; [exact Ht|by intros v [? _]]).
  assert (length (session_text vs) <= sum_list (map var_room vs)) as Hr.
  { clear -Ht Hp. induction vs as [|v vs IH]; [simpl; lia|]. apply Forall_cons in Ht as [Hv Ht], Hp as [Hpv Hp].
    change (sum_list (map var_room (v :: vs))) with (var_room v + sum_list (map var_room vs)).
    unfold session_text in *. cbn [map concat]. rewrite length_app.
    pose proof (text_var_room v Hv Hpv). specialize (IH Ht Hp). lia. }
  eexists _, _. split_and!; [by apply save_to_buf_spec|by apply load_from_buf_spec|by destruct ss0|].
  intros name. apply session_get_reloaded; [done|]. destruct ss0. simpl in *. by rewrite H0.
Qed.

(** The line of a variable whose characters all need an escape. *)
Lemma escaped_line (v : var) (t : list byte) : saveable v -> var_bytes v = t ++ [x00] ->
  Forall (fun c => c <> x00 /\ length (Url.url_encode_char c) = 3) (v_sname v ++ t) ->
  (exists w, var_line v = w ++ ["0"%byte]) /\ sum_list (map var_room [v]) = length (var_line v).
Proof.
  intros Hs Ht Hesc. destruct (saveable_data v Hs) as (Hd & _ & _).
  assert (forall s, Forall (fun c => c <> x00 /\ length (Url.url_encode_char c) = 3) s ->
    length (flat_map Url.url_encode_char s) = 3 * length s /\ (x00 ∉ s)) as He.
  { intros s H. induction H as [|c s [Hc H3] _ [IH1 IH2]]; [split; [done|set_solver]|]. cbn [flat_map length].
    rewrite length_app. split; [lia|set_solver]. }
  apply Forall_app in Hesc as [[Hn1 Hn2]%He [Ht1 Ht2]%He].
  assert (var_line v = (flat_map Url.url_encode_char (v_sname v) ++ "="%byte :: flat_map Url.url_encode_char t ++ bs "%0")
    ++ ["0"%byte]) as Eline.
  { unfold var_line, encode_pair. rewrite Ht, flat_map_app, <- app_assoc. cbn [app]. by rewrite <- app_assoc. }
  split; [eauto|]. rewrite Eline, !length_app. cbn [length]. rewrite length_app, Hn1, Ht1. change (length (bs "%0")) with 2.
  cbn. unfold var_room, var_get_name, var_get_value. rewrite Hd, Ht, cstr_text, !cstr_id by done. lia.
Qed.

(** The computed size is one byte short when every character of a variable needs an
    escape, because the NUL that ends the value is written as an escape too: the newline of
    the last line has no room, saving reports success, and loading, which also reports
    success, does not find the variable. *)
Theorem session_escaped_lost (fuel n : nat) (ss ss0 : session) (v : var) (t : list byte) :
  v_list (ss_vars ss) = [v] -> saveable v -> var_bytes v = t ++ [x00] ->
  Forall (fun c => c <> x00 /\ length (Url.url_encode_char c) = 3) (v_sname v ++ t) ->
  length (var_line v) <= LINE_MAX -> 1 < fuel -> 0 < n ->
  session_prv_save_to_buf (C:=C) [] fuel ss = Ok (var_line v) /\
  session_prv_load_from_buf (C:=C) [] fuel n ss0 (var_line v) = (ss0, Ok tt).
Proof.
  intros Hv Hs Ht Hesc Hl Hf Hn. destruct (escaped_line v t Hs Ht Hesc) as [[w Ew] Hroom].
  destruct (var_line_plain v) as (Hnl & _ & Hne).
  assert (length (var_line v) < IO_WR_BUFSZ) as Hb
    by (unfold LINE_MAX in Hl; rewrite GETLINE_BUFSZ_val in Hl; rewrite IO_WR_BUFSZ_val; lia).
  assert (0 < length (var_line v)) as Hpos by (rewrite Ew, length_app; simpl; lia). split.
  - unfold session_prv_save_to_buf, vars_foreach. rewrite Hv, maxsize_eq, Hroom, Nat.add_0_l, u_alloc_ok.
    destruct (mem_truncates (C:=C) fuel (length (var_line v)) (var_line v ++ [x0a])) as (io1 & io2 & E1 & Hc & E2 & E3);
      [rewrite length_app; simpl; lia|rewrite length_app; simpl; lia|lia|].
    unfold session_prv_save_to_io, vars_foreach. rewrite Hv. cbn [foldl foreach_loop]. unfold save_cb. cbn [fst].
    rewrite save_var_prints, E1 by done. unfold io_codecs_remove. rewrite Hc. cbn [mbind res_bind ignored]. rewrite Hc.
    cbn [mbind res_bind]. rewrite E2, E3. by rewrite take_app_length.
  - unfold session_prv_load_from_buf, session_prv_load_from_io. cbn [foldl]. destruct (mem_readable (C:=C) (var_line v)) as [Hr Hi].
    destruct n as [|n]; [lia|]. cbn [load_vars_loop]. rewrite Ew in Hnl, Hl. rewrite length_app in Hl.
    destruct (getline_unterminated fuel fuel _ w "0"%byte Hr ltac:(lia) Hf (eq_trans Hi Ew) Hnl) as (i' & -> & R & _); [done|lia|].
    unfold io_codecs_remove. rewrite (proj1 (proj2 R)). by destruct ss0.
Qed.
End buf_claims.

(** ** Identifiers *)

(** The file of an identifier. *)
Definition ses_file (env : ses_env) (id : list byte) : list byte :=
  squeeze SLASH (so_path env ++ bs "/klone_sess_" ++ id ++ bs "_" ++ rq_addr env).

(** No identifier or a good one, no file name or that of a good identifier. *)
Definition ses_safe (env : ses_env) (ss : session) : Prop :=
  (ss_id ss = [] \/ session_is_good_id (ss_id ss) = true) /\
  (ss_filename ss = [] \/ exists id, session_is_good_id id = true /\ ss_filename ss = ses_file env id).

Lemma good_id_md5 (m r : list byte) : (Z.of_nat (length m) < 2 ^ 28)%Z ->
  u_md5 m (replicate 64 x00) = Ok r -> session_is_good_id r = true.
Proof.
  intros Hm. rewrite u_md5_eq by done. destruct (tohex_digits 16 (md5_ref m)) as (r' & -> & Hl & Hx);
    [by rewrite md5_ref_length|]. intros [= <-]. unfold session_is_good_id. rewrite Hx. by rewrite bool_decide_true.
Qed.

(** A driver that leaves the identifier and the file name alone. *)
Class SesDriverFrame (St : Type) {SD : SesDriver St} : Prop := {
  drv_frame (f : ses_env -> St -> session -> St * session * res unit) env st ss :
    f = drv_load \/ f = drv_save \/ f = drv_remove ->
    let '(_, ss', _) := f env st ss in ss_id ss' = ss_id ss /\ ss_filename ss' = ss_filename ss
}.

Section ids.
Context {L : Libu} {LS : LibuSpec L} {St D C : Type} {SD : SesDriver St} {SF : SesDriverFrame St}
        {DO : DevOps D} {CO : CodecOps C}.
Variable FILENAME_MAX : nat.
Variable env : ses_env.

Definition safe_step (w w' : world St D C) : Prop := ses_safe env (w_ss w) -> ses_safe env (w_ss w').
#[local] Instance safe_step_preorder : PreOrder safe_step.
Proof. split; [intros w H; exact H|intros a b c H1 H2 H; auto]. Qed.

(** The same identifier and file name. *)
Definition same_name (ss ss' : session) : Prop := ss_id ss' = ss_id ss /\ ss_filename ss' = ss_filename ss.

Lemma on_ss_same {A} (m : prog session A) : (forall ss, same_name ss (m ss).1) -> keeps safe_step (on_ss m).
Proof.
  intros H w. unfold on_ss, safe_step, ses_safe. specialize (H (w_ss w)). destruct (m (w_ss w)) as [ss r].
  destruct H as [E1 E2]. cbn in *. by rewrite E1, E2.
Qed.

Lemma on_rs_keeps {A} (m : prog (response D C) A) : keeps safe_step (on_rs (St:=St) m).
Proof. intros w. unfold on_rs. destruct (m (w_rs w)) as [rs r]. by intros H. Qed.

Lemma on_drv_keeps f : f = drv_load \/ f = drv_save \/ f = drv_remove -> keeps safe_step (on_drv (D:=D) (C:=C) env f).
Proof.
  intros Hf w. unfold on_drv, safe_step, ses_safe. pose proof (drv_frame f env (w_store w) (w_ss w) Hf) as H.
  destruct (f env (w_store w) (w_ss w)) as [[st ss] r]. destruct H as [E1 E2]. cbn. by rewrite E1, E2.
Qed.

Lemma set_id_keeps (id : list byte) : id = [] \/ session_is_good_id id = true ->
  keeps safe_step (on_ss (St:=St) (D:=D) (C:=C) (pmod (fun ss => set_ss_id ss id))).
Proof. intros Hid w [_ H2]. destruct w as [[a b c d e] rs st]. by split. Qed.

Lemma set_filename_keeps : keeps safe_step (on_ss (St:=St) (D:=D) (C:=C) (session_set_filename FILENAME_MAX env)).
Proof.
  intros w. unfold on_ss, session_set_filename. rewrite (pbind_Ok _ _ _ (w_ss w) (w_ss w)) by done.
  case_decide as Hid; [by intros H|]. destruct (u_path_snprintf _ _ _) as [f|] eqn:Ef; [|by intros H]. cbn. intros [H1 H2].
  destruct H1 as [|H1]; [done|]. destruct (w_ss w) as [a b c d e]. split; [by right|]. right. exists c.
  split; [done|]. cbn in *. by apply u_path_snprintf_spec in Ef.
Qed.

Lemma gen_id_keeps : keeps safe_step (session_gen_id (St:=St) (D:=D) (C:=C) env).
Proof.
  apply keeps_bind; [apply _|apply set_id_keeps; by left|intros _]. rewrite u_snprintf_spec by lia.
  cbv beta iota. apply keeps_bind; [apply _|apply keeps_guard, _|intros _]. intros w. unfold pbind at 1, plift at 1.
  destruct (u_md5 _ _) as [id| | |] eqn:E; try (by intros H). apply good_id_md5 in E; [|rewrite length_take; lia].
  assert (keeps safe_step (on_ss (St:=St) (D:=D) (C:=C) (pmod (fun ss => set_ss_id ss id));;;
     on_rs (response_set_cookie (so_name env) None 0 None None false);;;
     on_rs (response_set_cookie (so_name env) (Some id) 0 None None false))) as K; [|apply K].
  apply keeps_bind; [apply _|apply set_id_keeps; by right|intros _].
  apply keeps_bind; [apply _|apply on_rs_keeps|intros _; apply on_rs_keeps].
Qed.
#[local] Hint Resolve on_rs_keeps gen_id_keeps set_filename_keeps on_drv_keeps : keeps.

Lemma prv_set_id_keeps (sid : option (list byte)) :
  keeps safe_step (session_prv_set_id (St:=St) (D:=D) (C:=C) FILENAME_MAX env sid).
Proof.
  unfold session_prv_set_id. keeps_seq; [|intros _; apply set_filename_keeps].
  destruct sid as [id|]; [|apply gen_id_keeps]. destruct (session_is_good_id id) eqn:Hid; [|apply gen_id_keeps].
  assert (length id <= 32) as Hl by (unfold session_is_good_id in Hid; apply andb_prop in Hid as [Hid _];
    apply bool_decide_eq_true in Hid; unfold SESSION_ID_LENGTH in Hid; lia).
  rewrite u_snprintf_spec, take_ge by (unfold SESSION_ID_LENGTH; lia). cbv beta iota.
  keeps_seq; [apply set_id_keeps; by right|]. intros _. apply keeps_guard, _.
Qed.

Lemma removed_keeps (b : bool) :
  keeps safe_step (on_ss (St:=St) (D:=D) (C:=C) (pmod (fun ss => set_ss_removed ss b))).
Proof. apply on_ss_same. by intros []. Qed.

Lemma remove_keeps : keeps safe_step (session_remove (St:=St) (D:=D) (C:=C) env).
Proof. unfold session_remove. keeps_auto; [apply removed_keeps|apply on_drv_keeps; auto]. Qed.
#[local] Hint Resolve prv_set_id_keeps remove_keeps : keeps.

Lemma save_keeps : keeps safe_step (session_save (St:=St) (D:=D) (C:=C) FILENAME_MAX env).
Proof. unfold session_save. keeps_auto. apply on_drv_keeps; auto. Qed.
#[local] Hint Resolve save_keeps : keeps.

Lemma free_keeps : keeps safe_step (session_free (St:=St) (D:=D) (C:=C) FILENAME_MAX env).
Proof. unfold session_free. keeps_auto. Qed.

Lemma clean_same (ss : session) : same_name ss (session_clean ss).1.
Proof. unfold session_clean. destruct (clean_loop _ _) as [vs r]. by destruct ss. Qed.

Lemma set_same (n v : list byte) (ss : session) : same_name ss (session_set n v ss).1.
Proof.
  unfold session_set. case_decide; [done|]. destruct (vars_get _ _) as [[[k x]|]| | |]; try done.
  - destruct (var_set_value x v) as [x' r]. by destruct ss.
  - destruct (var_create n v); try done. destruct (vars_add _ _) as [vs r]. by destruct ss.
Qed.

Lemma del_same (n : list byte) (ss : session) : same_name ss (session_del n ss).1.
Proof. unfold session_del. destruct (vars_get _ _) as [[[k x]|]| | |]; try done. by destruct ss. Qed.

(** What a page and the server do with a session. *)
Inductive ses_op :=
| OpSet (n v : list byte) | OpDel (n : list byte) | OpClean | OpLoad | OpSave | OpRemove | OpFree.

Definition run_op (op : ses_op) : prog (world St D C) unit :=
  match op with
  | OpSet n v => on_ss (session_set n v)
  | OpDel n => on_ss (session_del n)
  | OpClean => on_ss session_clean
  | OpLoad => session_load env
  | OpSave => session_save FILENAME_MAX env
  | OpRemove => session_remove env
  | OpFree => session_free FILENAME_MAX env
  end.

Lemma run_op_keeps (op : ses_op) : keeps safe_step (run_op op).
Proof.
  destruct op; simpl; eauto using set_same, del_same, clean_same, on_ss_same, free_keeps with keeps.
Qed.

Lemma create_keeps : keeps safe_step (session_create (St:=St) (D:=D) (C:=C) FILENAME_MAX env).
Proof.
  assert (keeps safe_step (session_prv_init (St:=St) (D:=D) (C:=C) FILENAME_MAX env)) as Hi.
  { unfold session_prv_init. keeps_auto. by apply on_ss_same; intros []. }
  unfold session_create, driver_create. keeps_auto; try (by apply on_ss_same; intros []).
  - intros w _. by split; left.
  - apply free_keeps.
  - apply on_drv_keeps; auto.
  - apply on_ss_same, clean_same.
Qed.

Lemma create_safe (w : world St D C) : ses_safe env (w_ss (session_create FILENAME_MAX env w).1).
Proof.
  change (session_create FILENAME_MAX env w) with
    (session_create FILENAME_MAX env (mkWorld ses_zero (w_rs w) (w_store w))).
  apply create_keeps. by split; left.
Qed.

(** C8: whatever cookie a client sends and whatever is done with the session afterwards,
    in any order and whatever fails on the way, the identifier of a session is empty or 32
    hexadecimal digits, and the file name is empty or the one built from such an
    identifier: no text of the client's choice gets into a path. *)
Theorem session_id_safe (w : world St D C) (ops : list ses_op) :
  let ss := w_ss (foldl (fun w op => (run_op op w).1) (session_create FILENAME_MAX env w).1 ops) in
  (ss_id ss = [] \/ length (ss_id ss) = 32 /\ Forall (fun c => isxdigit c = true) (ss_id ss)) /\
  (ss_filename ss = [] \/
   exists id, length id = 32 /\ Forall (fun c => isxdigit c = true) id /\
     ss_filename ss = squeeze SLASH (so_path env ++ bs "/klone_sess_" ++ id ++ bs "_" ++ rq_addr env)).
Proof.
  assert (forall id, session_is_good_id id = true -> length id = 32 /\ Forall (fun c => isxdigit c = true) id) as Hg.
  { intros id [H1%bool_decide_eq_true H2]%andb_prop. split; [done|]. apply Forall_forall. intros c Hc.
    rewrite forallb_forall in H2. by apply H2, list_elem_of_In. }
  intros ss. assert (ses_safe env ss) as [H1 H2].
  { unfold ss. pose proof (create_safe w) as H. revert H. generalize (session_create FILENAME_MAX env w).1.
    induction ops as [|op ops IH]; intros w' H; [done|]. simpl. apply IH. by apply run_op_keeps. }
  split; [destruct H1; auto|]. destruct H2 as [|(id & Hid & E)]; [by left|]. right. exists id.
  destruct (Hg id Hid). by split_and!.
Qed.
End ids.

(** ** Sessions that last *)

Definition ses_short (vs : list var) : Prop := Forall (fun v => length (var_line v) <= LINE_MAX) vs.

(** What the module relies on in a store: data saved under a file name with the time is
    loaded again under that name, and removed data is gone.  [st_takes] says that the store
    has room, [st_one] that it is in order and holds the name at most once, and [st_fuel] is
    the longest text that the driver reads. *)
Class SesStore (St : Type) {SD : SesDriver St} := {
  st_get : St -> list byte -> option (list byte * Z);
  st_takes : St -> list byte -> list var -> Prop;
  st_fuel : nat;
  drv_save_spec env st ss :
    let vs := v_list (ss_vars ss) in
    Forall saveable vs -> vs <> [] -> ss_filename ss <> [] -> length (session_text vs) <= st_fuel ->
    (0 <= now env < 2 ^ 31)%Z -> st_takes st (ss_filename ss) vs ->
    exists st', drv_save env st ss = (st', ss, Ok tt) /\
      st_get st' (ss_filename ss) = Some (session_text vs, now env);
  drv_load_spec env st ss vs t :
    st_get st (ss_filename ss) = Some (session_text vs, t) -> ss_filename ss <> [] ->
    Forall saveable vs -> ses_short vs -> length (session_text vs) <= st_fuel -> (0 <= t < 2 ^ 31)%Z ->
    (exists ss0, ss = set_ss_mtime ss0 (drv_mtime env st ss0)) ->
    drv_load env st ss = (st, set_ss_mtime (set_ss_vars ss (vars_app (ss_vars ss) (map reloaded vs))) t, Ok tt);
  st_one : St -> list byte -> Prop;
  drv_remove_spec env st ss : st_one st (ss_filename ss) ->
    exists st', drv_remove env st ss = (st', ss, Ok tt) /\ st_get st' (ss_filename ss) = None
}.

Lemma good_id_plain (id : list byte) : session_is_good_id id = true ->
  id <> [] /\ length id = 32 /\ (x00 ∉ id) /\ flat_map Url.url_encode_char id = id.
Proof.
  intros [H1%bool_decide_eq_true H2]%andb_prop. unfold SESSION_ID_LENGTH in H1.
  assert (forall c, isxdigit c = true -> c <> x00 /\ Url.url_encode_char c = [c]) as Hx by byte_brute.
  split_and!; [by intros ->|done|..].
  - intros Hin. rewrite forallb_forall in H2. apply list_elem_of_In, H2, Hx in Hin. by destruct Hin.
  - clear H1. induction id as [|c id IH]; [done|]. simpl in *. apply andb_prop in H2 as [Hc H2].
    rewrite (proj2 (Hx c Hc)), IH by done. done.
Qed.

Section persist.
Context {L : Libu} {LS : LibuSpec L} {LM : LibuMem L} {St : Type} {SD : SesDriver St} {SS : SesStore St}
        {D C : Type} {DO : DevOps D} {CO : CodecOps C} {D2 C2 : Type}.
Variable FILENAME_MAX : nat.

Lemma on_ss_Ok {A} (m : prog session A) (w : world St D C) (ss : session) (a : A) :
  m (w_ss w) = (ss, Ok a) -> on_ss m w = (mkWorld ss (w_rs w) (w_store w), Ok a).
Proof. unfold on_ss. by intros ->. Qed.

Lemma on_rs_Ok {A} (m : prog (response D C) A) (w : world St D C) (rs : response D C) (a : A) :
  m (w_rs w) = (rs, Ok a) -> on_rs m w = (mkWorld (w_ss w) rs (w_store w), Ok a).
Proof. unfold on_rs. by intros ->. Qed.

Lemma set_cookie_none (name : list byte) (rs : response D C) : length name < N.to_nat 4000 ->
  exists rs' old, response_set_cookie name None 0 None None false rs = (rs', Ok tt) /\
    h_fields (rs_header rs') = h_fields (rs_header rs) ++ [mk_field (bs "Set-Cookie", old)] /\
    old = name ++ bs "=; expires=Wed, 01-Jan-1990 10:10:10 GMT".
Proof.
  intros Hl. unfold response_set_cookie, cookie_text.
  rewrite buf_append_eq by (rewrite COOKIE_OUT_BUFSZ_val; simpl; lia).
  rewrite decide_True by (rewrite COOKIE_OUT_BUFSZ_val, length_app; simpl length; lia).
  erewrite pbind_Ok by done. unfold response_add_field. rewrite field_create_eq.
  eexists _, _. split_and!; [done|by destruct rs|done].
Qed.

(** The fields that a new identifier adds to the response: the old cookie is removed. *)
Lemma gen_id_spec (env : ses_env) (w : world St D C) :
  length (sid_text env) < 257 -> so_name env <> [] -> flat_map Url.url_encode_char (so_name env) = so_name env ->
  length (so_name env) < N.to_nat 4000 ->
  exists id rs txt old, session_is_good_id id = true /\
    session_gen_id env w = (mkWorld (set_ss_id (w_ss w) id) rs (w_store w), Ok tt) /\
    h_fields (rs_header rs) =
      h_fields (rs_header (w_rs w)) ++ [mk_field (bs "Set-Cookie", old); mk_field (bs "Set-Cookie", txt)] /\
    forall rq : request D2 C2,
      request_parse_cookie (mk_field (bs "Cookie", upto ";" txt)) rq
        = (add_cookies rq [fresh_var (so_name env) id], Ok tt).
Proof.
  intros Hs Hn Hen Hl. unfold session_gen_id.
  erewrite pbind_Ok by (by apply on_ss_Ok). rewrite u_snprintf_spec by lia.
  rewrite bool_decide_false, take_ge by lia. erewrite pbind_Ok by done.
  rewrite u_md5_eq by (done || lia). destruct (tohex_digits 16 (md5_ref (sid_text env))) as (id & Eid & Hil & Hix);
    [by rewrite md5_ref_length|]. rewrite Eid.
  assert (session_is_good_id id = true) as Hg by (unfold session_is_good_id; rewrite Hix; by rewrite bool_decide_true).
  destruct (good_id_plain id Hg) as (Hid0 & Hid1 & Hid2 & Hid3).
  erewrite pbind_Ok by done. erewrite pbind_Ok by (by apply on_ss_Ok).
  destruct (set_cookie_none (so_name env) (w_rs w) Hl) as (rs1 & old & E1 & F1 & _). erewrite pbind_Ok by (apply on_rs_Ok; exact E1).
  destruct (set_cookie_back (D2:=D2) (C2:=C2) (so_name env) id 0 None None None false rs1) as (rs2 & txt & E2 & F2 & B2);
    try done. { rewrite Hid3, !length_app, Hid1, COOKIE_OUT_BUFSZ_val. simpl length. lia. }
  rewrite (on_rs_Ok _ _ rs2 tt) by exact E2. exists id, rs2, txt, old. split_and!; [done| |by rewrite F2, F1, <- app_assoc|done].
  f_equal. by destruct w as [[]].
Qed.

Lemma set_filename_spec (env : ses_env) (ss : session) :
  ss_id ss <> [] -> length (so_path env ++ bs "/klone_sess_" ++ ss_id ss ++ bs "_" ++ rq_addr env) < FILENAME_MAX ->
  session_set_filename FILENAME_MAX env ss = (set_ss_filename ss (ses_file env (ss_id ss)), Ok tt).
Proof.
  intros Hid Hl. unfold session_set_filename. erewrite pbind_Ok by done. rewrite decide_False by done.
  destruct (u_path_snprintf_fits _ _ SLASH Hl) as [f Hf]. rewrite Hf.
  by rewrite (u_path_snprintf_spec _ _ _ _ Hf).
Qed.

(** A request without a session cookie. *)
Lemma create_new (env : ses_env) (w : world St D C) : named (so_name env) (v_list (rq_cookies env)) = [] ->
  exists mt, session_create FILENAME_MAX env w
    = (mkWorld (mkSess vars_create [] [] false mt) (w_rs w) (w_store w), Ok tt).
Proof.
  intros Hc. unfold session_create, driver_create, session_prv_init, request_get_cookie.
  pose proof (vars_get_first (rq_cookies env) (so_name env)) as Hg. rewrite Hc in Hg. rewrite Hg. by eexists.
Qed.

Lemma squeeze_ne (s : list byte) : s <> [] -> squeeze SLASH s <> [].
Proof.
  induction s as [|c s IH]; [done|]. intros _. simpl. case_decide as H; [|done]. destruct s; [by destruct H|]. by apply IH.
Qed.

Lemma ses_file_ne (env : ses_env) (id : list byte) : ses_file env id <> [].
Proof. apply squeeze_ne. intros E. apply app_eq_nil in E as [_ E]. done. Qed.

(** The limits on what the module formats. *)
Definition env_ok (env : ses_env) : Prop :=
  length (sid_text env) < 257 /\ so_name env <> [] /\ flat_map Url.url_encode_char (so_name env) = so_name env /\
  length (so_name env) < N.to_nat 4000 /\ length (so_path env) + length (rq_addr env) + 45 < FILENAME_MAX /\
  (0 <= now env < 2 ^ 31)%Z.

Lemma file_fits (env : ses_env) (id : list byte) : env_ok env -> length id = 32 ->
  length (so_path env ++ bs "/klone_sess_" ++ id ++ bs "_" ++ rq_addr env) < FILENAME_MAX.
Proof. intros (_ & _ & _ & _ & H & _) Hid. rewrite !length_app, Hid. simpl length. lia. Qed.

(** The end of a request that has set variables in a new session. *)
Lemma free_new (env : ses_env) (w : world St D C) :
  let vs := v_list (ss_vars (w_ss w)) in
  env_ok env -> ss_id (w_ss w) = [] -> ss_removed (w_ss w) = false ->
  Forall saveable vs -> vs <> [] -> length (session_text vs) <= st_fuel ->
  (forall file, st_takes (w_store w) file vs) ->
  exists w' id txt old, session_is_good_id id = true /\ session_free FILENAME_MAX env w = (w', Ok tt) /\
    st_get (w_store w') (ses_file env id) = Some (session_text vs, now env) /\
    h_fields (rs_header (w_rs w')) =
      h_fields (rs_header (w_rs w)) ++ [mk_field (bs "Set-Cookie", old); mk_field (bs "Set-Cookie", txt)] /\
    forall rq : request D2 C2,
      request_parse_cookie (mk_field (bs "Cookie", upto ";" txt)) rq
        = (add_cookies rq [fresh_var (so_name env) id], Ok tt).
Proof.
  intros vs He Hid Hrm Hs Hne Hf Ht. pose proof He as (H1 & H2 & H3 & H4 & H5 & H6).
  destruct (gen_id_spec env w H1 H2 H3 H4) as (id & rs & txt & old & Hg & Eg & Fg & Bg).
  destruct (good_id_plain id Hg) as (Hid0 & Hid1 & _).
  unfold session_free. erewrite pbind_Ok by done. rewrite Hrm. unfold session_save.
  unfold pignore. erewrite (pbind_Ok pget) by done. unfold vars_count. rewrite u_list_count_spec.
  rewrite decide_False by (fold vs; by destruct vs). rewrite decide_True by done.
  destruct (drv_save_spec env (w_store w) (set_ss_filename (set_ss_id (w_ss w) id) (ses_file env id))) as (st' & Es & Gs).
  { by destruct w as [[]]. } { by destruct w as [[]]. } { destruct w as [[]]. apply ses_file_ne. }
  { by destruct w as [[]]. } { done. } { destruct w as [[]]. apply Ht. }
  assert (session_prv_set_id FILENAME_MAX env None w =
    (mkWorld (set_ss_filename (set_ss_id (w_ss w) id) (ses_file env id)) rs (w_store w), Ok tt)) as Ei.
  { unfold session_prv_set_id. erewrite pbind_Ok by exact Eg. unfold on_ss. cbn [w_ss].
    rewrite set_filename_spec; destruct w as [[]]; [done|done|by apply file_fits]. }
  erewrite pbind_Ok by exact Ei. unfold on_drv. cbn [w_store w_ss w_rs]. rewrite Es.
  eexists _, id, txt, old. split_and!; [done|done| |done|done]. cbn [w_store]. destruct w as [[]]. exact Gs.
Qed.

Lemma get_cookie_eq (env : ses_env) (id : list byte) :
  named (so_name env) (v_list (rq_cookies env)) !! 0 = Some (fresh_var (so_name env) id) -> (x00 ∉ id) ->
  request_get_cookie env = Ok (Some id).
Proof.
  intros Hc Hz. unfold request_get_cookie, vars_get.
  destruct (vars_geti_eq (rq_cookies env) (so_name env) 0) as (o & -> & Ho & _).
  rewrite Hc in Ho. destruct o as [[k v]|]; [|done]. injection Ho as ->. cbn [mbind res_bind]. cbn. do 2 f_equal.
  clear -Hz. induction id as [|c id IH]; [done|]. simpl. rewrite decide_False by set_solver. f_equal. apply IH. set_solver.
Qed.

Lemma set_good_id (env : ses_env) (id : list byte) (rs : response D C) (st : St) :
  env_ok env -> session_is_good_id id = true ->
  session_prv_set_id FILENAME_MAX env (Some id) (mkWorld ses_zero rs st) =
    (mkWorld (mkSess vars_create (ses_file env id) id false 0) rs st, Ok tt).
Proof.
  intros He Hg. destruct (good_id_plain id Hg) as (Hid0 & Hid1 & _). unfold session_prv_set_id. rewrite Hg.
  rewrite u_snprintf_spec by (unfold SESSION_ID_LENGTH; lia).
  rewrite bool_decide_false, take_ge by (unfold SESSION_ID_LENGTH; lia). erewrite pbind_Ok by done.
  unfold on_ss. cbn [w_ss]. rewrite set_filename_spec; [done|done|by apply file_fits].
Qed.

Lemma driver_create_stored (env : ses_env) (w : world St D C) (id : list byte) :
  env_ok env -> session_is_good_id id = true ->
  named (so_name env) (v_list (rq_cookies env)) !! 0 = Some (fresh_var (so_name env) id) ->
  let ss0 := mkSess vars_create (ses_file env id) id false 0 in
  driver_create FILENAME_MAX env w =
    (mkWorld (set_ss_mtime ss0 (drv_mtime env (w_store w) ss0)) (w_rs w) (w_store w), Ok tt).
Proof.
  intros He Hg Hc ss0. destruct (good_id_plain id Hg) as (_ & _ & Hz & _).
  unfold driver_create. erewrite pbind_Ok by done. apply pelse_Ok.
  assert (session_prv_init FILENAME_MAX env (mkWorld ses_zero (w_rs w) (w_store w)) =
    (mkWorld ss0 (w_rs w) (w_store w), Ok tt)) as Ei.
  { unfold session_prv_init. erewrite pbind_Ok by done.
    rewrite (get_cookie_eq env id) by done. erewrite pbind_Ok by done. by apply set_good_id. }
  by erewrite (pbind_Ok (session_prv_init _ _)) by exact Ei.
Qed.

(** A request whose cookie names a stored session: what [session_create] does after it has
    loaded it. *)
Lemma create_loaded (env : ses_env) (w : world St D C) (id : list byte) (vs : list var) (t : Z) :
  env_ok env -> session_is_good_id id = true ->
  named (so_name env) (v_list (rq_cookies env)) !! 0 = Some (fresh_var (so_name env) id) ->
  st_get (w_store w) (ses_file env id) = Some (session_text vs, t) ->
  Forall saveable vs -> ses_short vs -> length (session_text vs) <= st_fuel -> (0 <= t < 2 ^ 31)%Z ->
  session_create FILENAME_MAX env w =
    (if decide (so_max_age env < i32 (now env - t))%Z
     then pignore (on_ss session_clean);;; pignore (session_remove env) else pret tt)
    (mkWorld (mkSess (mkVars (map reloaded vs) false) (ses_file env id) id false t) (w_rs w) (w_store w)).
Proof.
  intros He Hg Hc Hst Hs Hsh Hf Ht. destruct (good_id_plain id Hg) as (Hid0 & _).
  set (ss0 := mkSess vars_create (ses_file env id) id false 0).
  unfold session_create. erewrite pbind_Ok by (by apply driver_create_stored). fold ss0.
  erewrite (pbind_Ok pget) by done. rewrite decide_False by done.
  assert (exists s, set_ss_mtime ss0 (drv_mtime env (w_store w) ss0) = set_ss_mtime s (drv_mtime env (w_store w) s)) as Hm
    by (by exists ss0).
  pose proof (drv_load_spec env (w_store w) (set_ss_mtime ss0 (drv_mtime env (w_store w) ss0)) vs t Hst
    (ses_file_ne _ _) Hs Hsh Hf Ht Hm) as El.
  erewrite pbind_Ok. 2: { unfold pignore, session_load, on_drv. cbn [w_store w_ss w_rs]. by rewrite El. }
  by erewrite (pbind_Ok pget) by done.
Qed.

(** Setting variables one after the other. *)
Definition set_vars (sets : list (list byte * list byte)) (w : world St D C) : world St D C :=
  foldl (fun w nv => (on_ss (session_set nv.1 nv.2) w).1) w sets.

(** A session that has not been saved yet. *)
Definition unsaved (ss : session) : Prop :=
  ss_id ss = [] /\ ss_removed ss = false /\ Forall saveable (v_list (ss_vars ss)).

Lemma set_vars_spec (sets : list (list byte * list byte)) (w : world St D C) :
  Forall (fun nv => nv.1 <> [] /\ (x00 ∉ nv.1)) sets -> unsaved (w_ss w) ->
  let w1 := set_vars sets w in
  unsaved (w_ss w1) /\ w_store w1 = w_store w /\
  (sets <> [] \/ v_list (ss_vars (w_ss w)) <> [] -> v_list (ss_vars (w_ss w1)) <> []).
Proof.
  intros Hs. revert w. induction Hs as [|[n v] sets [N1 N2] _ IH]; intros w Hw; [by split_and!; [..|intros []]|].
  destruct (session_set_spec (w_ss w) n v N1 N2) as (vs & E & _ & Sv).
  destruct (session_set_list (w_ss w) n v N1 N2) as (l1 & x & l2 & E' & _). rewrite E in E'. injection E' as Evs.
  assert (set_vars ((n, v) :: sets) w = set_vars sets (mkWorld (set_ss_vars (w_ss w) vs) (w_rs w) (w_store w))) as ->
    by (unfold set_vars; cbn [foldl fst snd]; by rewrite (on_ss_Ok _ _ _ _ E)).
  destruct (IH (mkWorld (set_ss_vars (w_ss w) vs) (w_rs w) (w_store w))) as (H1 & H2 & H3).
  { destruct Hw as (A & B & S). unfold unsaved. cbn [w_ss]. destruct (w_ss w); simpl in *. auto. }
  split_and!; [done|done|]. intros _. apply H3. right. cbn [w_ss]. destruct (w_ss w). simpl in *.
  injection Evs as ->. by destruct l1.
Qed.

(** C4: a session lasts from one request to the next.  A request without a session
    cookie gets a new session; after it has set variables and has been freed, the response
    has a cookie, and any later request that sends that cookie back to the same address
    before the session expires finds every variable with its value.  This holds for every
    store that keeps the contract [SesStore]. *)
Theorem session_persists (env1 env2 : ses_env) (w0 : world St D C) (sets : list (list byte * list byte)) :
  env_ok env1 -> env_ok env2 -> so_name env2 = so_name env1 -> ses_file env2 = ses_file env1 ->
  named (so_name env1) (v_list (rq_cookies env1)) = [] ->
  sets <> [] -> Forall (fun nv => nv.1 <> [] /\ (x00 ∉ nv.1)) sets ->
  let w1 := set_vars sets (session_create FILENAME_MAX env1 w0).1 in
  let vs := v_list (ss_vars (w_ss w1)) in
  ses_short vs -> length (session_text vs) <= st_fuel ->
  (forall file, st_takes (w_store w1) file vs) -> (i32 (now env2 - now env1) <= so_max_age env2)%Z ->
  exists w2 txt old, session_free FILENAME_MAX env1 w1 = (w2, Ok tt) /\
    h_fields (rs_header (w_rs w2)) =
      h_fields (rs_header (w_rs w1)) ++ [mk_field (bs "Set-Cookie", old); mk_field (bs "Set-Cookie", txt)] /\
    forall (rq : request D2 C2) (rs : response D C),
      rq_cookies env2 = cookies (request_parse_cookie (mk_field (bs "Cookie", upto ";" txt)) rq).1 ->
      named (so_name env1) (v_list (cookies rq)) = [] ->
      exists w3, session_create FILENAME_MAX env2 (mkWorld ses_zero rs (w_store w2)) = (w3, Ok tt) /\
        forall name, session_get (w_ss w3) name = session_get (w_ss w1) name.
Proof.
  intros He1 He2 Hn Hfile Hc Hne Hsets w1 vs Hsh Hf Ht Hage.
  destruct (create_new env1 w0 Hc) as [mt Ec].
  destruct (set_vars_spec sets (session_create FILENAME_MAX env1 w0).1 Hsets) as ((I1 & I2 & I3) & _ & I4);
    [rewrite Ec; by split_and!|]. specialize (I4 (or_introl Hne)). fold w1 in I1, I2, I3, I4.
  destruct (free_new env1 w1 He1 I1 I2 I3 I4 Hf Ht) as (w2 & id & txt & old & Hg & Ef & Gs & Fs & B).
  exists w2, txt, old. split_and!; [done|done|]. intros rq rs Hck Hrq. rewrite B in Hck. cbn [fst] in Hck.
  pose proof He1 as (_ & Hn0 & _ & _ & _ & Hnow1).
  rewrite (create_loaded env2 (mkWorld ses_zero rs (w_store w2)) id vs (now env1)); try done.
  - rewrite decide_False by lia. eexists. split; [done|]. intros name. by apply session_get_reloaded.
  - rewrite Hck, Hn. assert (v_list (cookies (add_cookies rq [fresh_var (so_name env1) id])) =
      v_list (cookies rq) ++ [fresh_var (so_name env1) id]) as -> by (by destruct rq). rewrite named_app, Hrq, named_cons. unfold var_get_name. cbn [v_sname fresh_var].
    destruct He1 as (_ & _ & Hen & _). rewrite <- Hen at 1. rewrite cstr_id by apply enc_plain. rewrite Hen. by rewrite strcaseeq_refl.
  - by rewrite Hfile.
Qed.

Lemma clean_spec (ss : session) :
  session_clean ss = (set_ss_vars ss (mkVars [] (v_foreign (ss_vars ss))), Ok tt).
Proof.
  unfold session_clean, vars_count. rewrite u_list_count_spec. destruct ss as [[l b] f i r t]. cbn [ss_vars v_list].
  assert (clean_loop (length l) (mkVars l b) = (mkVars [] b, Ok tt)) as ->; [|done].
  induction l as [|v l IH]; cbn [clean_loop length];
    unfold vars_getn; rewrite u_list_count_spec, u_list_get_n_spec; cbn [v_list length]; [by rewrite decide_True by lia|].
  rewrite decide_False by lia. cbn [lookup list_lookup]. exact IH.
Qed.

(** A session older than the greatest age is not used: a request that names it gets
    a session without variables, the data is removed from the store, the cookie is removed
    from the client and nothing is saved when the request ends. *)
Theorem session_expires (env : ses_env) (w : world St D C) (id : list byte) (vs : list var) (t : Z) :
  env_ok env -> session_is_good_id id = true ->
  named (so_name env) (v_list (rq_cookies env)) !! 0 = Some (fresh_var (so_name env) id) ->
  st_get (w_store w) (ses_file env id) = Some (session_text vs, t) -> st_one (w_store w) (ses_file env id) ->
  Forall saveable vs -> ses_short vs -> length (session_text vs) <= st_fuel ->
  (0 <= t < 2 ^ 31)%Z -> (so_max_age env < i32 (now env - t))%Z ->
  exists w', session_create FILENAME_MAX env w = (w', Ok tt) /\
    (forall name, session_get (w_ss w') name = Ok None) /\ st_get (w_store w') (ses_file env id) = None /\
    h_fields (rs_header (w_rs w')) = h_fields (rs_header (w_rs w)) ++
      [mk_field (bs "Set-Cookie", so_name env ++ bs "=; expires=Wed, 01-Jan-1990 10:10:10 GMT")] /\
    session_free FILENAME_MAX env w' = (w', Ok tt).
Proof.
  intros He Hg Hc Hst Hone Hs Hsh Hf Ht Hage.
  pose proof He as (_ & _ & _ & Hnl & _).
  rewrite (create_loaded env w id vs t), decide_True by (done || lia).
  erewrite pbind_Ok. 2: { unfold pignore, on_ss. cbn [w_ss w_rs w_store]. by rewrite clean_spec. }
  destruct (set_cookie_none (so_name env) (w_rs w) Hnl) as (rs' & old & Ek & Fk & ->).
  set (ss1 := mkSess (mkVars [] false) (ses_file env id) id true t).
  destruct (drv_remove_spec env (w_store w) ss1 Hone) as (st' & Er & Gr).
  exists (mkWorld ss1 rs' st'). split_and!; [|by intros name; rewrite session_get_eq|done|done|done].
  unfold pignore, session_remove. erewrite pbind_Ok. 2: { unfold pignore, on_rs. cbn [w_rs w_ss w_store]. by rewrite Ek. }
  erewrite pbind_Ok by done. unfold on_drv. cbn [w_store w_ss w_rs set_ss_removed set_ss_vars ss_vars v_foreign vars_app vars_create].
  fold ss1. by rewrite Er.
Qed.
End persist.
