(* ===== verification/Files.v ===== *)
(** Files: src/src/libio/iofd.c and [u_file_open] of src/src/libutils/utils.c, over the
    system calls of POSIX on regular files.

    The file system is a map from names to contents and modification times.  A descriptor
    works on the file system, so a device carries it along and gives it back when it is
    closed.  [Posix] is what the system decides: whether an [open] succeeds, and how many
    bytes a [read] or a [write] moves.  A call that a signal interrupts is repeated by the
    code until it has another result, which is the one modelled. *)

From stdpp Require Import gmap.
From S2P Require Import Prelude Libu Io IoSpec.

#[global] Instance byte_countable : Countable byte.
Proof.
  refine (inj_countable' (fun b => Byte.to_N b) (fun n => default x00 (Byte.of_N n)) _).
  intros b. by rewrite Byte.of_to_N.
Defined.

Abbreviation fsys := (gmap (list byte) (list byte * Z)).

Class Posix := {
  open_ok : list byte -> bool;
  rd_part : nat -> nat;
  wr_part : nat -> nat;
  rd_part_spec (n : nat) : 0 < n -> 0 < rd_part n <= n;
  wr_part_spec (n : nat) : 0 < n -> 0 < wr_part n <= n
}.

(** A descriptor opened for reading: the contents of its file and the offset. *)
Record frd := mkFrd { fr_data : list byte; fr_off : nat }.

(** A descriptor opened for writing, with the file system; [fw_now] is the time that a
    write leaves in the file. *)
Record fwr := mkFwr { fw_fs : fsys; fw_name : list byte; fw_off : nat; fw_now : Z }.

Section fd_ops.
Context {P : Posix}.

(** [io_fd_read], [io_fd_write] on a descriptor of their mode; the other mode fails. *)
Definition io_fd_read (d : frd) (size : nat) : frd * option (list byte) :=
  let out := take (rd_part size) (drop (fr_off d) (fr_data d)) in
  (mkFrd (fr_data d) (fr_off d + length out), Some out).

Definition io_fd_write (d : fwr) (buf : list byte) : fwr * option nat :=
  match fw_fs d !! fw_name d with
  | Some (data, _) =>
      let k := wr_part (length buf) in
      let data' := take (fw_off d) data ++ take k buf ++ drop (fw_off d + k) data in
      (mkFwr (<[fw_name d := (data', fw_now d)]> (fw_fs d)) (fw_name d) (fw_off d + k) (fw_now d), Some k)
  | None => (d, None)
  end.

#[global] Instance frd_ops : DevOps frd := {|
  dev_read := io_fd_read;
  dev_write := fun d _ => (d, None);
  dev_seek := fun d off => (mkFrd (fr_data d) off, Some off);
  dev_tell := fun d => Some (fr_off d);
  dev_close := fun d => (d, true)
|}.

#[global] Instance fwr_ops : DevOps fwr := {|
  dev_read := fun d _ => (d, None);
  dev_write := io_fd_write;
  dev_seek := fun d off => (mkFwr (fw_fs d) (fw_name d) off (fw_now d), Some off);
  dev_tell := fun d => Some (fw_off d);
  dev_close := fun d => (d, true)
|}.

(** [open] with [O_CREAT]: the file system afterwards. *)
Definition open_creat (fs : fsys) (file : list byte) (t : Z) : option fsys :=
  if open_ok file then
    Some (match fs !! file with Some _ => fs | None => <[file := ([], t)]> fs end)
  else None.

(** [u_file_open] with [O_RDONLY | O_CREAT] and with [O_WRONLY | O_CREAT].  When the name
    cannot be copied the file stays created. *)
Definition u_file_open_rd {L : Libu} {C : Type} (fs : fsys) (file : list byte) (t : Z) : fsys * res (io frd C) :=
  match open_creat fs file t with
  | None => (fs, Fail)
  | Some fs' =>
      let '(i, r) := io_name_set (io_prv_create (mkFrd (default [] (fst <$> fs' !! file)) 0)) file in
      (fs', (fun _ => i) <$> r)
  end.

(** With [O_RDONLY] alone: an existing file. *)
Definition u_file_open_ro {L : Libu} {C : Type} (fs : fsys) (file : list byte) : res (io frd C) :=
  match fs !! file with
  | Some (data, _) =>
      if open_ok file then
        let '(i, r) := io_name_set (io_prv_create (mkFrd data 0)) file in (fun _ => i) <$> r
      else Fail
  | None => Fail
  end.

Definition u_file_open_wr {L : Libu} {C : Type} (fs : fsys) (file : list byte) (t : Z) : fsys * res (io fwr C) :=
  match open_creat fs file t with
  | None => (fs, Fail)
  | Some fs' =>
      let '(i, r) := io_name_set (io_prv_create (mkFwr fs' file 0 t)) file in
      (fs', (fun _ => i) <$> r)
  end.
End fd_ops.

(** ** The contracts *)

Section contracts.
Context {P : Posix}.

#[global] Program Instance frd_source : DevSource frd := {| src_rest d := drop (fr_off d) (fr_data d) |}.
Next Obligation.
  intros d n Hn. eexists _, _. split; [reflexivity|]. cbn [fr_data fr_off].
  pose proof (rd_part_spec n Hn) as Hp. rewrite length_take. split_and!.
  - rewrite <- drop_drop. set (r := drop (fr_off d) (fr_data d)).
    destruct (decide (rd_part n <= length r)).
    + by rewrite Nat.min_l, take_drop by lia.
    + rewrite Nat.min_r, drop_ge, take_ge, app_nil_r by lia. done.
  - lia.
  - intros H%(f_equal length). rewrite length_take in H. apply nil_length_inv. simpl in H. lia.
Qed.

(** Appending to a file. *)
Definition fw_content (d : fwr) : list byte := default [] (fst <$> fw_fs d !! fw_name d).

#[global] Program Instance fwr_sink : DevSink fwr := {|
  sunk d := fw_content d;
  sink_ready d _ := is_Some (fw_fs d !! fw_name d) /\ fw_off d = length (fw_content d)
|}.
Next Obligation.
  intros d b n Hb [[[data t] Hd] Ho]. pose proof (wr_part_spec (length b) ltac:(lia)) as Hp.
  assert (fw_content d = data) as Hc by (unfold fw_content; by rewrite Hd). rewrite Hc in *.
  set (data' := take (fw_off d) data ++ take (wr_part (length b)) b ++ drop (fw_off d + wr_part (length b)) data).
  set (d' := mkFwr (<[fw_name d := (data', fw_now d)]> (fw_fs d)) (fw_name d) (fw_off d + wr_part (length b)) (fw_now d)).
  assert (fw_fs d' !! fw_name d' = Some (data', fw_now d)) as Hd' by apply lookup_insert_eq.
  assert (fw_content d' = data') as Hc' by (unfold fw_content; by rewrite Hd').
  exists d', (wr_part (length b)). rewrite Hc', Hd'. split; [cbn [dev_write fwr_ops]; unfold io_fd_write; by rewrite Hd|].
  unfold data'. cbn [d' fw_off]. rewrite (drop_ge data), (take_ge data) by lia. rewrite app_nil_r, length_app, length_take.
  split_and!; [lia|lia|done|by eexists|lia].
Qed.

Lemma fwr_room (d : fwr) (n m : nat) : sink_ready d n -> sink_ready d m.
Proof. done. Qed.
End contracts.

(** What writing keeps of a device: a relation that holds between the device before and
    after each write holds between the device before and after an operation on its stream. *)
Section dev_frame.
Context {L : Libu} {D C : Type} {DO : DevOps D} {CO : CodecOps C}.
Variable R : D -> D -> Prop.
Context {PR : PreOrder R}.
Hypothesis write_R : forall d b, R d (dev_write d b).1.
Implicit Types i : io D C.

Lemma flush_loop_R (fuel : nat) i (off : nat) : R (io_dev i) (io_dev (flush_loop fuel i off).1).
Proof.
  revert i off. induction fuel as [|fuel IH]; intros i off; cbn [flush_loop]; [by case_decide|].
  case_decide; [done|]. pose proof (write_R (io_dev i) (mread (wbuf (io_w i)) off (wcount (io_w i)))) as Hw.
  destruct (dev_write _ _) as [d [[|c]|]]; simpl in Hw; try done. case_decide; [done|].
  etrans; [exact Hw|]. apply (IH (set_w (set_dev i d) _)).
Qed.

Lemma io_flush_R i : R (io_dev i) (io_dev (io_flush i).1).
Proof. apply flush_loop_R. Qed.

Lemma write_loop_R (fuel n : nat) i (rem : list byte) : R (io_dev i) (io_dev (write_loop fuel n i rem).1).
Proof.
  revert i rem. induction n as [|n IH]; intros i rem; (destruct rem as [|b rem]; [done|]); cbn [write_loop]; [done|].
  assert (R (io_dev i) (io_dev (flush_if_full i).1)) as Hf by (unfold flush_if_full; case_decide; [apply io_flush_R|done]).
  destruct (flush_if_full i) as [i1 []]; try done. simpl in Hf.
  destruct (io_transfer _ _ _ _) as [cs [[out c]| | |]]; try done. case_decide; [done|].
  etrans; [exact Hf|]. apply (IH (wbuf_put (set_codecs i1 cs) out)).
Qed.

Lemma io_printf_R (fuel : nat) i (text : list byte) : R (io_dev i) (io_dev (io_printf fuel i text).1).
Proof.
  assert (R (io_dev i) (io_dev (io_write fuel i text).1)) as Hw.
  { unfold io_write, io_wbuf_alloc. destruct (w_alloc (io_w i)).
    - pose proof (write_loop_R fuel fuel i text). by destruct (write_loop _ _ _ _).
    - destruct (u_alloc _); [|done].
      pose proof (write_loop_R fuel fuel (set_w i (mkWside true (replicate IO_WR_BUFSZ x00) IO_WR_BUFSZ (wcount (io_w i)))) text).
      by destruct (write_loop _ _ _ _). }
  unfold io_printf. destruct (io_write fuel i text) as [i' r]. case_decide; [by destruct (u_alloc _)|by case_decide].
Qed.
End dev_frame.

(** Freeing a stream that only has buffered output: the device gets it all. *)
Lemma io_free_flushes {L : Libu} {LM : LibuMem L} {D C : Type} {DO : DevOps D} {DK : DevSink D} {CO : CodecOps C}
    (fuel : nat) (i : io D C) :
  writable i -> room i 0 -> io_refcnt i = 1 ->
  exists i1, io_flush (set_refcnt i 0) = (i1, Ok tt) /\
    io_free fuel i = (None, (dev_close (io_dev i1)).1, Ok tt) /\ sunk (io_dev i1) = outstream i.
Proof.
  intros Hw Hr Hc. destruct (io_flush_spec (set_refcnt i 0) 0 Hw Hr) as (i1 & E & F1 & F2 & F3 & F4 & F5 & F6).
  exists i1. split; [done|]. split.
  - unfold io_free. rewrite Hc. unfold io_codecs_remove. cbn [set_refcnt io_codecs]. rewrite (proj2 Hw).
    change (mkIo (io_dev i) (io_codecs i) (io_r i) (io_w i) 0 (io_name i) (io_secure i)) with (set_refcnt i 0).
    rewrite E. unfold io_close. destruct (dev_close (io_dev i1)). done.
  - unfold outstream in F4 at 1. rewrite F2, mread_0, app_nil_r in F4. exact F4.
Qed.

(** One way a system can behave. *)
Definition posix_ref : Posix.
Proof. refine {| open_ok := fun _ => true; rd_part := fun n => n; wr_part := fun n => n |}; lia. Defined.
