(* ===== verification/SesDrv.v ===== *)
(** The drivers of sessions: in memory (session_mem_save, session_mem_load and
    session_mem_remove of src/src/libpage/ses_mem.c over [SesMem]) and in files
    (src/src/libpage/ses_file.c over [Files]).  Both are instances of [SesDriver] and keep
    the contract [SesStore], so the theorems of [Session] hold for them. *)

From stdpp Require Import gmap.
From S2P Require Import Prelude Libu Encode Path Date Io IoSpec IoMem Getline Header Vars Request Response.
From S2P Require Import Atom SesMem Md5 Session Files.

(** ** Memory *)

(** The options with the list of sessions, and the messages sent to the parent. *)
Definition mem_store : Type := session_opt * list ppc_msg.

Section mem.
Context {L : Libu} {C : Type} {CO : CodecOps C}.
Variables (fuel : nat) (pipc : bool) (ppc_write : ppc_msg -> bool) (save_codecs load_codecs : list C).

Definition mem_save (env : ses_env) (st : mem_store) (ss : session) : mem_store * session * res unit :=
  match session_prv_save_to_buf save_codecs (S fuel) ss with
  | Ok buf =>
      let '(so, sent, r) := session_mem_add pipc ppc_write (now env) st.1 st.2 (ss_filename ss) buf (now env) in
      ((so, sent), ss, r)
  | Fail => (st, ss, Fail)
  | Fault => (st, ss, Fault)
  | Timeout => (st, ss, Timeout)
  end.

(** Outside the prefork model; [mtime] is an [int]. *)
Definition mem_load (env : ses_env) (st : mem_store) (ss : session) : mem_store * session * res unit :=
  match session_mem_load st.1 (ss_filename ss) with
  | Ok (data, mtime) =>
      let '(ss', r) := session_prv_load_from_buf load_codecs (S fuel) (S fuel) (set_ss_mtime ss (i32 mtime)) data in
      (st, ss', r)
  | Fail => (st, ss, Fail)
  | Fault => (st, ss, Fault)
  | Timeout => (st, ss, Timeout)
  end.

Definition mem_remove (env : ses_env) (st : mem_store) (ss : session) : mem_store * session * res unit :=
  let '(so, sent, r) := session_mem_remove pipc ppc_write st.1 st.2 (ss_filename ss) in ((so, sent), ss, r).

(** [session_mem_create] takes the present time. *)
#[export] Instance mem_driver : SesDriver mem_store := {|
  drv_load := mem_load;
  drv_save := mem_save;
  drv_remove := mem_remove;
  drv_mtime := fun env _ _ => i32 (now env)
|}.
End mem.

(** ** Files *)

Section file.
Context {L : Libu} {P : Posix} {C : Type} {CO : CodecOps C}.
Variables (fuel : nat) (save_codecs load_codecs : list C).

(** The old file goes first; without variables there is nothing to save. *)
Definition session_file_save (env : ses_env) (fs : fsys) (ss : session) : fsys * session * res unit :=
  let fs1 := delete (ss_filename ss) fs in
  if decide (vars_count (ss_vars ss) = 0) then (fs1, ss, Ok tt) else
  let '(fs2, o) := u_file_open_wr (C:=C) fs1 (ss_filename ss) (now env) in
  match o with
  | Ok io =>
      let '(io1, r) := session_prv_save_to_io save_codecs (S fuel) ss io in
      let '(_, d, _) := io_free (S fuel) io1 in
      (fw_fs d, ss, r)
  | Fail => (fs2, ss, Fail)
  | Fault => (fs2, ss, Fault)
  | Timeout => (fs2, ss, Timeout)
  end.

Definition session_file_load (env : ses_env) (fs : fsys) (ss : session) : fsys * session * res unit :=
  if decide (ss_filename ss = []) then (fs, ss, Fail) else
  let '(fs1, o) := u_file_open_rd (C:=C) fs (ss_filename ss) (now env) in
  match o with
  | Ok io =>
      let '(ss1, _, r) := session_prv_load_from_io load_codecs (S fuel) (S fuel) ss io in
      (fs1, ss1, r)
  | Fail => (fs1, ss, Fail)
  | Fault => (fs1, ss, Fault)
  | Timeout => (fs1, ss, Timeout)
  end.

Definition session_file_remove (env : ses_env) (fs : fsys) (ss : session) : fsys * session * res unit :=
  (delete (ss_filename ss) fs, ss, Ok tt).

(** [session_file_create]: the time of the file, or the present time. *)
Definition file_mtime (env : ses_env) (fs : fsys) (ss : session) : Z :=
  if decide (ss_filename ss = []) then i32 (now env)
  else match fs !! ss_filename ss with Some (_, t) => i32 t | None => i32 (now env) end.

#[export] Instance file_driver : SesDriver fsys := {|
  drv_load := session_file_load;
  drv_save := session_file_save;
  drv_remove := session_file_remove;
  drv_mtime := file_mtime
|}.
End file.

(** ** The contracts *)

Lemma load_from_io_same {L : Libu} {D C : Type} {DO : DevOps D} {CO : CodecOps C} (cs : list C) (fuel n : nat)
    (ss : session) (i : io D C) :
  let '(ss', _, _) := session_prv_load_from_io cs fuel n ss i in
  ss_id ss' = ss_id ss /\ ss_filename ss' = ss_filename ss.
Proof.
  unfold session_prv_load_from_io. destruct (load_vars_loop _ _ _ _) as [[vs i1] r]. destruct (io_codecs_remove _ _) as [i2 r2].
  by destruct ss.
Qed.

Section frames.
Context {L : Libu} {C : Type} {CO : CodecOps C}.
Variables (fuel : nat) (save_codecs load_codecs : list C).

#[export] Instance mem_frame (pipc : bool) (ppc_write : ppc_msg -> bool) :
  SesDriverFrame mem_store (SD:=mem_driver fuel pipc ppc_write save_codecs load_codecs).
Proof.
  constructor. intros f env st ss [-> | [-> | -> ]]; cbn [drv_load drv_save drv_remove mem_driver].
  - unfold mem_load. destruct (session_mem_load _ _) as [[data t]| | |]; try done.
    unfold session_prv_load_from_buf. pose proof (load_from_io_same load_codecs (S fuel) (S fuel) (set_ss_mtime ss (i32 t))
      (io_mem_create data (length data) false)) as H.
    destruct (session_prv_load_from_io _ _ _ _ _) as [[ss' i] r]. by destruct ss.
  - unfold mem_save. destruct (session_prv_save_to_buf _ _ _); try done.
    by destruct (session_mem_add _ _ _ _ _ _ _ _) as [[so sent] r].
  - unfold mem_remove. by destruct (session_mem_remove _ _ _ _ _) as [[so sent] r].
Qed.

#[export] Instance file_frame {P : Posix} : SesDriverFrame fsys (SD:=file_driver fuel save_codecs load_codecs).
Proof.
  constructor. intros f env st ss [-> | [-> | -> ]]; cbn [drv_load drv_save drv_remove file_driver].
  - unfold session_file_load. case_decide; [done|]. destruct (u_file_open_rd _ _ _) as [fs1 [i| | |]]; try done.
    pose proof (load_from_io_same load_codecs (S fuel) (S fuel) ss i) as Hl.
    by destruct (session_prv_load_from_io _ _ _ _ _) as [[ss' i'] r].
  - unfold session_file_save. case_decide; [done|]. destruct (u_file_open_wr _ _ _) as [fs1 [i| | |]]; try done.
    destruct (session_prv_save_to_io _ _ _ _) as [i1 r]. by destruct (io_free _ _) as [[o d] r'].
  - done.
Qed.
End frames.

Lemma text_count (vs : list var) : length vs <= length (session_text vs).
Proof.
  induction vs as [|v vs IH]; [done|]. unfold session_text in *. cbn [map concat length]. rewrite !length_app. simpl. lia.
Qed.

Lemma i32_nonneg (z : Z) : (0 <= z < 2 ^ 31)%Z -> i32 z = z.
Proof. intros H. unfold i32. rewrite Z.mod_small; lia. Qed.

Section mem_contract.
Context {L : Libu} {LS : LibuSpec L} {LM : LibuMem L} {C : Type} {CO : CodecOps C}.
Variables (fuel : nat) (pipc : bool) (ppc_write : ppc_msg -> bool).
Hypothesis ppc_ok : forall m, ppc_write m = true.

(** The list has room for the data: it is new and fits, or it replaces the old data without
    another session having to go. *)
Definition mem_takes (st : mem_store) (file : list byte) (vs : list var) : Prop :=
  let so := st.1 in
  let sz := Z.of_nat (length (session_text vs)) in
  length (session_text vs) <= sum_list (map var_room vs) /\ (pipc = true -> length file <= SESSION_FILENAME_MAX_LENGTH) /\
  exists l, repr (so_atoms so) l /\ fits l /\ (total l + sz < SIZE_MOD)%Z /\ (Z.of_nat (length l) + 1 < SIZE_MOD)%Z /\
    (max_count so = 0 \/ Z.of_nat (length l) <= max_count so)%Z /\
    match lookup_id file l with
    | None => mem_limit so = 0 \/ sz <= mem_limit so
    | Some (_, eo) => mem_limit so = 0 \/ total l + sz - e_size eo <= mem_limit so
    end%Z.

Lemma atom_add_stored (st : mem_store) (sent : list ppc_msg) (file : list byte) (vs : list var) (t : Z) :
  file <> [] -> mem_takes st file vs ->
  exists so' sent', so_atom_add pipc ppc_write st.1 sent file (session_text vs) t = (so', sent', Ok tt) /\
    session_mem_load so' file = Ok (session_text vs, t).
Proof.
  intros Hf (_ & _ & l & Hr & Hfit & Hz & Hz2 & Hmc & Hl).
  destruct (lookup_id file l) as [[q eo]|] eqn:E.
  - destruct (lookup_id_split _ _ _ E) as (l1 & l2 & -> & H1 & H2). simpl in H2.
    destruct (so_atom_add_again pipc ppc_write ppc_ok st.1 sent l1 l2 q eo file (session_text vs) t) as (s' & p & Ea & _ & _ & El); eauto.
  - destruct (so_atom_add_new_spec pipc ppc_write ppc_ok st.1 sent l file (session_text vs) t)
      as (s' & gone & left & p & Ea & R & _); [done..|]. eexists _, _. split; [exact Ea|]. by eapply session_mem_load_hd.
Qed.

(** A name that the list holds at most once. *)
Definition mem_one (st : mem_store) (file : list byte) : Prop :=
  exists l, repr (so_atoms st.1) l /\ fits l /\
    forall l1 q e l2, l = l1 ++ (q, e) :: l2 -> lookup_id file l1 = None -> e_id e = file -> lookup_id file (l1 ++ l2) = None.

Lemma mem_load_none (so : session_opt) (l : list (nat * entry)) (file : list byte) :
  repr (so_atoms so) l -> lookup_id file l = None -> session_mem_load so file = Fail.
Proof.
  intros Hr Hn. unfold session_mem_load. case_decide; [done|]. rewrite (atoms_get_spec _ _ _ Hr). by rewrite Hn.
Qed.

Definition mem_get (st : mem_store) (file : list byte) : option (list byte * Z) :=
  match session_mem_load st.1 file with Ok x => Some x | _ => None end.

Lemma mem_save_stored env st ss :
  let vs := v_list (ss_vars ss) in
  Forall saveable vs -> ss_filename ss <> [] -> length (session_text vs) <= fuel -> mem_takes st (ss_filename ss) vs ->
  exists st', mem_save (C:=C) fuel pipc ppc_write [] env st ss = (st', ss, Ok tt) /\
    mem_get st' (ss_filename ss) = Some (session_text vs, now env).
Proof.
  intros vs Hs Hfn Hf Ht. unfold mem_save.
  rewrite save_to_buf_spec; [|done|apply Ht|fold vs; lia]. fold vs.
  assert (exists sent1, session_mem_add pipc ppc_write (now env) st.1 st.2 (ss_filename ss) (session_text vs) (now env) =
    so_atom_add pipc ppc_write st.1 sent1 (ss_filename ss) (session_text vs) (now env)) as [sent1 ->].
  { unfold session_mem_add. destruct Ht as (_ & Hlen & _). destruct pipc; [|by eexists]. rewrite u_alloc_ok.
    rewrite decide_False by (specialize (Hlen eq_refl); lia). rewrite ppc_ok. by eexists. }
  destruct (atom_add_stored st sent1 (ss_filename ss) vs (now env) Hfn Ht) as (so' & sent' & -> & El).
  eexists. split; [done|]. unfold mem_get. cbn [fst]. by rewrite El.
Qed.

Lemma mem_load_stored env st ss vs t :
  mem_get st (ss_filename ss) = Some (session_text vs, t) ->
  Forall saveable vs -> ses_short vs -> length (session_text vs) <= fuel -> (0 <= t < 2 ^ 31)%Z ->
  mem_load (C:=C) fuel [] env st ss =
    (st, set_ss_mtime (set_ss_vars ss (vars_app (ss_vars ss) (map reloaded vs))) t, Ok tt).
Proof.
  intros Hst Hs Hsh Hf Ht. unfold mem_load, mem_get in *.
  destruct (session_mem_load st.1 (ss_filename ss)) as [x| | |]; try done. injection Hst as ->.
  rewrite i32_nonneg by done. rewrite load_from_buf_spec; [|done|done|lia|pose proof (text_count vs); lia].
  by destruct ss.
Qed.

Lemma mem_remove_stored env st ss : mem_one st (ss_filename ss) ->
  exists st', mem_remove pipc ppc_write env st ss = (st', ss, Ok tt) /\ mem_get st' (ss_filename ss) = None.
Proof.
  intros (l & Hr & Hf & Hone). unfold mem_remove, session_mem_remove, mem_get.
  assert (exists so', so_atom_remove st.1 (ss_filename ss) = (so', Ok tt) /\ session_mem_load so' (ss_filename ss) = Fail)
    as (so' & -> & El).
  { pose proof (session_remove_spec st.1 l (ss_filename ss) Hr Hf) as H.
    destruct (lookup_id (ss_filename ss) l) as [[q eo]|] eqn:E.
    - destruct H as (l1 & l2 & s' & -> & H1 & H2 & E' & R' & _). eexists. split; [exact E'|].
      eapply mem_load_none; [exact R'|]. by eapply Hone.
    - eexists. split; [exact H|]. by eapply mem_load_none. }
  rewrite ppc_ok. destruct pipc; eexists; (split; [done|]); cbn [fst]; by rewrite El.
Qed.

#[export] Instance mem_sstore : SesStore mem_store (SD:=mem_driver fuel pipc ppc_write (C:=C) [] []).
Proof.
  refine {| st_get := mem_get; st_takes := mem_takes; st_fuel := fuel; st_one := mem_one |};
    cbn [drv_save drv_load drv_remove mem_driver].
  - intros. by apply mem_save_stored.
  - intros. by apply mem_load_stored.
  - apply mem_remove_stored.
Defined.
End mem_contract.

Section file_contract.
Context {L : Libu} {LS : LibuSpec L} {LM : LibuMem L} {P : Posix} {C : Type} {CO : CodecOps C}.
Variable fuel : nat.

(** Writes stay in the file and leave the time of the stream. *)
Definition same_file (d d' : fwr) : Prop :=
  fw_name d' = fw_name d /\ fw_now d' = fw_now d /\
  (snd <$> fw_fs d !! fw_name d = Some (fw_now d) -> snd <$> fw_fs d' !! fw_name d = Some (fw_now d)).

#[local] Instance same_file_preorder : PreOrder same_file.
Proof.
  split; [by intros d|]. intros a b c (N1 & T1 & M1) (N2 & T2 & M2). split_and!; [congruence..|].
  intros H. rewrite <- N1, <- T1 in *. apply M2. rewrite N1, T1. rewrite N1, T1 in M1. apply M1. by rewrite <- N1, <- T1.
Qed.

Lemma fd_write_same (d : fwr) (b : list byte) : same_file d (dev_write d b).1.
Proof.
  cbn [dev_write fwr_ops]. unfold io_fd_write. destruct (fw_fs d !! fw_name d) as [[data t]|]; [|done].
  split_and!; [done|done|]. intros _. etrans; [apply (f_equal (fmap snd)), lookup_insert_eq|done].
Qed.

Lemma save_loop_same (vs : list var) (s : io fwr C * res unit) :
  same_file (io_dev s.1) (io_dev (foreach_loop (save_cb (S fuel)) vs s).1).
Proof.
  revert s. induction vs as [|v vs IH]; intros s; [done|]. cbn [foreach_loop]. unfold save_cb at 1.
  assert (same_file (io_dev s.1) (io_dev (session_prv_save_var (S fuel) v s.1).1)) as Hv.
  { unfold session_prv_save_var. destruct (_ && _); [done|]. destruct (Url.u_urlncpy _ _ _); try done. case_decide; [done|].
    destruct (var_get_value v).
    - destruct (_ && _); [done|]. destruct (Url.u_urlncpy _ _ _); try done. case_decide; [done|].
      apply io_printf_R; [apply _|apply fd_write_same].
    - apply io_printf_R; [apply _|apply fd_write_same]. }
  destruct (session_prv_save_var (S fuel) v s.1) as [i []]; try done. etrans; [exact Hv|apply (IH (i, Ok a))].
Qed.

Lemma file_save_stored env fs ss :
  let vs := v_list (ss_vars ss) in
  Forall saveable vs -> vs <> [] -> length (session_text vs) <= fuel -> open_ok (ss_filename ss) = true ->
  exists fs', session_file_save (C:=C) fuel [] env fs ss = (fs', ss, Ok tt) /\
    fs' !! ss_filename ss = Some (session_text vs, now env).
Proof.
  intros vs Hs Hne Hf Ho. unfold session_file_save. unfold vars_count. rewrite u_list_count_spec.
  rewrite decide_False by (fold vs; by destruct vs). unfold u_file_open_wr, open_creat. rewrite Ho, lookup_delete_eq.
  unfold io_name_set. rewrite u_alloc_ok. cbn [fmap res_fmap].
  set (d0 := mkFwr _ _ _ _). set (i0 := set_name (io_prv_create d0) _).
  assert (fw_fs d0 !! fw_name d0 = Some ([], now env)) as Hd0 by apply lookup_insert_eq.
  assert (fw_content d0 = []) as Hc0 by (unfold fw_content; by rewrite Hd0).
  assert (writable i0) as W0 by done. assert (room i0 (length (session_text vs) + 0)) as R0.
  { unfold room. change (sink_ready d0 (0 + (length (session_text vs) + 0))). split; [by rewrite Hd0; eexists|by rewrite Hc0]. }
  destruct (save_to_io_spec (S fuel) 0 ss i0 Hs W0 R0 ltac:(fold vs; lia)) as (i1 & E1 & W1 & R1 & O1 & (_ & _ & Hrc & _)).
  rewrite E1. destruct (io_free_flushes (S fuel) i1 W1 R1 Hrc) as (i2 & E2 & -> & O2).
  assert (same_file d0 (io_dev i2)) as (N & T & M).
  { etrans; [|pose proof (io_flush_R same_file fd_write_same (set_refcnt i1 0)) as Hfl; rewrite E2 in Hfl; exact Hfl].
    pose proof (save_loop_same vs (i0, Ok tt)) as Hsl. unfold session_prv_save_to_io, vars_foreach in E1. cbn [foldl] in E1.
    fold vs in E1. destruct (save_loop_spec (S fuel) 0 vs i0 Hs W0 R0 ltac:(lia)) as (i3 & E3 & W3 & _).
    rewrite E3 in Hsl, E1. unfold io_codecs_remove in E1. rewrite (proj2 W3) in E1. by injection E1 as <-. }
  specialize (M ltac:(by rewrite Hd0)). eexists. split; [done|]. cbn [dev_close fwr_ops fst].
  change (fw_name d0) with (ss_filename ss) in *. change (fw_now d0) with (now env) in *.
  cbn [sunk fwr_sink] in O2. rewrite O1 in O2. unfold outstream in O2. cbn [i0 io_dev set_name io_prv_create sunk fwr_sink] in O2.
  rewrite Hc0 in O2. cbn [io_w wside0 wcount] in O2. rewrite mread_0 in O2. cbn [app] in O2.
  unfold fw_content in O2. rewrite N in O2. destruct (fw_fs (io_dev i2) !! ss_filename ss) as [[x t]|]; [|done].
  injection M as ->. simpl in O2. by subst x.
Qed.

Lemma file_load_stored env fs ss vs t :
  fs !! ss_filename ss = Some (session_text vs, t) -> ss_filename ss <> [] -> open_ok (ss_filename ss) = true ->
  Forall saveable vs -> ses_short vs -> length (session_text vs) <= fuel -> (0 <= t < 2 ^ 31)%Z ->
  (exists ss0, ss = set_ss_mtime ss0 (file_mtime env fs ss0)) ->
  session_file_load (C:=C) fuel [] env fs ss =
    (fs, set_ss_mtime (set_ss_vars ss (vars_app (ss_vars ss) (map reloaded vs))) t, Ok tt).
Proof.
  intros Hfs Hne Ho Hs Hsh Hf Ht [ss0 Hm]. unfold session_file_load. rewrite decide_False by done.
  unfold u_file_open_rd, open_creat. rewrite Ho, Hfs, Hfs. unfold io_name_set. rewrite u_alloc_ok. cbn [fmap res_fmap option_fmap option_map default fst].
  set (i := set_name _ _).
  assert (readable i /\ instream i = session_text vs) as [Hr Hi].
  { split; [by split_and!|]. unfold instream, rwin, uwin. cbn [i set_name io_prv_create io_r rside0 rbuf roff rcount ubuf uoff ucount io_dev].
    rewrite !mread_0. cbn [app src_rest frd_source fr_off fr_data]. by rewrite drop_0. }
  destruct (load_from_io_spec (S fuel) (S fuel) vs ss i Hs Hsh Hr Hi ltac:(lia)) as (i' & ->);
    [pose proof (text_count vs); lia|].
  do 2 f_equal. subst ss. unfold file_mtime. destruct ss0 as [a b c d e]. cbn in *.
  rewrite decide_False by done. rewrite Hfs, i32_nonneg by done. done.
Qed.

(** The file system as a store; a file can be opened. *)
#[export] Instance file_sstore (Ho : forall f, open_ok f = true) :
  SesStore fsys (SD:=file_driver fuel (C:=C) [] []).
Proof.
  refine {| st_get := fun fs f => fs !! f; st_takes := fun _ _ _ => True; st_fuel := fuel; st_one := fun _ _ => True |};
    cbn [drv_save drv_load drv_remove drv_mtime file_driver].
  - intros. by apply file_save_stored.
  - intros. by apply file_load_stored.
  - intros env fs ss _. eexists. split; [done|]. apply lookup_delete_eq.
Defined.
End file_contract.

(** ** Evaluation *)

Definition env1 : ses_env :=
  mkEnv (bs "klone_sid") (bs "/tmp") 1200 vars_create (bs "127.0.0.1:80") 1000000000 17 4321 99.

(** The cookies of the next request. *)
Definition env2 (cs : vars) : ses_env :=
  mkEnv (bs "klone_sid") (bs "/tmp") 1200 cs (bs "127.0.0.1:80") 1000000600 18 4322 7.

Definition sets1 : list (list byte * list byte) := [(bs "user", bs "tho & co"); (bs "n", bs "42"); (bs "USER", bs "tho")].

Definition file_world : world fsys io_mem no_codec := mkWorld ses_zero rs0 ∅.
Definition mem_world : world mem_store io_mem no_codec := mkWorld ses_zero rs0 (so_empty 0 0, []).

Lemma env_ok_1 : env_ok 4096 env1.
Proof. split_and!; done || compute_decide. Qed.
Lemma env_ok_2 (cs : vars) : env_ok 4096 (env2 cs).
Proof. split_and!; done || compute_decide. Qed.

#[local] Existing Instance posix_ref.
#[local] Instance fdrv : SesDriver fsys := file_driver (L:=libu_ref) 300 (C:=no_codec) [] [].
#[local] Instance fstore : SesStore fsys := file_sstore (L:=libu_ref) (C:=no_codec) 300 (fun _ => eq_refl).

Definition id1 : list byte := bs "ba6b3efd0b8e9014562e35c1242185b8".
Definition cookies1 : vars := mkVars [fresh_var (bs "klone_sid") id1] false.
Definition world1 : world fsys io_mem no_codec :=
  set_vars (L:=libu_ref) sets1 (session_create (L:=libu_ref) 4096 env1 file_world).1.

Lemma session_persists_witness :
  exists w2 w3, session_free (L:=libu_ref) 4096 env1 world1 = (w2, Ok tt) /\
    session_create (L:=libu_ref) 4096 (env2 cookies1) (mkWorld ses_zero rs0 (w_store w2)) = (w3, Ok tt) /\
    session_get (L:=libu_ref) (w_ss w3) (bs "user") = Ok (Some (bs "tho")).
Proof.
  destruct (session_persists (L:=libu_ref) (D2:=io_mem) (C2:=no_codec) 4096 env1 (env2 cookies1) file_world sets1)
    as (w2 & txt & old & E & F & H).
  - apply env_ok_1.
  - apply env_ok_2.
  - done.
  - done.
  - done.
  - done.
  - repeat constructor; try discriminate; compute_decide.
  - apply (bool_decide_unpack _). vm_compute. exact Logic.I.
  - apply (bool_decide_unpack _). vm_compute. exact Logic.I.
  - done.
  - vm_compute. discriminate.
  - assert (txt = bs "klone_sid=" ++ id1) as ->.
    { assert (f_value <$> last (h_fields (rs_header (w_rs w2))) = Some (Some (bs "klone_sid=" ++ id1))) as Hl.
      { change w2 with ((w2, Ok tt : res unit).1). rewrite <- E. vm_compute. reflexivity. }
      rewrite F in Hl. change [?a; ?b] with ([a] ++ [b]) in Hl. rewrite app_assoc, last_snoc in Hl. by injection Hl. }
    destruct (H rq0 rs0) as (w3 & E3 & Hg); [vm_compute; reflexivity|done|].
    exists w2, w3. split_and!; [done|done|]. rewrite Hg. vm_compute. reflexivity.
Defined.

Definition vars1 : list var := [fresh_var (bs "n") (bs "42" ++ [x00])].
Definition env_late : ses_env :=
  mkEnv (bs "klone_sid") (bs "/tmp") 1200 cookies1 (bs "127.0.0.1:80") 1000002000 18 4322 7.
Definition file_world1 : world fsys io_mem no_codec :=
  mkWorld ses_zero rs0 {[ ses_file env_late id1 := (session_text vars1, 1000000000%Z) ]}.

Lemma session_expires_witness :
  exists w', session_create (L:=libu_ref) 4096 env_late file_world1 = (w', Ok tt) /\
    (forall name, session_get (L:=libu_ref) (w_ss w') name = Ok None) /\
    st_get (w_store w') (ses_file env_late id1) = None /\
    h_fields (rs_header (w_rs w')) = h_fields (rs_header rs0) ++
      [mk_field (bs "Set-Cookie", bs "klone_sid" ++ bs "=; expires=Wed, 01-Jan-1990 10:10:10 GMT")] /\
    session_free (L:=libu_ref) 4096 env_late w' = (w', Ok tt).
Proof.
  apply (session_expires (L:=libu_ref) 4096 env_late file_world1 id1 vars1 1000000000).
  - split_and!; done || compute_decide.
  - reflexivity.
  - vm_compute. reflexivity.
  - apply lookup_singleton_eq.
  - done.
  - repeat constructor; try discriminate; try lia; compute_decide.
  - apply (bool_decide_unpack _). vm_compute. exact Logic.I.
  - compute_decide.
  - done.
  - done.
Defined.

#[local] Instance mdrv : SesDriver mem_store := mem_driver (L:=libu_ref) 300 false (fun _ => true) (C:=no_codec) [] [].
#[local] Instance mframe : SesDriverFrame mem_store := mem_frame (L:=libu_ref) 300 [] [] false (fun _ => true).

(** A client that sends a path as its identifier. *)
Definition env_evil : ses_env :=
  mkEnv (bs "klone_sid") (bs "/tmp") 1200 (mkVars [fresh_var (bs "klone_sid") (bs "../../etc/passwd")] false)
    (bs "127.0.0.1:80") 1000000000 17 4321 99.

Lemma session_id_safe_witness :
  let ss := w_ss (foldl (fun w op => (run_op (L:=libu_ref) 4096 env_evil op w).1)
                    (session_create (L:=libu_ref) 4096 env_evil mem_world).1 [OpSet (bs "a") (bs "b"); OpSave]) in
  (ss_id ss = [] \/ length (ss_id ss) = 32 /\ Forall (fun c => isxdigit c = true) (ss_id ss)) /\
  (ss_filename ss = [] \/
   exists id, length id = 32 /\ Forall (fun c => isxdigit c = true) id /\
     ss_filename ss = squeeze SLASH (so_path env_evil ++ bs "/klone_sess_" ++ id ++ bs "_" ++ rq_addr env_evil)).
Proof. apply (session_id_safe (L:=libu_ref)). Defined.

Definition ss1 : session := mkSess (mkVars vars1 false) [] [] false 0.

Lemma session_buf_roundtrip_witness :
  exists buf ss', session_prv_save_to_buf (L:=libu_ref) (C:=no_codec) [] 20 ss1 = Ok buf /\
    session_prv_load_from_buf (L:=libu_ref) (C:=no_codec) [] 20 2 ses_zero buf = (ss', Ok tt) /\
    ss' = set_ss_vars ses_zero (ss_vars ss') /\
    forall name, session_get (L:=libu_ref) ss' name = session_get (L:=libu_ref) ss1 name.
Proof.
  apply (session_buf_roundtrip (L:=libu_ref)).
  - repeat constructor; try discriminate; try lia; try compute_decide. exists (bs "42"). split; [done|compute_decide].
  - repeat constructor.
  - apply (bool_decide_unpack _). vm_compute. exact Logic.I.
  - compute_decide.
  - lia.
  - cbn. lia.
  - done.
Defined.

(** The name and the value are one letter outside ASCII. *)
Definition var_e : var := fresh_var [xe9] [xe9; x00].

Lemma session_escaped_lost_witness :
  session_prv_save_to_buf (L:=libu_ref) (C:=no_codec) [] 2 (mkSess (mkVars [var_e] false) [] [] false 0)
    = Ok (var_line var_e) /\
  session_prv_load_from_buf (L:=libu_ref) (C:=no_codec) [] 2 1 ses_zero (var_line var_e) = (ses_zero, Ok tt).
Proof.
  apply (session_escaped_lost (L:=libu_ref) 2 1 _ ses_zero var_e [xe9]).
  - done.
  - repeat constructor; try discriminate; try lia; compute_decide.
  - done.
  - repeat constructor; discriminate.
  - compute_decide.
  - lia.
  - lia.
Defined.
