(* ===== verification/Filter.v ===== *)
(** The response filter: src/src/libpage/rsfilter.c.

    The filter is the codec at the end of the chain of a response.  It keeps the first 4095
    bytes of the body back, so that the header can still change, and prints the header
    before them.  The response, which the filter shares with the page, and the session are
    part of its state. *)

From S2P Require Import Prelude Libu Encode Path Date Io IoSpec IoMem Getline Header Vars Request Response.
From S2P Require Import Md5 Session.

Definition RFBUFSZ : nat := N.to_nat 4096.

Record rfilter (D C : Type) := mkRf {
  rf_rs : response D C;
  rf_ss : option session;
  rf_flushing : bool;                          (* state == RFS_FLUSHING *)
  rf_feeded : bool;
  rf_buf : list byte;
  rf_off : nat;
  rf_iob : option (io io_mem no_codec)
}.
Arguments mkRf {D C} _ _ _ _ _ _ _.
Arguments rf_rs {D C} _.
Arguments rf_ss {D C} _.
Arguments rf_flushing {D C} _.
Arguments rf_feeded {D C} _.
Arguments rf_buf {D C} _.
Arguments rf_off {D C} _.
Arguments rf_iob {D C} _.

Section filter_ops.
Context {L : Libu} {D C : Type}.
Variables (fuel FILENAME_MAX : nat) (env : ses_env).
Implicit Types rf : rfilter D C.

Definition set_rf_iob rf (v : option (io io_mem no_codec)) : rfilter D C :=
  let 'mkRf a b c d e f _ := rf in mkRf a b c d e f v.
Definition set_rf_flushing rf : rfilter D C := let 'mkRf a b _ d e f g := rf in mkRf a b true d e f g.
Definition set_rf_feeded rf : rfilter D C := let 'mkRf a b c _ e f g := rf in mkRf a b c true e f g.

Definition is_head rf : bool := match rs_method (rf_rs rf) with HM_HEAD => true | _ => false end.

(** [response_print_header_to_io(rf->rs, iob)] *)
Definition print_header_to (rs : response D C) (iob : io io_mem no_codec) : io io_mem no_codec * res unit :=
  let '(rs', r) := response_print_header fuel (mkRs (rs_header rs) iob (rs_status rs) (rs_method rs) (rs_cgi rs)) in
  (rs_io rs', r).

(** Header and buffered bytes are written to a stream in memory; the result is where it ends. *)
Definition rf_fill rf : prog (io io_mem no_codec) nat :=
  pignore (print_header_to (rf_rs rf));;;
  (if is_head rf then pret 0 else fun iob => io_write fuel iob (take (rf_off rf) (rf_buf rf)));;;
  io_flush;;;
  pelse io_tell (fun iob => (iob, Fault)).     (* -1 as the size of the second stream *)

Definition rf_init_iob rf : rfilter D C * res unit :=
  match response_get_max_header_size (rf_rs rf) with
  | Ok n =>
      let hsz := n + rf_off rf in
      if u_alloc hsz then
        match rf_fill rf (io_mem_create (replicate hsz x00) hsz false) with
        | (iob, Ok htell) => (set_rf_iob rf (Some (io_mem_create (io_mem_get_buf iob) htell true)), Ok tt)
        | (iob, Fail) => (set_rf_iob rf (Some iob), Fail)
        | (iob, Fault) => (set_rf_iob rf (Some iob), Fault)
        | (iob, Timeout) => (set_rf_iob rf (Some iob), Timeout)
        end
      else (rf, Fail)
  | Fail => (rf, Fail)
  | Fault => (rf, Fault)
  | Timeout => (rf, Timeout)
  end.

(** Reading from [iob]: [Some out] when there was something, [None] at its end. *)
Definition rf_drain rf (cap : nat) : rfilter D C * res (option (list byte)) :=
  match rf_iob rf with
  | None => (rf, Ok None)
  | Some i =>
      let '(i', r) := io_read fuel i cap in
      match r with
      | Ok [] => (set_rf_iob rf None, Ok None)
      | Ok out => (set_rf_iob rf (Some i'), Ok (Some out))
      | Fail => (set_rf_iob rf (Some i'), Fail)
      | Fault => (set_rf_iob rf (Some i'), Fault)
      | Timeout => (set_rf_iob rf (Some i'), Timeout)
      end
  end.

Definition rf_flush rf (cap : nat) : rfilter D C * res (flush_rc * list byte * nat) :=
  let '(rf1, r1) := if rf_flushing rf then (rf, Ok tt) else rf_init_iob (set_rf_flushing rf) in
  match r1 with
  | Ok _ =>
      let '(rf2, r2) := rf_drain rf1 cap in
      (rf2, o ← r2;
            match o with
            | Some out => Ok (CODEC_FLUSH_CHUNK, out, length out)
            | None => Ok (CODEC_FLUSH_COMPLETE, [], cap)     (* dcount is left alone *)
            end)
  | Fail => (rf1, Fail)
  | Fault => (rf1, Fault)
  | Timeout => (rf1, Timeout)
  end.

(** A session without an identifier gets one before the header is printed. *)
Definition rf_session rf : rfilter D C * res unit :=
  match rf_ss rf with
  | Some ss =>
      if decide (ss_id ss = []) then
        let '(w, r) := session_prv_set_id FILENAME_MAX env None (mkWorld ss (rf_rs rf) tt) in
        (mkRf (w_rs w) (Some (w_ss w)) (rf_flushing rf) (rf_feeded rf) (rf_buf rf) (rf_off rf) (rf_iob rf), r)
      else (rf, Ok tt)
  | None => (rf, Ok tt)
  end.

Definition rf_copyout rf (cap : nat) (src : list byte) : rfilter D C * res (list byte * nat) :=
  let '(rf1, r) := rf_drain rf cap in
  (rf1, o ← r;
        match o with
        | Some out => Ok (out, 0)
        | None => let max := min cap (length src) in Ok (take max src, max)
        end).

Definition rf_transform rf (cap : nat) (src : list byte) : rfilter D C * res (list byte * nat) :=
  let rf := set_rf_feeded rf in
  if is_head rf then (rf, Ok ([], length src)) else
  if rf_flushing rf then rf_copyout rf cap src else
  if decide (rf_off rf + length src < RFBUFSZ) then
    (mkRf (rf_rs rf) (rf_ss rf) false (rf_feeded rf) (mwrite (rf_buf rf) (rf_off rf) src)
          (rf_off rf + length src) (rf_iob rf), Ok ([], length src))
  else
    let '(rf1, r1) := rf_session (set_rf_flushing rf) in
    match r1 with
    | Ok _ =>
        let '(rf2, r2) := rf_init_iob rf1 in
        match r2 with
        | Ok _ => rf_copyout rf2 cap src
        | Fail => (rf2, Fail)
        | Fault => (rf2, Fault)
        | Timeout => (rf2, Timeout)
        end
    | Fail => (rf1, Fail)
    | Fault => (rf1, Fault)
    | Timeout => (rf1, Timeout)
    end.

Definition response_filter_feeded rf : bool := rf_feeded rf.

Variable rf_size : nat.               (* sizeof(response_filter_t) *)

Definition response_filter_create (rs : response D C) (ss : option session) : res (rfilter D C) :=
  if u_alloc rf_size then Ok (mkRf rs ss false false (replicate RFBUFSZ x00) 0 None) else Fail.

Definition ok_or {A} (r : res A) : option A := match r with Ok a => Some a | _ => None end.

#[export] Instance rf_ops : CodecOps (rfilter D C) := {|
  c_transform := fun rf cap src => let '(rf', r) := rf_transform rf cap src in (rf', ok_or r);
  c_flush := fun rf cap => let '(rf', r) := rf_flush rf cap in (rf', ok_or r)
|}.
End filter_ops.

(** ** Writing through one codec *)

(** A codec that owes some output and passes its input on after it, or drops it: the
    contract that [io_write] and [io_codecs_remove] need in order to write everything. *)
Class Emitter (K : Type) {CO : CodecOps K} := {
  em_ok : K -> Prop;
  owed : K -> list byte;
  passes : K -> bool;
  em_transform (st : K) (cap : nat) (src : list byte) : em_ok st -> 0 < cap -> src <> [] ->
    exists st' out c, c_transform st cap src = (st', Some (out, c)) /\ em_ok st' /\ passes st' = passes st /\
      c <= length src /\ length out <= cap /\ (c <> 0 \/ out <> []) /\
      out ++ owed st' = owed st ++ (if passes st then take c src else []);
  em_flush (st : K) (cap : nat) : em_ok st -> 0 < cap ->
    exists st', (exists k, c_flush st cap = (st', Some (CODEC_FLUSH_COMPLETE, [], k)) /\ owed st = []) \/
      (exists out, c_flush st cap = (st', Some (CODEC_FLUSH_CHUNK, out, length out)) /\ em_ok st' /\
         0 < length out <= cap /\ owed st = out ++ owed st')
}.

Section emit.
Context {L : Libu} {LM : LibuMem L} {D K : Type} {DO : DevOps D} {DK : DevSink D} {CO : CodecOps K} {EM : Emitter K}.
Implicit Types i : io D K.

(** The stream without its codec. *)
Definition base i : io D K := set_codecs i [].

Lemma flush_loop_codecs (fuel : nat) i cs (off : nat) :
  flush_loop fuel (set_codecs i cs) off = (set_codecs (flush_loop fuel i off).1 cs, (flush_loop fuel i off).2).
Proof.
  revert i off. induction fuel as [|fuel IH]; intros i off; cbn [flush_loop set_codecs io_w io_dev];
    [by case_decide|]. case_decide; [done|]. destruct (dev_write _ _) as [d [[|c]|]]; [done| |done].
  case_decide; [done|]. apply (IH (set_w (set_dev i d) _)).
Qed.

Lemma flush_if_full_codecs i cs :
  flush_if_full (set_codecs i cs) = (set_codecs (flush_if_full i).1 cs, (flush_if_full i).2).
Proof.
  unfold flush_if_full. cbn [set_codecs io_w]. case_decide; [|done]. unfold io_flush. cbn [set_codecs io_w].
  apply flush_loop_codecs.
Qed.

Lemma set_codecs_base i k : io_codecs i = [k] -> i = set_codecs (base i) [k].
Proof. intros H. destruct i. simpl in *. by subst. Qed.

(** A stream whose write buffer is in use, with one codec. *)
Definition emitting i (st : K) : Prop :=
  wwf (io_w i) /\ w_alloc (io_w i) = true /\ (exists b c o, io_codecs i = [mkCodec st b c o]) /\ em_ok st.

Lemma emitting_base i st : emitting i st -> writable (base i) /\ w_alloc (io_w (base i)) = true.
Proof. intros (H1 & H2 & _). by split_and!. Qed.

Lemma emitting_set (j : io D K) st b c o : writable j -> w_alloc (io_w j) = true -> em_ok st ->
  emitting (set_codecs j [mkCodec st b c o]) st.
Proof. intros [H1 _] H2 H3. split_and!; [done|done|by eexists _, _, _|done]. Qed.

Lemma base_set (j : io D K) cs : io_codecs j = [] -> base (set_codecs j cs) = j.
Proof. intros H. destruct j. simpl in *. by subst. Qed.

(** One turn of [io_write]: room is made, the codec runs, its output is put in the buffer. *)
Lemma write_step (fuel n : nat) i st (rem : list byte) (m : nat) :
  emitting i st -> 0 < fuel -> rem <> [] ->
  room i (length (owed st) + (if passes st then length rem else 0) + m) ->
  exists i1 st1 out c, write_loop fuel (S n) i rem = write_loop fuel n i1 (drop c rem) /\ emitting i1 st1 /\
    passes st1 = passes st /\ c <= length rem /\ (c <> 0 \/ out <> []) /\
    out ++ owed st1 = owed st ++ (if passes st then take c rem else []) /\
    room i1 (length (owed st1) + (if passes st then length (drop c rem) else 0) + m) /\
    outstream i1 = outstream i ++ out /\ io_r i1 = io_r i /\ io_refcnt i1 = io_refcnt i.
Proof.
  intros He Hf Hrem Hr. destruct (emitting_base i st He) as [Wb Ab]. destruct He as (_ & _ & (b & cc & o & Hcs) & Hok).
  destruct (flush_if_full_spec (base i) _ Wb Ab Hr) as (j & Ej & Wj & Hlt & Hbs & Rj & Oj & Aj & (Sr & Sc & Sf & _)).
  assert (flush_if_full i = (set_codecs j [mkCodec st b cc o], Ok tt)) as Ei.
  { rewrite (set_codecs_base i _ Hcs), flush_if_full_codecs, Ej. done. }
  destruct (em_transform st (IO_WR_BUFSZ - wcount (io_w j)) rem Hok ltac:(lia) Hrem)
    as (st1 & out & c & Et & Hok1 & Hp1 & Hc & Ho & Hprog & Hout).
  assert (length out + length (owed st1) = length (owed st) + (if passes st then c else 0)) as Hlen.
  { apply (f_equal length) in Hout. rewrite !length_app in Hout. destruct (passes st); simpl in *; [rewrite length_take in Hout|]; lia. }
  destruct (wbuf_put_spec j out (length (owed st1) + (if passes st then length (drop c rem) else 0) + m) Wj Aj ltac:(lia))
    as (W1 & A1 & R1 & O1 & (T1 & T2 & T3 & _)).
  { rewrite !Nat.add_assoc, Hlen. destruct (passes st); rewrite ?length_drop;
      [replace (length (owed st) + c + (length rem - c)) with (length (owed st) + length rem) by lia|rewrite !Nat.add_0_r in *]; done. }
  exists (set_codecs (wbuf_put j out) [mkCodec st1 b cc o]), st1, out, c. split_and!; try done.
  - destruct rem as [|x rem]; [done|]. cbn [write_loop]. rewrite Ei. cbn [set_codecs io_w io_codecs].
    rewrite Hbs. unfold io_transfer. destruct fuel as [|fuel]; [lia|]. cbn [io_transform c_state cbuf ccount coff]. rewrite Et.
    rewrite decide_False by (intros [? ?]; destruct Hprog; done). rewrite decide_False by (intros [? ?]; destruct Hprog; done). done.
  - by apply emitting_set.
  - change (outstream (set_codecs (wbuf_put j out) [mkCodec st1 b cc o])) with (outstream (wbuf_put j out)). by rewrite O1, Oj.
Qed.

Lemma write_loop_emits (fuel n : nat) i st (rem : list byte) (m : nat) :
  emitting i st -> 0 < fuel ->
  room i (length (owed st) + (if passes st then length rem else 0) + m) ->
  2 * length rem + length (owed st) < n ->
  exists i' st', write_loop fuel n i rem = (i', Ok tt) /\ emitting i' st' /\ passes st' = passes st /\
    room i' (length (owed st') + m) /\
    outstream i' ++ owed st' = outstream i ++ owed st ++ (if passes st then rem else []) /\
    io_r i' = io_r i /\ io_refcnt i' = io_refcnt i /\ length (owed st') <= length (owed st) + length rem.
Proof.
  revert i st rem. induction n as [|n IH]; intros i st rem He Hf Hr Hn; [lia|].
  destruct (decide (rem = [])) as [->|Hrem].
  { exists i, st. assert ((if passes st then [] else []) = @nil byte) as -> by (by destruct (passes st)).
    assert ((if passes st then length (@nil byte) else 0) = 0) as H0 by (by destruct (passes st)).
    rewrite H0, Nat.add_0_r in Hr. rewrite app_nil_r. split_and!; try done; lia. }
  destruct (write_step fuel n i st rem m He Hf Hrem Hr) as (i1 & st1 & out & c & E & He1 & Hp1 & Hc & Hprog & Hout & R1 & O1 & S1 & S2).
  pose proof (f_equal length Hout) as Hlen. rewrite !length_app in Hlen.
  assert (length (if passes st then take c rem else []) <= c) as Htk by (destruct (passes st); [rewrite length_take|simpl]; lia).
  assert (1 <= c + length out) by (destruct Hprog; [lia|]; destruct out; [done|simpl; lia]).
  destruct (IH i1 st1 (drop c rem) He1 Hf) as (i' & st' & E' & He' & Hp' & R' & O' & T1 & T2 & T3).
  { by rewrite Hp1. } { rewrite length_drop. lia. }
  rewrite length_drop in T3. exists i', st'. rewrite E, E', T1, T2, Hp', Hp1. split_and!; try done; [|lia]. rewrite O', O1, Hp1, <- !app_assoc. f_equal. rewrite app_assoc, Hout, <- app_assoc. f_equal.
  destruct (passes st); [by rewrite take_drop|done].
Qed.

Lemma io_write_emits (fuel : nat) i st b c o (data : list byte) (m : nat) :
  wwf (io_w i) -> io_codecs i = [mkCodec st b c o] -> em_ok st ->
  room i (length (owed st) + (if passes st then length data else 0) + m) ->
  2 * length data + length (owed st) < fuel ->
  exists i' st', io_write fuel i data = (i', Ok (length data)) /\ emitting i' st' /\ passes st' = passes st /\
    room i' (length (owed st') + m) /\
    outstream i' ++ owed st' = outstream i ++ owed st ++ (if passes st then data else []) /\
    io_r i' = io_r i /\ io_refcnt i' = io_refcnt i /\ length (owed st') <= length (owed st) + length data.
Proof.
  intros Hw Hc Hok Hr Hf. unfold io_write.
  assert (exists j, (if w_alloc (io_w i) then (i, Ok tt) else io_wbuf_alloc i) = (j, Ok tt) /\ emitting j st /\
    room j (length (owed st) + (if passes st then length data else 0) + m) /\ outstream j = outstream i /\
    io_r j = io_r i /\ io_refcnt j = io_refcnt i) as (j & -> & Hj & Rj & Oj & S1 & S2).
  { destruct (w_alloc (io_w i)) eqn:Ha.
    - exists i. split_and!; try done. split_and!; [done|done|by eexists _, _, _|done].
    - unfold io_wbuf_alloc. rewrite u_alloc_ok. eexists. split; [done|]. unfold wwf in Hw. rewrite Ha in Hw.
      split_and!; try done.
      + split_and!; [|done|by eexists _, _, _|done]. unfold wwf. cbn [set_w io_w w_alloc wbsz wbuf wcount].
        rewrite length_replicate, Hw. split_and!; [done|done|lia].
      + unfold outstream. cbn [set_w io_w wbuf wcount io_dev]. by rewrite Hw, !mread_0. }
  destruct (write_loop_emits fuel fuel j st data m Hj ltac:(lia) Rj Hf) as (i' & st' & -> & H1 & H2 & H3 & H4 & H5 & H6 & H7).
  exists i', st'. rewrite <- Oj, H5, H6. by split_and!.
Qed.

Lemma put_flushing_spec (n : nat) i (data : list byte) (m : nat) :
  writable i -> w_alloc (io_w i) = true -> room i (length data + m) -> length data <= n ->
  exists i', put_flushing n i data = (i', Ok tt) /\ writable i' /\ w_alloc (io_w i') = true /\ room i' m /\
    outstream i' = outstream i ++ data /\ io_r i' = io_r i /\ io_refcnt i' = io_refcnt i.
Proof.
  revert i data. induction n as [|n IH]; intros i data Hw Ha Hr Hn;
    (destruct data as [|b data]; [exists i; rewrite app_nil_r; by split_and!|]); [simpl in Hn; lia|].
  cbn [put_flushing]. destruct (flush_if_full_spec i _ Hw Ha Hr) as (j & -> & Wj & Hlt & Hbs & Rj & Oj & Aj & (Sr & _ & Sf & _)).
  rewrite Hbs. set (sz := min (length (b :: data)) (IO_WR_BUFSZ - wcount (io_w j))).
  assert (0 < sz <= length (b :: data) /\ wcount (io_w j) + sz <= IO_WR_BUFSZ) as [Hsz Hwc] by (unfold sz; simpl length; lia).
  clearbody sz. assert (length (take sz (b :: data)) = sz) as Ht by (rewrite length_take; lia).
  destruct (wbuf_put_spec j (take sz (b :: data)) (length (drop sz (b :: data)) + m) Wj Aj) as (W1 & A1 & R1 & O1 & (T1 & _ & T3 & _));
    [lia|rewrite Ht, length_drop, Nat.add_assoc; by replace (sz + (length (b :: data) - sz)) with (length (b :: data)) by lia|].
  destruct (IH _ (drop sz (b :: data)) W1 A1 R1) as (i' & -> & W2 & A2 & R2 & O2 & U1 & U2); [rewrite length_drop; lia|].
  exists i'. split_and!; try done; [|congruence..]. rewrite O2, O1, Oj, <- app_assoc. by rewrite take_drop.
Qed.

Lemma put_flushing_codecs (n : nat) i cs (data : list byte) :
  put_flushing n (set_codecs i cs) data = (set_codecs (put_flushing n i data).1 cs, (put_flushing n i data).2).
Proof.
  revert i data. induction n as [|n IH]; intros i data; (destruct data as [|b data]; [done|]); [done|].
  cbn [put_flushing]. rewrite flush_if_full_codecs. destruct (flush_if_full i) as [j []]; cbn [fst snd]; try done.
  apply (IH (wbuf_put j _)).
Qed.

Lemma chain_flush_emits (fuel n : nat) i st (m : nat) :
  emitting i st -> IO_WR_BUFSZ <= fuel -> length (owed st) < n -> room i (length (owed st) + m) ->
  exists i', io_chain_flush fuel n i = (i', Ok tt) /\ wwf (io_w i') /\ room i' m /\
    outstream i' = outstream i ++ owed st /\ io_r i' = io_r i /\ io_refcnt i' = io_refcnt i.
Proof.
  pose proof IO_WR_BUFSZ_pos as Hp. revert i st. induction n as [|n IH]; intros i st He Hf Hn Hr; [lia|].
  cbn [io_chain_flush]. destruct (emitting_base i st He) as [Wb Ab]. destruct He as (Hwf & Ha & (b & c & o & Hcs) & Hok).
  rewrite Hcs. destruct fuel as [|fuel]; [lia|]. cbn [io_chain_flush_chunk c_state cbuf ccount coff].
  destruct (em_flush st IO_WR_BUFSZ Hok Hp) as (st' & [(k & E & Ho)|(out & E & Hok' & Hl & Ho)]); rewrite E; cbn [of_option].
  - eexists. split; [done|]. rewrite Ho, app_nil_r in *. by split_and!.
  - rewrite decide_False, take_ge by lia. rewrite Ho, length_app, <- Nat.add_assoc in Hr. rewrite Ho, length_app in Hn.
    set (cs := [mkCodec st' b c o]).
    destruct (put_flushing_spec (S fuel) (base i) out _ Wb Ab Hr ltac:(lia)) as (j & Ej & Wj & Aj & Rj & Oj & S1 & S2).
    assert (put_flushing (S fuel) (set_codecs i cs) out = (set_codecs j cs, Ok tt)) as ->.
    { change (set_codecs i cs) with (set_codecs (base i) cs). by rewrite put_flushing_codecs, Ej. }
    destruct (IH (set_codecs j cs) st' (emitting_set j st' b c o Wj Aj Hok') Hf ltac:(lia) Rj) as (i' & E' & W' & R' & O' & T1 & T2).
    exists i'. split_and!; try done; [|by rewrite T1|by rewrite T2].
    rewrite O'. change (outstream (set_codecs j cs)) with (outstream j). rewrite Oj, Ho, <- app_assoc. done.
Qed.

Lemma codecs_remove_emits (fuel : nat) i st (m : nat) :
  emitting i st -> IO_WR_BUFSZ <= fuel -> length (owed st) < fuel -> room i (length (owed st) + m) ->
  exists i', io_codecs_remove fuel i = (i', Ok tt) /\ writable i' /\ room i' m /\
    outstream i' = outstream i ++ owed st /\ io_r i' = io_r i /\ io_refcnt i' = io_refcnt i.
Proof.
  intros He Hf Hn Hr. destruct (chain_flush_emits fuel fuel i st m He Hf Hn Hr) as (i' & E & W & R & O & S1 & S2).
  unfold io_codecs_remove. destruct He as (_ & Ha & (b & c & o & ->) & _). rewrite Ha, E.
  eexists. split; [done|]. by split_and!.
Qed.

(** Several writes. *)
Fixpoint io_writes (fuel : nat) i (chunks : list (list byte)) : io D K * res unit :=
  match chunks with
  | [] => (i, Ok tt)
  | d :: chunks' =>
      let '(i1, r) := io_write fuel i d in
      match r with
      | Ok _ => io_writes fuel i1 chunks'
      | Fail => (i1, Fail)
      | Fault => (i1, Fault)
      | Timeout => (i1, Timeout)
      end
  end.

Lemma io_writes_emits (fuel : nat) (chunks : list (list byte)) i st (m : nat) :
  emitting i st -> room i (length (owed st) + (if passes st then length (concat chunks) else 0) + m) ->
  2 * length (concat chunks) + length (owed st) < fuel ->
  exists i' st', io_writes fuel i chunks = (i', Ok tt) /\ emitting i' st' /\ passes st' = passes st /\
    room i' (length (owed st') + m) /\
    outstream i' ++ owed st' = outstream i ++ owed st ++ (if passes st then concat chunks else []) /\
    length (owed st') <= length (owed st) + length (concat chunks).
Proof.
  revert i st. induction chunks as [|d chunks IH]; intros i st He Hr Hf.
  { exists i, st. assert ((if passes st then @nil byte else []) = []) as H0 by (by destruct (passes st)).
    assert ((if passes st then 0 else 0) = 0) as H1 by (by destruct (passes st)). simpl in *. rewrite H0. rewrite H1 in Hr.
    rewrite Nat.add_0_r in Hr. rewrite app_nil_r. split_and!; try done. lia. }
  cbn [concat] in *. rewrite length_app in *. cbn [io_writes]. pose proof He as (Hwf & Ha & (b & c & o & Hcs) & Hok).
  destruct (io_write_emits fuel i st b c o d ((if passes st then length (concat chunks) else 0) + m) Hwf Hcs Hok)
    as (i1 & st1 & -> & He1 & Hp1 & R1 & O1 & _ & _ & Hl1).
  { destruct (passes st); [by rewrite <- !Nat.add_assoc in *|by rewrite !Nat.add_0_r in *]. } { lia. }
  destruct (IH i1 st1 He1) as (i' & st' & E' & He' & Hp' & R' & O' & Hl'); [by rewrite Hp1, <- Nat.add_assoc|lia|].
  exists i', st'. rewrite Hp', Hp1. split_and!; try done; [|lia]. rewrite O', Hp1, app_assoc, O1, <- !app_assoc.
  do 2 f_equal. by destruct (passes st).
Qed.
End emit.

(** ** The filter *)

Section filter_spec.
Context {L : Libu} {LS : LibuSpec L} {LM : LibuMem L} {D C : Type}.
Variables (fuel FILENAME_MAX : nat) (env : ses_env).
Implicit Types rf : rfilter D C.

(** What the filter prints before anything else. *)
Definition rf_text rf : list byte :=
  header_text (rf_rs rf) ++ (if is_head rf then [] else take (rf_off rf) (rf_buf rf)).

Definition rf_owed rf : list byte :=
  if rf_flushing rf then match rf_iob rf with Some i => instream i | None => [] end else rf_text rf.

(** A response whose header can be printed. *)
Definition rs_fit (rs : response D C) : Prop :=
  header_ok (rs_header rs) /\ (0 <= rs_status rs < 10 ^ 10)%Z /\ length (header_text rs) + RFBUFSZ <= fuel.

(** The response and the session matter until the header is printed. *)
Record rf_ok rf : Prop := {
  rok_buf : length (rf_buf rf) = RFBUFSZ;
  rok_off : rf_off rf < RFBUFSZ;
  rok_rs : rf_flushing rf = false -> rs_fit (rf_rs rf);
  rok_ss : rf_flushing rf = false -> forall ss, rf_ss rf = Some ss -> ss_id ss <> [];
  rok_fuel : 0 < fuel;
  rok_iob : forall i, rf_iob rf = Some i -> readable i
}.

Lemma mem_part_readable (buf : list byte) (n : nat) (f : bool) :
  readable (io_mem_create (C:=no_codec) buf n f) /\ instream (io_mem_create (C:=no_codec) buf n f) = take n buf.
Proof.
  split; [by split_and!|]. unfold instream, rwin, uwin. simpl. rewrite !mread_0. simpl. by rewrite drop_0.
Qed.

(** The computed size is enough for the header and the buffered bytes. *)
Lemma rf_init_spec rf : rf_ok rf -> rs_fit (rf_rs rf) ->
  exists i, rf_init_iob fuel rf = (set_rf_iob rf (Some i), Ok tt) /\ readable i /\ instream i = rf_text rf.
Proof.
  intros H (Hh & Hst & Hf). destruct (header_size_enough (rf_rs rf) Hh Hst) as (n & En & Hn & _).
  pose proof (rok_off rf H) as Ho. pose proof (rok_buf rf H) as Hb.
  unfold rf_init_iob. rewrite En, u_alloc_ok. set (hsz := n + rf_off rf).
  set (io0 := io_mem_create (replicate hsz x00) hsz false).
  set (rs0 := mkRs (rs_header (rf_rs rf)) io0 (rs_status (rf_rs rf)) (rs_method (rf_rs rf)) (rs_cgi (rf_rs rf))).
  assert (header_text rs0 = header_text (rf_rs rf)) as Eh by done.
  destruct (print_header_spec fuel rs0 (rf_off rf)) as (rs1 & E1 & (_ & W1 & O1 & _) & R1).
  { apply Hh. } { by split. }
  { change (0 + (0 + (length (header_text (rf_rs rf)) + rf_off rf)) <= hsz <= length (replicate hsz x00)).
    rewrite length_replicate. unfold hsz. lia. } { rewrite Eh. lia. }
  assert (outstream io0 = []) as Oz by (unfold outstream; cbn; by rewrite mread_0).
  change (rs_io rs0) with io0 in O1. rewrite Oz, Eh in O1.
  assert (length (take (rf_off rf) (rf_buf rf)) = rf_off rf) as Ht by (rewrite length_take; lia).
  assert (pignore (print_header_to fuel (rf_rs rf)) io0 = (rs_io rs1, Ok tt)) as Ep.
  { unfold pignore, print_header_to. fold rs0. by rewrite E1. }
  unfold rf_fill. rewrite (pbind_Ok _ _ _ _ _ Ep).
  assert (exists io2 k, (if is_head rf then pret 0 else fun iob => io_write fuel iob (take (rf_off rf) (rf_buf rf))) (rs_io rs1) = (io2, Ok k) /\
    writable io2 /\ room io2 0 /\ outstream io2 = rf_text rf) as (io2 & k & E2 & W2 & R2 & O2).
  { unfold rf_text. destruct (is_head rf).
    - exists (rs_io rs1), 0. rewrite app_nil_r. split_and!; try done. unfold room in *. cbn in *. lia.
    - destruct (io_write_spec fuel (rs_io rs1) (take (rf_off rf) (rf_buf rf)) 0 W1) as (io2 & -> & W2 & R2 & O2 & _);
        [rewrite Ht, Nat.add_0_r; done|lia|]. exists io2, (length (take (rf_off rf) (rf_buf rf))). by rewrite O2, O1. }
  rewrite (pbind_Ok _ _ _ _ _ E2). destruct (io_flush_spec io2 0 W2 R2) as (io3 & E3 & W3 & C3 & R3 & O3 & _).
  rewrite (pbind_Ok _ _ _ _ _ E3). destruct (io_flush_spec io3 0 W3 R3) as (io4 & E4 & W4 & C4 & R4 & O4 & _).
  erewrite pelse_Ok; [|unfold io_tell; rewrite E4; done]. eexists. split; [done|].
  destruct (mem_part_readable (io_mem_get_buf io4) (m_off (io_dev io4)) true) as [Hr Hi].
  split; [done|]. rewrite Hi, <- O2, <- O3, <- O4. unfold outstream. rewrite C4, mread_0, app_nil_r. done.
Qed.

Lemma rf_iob_ok rf v : rf_ok rf -> (forall i, v = Some i -> readable i) -> rf_ok (set_rf_iob rf v).
Proof. intros [] Hv. by destruct rf. Qed.

Lemma set_rf_iob_fields rf v : rf_flushing (set_rf_iob rf v) = rf_flushing rf /\
  is_head (set_rf_iob rf v) = is_head rf /\ rf_iob (set_rf_iob rf v) = v.
Proof. by destruct rf. Qed.

(** Taking bytes out of [iob]. *)
Lemma rf_drain_spec rf (cap : nat) : rf_ok rf -> rf_flushing rf = true -> 0 < cap ->
  exists rf', rf_ok rf' /\ rf_flushing rf' = true /\ is_head rf' = is_head rf /\
    ((rf_drain fuel rf cap = (rf', Ok None) /\ rf_owed rf = [] /\ rf_owed rf' = []) \/
     (exists out, rf_drain fuel rf cap = (rf', Ok (Some out)) /\ 0 < length out <= cap /\ rf_owed rf = out ++ rf_owed rf')).
Proof.
  intros H Hfl Hc. unfold rf_drain, rf_owed. rewrite Hfl.
  destruct (rf_iob rf) as [i|] eqn:Ei.
  2: { exists rf. rewrite Hfl, Ei. split_and!; try done. by left. }
  pose proof (rok_iob rf H i Ei) as Hr. pose proof (rok_fuel rf H) as Hf.
  destruct (io_read_spec fuel i cap Hr ltac:(lia)) as (i' & -> & R' & I' & _).
  pose proof (take_drop cap (instream i)) as Hs. rewrite <- I' in Hs. pose proof (length_take (instream i) cap) as Hl.
  destruct (take cap (instream i)) as [|b out] eqn:Et.
  - exists (set_rf_iob rf None). destruct (set_rf_iob_fields rf None) as (-> & -> & ->). rewrite Hfl.
    split_and!; [by apply rf_iob_ok|done|done|]. left. split_and!; try done.
    destruct (instream i); [done|]. simpl in Hl. lia.
  - exists (set_rf_iob rf (Some i')). destruct (set_rf_iob_fields rf (Some i')) as (-> & -> & ->). rewrite Hfl.
    split_and!; [apply rf_iob_ok; [done|by intros ? [= <-]]|done|done|].
    right. exists (b :: out). split_and!; [done|simpl; lia|lia|done].
Qed.

Lemma rf_init_ok rf : rf_ok rf -> rs_fit (rf_rs rf) -> rf_flushing rf = true ->
  exists rf', rf_init_iob fuel rf = (rf', Ok tt) /\ rf_ok rf' /\ rf_flushing rf' = true /\ is_head rf' = is_head rf /\
    rf_owed rf' = rf_text rf.
Proof.
  intros H Hrs Hfl. destruct (rf_init_spec rf H Hrs) as (i & E & Hr & Hi). rewrite E.
  eexists. split; [done|]. unfold rf_owed. destruct (set_rf_iob_fields rf (Some i)) as (-> & -> & ->). rewrite Hfl.
  split_and!; try done. apply rf_iob_ok; [done|by intros ? [= <-]].
Qed.

Lemma rf_copyout_spec rf (cap : nat) (src : list byte) : rf_ok rf -> rf_flushing rf = true -> 0 < cap -> src <> [] ->
  exists rf' out c, rf_copyout fuel rf cap src = (rf', Ok (out, c)) /\ rf_ok rf' /\ is_head rf' = is_head rf /\
    c <= length src /\ length out <= cap /\ (c <> 0 \/ out <> []) /\ out ++ rf_owed rf' = rf_owed rf ++ take c src.
Proof.
  intros H Hfl Hc Hs. unfold rf_copyout.
  destruct (rf_drain_spec rf cap H Hfl Hc) as (rf' & H' & _ & Hh & [(-> & E1 & E2)|(out & -> & Hl & E)]).
  - assert (0 < length src) by (destruct src; [done|simpl; lia]).
    eexists rf', _, _. split; [done|]. rewrite E1, E2, app_nil_r, length_take. split_and!; try done; try lia.
  - eexists rf', out, 0. split; [done|]. rewrite E, app_nil_r. split_and!; try done; try lia.
    right. intros ->. simpl in Hl. lia.
Qed.

Lemma rf_flushing_ok rf : rf_ok rf ->
  rf_ok (set_rf_flushing rf) /\ rf_text (set_rf_flushing rf) = rf_text rf /\ rf_rs (set_rf_flushing rf) = rf_rs rf.
Proof. intros H. by destruct rf as [rs ss fl fe bf off iob], H. Qed.
Lemma rf_feeded_ok rf : rf_ok rf -> rf_ok (set_rf_feeded rf) /\ rf_owed (set_rf_feeded rf) = rf_owed rf /\
  is_head (set_rf_feeded rf) = is_head rf.
Proof. intros H. by destruct rf as [rs ss fl fe bf off iob], H. Qed.

Lemma rf_transform_spec rf (cap : nat) (src : list byte) : rf_ok rf -> 0 < cap -> src <> [] ->
  exists rf' out c, rf_transform fuel FILENAME_MAX env rf cap src = (rf', Ok (out, c)) /\ rf_ok rf' /\
    is_head rf' = is_head rf /\ c <= length src /\ length out <= cap /\ (c <> 0 \/ out <> []) /\
    out ++ rf_owed rf' = rf_owed rf ++ (if is_head rf then [] else take c src).
Proof.
  intros H0 Hc Hs. unfold rf_transform. destruct (rf_feeded_ok rf H0) as (H & <- & <-).
  set (f := set_rf_feeded rf) in *. clearbody f. clear H0 rf. assert (0 < length src) as Hl by (destruct src; [done|simpl; lia]).
  destruct (is_head f) eqn:Eh.
  { exists f, [], (length src). rewrite app_nil_r. split_and!; cbn [length]; try done; lia. }
  destruct (rf_flushing f) eqn:Ef.
  { destruct (rf_copyout_spec f cap src H Ef Hc Hs) as (rf' & out & c & E & R1 & R2 & R3). rewrite Eh in R2. eauto 10. }
  case_decide as Hb.
  - eexists _, [], (length src). split; [done|]. unfold rf_owed. rewrite Ef. cbn [rf_flushing].
    unfold rf_text. rewrite Eh. unfold is_head in *. cbn [rf_rs rf_off rf_buf]. rewrite Eh.
    pose proof (rok_buf f H) as Hbl. split_and!; cbn [length]; try done; try lia.
    + destruct H. split; cbn [rf_rs rf_ss rf_buf rf_off rf_iob]; try done; [by rewrite length_mwrite by lia|by intros _; apply rok_rs0|by intros _; apply rok_ss0].
    + rewrite take_mwrite by lia. rewrite (take_ge src) by lia. cbn [app]. by rewrite app_assoc.
  - destruct (rf_flushing_ok f H) as (Hfl & Ht & Hrs).
    assert (rf_session FILENAME_MAX env (set_rf_flushing f) = (set_rf_flushing f, Ok tt)) as ->.
    { unfold rf_session. destruct (rf_ss (set_rf_flushing f)) as [ss|] eqn:Es; [|done].
      rewrite decide_False; [done|]. apply (rok_ss _ H Ef). by destruct f. }
    assert (rf_flushing (set_rf_flushing f) = true /\ is_head (set_rf_flushing f) = is_head f) as [F1 F2] by (by destruct f).
    destruct (rf_init_ok _ Hfl ltac:(rewrite Hrs; by apply (rok_rs f H)) F1) as (g & -> & Hg & Fg & Gh & Go).
    destruct (rf_copyout_spec g cap src Hg Fg Hc Hs) as (rf' & out & c & E & R1 & R2 & R3).
    exists rf', out, c. rewrite R2, Gh, F2, Eh. split_and!; try done; try apply R3.
    unfold rf_owed at 2. rewrite Ef, <- Ht, <- Go. apply R3.
Qed.

Lemma rf_flush_spec rf (cap : nat) : rf_ok rf -> 0 < cap ->
  exists rf', (rf_flush fuel rf cap = (rf', Ok (CODEC_FLUSH_COMPLETE, [], cap)) /\ rf_owed rf = []) \/
    (exists out, rf_flush fuel rf cap = (rf', Ok (CODEC_FLUSH_CHUNK, out, length out)) /\ rf_ok rf' /\
       0 < length out <= cap /\ rf_owed rf = out ++ rf_owed rf').
Proof.
  intros H Hc. unfold rf_flush.
  assert (exists g, (if rf_flushing rf then (rf, Ok tt) else rf_init_iob fuel (set_rf_flushing rf)) = (g, Ok tt) /\
    rf_ok g /\ rf_flushing g = true /\ rf_owed g = rf_owed rf) as (g & -> & Hg & Fg & Go).
  { destruct (rf_flushing rf) eqn:Ef; [by exists rf|]. destruct (rf_flushing_ok rf H) as (Hfl & Ht & Hrs).
    destruct (rf_init_ok _ Hfl) as (g & -> & ? & ? & _ & Go); [rewrite Hrs; by apply (rok_rs rf H)|by destruct rf|].
    exists g. split_and!; try done. rewrite Go, Ht. unfold rf_owed. by rewrite Ef. }
  destruct (rf_drain_spec g cap Hg Fg Hc) as (rf' & H' & _ & _ & [(-> & E1 & _)|(out & -> & Hl & E)]);
    exists rf'; rewrite <- Go; [left; done|right; exists out; done].
Qed.

#[export] Instance rf_emitter : Emitter (rfilter D C) (CO:=rf_ops fuel FILENAME_MAX env).
Proof.
  refine {| em_ok := rf_ok; owed := rf_owed; passes := fun rf => negb (is_head rf) |};
    cbn [c_transform c_flush rf_ops].
  - intros st cap src H Hc Hs.
    destruct (rf_transform_spec st cap src H Hc Hs) as (st' & out & c & -> & H1 & H2 & H3 & H4 & H5 & H6).
    exists st', out, c. rewrite H2. split_and!; try done. rewrite H6. by destruct (is_head st).
  - intros st cap H Hc. destruct (rf_flush_spec st cap H Hc) as (st' & [(-> & E)|(out & -> & E)]); exists st'; eauto.
Defined.
End filter_spec.

Section filter_claims.
Context {L : Libu} {LS : LibuSpec L} {LM : LibuMem L} {D C : Type} {D2 : Type} {DO : DevOps D2} {DK : DevSink D2}.
Variables (f0 FILENAME_MAX rf_size : nat) (env : ses_env).
#[local] Instance filter_ops : CodecOps (rfilter D C) := rf_ops f0 FILENAME_MAX env.
#[local] Instance filter_emitter : Emitter (rfilter D C) := rf_emitter f0 FILENAME_MAX env.

(** C9: the filter prints the header first and then the body.  Whatever the pieces a page
    writes through it, short or longer than its buffer, once the codecs are removed the
    stream has received the header of the response and then the whole body, in order and
    exactly once; the answer to a HEAD request is the header alone. *)
Theorem filter_output (fuel : nat) (rs : response D C) (ss : option session) (i : io D2 (rfilter D C))
    (d : list byte) (chunks : list (list byte)) :
  header_ok (rs_header rs) -> (0 <= rs_status rs < 10 ^ 10)%Z -> length (header_text rs) + RFBUFSZ <= f0 ->
  (forall s, ss = Some s -> ss_id s <> []) -> writable i ->
  let body := if decide (rs_method rs = HM_HEAD) then [] else concat (d :: chunks) in
  room i (length (header_text rs) + length body) ->
  3 * length (concat (d :: chunks)) + length (header_text rs) < fuel -> IO_WR_BUFSZ <= fuel ->
  exists rf i2 i3, response_filter_create rf_size rs ss = Ok rf /\
    io_writes fuel (io_codec_add_tail i rf) (d :: chunks) = (i2, Ok tt) /\
    io_codecs_remove fuel i2 = (i3, Ok tt) /\ writable i3 /\
    outstream i3 = outstream i ++ header_text rs ++ body.
Proof.
  intros Hh Hst Hf0 Hss Hw body Hr Hf Hwf. unfold response_filter_create. rewrite u_alloc_ok.
  set (rf := mkRf rs ss false false (replicate RFBUFSZ x00) 0 None).
  assert (rf_ok f0 rf) as Hok.
  { assert (0 < RFBUFSZ) by (unfold RFBUFSZ; lia). split; cbn [rf rf_buf rf_off rf_rs rf_ss rf_iob]; try done; try lia. }
  assert (rf_owed rf = header_text rs) as Ho.
  { unfold rf_owed, rf_text. cbn [rf rf_flushing rf_off rf_buf rf_rs]. rewrite take_0. destruct (is_head _); by rewrite app_nil_r. }
  assert (passes rf = bool_decide (rs_method rs <> HM_HEAD)) as Hp.
  { change (passes rf) with (negb (is_head rf)). unfold is_head. cbn [rf rf_rs]. by destruct (rs_method rs). }
  assert (body = if passes rf then concat (d :: chunks) else []) as Hbody.
  { unfold body. rewrite Hp. case_decide as Hm; [|by rewrite bool_decide_true].
    rewrite bool_decide_false; [done|]. intros Hn. by apply Hn. }
  assert (length body = if passes rf then length (concat (d :: chunks)) else 0) as Hbl by (rewrite Hbody; by destruct (passes rf)).
  rewrite Hbl in Hr. cbn [concat] in Hr, Hf, Hbody. rewrite length_app in Hr, Hf.
  set (i1 := io_codec_add_tail i rf). change (em_ok rf) in Hok.
  assert (io_codecs i1 = [mkCodec rf (replicate CODEC_BUFSZ x00) 0 0]) as Hc
    by (unfold i1, io_codec_add_tail; cbn; by rewrite (proj2 Hw)).
  destruct (io_write_emits fuel i1 rf _ _ _ d (if passes rf then length (concat chunks) else 0) (proj1 Hw) Hc Hok)
    as (j & st & E1 & He & Hps & Rj & Oj & _ & _ & Hlj).
  { change (owed rf) with (rf_owed rf). rewrite Ho. destruct (passes rf);
      [by rewrite <- Nat.add_assoc|by rewrite !Nat.add_0_r in *]. }
  { change (owed rf) with (rf_owed rf). rewrite Ho. lia. }
  change (owed rf) with (rf_owed rf) in Oj, Hlj. rewrite Ho in Oj, Hlj.
  destruct (io_writes_emits fuel chunks j st 0 He) as (i2 & st2 & E2 & He2 & _ & R2 & O2 & Hl2).
  { rewrite Hps, Nat.add_0_r. done. } { lia. }
  destruct (codecs_remove_emits fuel i2 st2 0 He2 Hwf ltac:(lia) R2) as (i3 & E3 & W3 & _ & O3 & _).
  exists rf, i2, i3. split_and!; try done.
  - cbn [io_writes]. fold i1. by rewrite E1.
  - rewrite O3, O2, Hps, app_assoc, Oj, Hbody, <- !app_assoc. change (outstream i1) with (outstream i). do 2 f_equal.
    by destruct (passes rf).
Qed.

(** The filter prints nothing when nothing is written through it: with a stream whose
    write buffer has not been used, removing the codecs drops the filter with the header.
    This is what happens to a HEAD request for an embedded file, where only the filter is
    attached. *)
Theorem filter_unused_silent (fuel : nat) (rs : response D C) (ss : option session) (i : io D2 (rfilter D C)) :
  io_codecs i = [] -> w_alloc (io_w i) = false ->
  exists rf, response_filter_create rf_size rs ss = Ok rf /\
    io_codecs_remove fuel (io_codec_add_tail i rf) = (i, Ok tt).
Proof.
  intros Hc Ha. unfold response_filter_create. rewrite u_alloc_ok. eexists. split; [done|].
  unfold io_codecs_remove, io_codec_add_tail. rewrite Hc. cbn [app set_codecs io_codecs io_w]. rewrite Ha.
  destruct i. cbn in *. by subst.
Qed.
End filter_claims.

(** ** Evaluation *)

Definition env_f : ses_env := mkEnv (bs "klone_sid") (bs "/tmp") 1200 vars_create (bs "127.0.0.1:80") 1000000000 17 4321 99.
Definition out_io : io io_mem (rfilter io_mem no_codec) := io_mem_create (replicate 200 x00) 200 false.

#[local] Instance filter_ops0 : CodecOps (rfilter io_mem no_codec) := rf_ops (L:=libu_ref) (N.to_nat 5000) (N.to_nat 4096) env_f.

Lemma filter_output_witness :
  exists rf i2 i3, response_filter_create (L:=libu_ref) (N.to_nat 8000) rs0 None = Ok rf /\
    io_writes (L:=libu_ref) (N.to_nat 5000) (io_codec_add_tail out_io rf) [bs "Hello, "; bs "world"] = (i2, Ok tt) /\
    io_codecs_remove (N.to_nat 5000) i2 = (i3, Ok tt) /\ writable i3 /\
    outstream i3 = outstream out_io ++ header_text rs0 ++ bs "Hello, world".
Proof.
  apply (filter_output (L:=libu_ref) (N.to_nat 5000) (N.to_nat 4096) (N.to_nat 8000) env_f (N.to_nat 5000) rs0 None out_io (bs "Hello, ") [bs "world"]).
  - split; [done|]. repeat constructor; by eexists.
  - done.
  - compute_decide.
  - done.
  - by split.
  - unfold room. simpl. lia.
  - compute_decide.
  - compute_decide.
Defined.

Lemma filter_unused_silent_witness :
  exists rf, response_filter_create (L:=libu_ref) (N.to_nat 8000) rs0 None = Ok rf /\
    io_codecs_remove (N.to_nat 5000) (io_codec_add_tail out_io rf) = (out_io, Ok tt).
Proof. apply (filter_unused_silent (L:=libu_ref) (N.to_nat 5000) (N.to_nat 4096) (N.to_nat 8000) env_f (N.to_nat 5000) rs0 None out_io); done. Defined.
