(* ===== verification/Timer.v ===== *)
(** Timers: src/src/libutils/timer.c.

    The process has one timer: a list of alarms sorted by the time at which they expire,
    the time [next] for which the operating system has been asked for a signal, and a flag
    that is set while a callback runs.  The state here is the timer together with what the
    system keeps: the clock, the process, the pending [alarm] and the signal mask; [fired]
    records the callbacks.  A tick of the clock delivers the signal when it is due.  An
    alarm is an address; a callback either leaves the timer alone or sets its own alarm
    again, which is what [timerm_reschedule] is for. *)

From stdpp Require Import relations sorting.
From S2P Require Import Prelude Libu.

Local Open Scope Z_scope.

Inductive cb_action := CbNone | CbAgain (secs : Z).

Record talarm := mkAl {
  al_id : nat;
  al_expire : Z;
  al_cb : cb_action;
  al_owner : Z
}.

#[global] Instance cb_action_eq_dec : EqDecision cb_action.
Proof. solve_decision. Defined.
#[global] Instance talarm_eq_dec : EqDecision talarm.
Proof. solve_decision. Defined.

Record tstate := mkT {
  alist : list talarm;
  next : Z;
  cb_running : bool;
  t_now : Z;                  (* time(0) *)
  t_pid : Z;                  (* getpid() *)
  t_alarm : option Z;         (* when SIGALRM is due *)
  t_blocked : bool;           (* SIGALRM is blocked *)
  fired : list (nat * Z)
}.

Definition set_alist (s : tstate) (v : list talarm) : tstate :=
  let 'mkT _ b c d e f g h := s in mkT v b c d e f g h.
Definition put_next (s : tstate) (v : Z) : tstate :=
  let 'mkT a _ c d e f g h := s in mkT a v c d e f g h.
Definition set_running (s : tstate) (v : bool) : tstate :=
  let 'mkT a b _ d e f g h := s in mkT a b v d e f g h.
Definition set_now (s : tstate) (v : Z) : tstate :=
  let 'mkT a b c _ e f g h := s in mkT a b c v e f g h.
Definition set_alarm (s : tstate) (v : option Z) : tstate :=
  let 'mkT a b c d e _ g h := s in mkT a b c d e v g h.
Definition set_blocked (s : tstate) (v : bool) : tstate :=
  let 'mkT a b c d e f _ h := s in mkT a b c d e f v h.
Definition add_fired (s : tstate) (x : nat * Z) : tstate :=
  let 'mkT a b c d e f g h := s in mkT a b c d e f g (h ++ [x]).

(** ** timer.c *)

(** [alarm(timeout)] replaces the pending one. *)
Definition timerm_set_alarm (timeout : Z) (s : tstate) : tstate :=
  let n := t_now s + timeout in
  if decide (timeout <> 0 /\ (next s = 0 \/ n < next s)) then set_alarm (put_next s n) (Some n) else s.

Definition timerm_set_next (s : tstate) : tstate :=
  match alist s with
  | al :: _ => timerm_set_alarm (Z.max 1 (al_expire al - t_now s)) s
  | [] => s
  end.

Definition timerm_block_alarms (s : tstate) : tstate := if cb_running s then s else set_blocked s true.
Definition timerm_unblock_alarms (s : tstate) : tstate := if cb_running s then s else set_blocked s false.

(** Before the first item that expires later, or at the end. *)
Fixpoint insert_alarm (al : talarm) (l : list talarm) : list talarm :=
  match l with
  | [] => [al]
  | item :: l' => if decide (al_expire al < al_expire item) then al :: l else item :: insert_alarm al l'
  end.

Definition timerm_reschedule (al : talarm) (secs : Z) (cb : cb_action) (s : tstate) : tstate :=
  let al := mkAl (al_id al) (t_now s + secs) cb (al_owner al) in
  let s := timerm_block_alarms s in
  let s := timerm_set_next (set_alist s (insert_alarm al (alist s))) in
  timerm_unblock_alarms s.

(** [timerm_add] of an alarm at the address [id], once the timer exists. *)
Definition timerm_add (id : nat) (secs : Z) (cb : cb_action) (s : tstate) : tstate :=
  timerm_reschedule (mkAl id 0 cb (t_pid s)) secs cb s.

Definition timerm_alarm_pending (id : nat) (s : tstate) : bool :=
  existsb (fun al => bool_decide (al_id al = id)) (alist s).

(** [TAILQ_REMOVE] of the alarm at an address. *)
Fixpoint remove_alarm (id : nat) (l : list talarm) : list talarm :=
  match l with
  | [] => []
  | al :: l' => if decide (al_id al = id) then l' else al :: remove_alarm id l'
  end.

Definition timerm_del (id : nat) (s : tstate) : tstate :=
  let s := timerm_block_alarms s in
  let s := if timerm_alarm_pending id s then set_alist s (remove_alarm id (alist s)) else s in
  timerm_unblock_alarms (timerm_set_next s).

(** The callback [al->cb(al, al->arg)]. *)
Definition run_cb (al : talarm) (s : tstate) : tstate :=
  let s := add_fired s (al_id al, t_now s) in
  match al_cb al with
  | CbNone => s
  | CbAgain secs => timerm_reschedule al secs (al_cb al) s
  end.

(** The [for] of [timerm_sigalrm]: [true] when it ends at an alarm that has not expired. *)
Fixpoint sigalrm_loop (fuel : nat) (s : tstate) : res (tstate * bool) :=
  match alist s with
  | [] => Ok (s, false)
  | al :: rest =>
      match fuel with
      | 0%nat => Timeout
      | S fuel' =>
          if decide (al_owner al <> t_pid s) then sigalrm_loop fuel' (set_alist s rest) else
          if decide (t_now s < al_expire al) then Ok (s, true) else
          let s := set_running (set_alist s rest) true in
          sigalrm_loop fuel' (set_running (run_cb al s) false)
      end
  end.

(** An alarm that sets itself again after a second or more is not run twice, which
    bounds the loop. *)
Definition timerm_sigalrm (s : tstate) : res tstate :=
  match sigalrm_loop (S (length (alist s))) (put_next s 0) with
  | Ok (s', true) => Ok (timerm_set_next s')
  | Ok (s', false) => Ok s'
  | Fail => Fail
  | Fault => Fault
  | Timeout => Timeout
  end.

(** One second passes; a signal that is due is delivered unless it is blocked. *)
Definition tick (s : tstate) : res tstate :=
  let s := set_now s (t_now s + 1) in
  match t_alarm s with
  | Some d => if decide (d <= t_now s /\ t_blocked s = false) then timerm_sigalrm (set_alarm s None) else Ok s
  | None => Ok s
  end.

(** [fork]: the child has the memory of its parent, but no pending [alarm]. *)
Definition fork (pid : Z) (s : tstate) : tstate :=
  mkT (alist s) (next s) (cb_running s) (t_now s) pid None (t_blocked s) [].

(** ** The list *)

Definition earlier (a b : talarm) : Prop := al_expire a <= al_expire b.
Abbreviation by_time := (StronglySorted earlier).

Lemma insert_perm (al : talarm) (l : list talarm) : insert_alarm al l ≡ₚ al :: l.
Proof. induction l as [|a l IH]; simpl; [done|]. case_decide; [done|]. rewrite IH. by rewrite Permutation_swap. Qed.

Lemma insert_by_time (al : talarm) (l : list talarm) : by_time l -> by_time (insert_alarm al l).
Proof.
  induction 1 as [|a l Hl IH Ha]; simpl; [by repeat constructor|]. case_decide as Hlt.
  - constructor; [by constructor|]. constructor; [unfold earlier; lia|].
    eapply Forall_impl; [exact Ha|]. unfold earlier. intros. simpl in *. lia.
  - constructor; [done|]. rewrite insert_perm. constructor; [unfold earlier; lia|done].
Qed.

Lemma insert_later (al : talarm) (l k : list talarm) : Forall (fun a => al_expire a <= al_expire al) l ->
  insert_alarm al (l ++ k) = l ++ insert_alarm al k.
Proof. induction 1 as [|a l Ha _ IH]; simpl; [done|]. rewrite decide_False by lia. by rewrite IH. Qed.

Lemma remove_sub (id : nat) (l : list talarm) : sublist (remove_alarm id l) l.
Proof. induction l as [|a l IH]; simpl; [done|]. case_decide; by constructor. Qed.

Lemma sublist_by_time (k l : list talarm) : sublist k l -> by_time l -> by_time k.
Proof.
  induction 1 as [|a k l Hs IH|a k l Hs IH]; intros Hb; [done|..]; apply StronglySorted_inv in Hb as [Hb Ha]; [|by apply IH].
  constructor; [by apply IH|]. rewrite Forall_forall in *. intros x Hx. apply Ha. eapply elem_of_submseteq; [exact Hx|by apply sublist_submseteq].
Qed.

(** The alarms that have expired come first. *)
Definition due (now : Z) (l : list talarm) : list talarm := filter (fun a => al_expire a <= now) l.

Lemma due_split (now : Z) (l : list talarm) : by_time l ->
  exists later, l = due now l ++ later /\ Forall (fun a => now < al_expire a) later.
Proof.
  induction 1 as [|a l Hl IH Ha]; [by exists []|]. unfold due in *. rewrite filter_cons.
  destruct (decide (al_expire a <= now)) as [Hd|Hd].
  - destruct IH as (later & E & Hf). exists later. split; [simpl; by f_equal|done].
  - exists (a :: l). assert (Forall (fun x => now < al_expire x) (a :: l)) as Hall.
    { constructor; [lia|]. eapply Forall_impl; [exact Ha|]. unfold earlier. intros. simpl in *. lia. }
    split; [|done]. apply Forall_cons in Hall as [_ Hall].
    assert (filter (fun x => al_expire x <= now) l = []) as ->; [|done].
    clear -Hall. induction Hall as [|x l Hx _ IH]; [done|]. rewrite filter_cons, decide_False by lia. done.
Qed.

(** ** The invariant *)

(** The list is sorted and the system has been asked for a signal at [next]. *)
Definition armed (s : tstate) : Prop :=
  by_time (alist s) /\ 0 < t_now s /\ t_alarm s = (if decide (next s = 0) then None else Some (next s)) /\
  (next s <> 0 -> t_now s < next s).

(** Every alarm will get a signal when it expires, and within a second if it has. *)
Definition covered (s : tstate) : Prop :=
  Forall (fun al => next s <> 0 /\ next s <= Z.max (al_expire al) (t_now s + 1)) (alist s).

(** Outside callbacks. *)
Definition idle (s : tstate) : Prop := cb_running s = false /\ t_blocked s = false.

Definition timer_ok (s : tstate) : Prop := armed s /\ covered s /\ idle s.

(** Alarms of this process, whose callbacks do not ask for the very same second. *)
Definition own_alarm (pid : Z) (al : talarm) : Prop :=
  al_owner al = pid /\ match al_cb al with CbNone => True | CbAgain secs => 1 <= secs end.
Definition own (s : tstate) : Prop := Forall (own_alarm (t_pid s)) (alist s).

Lemma set_next_ok (s : tstate) : armed s ->
  let s' := timerm_set_next s in
  armed s' /\ covered s' /\ s' = set_alarm (put_next s (next s')) (t_alarm s').
Proof.
  intros (Hs & Hn & Ha & Hx). unfold timerm_set_next. destruct (alist s) as [|al l] eqn:El.
  { split_and!; [split_and!; [by rewrite El|done..]|unfold covered; by rewrite El|by destruct s]. }
  apply StronglySorted_inv in Hs as [Hl Hal]. unfold timerm_set_alarm.
  assert (Forall (fun a => al_expire al <= al_expire a) (al :: l)) as Hall by (constructor; [lia|exact Hal]).
  set (n := t_now s + Z.max 1 (al_expire al - t_now s)). assert (t_now s < n) as Hlt by (unfold n; lia).
  assert (forall k, k <= n -> Forall (fun a => k <= Z.max (al_expire a) (t_now s + 1)) (al :: l)) as Hc.
  { intros k Hk. eapply Forall_impl; [exact Hall|]. intros a Hea. simpl in *. unfold n in Hk. lia. }
  destruct (decide (_ /\ _)) as [Hd|Hd].
  - destruct s as [a b c d e f g h]. cbn in *. subst a. split_and!; [| |done].
    + split_and!; [by constructor|done|by rewrite decide_False by (cbn; lia)|by intros _].
    + eapply Forall_impl; [apply (Hc n); lia|]. intros x Hx'. simpl in *. lia.
  - assert (next s <> 0 /\ next s <= n) as [H0 Hle] by lia.
    split_and!; [split_and!; [rewrite El; by constructor|done..]| |by destruct s].
    unfold covered. rewrite El. eapply Forall_impl; [apply (Hc (next s) Hle)|]. simpl. done.
Qed.

(** What the bookkeeping of an operation leaves alone. *)
Definition same_proc (s s' : tstate) : Prop :=
  t_now s' = t_now s /\ t_pid s' = t_pid s /\ fired s' = fired s /\ cb_running s' = cb_running s.

(** [timerm_set_next] on a changed list, between blocking and unblocking. *)
Definition relist (l : list talarm) (s : tstate) : tstate :=
  timerm_unblock_alarms (timerm_set_next (set_alist (timerm_block_alarms s) l)).

Lemma relist_ok (l : list talarm) (s : tstate) : armed s -> by_time l ->
  let s' := relist l s in
  armed s' /\ covered s' /\ alist s' = l /\ same_proc s s' /\
  t_blocked s' = (if cb_running s then t_blocked s else false).
Proof.
  intros Hs Hl. unfold relist. set (s0 := set_alist (timerm_block_alarms s) l).
  assert (armed s0) as H0.
  { subst s0. destruct s as [a b [] d e f g h], Hs as (? & ? & ? & ?); by split_and!. }
  destruct (set_next_ok s0 H0) as (Ha & Hc & E).
  assert (alist (timerm_set_next s0) = l /\ same_proc s (timerm_set_next s0)) as [El Hp].
  { rewrite E. subst s0. by destruct s as [a b [] d e f g h]. }
  pose proof Hp as (? & ? & ? & Hr). unfold timerm_unblock_alarms. rewrite Hr.
  destruct (cb_running s) eqn:Er.
  - split_and!; [done..|]. rewrite E. subst s0. by destruct s as [a b [] d e f g h].
  - destruct (timerm_set_next s0) as [a b c d e f g h]. cbn in *. by split_and!.
Qed.

Lemma reschedule_relist (al : talarm) (secs : Z) (cb : cb_action) (s : tstate) :
  timerm_reschedule al secs cb s =
    relist (insert_alarm (mkAl (al_id al) (t_now s + secs) cb (al_owner al)) (alist s)) s.
Proof. by destruct s as [a b [] d e f g h]. Qed.

Lemma del_relist (id : nat) (s : tstate) : timerm_del id s = relist (remove_alarm id (alist s)) s.
Proof.
  unfold timerm_del, relist, timerm_alarm_pending.
  assert (alist (timerm_block_alarms s) = alist s) as -> by (by destruct s as [a b [] d e f g h]).
  case_match eqn:Hp; [done|]. do 2 f_equal.
  assert (remove_alarm id (alist s) = alist s) as ->; [|by destruct s as [a b [] d e f g h]].
  induction (alist s) as [|al l IH]; simpl in *; [done|]. apply orb_false_iff in Hp as [Hn Hp].
  apply bool_decide_eq_false in Hn. rewrite decide_False by done. by rewrite IH.
Qed.

(** ** The signal handler *)

(** What a callback leaves in the list. *)
Definition again (now : Z) (l : list talarm) (al : talarm) : list talarm :=
  match al_cb al with
  | CbNone => l
  | CbAgain secs => insert_alarm (mkAl (al_id al) (now + secs) (al_cb al) (al_owner al)) l
  end.

Definition firing (now : Z) (al : talarm) : nat * Z := (al_id al, now).

(** One turn of the loop: the callback of the first alarm, which has expired. *)
Lemma turn_ok (al : talarm) (d later : list talarm) (s : tstate) :
  armed s -> idle s -> own s -> alist s = al :: d ++ later ->
  Forall (fun a => al_expire a <= t_now s) (al :: d) -> Forall (fun a => t_now s < al_expire a) later ->
  let s' := set_running (run_cb al (set_running (set_alist s (d ++ later)) true)) false in
  armed s' /\ idle s' /\ own s' /\ alist s' = d ++ again (t_now s) later al /\
  t_now s' = t_now s /\ t_pid s' = t_pid s /\ fired s' = fired s ++ [firing (t_now s) al].
Proof.
  intros (Hb & Hn & Ha & Hx) [Hr Hbl] Ho El Hd Hl. unfold own in Ho. rewrite El in Hb, Ho.
  apply Forall_cons in Ho as [[Hal Hcb] Ho]. apply StronglySorted_inv in Hb as [Hb _].
  apply Forall_cons in Hd as [_ Hd].
  set (s0 := add_fired (set_running (set_alist s (d ++ later)) true) (firing (t_now s) al)).
  assert (armed s0 /\ idle (set_running s0 false) /\ cb_running s0 = true /\ alist s0 = d ++ later /\
    t_now s0 = t_now s /\ t_pid s0 = t_pid s /\ fired s0 = fired s ++ [firing (t_now s) al]) as
    (Ha0 & Hi0 & Hr0 & El0 & Hn0 & Hp0 & Hf0).
  { subst s0. destruct s; cbn in *. by split_and!. }
  assert (run_cb al (set_running (set_alist s (d ++ later)) true) =
    match al_cb al with CbNone => s0 | CbAgain secs => timerm_reschedule al secs (al_cb al) s0 end) as ->.
  { subst s0. unfold run_cb, firing. by destruct s. }
  clearbody s0. unfold again. destruct (al_cb al) as [|secs] eqn:Ec.
  - destruct s0; cbn in *. unfold own. cbn. subst. by split_and!.
  - rewrite reschedule_relist, El0, Hn0.
    rewrite insert_later by (eapply Forall_impl; [exact Hd|]; simpl; lia).
    set (al' := mkAl _ _ _ _). destruct (relist_ok (d ++ insert_alarm al' later) s0) as (Ha' & _ & El' & Hs' & Hb').
    { done. }
    { rewrite <- (insert_later al' d later); [by apply insert_by_time|].
      eapply Forall_impl; [exact Hd|]; simpl; lia. }
    destruct Hs' as (? & ? & ? & ?). rewrite Hr0 in Hb'. destruct Hi0 as [_ Hi0].
    assert (Forall (own_alarm (t_pid s)) (d ++ insert_alarm al' later)) as Ho'.
    { rewrite insert_perm. apply Forall_app in Ho as [Ho1 Ho2]. apply Forall_app. split; [done|].
      constructor; [|done]. by split. }
    set (s1 := relist _ s0) in *. clearbody s1. destruct s1; cbn in *. destruct s0; cbn in *. subst.
    unfold own. cbn. by split_and!.
Qed.

Lemma again_later (now : Z) (l : list talarm) (al : talarm) (pid : Z) : own_alarm pid al ->
  Forall (fun a => now < al_expire a) l -> Forall (fun a => now < al_expire a) (again now l al).
Proof.
  intros [_ Hcb] Hl. unfold again. destruct (al_cb al) as [|secs]; [done|].
  rewrite insert_perm. constructor; [simpl; lia|done].
Qed.

(** The loop runs the callbacks of the alarms that have expired, in the order of the list. *)
Lemma loop_spec (d : list talarm) : forall (fuel : nat) (later : list talarm) (s : tstate),
  armed s -> idle s -> own s -> alist s = d ++ later -> (length d < fuel)%nat ->
  Forall (fun a => al_expire a <= t_now s) d -> Forall (fun a => t_now s < al_expire a) later ->
  exists s', sigalrm_loop fuel s = Ok (s', bool_decide (alist s' <> [])) /\
    armed s' /\ idle s' /\ own s' /\ alist s' = foldl (again (t_now s)) later d /\
    t_now s' = t_now s /\ t_pid s' = t_pid s /\ fired s' = fired s ++ map (firing (t_now s)) d.
Proof.
  induction d as [|al d IH]; intros fuel later s Ha Hi Ho El Hf Hd Hl.
  - exists s. cbn [app] in El. cbn [length] in Hf. rewrite app_nil_r. split_and!; try done.
    destruct fuel as [|fuel]; [lia|]. simpl. rewrite El. destruct later as [|al later]; [done|].
    unfold own in Ho. rewrite El in Ho. apply Forall_cons in Ho as [[Ho _] _]. apply Forall_cons in Hl as [Hl _].
    rewrite decide_False by (by intros []). by rewrite decide_True.
  - destruct fuel as [|fuel]; [cbn [length] in Hf; lia|]. cbn [length] in Hf.
    destruct (turn_ok al d later s) as (Ha' & Hi' & Ho' & El' & Hn' & Hp' & Hf'); try done.
    set (s1 := set_running (run_cb _ _) false) in *.
    pose proof Hd as Hd0. apply Forall_cons in Hd as [Hal Hd].
    assert (own_alarm (t_pid s) al) as Hoal.
    { unfold own in Ho. rewrite El in Ho. by apply Forall_cons in Ho as [Ho _]. }
    destruct (IH fuel (again (t_now s) later al) s1) as (s' & E & ? & ? & ? & Es & ? & ? & Ef);
      rewrite ?Hn'; try done; [lia|by eapply again_later|].
    exists s'. rewrite Hn', ?Hp', Hf' in *. split_and!; try done; [|by rewrite Ef, <- app_assoc].
    simpl. rewrite El. cbn [app]. destruct Hoal as [Hoal _].
    rewrite decide_False by (by intros []). rewrite decide_False by lia. exact E.
Qed.

(** The alarms that have not expired. *)
Definition not_due (now : Z) (l : list talarm) : list talarm := filter (fun a => now < al_expire a) l.

Lemma due_not_due (now : Z) (l : list talarm) : by_time l -> l = due now l ++ not_due now l.
Proof.
  intros (later & E & Hl)%(due_split now). rewrite E at 1. f_equal. unfold not_due. rewrite E, filter_app.
  assert (forall k, filter (fun a => now < al_expire a) (due now k) = []) as ->.
  { unfold due. induction k as [|a k IH]; [done|]. rewrite filter_cons. case_decide; [|done].
    rewrite filter_cons, decide_False by lia. done. }
  clear E. induction Hl as [|a l' Ha _ IH]; [done|]. simpl. rewrite filter_cons, decide_True by done. by f_equal.
Qed.

Lemma due_expired (now : Z) (l : list talarm) : Forall (fun a => al_expire a <= now) (due now l).
Proof. apply Forall_forall. unfold due. intros a [? _]%list_elem_of_filter. done. Qed.

Lemma not_due_later (now : Z) (l : list talarm) : Forall (fun a => now < al_expire a) (not_due now l).
Proof. apply Forall_forall. unfold not_due. intros a [? _]%list_elem_of_filter. done. Qed.

(** What one second does to the timer. *)
Definition ticked (s s' : tstate) : Prop :=
  let now := t_now s + 1 in
  t_now s' = now /\ t_pid s' = t_pid s /\
  fired s' = fired s ++ map (firing now) (due now (alist s)) /\
  alist s' = foldl (again now) (not_due now (alist s)) (due now (alist s)).

Lemma tick_spec (s : tstate) : timer_ok s -> own s ->
  exists s', tick s = Ok s' /\ timer_ok s' /\ own s' /\ ticked s s'.
Proof.
  intros ((Hb & Hn & Ha & Hx) & Hc & Hi) Ho. unfold tick. set (s0 := set_now s (t_now s + 1)).
  assert (alist s0 = alist s /\ t_now s0 = t_now s + 1 /\ t_pid s0 = t_pid s /\ fired s0 = fired s /\
    t_alarm s0 = t_alarm s /\ idle s0 /\ next s0 = next s) as (E1 & E2 & E3 & E4 & E5 & Hi0 & E6).
  { by destruct s. }
  rewrite E5, Ha. destruct (decide (next s = 0)) as [Hz|Hz]; [|case_decide as Hdue].
  - assert (alist s = []) as El.
    { unfold covered in Hc. destruct (alist s); [done|]. apply Forall_cons in Hc as [[? _] _]. done. }
    exists s0. unfold timer_ok, armed, covered, own, ticked. rewrite E1, E2, E3, E4, E5, E6, Ha, El.
    rewrite decide_True by done. split_and!; try done; [constructor|lia|by rewrite app_nil_r].
  - set (s1 := put_next (set_alarm s0 None) 0).
    assert (armed s1 /\ idle s1 /\ own s1 /\ alist s1 = alist s /\ t_now s1 = t_now s + 1 /\
      t_pid s1 = t_pid s /\ fired s1 = fired s) as (Ha1 & Hi1 & Ho1 & F1 & F2 & F3 & F4).
    { subst s0 s1. destruct s; cbn in *. split_and!; try done. split_and!; try done. cbn. lia. }
    pose proof (due_not_due (t_now s + 1) (alist s) Hb) as El.
    destruct (loop_spec (due (t_now s + 1) (alist s)) (S (length (alist s))) (not_due (t_now s + 1) (alist s)) s1)
      as (s2 & E & Ha2 & Hi2 & Ho2 & El2 & G2 & G3 & G4); try done.
    { by rewrite F1. } { rewrite El at 2. rewrite length_app. lia. }
    { rewrite F2. apply due_expired. } { rewrite F2. apply not_due_later. }
    unfold timerm_sigalrm. assert (alist (set_alarm s0 None) = alist s) as -> by (by destruct s).
    fold s1. rewrite E. rewrite F2, F3, F4 in *. destruct (set_next_ok s2 Ha2) as (Ha3 & Hc3 & E3').
    destruct (alist s2) as [|al l] eqn:E2'.
    + exists s2. unfold timer_ok, ticked, covered. rewrite E2', <- El2. by split_and!.
    + exists (timerm_set_next s2). split; [done|]. unfold timer_ok, own, ticked, idle. split_and!; try done.
      all: rewrite E3'; unfold idle in Hi2; destruct s2; cbn in *; subst; try tauto; try done.
  - assert (t_now s + 1 < next s) as Hlt by (destruct Hi0 as [_ Hb0]; rewrite Hb0, E2 in Hdue; lia).
    assert (Forall (fun a => t_now s + 1 < al_expire a) (alist s)) as Hall.
    { eapply Forall_impl; [exact Hc|]. simpl. lia. }
    assert (due (t_now s + 1) (alist s) = []) as Hd.
    { unfold due. clear -Hall. induction Hall; [done|]. rewrite filter_cons, decide_False by lia. done. }
    pose proof (due_not_due (t_now s + 1) (alist s) Hb) as El. rewrite Hd in El. cbn [app] in El.
    exists s0. unfold timer_ok, armed, covered, own, ticked. rewrite E1, E2, E3, E4, E5, E6, Ha, Hd.
    rewrite decide_False by done. split_and!; try done; [lia| |by rewrite app_nil_r].
    unfold covered in Hc. rewrite Forall_forall in *. intros a Hin. specialize (Hc a Hin). specialize (Hall a Hin). lia.
Qed.

(** ** The timer over time *)

Inductive timer_op := TAdd (id : nat) (secs : Z) (cb : cb_action) | TDel (id : nat) | TTick.

#[global] Instance timer_op_eq_dec : EqDecision timer_op.
Proof. solve_decision. Defined.

Definition timer_run1 (op : timer_op) (s : tstate) : res tstate :=
  match op with
  | TAdd id secs cb => Ok (timerm_add id secs cb s)
  | TDel id => Ok (timerm_del id s)
  | TTick => tick s
  end.

Fixpoint timer_run (ops : list timer_op) (s : tstate) : res tstate :=
  match ops with
  | [] => Ok s
  | op :: ops' => match timer_run1 op s with Ok s' => timer_run ops' s' | Fail => Fail | Fault => Fault | Timeout => Timeout end
  end.

(** A periodic callback asks for a second or more. *)
Definition op_fair (op : timer_op) : Prop :=
  match op with TAdd _ _ (CbAgain secs) => 1 <= secs | _ => True end.

Definition timer_start (now pid : Z) : tstate := mkT [] 0 false now pid None false [].

Lemma start_ok (now pid : Z) : 0 < now -> timer_ok (timer_start now pid) /\ own (timer_start now pid).
Proof. intros. unfold timer_ok, armed, covered, own. cbn. split_and!; try done; constructor. Qed.

Lemma relist_timer_ok (l : list talarm) (s : tstate) : timer_ok s -> by_time l -> Forall (own_alarm (t_pid s)) l ->
  timer_ok (relist l s) /\ own (relist l s) /\ alist (relist l s) = l /\ same_proc s (relist l s).
Proof.
  intros (Ha & _ & [Hr Hb]) Hl Ho. destruct (relist_ok l s Ha Hl) as (? & ? & El & Hs & Hbl).
  rewrite Hr in Hbl. pose proof Hs as (? & Hp & ? & Hcb). unfold timer_ok, own, idle. rewrite El, Hp, Hcb. by split_and!.
Qed.

Lemma add_spec (id : nat) (secs : Z) (cb : cb_action) (s : tstate) : timer_ok s -> own s -> op_fair (TAdd id secs cb) ->
  let s' := timerm_add id secs cb s in
  timer_ok s' /\ own s' /\ alist s' = insert_alarm (mkAl id (t_now s + secs) cb (t_pid s)) (alist s) /\ same_proc s s'.
Proof.
  intros Hok Ho Hf. cbn zeta. unfold timerm_add. rewrite reschedule_relist. cbn [al_id al_owner].
  apply relist_timer_ok; [done|apply insert_by_time, Hok|]. rewrite insert_perm. constructor; [|done].
  split; [done|]. by destruct cb.
Qed.

Lemma del_spec (id : nat) (s : tstate) : timer_ok s -> own s ->
  let s' := timerm_del id s in
  timer_ok s' /\ own s' /\ alist s' = remove_alarm id (alist s) /\ same_proc s s'.
Proof.
  intros Hok Ho. cbn zeta. rewrite del_relist. apply relist_timer_ok; [done|..].
  - eapply sublist_by_time; [apply remove_sub|apply Hok].
  - unfold own in Ho. rewrite Forall_forall in *. intros a Ha. apply Ho.
    eapply elem_of_submseteq; [exact Ha|apply sublist_submseteq, remove_sub].
Qed.

Lemma run1_ok (op : timer_op) (s : tstate) : timer_ok s -> own s -> op_fair op ->
  exists s', timer_run1 op s = Ok s' /\ timer_ok s' /\ own s'.
Proof.
  intros Hok Ho Hf. destruct op as [id secs cb|id|]; cbn [timer_run1].
  - destruct (add_spec id secs cb s) as (? & ? & _); eauto.
  - destruct (del_spec id s) as (? & ? & _); eauto.
  - destruct (tick_spec s) as (s' & ? & ? & ? & _); eauto.
Qed.

Lemma remove_elem (id : nat) (al : talarm) (l : list talarm) : al ∈ l -> al_id al <> id -> al ∈ remove_alarm id l.
Proof.
  induction l as [|a l IH]; simpl; [done|]. rewrite elem_of_cons. intros [->|Hin] Hne.
  - rewrite decide_False by done. by left.
  - case_decide; [done|]. right. by apply IH.
Qed.

Lemma again_elem (now : Z) (al : talarm) (d l : list talarm) : al ∈ l -> al ∈ foldl (again now) l d.
Proof.
  revert l. induction d as [|a d IH]; intros l Hin; simpl; [done|]. apply IH. unfold again.
  destruct (al_cb a); [done|]. rewrite insert_perm. by right.
Qed.

(** The alarm is still in the list, before its time, or its callback has run on time. *)
Definition on_time (al : talarm) (t : Z) (s : tstate) : Prop :=
  (al ∈ alist s /\ t_now s < t /\ al_expire al <= t /\ (t_now s + 1 < t -> t = al_expire al)) \/ firing t al ∈ fired s.

Lemma run1_on_time (op : timer_op) (al : talarm) (t : Z) (s s' : tstate) :
  timer_ok s -> own s -> op_fair op -> op <> TDel (al_id al) -> timer_run1 op s = Ok s' ->
  on_time al t s -> on_time al t s'.
Proof.
  intros Hok Ho Hf Hne E Ht. destruct op as [id secs cb|id|]; cbn [timer_run1] in E.
  - injection E as <-. destruct (add_spec id secs cb s Hok Ho Hf) as (_ & _ & El & Hn & _ & Hfi & _).
    unfold on_time. rewrite El, Hn, Hfi, insert_perm, elem_of_cons. unfold on_time in Ht. tauto.
  - injection E as <-. destruct (del_spec id s Hok Ho) as (_ & _ & El & Hn & _ & Hfi & _).
    unfold on_time. rewrite El, Hn, Hfi. destruct Ht as [(? & ?)|?]; [|by right]. left.
    split; [|done]. apply remove_elem; [done|congruence].
  - destruct (tick_spec s Hok Ho) as (s1 & E1 & _ & _ & Hn & _ & Hfi & El). rewrite E1 in E. injection E as ->.
    unfold on_time. rewrite Hn, Hfi, El, elem_of_app. destruct Ht as [(Hin & Hlt & Hle & Hex)|?]; [|by right; left].
    destruct (decide (t = t_now s + 1)) as [->|Hne'].
    + right. right. apply list_elem_of_fmap. exists al. split; [done|]. by apply list_elem_of_filter.
    + left. split_and!; [|lia|done|intros; apply Hex; lia]. apply again_elem, list_elem_of_filter.
      split; [|done]. specialize (Hex ltac:(lia)). lia.
Qed.

Lemma run_on_time (al : talarm) (t : Z) (ops : list timer_op) : Forall op_fair ops -> TDel (al_id al) ∉ ops ->
  forall s, timer_ok s -> own s -> on_time al t s ->
  exists s', timer_run ops s = Ok s' /\ timer_ok s' /\ own s' /\ on_time al t s'.
Proof.
  induction 1 as [|op ops Hf _ IH]; intros Hni s Hok Ho Ht; simpl; [eauto|].
  rewrite elem_of_cons in Hni. destruct (run1_ok op s) as (s1 & E & Hok1 & Ho1); try done. rewrite E.
  apply IH; [tauto|done..|]. eapply run1_on_time; [exact Hok|exact Ho|exact Hf| |exact E|done]. intros ->. tauto.
Qed.


Definition sample_timer : tstate :=
  timerm_add 2 5 CbNone (timerm_add 1 3 (CbAgain 3) (timer_start 100 7)).


(** C36: the timer stays well formed.  Whatever alarms are added and deleted and however
    the clock ticks, nothing loops for ever, the list of alarms stays sorted by expiry, the
    signal asked of the system is the one the timer believes to be pending, every alarm
    in the list is covered by it, and alarms are left unblocked. *)
Theorem timer_invariant (now pid : Z) (ops : list timer_op) : 0 < now -> Forall op_fair ops ->
  exists s', timer_run ops (timer_start now pid) = Ok s' /\ timer_ok s' /\ own s'.
Proof.
  intros Hn Hf. destruct (start_ok now pid Hn) as [Hok Ho]. revert Hok Ho. generalize (timer_start now pid).
  induction Hf as [|op ops Hop _ IH]; intros s Hok Ho; simpl; [eauto|].
  destruct (run1_ok op s) as (s1 & -> & Hok1 & Ho1); try done. by apply IH.
Qed.

Lemma timer_invariant_witness : exists s', timer_run [TAdd 1 2 (CbAgain 2); TTick; TTick; TTick] (timer_start 100 7) = Ok s' /\
  timer_ok s' /\ next s' = 104.
Proof.
  destruct (timer_invariant 100 7 [TAdd 1 2 (CbAgain 2); TTick; TTick; TTick]) as (s' & E & Hok & _);
    [lia|repeat constructor; cbn; lia|]. exists s'. split; [exact E|]. split; [exact Hok|]. vm_compute in E. by injection E as <-.
Defined.

(** One second of the clock runs exactly the callbacks that are due, in the order of
    their expiry, keeps the alarms that are not, and puts back at their new time those whose
    callback asks for it. *)
Theorem timer_tick_exact (s : tstate) : timer_ok s -> own s ->
  exists s', tick s = Ok s' /\ timer_ok s' /\ t_now s' = t_now s + 1 /\
    fired s' = fired s ++ map (firing (t_now s + 1)) (due (t_now s + 1) (alist s)) /\
    alist s' = foldl (again (t_now s + 1)) (not_due (t_now s + 1) (alist s)) (due (t_now s + 1) (alist s)).
Proof. intros Hok Ho. destruct (tick_spec s Hok Ho) as (s' & ? & ? & _ & ? & _ & ? & ?). eauto 10. Qed.

Lemma timer_tick_exact_witness : exists s', tick (timerm_add 1 1 (CbAgain 4) (timer_start 100 7)) = Ok s' /\
  timer_ok s' /\ fired s' = [(1%nat, 101)] /\ alist s' = [mkAl 1 105 (CbAgain 4) 7].
Proof.
  destruct (start_ok 100 7 ltac:(lia)) as [Hok Ho].
  destruct (add_spec 1 1 (CbAgain 4) _ Hok Ho ltac:(cbn; lia)) as (Hok1 & Ho1 & _).
  destruct (timer_tick_exact (timerm_add 1 1 (CbAgain 4) (timer_start 100 7)) Hok1 Ho1) as (s' & E & H1 & _ & _).
  exists s'. split; [exact E|]. split; [exact H1|]. vm_compute in E. injection E as <-. by vm_compute.
Defined.

(** ** The child of a fork *)

Fixpoint ticks (n : nat) (s : tstate) : res tstate :=
  match n with
  | 0%nat => Ok s
  | S n' => match tick s with Ok s' => ticks n' s' | Fail => Fail | Fault => Fault | Timeout => Timeout end
  end.

Lemma ticks_unarmed (n : nat) (s : tstate) : t_alarm s = None -> exists s', ticks n s = Ok s' /\ fired s' = fired s.
Proof.
  revert s. induction n as [|n IH]; intros s Hs; simpl; [by exists s|].
  unfold tick. assert (t_alarm (set_now s (t_now s + 1)) = None) as E by (by destruct s). rewrite E.
  destruct (IH _ E) as (s' & ? & Hf). exists s'. split; [done|]. rewrite Hf. by destruct s.
Qed.

(** A timer inherited over [fork] may be dead.  The child keeps [timer->next] of its
    parent but not the pending signal, so an alarm it adds that expires at [next] or later
    never asks the system for a signal: however long the child runs, its callback does not. *)
Theorem timer_fork_dead (s : tstate) (pid : Z) (id : nat) (secs : Z) (cb : cb_action) :
  timer_ok s -> next s <> 0 -> next s <= t_now s + secs ->
  forall n, exists s', ticks n (timerm_add id secs cb (fork pid s)) = Ok s' /\ fired s' = [].
Proof.
  intros ((Hb & Hn & _ & _) & Hc & [Hr _]) Hz Hle n.
  set (s1 := timerm_add id secs cb (fork pid s)).
  assert (t_alarm s1 = None /\ fired s1 = []) as [Ha <-]; [|by apply ticks_unarmed].
  subst s1. unfold timerm_add, timerm_reschedule, fork, timerm_block_alarms. cbn. rewrite Hr. cbn.
  unfold timerm_set_next. cbn. set (al := mkAl _ _ _ _).
  assert (Forall (fun a => next s <= Z.max (al_expire a) (t_now s + 1)) (insert_alarm al (alist s))) as Hall.
  { rewrite insert_perm. constructor; [subst al; cbn; lia|]. eapply Forall_impl; [exact Hc|]. simpl. lia. }
  destruct (insert_alarm al (alist s)) as [|a l]; [by unfold timerm_unblock_alarms|].
  apply Forall_cons in Hall as [Ha _]. unfold timerm_set_alarm. cbn. rewrite decide_False by lia.
  by unfold timerm_unblock_alarms.
Qed.

Lemma timer_fork_dead_witness : exists s',
  ticks 60 (timerm_add 9 10 CbNone (fork 8 sample_timer)) = Ok s' /\ fired s' = [].
Proof.
  destruct (start_ok 100 7 ltac:(lia)) as [Hok Ho].
  destruct (add_spec 1 3 (CbAgain 3) _ Hok Ho ltac:(cbn; lia)) as (Hok1 & Ho1 & _).
  destruct (add_spec 2 5 CbNone _ Hok1 Ho1 I) as (Hok2 & _).
  apply (timer_fork_dead sample_timer 8 9 10 CbNone Hok2); vm_compute; done.
Defined.
