(* ===== verification/Mime.v ===== *)
(** MIME types: the table of src/src/libutils/mime_map.c with [u_get_mime_map] and
    [u_guess_mime_type] of src/src/libutils/utils.c. *)

From S2P Require Import Prelude Libu.

Record mime_map_t := mkMime { mm_ext : list byte; mm_mime_type : list byte; mm_comp : nat }.

#[global] Instance mime_map_eq_dec : EqDecision mime_map_t.
Proof. solve_decision. Defined.

(** The row of zeros that ends the table is left out. *)
Definition mime_map : list mime_map_t := [
  mkMime (bs " ext not found ") (bs "application/octet-stream") 1;
  mkMime (bs "ai") (bs "application/postscript") 1;
  mkMime (bs "aif") (bs "audio/x-aiff") 1;
  mkMime (bs "aifc") (bs "audio/x-aiff") 1;
  mkMime (bs "aiff") (bs "audio/x-aiff") 1;
  mkMime (bs "asc") (bs "text/plain") 1;
  mkMime (bs "atom") (bs "application/atom+xml") 1;
  mkMime (bs "au") (bs "audio/basic") 1;
  mkMime (bs "avi") (bs "video/x-msvideo") 1;
  mkMime (bs "bcpio") (bs "application/x-bcpio") 1;
  mkMime (bs "bin") (bs "application/octet-stream") 1;
  mkMime (bs "bmp") (bs "image/bmp") 1;
  mkMime (bs "bz2") (bs "application/x-bzip2") 0;
  mkMime (bs "cdf") (bs "application/x-netcdf") 1;
  mkMime (bs "cgm") (bs "image/cgm") 1;
  mkMime (bs "class") (bs "application/octet-stream") 1;
  mkMime (bs "cpio") (bs "application/x-cpio") 1;
  mkMime (bs "cpt") (bs "application/mac-compactpro") 1;
  mkMime (bs "csh") (bs "application/x-csh") 1;
  mkMime (bs "css") (bs "text/css") 1;
  mkMime (bs "kl1") (bs "text/html") 1;
  mkMime (bs "klone") (bs "text/html") 1;
  mkMime (bs "dcr") (bs "application/x-director") 1;
  mkMime (bs "dir") (bs "application/x-director") 1;
  mkMime (bs "djv") (bs "image/vnd.djvu") 1;
  mkMime (bs "djvu") (bs "image/vnd.djvu") 1;
  mkMime (bs "dll") (bs "application/octet-stream") 1;
  mkMime (bs "dmg") (bs "application/octet-stream") 1;
  mkMime (bs "dms") (bs "application/octet-stream") 1;
  mkMime (bs "doc") (bs "application/msword") 1;
  mkMime (bs "dtd") (bs "application/xml-dtd") 1;
  mkMime (bs "dvi") (bs "application/x-dvi") 1;
  mkMime (bs "dxr") (bs "application/x-director") 1;
  mkMime (bs "eps") (bs "application/postscript") 1;
  mkMime (bs "etx") (bs "text/x-setext") 1;
  mkMime (bs "exe") (bs "application/octet-stream") 1;
  mkMime (bs "ez") (bs "application/andrew-inset") 1;
  mkMime (bs "gif") (bs "image/gif") 0;
  mkMime (bs "gram") (bs "application/srgs") 1;
  mkMime (bs "grxml") (bs "application/srgs+xml") 1;
  mkMime (bs "gtar") (bs "application/x-gtar") 1;
  mkMime (bs "gz") (bs "application/x-gzip") 0;
  mkMime (bs "hdf") (bs "application/x-hdf") 1;
  mkMime (bs "hqx") (bs "application/mac-binhex40") 0;
  mkMime (bs "htm") (bs "text/html") 1;
  mkMime (bs "html") (bs "text/html") 1;
  mkMime (bs "ice") (bs "x-conference/x-cooltalk") 1;
  mkMime (bs "ico") (bs "image/x-icon") 1;
  mkMime (bs "ics") (bs "text/calendar") 1;
  mkMime (bs "ief") (bs "image/ief") 1;
  mkMime (bs "ifb") (bs "text/calendar") 1;
  mkMime (bs "iges") (bs "model/iges") 1;
  mkMime (bs "igs") (bs "model/iges") 1;
  mkMime (bs "jpe") (bs "image/jpeg") 0;
  mkMime (bs "jpeg") (bs "image/jpeg") 0;
  mkMime (bs "jpg") (bs "image/jpeg") 0;
  mkMime (bs "js") (bs "application/x-javascript") 1;
  mkMime (bs "kar") (bs "audio/midi") 1;
  mkMime (bs "latex") (bs "application/x-latex") 1;
  mkMime (bs "lha") (bs "application/octet-stream") 0;
  mkMime (bs "lzh") (bs "application/octet-stream") 0;
  mkMime (bs "m3u") (bs "audio/x-mpegurl") 1;
  mkMime (bs "m4u") (bs "video/vnd.mpegurl") 1;
  mkMime (bs "man") (bs "application/x-troff-man") 1;
  mkMime (bs "mathml") (bs "application/mathml+xml") 1;
  mkMime (bs "me") (bs "application/x-troff-me") 1;
  mkMime (bs "mesh") (bs "model/mesh") 1;
  mkMime (bs "mid") (bs "audio/midi") 0;
  mkMime (bs "midi") (bs "audio/midi") 0;
  mkMime (bs "mov") (bs "video/quicktime") 0;
  mkMime (bs "movie") (bs "video/x-sgi-movie") 0;
  mkMime (bs "mp2") (bs "audio/mpeg") 0;
  mkMime (bs "mp3") (bs "audio/mpeg") 0;
  mkMime (bs "mpe") (bs "video/mpeg") 0;
  mkMime (bs "mpeg") (bs "video/mpeg") 0;
  mkMime (bs "mpg") (bs "video/mpeg") 0;
  mkMime (bs "mpga") (bs "audio/mpeg") 0;
  mkMime (bs "ms") (bs "application/x-troff-ms") 1;
  mkMime (bs "msh") (bs "model/mesh") 1;
  mkMime (bs "mxu") (bs "video/vnd.mpegurl") 1;
  mkMime (bs "nc") (bs "application/x-netcdf") 1;
  mkMime (bs "oda") (bs "application/oda") 1;
  mkMime (bs "ogg") (bs "application/ogg") 0;
  mkMime (bs "pbm") (bs "image/x-portable-bitmap") 1;
  mkMime (bs "pdb") (bs "chemical/x-pdb") 1;
  mkMime (bs "pdf") (bs "application/pdf") 0;
  mkMime (bs "pgm") (bs "image/x-portable-graymap") 1;
  mkMime (bs "pgn") (bs "application/x-chess-pgn") 1;
  mkMime (bs "png") (bs "image/png") 0;
  mkMime (bs "pnm") (bs "image/x-portable-anymap") 1;
  mkMime (bs "ppm") (bs "image/x-portable-pixmap") 1;
  mkMime (bs "ppt") (bs "application/vnd.ms-powerpoint") 1;
  mkMime (bs "ps") (bs "application/postscript") 1;
  mkMime (bs "qt") (bs "video/quicktime") 0;
  mkMime (bs "ra") (bs "audio/x-pn-realaudio") 0;
  mkMime (bs "ram") (bs "audio/x-pn-realaudio") 0;
  mkMime (bs "ras") (bs "image/x-cmu-raster") 1;
  mkMime (bs "rdf") (bs "application/rdf+xml") 1;
  mkMime (bs "rgb") (bs "image/x-rgb") 1;
  mkMime (bs "rm") (bs "application/vnd.rn-realmedia") 0;
  mkMime (bs "roff") (bs "application/x-troff") 1;
  mkMime (bs "rtf") (bs "text/rtf") 1;
  mkMime (bs "rtx") (bs "text/richtext") 1;
  mkMime (bs "sgm") (bs "text/sgml") 1;
  mkMime (bs "sgml") (bs "text/sgml") 1;
  mkMime (bs "sh") (bs "application/x-sh") 1;
  mkMime (bs "shar") (bs "application/x-shar") 1;
  mkMime (bs "silo") (bs "model/mesh") 1;
  mkMime (bs "sit") (bs "application/x-stuffit") 1;
  mkMime (bs "skd") (bs "application/x-koan") 1;
  mkMime (bs "skm") (bs "application/x-koan") 1;
  mkMime (bs "skp") (bs "application/x-koan") 1;
  mkMime (bs "skt") (bs "application/x-koan") 1;
  mkMime (bs "smi") (bs "application/smil") 1;
  mkMime (bs "smil") (bs "application/smil") 1;
  mkMime (bs "snd") (bs "audio/basic") 1;
  mkMime (bs "so") (bs "application/octet-stream") 1;
  mkMime (bs "spl") (bs "application/x-futuresplash") 1;
  mkMime (bs "src") (bs "application/x-wais-source") 1;
  mkMime (bs "sv4cpio") (bs "application/x-sv4cpio") 1;
  mkMime (bs "sv4crc") (bs "application/x-sv4crc") 1;
  mkMime (bs "svg") (bs "image/svg+xml") 1;
  mkMime (bs "swf") (bs "application/x-shockwave-flash") 1;
  mkMime (bs "t") (bs "application/x-troff") 1;
  mkMime (bs "tar") (bs "application/x-tar") 1;
  mkMime (bs "tcl") (bs "application/x-tcl") 1;
  mkMime (bs "tex") (bs "application/x-tex") 1;
  mkMime (bs "texi") (bs "application/x-texinfo") 1;
  mkMime (bs "texinfo") (bs "application/x-texinfo") 1;
  mkMime (bs "tif") (bs "image/tiff") 1;
  mkMime (bs "tiff") (bs "image/tiff") 1;
  mkMime (bs "tr") (bs "application/x-troff") 1;
  mkMime (bs "tsv") (bs "text/tab-separated-values") 1;
  mkMime (bs "txt") (bs "text/plain") 1;
  mkMime (bs "ustar") (bs "application/x-ustar") 1;
  mkMime (bs "vcd") (bs "application/x-cdlink") 1;
  mkMime (bs "vrml") (bs "model/vrml") 1;
  mkMime (bs "vxml") (bs "application/voicexml+xml") 1;
  mkMime (bs "wav") (bs "audio/x-wav") 1;
  mkMime (bs "wbmp") (bs "image/vnd.wap.wbmp") 1;
  mkMime (bs "wbxml") (bs "application/vnd.wap.wbxml") 1;
  mkMime (bs "wml") (bs "text/vnd.wap.wml") 1;
  mkMime (bs "wmlc") (bs "application/vnd.wap.wmlc") 1;
  mkMime (bs "wmls") (bs "text/vnd.wap.wmlscript") 1;
  mkMime (bs "wmlsc") (bs "application/vnd.wap.wmlscriptc") 1;
  mkMime (bs "wrl") (bs "model/vrml") 1;
  mkMime (bs "xbm") (bs "image/x-xbitmap") 1;
  mkMime (bs "xht") (bs "application/xhtml+xml") 1;
  mkMime (bs "xhtml") (bs "application/xhtml+xml") 1;
  mkMime (bs "xls") (bs "application/vnd.ms-excel") 1;
  mkMime (bs "xml") (bs "application/xml") 1;
  mkMime (bs "xpm") (bs "image/x-xpixmap") 1;
  mkMime (bs "xsl") (bs "application/xml") 1;
  mkMime (bs "xslt") (bs "application/xslt+xml") 1;
  mkMime (bs "xwd") (bs "image/x-xwindowdump") 1;
  mkMime (bs "xyz") (bs "chemical/x-xyz") 1;
  mkMime (bs "zip") (bs "application/zip") 0].

Definition mime_default : mime_map_t := mkMime (bs " ext not found ") (bs "application/octet-stream") 1.

(** The loop over the table. *)
Fixpoint mime_loop (ext : list byte) (mm : list mime_map_t) : option mime_map_t :=
  match mm with
  | [] => None
  | m :: mm' => if strcaseeq (mm_ext m) ext then Some m else mime_loop ext mm'
  end.

Definition u_get_mime_map (file_name : option (list byte)) : mime_map_t :=
  match file_name with
  | None => mime_default
  | Some fn =>
      match strrchr fn "." with
      | Some k => match mime_loop (drop (S k) fn) mime_map with Some m => m | None => mime_default end
      | None => mime_default
      end
  end.

Definition u_guess_mime_type (file_name : option (list byte)) : list byte :=
  match file_name with
  | None => bs "application/octet-stream"
  | Some fn =>
      match strrchr fn "." with
      | Some k =>
          match mime_loop (drop (S k) fn) mime_map with
          | Some m => mm_mime_type m
          | None => bs "application/octet-stream"
          end
      | None => bs "application/octet-stream"
      end
  end.

(** ** The table *)

Lemma mime_default_first : mime_map !! 0 = Some mime_default.
Proof. vm_compute. done. Qed.

(** No two rows have the same extension, and none has a dot. *)
Definition mime_exts : list (list byte) := map (fun m => map tolower (mm_ext m)) mime_map.

Lemma mime_exts_nodup : NoDup mime_exts.
Proof. apply (bool_decide_unpack _). vm_compute. done. Qed.

Lemma mime_exts_plain : Forall (fun e => "."%byte ∉ e) mime_exts.
Proof. apply (bool_decide_unpack _). vm_compute. done. Qed.

Lemma mime_loop_spec (ext : list byte) (m : mime_map_t) (l : list mime_map_t) :
  NoDup (map (fun m => map tolower (mm_ext m)) l) -> m ∈ l -> map tolower (mm_ext m) = map tolower ext ->
  mime_loop ext l = Some m.
Proof.
  induction l as [|x l IH]; intros Hnd Hin He; [by apply elem_of_nil in Hin|]. cbn [map] in Hnd.
  apply NoDup_cons in Hnd as [Hx Hnd]. cbn [mime_loop]. unfold strcaseeq, streq.
  apply elem_of_cons in Hin as [->|Hin]; [by rewrite bool_decide_true|].
  rewrite bool_decide_false; [by apply IH|]. intros Hxe. apply Hx. rewrite Hxe, <- He.
  apply list_elem_of_fmap. by exists m.
Qed.

Lemma tolower_dot (c : byte) : tolower c = "."%byte -> c = "."%byte.
Proof. by destruct c. Qed.

(** The type of a file is the one of the row with its extension, the text after the
    last dot compared without case, and both lookups agree; a name without a dot gets the
    default row. *)
Theorem mime_lookup (m : mime_map_t) (stem ext : list byte) :
  m ∈ mime_map -> map tolower ext = map tolower (mm_ext m) ->
  u_get_mime_map (Some (stem ++ "."%byte :: ext)) = m /\
  u_guess_mime_type (Some (stem ++ "."%byte :: ext)) = mm_mime_type m /\
  forall fn, "."%byte ∉ fn -> u_get_mime_map (Some fn) = mime_default /\
    u_guess_mime_type (Some fn) = mm_mime_type mime_default.
Proof.
  intros Hm He. assert ("."%byte ∉ ext) as Hd.
  { intros Hin. pose proof mime_exts_plain as Hp. rewrite Forall_forall in Hp.
    apply (Hp (map tolower (mm_ext m))); [apply list_elem_of_fmap; by exists m|].
    rewrite <- He. apply list_elem_of_fmap. by exists "."%byte. }
  unfold u_get_mime_map, u_guess_mime_type. rewrite strrchr_app by done.
  replace (drop (S (length stem)) (stem ++ "."%byte :: ext)) with ext
    by (rewrite drop_app, drop_ge by lia; by replace (S (length stem) - length stem) with 1 by lia).
  rewrite (mime_loop_spec ext m mime_map mime_exts_nodup Hm) by done. split_and!; [done..|].
  intros fn Hfn. apply strrchr_None in Hfn. by rewrite Hfn.
Qed.

Lemma mime_lookup_witness :
  u_get_mime_map (Some (bs "/img/logo.x.PNG")) = mkMime (bs "png") (bs "image/png") 0 /\
  u_guess_mime_type (Some (bs "/img/logo.x.PNG")) = bs "image/png".
Proof.
  destruct (mime_lookup (mkMime (bs "png") (bs "image/png") 0) (bs "/img/logo.x") (bs "PNG")) as (H1 & H2 & _).
  - apply (bool_decide_unpack _). vm_compute. done.
  - done.
  - split; [exact H1|exact H2].
Defined.
