(* ===== verification/TransC.v ===== *)
(** Pages to C: src/src/libtrans/trans_c.c.

    The translator runs the page parser with two callbacks.  Text becomes a constant array
    and a call that writes it, an expression a call of [io_printf]; declarations go straight
    to the output, code is collected and printed at the end as the body of one function.
    The state of the callbacks is the output stream, the collected blocks and the count of
    text blocks.  [zip] is the codec that compresses an array when it is asked for (none
    without libz).  The error message left in [emsg] is not modelled. *)

From S2P Require Import Prelude Libu Encode Date Io IoSpec IoMem Parser Response Md5 Mime.

Definition NL : list byte := [x0a].
Definition DQ : list byte := [x22].
Definition URI_BUFSZ : nat := N.to_nat 1024.

Record trans_info := mkTi {
  ti_file_in : list byte;
  ti_file_out : list byte;
  ti_depend_out : list byte;
  ti_uri : list byte;
  ti_dfun : list byte;
  ti_comp : Z;
  ti_encrypt : Z;
  ti_file_size : Z;
  ti_mtime : Z
}.

Definition set_dfun (ti : trans_info) (v : list byte) : trans_info :=
  let 'mkTi a b c d _ f g h i := ti in mkTi a b c d v f g h i.

(** A collected block; the line and file kept with it are never read. *)
Definition code_block : Type := list byte.

(** ** The texts *)

Definition copyright_hdr : list byte :=
  bs "/*                                                                     " ++ NL ++
  bs " * Copyright (c) 2005-2012 by KoanLogic s.r.l. <http://koanlogic.com>  " ++ NL ++
  bs " * All rights reserved.                                                " ++ NL ++
  bs " *                                                                     " ++ NL ++
  bs " * This file is part of KLone, and as such it is subject to the license" ++ NL ++
  bs " * stated in the LICENSE file which you have received as part of this  " ++ NL ++
  bs " * distribution                                                        " ++ NL ++
  bs " */                                                                    " ++ NL.

Definition exec_head (dfun : list byte) : list byte :=
  NL ++ NL ++
  bs "static void exec_page(dypage_args_t *_dyp_args)                    " ++ NL ++
  bs "{                                                                  " ++ NL ++
  bs "   request = _dyp_args->rq;                                        " ++ NL ++
  bs "   response = _dyp_args->rs;                                       " ++ NL ++
  bs "   session = _dyp_args->ss;                                        " ++ NL ++
  bs "   in = request_io(request);                                       " ++ NL ++
  bs "   out = response_io(response);                                    " ++ NL ++
  bs "   u_unused_args(SCRIPT_NAME, request, response, session, in, out);" ++ NL ++
  bs "   " ++ dfun ++ bs " () ; " ++ NL ++ bs " ".

Definition exec_tail : list byte :=
  bs "goto klone_script_exit;" ++ NL ++
  bs "klone_script_exit:     " ++ NL ++
  bs "   return;             " ++ NL ++
  bs "}                      " ++ NL.

Definition static_vars : list byte :=
  bs "static request_t *request = NULL;" ++ NL ++
  bs "static response_t *response = NULL;" ++ NL ++
  bs "static session_t *session = NULL;" ++ NL ++
  bs "static io_t *in = NULL;" ++ NL ++
  bs "static io_t *out = NULL;" ++ NL.

Definition static_page_text (ti : trans_info) : list byte :=
  bs "static embfile_t e;                " ++ NL ++
  bs "static void res_ctor(void)         " ++ NL ++
  bs "{                                  " ++ NL ++
  bs "   e.res.type = ET_FILE;           " ++ NL ++
  bs "   e.res.filename = " ++ DQ ++ ti_uri ti ++ DQ ++ bs ";        " ++ NL ++
  bs "   e.data = (unsigned char*)data;  " ++ NL ++
  bs "   e.size = sizeof(data);          " ++ NL ++
  bs "   e.file_size = " ++ fmt_u (u32 (ti_file_size ti)) ++ bs ";               " ++ NL ++
  bs "   e.mime_type = " ++ DQ ++ u_guess_mime_type (Some (ti_uri ti)) ++ DQ ++ bs ";           " ++ NL ++
  bs "   e.mtime = " ++ fmt_lu (w64 (ti_mtime ti)) ++ bs ";                  " ++ NL ++
  bs "   e.comp = " ++ fmt_d (ti_comp ti) ++ bs ";                    " ++ NL ++
  bs "   e.encrypted = " ++ fmt_d (ti_encrypt ti) ++ bs ";               " ++ NL ++
  bs "}                                  " ++ NL.

Definition dynamic_page_text (ti : trans_info) : list byte :=
  bs "static embpage_t e;                " ++ NL ++
  bs "static void res_ctor(void)         " ++ NL ++
  bs "{                                  " ++ NL ++
  bs "   e.res.type = ET_PAGE;           " ++ NL ++
  bs "   e.res.filename = " ++ DQ ++ ti_uri ti ++ DQ ++ bs ";        " ++ NL ++
  bs "   e.fun = exec_page;              " ++ NL ++
  bs "}                                  " ++ NL.

Definition register_text (md5 : list byte) : list byte :=
  bs "#ifdef __cplusplus                 " ++ NL ++
  bs "extern " ++ DQ ++ bs "C" ++ DQ ++ bs " {                     " ++ NL ++
  bs "#endif                             " ++ NL ++
  bs "void module_init_" ++ md5 ++ bs "(void);         " ++ NL ++
  bs "void module_init_" ++ md5 ++ bs "(void)          " ++ NL ++
  bs "{                                  " ++ NL ++
  bs "    res_ctor();                    " ++ NL ++
  bs "    emb_register((embres_t*)&e);   " ++ NL ++
  bs "}                                  " ++ NL ++
  bs "void module_term_" ++ md5 ++ bs "(void);         " ++ NL ++
  bs "void module_term_" ++ md5 ++ bs "(void)          " ++ NL ++
  bs "{                                  " ++ NL ++
  bs "    emb_unregister((embres_t*)&e); " ++ NL ++
  bs "}                                  " ++ NL ++
  bs "#ifdef __cplusplus                 " ++ NL ++
  bs "}                                  " ++ NL ++
  bs "#endif                             " ++ NL.

Definition array_head (varname : list byte) : list byte := bs "static const char " ++ varname ++ bs "[] = {" ++ NL.
Definition array_tail : list byte := bs "};" ++ NL.

(** ["%02X"] *)
Definition hexdigit (z : Z) : byte := if decide (z < 10)%Z then zb (48 + z) else zb (55 + z).
Definition byte_text (c : byte) : list byte := bs "0x" ++ [hexdigit (bz c / 16); hexdigit (bz c mod 16)] ++ bs ", ".

Definition html_name (n : Z) : list byte := bs "klone_html_" ++ fmt_lu n.
Definition zhtml_name (n : Z) : list byte := bs "klone_html_zblock_" ++ fmt_lu n.
Definition html_code (n : Z) : list byte :=
  NL ++ bs "dbg_if(io_write(out, klone_html_" ++ fmt_lu n ++ bs ", " ++
  bs "   sizeof(klone_html_" ++ fmt_lu n ++ bs ")) < 0);" ++ NL.
Definition zhtml_code (n : Z) : list byte :=
  NL ++ bs "dbg_if(u_io_unzip_copy(out, klone_html_zblock_" ++ fmt_lu n ++ bs ", " ++
  bs "   sizeof(klone_html_zblock_" ++ fmt_lu n ++ bs ")));" ++ NL.

Definition expr_before : list byte := bs "io_printf(out, " ++ DQ ++ bs "%s" ++ DQ ++ bs ",".
Definition expr_after : list byte := bs ");" ++ NL.

(** ** The translator *)

Section trans.
Context {L : Libu} {D C : Type} {DO : DevOps D} {CO : CodecOps C}.
Context {CZ : Type} {COZ : CodecOps CZ}.
Variables (fuel : nat) (zip : list CZ) (buf0 : list byte).

(** The context of the callbacks with the stream [p->out]. *)
Record cst := mkCst {
  c_out : io D C;
  c_ti : trans_info;
  c_blocks : list code_block;
  c_cnt : Z
}.

Abbreviation cprog A := (prog cst A).

Definition on_out {A} (m : prog (io D C) A) : cprog A := fun s =>
  let '(o, r) := m (c_out s) in (mkCst o (c_ti s) (c_blocks s) (c_cnt s), r).

(** [io_printf(p->out, ...)], [io_write(p->out, ...)] *)
Definition oprintf (text : list byte) : prog (io D C) unit := fun o => io_printf fuel o text.
Definition owrite (data : list byte) : prog (io D C) nat := fun o => io_write fuel o data.

Definition push_code_block (buf : list byte) : cprog unit := fun s =>
  if u_alloc (length buf) then
    (mkCst (c_out s) (c_ti s) (c_blocks s ++ [buf]) (c_cnt s), Ok tt)
  else (s, Fail).

(** The name of the page without its directories.  The search reads the byte before [uri]
    when there is no slash. *)
Definition script_name (uri : list byte) : res (list byte) :=
  match strrchr uri "/" with Some k => Ok (drop (S k) uri) | None => Fault end.

Definition dfun_char (c : byte) : byte := if isalnum c then c else "_"%byte.

Definition dfun_of (file : list byte) : list byte :=
  map dfun_char (u_strlcat (u_strlcpy (bs "page_") URI_BUFSZ).1 file URI_BUFSZ).1.

Definition print_header : cprog unit :=
  on_out (pignore (oprintf copyright_hdr));;;
  on_out (pignore (oprintf (bs "#include <klone/emb.h>" ++ NL)));;;
  on_out (pignore (oprintf (bs "#include <klone/dypage.h>" ++ NL)));;;
  let! s := pget in
  let! file := plift (script_name (ti_uri (c_ti s))) in
  on_out (pignore (oprintf (bs "static const char *SCRIPT_NAME = " ++ DQ ++ file ++ DQ ++ bs ";" ++ NL)));;;
  pmod (fun s => mkCst (c_out s) (set_dfun (c_ti s) (dfun_of file)) (c_blocks s) (c_cnt s));;;
  on_out (pignore (oprintf (bs "static int " ++ dfun_of file ++ bs " (void) { " ++
    bs "static volatile int dummy; return dummy; }" ++ NL)));;;
  on_out (pignore (oprintf static_vars)).

(** The bytes of an input as elements of an array, twelve on a line; [i] counts from 1. *)
Fixpoint print_bytes {DI CI : Type} {DOI : DevOps DI} {COI : CodecOps CI} (n i : nat) (ios : io DI CI)
    {struct n} : prog (io D C) unit :=
  match n with
  | 0 => plift Timeout
  | S n' =>
      match io_getc fuel ios with
      | (ios', Ok (Some c)) =>
          pignore (oprintf (byte_text c));;;
          (if decide (i mod 12 = 0) then pignore (oprintf NL) else pret tt);;;
          print_bytes n' (S i) ios'
      | (_, Ok None) => pret tt
      | (_, Fail) => pfail
      | (_, Fault) => plift Fault
      | (_, Timeout) => plift Timeout
      end
  end.

Definition print_var_definition (n : nat) (comp : bool) (varname buf : list byte) : prog (io D C) unit :=
  let ios := io_mem_create buf (length buf) false in
  let ios := if comp then foldl io_codec_add_tail ios zip else ios in
  pignore (oprintf (array_head varname));;;
  print_bytes n 1 ios;;;
  pignore (oprintf array_tail).

Fixpoint print_blocks (bl : list code_block) : prog (io D C) unit :=
  match bl with
  | [] => pret tt
  | b :: bl' => pignore (oprintf NL);;; pignore (owrite b);;; print_blocks bl'
  end.

Definition print_code_blocks : cprog unit :=
  let! s := pget in
  on_out (pignore (oprintf (exec_head (ti_dfun (c_ti s)))));;;
  on_out (print_blocks (c_blocks s));;;
  on_out (pignore (oprintf exec_tail)).

Definition print_static_page_block (ti : trans_info) : prog (io D C) unit := pignore (oprintf (static_page_text ti)).
Definition print_dynamic_page_block (ti : trans_info) : prog (io D C) unit := pignore (oprintf (dynamic_page_text ti)).

(** The buffer for the digest is used whatever [u_md5] returned. *)
Definition print_register_block (ti : trans_info) : prog (io D C) unit :=
  let! md5 := plift (match u_md5 (ti_uri ti) buf0 with Fail => Fault | r => r end) in
  pignore (oprintf (register_text md5)).

Definition process_declaration (buf : list byte) : cprog unit :=
  on_out (owrite buf);;; on_out (oprintf NL).

Definition process_expression (buf : list byte) : cprog unit :=
  push_code_block expr_before;;; push_code_block buf;;; push_code_block expr_after.

Definition process_code (buf : list byte) : cprog unit := push_code_block buf.

(** [u_snprintf(d, size, ...)] with an error when it does not fit. *)
Definition snprintf {S} (text : list byte) (size : nat) : prog S (list byte) :=
  let '(d, trunc) := u_snprintf text size in
  pguard (negb trunc);;; pret d.

Definition cb_html_block (n : nat) (buf : list byte) : cprog unit :=
  let! s := pget in
  let comp := bool_decide (ti_comp (c_ti s) <> 0%Z) in
  let! varname := snprintf ((if comp then zhtml_name else html_name) (c_cnt s)) 32 in
  on_out (print_var_definition n comp varname buf);;;
  let! code := snprintf ((if comp then zhtml_code else html_code) (c_cnt s)) 128 in
  push_code_block code;;;
  pmod (fun s => mkCst (c_out s) (c_ti s) (c_blocks s) (w64 (c_cnt s + 1))).

(** What [process_code] and the like return is not looked at. *)
Definition cb_code_block (cmd : byte) (buf : list byte) : cprog unit :=
  if decide (cmd = x00) then pignore (process_code buf)
  else if decide (cmd = "@"%byte) then pfail
  else if decide (cmd = "!"%byte) then pignore (process_declaration buf)
  else if decide (cmd = "="%byte) then pignore (process_expression buf)
  else pfail.

(** A callback for the parser: what it returned is kept beside the state. *)
Definition as_html {S} (cb : list byte -> prog S unit) (a : S * res unit) (buf : list byte) : (S * res unit) * bool :=
  let '(s, r) := cb buf a.1 in ((s, r), match r with Ok _ => false | _ => true end).
Definition as_code {S} (cb : nat -> byte -> list byte -> prog S unit) (a : S * res unit) (ln : nat) (cmd : byte)
    (buf : list byte) : (S * res unit) * bool :=
  let '(s, r) := cb ln cmd buf a.1 in ((s, r), match r with Ok _ => false | _ => true end).

(** [parser_run] of a fresh parser with callbacks that are programs; a failure of the parser
    while the callbacks did not fail is its own. *)
Definition run_cbs {S DI CI : Type} {DOI : DevOps DI} {COI : CodecOps CI} (html : list byte -> prog S unit)
    (code : nat -> byte -> list byte -> prog S unit) (n : nat) (in_ : io DI CI) : prog S unit := fun s =>
  let '(_, _, (s', r0), r) := parser_run (Some (as_html html)) (Some (as_code code)) fuel n in_ parser_create (s, Ok tt) in
  (s', match r, r0 with Fail, (Fault | Timeout) => r0 | _, _ => r end).

(** [translate_opaque_to_c]: a file as an array. *)
Definition translate_opaque_to_c {DI CI : Type} {DOI : DevOps DI} {COI : CodecOps CI} (n : nat) (in_ : io DI CI)
    (ti : trans_info) : prog (io D C) unit :=
  pignore (oprintf copyright_hdr);;;
  pignore (oprintf (bs "#include <klone/emb.h>" ++ NL));;;
  pignore (oprintf (array_head (bs "data")));;;
  print_bytes n 1 in_;;;
  pignore (oprintf array_tail);;;
  print_static_page_block ti;;;
  print_register_block ti.

(** [translate_script_to_c]: a preprocessed page; [ti] gets the name of its function. *)
Definition translate_script {DI CI : Type} {DOI : DevOps DI} {COI : CodecOps CI} (n : nat) (in_ : io DI CI) : cprog unit :=
  print_header;;;
  run_cbs (cb_html_block n) (fun _ => cb_code_block) n in_;;;
  print_code_blocks;;;
  let! s := pget in
  on_out (print_dynamic_page_block (c_ti s));;;
  on_out (print_register_block (c_ti s)).

Definition translate_script_to_c {DI CI : Type} {DOI : DevOps DI} {COI : CodecOps CI} (n : nat) (in_ : io DI CI)
    (ti : trans_info) (out : io D C) : io D C * trans_info * res unit :=
  let '(s, r) := translate_script n in_ (mkCst out ti [] 0) in (c_out s, c_ti s, r).
End trans.
Arguments mkCst {D C} _ _ _ _.
Arguments c_out {D C} _.
Arguments c_ti {D C} _.
Arguments c_blocks {D C} _.
Arguments c_cnt {D C} _.

(** ** Programs that print *)

Section prints.
Context {L : Libu} {LM : LibuMem L} {D C : Type} {DO : DevOps D} {DK : DevSink D} {CO : CodecOps C}.
Variable fuel : nat.

(** [m] succeeds and appends [text], given room for it. *)
Definition prints {A} (m : prog (io D C) A) (text : list byte) : Prop :=
  forall o k, writable o -> room o (length text + k) -> length text <= fuel ->
  exists o' a, m o = (o', Ok a) /\ writable o' /\ room o' k /\ outstream o' = outstream o ++ text.

Lemma prints_ret {A} (a : A) : prints (pret a) [].
Proof. intros o k Hw Hr _. exists o, a. rewrite app_nil_r. by split_and!. Qed.

Lemma prints_seq {A B} (m : prog (io D C) A) (f : prog (io D C) B) (t u : list byte) :
  prints m t -> prints f u -> prints (m;;; f) (t ++ u).
Proof.
  intros Hm Hf o k Hw Hr Hl. rewrite length_app in Hr, Hl.
  destruct (Hm o (length u + k) Hw) as (o1 & a & E1 & W1 & R1 & O1); [by rewrite Nat.add_assoc|lia|].
  destruct (Hf o1 k W1 R1) as (o2 & b & E2 & W2 & R2 & O2); [lia|].
  exists o2, b. rewrite (pbind_Ok _ _ _ _ _ E1). split_and!; try done. by rewrite O2, O1, app_assoc.
Qed.

Lemma prints_ignore {A} (m : prog (io D C) A) (t : list byte) : prints m t -> prints (pignore m) t.
Proof.
  intros Hm o k Hw Hr Hl. destruct (Hm o k Hw Hr Hl) as (o' & a & E & ?). exists o', tt. unfold pignore. by rewrite E.
Qed.

Lemma prints_write (data : list byte) : prints (owrite fuel data) data.
Proof.
  intros o k Hw Hr Hl. destruct (io_write_spec fuel o data k Hw Hr Hl) as (o' & E & ? & ? & ? & _).
  exists o', (length data). by split_and!.
Qed.

Lemma prints_printf (text : list byte) : prints (oprintf fuel text) text.
Proof.
  intros o k Hw Hr Hl. destruct (io_printf_spec fuel o text k Hw Hr Hl) as (o' & E & ? & ? & ? & _).
  exists o', tt. by split_and!.
Qed.

Lemma prints_lift {A B} (r : res A) (a : A) (f : A -> prog (io D C) B) (t : list byte) : r = Ok a -> prints (f a) t ->
  prints (let! x := plift r in f x) t.
Proof. intros -> Hf o k Hw Hr Hl. by apply Hf. Qed.
End prints.
Arguments prints {D C DO DK} fuel {A} m text.

Create HintDb prints.
#[export] Hint Resolve prints_ret prints_seq prints_ignore prints_write prints_printf : prints.

(** ** The parser with callbacks that are programs *)

Section feed_cbs.
Context {S : Type} (html : list byte -> prog S unit) (code : nat -> byte -> list byte -> prog S unit).

Definition feed_cbs (bl : list block) : prog S unit := fun s =>
  let '((s', _), r) := feed (Some (as_html html)) (Some (as_code code)) (s, Ok tt) bl in (s', r).

Definition block_prog (b : block) : prog S unit :=
  match b with Html t => html t | Code ln cmd t => code ln cmd t end.

Lemma feed_cbs_step (b : block) (bl : list block) (s s' : S) :
  block_prog b s = (s', Ok tt) -> feed_cbs (b :: bl) s = feed_cbs bl s'.
Proof.
  intros E. unfold feed_cbs. cbn [feed feed1].
  destruct b as [t|ln cmd t]; cbn [block_prog] in E; unfold feed1, as_html at 1, as_code at 1; cbn [fst]; by rewrite E.
Qed.

Lemma run_cbs_feeds {L : Libu} {LM : LibuMem L} {DI CI : Type} {DOI : DevOps DI} {DSI : DevSource DI} {COI : CodecOps CI}
    (fuel n : nat) (ios : io DI CI) (s s' : S) :
  readable ios -> 0 < fuel -> 3 * length (instream ios) + 4 <= n -> Forall small (page_blocks (instream ios)) ->
  feed_cbs (page_blocks (instream ios)) s = (s', Ok tt) -> run_cbs fuel html code n ios s = (s', Ok tt).
Proof.
  intros Hr Hf Hn Hs E. unfold run_cbs.
  pose proof (parser_run_feeds (Some (as_html html)) (Some (as_code code)) fuel n ios (s, Ok tt) Hr Hf Hn Hs) as Ho.
  unfold feed_cbs in E. destruct (feed _ _ _ _) as [[s1 r1] r2]. injection E as -> ->.
  destruct (parser_run _ _ _ _ _ _ _) as [[[i' p'] [s2 r3]] r4]. unfold outcome in Ho. cbn in Ho. by injection Ho as -> -> ->.
Qed.
End feed_cbs.

(** ** Arrays *)

(** The elements of an array, the first one being number [i]. *)
Fixpoint elems (i : nat) (data : list byte) : list byte :=
  match data with
  | [] => []
  | c :: data' => byte_text c ++ (if decide (i mod 12 = 0) then NL else []) ++ elems (S i) data'
  end.

Definition array_text (varname data : list byte) : list byte := array_head varname ++ elems 1 data ++ array_tail.

(** A reader of the elements: "0xHH, " with newlines between, up to anything else. *)
Definition hexval (c : byte) : Z := if isdigit c then (bz c - 48)%Z else (bz c - 55)%Z.

Fixpoint read_elems (s : list byte) : list byte :=
  match s with
  | c0 :: s1 =>
      if decide (c0 = x0a) then read_elems s1
      else if decide (c0 = "0"%byte) then
        match s1 with
        | _ :: h :: l :: _ :: _ :: s2 => zb (16 * hexval h + hexval l) :: read_elems s2
        | _ => []
        end
      else []
  | [] => []
  end.

(** The elements after the first opening brace. *)
Fixpoint read_array (s : list byte) : list byte :=
  match s with
  | [] => []
  | c :: s' => if decide (c = "{"%byte) then read_elems s' else read_array s'
  end.

Lemma byte_text_read (c : byte) (s : list byte) : read_elems (byte_text c ++ s) = c :: read_elems s.
Proof.
  assert (forall c, zb (16 * hexval (hexdigit (bz c / 16)) + hexval (hexdigit (bz c mod 16))) = c) as H by byte_brute.
  cbn. by rewrite H.
Qed.

Lemma elems_read (i : nat) (data s : list byte) : read_elems (elems i data ++ "}"%byte :: s) = data.
Proof.
  revert i. induction data as [|c data IH]; intros i; [done|]. cbn [elems]. rewrite <- !app_assoc, byte_text_read.
  f_equal. case_decide; cbn [app NL]; [|apply IH]. change (read_elems (x0a :: ?x)) with (read_elems x). apply IH.
Qed.

Lemma read_array_skip (pre s : list byte) : ("{"%byte ∉ pre) -> read_array (pre ++ s) = read_array s.
Proof.
  induction pre as [|c pre IH]; intros Hp; [done|]. rewrite not_elem_of_cons in Hp. destruct Hp as [Hc Hp].
  cbn [app read_array]. rewrite decide_False by congruence. by apply IH.
Qed.

(** An array is read back, whatever its name. *)
Lemma array_read (pre varname data s : list byte) : ("{"%byte ∉ pre) -> ("{"%byte ∉ varname) ->
  read_array (pre ++ array_text varname data ++ s) = data.
Proof.
  intros Hp Hv. rewrite read_array_skip by done. unfold array_text, array_head, array_tail. rewrite <- !app_assoc.
  rewrite read_array_skip by (apply (bool_decide_unpack _); vm_compute; done). rewrite read_array_skip by done.
  change (bs "[] = {" ++ NL ++ ?x) with (bs "[] = " ++ ("{"%byte :: x0a :: x)).
  rewrite read_array_skip by (apply (bool_decide_unpack _); vm_compute; done).
  cbn [read_array]. rewrite decide_True by done.
  change (read_elems (x0a :: ?x)) with (read_elems x). apply elems_read.
Qed.

(** ** What is printed *)

Section trans_spec.
Context {L : Libu} {LS : LibuSpec L} {LM : LibuMem L} {D C : Type} {DO : DevOps D} {DK : DevSink D} {CO : CodecOps C}.
Context {CZ : Type} {COZ : CodecOps CZ}.
Variables (fuel : nat) (zip : list CZ) (buf0 : list byte).
Hypothesis Hbuf0 : length buf0 = 64.

Section input.
Context {DI CI : Type} {DOI : DevOps DI} {DSI : DevSource DI} {COI : CodecOps CI}.

(** A stream [P i s] that gives the bytes [s]. *)
Definition byte_source (P : io DI CI -> list byte -> Prop) : Prop :=
  forall i s, P i s -> exists i', io_getc fuel i = (i', Ok (head s)) /\ P i' (tail s).

Lemma readable_bytes : 0 < fuel -> byte_source (fun i s => readable i /\ instream i = s).
Proof.
  intros Hf i s [Hr Hi]. destruct (io_getc_sim fuel i _ Hf (conj Hr Hi)) as [E [R1 I1]].
  destruct (io_getc fuel i) as [i' r]. cbn in E, R1, I1. subst r. exists i'. by destruct s.
Qed.

Lemma print_bytes_prints (P : io DI CI -> list byte -> Prop) (data : list byte) : byte_source P -> forall (n i : nat) (ios : io DI CI),
  P ios data -> length data < n ->
  prints fuel (print_bytes (D:=D) (C:=C) fuel n i ios) (elems i data).
Proof.
  intros HP. induction data as [|c data IH]; intros n i ios Hi Hn; (destruct n as [|n]; [simpl in Hn; lia|]);
    cbn [print_bytes]; destruct (HP _ _ Hi) as (ios' & -> & Hi'); cbn [head tail] in *; [apply prints_ret|].
  cbn [elems]. apply prints_seq; [apply prints_ignore, prints_printf|].
  apply prints_seq; [case_decide; auto with prints|]. apply IH; try done. simpl in Hn. lia.
Qed.

Lemma register_prints (ti : trans_info) : (Z.of_nat (length (ti_uri ti)) < 2 ^ 28)%Z ->
  exists md5, u_md5 (ti_uri ti) buf0 = Ok md5 /\
    prints fuel (print_register_block (D:=D) (C:=C) fuel buf0 ti) (register_text md5).
Proof.
  intros Hu. rewrite (u_md5_eq _ _ Hbuf0 Hu). destruct (tohex_digits 16 (md5_ref (ti_uri ti))) as (md5 & E & _).
  { by rewrite md5_ref_length. }
  exists md5. split; [done|]. unfold print_register_block. apply (prints_lift fuel _ md5).
  - by rewrite (u_md5_eq _ _ Hbuf0 Hu), E.
  - auto with prints.
Qed.

Definition opaque_text (ti : trans_info) (md5 data : list byte) : list byte :=
  copyright_hdr ++ (bs "#include <klone/emb.h>" ++ NL) ++ array_text (bs "data") data ++
  static_page_text ti ++ register_text md5.

Lemma opaque_prints (P : io DI CI -> list byte -> Prop) (n : nat) (ios : io DI CI) (data : list byte) (ti : trans_info) :
  byte_source P -> P ios data -> length data < n -> (Z.of_nat (length (ti_uri ti)) < 2 ^ 28)%Z ->
  exists md5, u_md5 (ti_uri ti) buf0 = Ok md5 /\
    prints fuel (translate_opaque_to_c (D:=D) (C:=C) fuel buf0 n ios ti) (opaque_text ti md5 data).
Proof.
  intros HP Hr Hn Hu. destruct (register_prints ti Hu) as (md5 & E & Hp). exists md5. split; [done|].
  unfold opaque_text, array_text. rewrite <- !app_assoc.
  rewrite (app_assoc (bs "#include <klone/emb.h>")).
  unfold translate_opaque_to_c.
  do 3 (apply prints_seq; [apply prints_ignore, prints_printf|]).
  apply prints_seq; [by apply (print_bytes_prints P)|].
  apply prints_seq; [apply prints_ignore, prints_printf|].
  apply prints_seq; [apply prints_ignore, prints_printf|]. done.
Qed.

(** An embedded file is its own bytes.  For any input, read in any pieces, the
    translator succeeds, and the array it prints, read as C reads it, has exactly the bytes
    of the file. *)
Theorem translate_opaque_roundtrip (n : nat) (ios : io DI CI) (ti : trans_info) (out : io D C) :
  readable ios -> writable out -> outstream out = [] -> length (instream ios) < n ->
  (Z.of_nat (length (ti_uri ti)) < 2 ^ 28)%Z ->
  (forall md5, u_md5 (ti_uri ti) buf0 = Ok md5 ->
    let len := length (opaque_text ti md5 (instream ios)) in room out len /\ len <= fuel) ->
  exists out' md5, translate_opaque_to_c fuel buf0 n ios ti out = (out', Ok tt) /\
    u_md5 (ti_uri ti) buf0 = Ok md5 /\ outstream out' = opaque_text ti md5 (instream ios) /\
    read_array (outstream out') = instream ios.
Proof.
  intros Hr Hw Ho Hn Hu Hroom.
  destruct (tohex_digits 16 (md5_ref (ti_uri ti))) as (md5 & E & _); [by rewrite md5_ref_length|].
  rewrite <- (u_md5_eq _ _ Hbuf0 Hu) in E. destruct (Hroom _ E) as [Hrm Hl].
  assert (0 < fuel) as Hf by (unfold opaque_text in Hl; cbn in Hl; lia).
  destruct (opaque_prints _ n ios (instream ios) ti (readable_bytes Hf) (conj Hr eq_refl) Hn Hu) as (md5' & E' & Hp). rewrite E in E'. injection E' as <-.
  destruct (Hp out 0 Hw) as (out' & [] & Et & _ & _ & Eo); [by rewrite Nat.add_0_r|done|].
  exists out', md5. rewrite Eo, Ho. split_and!; [exact Et|exact E|reflexivity|]. rewrite app_nil_l.
  unfold opaque_text. rewrite (app_assoc copyright_hdr). apply array_read; apply (bool_decide_unpack _); vm_compute; done.
Qed.
End input.

(** ** Pages *)

Abbreviation ctx := (trans_info * list code_block * Z)%type.
Definition view (s : cst (D:=D) (C:=C)) : ctx := (c_ti s, c_blocks s, c_cnt s).

(** [m] takes a context to another one and prints. *)
Definition cprints {A} (m : prog (cst (D:=D) (C:=C)) A) (v v' : ctx) (text : list byte) : Prop :=
  forall s k, view s = v -> writable (c_out s) -> room (c_out s) (length text + k) -> length text <= fuel ->
  exists s' a, m s = (s', Ok a) /\ view s' = v' /\ writable (c_out s') /\ room (c_out s') k /\
    outstream (c_out s') = outstream (c_out s) ++ text.

Lemma cprints_seq {A B} (m : prog cst A) (f : prog cst B) (v v1 v2 : ctx) (t u : list byte) :
  cprints m v v1 t -> cprints f v1 v2 u -> cprints (m;;; f) v v2 (t ++ u).
Proof.
  intros Hm Hf s k Hv Hw Hr Hl. rewrite length_app in Hr, Hl.
  destruct (Hm s (length u + k) Hv Hw) as (s1 & a & E1 & V1 & W1 & R1 & O1); [by rewrite Nat.add_assoc|lia|].
  destruct (Hf s1 k V1 W1 R1) as (s2 & b & E2 & V2 & W2 & R2 & O2); [lia|].
  exists s2, b. rewrite (pbind_Ok _ _ _ _ _ E1). split_and!; try done. by rewrite O2, O1, app_assoc.
Qed.

Lemma cprints_seq0 {A B} (m : prog cst A) (f : prog cst B) (v v1 v2 : ctx) (t : list byte) :
  cprints m v v1 [] -> cprints f v1 v2 t -> cprints (m;;; f) v v2 t.
Proof. apply cprints_seq. Qed.

Lemma cprints_get {B} (f : cst -> prog cst B) (v v' : ctx) (t : list byte) :
  (forall s, view s = v -> cprints (f s) v v' t) -> cprints (let! s := pget in f s) v v' t.
Proof. intros Hf s k Hv. by apply (Hf s Hv). Qed.

Lemma cprints_lift {A B} (r : res A) (a : A) (f : A -> prog cst B) (v v' : ctx) (t : list byte) :
  r = Ok a -> cprints (f a) v v' t -> cprints (let! x := plift r in f x) v v' t.
Proof. intros -> Hf s k. by apply Hf. Qed.

Lemma cprints_out {A} (m : prog (io D C) A) (v : ctx) (t : list byte) : prints fuel m t -> cprints (on_out m) v v t.
Proof.
  intros Hm s k Hv Hw Hr Hl. destruct (Hm (c_out s) k Hw Hr Hl) as (o & a & E & ? & ? & ?).
  unfold on_out. rewrite E. eexists _, a. by split_and!.
Qed.

Lemma cprints_ignore {A} (m : prog cst A) (v v' : ctx) (t : list byte) : cprints m v v' t -> cprints (pignore m) v v' t.
Proof.
  intros Hm s k Hv Hw Hr Hl. destruct (Hm s k Hv Hw Hr Hl) as (s' & a & E & ?). exists s', tt. unfold pignore. by rewrite E.
Qed.

Lemma cprints_mod (f : cst -> cst) (v v' : ctx) :
  (forall s, view s = v -> view (f s) = v' /\ c_out (f s) = c_out s) -> cprints (pmod f) v v' [].
Proof.
  intros Hf s k Hv Hw Hr _. destruct (Hf s Hv) as [E1 E2]. exists (f s), tt. rewrite E2, app_nil_r. by split_and!.
Qed.

Lemma cprints_push (b : list byte) (ti : trans_info) (bl : list code_block) (n : Z) :
  cprints (push_code_block b) (ti, bl, n) (ti, bl ++ [b], n) [].
Proof.
  intros s k Hv Hw Hr _. unfold push_code_block. rewrite u_alloc_ok. eexists _, tt. split; [done|].
  injection Hv as <- <- <-. rewrite app_nil_r. by split_and!.
Qed.

Lemma cprints_snprintf {B} (text : list byte) (size : nat) (f : list byte -> prog cst B) (v v' : ctx) (t : list byte) :
  length text < size -> cprints (f text) v v' t -> cprints (let! x := snprintf text size in f x) v v' t.
Proof.
  intros Hl Hf s k. unfold snprintf. rewrite u_snprintf_spec, bool_decide_false, take_ge by lia. by apply Hf.
Qed.

Lemma dec_go_le (n : nat) (z : Z) : length (dec_go n z) <= n.
Proof.
  revert z. induction n as [|n IH]; intros z; cbn [dec_go]; [done|]. case_match; [simpl; lia|].
  rewrite length_app. simpl. specialize (IH (z / 10)%Z). lia.
Qed.

(** What a block adds to the output, to the collected code and to the count. *)
Definition block_decl (n : Z) (b : block) : list byte :=
  match b with
  | Html t => array_text (html_name n) t
  | Code _ cmd t => if decide (cmd = "!"%byte) then t ++ NL else []
  end.

Definition block_code (n : Z) (b : block) : list code_block :=
  match b with
  | Html t => [html_code n]
  | Code _ cmd t =>
      if decide (cmd = x00) then [t] else if decide (cmd = "="%byte) then [expr_before; t; expr_after] else []
  end.

Definition block_count (n : Z) (b : block) : Z := match b with Html _ => n + 1 | _ => n end%Z.

(** The commands that a preprocessed page may have. *)
Definition block_ok (b : block) : Prop :=
  match b with Html _ => True | Code _ cmd _ => cmd = x00 \/ cmd = "!"%byte \/ cmd = "="%byte end.

Definition block_cb (m : nat) (b : block) : prog (cst (D:=D) (C:=C)) unit :=
  match b with
  | Html t => cb_html_block fuel zip m t
  | Code _ cmd t => cb_code_block fuel cmd t
  end.

Lemma html_cb_prints (m : nat) (t : list byte) (ti : trans_info) (bl : list code_block) (n : Z) :
  ti_comp ti = 0%Z -> (0 <= n < 2 ^ 63)%Z -> 0 < fuel -> length t < m ->
  cprints (block_cb m (Html t)) (ti, bl, n) (ti, bl ++ [html_code n], (n + 1)%Z) (array_text (html_name n) t).
Proof.
  intros Hc Hn Hf Hm. cbn [block_cb]. unfold cb_html_block. apply cprints_get. intros s [= E1 E2 E3].
  rewrite E1, E3, Hc. rewrite bool_decide_false by (by intros []).
  pose proof (dec_go_le 20 n) as Hd. fold (fmt_lu n) in Hd.
  apply cprints_snprintf; [unfold html_name; rewrite length_app; cbn [length bs String.list_byte_of_string]; simpl; lia|].
  rewrite <- (app_nil_r (array_text _ _)). eapply cprints_seq.
  { apply cprints_out. unfold print_var_definition, array_text.
    apply prints_seq; [apply prints_ignore, prints_printf|]. destruct (mem_readable (C:=CZ) t) as [Hr Hi].
    apply prints_seq; [by apply (print_bytes_prints _ _ (readable_bytes Hf))|apply prints_ignore, prints_printf]. }
  apply cprints_snprintf; [unfold html_code; rewrite !length_app; simpl; lia|].
  eapply cprints_seq0; [apply cprints_push|]. apply cprints_mod. intros s' [= F1 F2 F3]. split; [|done].
  unfold view. cbn. rewrite F1, F2, F3. do 2 f_equal. unfold w64, SIZE_MOD. rewrite Z.mod_small by lia. done.
Qed.

Lemma block_cb_prints (m : nat) (b : block) (ti : trans_info) (bl : list code_block) (n : Z) :
  block_ok b -> ti_comp ti = 0%Z -> (0 <= n < 2 ^ 63)%Z -> 0 < fuel -> length (block_text b) < m ->
  cprints (block_cb m b) (ti, bl, n) (ti, bl ++ block_code n b, block_count n b) (block_decl n b).
Proof.
  intros Hb Hc Hn Hf Hm. destruct b as [t|ln cmd t]; [by apply html_cb_prints|].
  cbn [block_cb block_decl block_code block_count]. unfold cb_code_block.
  destruct Hb as [-> | [-> | ->]]; cbn [decide]; simpl.
  - apply cprints_ignore, cprints_push.
  - rewrite app_nil_r. apply cprints_ignore. eapply cprints_seq; apply cprints_out; auto with prints.
  - replace (bl ++ [expr_before; t; expr_after]) with (((bl ++ [expr_before]) ++ [t]) ++ [expr_after])
      by (by rewrite <- !app_assoc).
    apply cprints_ignore. do 2 (eapply cprints_seq0; [apply cprints_push|]). apply cprints_push.
Qed.

Fixpoint page_decls (n : Z) (bl : list block) : list byte :=
  match bl with [] => [] | b :: bl' => block_decl n b ++ page_decls (block_count n b) bl' end.

Fixpoint page_code (n : Z) (bl : list block) : list code_block :=
  match bl with [] => [] | b :: bl' => block_code n b ++ page_code (block_count n b) bl' end.

Definition code_text (bl : list code_block) : list byte := concat (map (fun b => NL ++ b) bl).

Definition feed_page (m : nat) : list block -> prog (cst (D:=D) (C:=C)) unit :=
  feed_cbs (cb_html_block fuel zip m) (fun _ => cb_code_block fuel).

Lemma feed_step (m : nat) (b : block) (bl : list block) (s s' : cst (D:=D) (C:=C)) :
  block_cb m b s = (s', Ok tt) -> feed_page m (b :: bl) s = feed_page m bl s'.
Proof. intros E. apply feed_cbs_step. by destruct b. Qed.

Lemma feed_prints (m : nat) (ti : trans_info) (bl : list block) : forall (cb : list code_block) (n : Z),
  Forall block_ok bl -> Forall (fun b => length (block_text b) < m) bl -> ti_comp ti = 0%Z ->
  (0 <= n)%Z -> (n + Z.of_nat (length bl) < 2 ^ 63)%Z -> 0 < fuel ->
  exists n', cprints (feed_page m bl) (ti, cb, n) (ti, cb ++ page_code n bl, n') (page_decls n bl).
Proof.
  induction bl as [|b bl IH]; intros cb n Hok Hm Hc Hn Hb Hf.
  { exists n. intros s k Hv Hw Hr _. exists s, tt. cbn [page_code page_decls]. rewrite !app_nil_r. by split_and!. }
  apply Forall_cons in Hok as [Hok1 Hok], Hm as [Hm1 Hm]. cbn [length] in Hb.
  assert (n <= block_count n b <= n + 1)%Z as Hcnt by (destruct b; cbn; lia).
  destruct (IH (cb ++ block_code n b) (block_count n b)) as (n' & Hp); try done; [lia..|].
  exists n'. intros s k Hv Hw Hr Hl. cbn [page_decls page_code] in *. rewrite length_app in Hr, Hl.
  destruct (block_cb_prints m b ti cb n Hok1 Hc ltac:(lia) Hf Hm1 s (length (page_decls (block_count n b) bl) + k) Hv Hw)
    as (s1 & [] & E1 & V1 & W1 & R1 & O1); [by rewrite Nat.add_assoc|lia|].
  destruct (Hp s1 k V1 W1 R1) as (s2 & a & E2 & V2 & W2 & R2 & O2); [lia|].
  exists s2, a. rewrite (feed_step m b bl s s1 E1), app_assoc. split_and!; try done. by rewrite O2, O1, app_assoc.
Qed.

Lemma blocks_prints (bl : list code_block) : prints fuel (print_blocks (D:=D) (C:=C) fuel bl) (code_text bl).
Proof.
  unfold code_text. induction bl as [|b bl IH]; [apply prints_ret|]. cbn [print_blocks map concat]. rewrite <- app_assoc.
  apply prints_seq; [apply prints_ignore, prints_printf|].
  apply prints_seq; [apply prints_ignore, prints_write|done].
Qed.

Section input.
Context {DI CI : Type} {DOI : DevOps DI} {DSI : DevSource DI} {COI : CodecOps CI}.

(** The parts of a translated page. *)
Definition head_text (file : list byte) : list byte :=
  copyright_hdr ++ (bs "#include <klone/emb.h>" ++ NL) ++ (bs "#include <klone/dypage.h>" ++ NL) ++
  (bs "static const char *SCRIPT_NAME = " ++ DQ ++ file ++ DQ ++ bs ";" ++ NL) ++
  (bs "static int " ++ dfun_of file ++ bs " (void) { " ++ bs "static volatile int dummy; return dummy; }" ++ NL) ++
  static_vars.

Definition page_text (ti : trans_info) (file md5 : list byte) (bl : list block) : list byte :=
  head_text file ++ page_decls 0 bl ++ exec_head (dfun_of file) ++ code_text (page_code 0 bl) ++ exec_tail ++
  dynamic_page_text ti ++ register_text md5.

Lemma header_prints (ti : trans_info) (file : list byte) (cb : list code_block) (n : Z) :
  script_name (ti_uri ti) = Ok file ->
  cprints (print_header fuel) (ti, cb, n) (set_dfun ti (dfun_of file), cb, n) (head_text file).
Proof.
  intros Hf. unfold print_header, head_text.
  do 3 (eapply cprints_seq; [apply cprints_out, prints_ignore, prints_printf|]).
  apply cprints_get. intros s [= -> _ _]. apply (cprints_lift _ file); [done|].
  eapply cprints_seq; [apply cprints_out, prints_ignore, prints_printf|].
  eapply (cprints_seq0 _ _ _ (set_dfun ti (dfun_of file), cb, n)); [apply cprints_mod; by intros s' [= <- <- <-]|].
  eapply cprints_seq; [apply cprints_out, prints_ignore, prints_printf|].
  apply cprints_out, prints_ignore, prints_printf.
Qed.

Lemma dfun_ident (file : list byte) : length (dfun_of file) < URI_BUFSZ /\ head (dfun_of file) = Some "p"%byte /\
  Forall (fun c => isalnum c = true \/ c = "_"%byte) (dfun_of file).
Proof.
  unfold dfun_of. rewrite u_strlcpy_spec by (unfold URI_BUFSZ; lia). cbn [fst].
  rewrite take_ge by (unfold URI_BUFSZ; simpl; lia). rewrite u_strlcat_spec by (unfold URI_BUFSZ; simpl; lia). cbn [fst].
  split_and!.
  - rewrite length_map, length_take. unfold URI_BUFSZ. lia.
  - unfold URI_BUFSZ. replace (N.to_nat 1024 - 1) with (S (N.to_nat 1022)) by lia. done.
  - apply Forall_map, Forall_true. intros c. unfold dfun_char. destruct (isalnum c) eqn:E; auto.
Qed.

Lemma page_prints (n : nat) (ios : io DI CI) (ti : trans_info) (file : list byte) :
  let bl := page_blocks (instream ios) in
  readable ios -> 0 < fuel -> 3 * length (instream ios) + 4 <= n -> Forall small bl -> Forall block_ok bl ->
  (Z.of_nat (length bl) < 2 ^ 63)%Z -> ti_comp ti = 0%Z ->
  script_name (ti_uri ti) = Ok file -> (Z.of_nat (length (ti_uri ti)) < 2 ^ 28)%Z ->
  exists md5 cb c, u_md5 (ti_uri ti) buf0 = Ok md5 /\
    cprints (translate_script fuel zip buf0 n ios) (ti, [], 0%Z) (set_dfun ti (dfun_of file), cb, c)
      (page_text ti file md5 bl).
Proof.
  intros bl Hr Hf Hn Hs Hok Hlen Hc Hfile Hu. set (ti' := set_dfun ti (dfun_of file)).
  assert (ti_uri ti' = ti_uri ti /\ ti_comp ti' = 0%Z /\ ti_dfun ti' = dfun_of file /\ dynamic_page_text ti' = dynamic_page_text ti)
    as (E1 & E2 & E3 & E4) by (by destruct ti).
  destruct (register_prints ti') as (md5 & Em & Hp); [by rewrite E1|]. rewrite E1 in Em.
  destruct (feed_prints n ti' bl [] 0) as (c & Hfeed); try done.
  { eapply Forall_impl; [apply (blocks_length (length (instream ios))); done|]. simpl. intros b Hb. lia. }
  exists md5, (page_code 0 bl), c. split; [done|]. unfold translate_script, page_text. rewrite <- E4, <- E3.
  eapply cprints_seq; [by apply header_prints|]. eapply cprints_seq.
  { intros s k Hv Hw Hrm Hl. destruct (Hfeed s k Hv Hw Hrm Hl) as (s' & [] & E & H'). exists s', tt.
    split; [exact (run_cbs_feeds _ _ fuel n ios s s' Hr Hf Hn Hs E)|exact H']. }
  cbn [app]. rewrite (app_assoc (code_text _)), (app_assoc (exec_head _)). eapply cprints_seq.
  { unfold print_code_blocks. apply cprints_get. intros s [= -> -> _].
    repeat (eapply cprints_seq; [apply cprints_out; first [apply prints_ignore, prints_printf|apply blocks_prints]|]).
    apply cprints_out, prints_ignore, prints_printf. }
  apply cprints_get. intros s [= -> _ _]. eapply cprints_seq; [apply cprints_out, prints_ignore, prints_printf|].
  by apply cprints_out.
Qed.

End input.
End trans_spec.

(** ** Evaluation *)

Definition ti_sample : trans_info :=
  mkTi (bs "www/a-b.kl1") (bs "pg_1.c") [] (bs "/www/a-b.kl1") [] 0 0 5 1000000000.

Definition out_sample : io io_mem no_codec := io_mem_create (replicate (N.to_nat 6000) x00) (N.to_nat 6000) false.

Lemma room_sample (n : nat) : (n <=? N.to_nat 6000) = true -> room out_sample n.
Proof.
  intros Hn%Nat.leb_le. change (0 + (0 + n) <= N.to_nat 6000 <= length (replicate (N.to_nat 6000) x00)).
  rewrite length_replicate. lia.
Qed.

Lemma out_sample_ok : writable out_sample /\ outstream out_sample = [].
Proof. split; [by split|]. unfold outstream. cbn. by rewrite mread_0. Qed.

Lemma translate_opaque_roundtrip_witness :
  exists out', translate_opaque_to_c (L:=libu_ref) (N.to_nat 6000) (replicate 64 x00) 100 (mem_io (bs "GIF89a<%= x")) ti_sample out_sample
      = (out', Ok tt) /\
    read_array (outstream out') = bs "GIF89a<%= x".
Proof.
  destruct (mem_io_readable (bs "GIF89a<%= x")) as [Hr Hi]. destruct out_sample_ok as [Hw Ho].
  destruct (translate_opaque_roundtrip (L:=libu_ref) (D:=io_mem) (C:=no_codec) (N.to_nat 6000) (replicate 64 x00) eq_refl 100
    (mem_io (bs "GIF89a<%= x")) ti_sample out_sample Hr Hw Ho) as (out' & md5 & Et & _ & _ & E).
  - rewrite Hi. vm_compute. lia.
  - vm_compute. done.
  - intros md5 E. vm_compute in E. injection E as <-. rewrite Hi. split.
    + apply room_sample. vm_compute. done.
    + apply Nat.leb_le. vm_compute. done.
  - exists out'. split; [exact Et|]. by rewrite E, Hi.
Defined.

