(* ===== verification/Template.v ===== *)
(** The preprocessor of pages: src/src/libtrans/translat.c.

    Directives include other files and build a tree of blocks; a child template extends a
    base and replaces blocks of it by name.  Blocks are reached from their parent, from the
    block that overrides them and from the pointer [cur], and move between lists, so they
    are in a heap with addresses, with [pp_next] the next fresh one.  A walk over the tree
    is bounded by the number of blocks.  [P] is the file system, [preprocess] is bounded by
    the depth of includes.  Messages to the console are left out. *)

From stdpp Require Import gmap.
From S2P Require Import Prelude Libu Encode Date Io IoSpec IoMem Parser Response Md5 Files TransC.

Record kblock := mkK {
  k_name : option (list byte);
  k_buf : list byte;
  k_parent : option nat;
  k_anc : option nat;            (* the ancestor it overrides *)
  k_kids : list nat
}.

Abbreviation kheap := (gmap nat kblock).

Record ppctx := mkPp {
  pp_heap : kheap;
  pp_next : nat;
  pp_cur : option nat;
  pp_top : nat;
  pp_dead : nat;
  pp_lev : Z;
  pp_ext : Z;                    (* extending *)
  pp_depend : list (list byte)
}.

Definition set_heap (c : ppctx) (v : kheap) : ppctx := let 'mkPp _ b d e f g h i := c in mkPp v b d e f g h i.
Definition set_cur (c : ppctx) (v : option nat) : ppctx := let 'mkPp a b _ e f g h i := c in mkPp a b v e f g h i.
Definition set_lev (c : ppctx) (v : Z) : ppctx := let 'mkPp a b d e f _ h i := c in mkPp a b d e f v h i.
Definition set_ext (c : ppctx) (v : Z) : ppctx := let 'mkPp a b d e f g _ i := c in mkPp a b d e f g v i.
Definition set_depend (c : ppctx) (v : list (list byte)) : ppctx := let 'mkPp a b d e f g h _ := c in mkPp a b d e f g h v.

Definition set_kids (b : kblock) (v : list nat) : kblock := mkK (k_name b) (k_buf b) (k_parent b) (k_anc b) v.
Definition set_parent (b : kblock) (v : option nat) : kblock := mkK (k_name b) (k_buf b) v (k_anc b) (k_kids b).
Definition set_anc (b : kblock) (v : option nat) : kblock := mkK (k_name b) (k_buf b) (k_parent b) v (k_kids b).

(** ** The tree of blocks *)

Section tree.
Context {L : Libu}.

(** Children first, then the ancestor. *)
Fixpoint kblock_free (n : nat) (id : nat) (h : kheap) : res kheap :=
  match n with
  | 0 => Timeout
  | S n' =>
      match h !! id with
      | None => Fault
      | Some b =>
          h1 ← foldl (fun r c => h ← r; kblock_free n' c h) (Ok h) (k_kids b);
          h2 ← match k_anc b with Some a => kblock_free n' a h1 | None => Ok h1 end;
          Ok (delete id h2)
      end
  end.

Definition get_block (id : nat) : prog ppctx kblock := fun c =>
  (c, match pp_heap c !! id with Some b => Ok b | None => Fault end).
Definition put_block (id : nat) (b : kblock) : prog ppctx unit := pmod (fun c => set_heap c (<[id := b]> (pp_heap c))).

(** A use of a pointer that may be NULL. *)
Definition deref (p : option nat) : prog ppctx nat := plift (match p with Some id => Ok id | None => Fault end).

Definition kblock_create (name : option (list byte)) (buf : list byte) : prog ppctx nat :=
  let! ub := plift (of_option u_buf_create) in
  pguard (match name with Some s => u_alloc (S (length s)) | None => true end);;;
  let! ub := plift (if decide (buf = []) then Ok ub else of_option (u_buf_append ub buf)) in
  let! c := pget in
  pmod (fun c => mkPp (<[pp_next c := mkK name ub None None []]> (pp_heap c)) (S (pp_next c)) (pp_cur c) (pp_top c)
                      (pp_dead c) (pp_lev c) (pp_ext c) (pp_depend c));;;
  pret (pp_next c).

Definition kblock_push_child (parent child : nat) : prog ppctx unit :=
  let! p := get_block parent in
  let! kids := plift (of_option (u_list_add (k_kids p) child)) in
  put_block parent (set_kids p kids);;;
  let! b := get_block child in
  put_block child (set_parent b (Some parent)).

(** [kblock_get_by_name]: the first block of the name below [parent], each block before those
    below it, and its position among its siblings. *)
Definition name_is (b : kblock) (name : list byte) : bool :=
  match k_name b with Some s => strcaseeq s name | None => false end.

Fixpoint find_loop (rec : nat -> res (option (nat * nat))) (h : kheap) (name : list byte) (i : nat) (kids : list nat)
    : res (option (nat * nat)) :=
  match kids with
  | [] => Ok None
  | c :: kids' =>
      match h !! c with
      | None => Fault
      | Some b =>
          if name_is b name then Ok (Some (c, i)) else
          r ← rec c;
          match r with Some x => Ok (Some x) | None => find_loop rec h name (S i) kids' end
      end
  end.

Fixpoint kblock_get_by_name (n : nat) (h : kheap) (parent : nat) (name : list byte) : res (option (nat * nat)) :=
  match n with
  | 0 => Timeout
  | S n' =>
      match h !! parent with
      | None => Fault
      | Some p => find_loop (fun c => kblock_get_by_name n' h c name) h name 0 (k_kids p)
      end
  end.

Definition find_block (name : list byte) : prog ppctx (option (nat * nat)) :=
  let! c := pget in plift (kblock_get_by_name (S (pp_next c)) (pp_heap c) (pp_top c) name).

(** ** The directives on the tree *)

(** The error label of [process_directive_block]. *)
Definition free_block (id : nat) : prog ppctx unit :=
  let! c := pget in
  let! h := plift (kblock_free (S (pp_next c)) id (pp_heap c)) in
  pmod (fun c => set_heap c h);;;
  pfail.

Definition override_block (block old idx : nat) : prog ppctx unit :=
  let! o := get_block old in
  let! b := get_block block in
  put_block block (set_parent (set_anc b (Some old)) (k_parent o));;;
  let! par := deref (k_parent o) in
  let! p := get_block par in
  let! kids := plift (of_option (u_list_insert (k_kids p) block idx)) in
  put_block par (set_kids p kids);;;
  let! kids := plift (of_option (u_list_del kids old)) in
  put_block par (set_kids p kids).

Definition process_directive_block (name : list byte) : prog ppctx unit :=
  let! block := kblock_create (Some name) [] in
  pelse (
    pmod (fun c => set_lev c (pp_lev c + 1)%Z);;;
    let! c := pget in
    if decide (pp_ext c = 0%Z) then
      let! found := find_block name in
      match found with
      | Some _ => pfail
      | None =>
          let! cur := deref (pp_cur c) in
          kblock_push_child cur block;;;
          pmod (fun c => set_cur c (Some block))
      end
    else
      pmod (fun c => set_ext c (pp_ext c + 1)%Z);;;
      let! found := find_block name in
      match found with
      | None =>
          if decide (pp_cur c = Some (pp_top c)) then kblock_push_child (pp_dead c) block
          else if decide (pp_lev c = 0%Z) then pret tt
          else let! cur := deref (pp_cur c) in kblock_push_child cur block
      | Some (old, idx) => override_block block old idx
      end;;;
      pmod (fun c => set_cur c (Some block)))
  (free_block block).

Definition process_directive_endblock (name : option (list byte)) : prog ppctx unit :=
  let! c := pget in
  let! cur := match pp_cur c with Some id => pret id | None => pfail end in
  pmod (fun c => set_lev c (pp_lev c - 1)%Z);;;
  pguard (bool_decide (0 <= pp_lev c - 1)%Z);;;
  let! b := get_block cur in
  pguard (match name with Some s => name_is b s | None => true end);;;
  pmod (fun c => set_cur c (k_parent b));;;
  if decide (pp_ext c = 0%Z) then pret tt else
    pmod (fun c => set_ext c (pp_ext c - 1)%Z);;;
    if decide (pp_ext c - 1 = 1)%Z then pmod (fun c => set_cur c (Some (pp_top c))) else pret tt.

Fixpoint push_all (parent : nat) (kids : list nat) : prog ppctx unit :=
  match kids with
  | [] => pret tt
  | b :: kids' => kblock_push_child parent b;;; push_all parent kids'
  end.

(** The children of the ancestor move to the block, then its list is emptied from the front. *)
Fixpoint del_all (n : nat) (kids : list nat) : res (list nat) :=
  match n with
  | 0 => Ok kids
  | S n' => match u_list_del_n kids 0 with Some kids' => del_all n' kids' | None => Fail end
  end.

Definition process_directive_inherit : prog ppctx unit :=
  let! c := pget in
  let! cur := match pp_cur c with Some id => pret id | None => pfail end in
  let! b := get_block cur in
  let! anc := match k_anc b with Some id => pret id | None => pfail end in
  let! a := get_block anc in
  push_all cur (k_kids a);;;
  let! a := get_block anc in
  let! kids := plift (del_all (u_list_count (k_kids a)) (k_kids a)) in
  put_block anc (set_kids a kids).

(** Attaching a block of text: outside the blocks of a child template it goes to the dead tree. *)
Definition attach (block : nat) : prog ppctx unit :=
  let! c := pget in
  if decide (pp_cur c = Some (pp_top c) /\ pp_ext c <> 0%Z) then kblock_push_child (pp_dead c) block
  else let! cur := deref (pp_cur c) in kblock_push_child cur block.

Definition cb_pre_html_block (buf : list byte) : prog ppctx unit :=
  let! block := kblock_create None buf in attach block.

Definition ppctx_create : res ppctx :=
  match kblock_create None [] (mkPp ∅ 0 None 0 0 0 0 []) with
  | (c1, Ok top) =>
      match kblock_create None [] c1 with
      | (c2, Ok dead) =>
          match pp_heap c2 !! dead with
          | Some d => Ok (mkPp (<[dead := set_parent d (Some top)]> (pp_heap c2)) (pp_next c2) (Some top) top dead 0 0 [])
          | None => Fault
          end
      | (_, Fail) => Fail
      | (_, Fault) => Fault
      | (_, Timeout) => Timeout
      end
  | (_, Fail) => Fail
  | (_, Fault) => Fault
  | (_, Timeout) => Timeout
  end.

Definition ppctx_depend_push (filepath : list byte) : prog ppctx unit := fun c =>
  if u_alloc (S (length filepath)) then
    match u_list_add (pp_depend c) filepath with
    | Some l => (set_depend c l, Ok tt)
    | None => (c, Fail)
    end
  else (c, Fail).
End tree.

(** ** Files and directives *)

(** [strtok_r]: the next token and what is left after its delimiter. *)
Fixpoint skip_delims (delim : byte -> bool) (s : list byte) : list byte :=
  match s with
  | [] => []
  | c :: s' => if delim c then skip_delims delim s' else s
  end.

Fixpoint span_token (delim : byte -> bool) (s : list byte) : list byte * list byte :=
  match s with
  | [] => ([], [])
  | c :: s' => if delim c then ([], s') else let '(t, r) := span_token delim s' in (c :: t, r)
  end.

Definition strtok_r (delim : byte -> bool) (s : list byte) : option (list byte * list byte) :=
  match skip_delims delim s with [] => None | s' => Some (span_token delim s') end.

Definition is_blank (c : byte) : bool := bool_decide (c = " "%byte \/ c = x09).
Definition is_blank_quote (c : byte) : bool := bool_decide (c = " "%byte \/ c = x09 \/ c = x22).

Definition LINE_BUFSZ : nat := N.to_nat 1024.

Section files.
Context {L : Libu} {P : Posix} {D C : Type} {DO : DevOps D} {CO : CodecOps C}.
Context {CI : Type} {COI : CodecOps CI}.
Variables (FILENAME_MAX fuel : nat) (fs : fsys).

(** The context with the stream [p->out]. *)
Record pw := mkPw { pw_ctx : ppctx; pw_out : io D C }.

Definition on_ctx {A} (m : prog ppctx A) : prog pw A := fun w =>
  let '(c, r) := m (pw_ctx w) in (mkPw c (pw_out w), r).
Definition on_pout {A} (m : prog (io D C) A) : prog pw A := fun w =>
  let '(o, r) := m (pw_out w) in (mkPw (pw_ctx w) o, r).

(** The path of an included file, relative to [file], the name of the input. *)
Definition include_file_full_path (file inc_file : list byte) : res (list byte) :=
  match strrchr file "/" with
  | None => Fail
  | Some k =>
      let '(buf, t1) := u_strlcat (take (S k) file) inc_file FILENAME_MAX in
      if t1 : bool then Fail else
      let '(obuf, t2) := u_strlcpy buf FILENAME_MAX in
      if t2 : bool then Fail else Ok obuf
  end.

Definition line_mark (ln : Z) (file : list byte) : list byte :=
  bs "<% #line " ++ fmt_d ln ++ bs " " ++ DQ ++ file ++ DQ ++ bs " " ++ NL ++ bs " %>".

Section callbacks.
(** [preprocess] of an included file. *)
Variable preprocess : io frd CI -> prog pw unit.
Variable file : list byte.     (* the name of [p->in] *)

Definition process_directive_include (ln : nat) (inc_file : list byte) : prog pw unit :=
  let! fullpath := plift (include_file_full_path file inc_file) in
  let! io := plift (u_file_open_ro fs fullpath) in
  on_pout (oprintf fuel (line_mark 1 fullpath));;;
  preprocess io;;;
  on_pout (oprintf fuel (line_mark (Z.of_nat ln) file)).

Definition next_token {S} (rest : list byte) : prog S (list byte) :=
  match strtok_r is_blank_quote rest with Some (tok, _) => pret tok | None => pfail end.

Definition process_directive (ln : nat) (buf : list byte) : prog pw unit :=
  match strtok_r is_blank buf with
  | None => pfail
  | Some (tok, rest) =>
      if strcaseeq tok (bs "include") then
        let! inc := next_token rest in
        let! fullpath := plift (include_file_full_path file inc) in
        on_ctx (ppctx_depend_push fullpath);;;
        process_directive_include ln inc
      else if strcaseeq tok (bs "extends") then
        let! inc := next_token rest in
        pguard (bool_decide (ln <= 1));;;
        let! fullpath := plift (include_file_full_path file inc) in
        on_ctx (ppctx_depend_push fullpath);;;
        process_directive_include ln inc;;;
        let! w := pget in
        pguard (bool_decide (pp_lev (pw_ctx w) = 0%Z));;;
        on_ctx (pmod (fun c => set_ext c (pp_ext c + 1)%Z))
      else if strcaseeq tok (bs "block") then
        let! name := next_token rest in
        on_ctx (process_directive_block name)
      else if strcaseeq tok (bs "endblock") then
        on_ctx (process_directive_endblock (match strtok_r is_blank_quote rest with Some (t, _) => Some t | None => None end))
      else if strcaseeq tok (bs "inherit") then on_ctx process_directive_inherit
      else pfail
  end.

(** The lines of a directive tag; a line is a C string in its buffer. *)
Fixpoint directive_loop (n ln : nat) (io : io io_mem CI) : prog pw unit :=
  match n with
  | 0 => plift Timeout
  | S n' =>
      match io_gets fuel io LINE_BUFSZ with
      | (_, Ok []) | (_, Fail) => pret tt
      | (io', Ok line) => process_directive ln (cstr line);;; directive_loop n' ln io'
      | (_, Fault) => plift Fault
      | (_, Timeout) => plift Timeout
      end
  end.

Definition parse_directive (ln : nat) (buf : list byte) : prog pw unit :=
  directive_loop (S (length buf)) ln (io_mem_create buf (length buf) false).

(** A code block keeps its text, with the line it comes from before it and a mark for the
    line of the output after it. *)
Definition code_markup (ln : nat) (cmd : byte) (buf : list byte) : list byte :=
  (if decide (cmd = x00 \/ cmd = "="%byte) then
     bs "<% #line " ++ fmt_d (Z.of_nat ln) ++ bs " " ++ DQ ++ file ++ DQ ++ bs " " ++ NL ++ bs "%><%" ++
     (if decide (cmd = "="%byte) then bs "=" else [])
   else
     bs "<%" ++ [cmd] ++ bs " #line " ++ fmt_d (Z.of_nat ln) ++ bs " " ++ DQ ++ file ++ DQ ++ bs " " ++ NL ++
     bs "%><%" ++ [cmd]) ++
  cstr buf ++ bs "%>" ++
  bs "<%" ++ [if decide (cmd = "!"%byte) then cmd else " "%byte] ++ bs " #line 0 __PG_FILE_C__ " ++ NL ++ bs "%>".

Definition cb_pre_code_block (ln : nat) (cmd : byte) (buf : list byte) : prog pw unit :=
  if decide (cmd = "@"%byte) then parse_directive ln buf else
  on_ctx (
    let! ustr := plift (of_option (u_string_append [] (code_markup ln cmd buf))) in
    let! block := kblock_create None ustr in
    pelse (attach block) (free_block block)).
End callbacks.

(** [preprocess], [d] includes deep; [n] bounds the parser. *)
Fixpoint preprocess (d n : nat) (in_ : io frd CI) : prog pw unit :=
  match d with
  | 0 => plift Timeout
  | S d' =>
      let! file := plift (io_name_get in_ FILENAME_MAX) in
      run_cbs fuel (fun buf => on_ctx (cb_pre_html_block buf)) (cb_pre_code_block (preprocess d' n) file) n in_;;;
      let! w := pget in
      pguard (bool_decide (pp_lev (pw_ctx w) = 0%Z))
  end.

(** ** Printing *)

Fixpoint print_kids (rec : nat -> prog (io D C) unit) (kids : list nat) : prog (io D C) unit :=
  match kids with [] => pret tt | b :: kids' => rec b;;; print_kids rec kids' end.

(** A block without a name prints its text, one with a name its children. *)
Fixpoint ppctx_print_kblock (n : nat) (h : kheap) (id : nat) : prog (io D C) unit :=
  match n with
  | 0 => plift Timeout
  | S n' =>
      match h !! id with
      | None => plift Fault
      | Some b =>
          match k_name b with
          | None => if decide (k_buf b = []) then pret tt else (owrite fuel (k_buf b);;; pret tt)
          | Some _ => print_kids (ppctx_print_kblock n' h) (k_kids b)
          end
      end
  end.

Definition ppctx_print (c : ppctx) : prog (io D C) unit :=
  match pp_heap c !! pp_top c with
  | None => plift Fault
  | Some t => print_kids (ppctx_print_kblock (S (pp_next c)) (pp_heap c)) (k_kids t)
  end.

(** Both trees are freed; the strings of the dependencies have no other owner. *)
Definition ppctx_free (c : ppctx) : res kheap :=
  h ← kblock_free (S (pp_next c)) (pp_top c) (pp_heap c);
  kblock_free (S (pp_next c)) (pp_dead c) h.

(** The first half of [translate]: the page in [in_] is preprocessed to [tmp]. *)
Definition preprocess_page (d n : nat) (in_ : io frd CI) : prog (io D C) ppctx :=
  let! c := plift ppctx_create in
  let! c := (fun tmp => let '(w, r) := preprocess d n in_ (mkPw c tmp) in (pw_out w, (fun _ => pw_ctx w) <$> r)) in
  ppctx_print c;;;
  pret c.

(** [translate_makefile_filepath]: absolute names stay, others are put below [prefix]. *)
Definition translate_makefile_filepath (filepath prefix : list byte) (size : nat) : res (list byte) :=
  let abs := match filepath with
             | c :: rest => bool_decide (c = "/"%byte \/ c = x5c) ||
                            (isalpha c && match rest with d :: _ => bool_decide (d = ":"%byte) | [] => false end)
             | [] => false
             end in
  let '(file_in, t1) := u_snprintf (if abs then filepath else prefix ++ bs "/" ++ filepath) FILENAME_MAX in
  if t1 : bool then Fail else
  let '(buf, t2) := u_strlcpy file_in size in
  if t2 : bool then Fail else Ok buf.

Fixpoint print_depends (files : list (list byte)) : prog (io D C) unit :=
  match files with
  | [] => pret tt
  | f :: files' =>
      let! fullpath := plift (translate_makefile_filepath f (bs "$(srcdir)") FILENAME_MAX) in
      pignore (oprintf fuel (fullpath ++ bs " "));;;
      print_depends files'
  end.

(** A rule of make: the output depends on the input and on all included files. *)
Definition ppctx_print_depend (c : ppctx) (infile outfile : list byte) : prog (io D C) unit :=
  let! fullpath := plift (translate_makefile_filepath infile (bs "$(srcdir)") FILENAME_MAX) in
  pignore (oprintf fuel (outfile ++ bs " " ++ outfile ++ bs ".kld: " ++ fullpath ++ bs " "));;;
  print_depends (pp_depend c);;;
  pignore (oprintf fuel NL).
End files.
Arguments mkPw {D C} _ _.
Arguments pw_ctx {D C} _.
Arguments pw_out {D C} _.

Definition script_ext : list (list byte) := [bs ".klone"; bs ".kl1"; bs ".klc"; bs ".klx"].

Definition translate_is_a_script (filename : list byte) : bool :=
  existsb (fun ext => Search.u_match_ext (Some filename) (Some ext)) script_ext.

(** ** Trees in the heap *)

(** A tree of blocks with their addresses. *)
Inductive lt := LT (id : nat) (name : option (list byte)) (buf : list byte) (kids : list lt).

Definition lid (t : lt) : nat := let 'LT id _ _ _ := t in id.
Definition lkids (t : lt) : list lt := let 'LT _ _ _ ks := t in ks.
Definition lnamed (t : lt) (name : list byte) : bool :=
  let 'LT _ nm _ _ := t in match nm with Some s => strcaseeq s name | None => false end.

Fixpoint lids (t : lt) : list nat := let 'LT id _ _ ks := t in id :: concat (map lids ks).

Lemma lt_rect' (Q : lt -> Prop) :
  (forall id nm buf ks, Forall Q ks -> Q (LT id nm buf ks)) -> forall t, Q t.
Proof.
  intros H. fix IH 1. intros [id nm buf ks]. apply H. induction ks as [|k ks IHk]; constructor; [apply IH|exact IHk].
Qed.

Lemma lid_in (t : lt) : lid t ∈ lids t.
Proof. destruct t. left. Qed.

Lemma kid_ids (k t : lt) (i : nat) : k ∈ lkids t -> i ∈ lids k -> i ∈ lids t.
Proof.
  destruct t as [id nm buf ks]. cbn. intros Hk Hi. right. apply list_elem_of_In, in_concat. exists (lids k).
  split; [apply in_map|]; by apply list_elem_of_In.
Qed.

(** The tree is in the heap, its root with that parent. *)
Inductive rep (h : kheap) : option nat -> lt -> Prop :=
| rep_node (par anc : option nat) (id : nat) (nm : option (list byte)) (buf : list byte) (ks : list lt) :
    h !! id = Some (mkK nm buf par anc (map lid ks)) -> Forall (rep h (Some id)) ks -> rep h par (LT id nm buf ks).

Lemma rep_inv (h : kheap) (par : option nat) (t : lt) : rep h par t ->
  exists b, h !! lid t = Some b /\ k_parent b = par /\ k_kids b = map lid (lkids t) /\
    (forall name, name_is b name = lnamed t name) /\ Forall (rep h (Some (lid t))) (lkids t).
Proof. destruct 1 as [par anc id nm buf ks Hh Hk]. eexists. by split_and!. Qed.

Lemma rep_frame (h h' : kheap) (t : lt) : forall par, rep h par t ->
  (forall i, i ∈ lids t -> h' !! i = h !! i) -> rep h' par t.
Proof.
  induction t as [id nm buf ks IH] using lt_rect'. intros par H Hf. inversion H as [? anc ? ? ? ? Hh Hk]; subst.
  apply (rep_node _ _ anc); [rewrite Hf by left; done|].
  rewrite Forall_forall in *. intros k Hin. apply IH; [done|by apply Hk|]. intros i Hi. apply Hf. by apply (kid_ids k (LT id nm buf ks)).
Qed.

Lemma rep_frame_list (h h' : kheap) (par : option nat) (ts : list lt) : Forall (rep h par) ts ->
  (forall i, i ∈ concat (map lids ts) -> h' !! i = h !! i) -> Forall (rep h' par) ts.
Proof.
  intros H Hf. rewrite Forall_forall in *. intros t Ht. eapply rep_frame; [by apply H|]. intros i Hi. apply Hf.
  apply list_elem_of_In, in_concat. exists (lids t). split; [apply in_map|]; by apply list_elem_of_In.
Qed.

Lemma rep_live (h : kheap) (t : lt) : forall par i, rep h par t -> i ∈ lids t -> is_Some (h !! i).
Proof.
  induction t as [id nm buf ks IH] using lt_rect'. intros par i H Hi. inversion H as [? anc ? ? ? ? Hh Hk]; subst.
  apply elem_of_cons in Hi as [-> |Hi]; [by rewrite Hh|].
  apply list_elem_of_In, in_concat in Hi as (l & Hl & Hi%list_elem_of_In). apply in_map_iff in Hl as (k & <- & Hk'%list_elem_of_In).
  rewrite Forall_forall in *. eapply IH; [done|by apply Hk|done].
Qed.

(** Every address of a tree but the root has its parent in the tree. *)
Lemma rep_closed (h : kheap) (t : lt) : forall par i, rep h par t -> i ∈ lids t -> i <> lid t ->
  exists b j, h !! i = Some b /\ k_parent b = Some j /\ j ∈ lids t.
Proof.
  induction t as [id nm buf ks IH] using lt_rect'. intros par i H Hi Hne. inversion H as [? anc ? ? ? ? Hh Hk]; subst.
  apply elem_of_cons in Hi as [-> |Hi]; [done|].
  apply list_elem_of_In, in_concat in Hi as (l & Hl & Hi%list_elem_of_In). apply in_map_iff in Hl as (k & <- & Hin%list_elem_of_In).
  rewrite Forall_forall in *. specialize (Hk k Hin). destruct (decide (i = lid k)) as [-> |Hik].
  - destruct (rep_inv _ _ _ Hk) as (b & E & Ep & _). exists b, id. split_and!; [done..|left].
  - destruct (IH k Hin _ i Hk Hi Hik) as (b & j & ? & ? & Hj). exists b, j. split_and!; [done..|].
    by apply (kid_ids k (LT id nm buf ks)).
Qed.

(** The first descendant of a name. *)
Fixpoint lfind (name : list byte) (t : lt) : option lt :=
  let 'LT _ _ _ ks := t in
  foldr (fun k r => if lnamed k name then Some k else match lfind name k with Some x => Some x | None => r end) None ks.

Definition lfind_list (name : list byte) (ks : list lt) : option lt :=
  foldr (fun k r => if lnamed k name then Some k else match lfind name k with Some x => Some x | None => r end) None ks.

(** [kblock_get_by_name] finds it, with its place among the children of its parent. *)
Definition found_at (h : kheap) (t : lt) (name : list byte) (x : option (nat * nat)) : Prop :=
  match lfind name t with
  | None => x = None
  | Some old => exists p idx pb, x = Some (lid old, idx) /\ rep h (Some p) old /\ p ∈ lids t /\
      h !! p = Some pb /\ k_kids pb !! idx = Some (lid old) /\ (p ∉ lids old)
  end.

Lemma kid_nodup (k : lt) (ks : list lt) : k ∈ ks -> NoDup (concat (map lids ks)) -> NoDup (lids k).
Proof.
  intros Hk Hnd. induction ks as [|x ks IH]; [by apply elem_of_nil in Hk|]. cbn [map concat] in Hnd.
  apply NoDup_app in Hnd as (N1 & _ & N3). apply elem_of_cons in Hk as [-> |Hk]; [done|by apply IH].
Qed.

Lemma find_spec (h : kheap) (name : list byte) (t : lt) : forall (n : nat) (par : option nat),
  rep h par t -> NoDup (lids t) -> length (lids t) <= n ->
  exists x, kblock_get_by_name n h (lid t) name = Ok x /\ found_at h t name x.
Proof.
  induction t as [id nm buf ks IH] using lt_rect'. intros n par H Hnd Hn. inversion H as [? anc ? ? ? ? Hh Hk]; subst.
  cbn [lids] in Hnd. apply NoDup_cons in Hnd as [Hni Hnd]. destruct n as [|n]; [cbn in Hn; lia|]. cbn [kblock_get_by_name lid]. rewrite Hh. cbn [k_kids]. unfold found_at. cbn [lfind].
  assert (length (concat (map lids ks)) <= n) as Hn' by (cbn in Hn; lia).
  assert (forall pre suf, ks = pre ++ suf -> exists x,
    find_loop (fun c => kblock_get_by_name n h c name) h name (length pre) (map lid suf) = Ok x /\
    match lfind_list name suf with
    | None => x = None
    | Some old => exists p idx pb, x = Some (lid old, idx) /\ rep h (Some p) old /\ p ∈ lids (LT id nm buf ks) /\
        h !! p = Some pb /\ k_kids pb !! idx = Some (lid old) /\ (p ∉ lids old)
    end) as G; [|by apply (G [] ks)].
  intros pre suf. revert pre. induction suf as [|k suf IHs]; intros pre E; cbn [map find_loop lfind_list foldr]; [by eexists|].
  assert (k ∈ ks) as Hin by (rewrite E; set_solver). rewrite Forall_forall in IH, Hk.
  destruct (rep_inv _ _ _ (Hk k Hin)) as (b & Eb & Ep & _ & Hnm & _). rewrite Eb, Hnm.
  destruct (lnamed k name).
  - eexists. split; [done|]. exists id, (length pre), (mkK nm buf par anc (map lid ks)). split_and!; [done|by apply Hk|left|done| |].
    2: { intros Hi. apply Hni. apply list_elem_of_In, in_concat. exists (lids k). split; [apply in_map|]; by apply list_elem_of_In. }
    cbn [k_kids]. rewrite E, map_app. rewrite lookup_app_r by (by rewrite length_map). by rewrite length_map, Nat.sub_diag.
  - assert (length (lids k) <= n) as Hlk.
    { etrans; [|exact Hn']. rewrite E, map_app, concat_app, length_app. cbn [map concat]. rewrite length_app. lia. }
    destruct (IH k Hin n (Some id) (Hk k Hin) (kid_nodup k ks Hin Hnd) Hlk) as (x & -> & Hx). cbn [mbind res_bind]. unfold found_at in Hx.
    destruct (lfind name k) as [old|].
    + destruct Hx as (p & idx & pb & -> & ? & Hp & ? & ? & ?). eexists. split; [done|]. exists p, idx, pb. split_and!; try done.
      by apply (kid_ids k (LT id nm buf ks)).
    + subst x. fold (lfind_list name suf). replace (S (length pre)) with (length (pre ++ [k])) by (rewrite length_app; simpl; lia).
      apply IHs. by rewrite E, <- app_assoc.
Qed.

(** Replacing the subtree at an address. *)
Fixpoint lreplace (oid : nat) (nt t : lt) : lt :=
  let 'LT id nm buf ks := t in
  LT id nm buf (map (fun k => if decide (lid k = oid) then nt else lreplace oid nt k) ks).

Lemma lreplace_id (oid : nat) (nt t : lt) : (oid ∉ lids t) -> lreplace oid nt t = t.
Proof.
  induction t as [id nm buf ks IH] using lt_rect'. intros Hn. cbn [lreplace]. f_equal.
  rewrite <- (map_id ks) at 2. apply map_ext_in. intros k Hk%list_elem_of_In. rewrite Forall_forall in IH.
  assert (oid ∉ lids k) as Hk' by (intros Hi; apply Hn; by apply (kid_ids k (LT id nm buf ks))).
  rewrite decide_False by (intros <-; apply Hk', lid_in). by apply IH.
Qed.

Lemma lreplace_lid (oid : nat) (nt t : lt) : lid (lreplace oid nt t) = lid t.
Proof. by destruct t. Qed.

(** The heap after [nt] took the place of the tree [old] below [p]. *)
Lemma replace_rep (h h' : kheap) (old nt : lt) (p : nat) (pb : kblock) : rep h (Some p) old -> rep h' (Some p) nt ->
  h !! p = Some pb -> h' !! p = Some (set_kids pb (map (fun i => if decide (i = lid old) then lid nt else i) (k_kids pb))) ->
  forall t par, rep h par t -> (lid t ∉ lids old) ->
  (forall i, i ∈ lids t -> i <> p -> (i ∉ lids old) -> h' !! i = h !! i) ->
  rep h' par (lreplace (lid old) nt t).
Proof.
  intros Hold Hnt Hp Hp' t. induction t as [id nm buf ks IH] using lt_rect'. intros par H Hid Hf. cbn [lid] in Hid.
  inversion H as [? anc ? ? ? ? Hh Hk]; subst. cbn [lreplace].
  assert (forall k, k ∈ ks -> lid k <> lid old -> (lid k ∉ lids old)) as Hout.
  { intros k Hin Hne Hi. destruct (rep_closed _ _ _ _ Hold Hi Hne) as (b & j & E & Ep & Hj).
    rewrite Forall_forall in Hk. destruct (rep_inv _ _ _ (Hk k Hin)) as (b' & E' & Ep' & _). assert (Some j = Some id) as [= ->] by congruence. done. }
  assert (Forall (rep h' (Some id)) (map (fun k => if decide (lid k = lid old) then nt else lreplace (lid old) nt k) ks)) as Hks.
  { rewrite Forall_forall in IH, Hk. apply Forall_forall. intros x Hx. apply list_elem_of_fmap in Hx as (k & -> & Hin).
    destruct (rep_inv _ _ _ (Hk k Hin)) as (b & E & Ep & _). case_decide as Ho.
    - destruct (rep_inv _ _ _ Hold) as (b' & E' & Ep' & _). rewrite Ho in E.
      assert (Some id = Some p) as [= ->] by congruence. done.
    - apply IH; [done|by apply Hk|by apply Hout|]. intros i Hi. apply Hf. by apply (kid_ids k (LT id nm buf ks)). }
  assert (map lid (map (fun k => if decide (lid k = lid old) then nt else lreplace (lid old) nt k) ks) =
    map (fun i => if decide (i = lid old) then lid nt else i) (map lid ks)) as Em.
  { rewrite !map_map. apply map_ext_in. intros k _. case_decide; [done|]. apply lreplace_lid. }
  destruct (decide (id = p)) as [-> |Hip].
  - rewrite Hp in Hh. injection Hh as ->. apply (rep_node _ _ anc); [|done]. by rewrite Em.
  - apply (rep_node _ _ anc); [|done]. rewrite Hf by (done || left). rewrite Hh, Em. do 2 f_equal.
    rewrite map_map. apply map_ext_in. intros k Hin%list_elem_of_In. case_decide as Ho; [|done].
    rewrite Forall_forall in Hk. destruct (rep_inv _ _ _ (Hk k Hin)) as (b & E & Ep & _).
    destruct (rep_inv _ _ _ Hold) as (b' & E' & Ep' & _). rewrite Ho in E.
    assert (Some id = Some p) as [= ->] by congruence. done.
Qed.

(** ** Templates *)

Inductive titem := TText (t : list byte) | TBlock (name : list byte) (kids : list titem).

Fixpoint render (t : titem) : list byte :=
  match t with TText s => s | TBlock _ ks => concat (map render ks) end.

(** The first block of a name, looked for in the order of the page, gets new contents. *)
Fixpoint override_item (name : list byte) (f : list titem -> list titem) (t : titem) : option titem :=
  match t with
  | TText _ => None
  | TBlock n ks =>
      if strcaseeq n name then Some (TBlock name (f ks)) else
      TBlock n <$> (fix go l := match l with
                     | [] => None
                     | k :: l' => match override_item name f k with
                                  | Some k' => Some (k' :: l')
                                  | None => cons k <$> go l'
                                  end
                     end) ks
  end.

Fixpoint override (name : list byte) (f : list titem -> list titem) (l : list titem) : option (list titem) :=
  match l with
  | [] => None
  | k :: l' => match override_item name f k with
               | Some k' => Some (k' :: l')
               | None => cons k <$> override name f l'
               end
  end.

Lemma override_block_eq (name n : list byte) f (ks : list titem) : override_item name f (TBlock n ks) =
  if strcaseeq n name then Some (TBlock name (f ks)) else TBlock n <$> override name f ks.
Proof. cbn [override_item]. destruct (strcaseeq n name); [done|]. f_equal. induction ks as [|k ks IH]; simpl; [done|]. by rewrite IH. Qed.

(** The template that a tree of blocks is. *)
Fixpoint forget (t : lt) : titem :=
  let 'LT _ nm buf ks := t in
  match nm with None => TText buf | Some n => TBlock n (map forget ks) end.

(** Blocks without a name have no children. *)
Inductive leafy : lt -> Prop :=
| leafy_text (id : nat) (buf : list byte) : leafy (LT id None buf [])
| leafy_block (id : nat) (n buf : list byte) (ks : list lt) : Forall leafy ks -> leafy (LT id (Some n) buf ks).

Lemma lids_kid_nodup (ks : list lt) (k : lt) (pre suf : list lt) : ks = pre ++ k :: suf -> NoDup (concat (map lids ks)) ->
  NoDup (lids k) /\ NoDup (concat (map lids suf)) /\
  forall i, i ∈ lids k -> (i ∉ concat (map lids pre)) /\ (i ∉ concat (map lids suf)).
Proof.
  intros -> H. rewrite map_app, concat_app in H. cbn [map concat] in H. apply NoDup_app in H as (H1 & H2 & H3).
  apply NoDup_app in H3 as (H4 & H5 & H6). split_and!; [done..|]. intros i Hi. split; [|by apply H5].
  intros Hp. apply (H2 i Hp). apply elem_of_app. by left.
Qed.

(** Finding and replacing in the heap's tree is overriding in the template. *)
Definition repl (oid : nat) (nt k : lt) : lt := if decide (lid k = oid) then nt else lreplace oid nt k.

Definition override_ok (name : list byte) (f : list titem -> list titem) (nt : lt) (ks : list lt) : Prop :=
  match lfind_list name ks with
  | None => override name f (map forget ks) = None
  | Some old =>
      lid old ∈ concat (map lids ks) /\ leafy old /\ lnamed old name = true /\
      (exists rest, concat (map lids ks) ≡ₚ rest ++ lids old /\
                    concat (map lids (map (repl (lid old) nt) ks)) ≡ₚ rest ++ lids nt) /\
      (forget nt = TBlock name (f (map forget (lkids old))) ->
       override name f (map forget ks) = Some (map forget (map (repl (lid old) nt) ks)))
  end.

Lemma repl_other (oid : nat) (nt : lt) (ks : list lt) : (oid ∉ concat (map lids ks)) -> map (repl oid nt) ks = ks.
Proof.
  intros Hn. rewrite <- (map_id ks) at 2. apply map_ext_in. intros k Hk%list_elem_of_In. unfold repl.
  assert (oid ∉ lids k) as Hk'.
  { intros Hi. apply Hn, list_elem_of_In, in_concat. exists (lids k). split; [apply in_map|]; by apply list_elem_of_In. }
  rewrite decide_False by (intros <-; apply Hk', lid_in). by apply lreplace_id.
Qed.

Lemma override_ok_list (name : list byte) f (nt : lt) (ks : list lt) :
  Forall (fun k => forall id nm buf, k = LT id nm buf (lkids k) -> override_ok name f nt (lkids k)) ks ->
  Forall leafy ks -> NoDup (concat (map lids ks)) -> override_ok name f nt ks.
Proof.
  intros Hks. induction Hks as [|k ks Hk _ IH]; intros Hl Hnd; [done|]. apply Forall_cons in Hl as [Hlk Hl].
  cbn [map concat] in Hnd. apply NoDup_app in Hnd as (N1 & N2 & N3). specialize (IH Hl N3).
  unfold override_ok. cbn [lfind_list foldr]. destruct (lnamed k name) eqn:En.
  - cbn [map concat]. assert (repl (lid k) nt k = nt) as -> by (unfold repl; by rewrite decide_True).
    rewrite (repl_other (lid k) nt ks) by (apply N2, lid_in). split_and!; [apply elem_of_app; left; apply lid_in|done..| |].
    + exists (concat (map lids ks)). by rewrite (Permutation_app_comm (lids k)), (Permutation_app_comm (lids nt)).
    + intros Hf. rewrite Hf. inversion Hlk as [|id n buf ks' Hks']; subst; cbn in En; [done|]. cbn [forget override].
      rewrite override_block_eq. by rewrite En.
  - destruct k as [id nm buf kk]. specialize (Hk id nm buf eq_refl). cbn [lkids] in Hk. unfold override_ok in Hk.
    cbn [lfind]. fold (lfind_list name kk). fold (lfind_list name ks). destruct (lfind_list name kk) as [old|] eqn:Ef.
    + destruct Hk as (Hin & Hlo & Hno & (rest & P1 & P2) & Ho).
      assert (lid old ∈ lids (LT id nm buf kk)) as Hin' by (right; exact Hin).
      assert (lid old <> id) as Hid by (intros <-; apply NoDup_cons in N1 as [N1 _]; done).
      cbn [map concat]. rewrite (repl_other (lid old) nt ks) by (by apply N2).
      assert (repl (lid old) nt (LT id nm buf kk) = LT id nm buf (map (repl (lid old) nt) kk)) as ->
        by (unfold repl at 1; by rewrite decide_False by (cbn; congruence)).
      split_and!; [apply elem_of_app; by left|done..| |].
      * exists (id :: rest ++ concat (map lids ks)). cbn [lids]. rewrite P1, P2. cbn [app]. rewrite <- !app_assoc.
        rewrite (Permutation_app_comm (lids old)), (Permutation_app_comm (lids nt)). done.
      * intros Hf. specialize (Ho Hf). inversion Hlk as [|? n ? ? Hks']; subst; [done|]. cbn [forget override].
        rewrite override_block_eq. cbn in En. rewrite En, Ho. done.
    + assert (override_item name f (forget (LT id nm buf kk)) = None) as Hnone.
      { inversion Hlk as [|? n ? ? Hks']; subst; [done|]. cbn [forget]. rewrite override_block_eq. cbn in En. by rewrite En, Hk. }
      unfold override_ok in IH. destruct (lfind_list name ks) as [old|].
      * destruct IH as (Hin & Hlo & Hno & (rest & P1 & P2) & Ho).
        assert (lid old ∉ lids (LT id nm buf kk)) as Hout by (intros Hi; by apply (N2 _ Hi)).
        assert (repl (lid old) nt (LT id nm buf kk) = LT id nm buf kk) as Er.
        { unfold repl. rewrite decide_False by (intros E; apply Hout; rewrite <- E; apply lid_in). by apply lreplace_id. }
        cbn [map concat]. rewrite Er. split_and!; [apply elem_of_app; by right|done..| |].
        -- exists (lids (LT id nm buf kk) ++ rest). by rewrite P1, P2, !app_assoc.
        -- intros Hf. cbn [override]. by rewrite Hnone, (Ho Hf).
      * cbn [map override]. by rewrite Hnone, IH.
Qed.

Lemma override_ok_tree (name : list byte) f (nt : lt) (t : lt) :
  Forall leafy (lkids t) -> NoDup (lids t) -> override_ok name f nt (lkids t).
Proof.
  induction t as [id nm buf ks IH] using lt_rect'. cbn [lkids lids]. intros Hl [_ Hnd]%NoDup_cons.
  apply override_ok_list; [|done..]. rewrite Forall_forall in *. intros k Hk ? ? ? _. apply IH; [done|..].
  - specialize (Hl k Hk). inversion Hl; subst; [constructor|done].
  - by eapply kid_nodup.
Qed.

Lemma lreplace_leafy (oid : nat) (nt t : lt) : leafy nt -> leafy t -> leafy (lreplace oid nt t).
Proof.
  intros Hnt. induction t as [id nm buf ks IH] using lt_rect'. intros Ht. inversion Ht as [|? n ? ? Hks]; subst; [constructor|].
  cbn [lreplace]. constructor. rewrite Forall_forall in *. intros x (k & -> & Hk)%list_elem_of_fmap. case_decide; auto.
Qed.

(** ** The directives as events *)

Inductive tev := TeText (t : list byte) | TeBlock (n : list byte) | TeEnd (o : option (list byte)) | TeInherit.

Section build.
Context {L : Libu} {LS : LibuSpec L} {LM : LibuMem L}.

Definition exec_ev (e : tev) : prog ppctx unit :=
  match e with
  | TeText t => cb_pre_html_block t
  | TeBlock n => process_directive_block n
  | TeEnd o => process_directive_endblock o
  | TeInherit => process_directive_inherit
  end.

Fixpoint run_evs (evs : list tev) : prog ppctx unit :=
  match evs with [] => pret tt | e :: evs' => exec_ev e;;; run_evs evs' end.

Lemma run_evs_app (e1 e2 : list tev) (c c1 : ppctx) : run_evs e1 c = (c1, Ok tt) -> run_evs (e1 ++ e2) c = run_evs e2 c1.
Proof.
  revert c. induction e1 as [|e e1 IH]; intros c; cbn [run_evs app]; [by intros [= ->]|].
  intros E. unfold pbind in *. destruct (exec_ev e c) as [c' []]; try done. by apply IH.
Qed.

Lemma run_evs_cons (e : tev) (evs : list tev) (c c1 : ppctx) : exec_ev e c = (c1, Ok tt) -> run_evs (e :: evs) c = run_evs evs c1.
Proof. intros E. cbn [run_evs]. by rewrite (pbind_Ok _ _ _ _ _ E). Qed.

(** [h'] is [h] with the new block [b] at [id] as the last child of [x]. *)
Definition added (h h' : kheap) (x : nat) (xb : kblock) (id : nat) (b : kblock) : Prop :=
  h' !! id = Some b /\ h' !! x = Some (set_kids xb (k_kids xb ++ [id])) /\
  forall i, i <> id -> i <> x -> h' !! i = h !! i.

Lemma create_spec (name : option (list byte)) (buf : list byte) (c : ppctx) :
  kblock_create name buf c =
    (mkPp (<[pp_next c := mkK name buf None None []]> (pp_heap c)) (S (pp_next c)) (pp_cur c) (pp_top c) (pp_dead c)
          (pp_lev c) (pp_ext c) (pp_depend c), Ok (pp_next c)).
Proof.
  unfold kblock_create. rewrite u_buf_create_eq. cbn. unfold pbind, plift, pguard. cbn.
  assert ((match name with Some s => u_alloc (S (length s)) | None => true end) = true) as -> by (destruct name; [apply u_alloc_ok|done]).
  case_decide as Hb; [by subst|]. by rewrite u_buf_append_eq.
Qed.

Lemma push_spec (p ch : nat) (pb cb : kblock) (c : ppctx) : pp_heap c !! p = Some pb -> pp_heap c !! ch = Some cb -> p <> ch ->
  kblock_push_child p ch c =
    (set_heap c (<[ch := set_parent cb (Some p)]> (<[p := set_kids pb (k_kids pb ++ [ch])]> (pp_heap c))), Ok tt).
Proof.
  intros Hp Hc Hne. destruct c as [h n cu to de le ex dep]. cbn in Hp, Hc.
  unfold kblock_push_child, get_block, put_block, pbind, plift, pmod. cbn. rewrite Hp, u_list_add_eq. cbn.
  rewrite lookup_insert_ne by done. by rewrite Hc.
Qed.

(** A new block below [x]. *)
Lemma create_push (name : option (list byte)) (buf : list byte) (x : nat) (xb : kblock) (h : kheap) (n : nat) cu to de le ex dep :
  h !! x = Some xb -> x < n ->
  exists h', (let! block := kblock_create name buf in kblock_push_child x block) (mkPp h n cu to de le ex dep) =
      (mkPp h' (S n) cu to de le ex dep, Ok tt) /\ added h h' x xb n (mkK name buf (Some x) None []).
Proof.
  intros Hx Hn. unfold pbind at 1. rewrite create_spec. cbn [pp_heap pp_next pp_cur pp_top pp_dead pp_lev pp_ext pp_depend].
  erewrite push_spec; [| |apply lookup_insert_eq|lia]; [|cbn; rewrite lookup_insert_ne by lia; exact Hx].
  cbn. eexists. split; [done|]. split_and!; [by rewrite lookup_insert_eq| |].
  - rewrite lookup_insert_ne by lia. by rewrite lookup_insert_eq.
  - intros i H1 H2. by rewrite !lookup_insert_ne by congruence.
Qed.

(** Text goes to the current block, unless it is outside the blocks of a child. *)
Lemma text_spec (t : list byte) (x : nat) (xb : kblock) (h : kheap) (n : nat) to de le ex dep :
  h !! x = Some xb -> x < n -> x <> to \/ ex = 0%Z ->
  exists h', exec_ev (TeText t) (mkPp h n (Some x) to de le ex dep) = (mkPp h' (S n) (Some x) to de le ex dep, Ok tt) /\
    added h h' x xb n (mkK None t (Some x) None []).
Proof.
  intros Hx Hn Hc. destruct (create_push None t x xb h n (Some x) to de le ex dep Hx Hn) as (h' & E & Ha).
  exists h'. split; [|done]. rewrite <- E. cbn [exec_ev]. unfold cb_pre_html_block, pbind at 1 2.
  rewrite create_spec. cbn. unfold attach, pbind at 1, pget. cbn. rewrite decide_False; [done|].
  intros [[= ->] ?]. destruct Hc; done.
Qed.

(** ** Building the tree of a template *)

Definition low (s : list byte) : list byte := map tolower s.

Fixpoint tnames (t : titem) : list (list byte) :=
  match t with TText _ => [] | TBlock n ks => low n :: concat (map tnames ks) end.

(** An [endblock] may repeat the name of its block. *)
Definition end_ok (n : list byte) (o : option (list byte)) : Prop :=
  match o with None => True | Some m => low n = low m end.

(** The events of a template. *)
Inductive flats : list titem -> list tev -> Prop :=
| flats_nil : flats [] []
| flats_text t its evs : flats its evs -> flats (TText t :: its) (TeText t :: evs)
| flats_block n ks o its evk evs : flats ks evk -> end_ok n o -> flats its evs ->
    flats (TBlock n ks :: its) (TeBlock n :: evk ++ TeEnd o :: evs).

(** Children are younger than their parents. *)
Definition heap_up (h : kheap) (n : nat) : Prop :=
  forall id b, h !! id = Some b -> id < n /\ Forall (fun k => id < k /\ is_Some (h !! k)) (k_kids b).

(** A search in [h1], where nothing of [h] is changed. *)
Lemma not_found (h h1 : kheap) (n : nat) (name : list byte) : heap_up h n ->
  (forall id b s, h !! id = Some b -> k_name b = Some s -> low s <> low name) ->
  (forall id b, h !! id = Some b -> h1 !! id = Some b) ->
  forall m id, is_Some (h !! id) -> n - id < m -> kblock_get_by_name m h1 id name = Ok None.
Proof.
  intros Hu Hn Hs m. induction m as [|m IH]; intros id [b Hb] Hm; [lia|]. cbn [kblock_get_by_name]. rewrite (Hs _ _ Hb).
  destruct (Hu id b Hb) as [Hid Hk]. generalize 0. induction Hk as [|k ks [Hlt [kb Hkb]] _ IHk]; intros i; [done|].
  cbn [find_loop]. rewrite (Hs _ _ Hkb). assert (name_is kb name = false) as ->.
  { unfold name_is. destruct (k_name kb) as [s|] eqn:Es; [|done]. unfold strcaseeq, streq. apply bool_decide_false. by apply (Hn k kb). }
  rewrite IH; [cbn; apply IHk|by eexists|]. destruct (Hu k kb Hkb). lia.
Qed.

Lemma added_up (h h' : kheap) (n x : nat) (xb b : kblock) : heap_up h n -> h !! x = Some xb -> added h h' x xb n b -> k_kids b = [] ->
  heap_up h' (S n).
Proof.
  intros Hu Hx (H1 & H2 & H3) Hb id b' Hid. destruct (Hu x xb Hx) as [Hxn Hk].
  assert (forall k, is_Some (h !! k) -> is_Some (h' !! k)) as Hlive.
  { intros k Hk'. destruct (decide (k = n)) as [-> |]; [by rewrite H1|]. destruct (decide (k = x)) as [-> |]; [by rewrite H2|]. by rewrite H3. }
  destruct (decide (id = n)) as [-> |Hn]; [|destruct (decide (id = x)) as [-> |Hix]].
  - rewrite H1 in Hid. injection Hid as <-. rewrite Hb. split; [lia|constructor].
  - rewrite H2 in Hid. injection Hid as <-. split; [lia|]. cbn. apply Forall_app. split.
    + eapply Forall_impl; [exact Hk|]. simpl. intros k [? ?]. split; [done|by apply Hlive].
    + apply Forall_singleton. split; [lia|by rewrite H1].
  - rewrite H3 in Hid by done. destruct (Hu id b' Hid) as [? Hk']. split; [lia|].
    eapply Forall_impl; [exact Hk'|]. simpl. intros k [? ?]. split; [done|by apply Hlive].
Qed.

(** A block of a base template. *)
Lemma block_spec (name : list byte) (x : nat) (xb : kblock) (h : kheap) (n : nat) to de le dep :
  h !! x = Some xb -> heap_up h n -> is_Some (h !! to) ->
  (forall id b s, h !! id = Some b -> k_name b = Some s -> low s <> low name) ->
  exists h', exec_ev (TeBlock name) (mkPp h n (Some x) to de le 0 dep) =
      (mkPp h' (S n) (Some n) to de (le + 1) 0 dep, Ok tt) /\
    added h h' x xb n (mkK (Some name) [] (Some x) None []).
Proof.
  intros Hx Hu Hto Hn. destruct (Hu x xb Hx) as [Hxn _].
  destruct (create_push (Some name) [] x xb h n (Some x) to de (le + 1) 0 dep Hx Hxn) as (h' & E & Ha).
  exists h'. split; [|done]. unfold pbind in E. rewrite create_spec in E. cbn in E.
  cbn [exec_ev]. unfold process_directive_block, pbind at 1. rewrite create_spec.
  cbn [pp_heap pp_next pp_cur pp_top pp_dead pp_lev pp_ext pp_depend].
  set (h1 := <[n := _]> h) in *.
  assert (find_block name (mkPp h1 (S n) (Some x) to de (le + 1) 0 dep) =
    (mkPp h1 (S n) (Some x) to de (le + 1) 0 dep, Ok None)) as Ef.
  { unfold find_block, pbind, pget, plift. cbn [pp_next pp_heap pp_top]. f_equal.
    apply (not_found h h1 n); [done|done| |done|lia]. intros id b Hid. unfold h1. rewrite lookup_insert_ne; [done|].
    intros <-. destruct (Hu _ _ Hid). lia. }
  erewrite pelse_Ok; [done|]. erewrite pbind_Ok by reflexivity. cbn [set_lev pp_lev].
  erewrite (pbind_Ok pget) by reflexivity. cbn [pp_ext pp_cur]. rewrite decide_True by done.
  rewrite (pbind_Ok _ _ _ _ _ Ef). erewrite (pbind_Ok (deref _)) by reflexivity. by rewrite (pbind_Ok _ _ _ _ _ E).
Qed.

Lemma endblock_spec (o : option (list byte)) (id : nat) (b : kblock) (nm : list byte) (h : kheap) (n : nat) to de le dep :
  h !! id = Some b -> k_name b = Some nm -> end_ok nm o -> (0 < le)%Z ->
  exec_ev (TeEnd o) (mkPp h n (Some id) to de le 0 dep) = (mkPp h n (k_parent b) to de (le - 1) 0 dep, Ok tt).
Proof.
  intros Hb Hn Ho Hl. cbn [exec_ev]. unfold process_directive_endblock, pbind, pget, pmod, pguard, get_block, pret. cbn.
  rewrite bool_decide_true by lia. rewrite Hb. cbn.
  assert ((match o with Some s => name_is b s | None => true end) = true) as ->; [|done].
  destruct o as [m|]; [|done]. unfold name_is. rewrite Hn. unfold strcaseeq, streq. apply bool_decide_true. exact Ho.
Qed.

(** What building [its] below [x] leaves: the trees [ts], made of new blocks. *)
Definition built (x : nat) (xb : kblock) (h : kheap) (n : nat) (its : list titem) (h' : kheap) (n' : nat) (ts : list lt) : Prop :=
  n <= n' /\ heap_up h' n' /\ h' !! x = Some (set_kids xb (k_kids xb ++ map lid ts)) /\
  (forall i, i < n -> i <> x -> h' !! i = h !! i) /\
  Forall (rep h' (Some x)) ts /\ Forall leafy ts /\ map forget ts = its /\
  NoDup (concat (map lids ts)) /\ Forall (fun i => n <= i < n') (concat (map lids ts)) /\
  (forall id b s, h' !! id = Some b -> k_name b = Some s ->
     (exists b0, h !! id = Some b0 /\ k_name b0 = Some s) \/ low s ∈ concat (map tnames its)).

Lemma added_names (h h' : kheap) (n x : nat) (xb b : kblock) : h !! x = Some xb -> added h h' x xb n b ->
  forall id b' s, h' !! id = Some b' -> k_name b' = Some s ->
    (exists b0, h !! id = Some b0 /\ k_name b0 = Some s) \/ id = n /\ k_name b = Some s.
Proof.
  intros Hx (H1 & H2 & H3) id b' s Hid Hs. destruct (decide (id = n)) as [-> |Hn].
  { right. rewrite H1 in Hid. by injection Hid as ->. }
  left. destruct (decide (id = x)) as [-> |Hix]; [|exists b'; by rewrite <- H3].
  rewrite H2 in Hid. injection Hid as <-. by exists xb.
Qed.

(** A first tree, of blocks below [m], followed by the rest. *)
Lemma built_cons (x m n n' : nat) (xb : kblock) (h hm h' : kheap) (t : lt) (it : titem) (its : list titem) (ts : list lt) :
  n <= m -> h !! x = Some xb -> x < n -> rep hm (Some x) t -> leafy t -> forget t = it -> NoDup (lids t) ->
  Forall (fun i => n <= i < m) (lids t) -> (forall i, i < n -> i <> x -> hm !! i = h !! i) ->
  (forall id b s, hm !! id = Some b -> k_name b = Some s ->
     (exists b0, h !! id = Some b0 /\ k_name b0 = Some s) \/ low s ∈ tnames it) ->
  built x (set_kids xb (k_kids xb ++ [lid t])) hm m its h' n' ts -> built x xb h n (it :: its) h' n' (t :: ts).
Proof.
  intros Hnm Hx Hxn Ht Hlf Hf Hnd Hr Hfr Hnames (B1 & B2 & B3 & B4 & B5 & B6 & B7 & B8 & B9 & B10).
  rewrite Forall_forall in Hr. unfold built. split_and!.
  - lia.
  - done.
  - rewrite B3. cbn. do 2 f_equal. by rewrite <- app_assoc.
  - intros i H1 H2. rewrite B4 by lia. by apply Hfr.
  - constructor; [|done]. eapply rep_frame; [exact Ht|]. intros i Hi%Hr. apply B4; lia.
  - by constructor.
  - cbn. by rewrite Hf, B7.
  - cbn [map concat]. apply NoDup_app. split_and!; [done| |done]. intros i Hi%Hr Hi2. rewrite Forall_forall in B9. specialize (B9 i Hi2). lia.
  - cbn [map concat]. rewrite Forall_forall in *. intros i [Hi|Hi]%elem_of_app; [specialize (Hr i Hi)|specialize (B9 i Hi)]; lia.
  - intros id b s Hid Hs. cbn [map concat]. rewrite elem_of_app. destruct (B10 id b s Hid Hs) as [(b0 & H1 & H2)|]; [|tauto].
    destruct (Hnames id b0 s H1 H2); tauto.
Qed.

Lemma build_spec (its : list titem) (evs : list tev) : flats its evs -> forall x xb h n to de le dep,
  h !! x = Some xb -> heap_up h n -> is_Some (h !! to) -> (0 <= le)%Z -> NoDup (concat (map tnames its)) ->
  (forall id b s, h !! id = Some b -> k_name b = Some s -> low s ∉ concat (map tnames its)) ->
  exists h' n' ts, run_evs evs (mkPp h n (Some x) to de le 0 dep) = (mkPp h' n' (Some x) to de le 0 dep, Ok tt) /\
    built x xb h n its h' n' ts.
Proof.
  induction 1 as [|t its evs _ IH|nm ks o its evk evs _ IHk Ho _ IH]; intros x xb h n to de le dep Hx Hu Hto Hle Hnd Hn.
  - exists h, n, []. split; [done|]. unfold built. cbn. rewrite app_nil_r. destruct (Hu x xb Hx).
    split_and!; try done; try constructor. + by destruct xb. + by eauto.
  - destruct (Hu x xb Hx) as [Hxn _]. destruct (text_spec t x xb h n to de le 0 dep Hx Hxn (or_intror eq_refl)) as (h1 & E1 & Ha).
    pose proof Ha as (A1 & A2 & A3). rewrite (run_evs_cons _ _ _ _ E1).
    assert (is_Some (h1 !! to)) as Hto1.
    { destruct (decide (to = n)) as [-> |]; [by rewrite A1|]. destruct (decide (to = x)) as [-> |]; [by rewrite A2|]. by rewrite A3. }
    destruct (IH x _ h1 (S n) to de le dep A2 (added_up _ _ _ _ _ _ Hu Hx Ha eq_refl) Hto1 Hle Hnd) as (h' & n' & ts & E & Hb).
    { intros id b s Hid Hs. destruct (added_names _ _ _ _ _ _ Hx Ha id b s Hid Hs) as [(b0 & ? & ?)|[_ [=]]]. by eapply Hn. }
    exists h', n', (LT n None t [] :: ts). split; [exact E|].
    apply (built_cons x (S n) n n' xb h h1 h'); try done; [lia|by apply (rep_node _ _ None)|by constructor|by apply NoDup_singleton|..].
    + apply Forall_singleton. lia.
    + intros i Hi Hne. apply A3; lia.
    + intros id b s Hid Hs. left. destruct (added_names _ _ _ _ _ _ Hx Ha id b s Hid Hs) as [?|[_ [=]]]. done.
  - destruct (Hu x xb Hx) as [Hxn _]. cbn [map concat tnames] in Hnd, Hn. cbn [app] in Hnd, Hn.
    apply NoDup_cons in Hnd as [Hnm Hnd]. apply NoDup_app in Hnd as (N1 & N2 & N3). rewrite elem_of_app in Hnm.
    destruct (block_spec nm x xb h n to de le dep Hx Hu Hto) as (h1 & E1 & Ha).
    { intros id b s Hid Hs Heq. apply (Hn id b s Hid Hs). rewrite Heq. left. }
    pose proof Ha as (A1 & A2 & A3). rewrite (run_evs_cons _ _ _ _ E1).
    assert (is_Some (h1 !! to)) as Hto1.
    { destruct (decide (to = n)) as [-> |]; [by rewrite A1|]. destruct (decide (to = x)) as [-> |]; [by rewrite A2|]. by rewrite A3. }
    destruct (IHk n _ h1 (S n) to de (le + 1)%Z dep A1 (added_up _ _ _ _ _ _ Hu Hx Ha eq_refl) Hto1 ltac:(lia) N1)
      as (h2 & n2 & tk & E2 & Hb2).
    { intros id b s Hid Hs Hin. destruct (added_names _ _ _ _ _ _ Hx Ha id b s Hid Hs) as [(b0 & H1 & H2)|[_ [= <-]]]; [|tauto].
      apply (Hn id b0 s H1 H2). right. apply elem_of_app. by left. }
    rewrite (run_evs_app _ _ _ _ E2). pose proof Hb2 as (B1 & B2 & B3 & B4 & B5 & B6 & B7 & B8 & B9 & B10).
    rewrite (run_evs_cons _ _ _ _ (endblock_spec o n _ nm h2 n2 to de (le + 1)%Z dep B3 eq_refl Ho ltac:(lia))).
    cbn [set_kids k_parent]. replace (le + 1 - 1)%Z with le by lia.
    assert (h2 !! x = Some (set_kids xb (k_kids xb ++ [n]))) as Hx2 by (rewrite B4 by lia; exact A2).
    assert (is_Some (h2 !! to)) as Hto2.
    { destruct (decide (to = n)) as [-> |]; [by rewrite B3|]. destruct Hto1 as [tb Htb].
      destruct (added_up _ _ _ _ _ _ Hu Hx Ha eq_refl to tb Htb) as [? _]. rewrite B4 by lia. by eexists. }
    destruct (IH x _ h2 n2 to de le dep Hx2 B2 Hto2 Hle N3) as (h' & n' & ts & E & Hb).
    { intros id b s Hid Hs Hin. destruct (B10 id b s Hid Hs) as [(b0 & H1 & H2)|Hk]; [|by apply (N2 _ Hk)].
      destruct (added_names _ _ _ _ _ _ Hx Ha id b0 s H1 H2) as [(b1 & H3 & H4)|[_ [= <-]]]; [|tauto].
      apply (Hn id b1 s H3 H4). right. apply elem_of_app. by right. }
    exists h', n', (LT n (Some nm) [] tk :: ts). split; [exact E|].
    assert (n ∉ concat (map lids tk)) as Hni by (rewrite Forall_forall in B9; intros Hi; specialize (B9 n Hi); lia).
    apply (built_cons x n2 n n' xb h h2 h'); try done; [lia| |by constructor| | | | |].
    + apply (rep_node _ _ None); [rewrite B3; done|]. done.
    + cbn. by rewrite B7.
    + cbn [lids]. by constructor.
    + cbn [lids]. constructor; [lia|]. eapply Forall_impl; [exact B9|]. simpl. lia.
    + intros i Hi Hne. rewrite B4 by lia. apply A3; lia.
    + intros id b s Hid Hs. cbn [tnames]. destruct (B10 id b s Hid Hs) as [(b0 & H1 & H2)|Hk]; [|right; by right].
      destruct (added_names _ _ _ _ _ _ Hx Ha id b0 s H1 H2) as [?|[_ [= <-]]]; [by left|right; by left].
Qed.

(** ** Overriding blocks *)

(** The contents of a block of a child template. *)
Inductive bitem := BText (t : list byte) | BInherit.

Definition body_ev (b : bitem) : tev := match b with BText t => TeText t | BInherit => TeInherit end.

(** The first [inherit] takes what the overridden block had. *)
Fixpoint body_items (inh : list titem) (body : list bitem) : list titem :=
  match body with
  | [] => []
  | BText t :: body' => TText t :: body_items inh body'
  | BInherit :: body' => inh ++ body_items [] body'
  end.

Lemma del_all_spec (l : list nat) : del_all (length l) l = Ok [].
Proof.
  induction l as [|x l IH]; [done|]. cbn [length del_all]. rewrite u_list_del_n_spec by (simpl; lia). cbn. by rewrite drop_0.
Qed.

Abbreviation cids ts := (concat (map lids ts)).

Lemma root_in (t : lt) (ts : list lt) : t ∈ ts -> lid t ∈ cids ts.
Proof.
  intros H. apply list_elem_of_In, in_concat. exists (lids t). split; [apply in_map; by apply list_elem_of_In|].
  apply list_elem_of_In, lid_in.
Qed.

(** The trees [R] move below [b]. *)
Lemma push_all_spec (b old : nat) (R : list lt) : forall h n bb cu to de le ex dep,
  h !! b = Some bb -> Forall (rep h (Some old)) R -> NoDup (b :: cids R) ->
  exists h', push_all b (map lid R) (mkPp h n cu to de le ex dep) = (mkPp h' n cu to de le ex dep, Ok tt) /\
    h' !! b = Some (set_kids bb (k_kids bb ++ map lid R)) /\ Forall (rep h' (Some b)) R /\
    forall i, i <> b -> (i ∉ map lid R) -> h' !! i = h !! i.
Proof.
  induction R as [|k R IH]; intros h n bb cu to de le ex dep Hb HR Hnd.
  { exists h. split_and!; try done. cbn. rewrite app_nil_r. by destruct bb. }
  apply Forall_cons in HR as [Hk HR]. apply NoDup_cons in Hnd as [Hbn Hnd]. cbn [map concat] in Hbn, Hnd.
  apply NoDup_app in Hnd as (N1 & N2 & N3). rewrite elem_of_app in Hbn.
  inversion Hk as [? anc id nm buf ks Hh Hks]; subst k. assert (b <> id) as Hbi by (intros ->; apply Hbn; left; left).
  cbn [map push_all lid]. set (h1 := <[id := mkK nm buf (Some b) anc (map lid ks)]> (<[b := set_kids bb (k_kids bb ++ [id])]> h)).
  assert (forall i, i <> b -> i <> id -> h1 !! i = h !! i) as Hf1 by (intros; unfold h1; by rewrite !lookup_insert_ne by done).
  assert (h1 !! b = Some (set_kids bb (k_kids bb ++ [id]))) as Hb1.
  { unfold h1. rewrite lookup_insert_ne by done. by rewrite lookup_insert_eq. }
  cbn [lids] in N1. apply NoDup_cons in N1 as [Nid N1].
  destruct (IH h1 n _ cu to de le ex dep Hb1) as (h' & E & B1 & B2 & B3).
  { eapply rep_frame_list; [exact HR|]. intros i Hi. apply Hf1; intros ->; [tauto|]. apply (N2 id); [left|done]. }
  { apply NoDup_cons. tauto. }
  exists h'. rewrite (pbind_Ok _ _ _ (mkPp h1 n cu to de le ex dep) tt).
  2: { erewrite push_spec; [|exact Hb|exact Hh|done]. cbn. done. }
  split_and!; [exact E|rewrite B1; cbn; by rewrite <- app_assoc| |].
  - constructor; [|done]. assert (rep h1 (Some b) (LT id nm buf ks)) as Hr1.
    { apply (rep_node _ _ anc); [unfold h1; by rewrite lookup_insert_eq|]. eapply rep_frame_list; [exact Hks|].
      intros i Hi. apply Hf1; intros ->; [apply Hbn; left; by right|done]. }
    eapply rep_frame; [exact Hr1|]. intros i Hi. apply B3; [intros ->; tauto|].
    intros (k & -> & Hk')%list_elem_of_fmap. apply (N2 (lid k) Hi). by apply root_in.
  - intros i H1 H2. rewrite not_elem_of_cons in H2. destruct H2 as [H2 H3]. rewrite B3 by done. by apply Hf1.
Qed.

(** The state inside a block [b] that overrides [old]: [K] is what it has, [R] what can be inherited. *)
Record in_body (h : kheap) (n b : nat) (bb : kblock) (old : nat) (K R : list lt) : Prop := {
  ib_b : h !! b = Some (set_kids bb (map lid K));
  ib_anc : k_anc bb = Some old;
  ib_old : exists ob, h !! old = Some ob /\ k_kids ob = map lid R;
  ib_K : Forall (rep h (Some b)) K;
  ib_R : Forall (rep h (Some old)) R;
  ib_leafy : Forall leafy K /\ Forall leafy R;
  ib_nodup : NoDup (b :: old :: cids K ++ cids R);
  ib_lt : Forall (fun i => i < n) (b :: old :: cids K ++ cids R)
}.

Lemma inherit_spec (h : kheap) (n b old : nat) (bb : kblock) (K R : list lt) to de le ex dep : in_body h n b bb old K R ->
  exists h', exec_ev TeInherit (mkPp h n (Some b) to de le ex dep) = (mkPp h' n (Some b) to de le ex dep, Ok tt) /\
    in_body h' n b bb old (K ++ R) [] /\ forall i, i <> b -> i <> old -> (i ∉ cids R) -> h' !! i = h !! i.
Proof.
  intros [Hb Hanc (ob & Hold & Hok) HK HR [LK LR] Hnd Hlt].
  apply NoDup_cons in Hnd as [N1 Hnd]. apply NoDup_cons in Hnd as [N2 Hnd]. apply NoDup_app in Hnd as (NK & NKR & NR).
  rewrite not_elem_of_cons, not_elem_of_app in N1. destruct N1 as (Nbo & NbK & NbR).
  rewrite not_elem_of_app in N2. destruct N2 as (NoK & NoR).
  destruct (push_all_spec b old R h n _ (Some b) to de le ex dep Hb HR) as (h1 & E & B1 & B2 & B3); [by apply NoDup_cons|].
  assert (old ∉ map lid R) as Hor by (intros (k & -> & Hk)%list_elem_of_fmap; by apply NoR, root_in).
  set (h' := <[old := set_kids ob []]> h1). exists h'.
  assert (forall i, i <> b -> i <> old -> (i ∉ cids R) -> h' !! i = h !! i) as Hf.
  { intros i H1 H2 H3. unfold h'. rewrite lookup_insert_ne by done. apply B3; [done|].
    intros (k & -> & Hk)%list_elem_of_fmap. by apply H3, root_in. }
  split_and!; [|constructor|exact Hf].
  - cbn [exec_ev]. unfold process_directive_inherit, get_block. erewrite (pbind_Ok pget) by reflexivity. cbn [pp_cur].
    erewrite (pbind_Ok (pret _)) by reflexivity. erewrite pbind_Ok by (cbn; rewrite Hb; reflexivity). cbn [k_anc set_kids]. rewrite Hanc.
    erewrite (pbind_Ok (pret _)) by reflexivity. erewrite pbind_Ok by (cbn; rewrite Hold; reflexivity). rewrite Hok, (pbind_Ok _ _ _ _ _ E).
    erewrite pbind_Ok by (cbn; rewrite B3, Hold by done; reflexivity). rewrite Hok, u_list_count_spec, del_all_spec.
    by erewrite pbind_Ok by reflexivity.
  - unfold h'. rewrite lookup_insert_ne by congruence. rewrite B1. cbn. by rewrite map_app.
  - done.
  - exists (set_kids ob []). split; [|done]. unfold h'. by rewrite lookup_insert_eq.
  - apply Forall_app. split; eapply rep_frame_list; [exact HK| |exact B2|].
    + intros i Hi. apply Hf; [intros ->; done|intros ->; done|by apply NKR].
    + intros i Hi. unfold h'. rewrite lookup_insert_ne; [done|]. intros <-. done.
  - constructor.
  - split; [by apply Forall_app|constructor].
  - rewrite map_app, concat_app, app_nil_r. apply NoDup_cons. rewrite not_elem_of_cons, not_elem_of_app.
    split; [done|]. apply NoDup_cons. rewrite not_elem_of_app. split; [done|]. by apply NoDup_app.
  - by rewrite map_app, concat_app, app_nil_r.
Qed.

Lemma text_in_body (t : list byte) (h : kheap) (n b old : nat) (bb : kblock) (K R : list lt) to de le ex dep :
  in_body h n b bb old K R -> b <> to ->
  exists h', exec_ev (TeText t) (mkPp h n (Some b) to de le ex dep) = (mkPp h' (S n) (Some b) to de le ex dep, Ok tt) /\
    in_body h' (S n) b bb old (K ++ [LT n None t []]) R /\ forall i, i < n -> i <> b -> h' !! i = h !! i.
Proof.
  intros [Hb Hanc (ob & Hold & Hok) HK HR [LK LR] Hnd Hlt] Hto. pose proof Hlt as Hlt'. rewrite Forall_forall in Hlt'.
  assert (b < n) as Hbn by (apply Hlt'; left). assert (old < n) as Hon by (apply Hlt'; right; left).
  assert (old <> b) as Hob by (intros ->; apply NoDup_cons in Hnd as [Hnd _]; apply Hnd; left).
  assert (forall i, i ∈ cids K -> i < n /\ i <> b) as HiK.
  { intros i Hi. split; [apply Hlt'; do 2 right; apply elem_of_app; by left|]. intros ->. apply NoDup_cons in Hnd as [Hnd _].
    apply Hnd. right. apply elem_of_app. by left. }
  assert (forall i, i ∈ cids R -> i < n /\ i <> b) as HiR.
  { intros i Hi. split; [apply Hlt'; do 2 right; apply elem_of_app; by right|]. intros ->. apply NoDup_cons in Hnd as [Hnd _].
    apply Hnd. right. apply elem_of_app. by right. }
  destruct (text_spec t b _ h n to de le ex dep Hb Hbn (or_introl Hto)) as (h' & E & A1 & A2 & A3).
  exists h'. split_and!; [exact E| |intros i H1 H2; apply A3; lia]. constructor; try done.
  - rewrite A2. cbn. by rewrite map_app.
  - exists ob. rewrite A3 by lia. done.
  - apply Forall_app. split; [|apply Forall_singleton; by apply (rep_node _ _ None)].
    eapply rep_frame_list; [exact HK|]. intros i Hi. destruct (HiK i Hi). apply A3; lia.
  - eapply rep_frame_list; [exact HR|]. intros i Hi. destruct (HiR i Hi). apply A3; lia.
  - split; [|done]. apply Forall_app. split; [done|]. apply Forall_singleton. constructor.
  - rewrite map_app, concat_app. cbn [map concat lids app]. rewrite <- app_assoc. cbn [app].
    assert (b :: old :: cids K ++ n :: cids R ≡ₚ n :: b :: old :: cids K ++ cids R) as ->.
    { rewrite <- Permutation_middle. etrans; [apply perm_skip, perm_swap|apply perm_swap]. }
    apply NoDup_cons. split; [|done]. intros Hi. specialize (Hlt' n Hi). lia.
  - rewrite map_app, concat_app. cbn [map concat lids app]. apply Forall_forall. intros i Hi.
    rewrite <- app_assoc in Hi. cbn [app] in Hi. destruct (decide (i = n)) as [-> |]; [lia|].
    enough (i < n) by lia. apply Hlt'. set_solver.
Qed.

Lemma body_spec (body : list bitem) : forall h n b old bb K R to de le ex dep, in_body h n b bb old K R -> b <> to ->
  exists h' n' K' R', run_evs (map body_ev body) (mkPp h n (Some b) to de le ex dep) = (mkPp h' n' (Some b) to de le ex dep, Ok tt) /\
    in_body h' n' b bb old K' R' /\ n <= n' /\ map forget K' = map forget K ++ body_items (map forget R) body /\
    (forall i, i ∈ cids K' -> i ∈ cids K \/ i ∈ cids R \/ n <= i) /\
    (forall i, i < n -> i <> b -> i <> old -> (i ∉ cids R) -> h' !! i = h !! i).
Proof.
  induction body as [|[t|] body IH]; intros h n b old bb K R to de le ex dep Hb Hto; cbn [map body_ev body_items].
  - exists h, n, K, R. rewrite app_nil_r. split_and!; try done. by left.
  - destruct (text_in_body t h n b old bb K R to de le ex dep Hb Hto) as (h1 & E1 & Hb1 & F1).
    rewrite (run_evs_cons _ _ _ _ E1). destruct (IH h1 (S n) b old bb _ R to de le ex dep Hb1 Hto) as (h' & n' & K' & R' & E & Hb' & Hn & Hf & Hi & F).
    exists h', n', K', R'. split_and!; [exact E|exact Hb'|lia|rewrite Hf, map_app, <- app_assoc; done| |].
    + intros i Hi'. destruct (Hi i Hi') as [H1|[H1|H1]]; [|auto|right; right; lia].
      rewrite map_app, concat_app in H1. apply elem_of_app in H1 as [H1|H1]; [by left|]. cbn in H1. right. right.
      apply elem_of_cons in H1 as [-> |H1]; [lia|by apply elem_of_nil in H1].
    + intros i H1 H2 H3 H4. rewrite F by (done || lia). by apply F1.
  - destruct (inherit_spec h n b old bb K R to de le ex dep Hb) as (h1 & E1 & Hb1 & F1).
    rewrite (run_evs_cons _ _ _ _ E1). destruct (IH h1 n b old bb _ [] to de le ex dep Hb1 Hto) as (h' & n' & K' & R' & E & Hb' & Hn & Hf & Hi & F).
    exists h', n', K', R'. split_and!; [exact E|exact Hb'|lia|rewrite Hf, map_app, <- app_assoc; done| |].
    + intros i Hi'. destruct (Hi i Hi') as [H1|[H1|H1]]; [|by apply elem_of_nil in H1|auto].
      rewrite map_app, concat_app in H1. apply elem_of_app in H1 as [H1|H1]; auto.
    + intros i H1 H2 H3 H4. rewrite F; [by apply F1|done..|]. by intros ?%elem_of_nil.
Qed.

(** The list of the parent after inserting the new block before the old one and deleting that. *)
Lemma list_swap (kids : list nat) (idx o n : nat) : kids !! idx = Some o -> NoDup kids -> (n ∉ kids) ->
  exists ins, u_list_insert kids n idx = Some ins /\
    u_list_del ins o = Some (map (fun i => if decide (i = o) then n else i) kids).
Proof.
  intros Hi Hnd Hn. pose proof (lookup_lt_Some _ _ _ Hi) as Hlt. rewrite u_list_insert_eq by lia. eexists. split; [done|].
  apply list_elem_of_split_length in Hi as (a & b & E & Hl). subst kids idx. rewrite take_app_length, drop_app_length.
  change (a ++ n :: o :: b) with (a ++ [n] ++ o :: b). rewrite app_assoc.
  apply NoDup_app in Hnd as (Na & Nab & Nb). apply NoDup_cons in Nb as [Nob Nb].
  assert (o ∉ a) as Noa by (intros Ho; apply (Nab o Ho); left).
  assert (n <> o) as Hno by (intros ->; apply Hn, elem_of_app; right; left).
  rewrite u_list_del_spec; [|intros [Ho|Ho]%elem_of_app; [done|apply list_elem_of_singleton in Ho; congruence]].
  f_equal. rewrite map_app. cbn [map]. rewrite decide_True by done. rewrite <- app_assoc. cbn [app].
  assert (forall l, (o ∉ l) -> map (fun i => if decide (i = o) then n else i) l = l) as Hid.
  { intros l Hl. rewrite <- (map_id l) at 2. apply map_ext_in. intros i Hin%list_elem_of_In. rewrite decide_False; [done|]. by intros ->. }
  by rewrite !Hid.
Qed.

Lemma kids_nodup (h : kheap) (t : lt) : forall par p pb, rep h par t -> NoDup (lids t) -> p ∈ lids t -> h !! p = Some pb ->
  NoDup (k_kids pb) /\ forall i, i ∈ k_kids pb -> i ∈ lids t.
Proof.
  induction t as [id nm buf ks IH] using lt_rect'. intros par p pb H Hnd Hp Hpb. inversion H as [? anc ? ? ? ? Hh Hk]; subst.
  cbn [lids] in Hnd. apply NoDup_cons in Hnd as [Hni Hnd]. apply elem_of_cons in Hp as [-> |Hp].
  - rewrite Hh in Hpb. injection Hpb as <-. cbn [k_kids]. split.
    + clear -Hnd. induction ks as [|k ks IH]; [constructor|]. cbn [map concat] in *. apply NoDup_app in Hnd as (_ & N2 & N3).
      constructor; [|by apply IH]. intros (k' & E & Hk')%list_elem_of_fmap. apply (N2 (lid k)); [apply lid_in|]. rewrite E. by apply root_in.
    + intros i (k & -> & Hk')%list_elem_of_fmap. right. by apply root_in.
  - apply list_elem_of_In, in_concat in Hp as (l & Hl & Hi%list_elem_of_In). apply in_map_iff in Hl as (k & <- & Hin%list_elem_of_In).
    rewrite Forall_forall in *. destruct (IH k Hin _ p pb (Hk k Hin) (kid_nodup k ks Hin Hnd) Hi Hpb) as [H1 H2]. split; [done|]. intros i Hi'.
    apply (kid_ids k (LT id nm buf ks)); [done|by apply H2].
Qed.

Lemma nodup_bound (l : list nat) (n : nat) : NoDup l -> Forall (fun i => i < n) l -> length l <= n.
Proof.
  intros Hnd Hl. rewrite <- (length_seq n 0). apply submseteq_length, NoDup_submseteq; [done|].
  intros i Hi. rewrite Forall_forall in Hl. apply elem_of_seq. specialize (Hl i Hi). lia.
Qed.

(** A block of a child template whose name is found takes the place of the old one. *)
Lemma override_spec (name : list byte) (h : kheap) (n : nat) (T old : lt) de dep :
  rep h None T -> NoDup (lids T) -> Forall (fun i => i < n) (lids T) -> lfind name T = Some old ->
  exists h1 p pb, exec_ev (TeBlock name) (mkPp h n (Some (lid T)) (lid T) de 0 1 dep) = (mkPp h1 (S n) (Some n) (lid T) de 1 2 dep, Ok tt) /\
    rep h (Some p) old /\ p ∈ lids T /\ (p ∉ lids old) /\ h !! p = Some pb /\
    h1 !! n = Some (mkK (Some name) [] (Some p) (Some (lid old)) []) /\
    h1 !! p = Some (set_kids pb (map (fun i => if decide (i = lid old) then n else i) (k_kids pb))) /\
    forall i, i <> n -> i <> p -> h1 !! i = h !! i.
Proof.
  intros HT Hnd Hlt Hf. pose proof Hlt as Hlt'. rewrite Forall_forall in Hlt'.
  set (h0 := <[n := mkK (Some name) [] None None []]> h).
  assert (forall i, i <> n -> h0 !! i = h !! i) as F0 by (intros; unfold h0; by rewrite lookup_insert_ne by done).
  assert (rep h0 None T) as HT0. { eapply rep_frame; [exact HT|]. intros i Hi%Hlt'. apply F0. lia. }
  destruct (find_spec h0 name T (S (S n)) None HT0 Hnd) as (x & Ex & Hx).
  { pose proof (nodup_bound _ _ Hnd Hlt). lia. }
  unfold found_at in Hx. rewrite Hf in Hx. destruct Hx as (p & idx & pb & -> & Hrep & Hp & Hpb & Hidx & Hpo).
  destruct (kids_nodup h0 T None p pb HT0 Hnd Hp Hpb) as [Nk Hki].
  assert (n ∉ k_kids pb) as Hnk by (intros Hi%Hki%Hlt'; lia).
  destruct (list_swap _ idx (lid old) n Hidx Nk Hnk) as (ins & Eins & Edel).
  pose proof (Hlt' p Hp) as Hpn. assert (lid old < n) as Hon by (apply Hlt', Hki, list_elem_of_lookup; by exists idx).
  destruct (rep_inv _ _ _ Hrep) as (ob & Eob & Epar & _).
  set (nb := mkK (Some name) [] (Some p) (Some (lid old)) []).
  set (h1 := <[p := set_kids pb (map (fun i => if decide (i = lid old) then n else i) (k_kids pb))]>
             (<[p := set_kids pb ins]> (<[n := nb]> h0))).
  exists h1, p, pb. split_and!; [| |done|done|by rewrite <- F0 by lia| | |].
  - cbn [exec_ev]. unfold process_directive_block, pbind at 1. rewrite create_spec.
    cbn [pp_heap pp_next pp_cur pp_top pp_dead pp_lev pp_ext pp_depend]. fold h0.
    erewrite pelse_Ok; [done|]. erewrite pbind_Ok by reflexivity. cbn [set_lev pp_lev].
    erewrite (pbind_Ok pget) by reflexivity. cbn [pp_ext pp_cur pp_top]. rewrite decide_False by done.
    erewrite pbind_Ok by reflexivity. cbn [set_ext pp_ext].
    erewrite (pbind_Ok (find_block name)).
    2: { unfold find_block, pbind, pget, plift. cbn [pp_next pp_heap pp_top]. rewrite Ex. reflexivity. }
    rewrite (pbind_Ok _ _ _ (mkPp h1 (S n) (Some (lid T)) (lid T) de 1 2 dep) tt); [reflexivity|]. unfold override_block, get_block, put_block, deref, plift, pmod, pbind. cbn.
    rewrite Eob. cbn. unfold h0 at 1. rewrite lookup_insert_eq. cbn. rewrite Epar. cbn.
    rewrite lookup_insert_ne by lia. rewrite Hpb. rewrite Eins. cbn. rewrite Edel. done.
  - eapply rep_frame; [exact Hrep|]. intros i Hi. symmetry. apply F0. intros ->.
    destruct (decide (n = lid old)) as [-> |Hne]; [lia|].
    destruct (rep_closed _ _ _ _ Hrep Hi Hne) as (b & j & E & Ep & _). unfold h0 in E. rewrite lookup_insert_eq in E. by injection E as <-.
  - unfold h1. rewrite !lookup_insert_ne by lia. by rewrite lookup_insert_eq.
  - unfold h1. by rewrite lookup_insert_eq.
  - intros i H1 H2. unfold h1. rewrite !lookup_insert_ne by done. by apply F0.
Qed.

Lemma endblock_child (o : option (list byte)) (id : nat) (b : kblock) (nm : list byte) (h : kheap) (n : nat) to de dep :
  h !! id = Some b -> k_name b = Some nm -> end_ok nm o ->
  exec_ev (TeEnd o) (mkPp h n (Some id) to de 1 2 dep) = (mkPp h n (Some to) to de 0 1 dep, Ok tt).
Proof.
  intros Hb Hn Ho. cbn [exec_ev]. unfold process_directive_endblock, pbind, pget, pmod, pguard, get_block, pret. cbn.
  rewrite Hb. cbn. assert ((match o with Some s => name_is b s | None => true end) = true) as ->; [|done].
  destruct o as [m|]; [|done]. unfold name_is. rewrite Hn. unfold strcaseeq, streq. apply bool_decide_true. exact Ho.
Qed.

(** The heap holds the template [F] below [to], with the dead tree apart. *)
Definition holds (h : kheap) (n to de : nat) (F : list titem) : Prop :=
  exists T db, lid T = to /\ rep h None T /\ Forall leafy (lkids T) /\ NoDup (lids T) /\ Forall (fun i => i < n) (lids T) /\
    map forget (lkids T) = F /\ h !! de = Some db /\ (de ∉ lids T) /\ de < n.

(** Text outside the blocks of a child goes to the dead tree. *)
Lemma junk_spec (t : list byte) (h : kheap) (n to de : nat) (F : list titem) dep : holds h n to de F ->
  exists h' n', exec_ev (TeText t) (mkPp h n (Some to) to de 0 1 dep) = (mkPp h' n' (Some to) to de 0 1 dep, Ok tt) /\
    holds h' n' to de F.
Proof.
  intros (T & db & HT & Hrep & Hlf & Hnd & Hlt & HF & Hde & Hdn & Hdl).
  destruct (create_push None t de db h n (Some to) to de 0 1 dep Hde Hdl) as (h' & E & A1 & A2 & A3).
  exists h', (S n). split.
  - rewrite <- E. cbn [exec_ev]. unfold cb_pre_html_block, pbind at 1 2. rewrite create_spec. cbn.
    unfold attach, pbind at 1, pget. cbn. by rewrite decide_True.
  - pose proof Hlt as Hlt'. rewrite Forall_forall in Hlt'. exists T, (set_kids db (k_kids db ++ [n])). split_and!; try done; try lia.
    + eapply rep_frame; [exact Hrep|]. intros i Hi. apply A3; [specialize (Hlt' i Hi); lia|by intros ->].
    + eapply Forall_impl; [exact Hlt|]. simpl. lia.
Qed.

(** A block found below [T]. *)
Lemma found_sub (name : list byte) (T old : lt) : Forall leafy (lkids T) -> NoDup (lids T) -> lfind_list name (lkids T) = Some old ->
  leafy old /\ NoDup (lids old) /\ (lid T ∉ lids old) /\ forall i, i ∈ lids old -> i ∈ lids T.
Proof.
  intros Hlf Hnd Ef. pose proof (override_ok_tree name id T T Hlf Hnd) as Hok. unfold override_ok in Hok. rewrite Ef in Hok.
  destruct Hok as (_ & Hlo & _ & (rest & P0 & _) & _). destruct T as [tid nm buf ks]. cbn [lkids lids lid] in *.
  apply NoDup_cons in Hnd as [Hni Hnd]. rewrite P0 in Hni, Hnd. rewrite not_elem_of_app in Hni.
  apply NoDup_app in Hnd as (_ & _ & ?). split_and!; [done..|tauto|]. intros i Hi. right. rewrite P0. apply elem_of_app. by right.
Qed.

(** The tree with the new block [n], whose children [K] are new or come from [old]. *)
Lemma replaced_tree (name : list byte) f (T old : lt) (n n2 : nat) (K : list lt) : Forall leafy (lkids T) -> NoDup (lids T) ->
  Forall (fun i => i < n) (lids T) -> lfind_list name (lkids T) = Some old -> n <= n2 -> Forall leafy K ->
  NoDup (n :: cids K) -> Forall (fun i => i < n2) (n :: cids K) -> (forall i, i ∈ cids K -> i ∈ lids old \/ n < i) ->
  let T' := lreplace (lid old) (LT n (Some name) [] K) T in
  Forall leafy (lkids T') /\ NoDup (lids T') /\ Forall (fun i => i < n2) (lids T') /\ (forall i, i ∈ lids T' -> i ∈ lids T \/ n <= i) /\
  (map forget K = f (map forget (lkids old)) -> override name f (map forget (lkids T)) = Some (map forget (lkids T'))).
Proof.
  intros Hlf Hnd Hlt Ef Hn2 HlK HndK HltK HiK. set (nt := LT n (Some name) [] K). destruct (found_sub name T old Hlf Hnd Ef) as (_ & _ & HnT & Hsub).
  pose proof (override_ok_tree name f nt T Hlf Hnd) as Hok. unfold override_ok in Hok. rewrite Ef in Hok.
  destruct Hok as (_ & _ & _ & (rest & P1 & P2) & Hf). change (lids nt) with (n :: cids K) in P2. destruct T as [id nm buf ks]. cbn [lkids lid lids lreplace] in *.
  fold (repl (lid old) nt) in *. change (map (fun k => if decide (lid k = lid old) then nt else lreplace (lid old) nt k) ks) with (map (repl (lid old) nt) ks).
  rewrite Forall_forall in Hlt. apply NoDup_cons in Hnd as [Hni Hnd]. rewrite P1 in Hnd. apply NoDup_app in Hnd as (NR & HR & _).
  assert (forall i, i ∈ rest -> i ∈ cids ks) as Hrest by (intros i Hi; rewrite P1; apply elem_of_app; by left).
  assert (forall i, i ∈ id :: rest ++ n :: cids K -> i ∈ id :: cids ks \/ n <= i) as HT'.
  { intros i [-> |[Hi|Hi]%elem_of_app]%elem_of_cons; [left; left|left; right; by apply Hrest|].
    apply elem_of_cons in Hi as [-> |Hi]; [by right|]. destruct (HiK i Hi) as [Ho|]; [left; by apply Hsub|right; lia]. }
  split_and!.
  - rewrite Forall_forall in *. intros x (k & -> & Hk)%list_elem_of_fmap. unfold repl.
    assert (leafy nt) by (constructor; by apply Forall_forall). case_decide; [done|]. apply lreplace_leafy; [done|by apply Hlf].
  - rewrite P2. apply NoDup_cons. split.
    + rewrite elem_of_app, elem_of_cons. specialize (Hlt id ltac:(left)). intros [Hi|[Hi|Hi]]; [by apply Hni, Hrest|lia|].
      destruct (HiK _ Hi); [done|lia].
    + apply NoDup_app. split_and!; [done| |done]. intros i Hi. specialize (Hlt i ltac:(right; by apply Hrest)). rewrite elem_of_cons.
      intros [-> |Hk]; [lia|]. destruct (HiK i Hk); [by apply (HR i)|lia].
  - rewrite P2. apply Forall_forall. intros i Hi. rewrite Forall_forall in HltK.
    apply elem_of_cons in Hi as [-> |[Hi|Hi]%elem_of_app]; [specialize (Hlt id ltac:(left)); lia| |by apply HltK].
    specialize (Hlt i ltac:(right; by apply Hrest)). lia.
  - intros i. rewrite P2. apply HT'.
  - intros HK. apply Hf. cbn. by rewrite HK.
Qed.

(** The state after the tag that opens the new block. *)
Lemma opened (name : list byte) (h h1 : kheap) (n p : nat) (old : lt) : rep h (Some p) old -> leafy old -> NoDup (lids old) ->
  (forall i, i ∈ lids old -> i < n) -> (p ∉ lids old) -> h1 !! n = Some (mkK (Some name) [] (Some p) (Some (lid old)) []) ->
  (forall i, i <> n -> i <> p -> h1 !! i = h !! i) ->
  in_body h1 (S n) n (mkK (Some name) [] (Some p) (Some (lid old)) []) (lid old) [] (lkids old).
Proof.
  intros Hro Hlo NO Hon Hpo Hn1 F1. destruct (rep_inv _ _ _ Hro) as (ob & Eob & _ & Ekids & _ & Hks).
  assert (forall i, i ∈ lids old -> h1 !! i = h !! i) as Fo by (intros i Hi; specialize (Hon i Hi); apply F1; [lia|by intros ->]).
  constructor; try done.
  - exists ob. by rewrite Fo by apply lid_in.
  - eapply rep_frame_list; [exact Hks|]. intros i Hi. apply Fo. destruct old; by right.
  - split; [done|]. by inversion Hlo.
  - cbn [map concat app]. change (lid old :: cids (lkids old)) with (lids (LT (lid old) None [] (lkids old))).
    apply NoDup_cons. destruct old as [id nm buf ks]. cbn [lid lkids lids] in *. split; [|done]. intros Hi. specialize (Hon n Hi). lia.
  - cbn [map concat app]. constructor; [lia|]. apply Forall_forall. intros i Hi. enough (i < n) by lia. apply Hon. by destruct old.
Qed.

(** One block of a child template overrides the first block of its name. *)
Lemma child_block_spec (name : list byte) (body : list bitem) (o : option (list byte)) (h : kheap) (n to de : nat) (F F' : list titem) dep :
  holds h n to de F -> end_ok name o -> override name (fun ks => body_items ks body) F = Some F' ->
  exists h' n', run_evs (TeBlock name :: map body_ev body ++ [TeEnd o]) (mkPp h n (Some to) to de 0 1 dep) =
      (mkPp h' n' (Some to) to de 0 1 dep, Ok tt) /\ holds h' n' to de F'.
Proof.
  intros (T & db & <- & Hrep & Hlf & Hnd & Hlt & <- & Hde & Hdn & Hdl) Ho Hov.
  pose proof Hlt as Hlt'. rewrite Forall_forall in Hlt'. assert (lfind name T = lfind_list name (lkids T)) as Elf by (by destruct T).
  destruct (lfind_list name (lkids T)) as [old|] eqn:Ef.
  2: { pose proof (override_ok_tree name (fun ks => body_items ks body) T T Hlf Hnd) as Hok. unfold override_ok in Hok. rewrite Ef in Hok. congruence. }
  destruct (override_spec name h n T old de dep Hrep Hnd Hlt Elf) as (h1 & p & pb & E1 & Hro & Hp & Hpo & Hpb & Hn1 & Hp1 & F1).
  destruct (found_sub name T old Hlf Hnd Ef) as (Hlo & NO & HnT & Hsub).
  assert (forall i, i ∈ lids old -> i < n) as Hon by (intros i Hi; by apply Hlt', Hsub).
  assert (forall i, i ∈ cids (lkids old) -> i ∈ lids old) as Hko by (intros i Hi; destruct old; by right).
  pose proof (opened name h h1 n p old Hro Hlo NO Hon Hpo Hn1 F1) as Hib.
  assert (n <> lid T) as HnT' by (intros ->; specialize (Hlt' (lid T) (lid_in T)); lia).
  destruct (body_spec body h1 (S n) n (lid old) _ [] (lkids old) (lid T) de 1%Z 2%Z dep Hib HnT') as
    (h2 & n2 & K & R2 & E2 & [Hb2 _ _ HK2 _ [LK2 _] Nd2 Lt2] & Hn2 & Hf2 & Hi2 & F2).
  exists h2, n2. split.
  { rewrite (run_evs_cons _ _ _ _ E1), (run_evs_app _ _ _ _ E2).
    by rewrite (run_evs_cons _ _ _ _ (endblock_child o n _ name h2 n2 (lid T) de dep Hb2 eq_refl Ho)). }
  apply NoDup_cons in Nd2 as [Nn Nd2]. apply NoDup_cons in Nd2 as [_ Nd2]. apply NoDup_app in Nd2 as (NK & _ & _).
  rewrite Forall_forall in Lt2.
  destruct (replaced_tree name (fun ks => body_items ks body) T old n n2 K) as (R1 & R3 & R4 & R5 & R6); try done; try lia.
  { apply NoDup_cons. split; [set_solver|done]. }
  { apply Forall_forall. intros i Hi. apply Lt2. set_solver. }
  { intros i Hi. destruct (Hi2 i Hi) as [H1|[H1|H1]]; [by apply elem_of_nil in H1|left; by apply Hko|right; lia]. }
  assert (forall i, i < n -> (i ∉ lids old) -> i <> p -> h2 !! i = h !! i) as Fr.
  { intros i Hi Hio Hip. rewrite F2; [by apply F1; lia|lia|lia|by intros ->; apply Hio, lid_in|]. intros Hk. by apply Hio, Hko. }
  exists (lreplace (lid old) (LT n (Some name) [] K) T), db. split_and!; try done; try lia.
  - apply lreplace_lid.
  - apply (replace_rep h h2 old _ p pb); try done.
    + apply (rep_node _ _ (Some (lid old))); [rewrite Hb2; done|done].
    + specialize (Hlt' p Hp). rewrite F2; [exact Hp1|lia|lia|by intros ->; apply Hpo, lid_in|intros Hk; by apply Hpo, Hko].
    + intros i Hi Hip Hio. apply Fr; [by apply Hlt'|done..].
  - rewrite R6 in Hov by done. by injection Hov.
  - rewrite Fr; [done|done| |by intros ->]. intros Hi. by apply Hdn, Hsub.
  - intros Hi. destruct (R5 de Hi); [done|lia].
Qed.

(** The overriding blocks of a child template, in order. *)
Abbreviation overrides := (list (list byte * list bitem)).

Fixpoint apply_overrides (O : overrides) (F : list titem) : option (list titem) :=
  match O with
  | [] => Some F
  | (name, body) :: O' =>
      match override name (fun ks => body_items ks body) F with Some F' => apply_overrides O' F' | None => None end
  end.

Inductive cflats : overrides -> list tev -> Prop :=
| cflats_nil : cflats [] []
| cflats_text t O evs : cflats O evs -> cflats O (TeText t :: evs)
| cflats_block name body o O evs : end_ok name o -> cflats O evs ->
    cflats ((name, body) :: O) (TeBlock name :: map body_ev body ++ TeEnd o :: evs).

Lemma child_spec (O : overrides) (evs : list tev) : cflats O evs -> forall h n to de F F' dep,
  holds h n to de F -> apply_overrides O F = Some F' ->
  exists h' n', run_evs evs (mkPp h n (Some to) to de 0 1 dep) = (mkPp h' n' (Some to) to de 0 1 dep, Ok tt) /\
    holds h' n' to de F'.
Proof.
  induction 1 as [|t O evs _ IH|name body o O evs Ho _ IH]; intros h n to de F F' dep Hh HF.
  - injection HF as <-. by exists h, n.
  - destruct (junk_spec t h n to de F dep Hh) as (h1 & n1 & E1 & H1). rewrite (run_evs_cons _ _ _ _ E1). by apply (IH h1 n1 to de F).
  - cbn [apply_overrides] in HF. destruct (override _ _ F) as [F1|] eqn:Eo; [|done].
    destruct (child_block_spec name body o h n to de F F1 dep Hh Ho Eo) as (h1 & n1 & E1 & H1).
    destruct (IH h1 n1 to de F1 F' dep H1 HF) as (h' & n' & E & H'). exists h', n'. split; [|done].
    replace (TeBlock name :: map body_ev body ++ TeEnd o :: evs) with ((TeBlock name :: map body_ev body ++ [TeEnd o]) ++ evs)
      by (cbn; by rewrite <- app_assoc).
    by rewrite (run_evs_app _ _ _ _ E1).
Qed.

(** A base template from the start. *)
Lemma create_ctx : exists h, ppctx_create = Ok (mkPp h 2 (Some 0) 0 1 0 0 []) /\ h !! 0 = Some (mkK None [] None None []) /\
  h !! 1 = Some (mkK None [] (Some 0) None []) /\ forall i, 1 < i -> h !! i = None.
Proof.
  unfold ppctx_create. rewrite create_spec. cbv iota. rewrite create_spec. cbn [pp_heap pp_next]. rewrite lookup_insert_eq.
  eexists. split; [reflexivity|].
  split_and!; [by rewrite !lookup_insert_ne by done; rewrite lookup_insert_eq|by rewrite lookup_insert_eq|].
  intros i Hi. rewrite !lookup_insert_ne by lia. apply lookup_empty.
Qed.

Lemma base_spec (F : list titem) (evs : list tev) : flats F evs -> NoDup (concat (map tnames F)) ->
  exists c, ppctx_create = Ok c /\ pp_lev c = 0%Z /\ pp_ext c = 0%Z /\ pp_depend c = [] /\
    forall dep, exists h' n', run_evs evs (set_depend c dep) = (mkPp h' n' (Some 0) 0 1 0 0 dep, Ok tt) /\ holds h' n' 0 1 F.
Proof.
  intros Hf Hnd. destruct create_ctx as (h & Ec & H0 & H1 & H2). eexists. split; [exact Ec|]. split_and!; [done..|]. intros dep.
  destruct (build_spec F evs Hf 0 _ h 2 0 1 0%Z dep H0) as (h' & n' & ts & E & B1 & B2 & B3 & B4 & B5 & B6 & B7 & B8 & B9 & _); try done.
  - intros id b Hb. destruct id as [|[|id]]; [rewrite H0 in Hb|rewrite H1 in Hb|rewrite H2 in Hb by lia; done]; injection Hb as <-;
      (split; [lia|constructor]).
  - intros id b s Hb Hs. destruct id as [|[|id]]; [rewrite H0 in Hb|rewrite H1 in Hb|rewrite H2 in Hb by lia; done]; by injection Hb as <-.
  - exists h', n'. split; [exact E|]. rewrite Forall_forall in B9. exists (LT 0 None [] ts), (mkK None [] (Some 0) None []). cbn [lid lids lkids].
    split_and!; try done; try lia.
    + by apply (rep_node _ _ None).
    + apply NoDup_cons. split; [|done]. intros Hi. specialize (B9 0 Hi). lia.
    + constructor; [lia|]. apply Forall_forall. intros i Hi. specialize (B9 i Hi). lia.
    + rewrite B4 by lia. exact H1.
    + rewrite not_elem_of_cons. split; [done|]. intros Hi. specialize (B9 1 Hi). lia.
Qed.

(** ** Printing the tree *)

Section print.
Context {D C : Type} {DO : DevOps D} {DK : DevSink D} {CO : CodecOps C}.
Variable fuel : nat.

Lemma print_kids_prints (rec : nat -> prog (io D C) unit) (ks : list lt) :
  Forall (fun k => prints fuel (rec (lid k)) (render (forget k))) ks ->
  prints fuel (print_kids rec (map lid ks)) (concat (map render (map forget ks))).
Proof. induction 1 as [|k ks Hk _ IH]; [apply prints_ret|]. cbn [map concat print_kids]. by apply prints_seq. Qed.

Lemma print_prints (h : kheap) (t : lt) : forall (m : nat) (par : option nat), rep h par t -> leafy t -> length (lids t) <= m ->
  prints fuel (ppctx_print_kblock fuel m h (lid t)) (render (forget t)).
Proof.
  induction t as [id nm buf ks IH] using lt_rect'. intros m par H Hlf Hm. inversion H as [? anc ? ? ? ? Hh Hk]; subst.
  destruct m as [|m]; [cbn in Hm; lia|]. cbn [ppctx_print_kblock lid]. rewrite Hh. cbn [k_name k_buf k_kids].
  inversion Hlf as [|? n ? ? Hlk]; subst; cbn [forget render].
  - case_decide as Hb; [rewrite Hb; apply prints_ret|]. rewrite <- (app_nil_r buf) at 2. apply prints_seq; auto with prints.
  - apply print_kids_prints. cbn [lids length] in Hm. apply le_S_n in Hm. rewrite Forall_forall in *. intros k Hin.
    apply (IH k Hin m (Some id)); [by apply Hk|by apply Hlk|].
    etrans; [|exact Hm]. apply list_elem_of_split in Hin as (a & b & ->). rewrite map_app, concat_app, length_app. cbn [map concat].
    rewrite length_app. lia.
Qed.

Lemma ppctx_print_prints (h : kheap) (n to de : nat) (F : list titem) cu le ex dep : holds h n to de F ->
  prints fuel (ppctx_print fuel (mkPp h n cu to de le ex dep)) (concat (map render F)).
Proof.
  intros (T & db & <- & Hrep & Hlf & Hnd & Hlt & <- & _). unfold ppctx_print. cbn [pp_heap pp_top pp_next].
  destruct (rep_inv _ _ _ Hrep) as (b & -> & _ & -> & _ & Hks). apply print_kids_prints.
  rewrite Forall_forall in Hks, Hlf |- *. intros k Hin. apply (print_prints h k (S n) (Some (lid T))); [by apply Hks|by apply Hlf|].
  pose proof (nodup_bound _ _ Hnd Hlt) as Hb. destruct T as [id nm buf ks]. cbn [lkids] in Hin. cbn [lids length] in Hb.
  apply list_elem_of_split in Hin as (a & c & ->). rewrite map_app, concat_app, length_app in Hb. cbn [map concat] in Hb.
  rewrite length_app in Hb. lia.
Qed.
End print.
End build.

(** ** Pages *)

(** The event that a directive line is. *)
Definition dir_ev (line : list byte) : option tev :=
  match strtok_r is_blank line with
  | None => None
  | Some (tok, rest) =>
      let name := fst <$> strtok_r is_blank_quote rest in
      if strcaseeq tok (bs "include") || strcaseeq tok (bs "extends") then None
      else if strcaseeq tok (bs "block") then TeBlock <$> name
      else if strcaseeq tok (bs "endblock") then Some (TeEnd name)
      else if strcaseeq tok (bs "inherit") then Some TeInherit
      else None
  end.

(** The file that a directive line extends. *)
Definition ext_of (line : list byte) : option (list byte) :=
  match strtok_r is_blank line with
  | None => None
  | Some (tok, rest) =>
      if strcaseeq tok (bs "extends") then fst <$> strtok_r is_blank_quote rest else None
  end.

Definition one_line (t : list byte) : bool :=
  bool_decide (t <> [] /\ length t < LINE_BUFSZ - 1 /\ (x0a ∉ t) /\ (x00 ∉ t)).

(** The event that a block of a page is, for tags of one line that include no file. *)
Definition page_ev (file : list byte) (b : block) : option tev :=
  match b with
  | Html t => Some (TeText t)
  | Code ln cmd t =>
      if decide (cmd = "@"%byte) then (if one_line t then dir_ev t else None)
      else Some (TeText (code_markup file ln cmd t))
  end.

Fixpoint page_evs (file : list byte) (bl : list block) : option (list tev) :=
  match bl with
  | [] => Some []
  | b :: bl' => match page_ev file b, page_evs file bl' with Some e, Some evs => Some (e :: evs) | _, _ => None end
  end.

Section pages.
Context {L : Libu} {LS : LibuSpec L} {LM : LibuMem L} {P : Posix}.
Context {D C : Type} {DO : DevOps D} {DK : DevSink D} {CO : CodecOps C} {CI : Type} {COI : CodecOps CI}.
Variables (FILENAME_MAX fuel : nat) (fs : fsys).
Hypothesis Hfuel : 0 < fuel.

Section page.
Variable pre : io frd CI -> prog (pw (D:=D) (C:=C)) unit.
Variable file : list byte.

Abbreviation directive := (process_directive (CI:=CI) FILENAME_MAX fuel fs pre file).
Abbreviation on_code := (cb_pre_code_block (CI:=CI) FILENAME_MAX fuel fs pre file).
Abbreviation on_html := (fun buf => on_ctx (cb_pre_html_block buf)).

(** A tag of one line is one directive. *)
Lemma gets_last (i : io io_mem CI) (t : list byte) : readable i -> instream i = t -> (x0a ∉ t) -> length t < LINE_BUFSZ - 1 ->
  exists i', io_gets fuel i LINE_BUFSZ = (i', Ok t) /\ readable i' /\ instream i' = [].
Proof.
  intros Hr Hi Hnl Hl. unfold io_gets. destruct (io_get_until_spec fuel i x0a LINE_BUFSZ Hr Hfuel) as (i' & -> & R1 & R2 & _);
    [unfold LINE_BUFSZ; lia|].
  assert (line_of x0a (LINE_BUFSZ - 1) (instream i) = t) as E.
  { rewrite Hi. unfold line_of. rewrite take_ge by lia. by rewrite (proj2 (strchr_None _ _) Hnl). }
  rewrite E in *. exists i'. split_and!; [done..|]. by rewrite R2, Hi, drop_ge.
Qed.

Lemma parse_one_line (ln : nat) (t : list byte) (w w' : pw) : one_line t = true ->
  directive ln t w = (w', Ok tt) -> on_code ln "@"%byte t w = (w', Ok tt).
Proof.
  intros (Hne & Hl & Hnl & Hz)%bool_decide_eq_true E. unfold cb_pre_code_block, parse_directive. rewrite decide_True by done.
  destruct (mem_readable (C:=CI) t) as [Hr Hi]. destruct (gets_last _ t Hr Hi Hnl Hl) as (i1 & E1 & R1 & I1).
  destruct (gets_last i1 [] R1 I1) as (i2 & E2 & _); [apply not_elem_of_nil|simpl; unfold LINE_BUFSZ; lia|].
  destruct t as [|c t']; [done|]. cbn [length] in *. cbn [directive_loop]. rewrite E1, cstr_id by done.
  rewrite (pbind_Ok _ _ _ _ _ E). by rewrite E2.
Qed.

Lemma directive_ev (ln : nat) (t : list byte) (e : tev) (c c' : ppctx) (o : io D C) : dir_ev t = Some e ->
  exec_ev e c = (c', Ok tt) -> directive ln t (mkPw c o) = (mkPw c' o, Ok tt).
Proof.
  unfold dir_ev, process_directive, next_token. intros He Ex. destruct (strtok_r is_blank t) as [[tok rest]|]; [|done].
  destruct (strcaseeq tok (bs "include")); [done|]. destruct (strcaseeq tok (bs "extends")); [done|]. cbn [orb] in He.
  assert (forall m, m c = (c', Ok tt) -> on_ctx m (mkPw c o) = (mkPw c' o, Ok tt)) as Hm by (intros m E; unfold on_ctx; cbn; by rewrite E).
  destruct (strcaseeq tok (bs "block")).
  - destruct (strtok_r is_blank_quote rest) as [[nm r]|]; [|done]. injection He as <-. erewrite pbind_Ok by reflexivity. by apply Hm.
  - destruct (strcaseeq tok (bs "endblock")).
    + injection He as <-. apply Hm. destruct (strtok_r is_blank_quote rest) as [[nm r]|]; exact Ex.
    + destruct (strcaseeq tok (bs "inherit")); [|done]. injection He as <-. by apply Hm.
Qed.

(** Code other than a directive is kept as text. *)
Lemma code_ev (ln : nat) (cmd : byte) (t : list byte) (c c' : ppctx) (o : io D C) : cmd <> "@"%byte ->
  exec_ev (TeText (code_markup file ln cmd t)) c = (c', Ok tt) -> on_code ln cmd t (mkPw c o) = (mkPw c' o, Ok tt).
Proof.
  intros Hc Ex. unfold cb_pre_code_block. rewrite decide_False by done. rewrite u_string_append_eq. cbn [app].
  unfold on_ctx. cbn [pw_ctx pw_out]. erewrite pbind_Ok by reflexivity. cbn [exec_ev] in Ex. unfold cb_pre_html_block in Ex.
  apply pbind_inv in Ex as (c1 & b & E1 & E2). rewrite (pbind_Ok _ _ _ _ _ E1), (pelse_Ok _ _ _ _ _ E2). done.
Qed.

Lemma page_evs_feed (bl : list block) : forall (evs : list tev) (c c' : ppctx) (o : io D C), page_evs file bl = Some evs ->
  run_evs evs c = (c', Ok tt) -> feed_cbs on_html on_code bl (mkPw c o) = (mkPw c' o, Ok tt).
Proof.
  induction bl as [|b bl IH]; intros evs c c' o He Ex; cbn [page_evs] in He.
  { injection He as <-. injection Ex as <-. done. }
  destruct (page_ev file b) as [e|] eqn:Ee; [|done]. destruct (page_evs file bl) as [evs'|]; [|done]. injection He as <-.
  cbn [run_evs] in Ex. apply pbind_inv in Ex as (c1 & [] & E1 & E2). rewrite (feed_cbs_step _ _ b bl (mkPw c o) (mkPw c1 o)); [by apply (IH evs')|].
  destruct b as [t|ln cmd t]; cbn [page_ev block_prog] in Ee |- *.
  - injection Ee as <-. unfold on_ctx. cbn [pw_ctx pw_out]. cbn [exec_ev] in E1. by rewrite E1.
  - case_decide as Hc; [subst cmd|injection Ee as <-; by apply code_ev].
    destruct (one_line t) eqn:Eo; [|done]. apply parse_one_line; [done|]. by apply (directive_ev ln t e).
Qed.
End page.

Abbreviation overrides := (list (list byte * list bitem)).
Abbreviation pp d n := (preprocess (CI:=CI) FILENAME_MAX fuel fs d n).

(** A page that includes nothing. *)
Lemma preprocess_evs (d n : nat) (ios : io frd CI) (file : list byte) (evs : list tev) (c c' : ppctx) (o : io D C) :
  let bl := page_blocks (instream ios) in
  readable ios -> 3 * length (instream ios) + 4 <= n -> Forall small bl -> io_name_get ios FILENAME_MAX = Ok file ->
  page_evs file bl = Some evs -> run_evs evs c = (c', Ok tt) -> pp_lev c' = 0%Z ->
  pp (S d) n ios (mkPw c o) = (mkPw c' o, Ok tt).
Proof.
  intros bl Hr Hn Hs Hname He Ex Hlev. cbn [preprocess]. rewrite Hname. erewrite (pbind_Ok (plift _)) by reflexivity.
  rewrite (pbind_Ok _ _ _ _ _ (run_cbs_feeds _ _ fuel n ios _ _ Hr Hfuel Hn Hs (page_evs_feed (pp d n) file bl evs c c' o He Ex))).
  erewrite (pbind_Ok pget) by reflexivity. cbn [pw_ctx]. by rewrite Hlev.
Qed.

(** ** Child templates *)

Lemma full_path_short (file inc path : list byte) : include_file_full_path FILENAME_MAX file inc = Ok path ->
  2 <= FILENAME_MAX -> length path < FILENAME_MAX.
Proof.
  unfold include_file_full_path. destruct (strrchr file "/") as [k|]; [|done]. destruct (u_strlcat _ _ _) as [buf []]; [done|].
  intros E H2. rewrite u_strlcpy_spec in E by lia. case_bool_decide as Hb; [done|]. injection E as <-. rewrite length_take. lia.
Qed.

Lemma open_ro_spec (path base : list byte) (tm : Z) : fs !! path = Some (base, tm) -> open_ok path = true ->
  2 <= FILENAME_MAX -> length path < FILENAME_MAX ->
  exists ios : io frd CI, u_file_open_ro fs path = Ok ios /\ readable ios /\ instream ios = base /\
    io_name_get ios FILENAME_MAX = Ok path.
Proof.
  intros Hf Ho H2 Hl. unfold u_file_open_ro, io_name_set. rewrite Hf, Ho, u_alloc_ok. eexists. split; [reflexivity|].
  split_and!; [by split_and!| |].
  - unfold instream, rwin, uwin. cbn. by rewrite !mread_0.
  - unfold io_name_get. cbn. rewrite decide_False by lia. f_equal. apply take_ge. lia.
Qed.

Definition marks (ln : nat) (path file : list byte) : list byte := line_mark 1 path ++ line_mark (Z.of_nat ln) file.

(** An [extends] at the top of a page runs the base template with its path in the list of
    dependencies, between two marks, and turns to overriding. *)
Lemma extends_spec (pre : io frd CI -> prog (pw (D:=D) (C:=C)) unit) (file inc path t : list byte) (ln k : nat) (ios : io frd CI)
    (c c' : ppctx) (o : io D C) :
  ext_of t = Some inc -> ln <= 1 -> include_file_full_path FILENAME_MAX file inc = Ok path -> u_file_open_ro fs path = Ok ios ->
  (forall o1, pre ios (mkPw (set_depend c (pp_depend c ++ [path])) o1) = (mkPw c' o1, Ok tt)) -> pp_lev c' = 0%Z ->
  writable o -> room o (length (marks ln path file) + k) -> length (marks ln path file) <= fuel ->
  exists o', process_directive (CI:=CI) FILENAME_MAX fuel fs pre file ln t (mkPw c o) = (mkPw (set_ext c' (pp_ext c' + 1)) o', Ok tt) /\
    writable o' /\ room o' k /\ outstream o' = outstream o ++ marks ln path file.
Proof.
  unfold ext_of, process_directive, next_token, marks. rewrite length_app. intros He Hln Hpath Hopen Hpre Hlev Hw Hr Hl.
  destruct (prints_printf fuel (line_mark 1 path) o (length (line_mark (Z.of_nat ln) file) + k) Hw) as (o1 & [] & E1 & W1 & R1 & O1);
    [by rewrite Nat.add_assoc|lia|].
  destruct (prints_printf fuel (line_mark (Z.of_nat ln) file) o1 k W1 R1) as (o2 & [] & E2 & W2 & R2 & O2); [lia|].
  exists o2. split_and!; [|done..|by rewrite O2, O1, app_assoc].
  destruct (strtok_r is_blank t) as [[tok rest]|]; [|done]. destruct (strcaseeq tok (bs "extends")) eqn:Et; [|done].
  assert (strcaseeq tok (bs "include") = false) as ->.
  { apply not_true_iff_false. intros Hi. rewrite strcaseeq_sym in Hi. pose proof (strcaseeq_trans _ _ _ Hi Et). done. }
  destruct (strtok_r is_blank_quote rest) as [[nm r]|]; [|done]. injection He as ->. erewrite (pbind_Ok (pret _)) by reflexivity.
  rewrite bool_decide_true by done. erewrite (pbind_Ok (pguard _)) by reflexivity. rewrite Hpath. erewrite (pbind_Ok (plift _)) by reflexivity.
  erewrite pbind_Ok by (unfold on_ctx, ppctx_depend_push; cbn [pw_ctx pw_out]; rewrite u_alloc_ok, u_list_add_eq; reflexivity).
  erewrite pbind_Ok.
  2: { unfold process_directive_include. rewrite Hpath. erewrite (pbind_Ok (plift _)) by reflexivity. rewrite Hopen.
       erewrite (pbind_Ok (plift _)) by reflexivity. erewrite pbind_Ok by (unfold on_pout; cbn [pw_ctx pw_out]; rewrite E1; reflexivity).
       erewrite pbind_Ok by apply Hpre. unfold on_pout. cbn [pw_ctx pw_out]. rewrite E2. reflexivity. }
  erewrite (pbind_Ok pget) by reflexivity. cbn [pw_ctx]. rewrite Hlev. by erewrite (pbind_Ok (pguard _)) by reflexivity.
Qed.

(** The page that is the template [F], under its name. *)
Definition is_base (n : nat) (file s : list byte) (F : list titem) : Prop :=
  3 * length s + 4 <= n /\ Forall small (page_blocks s) /\ NoDup (concat (map tnames F)) /\
  exists evs, page_evs file (page_blocks s) = Some evs /\ flats F evs.

(** The page that extends [inc] with the blocks [O]. *)
Definition is_child (n ln : nat) (file s inc : list byte) (O : overrides) : Prop :=
  3 * length s + 4 <= n /\ Forall small (page_blocks s) /\
  exists t bl evs, page_blocks s = Code ln "@"%byte t :: bl /\ one_line t = true /\ ext_of t = Some inc /\
    page_evs file bl = Some evs /\ cflats O evs.

(** C10: template inheritance is substitution.  A page that extends a base template
    becomes the base with each block that the page overrides replaced by its new contents,
    in which the first [inherit] stands for what was there; text outside the blocks of the
    page is dropped and the base is a dependency of the page. *)
Theorem template_inheritance (d n ln : nat) (child : io frd CI) (file inc path base : list byte) (tm : Z)
    (F F' : list titem) (O : overrides) (tmp : io D C) :
  let out := marks ln path file ++ concat (map render F') in
  2 <= FILENAME_MAX ->
  readable child -> io_name_get child FILENAME_MAX = Ok file -> is_child n ln file (instream child) inc O -> ln <= 1 ->
  include_file_full_path FILENAME_MAX file inc = Ok path -> fs !! path = Some (base, tm) -> open_ok path = true ->
  is_base n path base F -> apply_overrides O F = Some F' ->
  writable tmp -> room tmp (length out) -> length out <= fuel ->
  exists c tmp', preprocess_page (CI:=CI) FILENAME_MAX fuel fs (S (S d)) n child tmp = (tmp', Ok c) /\
    outstream tmp' = outstream tmp ++ out /\ pp_depend c = [path].
Proof.
  intros out H2 Hr Hname (Cn & Cs & t & bl & evc & Ebl & Ht & Hext & Eevc & Hc) Hln Hpath Hfs Hopen
    (Bn & Bs & Bnd & evb & Eevb & Hb) HO Hw Hroom Hl.
  destruct (open_ro_spec path base tm Hfs Hopen H2 (full_path_short _ _ _ Hpath H2)) as (bio & Eopen & Rb & Ib & Nb).
  destruct (base_spec F evb Hb Bnd) as (c0 & Ec0 & _ & _ & Edep & Hbase). destruct (Hbase [path]) as (h1 & n1 & E1 & Hh1).
  destruct (child_spec O evc Hc h1 n1 0 1 F F' [path] Hh1 HO) as (h2 & n2 & E2 & Hh2).
  unfold out in Hroom, Hl. rewrite length_app in Hroom, Hl.
  set (c1 := mkPp h1 n1 (Some 0) 0 1 0 0 [path]) in *. set (c2 := mkPp h2 n2 (Some 0) 0 1 0 1 [path]).
  destruct (extends_spec (pp (S d) n) file inc path t ln (length (concat (map render F'))) bio c0 c1 tmp) as (o1 & Ex & W1 & R1 & O1); try done.
  { intros o1. rewrite Edep. cbn [app]. apply (preprocess_evs d n bio path evb); rewrite ?Ib; done. }
  { lia. }
  destruct (ppctx_print_prints fuel h2 n2 0 1 F' (Some 0) 0 1 [path] Hh2 o1 0 W1) as (o2 & [] & Ep & _ & _ & O2); [by rewrite Nat.add_0_r|lia|].
  exists c2, o2. split_and!; [|by rewrite O2, O1, <- app_assoc|done].
  unfold preprocess_page. rewrite Ec0. erewrite (pbind_Ok (plift _)) by reflexivity.
  assert (pp (S (S d)) n child (mkPw c0 tmp) = (mkPw c2 o1, Ok tt)) as Epp.
  { cbn [preprocess]. rewrite Hname. erewrite (pbind_Ok (plift _)) by reflexivity.
    rewrite (pbind_Ok _ _ _ (mkPw c2 o1) tt); [|apply (run_cbs_feeds _ _ fuel n child _ _ Hr Hfuel Cn Cs)].
    - by erewrite (pbind_Ok pget) by reflexivity.
    - rewrite Ebl. erewrite feed_cbs_step by (cbn [block_prog]; apply (parse_one_line _ _ _ _ _ _ Ht Ex)).
      apply (page_evs_feed _ _ bl evc); [done|exact E2]. }
  erewrite pbind_Ok by (rewrite Epp; reflexivity). rewrite (pbind_Ok _ _ _ _ _ Ep). done.
Qed.
End pages.

(** ** An example *)

#[local] Existing Instance posix_ref.

Definition base_page : list byte := bs "<h1><%@ block t %>Base<%@ endblock %></h1>".
Definition child_page : list byte :=
  bs "<%@ extends " ++ DQ ++ bs "base.kl1" ++ DQ ++ bs " %> lost <%@ block T %>New <%@ inherit %>!<%@ endblock t %>".
Definition site_fs : fsys :=
  <[bs "site/base.kl1" := (base_page, 0%Z)]> (<[bs "site/child.kl1" := (child_page, 0%Z)]> ∅).

Definition child_io : io frd no_codec :=
  match u_file_open_ro (L:=libu_ref) site_fs (bs "site/child.kl1") with Ok i => i | _ => io_prv_create (mkFrd [] 0) end.

Definition base_items : list titem := [TText (bs "<h1>"); TBlock (bs "t") [TText (bs "Base")]; TText (bs "</h1>")].
Definition child_blocks : list (list byte * list bitem) := [(bs "T", [BText (bs "New "); BInherit; BText (bs "!")])].
Definition page_items : list titem :=
  [TText (bs "<h1>"); TBlock (bs "T") [TText (bs "New "); TText (bs "Base"); TText (bs "!")]; TText (bs "</h1>")].

Lemma base_is_base : is_base (N.to_nat 300) (bs "site/base.kl1") base_page base_items.
Proof.
  split_and!; [vm_compute; lia|apply blocks_small; pose proof PARSER_BUFSZ_val; vm_compute (length base_page); lia|vm_compute; apply (bool_decide_unpack _); done|].
  eexists. split; [vm_compute; reflexivity|]. 
  apply flats_text, (flats_block _ _ None _ [_] [_]); repeat constructor.
Qed.

Lemma child_is_child : is_child (N.to_nat 300) 1 (bs "site/child.kl1") child_page (bs "base.kl1") child_blocks.
Proof.
  split_and!; [vm_compute; lia|apply blocks_small; pose proof PARSER_BUFSZ_val; vm_compute (length child_page); lia|].
  eexists _, _, _. split_and!; [vm_compute; reflexivity..|].
  apply cflats_text, (cflats_block _ [BText _; BInherit; BText _] (Some _) _ []); [done|constructor].
Qed.

Lemma template_inheritance_witness :
  exists c tmp', preprocess_page (L:=libu_ref) (CI:=no_codec) (N.to_nat 256) (N.to_nat 6000) site_fs 2 (N.to_nat 300) child_io out_sample = (tmp', Ok c) /\
    outstream tmp' = marks 1 (bs "site/base.kl1") (bs "site/child.kl1") ++ bs "<h1>New Base!</h1>".
Proof.
  destruct out_sample_ok as [Hw Ho].
  destruct (template_inheritance (L:=libu_ref) (CI:=no_codec) (N.to_nat 256) (N.to_nat 6000) site_fs ltac:(lia) 0 (N.to_nat 300) 1 child_io
    (bs "site/child.kl1") (bs "base.kl1") (bs "site/base.kl1") base_page 0 base_items page_items child_blocks out_sample) as (c & o & E & Eo & _).
  - lia.
  - by split_and!.
  - vm_compute. done.
  - exact child_is_child.
  - lia.
  - vm_compute. done.
  - vm_compute. done.
  - done.
  - exact base_is_base.
  - vm_compute. done.
  - exact Hw.
  - apply room_sample. vm_compute. done.
  - apply Nat.leb_le. vm_compute. done.
  - exists c, o. split; [exact E|]. by rewrite Eo, Ho.
Defined.

(** A page that extends a child: [pp_ext] starts at 2 and never comes back to 1, so after a
    nested block of the base is overridden the rest of the page lands in that block's
    parent instead of being dropped. *)
Definition nested_page : list byte := bs "<%@ block b %>[<%@ block i %>I<%@ endblock %>]<%@ endblock %>.".
Definition mid_page : list byte := bs "<%@ extends base.kl1 %>x".
Definition grand_page : list byte := bs "<%@ extends mid.kl1 %><%@ block i %>G<%@ endblock %> lost".
Definition deep_fs : fsys :=
  <[bs "s/base.kl1" := (nested_page, 0%Z)]> (<[bs "s/mid.kl1" := (mid_page, 0%Z)]> (<[bs "s/grand.kl1" := (grand_page, 0%Z)]> ∅)).

Definition run_page (fs : fsys) (name : list byte) : option (list byte) :=
  match u_file_open_ro (L:=libu_ref) (C:=no_codec) fs name with
  | Ok i => match preprocess_page (L:=libu_ref) (CI:=no_codec) (N.to_nat 256) (N.to_nat 6000) fs 3 (N.to_nat 300) i out_sample with
            | (o, Ok _) => Some (outstream o)
            | _ => None
            end
  | _ => None
  end.

Example grandchild_text_kept :
  (fun t => drop (length t - 9) t) <$> run_page deep_fs (bs "s/grand.kl1") = Some (bs "[G] lost.").
Proof. vm_compute. reflexivity. Qed.

(** A file cannot be included inside a block: [preprocess] of the file sees the open block. *)
Definition incl_fs : fsys :=
  <[bs "s/a.kl1" := (bs "<%@ block b %><%@ include t.txt %><%@ endblock %>", 0%Z)]> (<[bs "s/t.txt" := (bs "t", 0%Z)]> ∅).

Example include_in_block_fails : run_page incl_fs (bs "s/a.kl1") = None.
Proof. vm_compute. reflexivity. Qed.
