(* ===== verification/FixLine.v ===== *)
(** [fix_line_decl] of src/src/libtrans/translat.c: the last pass of the translator over the
    C file it has written.  Every line that holds the placeholder that the preprocessor left
    after a piece of code becomes a [#line] directive that names the C file itself.  Here
    is the loop over the lines of the file; the temporary file around it is in [Translate]. *)

From stdpp Require Import list.
From S2P Require Import Prelude Libu Encode Date Io IoSpec IoMem Getline Parser Response Md5 TransC.

Definition FIX_BUFSZ : nat := N.to_nat 1024.
Definition placeholder : list byte := bs "#line 0 __PG_FILE_C__".

Section fix_line.
Context {DI CI D C : Type} {DOI : DevOps DI} {COI : CodecOps CI} {DO : DevOps D} {CO : CodecOps C}.
Context {L : Libu}.
Variables (fuel : nat) (file_out : list byte).

(** [strstr(buf, s) != NULL] *)
Fixpoint has_str (s buf : list byte) : bool :=
  bool_decide (take (length s) buf = s) || match buf with [] => false | _ :: buf' => has_str s buf' end.

Definition line_decl (ln : Z) : list byte := bs "#line " ++ fmt_d ln ++ bs " " ++ DQ ++ file_out ++ DQ ++ NL.

Fixpoint fix_loop (n : nat) (ln : Z) (in_ : io DI CI) : prog (io D C) unit :=
  match n with
  | 0 => plift Timeout
  | S n' =>
      match io_gets fuel in_ FIX_BUFSZ with
      | (_, Ok []) | (_, Fail) => pret tt
      | (in', Ok line) =>
          let buf := cstr line in
          if has_str placeholder buf then
            pignore (oprintf fuel (line_decl (i32 (ln + 2))));;; fix_loop n' ln in'
          else
            pignore (oprintf fuel buf);;; fix_loop n' (i32 (ln + 1)) in'
      | (_, Fault) => plift Fault
      | (_, Timeout) => plift Timeout
      end
  end.

Definition fix_line_decl (n : nat) (in_ : io DI CI) : prog (io D C) unit := fix_loop n 0 in_.
End fix_line.

(** ** What the pass does to the lines of a file *)

Section fix_spec.
Context {L : Libu} {LS : LibuSpec L} {LM : LibuMem L}.
Context {DI CI D C : Type} {DOI : DevOps DI} {DSI : DevSource DI} {COI : CodecOps CI}.
Context {DO : DevOps D} {DK : DevSink D} {CO : CodecOps C}.
Variables (fuel : nat) (file_out : list byte).
Hypothesis Hfuel : 0 < fuel.

Definition file_of (ls : list (list byte)) : list byte := concat (map (fun l => l ++ [x0a]) ls).

(** A line that fits the buffer. *)
Definition c_line (l : list byte) : Prop := (x0a ∉ l) /\ (x00 ∉ l) /\ S (length l) < FIX_BUFSZ.

Definition placeholders (ls : list (list byte)) : nat := length (filter (fun l => has_str placeholder (l ++ [x0a]) = true) ls).

(** The line number [i] of a file whose first lines are [before]: a placeholder is told the
    number of the line after it less the number of placeholders before it. *)
Definition fixed_line (before : list (list byte)) (l : list byte) : list byte :=
  if has_str placeholder (l ++ [x0a])
  then line_decl file_out (Z.of_nat (length before) + 2 - Z.of_nat (placeholders before))
  else l ++ [x0a].

Fixpoint fixed_from (before ls : list (list byte)) : list (list byte) :=
  match ls with
  | [] => []
  | l :: ls' => fixed_line before l :: fixed_from (before ++ [l]) ls'
  end.

Lemma gets_line (in_ : io DI CI) (l rest : list byte) : readable in_ -> c_line l -> instream in_ = (l ++ [x0a]) ++ rest ->
  exists in', io_gets fuel in_ FIX_BUFSZ = (in', Ok (l ++ [x0a])) /\ readable in' /\ instream in' = rest.
Proof.
  intros Hr (Hn & _ & Hl) Hi. unfold io_gets.
  destruct (io_get_until_spec fuel in_ x0a FIX_BUFSZ Hr Hfuel) as (in' & -> & R1 & R2 & _); [unfold FIX_BUFSZ; lia|].
  rewrite <- app_assoc in Hi. cbn [app] in Hi. rewrite Hi in *.
  rewrite (line_of_newline _ _ _ Hn) in * by lia. exists in'. split_and!; [done..|]. by rewrite R2, drop_line.
Qed.

Lemma gets_eof (in_ : io DI CI) : readable in_ -> instream in_ = [] -> exists in', io_gets fuel in_ FIX_BUFSZ = (in', Ok []).
Proof.
  intros Hr Hi. unfold io_gets. destruct (io_get_until_spec fuel in_ x0a FIX_BUFSZ Hr Hfuel) as (in' & -> & _); [unfold FIX_BUFSZ; lia|].
  rewrite Hi. by exists in'.
Qed.

Lemma cstr_line (l : list byte) : c_line l -> cstr (l ++ [x0a]) = l ++ [x0a].
Proof. intros (_ & Hz & _). apply cstr_id. rewrite elem_of_app, list_elem_of_singleton. intros [H|H]; done. Qed.

Lemma placeholders_snoc (ls : list (list byte)) (l : list byte) :
  placeholders (ls ++ [l]) = placeholders ls + (if has_str placeholder (l ++ [x0a]) then 1 else 0).
Proof. unfold placeholders. rewrite filter_app, length_app. f_equal. cbn. destruct (has_str _ _); by case_decide. Qed.

Lemma placeholders_le (ls : list (list byte)) : placeholders ls <= length ls.
Proof. apply length_filter. Qed.

Lemma fix_loop_prints (ls : list (list byte)) : forall (before : list (list byte)) (n : nat) (in_ : io DI CI),
  readable in_ -> instream in_ = file_of ls -> Forall c_line ls -> length ls < n ->
  (Z.of_nat (length before + length ls) + 2 < 2 ^ 31)%Z ->
  prints (DO:=DO) fuel (fix_loop (D:=D) (C:=C) fuel file_out n (Z.of_nat (length before) - Z.of_nat (placeholders before)) in_)
    (concat (fixed_from before ls)).
Proof.
  induction ls as [|l ls IH]; intros before n in_ Hr Hi Hls Hn Hb; (destruct n as [|n]; [simpl in Hn; lia|]); cbn [fix_loop].
  - destruct (gets_eof in_ Hr Hi) as (in' & ->). apply prints_ret.
  - apply Forall_cons in Hls as [Hl Hls]. cbn [length] in Hn, Hb. destruct (gets_line in_ l (file_of ls) Hr Hl) as (in' & -> & R & I); [done|].
    rewrite cstr_line by done. destruct (l ++ [x0a]) as [|b rest] eqn:El; [by destruct l|]. rewrite <- El.
    pose proof (placeholders_le before). specialize (IH (before ++ [l]) n in' R I Hls).
    rewrite length_app, placeholders_snoc in IH. cbn [length] in IH. specialize (IH ltac:(lia) ltac:(lia)).
    cbn [fixed_from concat]. unfold fixed_line. destruct (has_str placeholder (l ++ [x0a])).
    + rewrite i32_small by lia. apply prints_seq.
      * apply prints_ignore. replace (_ - _ + 2)%Z with (Z.of_nat (length before) + 2 - Z.of_nat (placeholders before))%Z by lia. apply prints_printf.
      * replace (_ - _)%Z with (Z.of_nat (length before + 1) - Z.of_nat (placeholders before + 1))%Z by lia. exact IH.
    + rewrite i32_small by lia. apply prints_seq; [apply prints_ignore, prints_printf|].
      replace (_ - _ + 1)%Z with (Z.of_nat (length before + 1) - Z.of_nat (placeholders before + 0))%Z by lia. exact IH.
Qed.

Lemma fixed_from_lookup (ls : list (list byte)) : forall (before : list (list byte)) (i : nat),
  fixed_from before ls !! i = (fun l => fixed_line (before ++ take i ls) l) <$> ls !! i.
Proof.
  induction ls as [|l ls IH]; intros before [|i]; cbn; [done..|by rewrite app_nil_r|]. rewrite IH. by rewrite <- app_assoc.
Qed.

Lemma fixed_from_length (before ls : list (list byte)) : length (fixed_from before ls) = length ls.
Proof. revert before. induction ls as [|l ls IH]; intros before; cbn; [done|]. by rewrite IH. Qed.

(** The line numbers of a generated file.  The pass keeps the number of lines and
    every line that is no placeholder.  A placeholder in line [i] (from 0) should become a
    directive that calls the next line by its number, [i + 2]; it says that less the number of
    placeholders above it, so only the first directive of a file is right. *)
Theorem fix_line_numbers (n : nat) (ls : list (list byte)) (in_ : io DI CI) (tmp : io D C) :
  let out := fixed_from [] ls in
  readable in_ -> instream in_ = file_of ls -> Forall c_line ls -> length ls < n -> (Z.of_nat (length ls) + 2 < 2 ^ 31)%Z ->
  writable tmp -> room tmp (length (concat out)) -> length (concat out) <= fuel ->
  (exists tmp', fix_line_decl fuel file_out n in_ tmp = (tmp', Ok tt) /\ outstream tmp' = outstream tmp ++ concat out) /\
  length out = length ls /\
  forall i l, ls !! i = Some l -> out !! i = Some
    (if has_str placeholder (l ++ [x0a])
     then line_decl file_out (Z.of_nat i + 2 - Z.of_nat (placeholders (take i ls)))
     else l ++ [x0a]).
Proof.
  intros out Hr Hi Hls Hn Hz Hw Hroom Hl. split_and!.
  - destruct (fix_loop_prints ls [] n in_ Hr Hi Hls Hn Hz tmp 0 Hw) as (tmp' & [] & E & _ & _ & O); [by rewrite Nat.add_0_r|done|].
    exists tmp'. split; [exact E|exact O].
  - apply fixed_from_length.
  - intros i l Hil. unfold out. rewrite fixed_from_lookup, Hil. cbn [fmap option_fmap option_map app]. unfold fixed_line.
    rewrite length_take, Nat.min_l by (apply lookup_lt_Some in Hil; lia). done.
Qed.
End fix_spec.

Definition c_file : list (list byte) :=
  [bs "int a;"; bs " #line 0 __PG_FILE_C__ "; bs "int b;"; bs " #line 0 __PG_FILE_C__ "; bs "int c;"].

Lemma fix_line_numbers_witness :
  exists tmp', fix_line_decl (L:=libu_ref) (N.to_nat 6000) (bs "pg.c") 10 (mem_io (file_of c_file)) out_sample = (tmp', Ok tt) /\
    outstream tmp' = file_of [bs "int a;"; bs "#line 3 " ++ DQ ++ bs "pg.c" ++ DQ; bs "int b;";
                              bs "#line 4 " ++ DQ ++ bs "pg.c" ++ DQ; bs "int c;"].
Proof.
  destruct (mem_io_readable (file_of c_file)) as [Hr Hi]. destruct out_sample_ok as [Hw Ho].
  destruct (fix_line_numbers (L:=libu_ref) (N.to_nat 6000) (bs "pg.c") ltac:(lia) 10 c_file (mem_io (file_of c_file)) out_sample)
    as [(tmp' & E & Eo) _].
  - exact Hr.
  - exact Hi.
  - apply (bool_decide_unpack _). vm_compute. done.
  - vm_compute. lia.
  - vm_compute. done.
  - exact Hw.
  - apply room_sample. vm_compute. done.
  - apply Nat.leb_le. vm_compute. done.
  - exists tmp'. split; [exact E|]. by rewrite Eo, Ho.
Defined.
