(* ===== verification/Ppc.v ===== *)
(** Parent procedure calls: src/src/kloned/ppc.c.

    Children and the parent exchange messages over a stream socket.  A channel is what one
    end sees: the bytes that the other end sends until it closes, those it has sent itself,
    and what the system does with the next reads and writes: an error, or a transfer of at
    most so many bytes (whole when the list is exhausted).  A header is laid out as on a
    64-bit little-endian machine, zeroed before it is filled; what a short read leaves unset
    of it is what the stack held there, [hst]. *)

From stdpp Require Import list.
From S2P Require Import Prelude Date.

Record chan := mkChan {
  ch_in : list byte;
  ch_out : list byte;
  ch_rd : list (option nat);
  ch_wr : list (option nat)
}.

Definition PPC_MAX_DATA_SIZE : nat := N.to_nat 8192.
Definition PPC_HDR_SIZE : nat := 16.

(** An unsigned integer in [n] bytes, the lowest first. *)
Fixpoint le_enc (n : nat) (z : Z) : list byte :=
  match n with 0 => [] | S n' => zb (z mod 256) :: le_enc n' (z / 256) end.

Fixpoint le_dec (l : list byte) : Z :=
  match l with [] => 0 | b :: l' => bz b + 256 * le_dec l' end.

Definition ppc_header (cmd : byte) (size : nat) : list byte := cmd :: replicate 7 x00 ++ le_enc 8 (Z.of_nat size).
Definition hdr_size (h : list byte) : Z := le_dec (drop 8 h).

Definition xfer (sched : list (option nat)) (size : nat) : list (option nat) * option nat :=
  match sched with
  | [] => ([], Some size)
  | None :: r => (r, None)
  | Some k :: r => (r, Some (min size (S k)))
  end.

Definition ppc_do_read (size : nat) : prog chan (list byte) := fun ch =>
  match xfer (ch_rd ch) size with
  | (r, None) => (mkChan (ch_in ch) (ch_out ch) r (ch_wr ch), Fail)
  | (r, Some k) => (mkChan (drop k (ch_in ch)) (ch_out ch) r (ch_wr ch), Ok (take k (ch_in ch)))
  end.

Definition ppc_do_write (data : list byte) : prog chan nat := fun ch =>
  match xfer (ch_wr ch) (length data) with
  | (r, None) => (mkChan (ch_in ch) (ch_out ch) (ch_rd ch) r, Fail)
  | (r, Some k) => (mkChan (ch_in ch) (ch_out ch ++ take k data) (ch_rd ch) r, Ok k)
  end.

(** 1 when both parts were written, 0 when nothing of one of them was. *)
Definition ppc_write (cmd : byte) (data : list byte) : prog chan nat :=
  let! n := ppc_do_write (ppc_header cmd (length data)) in
  if decide (n = 0) then pret 0 else
  let! n := ppc_do_write data in
  if decide (n = 0) then pret 0 else pret 1.

(** The buffer afterwards, with the command and the size of a message, or [None] at the end
    of the stream. *)
Definition ppc_read (hst buf : list byte) : prog chan (list byte * option (byte * nat)) :=
  let! h := ppc_do_read PPC_HDR_SIZE in
  if decide (h = []) then pret (buf, None) else
  let h := h ++ drop (length h) hst in
  let size := hdr_size h in
  if decide (Z.of_nat (length buf) < size \/ Z.of_nat PPC_MAX_DATA_SIZE < size)%Z then pfail else
  let! d := ppc_do_read (Z.to_nat size) in
  let buf := d ++ drop (length d) buf in
  if decide (d = []) then pret (buf, None) else
  pret (buf, Some (hd x00 h, Z.to_nat size)).

(** ** The table of commands *)

Section table.
Context {S : Type}.

Definition ppc_cb : Type := byte -> list byte -> nat -> prog S unit.
Definition ppc : Type := byte -> option ppc_cb.

Definition ppc_create : ppc := fun _ => None.
Definition ppc_register (p : ppc) (cmd : byte) (cb : ppc_cb) : ppc := fun c => if decide (c = cmd) then Some cb else p c.

(** What the callback returns is not looked at. *)
Definition ppc_dispatch (p : ppc) (cmd : byte) (data : list byte) (size : nat) : prog S unit :=
  match p cmd with None => pfail | Some cb => pignore (cb cmd data size) end.
End table.
Arguments ppc_cb S : clear implicits.
Arguments ppc S : clear implicits.

Definition PPC_CMD_UNKNOWN : byte := x00.
Definition PPC_CMD_NOP : byte := x01.
Definition PPC_CMD_FORK_CHILD : byte := x02.
Definition PPC_CMD_RESPONSE_OK : byte := x03.
Definition PPC_CMD_RESPONSE_ERROR : byte := x04.
Definition PPC_CMD_MSES_SAVE : byte := x05.
Definition PPC_CMD_MSES_GET : byte := x06.
Definition PPC_CMD_MSES_DELOLD : byte := x07.
Definition PPC_CMD_MSES_REMOVE : byte := x08.
Definition PPC_CMD_LOG_ADD : byte := x09.
Definition PPC_CMD_LOG_GET : byte := x0a.
Definition PPC_CMD_ACCESS_LOG : byte := x0b.

(** ** Messages *)

Lemma le_enc_length (n : nat) (z : Z) : length (le_enc n z) = n.
Proof. revert z. induction n as [|n IH]; intros z; cbn; [done|]. by rewrite IH. Qed.

Lemma le_dec_enc (n : nat) (z : Z) : (0 <= z < 256 ^ Z.of_nat n)%Z -> le_dec (le_enc n z) = z.
Proof.
  revert z. induction n as [|n IH]; intros z Hz; [cbn in *; lia|]. cbn [le_enc le_dec].
  rewrite Nat2Z.inj_succ, Z.pow_succ_r in Hz by lia. set (q := (256 ^ Z.of_nat n)%Z) in *.
  rewrite IH by (split; [apply Z.div_pos; lia|apply Z.div_lt_upper_bound; [lia|tauto]]).
  rewrite bz_zb, Z.mod_mod by lia. pose proof (Z.div_mod z 256). lia.
Qed.

Lemma hdr_length (cmd : byte) (size : nat) : length (ppc_header cmd size) = PPC_HDR_SIZE.
Proof. unfold ppc_header. cbn [length]. rewrite length_app, length_replicate, le_enc_length. done. Qed.

Lemma hdr_size_header (cmd : byte) (size : nat) : size <= PPC_MAX_DATA_SIZE -> hdr_size (ppc_header cmd size) = Z.of_nat size.
Proof. intros Hs. unfold hdr_size, ppc_header. cbn [drop app replicate]. apply le_dec_enc. unfold PPC_MAX_DATA_SIZE in Hs. lia. Qed.

(** A channel on which every transfer is whole. *)
Definition whole (ch : chan) : Prop := ch_rd ch = [] /\ ch_wr ch = [].

Definition msg : Type := byte * list byte.
Definition msg_ok (m : msg) : Prop := 0 < length (snd m) <= PPC_MAX_DATA_SIZE.
Lemma msg_ok_b (m : msg) : (0 <? length (snd m)) && (length (snd m) <=? PPC_MAX_DATA_SIZE) = true -> msg_ok m.
Proof. intros [H1%Nat.ltb_lt H2%Nat.leb_le]%andb_prop. done. Qed.

Definition msg_bytes (m : msg) : list byte := ppc_header (fst m) (length (snd m)) ++ snd m.

Fixpoint write_all (ms : list msg) : prog chan unit :=
  match ms with [] => pret tt | (cmd, data) :: ms' => ppc_write cmd data;;; write_all ms' end.

(** Reading to the end of the stream. *)
Fixpoint read_all (n : nat) (hst buf : list byte) : prog chan (list msg) :=
  match n with
  | 0 => plift Timeout
  | S n' =>
      let! r := ppc_read hst buf in
      match r with
      | (_, None) => pret []
      | (buf', Some (cmd, size)) => let! ms := read_all n' hst buf' in pret ((cmd, take size buf') :: ms)
      end
  end.

Lemma do_write_whole (data i o : list byte) (rd : list (option nat)) :
  ppc_do_write data (mkChan i o rd []) = (mkChan i (o ++ data) rd [], Ok (length data)).
Proof. unfold ppc_do_write. cbn. by rewrite take_ge. Qed.

Lemma write_spec (m : msg) (i o : list byte) (rd : list (option nat)) : 0 < length (snd m) ->
  ppc_write (fst m) (snd m) (mkChan i o rd []) = (mkChan i (o ++ msg_bytes m) rd [], Ok 1).
Proof.
  intros Hl. destruct m as [cmd data]. cbn [fst snd] in *. unfold ppc_write.
  rewrite (pbind_Ok _ _ _ _ _ (do_write_whole _ _ _ _)), hdr_length, decide_False by done.
  rewrite (pbind_Ok _ _ _ _ _ (do_write_whole _ _ _ _)), decide_False by lia. unfold msg_bytes. cbn [fst snd]. by rewrite <- app_assoc.
Qed.

Lemma write_all_spec (ms : list msg) : forall i o rd, Forall (fun m => 0 < length (snd m)) ms ->
  write_all ms (mkChan i o rd []) = (mkChan i (o ++ concat (map msg_bytes ms)) rd [], Ok tt).
Proof.
  induction ms as [|[cmd data] ms IH]; intros i o rd Hms; cbn [write_all map concat]; [by rewrite app_nil_r|].
  apply Forall_cons in Hms as [Hm Hms]. rewrite (pbind_Ok _ _ _ _ _ (write_spec (cmd, data) i o rd Hm)).
  rewrite IH by done. by rewrite <- app_assoc.
Qed.

(** What is read of the data lies over what the buffer held. *)
Lemma read_spec (m : msg) (rest hst buf o : list byte) (rd0 rd wr : list (option nat)) :
  length hst = PPC_HDR_SIZE -> length (snd m) <= PPC_MAX_DATA_SIZE -> length (snd m) <= length buf -> xfer rd0 PPC_HDR_SIZE = (rd, Some PPC_HDR_SIZE) ->
  ppc_read hst buf (mkChan (msg_bytes m ++ rest) o rd0 wr) =
  match xfer rd (length (snd m)) with
  | (rd', Some k) =>
      let d := take k (snd m ++ rest) in
      (mkChan (drop k (snd m ++ rest)) o rd' wr,
       Ok (d ++ drop (length d) buf, if decide (d = []) then None else Some (fst m, length (snd m))))
  | (rd', None) => (mkChan (snd m ++ rest) o rd' wr, Fail)
  end.
Proof.
  intros Hh Hm2 Hb Hx. destruct m as [cmd data]. unfold msg_bytes. cbn [fst snd] in *. rewrite <- app_assoc.
  unfold ppc_read. rewrite (pbind_Ok _ _ _ (mkChan (data ++ rest) o rd wr) (ppc_header cmd (length data))).
  2: { unfold ppc_do_read. cbn [ch_rd ch_in ch_out ch_wr]. rewrite Hx. rewrite <- (hdr_length cmd (length data)) at 1 2.
       by rewrite take_app_length, drop_app_length. }
  rewrite decide_False by done. rewrite (drop_ge hst) by (rewrite hdr_length; lia). rewrite app_nil_r, hdr_size_header by done.
  rewrite Nat2Z.id, decide_False by lia. unfold ppc_do_read, pbind. cbn [ch_rd ch_in ch_out ch_wr].
  destruct (xfer rd (length data)) as [rd' [k|]]; [|done]. by case_decide.
Qed.

Lemma read_eof (hst buf o : list byte) (wr : list (option nat)) : ppc_read hst buf (mkChan [] o [] wr) = (mkChan [] o [] wr, Ok (buf, None)).
Proof. done. Qed.

Lemma read_all_spec (hst : list byte) (ms : list msg) : length hst = PPC_HDR_SIZE -> forall (n : nat) (buf o : list byte) (wr : list (option nat)),
  Forall msg_ok ms -> length ms < n -> length buf = PPC_MAX_DATA_SIZE ->
  read_all n hst buf (mkChan (concat (map msg_bytes ms)) o [] wr) = (mkChan [] o [] wr, Ok ms).
Proof.
  intros Hh. induction ms as [|m ms IH]; intros n buf o wr Hms Hn Hb; (destruct n as [|n]; [simpl in Hn; lia|]); cbn [read_all map concat].
  { by rewrite (pbind_Ok _ _ _ _ _ (read_eof hst buf o wr)). }
  apply Forall_cons in Hms as [Hm Hms]. pose proof Hm as [Hm1 Hm2].
  rewrite (pbind_Ok _ _ _ (mkChan (concat (map msg_bytes ms)) o [] wr) (snd m ++ drop (length (snd m)) buf, Some (fst m, length (snd m)))).
  2: { rewrite (read_spec m _ hst buf o [] [] wr) by (done || lia). cbn [xfer]. rewrite take_app_length, drop_app_length.
       rewrite decide_False; [done|]. intros E. rewrite E in Hm1. simpl in Hm1. lia. }
  simpl in Hn. rewrite take_app_length. rewrite (pbind_Ok _ _ _ _ _ (IH n (snd m ++ drop (length (snd m)) buf) o wr Hms ltac:(lia) ltac:(rewrite length_app, length_drop; lia))).
  by destruct m.
Qed.

(** Whatever comes, a read returns or fails. *)
Lemma ppc_read_total (hst buf : list byte) (ch : chan) :
  match snd (ppc_read hst buf ch) with Ok _ | Fail => True | _ => False end.
Proof.
  unfold ppc_read, ppc_do_read, pbind. destruct (xfer (ch_rd ch) PPC_HDR_SIZE) as [r [k|]]; [|done]. case_decide; [done|].
  case_decide; [done|]. cbn [ch_rd ch_in ch_out ch_wr]. destruct (xfer r _) as [r' [k'|]]; [|done]. by case_decide.
Qed.


(** A short read is not noticed.  When the system gives only the first [k] bytes of a
    message the message is accepted at its full size with what the buffer held before in place
    of the rest, and the rest is read as the header of the next message. *)
Theorem ppc_short_read (m : msg) (rest hst buf o : list byte) (k : nat) (rd wr : list (option nat)) :
  length hst = PPC_HDR_SIZE -> msg_ok m -> length buf = PPC_MAX_DATA_SIZE -> S k < length (snd m) ->
  ppc_read hst buf (mkChan (msg_bytes m ++ rest) o (Some PPC_HDR_SIZE :: Some k :: rd) wr) =
    (mkChan (drop (S k) (snd m) ++ rest) o rd wr,
     Ok (take (S k) (snd m) ++ drop (S k) buf, Some (fst m, length (snd m)))).
Proof.
  intros Hh Hm Hb Hk. pose proof Hm as [_ Hm2]. rewrite (read_spec m rest hst buf o (Some PPC_HDR_SIZE :: Some k :: rd) (Some k :: rd) wr) by (done || lia).
  cbn [xfer].
  rewrite Nat.min_r by lia. rewrite take_app_le, drop_app_le by lia. rewrite length_take, Nat.min_l by lia.
  rewrite decide_False; [done|]. intros E%(f_equal length). rewrite length_take in E. cbn [length] in E. lia.
Qed.

(** A message without data ends the conversation: it is read as the end of the stream. *)
Theorem ppc_empty_message (cmd : byte) (i hst buf : list byte) : length hst = PPC_HDR_SIZE ->
  let '(a, r) := ppc_write cmd [] (mkChan i [] [] []) in
  r = Ok 0 /\ ppc_read hst buf (mkChan (ch_out a) [] [] []) = (mkChan [] [] [] [], Ok (buf, None)).
Proof.
  intros Hh. unfold ppc_write. rewrite (pbind_Ok _ _ _ _ _ (do_write_whole _ _ _ _)), hdr_length, decide_False by done.
  rewrite (pbind_Ok _ _ _ _ _ (do_write_whole _ _ _ _)), decide_True by done. split; [done|].
  change (ch_out _) with (msg_bytes (cmd, []) ++ []). rewrite (read_spec (cmd, []) [] hst buf [] [] [] []) by (done || simpl; lia). done.
Qed.


Lemma ppc_short_read_witness :
  ppc_read (replicate 16 x00) (replicate PPC_MAX_DATA_SIZE x00) (mkChan (msg_bytes (PPC_CMD_LOG_ADD, bs "abc") ++ []) [] [Some PPC_HDR_SIZE; Some 0] []) =
    (mkChan (bs "bc") [] [] [], Ok (bs "a" ++ drop 1 (replicate PPC_MAX_DATA_SIZE x00), Some (PPC_CMD_LOG_ADD, 3))).
Proof.
  apply (ppc_short_read (PPC_CMD_LOG_ADD, bs "abc") [] (replicate 16 x00) _ [] 0 [] []).
  - done.
  - apply msg_ok_b. vm_compute. done.
  - apply length_replicate.
  - simpl. lia.
Defined.
