(* ===== verification/Server.v ===== *)
(** The server's processes: src/src/kloned/server.c, child.c, ppc_fork_child.c, ppc_nop.c and
    src/src/libbackend/backend.c, on a system with fork(2).

    The state is the parent's.  What the system decides is part of it: the results of the
    coming [socketpair] and [fork] calls, the connections that [accept] returns, and the
    channels to the children; the signals sent and the descriptors closed are recorded.
    [server_fork_child] is split into what the parent does and the state that the child starts
    with.  Backends are referred to by their place in the list, which never changes after
    [server_create]; [be_fork_child] counts requests and is not wrapped.  The callbacks that do
    not touch the pool (serving a page, hooks, flushing the log, the other parent procedure
    calls) are parameters. *)

From stdpp Require Import gmap.
From S2P Require Import Prelude Date Ppc.

Inductive server_model := SERVER_MODEL_UNSET | SERVER_MODEL_FORK | SERVER_MODEL_ITERATIVE | SERVER_MODEL_PREFORK.
#[global] Instance server_model_eq : EqDecision server_model.
Proof. solve_decision. Defined.

Record backend := mkBe {
  be_id : Z;
  be_model : server_model;
  be_ld : Z;
  be_nchild : Z;
  be_max_child : Z;
  be_start_child : Z;
  be_max_rq_xchild : Z;
  be_fork_child : Z
}.

Record child := mkChild { c_pid : Z; c_be : nat; c_birth : Z }.
Record children := mkCs { clist : list child; cs_nchild : Z }.

Inductive fork_result := SockFail | ForkFail | Forked (pid fd : Z).

Record server := mkSrv {
  s_bes : list backend;
  s_children : children;
  s_rdfds : gset Z;
  s_wrfds : gset Z;
  s_exfds : gset Z;
  s_hfd : Z;
  s_nchild : Z;
  s_max_child : Z;
  s_stop : bool;
  s_klog_flush : Z;
  s_reap_children : bool;
  (** the system *)
  sys_forks : list fork_result;
  sys_time : Z;
  sys_accept : list (option Z);
  sys_chans : gmap Z chan;
  sys_kills : list (Z * Z);
  sys_closed : list Z
}.

Definition set_bes (s : server) v := let 'mkSrv _ b c d e f g h i j k l m n o p q := s in mkSrv v b c d e f g h i j k l m n o p q.
Definition set_children (s : server) v := let 'mkSrv a _ c d e f g h i j k l m n o p q := s in mkSrv a v c d e f g h i j k l m n o p q.
Definition set_fds (s : server) v1 v2 v3 := let 'mkSrv a b _ _ _ f g h i j k l m n o p q := s in mkSrv a b v1 v2 v3 f g h i j k l m n o p q.
Definition set_hfd (s : server) v := let 'mkSrv a b c d e _ g h i j k l m n o p q := s in mkSrv a b c d e v g h i j k l m n o p q.
Definition set_stop (s : server) v := let 'mkSrv a b c d e f g h _ j k l m n o p q := s in mkSrv a b c d e f g h v j k l m n o p q.
Definition set_klog_flush (s : server) v := let 'mkSrv a b c d e f g h i _ k l m n o p q := s in mkSrv a b c d e f g h i v k l m n o p q.
Definition set_reap (s : server) v := let 'mkSrv a b c d e f g h i j _ l m n o p q := s in mkSrv a b c d e f g h i j v l m n o p q.
Definition set_forks (s : server) v := let 'mkSrv a b c d e f g h i j k _ m n o p q := s in mkSrv a b c d e f g h i j k v m n o p q.
Definition set_accept (s : server) v := let 'mkSrv a b c d e f g h i j k l m _ o p q := s in mkSrv a b c d e f g h i j k l m v o p q.
Definition set_chans (s : server) v := let 'mkSrv a b c d e f g h i j k l m n _ p q := s in mkSrv a b c d e f g h i j k l m n v p q.
Definition set_kills (s : server) v := let 'mkSrv a b c d e f g h i j k l m n o _ q := s in mkSrv a b c d e f g h i j k l m n o v q.
Definition set_closed (s : server) v := let 'mkSrv a b c d e f g h i j k l m n o p _ := s in mkSrv a b c d e f g h i j k l m n o p v.

Definition set_nchild (b : backend) v := let 'mkBe i m l _ x st r f := b in mkBe i m l v x st r f.
Definition set_fork_child (b : backend) v := let 'mkBe i m l n x st r _ := b in mkBe i m l n x st r v.
Definition set_ld (b : backend) v := let 'mkBe i m _ n x st r f := b in mkBe i m v n x st r f.

(** ** The list of children: child.c *)

Definition children_create : children := mkCs [] 0.
Definition children_count (cs : children) : Z := cs_nchild cs.
Definition children_add (cs : children) (c : child) : children := mkCs (clist cs ++ [c]) (w64 (cs_nchild cs + 1)).

(** A child is named by its place in the list. *)
Definition children_del (cs : children) (i : nat) : children := mkCs (delete i (clist cs)) (w64 (cs_nchild cs - 1)).

Definition children_getn (cs : children) (i : nat) : res child :=
  if decide (cs_nchild cs <= Z.of_nat i)%Z then Fail else
  match clist cs !! i with Some c => Ok c | None => Fail end.

Fixpoint pid_index (pid : Z) (l : list child) : option nat :=
  match l with
  | [] => None
  | c :: l' => if decide (c_pid c = pid) then Some 0 else S <$> pid_index pid l'
  end.

Definition children_get_by_pid (cs : children) (pid : Z) : res nat := of_option (pid_index pid (clist cs)).

Fixpoint children_clear_loop (n : nat) (cs : children) : children :=
  match n with
  | 0 => cs
  | S n' => match clist cs with [] => cs | _ :: _ => children_clear_loop n' (children_del cs 0) end
  end.
Definition children_clear (cs : children) : children := children_clear_loop (length (clist cs)) cs.

Definition child_create (pid : Z) (be : nat) (now : Z) : child := mkChild pid be now.

(** ** Backends *)

Definition get_be (i : nat) : prog server backend := fun s =>
  (s, match s_bes s !! i with Some b => Ok b | None => Fault end).
Definition upd_be (i : nat) (f : backend -> backend) : prog server unit := pmod (fun s => set_bes s (alter f i (s_bes s))).

Definition SERVER_MAX_BACKEND_CHILD : Z := 150.
Definition SERVER_PREFORK_START_CHILD : Z := 2.
Definition SERVER_PREFORK_MAX_RQ_CHILD : Z := 10000.

Definition backend_set_model (v : list byte) : res server_model :=
  if strcaseeq v (bs "iterative") then Ok SERVER_MODEL_ITERATIVE
  else if strcaseeq v (bs "fork") then Ok SERVER_MODEL_FORK
  else if strcaseeq v (bs "prefork") then Ok SERVER_MODEL_PREFORK
  else Fail.

(** The values of the configuration; an [int] is written over the low half of a zero
    [size_t]. *)
Record be_config := mkBeCfg {
  cfg_type : option (list byte);
  cfg_model : option (list byte);
  cfg_fork_max : option Z;
  cfg_prefork_max : option Z;
  cfg_prefork_start : option Z;
  cfg_prefork_rq : option Z
}.

Definition backend_list : list (list byte) := [bs "http"].    (* without SSL_ON *)

Definition backend_create (proto : list byte) (cfg : be_config) (init_ok : bool) : res backend :=
  if negb (existsb (fun p => strcaseeq p proto) backend_list) then Fail else
  m ← match cfg_model cfg with Some v => backend_set_model v | None => Ok SERVER_MODEL_PREFORK end;
  let b := match m with
           | SERVER_MODEL_FORK => mkBe (-1) m (-1) 0 (u32 (default SERVER_MAX_BACKEND_CHILD (cfg_fork_max cfg))) 0 0 0
           | SERVER_MODEL_PREFORK =>
               let start := u32 (default SERVER_PREFORK_START_CHILD (cfg_prefork_start cfg)) in
               mkBe (-1) m (-1) 0 (u32 (default SERVER_MAX_BACKEND_CHILD (cfg_prefork_max cfg))) start
                 (u32 (default SERVER_PREFORK_MAX_RQ_CHILD (cfg_prefork_rq cfg))) start
           | _ => mkBe (-1) m (-1) 0 0 0 0 0
           end in
  if init_ok then Ok b else Fail.

Fixpoint find_be (p : backend -> bool) (i : nat) (l : list backend) : option nat :=
  match l with [] => None | b :: l' => if p b then Some i else find_be p (S i) l' end.

Definition server_get_backend_by_id (s : server) (id : Z) : res nat :=
  of_option (find_be (fun b => bool_decide (be_id b = id)) 0 (s_bes s)).

(** ** Watched descriptors *)

Definition WATCH_FD_READ : Z := 2.
Definition WATCH_FD_WRITE : Z := 4.
Definition WATCH_FD_EXCP : Z := 8.
Definition FD_SETSIZE : Z := 1024.

Definition on_mode (mode bit : Z) (f : gset Z -> gset Z) (x : gset Z) : gset Z :=
  if decide (Z.land mode bit = 0%Z) then x else f x.

Definition watched (s : server) (fd : Z) : bool := bool_decide (fd ∈ s_rdfds s ∪ s_wrfds s ∪ s_exfds s).

Fixpoint recalc_loop (s : server) (i : nat) : Z :=
  match i with 0 => 0%Z | S i' => if watched s (Z.of_nat i) then Z.of_nat i else recalc_loop s i' end.
Definition server_recalc_hfd (s : server) : server := set_hfd s (recalc_loop s (Z.to_nat (s_hfd s))).

(** A descriptor outside of the sets is written out of their bounds. *)
Definition fd_in_set (fd : Z) : bool := bool_decide (0 <= fd < FD_SETSIZE)%Z.

Definition server_clear_fd (fd mode : Z) : prog server unit :=
  if fd_in_set fd then
    pmod (fun s => server_recalc_hfd (set_fds s (on_mode mode WATCH_FD_READ (.∖ {[fd]}) (s_rdfds s))
      (on_mode mode WATCH_FD_WRITE (.∖ {[fd]}) (s_wrfds s)) (on_mode mode WATCH_FD_EXCP (.∖ {[fd]}) (s_exfds s))))
  else plift Fault.

Definition server_watch_fd (fd mode : Z) : prog server unit :=
  if decide (fd < 0)%Z then pret tt else
  if fd_in_set fd then
    pmod (fun s => let s := set_fds s (on_mode mode WATCH_FD_READ ({[fd]} ∪.) (s_rdfds s))
      (on_mode mode WATCH_FD_WRITE ({[fd]} ∪.) (s_wrfds s)) (on_mode mode WATCH_FD_EXCP ({[fd]} ∪.) (s_exfds s)) in
      set_hfd s (Z.max (s_hfd s) fd))
  else plift Fault.

Definition sys_close (fd : Z) : prog server unit := pmod (fun s => set_closed s (sys_closed s ++ [fd])).

Definition server_close_fd (fd : Z) : prog server unit :=
  if decide (fd < 0)%Z then pret tt else
  server_clear_fd fd (Z.lor WATCH_FD_READ (Z.lor WATCH_FD_WRITE WATCH_FD_EXCP));;;
  sys_close fd.

(** ** Children *)

Definition server_reap_child (pid : Z) : prog server unit :=
  let! s := pget in
  let! i := plift (children_get_by_pid (s_children s) pid) in
  let! c := plift (match clist (s_children s) !! i with Some c => Ok c | None => Fault end) in
  pmod (fun s => set_children s (children_del (s_children s) i));;;
  upd_be (c_be c) (fun b =>
    let b := set_nchild b (w64 (be_nchild b - 1)) in
    if decide (be_nchild b < be_start_child b)%Z then set_fork_child b (be_start_child b - be_nchild b) else b).

Definition server_add_child (pid : Z) (be : nat) : prog server unit :=
  pmod (fun s => set_children s (children_add (s_children s) (child_create pid be (sys_time s))));;;
  upd_be be (fun b => set_nchild b (w64 (be_nchild b + 1))).

Definition next_fork : prog server fork_result := fun s =>
  match sys_forks s with [] => (s, Ok SockFail) | r :: l => (set_forks s l, Ok r) end.

(** The parent's side; a failed [fork] leaves the socket pair open. *)
Definition server_fork_child (be : nat) : prog server Z :=
  let! s := pget in
  let! b := get_be be in
  pguard (bool_decide (children_count (s_children s) <> s_max_child s));;;
  pguard (bool_decide (be_nchild b <> be_max_child b));;;
  let! r := next_fork in
  match r with
  | SockFail | ForkFail => pfail
  | Forked pid fd =>
      server_add_child pid be;;;
      server_watch_fd fd WATCH_FD_READ;;;
      pret pid
  end.

(** The child's side: the state it starts with. *)
Definition forked_child (s : server) (be : nat) : server :=
  let s := set_klog_flush s 0 in
  let s := set_bes s (imap (fun i b => if decide (i = be) then b else set_ld b (-1)) (s_bes s)) in
  set_children s (children_clear (s_children s)).

(** [server_spawn_child] in the parent. *)
Definition server_spawn_child (be : nat) : prog server unit := server_fork_child be;;; pret tt.

Fixpoint spawn_loop (n : nat) (be : nat) (i : Z) : prog server unit :=
  match n with
  | 0 => plift Timeout
  | S n' =>
      let! b := get_be be in
      if decide (i < be_fork_child b)%Z then
        server_spawn_child be;;;
        upd_be be (fun b => set_fork_child b (be_fork_child b - 1));;;
        spawn_loop n' be (i + 1)
      else pret tt
  end.

Fixpoint spawn_bes (bes : list nat) : prog server unit :=
  match bes with
  | [] => pret tt
  | be :: bes' =>
      let! b := get_be be in
      (if decide (be_model b <> SERVER_MODEL_PREFORK \/ be_fork_child b = 0%Z) then pret tt
       else spawn_loop (S (Z.to_nat (be_fork_child b))) be 0);;;
      spawn_bes bes'
  end.

Definition server_spawn_children : prog server unit :=
  let! s := pget in spawn_bes (seq 0 (length (s_bes s))).

Fixpoint waitpid_loop (pids : list Z) : prog server unit :=
  match pids with [] => pret tt | pid :: pids' => pignore (server_reap_child pid);;; waitpid_loop pids' end.

(** [pids]: the children that have ended. *)
Definition server_waitpid (pids : list Z) : prog server unit :=
  waitpid_loop pids;;; pmod (fun s => set_reap s false).

(** [kill_ok]: the processes that [kill] reaches. *)
Fixpoint signal_loop (kill_ok : Z -> bool) (n : nat) (sig : Z) : prog server unit :=
  match n with
  | 0 => pret tt
  | S i =>
      let! s := pget in
      match children_getn (s_children s) i with
      | Ok c => pguard (kill_ok (c_pid c));;; pmod (fun s => set_kills s (sys_kills s ++ [(c_pid c, sig)]))
      | _ => pret tt
      end;;;
      signal_loop kill_ok i sig
  end.

Definition server_signal_children (kill_ok : Z -> bool) (sig : Z) : prog server unit :=
  let! s := pget in signal_loop kill_ok (Z.to_nat (children_count (s_children s))) sig.

Definition SIGTERM : Z := 15.
Definition SIGKILL : Z := 9.

Definition server_stop : prog server unit := pmod (fun s => set_stop s true).

(** ** Parent procedure calls on the server *)

Definition server_ppc_cb_nop : ppc_cb server := fun _ _ _ => pret tt.

Definition ppc_int (data : list byte) : Z := i32 (le_dec (take 4 data)).

Definition server_ppc_cb_fork_child : ppc_cb server := fun _ data _ =>
  let! s := pget in
  let! be := plift (server_get_backend_by_id s (ppc_int data)) in
  pelse (server_spawn_child be) (upd_be be (fun b => set_fork_child b (be_fork_child b + 1))).

Section loop.
(** the commands of sessions and logs; what a connection does; the hook of the loop *)
Variable others : ppc server.
Variable backend_serve : nat -> Z -> prog server unit.
Variables (flush_log loop_hook : prog server unit).
(** what the stack holds where [ppc_read] has a header and [server_process_ppc] its buffer *)
Variables (hst stack : list byte).

Definition server_ppc : ppc server :=
  ppc_register (ppc_register others PPC_CMD_NOP server_ppc_cb_nop) PPC_CMD_FORK_CHILD server_ppc_cb_fork_child.

Definition server_process_ppc (fd : Z) : prog server unit :=
  pguard (bool_decide (0 <= fd)%Z);;;
  let! s := pget in
  match sys_chans s !! fd with
  | None => server_close_fd fd
  | Some ch =>
      let '(ch', r) := ppc_read hst stack ch in
      pmod (fun s => set_chans s (<[fd := ch']> (sys_chans s)));;;
      match r with
      | Ok (data, Some (cmd, n)) => ppc_dispatch server_ppc cmd data n
      | Ok (_, None) | Fail => server_close_fd fd
      | Fault => plift Fault
      | Timeout => plift Timeout
      end
  end.

Definition server_be_accept : prog server Z := fun s =>
  match sys_accept s with
  | Some ad :: l => (set_accept s l, Ok ad)
  | None :: l => (set_accept s l, Fail)
  | [] => (s, Fail)
  end.

Definition server_child_serve (be : nat) : prog server unit := server_fork_child be;;; pret tt.

(** In the parent a connection is served by a new child or here. *)
Definition server_be_serve (be : nat) (ad : Z) : prog server unit :=
  let! b := get_be be in
  pelse (
    match be_model b with
    | SERVER_MODEL_FORK => server_child_serve be
    | SERVER_MODEL_PREFORK | SERVER_MODEL_ITERATIVE => pignore (backend_serve be ad)
    | SERVER_MODEL_UNSET => pfail
    end;;;
    sys_close ad)
  (sys_close ad;;; pfail).

(** A channel that the system does not have is at its end.  A descriptor that no backend
    listens on is a channel to a child.  When serving fails the
    connection is closed a second time. *)
Definition server_dispatch (fd : Z) : prog server unit :=
  let! s := pget in
  match find_be (fun b => bool_decide (be_ld b = fd)) 0 (s_bes s) with
  | None => server_process_ppc fd
  | Some be =>
      let! ad := server_be_accept in
      pelse (server_be_serve be ad) (sys_close ad;;; pfail)
  end.

Fixpoint dispatch_loop (fds : list Z) : prog server unit :=
  match fds with
  | [] => pret tt
  | fd :: fds' =>
      let! s := pget in
      (if decide (fd <= s_hfd s)%Z then pignore (server_dispatch fd) else pret tt);;;
      dispatch_loop fds'
  end.

(** What one turn of the loop sees: the results of the system calls to come, whether a child
    has ended and which, the channels as they are when [select] returns and the descriptors
    that are ready.  [flush_log] sets the timer of the next flush again. *)
Record wake := mkWake {
  w_forks : list fork_result;
  w_select : bool;                 (* [select] succeeds *)
  w_sigchld : bool;
  w_pids : list Z;
  w_chans : gmap Z chan;
  w_accept : list (option Z);
  w_ready : list Z
}.

(** [server_sigchld] *)
Definition server_sigchld : prog server unit := pmod (fun s => set_reap s true).

Definition server_pass (w : wake) : prog server unit :=
  pmod (fun s => set_forks s (w_forks w));;;
  pignore server_spawn_children;;;
  pmod (fun s => set_accept (set_chans s (w_chans w)) (w_accept w));;;
  (if w_sigchld w then server_sigchld else pret tt);;;
  pguard (w_select w);;;
  let! s := pget in
  (if s_reap_children s then server_waitpid (w_pids w) else pret tt);;;
  (if decide (s_klog_flush s = 0%Z) then pret tt else flush_log;;; pmod (fun s => set_klog_flush s 0));;;
  (if decide (w_ready w = []) then loop_hook else pret tt);;;
  dispatch_loop (w_ready w).

Fixpoint server_passes (ws : list wake) : prog server unit :=
  match ws with
  | [] => pret tt
  | w :: ws' => let! s := pget in if s_stop s then pret tt else server_pass w;;; server_passes ws'
  end.

(** The end of [server_loop] in the parent. *)
Definition server_shutdown (kill_ok : Z -> bool) : prog server unit :=
  pignore (server_signal_children kill_ok SIGTERM);;;
  let! s := pget in
  if decide (s_nchild s = 0%Z) then pret tt else pignore (server_signal_children kill_ok SIGKILL).

Definition server_loop (kill_ok : Z -> bool) (ws : list wake) : prog server unit := server_passes ws;;; server_shutdown kill_ok.
End loop.

(** ** A child of a prefork backend *)

(** Its channel to the parent, the requests it gets from [accept] (an error, or a connection
    that is served within a second or not) and how many it has served. *)
Record cproc := mkCp {
  cp_chan : chan;
  cp_bid : Z;
  cp_stop : bool;
  cp_accept : list (option bool);
  cp_served : nat
}.

Definition int_bytes (z : Z) : list byte := le_enc 4 (z mod 2 ^ 32).

Definition server_ppc_cmd_fork_child : prog cproc unit := fun c =>
  let '(ch, r) := ppc_write PPC_CMD_FORK_CHILD (int_bytes (cp_bid c)) (cp_chan c) in
  (mkCp ch (cp_bid c) (cp_stop c) (cp_accept c) (cp_served c), (fun _ => tt) <$> r).

Definition cp_set_stop : prog cproc unit := pmod (fun c => mkCp (cp_chan c) (cp_bid c) true (cp_accept c) (cp_served c)).

(** The alarm of a request that takes more than a second. *)
Definition server_cb_spawn_child : prog cproc unit := server_ppc_cmd_fork_child;;; cp_set_stop.

(** [server_dispatch] of the listening socket in the child. *)
Definition child_dispatch : prog cproc unit := fun c =>
  match cp_accept c with
  | [] | None :: _ => (c, Fail)
  | Some slow :: l =>
      let c1 := mkCp (cp_chan c) (cp_bid c) (cp_stop c) l (S (cp_served c)) in
      if slow : bool then pignore server_cb_spawn_child c1 else (c1, Ok tt)
  end.

(** [server_spawn_child] in the child: at most [n] requests. *)
Fixpoint child_loop (n : nat) : prog cproc unit :=
  match n with
  | 0 => cp_set_stop
  | S n' => let! c := pget in if cp_stop c then cp_set_stop else child_dispatch;;; child_loop n'
  end.

(** ** Start-up *)

Definition SERVER_MAX_BACKENDS : nat := 8.
Definition SERVER_MAX_CHILD : Z := 300.

Definition is_list_blank (c : byte) : bool := bool_decide (c = " "%byte \/ c = x09).

(** [sscanf(list, "%[^ \t]", name)] *)
Fixpoint scan_name (l : list byte) : list byte :=
  match l with [] => [] | c :: l' => if is_list_blank c then [] else c :: scan_name l' end.

(** The configuration of one backend: its values, whether its [cb_init] succeeds and whether
    its address is good. *)
Definition be_section : Type := be_config * bool * bool.

(** The loop over [server_list]; the last backend is the first of the list. *)
Fixpoint create_loop (n : nat) (cfg : list byte -> option be_section) (foreground : bool) (i : Z) (l : list byte) (id : Z)
    (bes : list backend) : res (list backend) :=
  match n with
  | 0 => Timeout
  | S n' =>
      if decide (i <= 0)%Z then Ok bes else
      let name := scan_name l in
      if decide (name = []) then Ok bes else
      if decide (length bes = SERVER_MAX_BACKENDS) then Fail else
      match cfg name with
      | None => Fail
      | Some (c, init_ok, addr_ok) =>
          type ← of_option (cfg_type c);
          b ← backend_create type c init_ok;
          let 'mkBe _ m ld nc mx st rq fk := b in
          let m := if decide (m = SERVER_MODEL_UNSET) then SERVER_MODEL_FORK else m in
          let m := if foreground then SERVER_MODEL_ITERATIVE else m in
          if addr_ok : bool then
            let step := S (length name) in
            create_loop n' cfg foreground (i - Z.of_nat step) (drop step l) (id + 1) (mkBe id m ld nc mx st rq fk :: bes)
          else Fail
      end
  end.

Definition server_create (server_list : option (list byte)) (cfg : list byte -> option be_section) (foreground : bool)
    (uid gid : Z) (max_child : option Z) (log : bool) : res server :=
  match server_list with
  | None => Fail
  | Some l =>
      if decide (uid = 0 \/ gid = 0)%Z then Fail else
      bes ← create_loop (S (length l)) cfg foreground (Z.of_nat (length l)) l 0 [];
      Ok (mkSrv bes children_create ∅ ∅ ∅ 0 0 (w64 (default SERVER_MAX_CHILD max_child)) false (if log then 1 else 0) false [] 0 [] ∅ [] [])
  end.

(** [sds]: the listening sockets, -1 for an address that cannot be bound. *)
Fixpoint listen_loop (j : nat) (sds : list Z) : prog server unit :=
  match sds with
  | [] => pret tt
  | sd :: sds' =>
      upd_be j (fun b => set_ld b sd);;;
      pguard (bool_decide (sd <> -1)%Z);;;
      let! b := get_be j in
      (if decide (be_model b = SERVER_MODEL_PREFORK) then pret tt else server_watch_fd sd WATCH_FD_READ);;;
      listen_loop (S j) sds'
  end.

Definition server_listen (sds : list Z) : prog server unit := listen_loop 0 sds.

(** ** The pool of processes *)

Definition kids_of (s : server) (i : nat) : nat := length (filter (fun c => c_be c = i) (clist (s_children s))).

(** A backend with [k] children. *)
Record be_ok (k : nat) (b : backend) : Prop := {
  bo_nchild : be_nchild b = Z.of_nat k;
  bo_max : (Z.of_nat k <= be_max_child b < SIZE_MOD)%Z;
  bo_fork : (0 <= be_fork_child b)%Z;
  bo_start : be_model b = SERVER_MODEL_PREFORK -> (be_start_child b <= be_nchild b + be_fork_child b)%Z
}.

Definition fork_ok (r : fork_result) : Prop := match r with Forked _ fd => (0 <= fd < FD_SETSIZE)%Z | _ => True end.

Record pool_ok (s : server) : Prop := {
  po_count : cs_nchild (s_children s) = Z.of_nat (length (clist (s_children s)));
  po_max : (Z.of_nat (length (clist (s_children s))) <= s_max_child s < SIZE_MOD)%Z;
  po_bes : forall i b, s_bes s !! i = Some b -> be_ok (kids_of s i) b;
  po_kids : Forall (fun c => c_be c < length (s_bes s)) (clist (s_children s));
  po_fds : forall fd, watched s fd = true -> (0 <= fd <= s_hfd s)%Z;
  po_hfd : (0 <= s_hfd s < FD_SETSIZE)%Z;
  po_nchild : s_nchild s = 0%Z;
  po_forks : Forall fork_ok (sys_forks s)
}.

(** What matters of a state to the pool. *)
Definition pool_view (s : server) :=
  (s_bes s, s_children s, s_rdfds s, s_wrfds s, s_exfds s, s_hfd s, s_nchild s, s_max_child s, sys_forks s).

Lemma pool_ok_view (s s' : server) : pool_view s = pool_view s' -> pool_ok s -> pool_ok s'.
Proof.
  unfold pool_view. intros [= E1 E2 E3 E4 E5 E6 E7 E8 E9] [H1 H2 H3 H4 H5 H6 H7 H8]. unfold kids_of, watched in *.
  constructor; unfold kids_of, watched; rewrite <- ?E1, <- ?E2, <- ?E3, <- ?E4, <- ?E5, <- ?E6, <- ?E7, <- ?E8, <- ?E9; done.
Qed.

Ltac same_pool := apply hoare_mod; intros s ?; by apply (pool_ok_view s); [destruct s|].

Lemma filter_one (P : child -> Prop) `{!forall c, Decision (P c)} (l : list child) (c : child) :
  length (filter P (l ++ [c])) = length (filter P l) + (if decide (P c) then 1 else 0).
Proof. rewrite filter_app, length_app. f_equal. cbn. by case_decide. Qed.

Lemma filter_delete (P : child -> Prop) `{!forall c, Decision (P c)} (l : list child) (i : nat) (c : child) : l !! i = Some c ->
  length (filter P l) = length (filter P (delete i l)) + (if decide (P c) then 1 else 0).
Proof.
  intros Hi. rewrite delete_take_drop, filter_app, length_app. rewrite <- (take_drop_middle l i c Hi) at 1.
  rewrite filter_app, length_app, filter_cons. case_decide; simpl; lia.
Qed.

Lemma alter_ok (bes : list backend) (j : nat) (f : backend -> backend) (k k' : nat -> nat) :
  (forall i b, bes !! i = Some b -> be_ok (k i) b) -> (forall i, i <> j -> k' i = k i) ->
  (forall b, bes !! j = Some b -> be_ok (k j) b -> be_ok (k' j) (f b)) ->
  forall i b, alter f j bes !! i = Some b -> be_ok (k' i) b.
Proof.
  intros Hb Hk Hf i b Hi. destruct (decide (i = j)) as [-> |Hij].
  - rewrite list_lookup_alter_eq in Hi. apply fmap_Some in Hi as (b0 & E & ->). apply Hf; [done|by apply Hb].
  - rewrite list_lookup_alter_ne in Hi by done. rewrite Hk by done. by apply Hb.
Qed.

(** A child more, with the counters of its backend and of the list. *)
Lemma add_child_ok (s : server) (pid : Z) (j : nat) (b0 : backend) : pool_ok s -> s_bes s !! j = Some b0 ->
  children_count (s_children s) <> s_max_child s -> be_nchild b0 <> be_max_child b0 ->
  exists s', server_add_child pid j s = (s', Ok tt) /\ pool_ok s' /\
    s_bes s' = alter (fun b => set_nchild b (be_nchild b + 1)) j (s_bes s) /\ sys_forks s' = sys_forks s /\ s_max_child s' = s_max_child s /\
    cs_nchild (s_children s') = (cs_nchild (s_children s) + 1)%Z.
Proof.
  intros [H1 H2 H3 H4 H5 H6 H7 H8] Hj Hc Hn. unfold server_add_child, pbind, pmod, upd_be. eexists. split; [reflexivity|].
  destruct s as [bes cs rd wr ex hfd nch mx st kf rp fk tm ac chs kl cl]. cbn in *. unfold kids_of, watched, children_count in *. cbn in *.
  destruct (H3 _ _ Hj) as [B1 B2 B3 B4].
  assert (alter (fun b => set_nchild b (w64 (be_nchild b + 1))) j bes = alter (fun b => set_nchild b (be_nchild b + 1)) j bes) as E.
  { apply list_alter_ext; [|done]. intros b Hb. rewrite Hj in Hb. injection Hb as <-. rewrite w64_small; [done|]. rewrite B1 in *. lia. }
  rewrite w64_small by lia. rewrite E. split_and!; try done. constructor; unfold kids_of, watched; cbn; try done.
  - rewrite length_app, w64_small by lia. simpl. lia.
  - rewrite length_app. simpl. lia.
  - apply (alter_ok bes j _ (fun i => length (filter (fun c => c_be c = i) (clist cs)))); [done| |].
    + intros i Hi. rewrite filter_one. cbn. rewrite decide_False by done. lia.
    + intros b Hb [C1 C2 C3 C4]. rewrite Hj in Hb. injection Hb as <-. rewrite filter_one. cbn. rewrite decide_True by done.
      destruct b0. cbn in *. constructor; cbn; try done; try lia. intros Hm. specialize (C4 Hm). lia.
  - apply Forall_app. rewrite length_alter. split; [done|]. apply Forall_singleton. by eapply lookup_lt_Some.
Qed.

Lemma on_mode_sub (mode bit fd x : Z) (X : gset Z) : fd ∈ on_mode mode bit ({[x]} ∪.) X -> fd = x \/ fd ∈ X.
Proof. unfold on_mode. case_decide; set_solver. Qed.

Lemma on_mode_sup (mode bit fd x : Z) (X : gset Z) : fd ∈ on_mode mode bit (.∖ {[x]}) X -> fd ∈ X.
Proof. unfold on_mode. case_decide; set_solver. Qed.

Lemma watched_elem (s : server) (fd : Z) : watched s fd = true <-> fd ∈ s_rdfds s \/ fd ∈ s_wrfds s \/ fd ∈ s_exfds s.
Proof. unfold watched. rewrite bool_decide_eq_true. set_solver. Qed.

Lemma watch_ok (s : server) (fd mode : Z) : pool_ok s -> (0 <= fd < FD_SETSIZE)%Z ->
  exists s', server_watch_fd fd mode s = (s', Ok tt) /\ pool_ok s' /\ s_bes s' = s_bes s /\ s_children s' = s_children s /\
    sys_forks s' = sys_forks s /\ s_max_child s' = s_max_child s.
Proof.
  intros Hp Hfd. pose proof Hp as [H1 H2 H3 H4 H5 H6 H7 H8]. unfold server_watch_fd. rewrite decide_False by lia. unfold fd_in_set.
  rewrite bool_decide_true by done. eexists. split; [reflexivity|]. destruct s as [bes cs rd wr ex hfd nch mx st kf rp fk tm ac chs kl cl].
  cbn in *. split_and!; try done. constructor; cbn; try done; [|lia]. intros x. rewrite watched_elem. cbn.
  specialize (H5 x). rewrite watched_elem in H5. cbn in H5. intros [H|[H|H]]; apply on_mode_sub in H as [-> |H]; try lia.
  all: specialize (H5 ltac:(auto)); lia.
Qed.

(** The highest descriptor is found again. *)
Lemma recalc_ge (s : server) (n : nat) (fd : Z) : watched s fd = true -> (0 <= fd <= Z.of_nat n)%Z -> (fd <= recalc_loop s n)%Z.
Proof.
  intros Hw. induction n as [|n IH]; intros Hfd; [cbn; lia|]. cbn [recalc_loop]. destruct (watched s (Z.of_nat (S n))) eqn:E; [lia|].
  apply IH. destruct (decide (fd = Z.of_nat (S n))) as [-> |]; [congruence|lia].
Qed.

Lemma recalc_le (s : server) (n : nat) : (0 <= recalc_loop s n <= Z.of_nat n)%Z.
Proof. induction n as [|n IH]; [cbn; lia|]. cbn [recalc_loop]. destruct (watched _ _); lia. Qed.

Lemma close_ok (fd : Z) : (fd < FD_SETSIZE)%Z -> hoare pool_ok (server_close_fd fd) (fun _ => pool_ok) pool_ok.
Proof.
  intros Hfd s Hp. unfold server_close_fd, server_clear_fd, fd_in_set. case_decide as Hn; [done|]. rewrite bool_decide_true by lia. cbn.
  destruct s as [bes cs rd wr ex hfd nch mx st kf rp fk tm ac chs kl cl]. destruct Hp as [H1 H2 H3 H4 H5 H6 H7 H8]. cbn in *.
  set (s0 := mkSrv bes cs _ _ _ hfd nch mx st kf rp fk tm ac chs kl cl).
  assert (forall x, watched s0 x = true -> (0 <= x <= hfd)%Z) as Hw.
  { intros x. rewrite watched_elem. cbn. specialize (H5 x). rewrite watched_elem in H5. cbn in H5.
    intros [H|[H|H]]; apply on_mode_sup in H; auto. }
  pose proof (recalc_le s0 (Z.to_nat hfd)). constructor; cbn; try done; [|lia]. intros x Hx. specialize (Hw x).
  pose proof (recalc_ge s0 (Z.to_nat hfd) x) as Hge. rewrite Z2Nat.id in Hge by lia.
  unfold watched in *. cbn in *. specialize (Hw Hx). specialize (Hge Hx). lia.
Qed.

(** The state of the pool that a fork looks at. *)
Definition can_fork (s : server) (b : backend) : Prop :=
  children_count (s_children s) <> s_max_child s /\ be_nchild b <> be_max_child b.

Lemma fork_child_spec (s : server) (j : nat) (b : backend) : pool_ok s -> s_bes s !! j = Some b ->
  match server_fork_child j s with
  | (s', Ok _) => pool_ok s' /\ can_fork s b /\ s_bes s' = alter (fun b => set_nchild b (be_nchild b + 1)) j (s_bes s) /\
      s_max_child s' = s_max_child s /\ cs_nchild (s_children s') = (cs_nchild (s_children s) + 1)%Z /\ sys_forks s' = tail (sys_forks s)
  | (s', Fail) => pool_ok s' /\ s_bes s' = s_bes s /\
      (~ can_fork s b \/ head (sys_forks s) = None \/ head (sys_forks s) = Some SockFail \/ head (sys_forks s) = Some ForkFail)
  | _ => False
  end.
Proof.
  intros Hp Hj. unfold server_fork_child. erewrite (pbind_Ok pget) by reflexivity.
  erewrite pbind_Ok by (unfold get_be; rewrite Hj; reflexivity). unfold can_fork.
  destruct (decide (children_count (s_children s) = s_max_child s)) as [E|Hc].
  { rewrite bool_decide_false by tauto. cbn. split_and!; [done..|]. left. tauto. }
  rewrite bool_decide_true by done. erewrite (pbind_Ok (pguard _)) by reflexivity.
  destruct (decide (be_nchild b = be_max_child b)) as [E|Hn].
  { rewrite bool_decide_false by tauto. cbn. split_and!; [done..|]. left. tauto. }
  rewrite bool_decide_true by done. erewrite (pbind_Ok (pguard _)) by reflexivity. unfold next_fork.
  destruct (sys_forks s) as [|r fk] eqn:Ef.
  { rewrite (pbind_Ok _ _ s s SockFail) by (by rewrite Ef). cbn. split_and!; [done..|]. auto. }
  rewrite (pbind_Ok _ _ s (set_forks s fk) r) by (by rewrite Ef).
  pose proof (po_forks _ Hp) as Hfk. rewrite Ef in Hfk. apply Forall_cons in Hfk as [Hr Hfk].
  assert (pool_ok (set_forks s fk)) as Hp1 by (destruct Hp, s; by constructor).
  assert (s_bes (set_forks s fk) = s_bes s /\ s_children (set_forks s fk) = s_children s /\ s_max_child (set_forks s fk) = s_max_child s /\
    sys_forks (set_forks s fk) = fk) as (V1 & V2 & V3 & V4) by (by destruct s).
  destruct r as [| |pid fd]; [cbn; split_and!; [done..|auto]|cbn; split_and!; [done..|auto]|].
  destruct (add_child_ok (set_forks s fk) pid j b Hp1) as (s1 & E1 & Hp2 & W1 & W2 & W3 & W4); [by rewrite V1|by rewrite V2, V3|done|].
  rewrite (pbind_Ok _ _ _ _ _ E1). destruct (watch_ok s1 fd WATCH_FD_READ Hp2 Hr) as (s2 & E2 & Hp3 & X1 & X2 & X3 & X4).
  rewrite (pbind_Ok _ _ _ _ _ E2). cbn. rewrite X1, X2, X3, X4, W1, W2, W3, W4, V1, V2, V3, V4. split_and!; done.
Qed.

Lemma fork_child_ok (j : nat) (I : server -> Prop) : (forall s, I s -> pool_ok s /\ j < length (s_bes s)) ->
  hoare I (server_fork_child j) (fun _ => pool_ok) pool_ok.
Proof.
  intros HI s [Hp Hj]%HI. apply lookup_lt_is_Some in Hj as [b Hj]. pose proof (fork_child_spec s j b Hp Hj) as H.
  destruct (server_fork_child j s) as [s' []]; tauto.
Qed.

(** A child less. *)
Lemma pid_index_Some (pid : Z) (l : list child) (i : nat) : pid_index pid l = Some i -> exists c, l !! i = Some c /\ c_pid c = pid.
Proof.
  revert i. induction l as [|c l IH]; intros i; cbn; [done|]. case_decide as E; [intros [= <-]; by exists c|].
  rewrite fmap_Some. intros (k & Hk & ->). by apply IH.
Qed.

Lemma reap_ok (pid : Z) : hoare pool_ok (server_reap_child pid) (fun _ => pool_ok) pool_ok.
Proof.
  intros s Hp. unfold server_reap_child. erewrite (pbind_Ok pget) by reflexivity. unfold children_get_by_pid.
  destruct (pid_index pid (clist (s_children s))) as [i|] eqn:Ei; [|done]. destruct (pid_index_Some _ _ _ Ei) as (c & Hi & Hc).
  cbn [of_option]. erewrite (pbind_Ok (plift _)) by reflexivity. rewrite Hi. erewrite (pbind_Ok (plift _)) by reflexivity.
  destruct Hp as [H1 H2 H3 H4 H5 H6 H7 H8]. destruct s as [bes cs rd wr ex hfd nch mx st kf rp fk tm ac chs kl cl]. cbn in *.
  unfold kids_of, watched in *. cbn in *. pose proof (lookup_lt_Some _ _ _ Hi) as Hlt. pose proof (length_delete (clist cs) i) as Hdel.
  rewrite Hi in Hdel. specialize (Hdel ltac:(by eexists)).
  assert (c_be c < length bes) as Hcb by (rewrite Forall_lookup in H4; by apply (H4 i)).
  constructor; unfold kids_of, watched; cbn; try done.
  - rewrite w64_small by lia. lia.
  - lia.
  - apply (alter_ok bes (c_be c) _ (fun i => length (filter (fun c => c_be c = i) (clist cs)))); [done| |].
    + intros x Hx. rewrite (filter_delete _ (clist cs) i c Hi). rewrite decide_False by done. lia.
    + intros b Hb [C1 C2 C3 C4]. pose proof (filter_delete (fun c0 => c_be c0 = c_be c) (clist cs) i c Hi) as Hd. rewrite decide_True in Hd by done.
      destruct b as [bi bm bl bn bx bst br bf]. cbn in *. rewrite w64_small by lia.
      case_decide; constructor; cbn in *; try done; try lia; intros Hm; specialize (C4 Hm); lia.
  - rewrite length_alter. by apply Forall_delete.
Qed.

(** The pool with [m] backends. *)
Definition pool (m : nat) (s : server) : Prop := pool_ok s /\ length (s_bes s) = m.

(** A program that keeps it, whether it succeeds or fails. *)
Abbreviation pooled m p := (hoare (pool m) p (fun _ => pool m) (pool m)).

Lemma pool_lookup (m j : nat) (s : server) : pool m s -> j < m -> exists b, s_bes s !! j = Some b.
Proof. intros [_ <-] Hj. by apply lookup_lt_is_Some. Qed.

Lemma pool_view_eq (m : nat) (s s' : server) : pool_view s = pool_view s' -> pool m s -> pool m s'.
Proof. intros E [Hp Hl]. split; [by apply (pool_ok_view s)|]. unfold pool_view in E. by injection E as <-. Qed.

Lemma upd_fork_child_ok (s : server) (j : nat) (f : backend -> backend) : pool_ok s ->
  (forall b, s_bes s !! j = Some b -> be_ok (kids_of s j) b -> be_ok (kids_of s j) (f b)) -> pool_ok (set_bes s (alter f j (s_bes s))).
Proof.
  intros [H1 H2 H3 H4 H5 H6 H7 H8] Hf. destruct s as [bes cs rd wr ex hfd nch mx st kf rp fk tm ac chs kl cl]. cbn in *.
  unfold kids_of, watched in *. cbn in *. constructor; unfold kids_of, watched; cbn; try done.
  - by apply (alter_ok bes j f (fun i => length (filter (fun c => c_be c = i) (clist cs)))).
  - by rewrite length_alter.
Qed.

(** A fork of the loop over the children to start. *)
Definition spawned (b : backend) : backend := set_fork_child (set_nchild b (be_nchild b + 1)) (be_fork_child b - 1).

Definition spawn_one (j : nat) : prog server unit :=
  server_spawn_child j;;; upd_be j (fun b => set_fork_child b (be_fork_child b - 1)).

Lemma spawn_one_spec (s : server) (j : nat) (b : backend) : pool_ok s -> s_bes s !! j = Some b -> (0 < be_fork_child b)%Z ->
  match spawn_one j s with
  | (s', Ok _) => pool_ok s' /\ s_bes s' = alter spawned j (s_bes s) /\
      s_max_child s' = s_max_child s /\ cs_nchild (s_children s') = (cs_nchild (s_children s) + 1)%Z /\ sys_forks s' = tail (sys_forks s)
  | (s', Fail) => pool_ok s' /\ s_bes s' = s_bes s /\
      (~ can_fork s b \/ head (sys_forks s) = None \/ head (sys_forks s) = Some SockFail \/ head (sys_forks s) = Some ForkFail)
  | _ => False
  end.
Proof.
  intros Hp Hj Hf. unfold spawn_one, server_spawn_child. pose proof (fork_child_spec s j b Hp Hj) as H. unfold pbind.
  destruct (server_fork_child j s) as [s1 [z| | |]]; try done. cbn. destruct H as (Hp1 & Hc & Eb & Em & Ec & Ef).
  assert (alter (fun b => set_fork_child b (be_fork_child b - 1)) j (s_bes s1) = alter spawned j (s_bes s)) as E.
  { rewrite Eb, list_alter_alter_eq. apply list_alter_ext; [|done]. intros x _. by destruct x. }
  split_and!; [| |destruct s1; cbn in *; done..].
  - apply upd_fork_child_ok; [done|]. intros b1 Hb1 [C1 C2 C3 C4].
    rewrite Eb, list_lookup_alter_eq, Hj in Hb1. injection Hb1 as <-. pose proof (po_bes _ Hp j b Hj) as [D1 D2 D3 D4].
    destruct b. cbn in *. constructor; cbn; try done; try lia. intros Hm. specialize (D4 Hm). lia.
  - destruct s1. cbn in *. exact E.
Qed.

Lemma spawn_one_ok (m j : nat) : j < m -> forall s b, pool m s -> s_bes s !! j = Some b -> (0 < be_fork_child b)%Z ->
  match spawn_one j s with
  | (s', Ok _) => pool m s' /\ s_bes s' !! j = Some (spawned b)
  | (s', Fail) => pool m s'
  | _ => False
  end.
Proof.
  intros Hj s b [Hp Hl] Hb Hf. pose proof (spawn_one_spec s j b Hp Hb Hf) as H. destruct (spawn_one j s) as [s' []]; try done.
  - destruct H as (Hp' & E & _). split; [|by rewrite E, list_lookup_alter_eq, Hb]. split; [done|]. by rewrite E, length_alter.
  - destruct H as (Hp' & E & _). split; [done|]. by rewrite E.
Qed.

Lemma spawn_loop_unfold (n j : nat) (i : Z) (s : server) (b : backend) : s_bes s !! j = Some b ->
  spawn_loop (S n) j i s = (if decide (i < be_fork_child b)%Z then spawn_one j;;; spawn_loop n j (i + 1) else pret tt) s.
Proof.
  intros Hb. cbn [spawn_loop]. unfold spawn_one. erewrite pbind_Ok by (unfold get_be; rewrite Hb; reflexivity).
  case_decide; [|done]. unfold pbind. by destruct (server_spawn_child j s) as [s1 []].
Qed.

Lemma spawn_loop_ok (m j : nat) : j < m -> forall (n : nat) (i : Z) (s : server) (b : backend), (0 <= i)%Z -> pool m s ->
  s_bes s !! j = Some b -> (be_fork_child b - i <= Z.of_nat n)%Z ->
  match spawn_loop (S n) j i s with (s', Ok _) | (s', Fail) => pool m s' | _ => False end.
Proof.
  intros Hj n. induction n as [|n IH]; intros i s b Hi Hp Hb Hn; rewrite (spawn_loop_unfold _ j i s b Hb); (case_decide; [|done]); [lia|].
  pose proof (spawn_one_ok m j Hj s b Hp Hb ltac:(lia)) as H1. unfold pbind. destruct (spawn_one j s) as [s1 []]; try done.
  destruct H1 as [Hp1 Hb1]. apply (IH (i + 1)%Z s1 (spawned b)); try done; [lia|]. destruct b. cbn in *. lia.
Qed.

Lemma get_be_ok (m j : nat) : j < m -> hoare (pool m) (get_be j) (fun b s => pool m s /\ s_bes s !! j = Some b) (pool m).
Proof. intros Hj s Hp. destruct (pool_lookup m j s Hp Hj) as [b Hb]. unfold get_be. by rewrite Hb. Qed.

Lemma spawn_bes_ok (m : nat) (l : list nat) : Forall (fun j => j < m) l -> pooled m (spawn_bes l).
Proof.
  induction 1 as [|j l Hj _ IH]; cbn [spawn_bes]; [by intros s ?|]. eapply hoare_bind; [by apply get_be_ok|]. intros b.
  apply (hoare_bind _ _ _ (fun _ => pool m)); [|intros []; exact IH]. intros s [Hp Hb]. case_decide; [done|].
  pose proof (spawn_loop_ok m j Hj (Z.to_nat (be_fork_child b)) 0 s b ltac:(lia) Hp Hb) as H1.
  destruct Hp as [Hp _]. pose proof (bo_fork _ _ (po_bes _ Hp j b Hb)). specialize (H1 ltac:(lia)).
  destruct (spawn_loop _ j 0 s) as [s' []]; done.
Qed.

Lemma spawn_children_ok (m : nat) : pooled m server_spawn_children.
Proof.
  unfold server_spawn_children. eapply hoare_bind; [apply hoare_get|]. intros s0. apply (hoare_pre _ (fun s => pool m s /\ length (s_bes s0) = m)).
  - intros s [Hp Hl]. apply spawn_bes_ok; [|done]. apply Forall_seq. intros i Hi. lia.
  - intros s [Hp ->]. split; [done|apply Hp].
Qed.

Lemma reap_length (pid : Z) (s : server) : length (s_bes (server_reap_child pid s).1) = length (s_bes s).
Proof.
  unfold server_reap_child, pbind, pget, plift, upd_be, pmod. destruct (children_get_by_pid _ _) as [i| | |]; try done.
  destruct (clist _ !! i) as [c|]; [|done]. destruct s. cbn. apply length_alter.
Qed.

Lemma waitpid_ok (m : nat) (pids : list Z) : pooled m (server_waitpid pids).
Proof.
  assert (forall pid, pooled m (server_reap_child pid)) as Hr.
  { intros pid s [Hp Hl]. pose proof (reap_ok pid s Hp) as H. pose proof (reap_length pid s) as Hlen.
    destruct (server_reap_child pid s) as [s' []]; try done; (split; [done|]); cbn in Hlen; congruence. }
  unfold server_waitpid. apply (hoare_bind _ _ _ (fun _ => pool m)); [|intros []; apply hoare_mod; intros s; apply pool_view_eq; by destruct s].
  induction pids as [|pid pids IH]; cbn [waitpid_loop]; [by intros s ?|]. apply (hoare_bind _ _ _ (fun _ => pool m)); [|intros []; exact IH].
  by eapply hoare_ignore.
Qed.

(** ** The loop *)

Lemma pooled_bind {A B} (m : nat) (p : prog server A) (k : A -> prog server B) :
  pooled m p -> (forall a, pooled m (k a)) -> pooled m (pbind p k).
Proof. intros Hp Hk. by apply (hoare_bind _ _ _ (fun _ => pool m)). Qed.

Lemma pooled_get {A} (m : nat) (k : server -> prog server A) :
  (forall s0, pool m s0 -> pooled m (k s0)) -> pooled m (pbind pget k).
Proof. intros Hk s Hs. by apply Hk. Qed.

Lemma pooled_ignore {A} (m : nat) (p : prog server A) : pooled m p -> pooled m (pignore p).
Proof. intros Hp. by eapply hoare_ignore. Qed.

Lemma pooled_view (m : nat) (f : server -> server) : (forall s, pool_view (f s) = pool_view s) -> pooled m (pmod f).
Proof. intros Hf. apply hoare_mod. intros s. by apply pool_view_eq. Qed.

Lemma pooled_ret {A} (m : nat) (a : A) : pooled m (pret a).
Proof. by intros s Hs. Qed.

Lemma pooled_fail {A} (m : nat) : pooled m (pfail (A:=A)).
Proof. by intros s Hs. Qed.

Lemma pooled_close (m : nat) (fd : Z) : (fd < FD_SETSIZE)%Z -> pooled m (server_close_fd fd).
Proof.
  intros Hfd s [Hp Hl]. pose proof (close_ok fd Hfd s Hp) as H. assert (s_bes (server_close_fd fd s).1 = s_bes s) as E.
  { unfold server_close_fd, server_clear_fd. case_decide; [done|]. destruct (fd_in_set fd); [|done]. by destruct s. }
  destruct (server_close_fd fd s) as [s' []]; try done; cbn in E; (split; [done|]); by rewrite E.
Qed.

Lemma pooled_fork (m j : nat) : j < m -> pooled m (server_fork_child j).
Proof.
  intros Hj s [Hp Hl]. destruct (pool_lookup m j s (conj Hp Hl) Hj) as [b Hb]. pose proof (fork_child_spec s j b Hp Hb) as H.
  destruct (server_fork_child j s) as [s' []]; try done; (split; [tauto|]).
  - destruct H as (_ & _ & -> & _). by rewrite length_alter.
  - destruct H as (_ & -> & _). done.
Qed.

#[export] Hint Resolve pooled_ret pooled_fail pooled_ignore spawn_children_ok waitpid_ok pooled_close pooled_fork : hoare.
#[export] Hint Extern 2 (hoare _ (pmod _) _ _) => apply pooled_view; intros []; reflexivity : hoare.

Lemma find_be_lt (p : backend -> bool) (l : list backend) (i j : nat) : find_be p i l = Some j -> j < i + length l.
Proof. revert i. induction l as [|b l IH]; intros i; cbn; [done|]. destruct (p b); [intros [= <-]; lia|]. intros H%IH. lia. Qed.

Lemma pooled_option {A B} (m : nat) (o : option A) (k : A -> prog server B) :
  (forall a, o = Some a -> pooled m (k a)) -> pooled m (pbind (plift (of_option o)) k).
Proof. intros Hk s Hs. destruct o as [a|]; [by apply (Hk a)|done]. Qed.

Lemma cb_fork_child_ok (m : nat) (cmd : byte) (data : list byte) (n : nat) : pooled m (server_ppc_cb_fork_child cmd data n).
Proof.
  unfold server_ppc_cb_fork_child. apply pooled_get. intros s0 [_ Hl]. unfold server_get_backend_by_id. apply pooled_option.
  intros j Hj%find_be_lt. rewrite Hl in Hj. cbn in Hj. eapply hoare_else.
  - apply pooled_bind; eauto with hoare.
  - intros s [Hp Hls]. cbn. split; [|destruct s; cbn in *; by rewrite length_alter]. apply upd_fork_child_ok; [done|].
    intros b _ [C1 C2 C3 C4]. destruct b. cbn in *. constructor; cbn; try done; try lia. intros Hm. specialize (C4 Hm). lia.
Qed.

Section loop_ok.
Variables (others : ppc server) (backend_serve : nat -> Z -> prog server unit) (flush_log loop_hook : prog server unit).
Variables (hst stack : list byte) (m : nat).

(** The code around the pool leaves it alone. *)
Hypothesis others_ok : forall cmd cb data n, others cmd = Some cb -> pooled m (cb cmd data n).
Hypothesis serve_ok : forall be ad, pooled m (backend_serve be ad).
Hypothesis flush_ok : pooled m flush_log.
Hypothesis hook_ok : pooled m loop_hook.

Lemma dispatch_ppc_ok (cmd : byte) (data : list byte) (n : nat) : pooled m (ppc_dispatch (server_ppc others) cmd data n).
Proof.
  unfold ppc_dispatch, server_ppc, ppc_register. case_decide; [apply pooled_ignore, cb_fork_child_ok|].
  case_decide; [apply pooled_ignore, pooled_ret|]. destruct (others cmd) as [cb|] eqn:E; [|apply pooled_fail].
  by apply pooled_ignore, (others_ok cmd cb).
Qed.

Lemma process_ppc_ok (fd : Z) : (fd < FD_SETSIZE)%Z -> pooled m (server_process_ppc others hst stack fd).
Proof.
  intros Hfd. unfold server_process_ppc. apply pooled_bind; [by intros s Hs; unfold pguard; destruct (bool_decide _)|intros _].
  apply pooled_get. intros s0 _. destruct (sys_chans s0 !! fd) as [ch|]; [|by apply pooled_close].
  pose proof (ppc_read_total hst stack ch) as Hr. destruct (ppc_read hst stack ch) as [ch' [[data [[cmd n]|]]| | |]]; try done.
  all: apply pooled_bind; [eauto with hoare|intros _]; by (apply dispatch_ppc_ok || apply pooled_close).
Qed.

Lemma be_serve_ok (be : nat) (ad : Z) : be < m -> pooled m (server_be_serve backend_serve be ad).
Proof.
  intros Hbe. unfold server_be_serve. apply (hoare_bind _ _ _ (fun b => pool m)).
  { eapply hoare_conseq; [by apply (get_be_ok m)|done|by intros b s [? _]|done]. }
  intros b. eapply hoare_else.
  - apply pooled_bind; [|intros _; unfold sys_close; eauto with hoare].
    destruct (be_model b); [apply pooled_fail|unfold server_child_serve; apply pooled_bind; eauto with hoare|by apply pooled_ignore..].
  - apply pooled_bind; [unfold sys_close; eauto with hoare|intros _; apply pooled_fail].
Qed.

Lemma dispatch_ok (fd : Z) : (fd < FD_SETSIZE)%Z -> pooled m (server_dispatch others backend_serve hst stack fd).
Proof.
  intros Hfd. unfold server_dispatch. apply pooled_get. intros s0 [_ Hl].
  destruct (find_be _ 0 (s_bes s0)) as [be|] eqn:E; [|by apply process_ppc_ok]. apply find_be_lt in E. rewrite Hl in E. cbn in E.
  apply pooled_bind.
  - intros s Hs. unfold server_be_accept. destruct (sys_accept s) as [|[ad|] l]; [done|..]; (eapply pool_view_eq; [|exact Hs]; by destruct s).
  - intros ad. eapply hoare_else; [by apply be_serve_ok|]. apply pooled_bind; [unfold sys_close; eauto with hoare|intros _; apply pooled_fail].
Qed.

Lemma dispatch_loop_ok (fds : list Z) : Forall (fun fd => fd < FD_SETSIZE)%Z fds -> pooled m (dispatch_loop others backend_serve hst stack fds).
Proof.
  induction 1 as [|fd fds Hfd _ IH]; cbn [dispatch_loop]; [apply pooled_ret|]. apply pooled_get. intros s0 _.
  apply pooled_bind; [|by intros _]. case_decide; [by apply pooled_ignore, dispatch_ok|apply pooled_ret].
Qed.

(** The descriptors of the system are below the size of the sets. *)
Definition wake_ok (w : wake) : Prop := Forall fork_ok (w_forks w) /\ Forall (fun fd => fd < FD_SETSIZE)%Z (w_ready w).

Lemma pass_ok (w : wake) : wake_ok w -> pooled m (server_pass others backend_serve flush_log loop_hook hst stack w).
Proof.
  intros [Hf Hr]. unfold server_pass. apply pooled_bind.
  { apply hoare_mod. intros s [[]]. split; [|by destruct s]. destruct s. by constructor. }
  intros _. apply pooled_bind; [eauto with hoare|intros _]. apply pooled_bind; [eauto with hoare|intros _].
  apply pooled_bind; [destruct (w_sigchld w); unfold server_sigchld; eauto with hoare|intros _].
  apply pooled_bind; [destruct (w_select w); [apply pooled_ret|apply pooled_fail]|intros _].
  apply pooled_get. intros s0 _. apply pooled_bind; [destruct (s_reap_children s0); eauto with hoare|intros _].
  apply pooled_bind; [case_decide; [apply pooled_ret|apply pooled_bind; eauto with hoare]|intros _].
  apply pooled_bind; [case_decide; [done|apply pooled_ret]|intros _]. by apply dispatch_loop_ok.
Qed.

Lemma passes_ok (ws : list wake) : Forall wake_ok ws -> pooled m (server_passes others backend_serve flush_log loop_hook hst stack ws).
Proof.
  induction 1 as [|w ws Hw _ IH]; cbn [server_passes]; [apply pooled_ret|]. apply pooled_get. intros s0 _.
  destruct (s_stop s0); [apply pooled_ret|]. apply pooled_bind; [by apply pass_ok|by intros _].
Qed.
End loop_ok.

Lemma create_loop_ok (cfg : list byte -> option be_section) (fg : bool) (n : nat) : forall i l id bes,
  (Z.of_nat (length l) = i \/ i <= 0)%Z -> length l < n -> Forall (be_ok 0) bes ->
  match create_loop n cfg fg i l id bes with Ok bes' => Forall (be_ok 0) bes' | Fail => True | _ => False end.
Proof.
  induction n as [|n IH]; intros i l id bes Hi Hn Hb; [lia|]. cbn [create_loop]. case_decide; [done|]. case_decide as Hne; [done|].
  case_decide; [done|]. destruct (cfg (scan_name l)) as [[[c io] ao]|]; [|done].
  destruct (cfg_type c) as [ty|]; [|done]. cbn [of_option mbind res_bind].
  assert (match backend_create ty c io with Ok b => be_ok 0 b | Fail => True | _ => False end) as Hbc.
  { unfold backend_create. destruct (negb _); [done|]. destruct (match cfg_model c with Some v => backend_set_model v | None => Ok SERVER_MODEL_PREFORK end) as [md| | |] eqn:Em; cbn [mbind res_bind]; [|done|..].
    - assert (forall z, (0 <= u32 z < SIZE_MOD)%Z) as Hu.
      { intros z. unfold u32, SIZE_MOD. pose proof (Z.mod_pos_bound z (2 ^ 32)). lia. }
      destruct md, io; try done; constructor; cbn; try done; try (apply Hu); try (pose proof (Hu (default SERVER_PREFORK_START_CHILD (cfg_prefork_start c))); lia).
    - destruct (cfg_model c); [|done]. unfold backend_set_model in Em. by repeat case_match.
    - destruct (cfg_model c); [|done]. unfold backend_set_model in Em. by repeat case_match. }
  destruct (backend_create ty c io) as [[bi m ld nc mx st rq fk]| | |]; cbn [mbind res_bind]; try done. destruct ao; [|done].
  assert (length (scan_name l) <= length l) as Hsl by (clear; induction l as [|x l IH]; cbn; [done|]; destruct (is_list_blank x); cbn; lia).
  apply IH.
  - rewrite length_drop. destruct l; [done|]. cbn [length] in *. lia.
  - rewrite length_drop. destruct l; [done|]. cbn [length] in *. lia.
  - constructor; [|done]. destruct Hbc as [C1 C2 C3 C4]. cbn in *. constructor; cbn; try done. intros Hm. apply C4. destruct fg; [done|]. by case_decide.
Qed.

Lemma create_ok (sl : option (list byte)) (cfg : list byte -> option be_section) (fg : bool) (uid gid : Z) (mc : option Z) (log : bool) (s : server) :
  server_create sl cfg fg uid gid mc log = Ok s -> pool_ok s.
Proof.
  unfold server_create. destruct sl as [l|]; [|done]. case_decide; [done|].
  pose proof (create_loop_ok cfg fg (S (length l)) (Z.of_nat (length l)) l 0 [] ltac:(by left) ltac:(lia) ltac:(constructor)) as H1.
  destruct (create_loop _ _ _ _ _ _ _) as [bes| | |]; cbn [mbind res_bind]; try done. intros [= <-].
  constructor; unfold kids_of, watched; cbn; try done.
  - unfold w64. pose proof (Z.mod_pos_bound (default SERVER_MAX_CHILD mc) SIZE_MOD). unfold SIZE_MOD in *. lia.
  - intros i b Hb. rewrite Forall_lookup in H1. by apply (H1 i).
Qed.

Lemma listen_ok (m : nat) (sds : list Z) : forall j, j + length sds <= m -> Forall (fun sd => sd < FD_SETSIZE)%Z sds ->
  pooled m (listen_loop j sds).
Proof.
  induction sds as [|sd sds IH]; intros j Hj Hs; cbn [listen_loop]; [apply pooled_ret|]. cbn [length] in Hj. apply Forall_cons in Hs as [Hsd Hs].
  apply pooled_bind.
  { apply hoare_mod. intros s [Hp Hl]. split; [|destruct s; cbn in *; by rewrite length_alter]. apply upd_fork_child_ok; [done|].
    intros b _ [C1 C2 C3 C4]. destruct b. by constructor. }
  intros _. apply pooled_bind; [by intros s Hs0; unfold pguard; destruct (bool_decide _)|intros _].
  apply (hoare_bind _ _ _ (fun b => pool m)); [eapply hoare_conseq; [apply (get_be_ok m); lia|done|by intros b s [? _]|done]|].
  intros b. apply pooled_bind; [|intros _; apply IH; [lia|done]]. case_decide; [apply pooled_ret|]. intros s [Hp Hl].
  destruct (decide (sd < 0)%Z) as [Hn|Hn]; [unfold server_watch_fd; rewrite decide_True by done; done|].
  destruct (watch_ok s sd WATCH_FD_READ Hp ltac:(lia)) as (s' & -> & Hp' & E & _). split; [done|]. by rewrite E.
Qed.

Section server_theorems.
Variables (others : ppc server) (backend_serve : nat -> Z -> prog server unit) (flush_log loop_hook : prog server unit).
Variables (hst stack : list byte).
Hypothesis others_ok : forall m cmd cb data n, others cmd = Some cb -> pooled m (cb cmd data n).
Hypothesis serve_ok : forall m be ad, pooled m (backend_serve be ad).
Hypothesis flush_ok : forall m, pooled m flush_log.
Hypothesis hook_ok : forall m, pooled m loop_hook.

(** C12: the pool of processes.  Whatever the configuration, the messages the children send,
    the order in which they end, the connections and the failures of the system, in every
    state of the parent's loop the counters are those of the list of children, neither the
    server nor a backend has more children than it may, a prefork backend has the children it
    starts with or has asked for those that lack, every watched descriptor is looked at, and
    nothing undefined happens. *)
Theorem server_pool_invariant (sl : option (list byte)) (cfg : list byte -> option be_section) (fg : bool) (uid gid : Z) (mc : option Z) (log : bool)
    (sds : list Z) (ws : list wake) (s0 : server) :
  server_create sl cfg fg uid gid mc log = Ok s0 -> length sds = length (s_bes s0) -> Forall (fun sd => sd < FD_SETSIZE)%Z sds -> Forall wake_ok ws ->
  match (server_listen sds;;; server_passes others backend_serve flush_log loop_hook hst stack ws) s0 with
  | (s, Ok _) | (s, Fail) => pool_ok s
  | _ => False
  end.
Proof.
  intros Hc%create_ok Hl Hs Hw.
  assert (pooled (length (s_bes s0)) (server_listen sds;;; server_passes others backend_serve flush_log loop_hook hst stack ws)) as H.
  { apply pooled_bind; [apply listen_ok; [lia|done]|intros _]. apply passes_ok; eauto. }
  specialize (H s0 (conj Hc eq_refl)). by destruct (pbind _ _ s0) as [s []]; try done; destruct H.
Qed.
End server_theorems.

(** ** Refilling the pool *)

Lemma alter_same {A} (f : A -> A) (l : list A) (i : nat) : (forall x, l !! i = Some x -> f x = x) -> alter f i l = l.
Proof. intros H. rewrite <- (list_alter_ext id f l l i) by naive_solver. by rewrite list_alter_id. Qed.

(** The children that a pass of the loop over a backend starts: [i] grows while the number
    asked for shrinks, so half of them, rounded up. *)
Definition started (t : Z) (b : backend) : backend := set_fork_child (set_nchild b (be_nchild b + t)) (be_fork_child b - t).

Definition is_forked (r : fork_result) : Prop := match r with Forked _ _ => True | _ => False end.

(** There is room for [t] more children of [b] and the system gives them. *)
Definition room_for (s : server) (b : backend) (t : Z) : Prop :=
  (cs_nchild (s_children s) + t <= s_max_child s)%Z /\ (be_nchild b + t <= be_max_child b)%Z /\
  Forall is_forked (sys_forks s) /\ (t <= Z.of_nat (length (sys_forks s)))%Z.

Definition after_starting (s s' : server) (bes' : list backend) (t : Z) : Prop :=
  pool_ok s' /\ s_bes s' = bes' /\ s_max_child s' = s_max_child s /\ cs_nchild (s_children s') = (cs_nchild (s_children s) + t)%Z /\
  sys_forks s' = drop (Z.to_nat t) (sys_forks s).

Lemma spawn_one_room (s : server) (j : nat) (b : backend) : pool_ok s -> s_bes s !! j = Some b -> (0 < be_fork_child b)%Z ->
  room_for s b 1 -> exists s', spawn_one j s = (s', Ok tt) /\ after_starting s s' (alter (started 1) j (s_bes s)) 1.
Proof.
  intros Hp Hj Hf (R1 & R2 & R3 & R4). pose proof (spawn_one_spec s j b Hp Hj Hf) as H. destruct (spawn_one j s) as [s' [[]| | |]]; try done.
  - exists s'. split; [done|]. destruct H as (? & ? & ? & ? & E). by split_and!.
  - exfalso. destruct H as (_ & _ & H). unfold can_fork, children_count in H. destruct (sys_forks s) as [|r fk]; [simpl in R4; lia|].
    apply Forall_cons in R3 as [R3 _]. cbn in H. destruct H as [H|[H|[H|H]]]; [apply H; lia|done|..]; injection H as ->; done.
Qed.

Lemma spawn_loop_room (j : nat) : forall (n : nat) (i : Z) (s : server) (b : backend),
  let t := Z.max 0 ((be_fork_child b - i + 1) / 2) in
  (0 <= i)%Z -> pool_ok s -> s_bes s !! j = Some b -> (be_fork_child b - i <= Z.of_nat n)%Z -> room_for s b t ->
  exists s', spawn_loop (S n) j i s = (s', Ok tt) /\ after_starting s s' (alter (started t) j (s_bes s)) t.
Proof.
  intros n. induction n as [|n IH]; intros i s b t Hi Hp Hj Hn Hr; rewrite (spawn_loop_unfold _ j i s b Hj); case_decide as Hlt; [lia| | |].
  1,3: assert (t = 0%Z) as -> by (unfold t; assert ((be_fork_child b - i + 1) / 2 < 1)%Z by (apply Z.div_lt_upper_bound; lia); lia).
  1,2: exists s; (split; [done|]); split_and!; [done| |done|lia|done]; symmetry; apply alter_same;
    intros x _; destruct x; cbn; unfold started; cbn; f_equal; lia.
  assert (t = (1 + Z.max 0 ((be_fork_child b - 1 - (i + 1) + 1) / 2))%Z) as Et.
  { unfold t. replace (be_fork_child b - i + 1)%Z with ((be_fork_child b - 1 - (i + 1) + 1) + 1 * 2)%Z by lia. rewrite Z.div_add by lia.
    assert (0 <= (be_fork_child b - 1 - (i + 1) + 1) / 2)%Z by (apply Z.div_pos; lia). lia. }
  destruct Hr as (R1 & R2 & R3 & R4). pose proof (bo_fork _ _ (po_bes _ Hp j b Hj)) as Hf0.
  destruct (spawn_one_room s j b Hp Hj ltac:(lia)) as (s1 & E1 & Hp1 & B1 & M1 & C1 & F1); [split_and!; [lia|lia|done|lia]|].
  rewrite (pbind_Ok _ _ _ _ _ E1). assert (s_bes s1 !! j = Some (started 1 b)) as Hj1 by (by rewrite B1, list_lookup_alter_eq, Hj).
  assert (be_fork_child (started 1 b) = be_fork_child b - 1 /\ be_nchild (started 1 b) = be_nchild b + 1 /\ be_max_child (started 1 b) = be_max_child b)%Z
    as (S1 & S2 & S3) by (by destruct b).
  destruct (IH (i + 1)%Z s1 (started 1 b)) as (s' & E' & Hp' & B' & M' & C' & F'); [lia|done|done|rewrite S1; lia| |].
  { rewrite S1. unfold room_for. rewrite S2, S3, M1, C1, F1. split_and!; [lia|lia|by apply Forall_drop|].
    rewrite length_drop. lia. }
  rewrite S1 in *. exists s'. split; [exact E'|]. split_and!; [done| |congruence|lia|].
  - rewrite B', B1, list_alter_alter_eq. apply list_alter_ext; [|done]. intros x _. rewrite Et. destruct x. unfold started. cbn. f_equal; lia.
  - rewrite F', F1, drop_drop. f_equal. lia.
Qed.

(** A pass over all backends. *)
Definition asked (b : backend) : Z := if decide (be_model b = SERVER_MODEL_PREFORK) then be_fork_child b else 0.
Definition half (b : backend) : backend := started ((asked b + 1) / 2) b.

Definition total (bes : list backend) : Z := foldr (fun b z => (asked b + z)%Z) 0%Z bes.

(** Room for all that is asked for. *)
Definition room_all (s : server) (bes : list backend) : Prop :=
  (cs_nchild (s_children s) + total bes <= s_max_child s)%Z /\ Forall (fun b => be_nchild b + asked b <= be_max_child b)%Z bes /\
  Forall is_forked (sys_forks s) /\ (total bes <= Z.of_nat (length (sys_forks s)))%Z.

Lemma half_bounds (b : backend) : (0 <= be_fork_child b)%Z -> (0 <= asked b)%Z /\ (0 <= (asked b + 1) / 2 <= asked b)%Z.
Proof.
  intros Hb. assert (0 <= asked b)%Z as Ha by (unfold asked; case_decide; lia). split; [done|]. split; [apply Z.div_pos; lia|].
  apply Z.lt_succ_r, Z.div_lt_upper_bound; lia.
Qed.

Lemma asked_total_nonneg (bes : list backend) : Forall (fun b => 0 <= be_fork_child b)%Z bes -> (0 <= total bes)%Z.
Proof. unfold total. induction 1 as [|b bes Hb _ IH]; cbn [foldr]; [lia|]. pose proof (half_bounds b Hb). lia. Qed.

(** One backend. *)
Lemma spawn_be_room (s : server) (k : nat) (b : backend) : pool_ok s -> s_bes s !! k = Some b -> room_for s b ((asked b + 1) / 2) ->
  exists s1, (if decide (be_model b <> SERVER_MODEL_PREFORK \/ be_fork_child b = 0%Z) then pret tt
      else spawn_loop (S (Z.to_nat (be_fork_child b))) k 0) s = (s1, Ok tt) /\ after_starting s s1 (alter half k (s_bes s)) ((asked b + 1) / 2).
Proof.
  intros Hp Hb (R1 & R2 & R3 & R4). pose proof (bo_fork _ _ (po_bes _ Hp k b Hb)) as Hfb. destruct (half_bounds b Hfb) as [Ha Hh].
  set (tb := ((asked b + 1) / 2)%Z) in *. case_decide as Hd.
  - assert (asked b = 0%Z) as Hz by (unfold asked; case_decide; [destruct Hd; [done|lia]|done]).
    assert (tb = 0%Z) as Hz' by (unfold tb; by rewrite Hz). exists s. split; [done|]. rewrite Hz'. split_and!; [done| |done|lia|done].
    symmetry. apply alter_same. intros x Hx. rewrite Hb in Hx. injection Hx as <-. unfold half. fold tb. rewrite Hz'.
    destruct b. unfold started. cbn. f_equal; lia.
  - assert (asked b = be_fork_child b) as Hz by (unfold asked; case_decide; [done|tauto]).
    destruct (spawn_loop_room k (Z.to_nat (be_fork_child b)) 0 s b) as (s1 & E1 & Hs1); try done; [lia| |].
    + rewrite Z.sub_0_r, <- Hz. fold tb. split_and!; [lia|lia|done|lia].
    + exists s1. split; [exact E1|]. rewrite Z.sub_0_r, <- Hz in Hs1. fold tb in Hs1. rewrite Z.max_r in Hs1 by lia.
      destruct Hs1 as (Hp1 & B1 & Hs1). split_and!; try tauto. rewrite B1. apply list_alter_ext; [|done].
      intros x Hx. rewrite Hb in Hx. injection Hx as <-. done.
Qed.

Lemma spawn_bes_room (r : nat) : forall (k : nat) (s : server), k + r = length (s_bes s) -> pool_ok s -> room_all s (drop k (s_bes s)) ->
  exists s', spawn_bes (seq k r) s = (s', Ok tt) /\ pool_ok s' /\ s_max_child s' = s_max_child s /\
    s_bes s' = take k (s_bes s) ++ map half (drop k (s_bes s)) /\
    exists t, (0 <= t <= total (drop k (s_bes s)))%Z /\ t = foldr (fun b z => ((asked b + 1) / 2 + z)%Z) 0%Z (drop k (s_bes s)) /\
      cs_nchild (s_children s') = (cs_nchild (s_children s) + t)%Z /\ sys_forks s' = drop (Z.to_nat t) (sys_forks s).
Proof.
  induction r as [|r IH]; intros k s Hk Hp Hr; cbn [seq spawn_bes].
  { exists s. split_and!; try done; [rewrite drop_ge by lia; rewrite take_ge, app_nil_r by lia; done|]. exists 0%Z. rewrite drop_ge by lia. cbn. split_and!; lia || done. }
  destruct (lookup_lt_is_Some_2 (s_bes s) k ltac:(lia)) as [b Hb]. rewrite (drop_S _ b k Hb) in *.
  pose proof (bo_fork _ _ (po_bes _ Hp k b Hb)) as Hfb.
  assert (Forall (fun b => 0 <= be_fork_child b)%Z (drop (S k) (s_bes s))) as Hfs.
  { apply Forall_lookup. intros i x Hx. rewrite lookup_drop in Hx. apply (bo_fork _ _ (po_bes _ Hp _ x Hx)). }
  pose proof (asked_total_nonneg _ Hfs) as Htot. destruct Hr as (R1 & R2 & R3 & R4). apply Forall_cons in R2 as [R2b R2]. cbn [total foldr] in R1, R4.
  fold (total (drop (S k) (s_bes s))) in R1, R4. destruct (half_bounds b Hfb) as [Ha Hh]. set (tb := ((asked b + 1) / 2)%Z) in *.
  erewrite pbind_Ok by (unfold get_be; rewrite Hb; reflexivity).
  destruct (spawn_be_room s k b Hp Hb) as (s1 & E1 & Hp1 & B1 & M1 & C1 & F1); [fold tb; split_and!; [lia|lia|done|lia]|]. fold tb in C1, F1.
  rewrite (pbind_Ok _ _ _ _ _ E1).
  assert (drop (S k) (s_bes s1) = drop (S k) (s_bes s)) as Ed by (rewrite B1; apply drop_alter_lt; lia).
  destruct (IH (S k) s1) as (s' & E' & Hp' & M' & B' & t & Ht & Et & C' & F').
  { rewrite B1, length_alter. lia. }
  { done. }
  { unfold room_all. rewrite Ed, M1, C1, F1. split_and!; [lia|done|by apply Forall_drop|]. rewrite length_drop. lia. }
  rewrite Ed in *. exists s'. split_and!; [exact E'|done|congruence| |].
  - rewrite B', B1. assert (take (S k) (alter half k (s_bes s)) = take k (s_bes s) ++ [half b]) as ->.
    { rewrite (take_S_r _ _ (half b)) by (by rewrite list_lookup_alter_eq, Hb). by rewrite take_alter_ge by lia. }
    by rewrite <- app_assoc.
  - exists (tb + t)%Z. cbn [total foldr]. fold (total (drop (S k) (s_bes s))). fold tb. split_and!; [lia|lia|by rewrite Et|lia|].
    rewrite F', F1, drop_drop. f_equal. lia.
Qed.

Lemma asked_half (b : backend) : (0 <= be_fork_child b)%Z -> asked (half b) = (asked b / 2)%Z.
Proof.
  intros Hb. unfold half. destruct b as [i md l n x st r f]. unfold started, asked. cbn in *. case_decide; [|done].
  div_lia.
Qed.

Lemma total_half (bes : list backend) : Forall (fun b => 0 <= be_fork_child b)%Z bes ->
  (total (map half bes) + foldr (fun b z => ((asked b + 1) / 2 + z)%Z) 0%Z bes = total bes)%Z.
Proof.
  unfold total. induction 1 as [|b bes Hb _ IH]; cbn [map foldr]; [done|]. rewrite asked_half by done.
  assert (asked b / 2 + (asked b + 1) / 2 = asked b)%Z by div_lia. lia.
Qed.

Fixpoint spawn_passes (k : nat) : prog server unit :=
  match k with 0 => pret tt | S k' => server_spawn_children;;; spawn_passes k' end.

Lemma spawn_pass_room (s : server) : pool_ok s -> room_all s (s_bes s) ->
  exists s', server_spawn_children s = (s', Ok tt) /\ pool_ok s' /\ room_all s' (s_bes s') /\ s_bes s' = map half (s_bes s).
Proof.
  intros Hp Hr. destruct (spawn_bes_room (length (s_bes s)) 0 s eq_refl Hp Hr) as (s' & E & Hp' & M & B & t & Ht & Et & C & F).
  rewrite take_0, drop_0 in *. cbn [app] in *. exists s'. split_and!; [exact E|done| |done]. destruct Hr as (R1 & R2 & R3 & R4).
  assert (Forall (fun b => 0 <= be_fork_child b)%Z (s_bes s)) as Hfs.
  { apply Forall_lookup. intros i x Hx. apply (bo_fork _ _ (po_bes _ Hp _ x Hx)). }
  pose proof (total_half _ Hfs) as Hth. unfold room_all. rewrite M, C, F, B. split_and!; [lia| |by apply Forall_drop|rewrite length_drop; lia].
  rewrite Forall_forall in R2, Hfs |- *. intros x (b & -> & Hb)%list_elem_of_fmap. specialize (R2 b Hb). specialize (Hfs b Hb).
  rewrite asked_half by done. assert (asked b / 2 + (asked b + 1) / 2 = asked b)%Z by div_lia. unfold half.
  set (a := asked b) in *. destruct b. unfold started. cbn in *. lia.
Qed.


(** A backend at its limit starves the ones after it.  While the first backend has all the
    children it may have and one more is asked for, no turn of the loop starts a child of any
    backend. *)
Theorem server_pool_starves (s : server) (b : backend) (bes : list backend) : s_bes s = b :: bes ->
  be_model b = SERVER_MODEL_PREFORK -> (0 < be_fork_child b)%Z -> be_nchild b = be_max_child b ->
  server_spawn_children s = (s, Fail).
Proof.
  intros E Hm Hf Hn. unfold server_spawn_children. erewrite (pbind_Ok pget) by reflexivity. rewrite E. cbn [length seq spawn_bes].
  assert (get_be 0 s = (s, Ok b)) as Hg by (unfold get_be; by rewrite E). rewrite (pbind_Ok _ _ _ _ _ Hg). rewrite decide_False by (rewrite Hm; intros [?|?]; [done|lia]).
  apply pbind_Fail. rewrite (spawn_loop_unfold _ 0 0 s b) by (by rewrite E). rewrite decide_True by lia. apply pbind_Fail. unfold spawn_one. apply pbind_Fail.
  apply pbind_Fail. unfold server_fork_child. erewrite (pbind_Ok pget) by reflexivity. rewrite (pbind_Ok _ _ _ _ _ Hg).
  destruct (bool_decide (children_count (s_children s) <> s_max_child s)); [|done]. erewrite (pbind_Ok (pguard _)) by reflexivity.
  rewrite bool_decide_false by tauto. done.
Qed.

(** ** Shutting down *)

(** The children before the first that cannot be signalled. *)
Fixpoint reached (kill_ok : Z -> bool) (l : list child) : list child :=
  match l with [] => [] | c :: l' => if kill_ok (c_pid c) then c :: reached kill_ok l' else [] end.

Lemma signal_loop_spec (kill_ok : Z -> bool) (sig : Z) (n : nat) : forall s,
  n <= length (clist (s_children s)) -> cs_nchild (s_children s) = Z.of_nat (length (clist (s_children s))) ->
  exists s' r, signal_loop kill_ok n sig s = (s', r) /\ (r = Ok tt \/ r = Fail) /\ s_nchild s' = s_nchild s /\
    sys_kills s' = sys_kills s ++ map (fun c => (c_pid c, sig)) (reached kill_ok (reverse (take n (clist (s_children s))))).
Proof.
  induction n as [|n IH]; intros s Hn Hc; cbn [signal_loop].
  { exists s, (Ok tt). split_and!; try done; [by left|]. cbn. by rewrite app_nil_r. }
  erewrite (pbind_Ok pget) by reflexivity. destruct (lookup_lt_is_Some_2 (clist (s_children s)) n ltac:(lia)) as [c Hcn].
  unfold children_getn. rewrite decide_False by lia. rewrite Hcn, (take_S_r _ _ c Hcn), reverse_app. cbn [reverse rev_append app reached].
  destruct (kill_ok (c_pid c)).
  - erewrite pbind_Ok by reflexivity.
    destruct (IH (set_kills s (sys_kills s ++ [(c_pid c, sig)]))) as (s' & r & E & Hr & A2 & A3); [by destruct s; cbn in *; lia|by destruct s|].
    exists s', r. split_and!; [exact E|done|rewrite A2; by destruct s|]. rewrite A3. destruct s. cbn. by rewrite <- app_assoc.
  - exists s, Fail. split_and!; try done; [by right|]. by rewrite app_nil_r.
Qed.

(** Shutting down asks the children to end, the youngest first, stopping at the first
    that cannot be signalled, and never kills one: the count that decides on SIGKILL is never
    changed from 0. *)
Theorem server_shutdown_signals (kill_ok : Z -> bool) (s : server) : pool_ok s ->
  exists s', server_shutdown kill_ok s = (s', Ok tt) /\
    sys_kills s' = sys_kills s ++ map (fun c => (c_pid c, SIGTERM)) (reached kill_ok (reverse (clist (s_children s)))).
Proof.
  intros Hp. pose proof (po_count _ Hp) as Hc. pose proof (po_nchild _ Hp) as H0. unfold server_shutdown, server_signal_children.
  destruct (signal_loop_spec kill_ok SIGTERM (length (clist (s_children s))) s ltac:(lia) Hc) as (s' & r & E & Hr & A2 & A3). rewrite take_ge in A3 by lia.
  exists s'. split; [|done]. erewrite pbind_Ok.
  2: { unfold pignore. erewrite (pbind_Ok pget) by reflexivity. unfold children_count. rewrite Hc, Nat2Z.id, E. destruct Hr as [-> | ->]; reflexivity. }
  erewrite (pbind_Ok pget) by reflexivity. rewrite A2, H0. done.
Qed.

(** ** A child and its parent *)

Lemma child_loop_fast (p : nat) : forall (n : nat) ch bid l k, p < n ->
  child_loop n (mkCp ch bid false (replicate p (Some false) ++ l) k) = child_loop (n - p) (mkCp ch bid false l (p + k)).
Proof.
  induction p as [|p IH]; intros n ch bid l k Hn; [by rewrite Nat.sub_0_r|]. destruct n as [|n]; [lia|]. cbn [child_loop replicate app].
  erewrite (pbind_Ok pget) by reflexivity. cbn [cp_stop]. erewrite (pbind_Ok child_dispatch) by reflexivity.
  cbn [cp_chan cp_bid cp_stop cp_served]. rewrite IH by lia. replace (p + S k) with (S p + k) by lia. reflexivity.
Qed.

Lemma child_loop_slow (n : nat) bid l k : 0 < n ->
  child_loop n (mkCp (mkChan [] [] [] []) bid false (Some true :: l) k) =
    (mkCp (mkChan [] (msg_bytes (PPC_CMD_FORK_CHILD, int_bytes bid)) [] []) bid true l (S k), Ok tt).
Proof.
  intros Hn. destruct n as [|n]; [lia|]. cbn [child_loop]. erewrite (pbind_Ok pget) by reflexivity. cbn [cp_stop].
  assert (0 < length (int_bytes bid)) as Hl by (unfold int_bytes; rewrite le_enc_length; lia).
  pose proof (write_spec (PPC_CMD_FORK_CHILD, int_bytes bid) [] [] [] Hl) as Hw. cbn [fst snd app] in Hw.
  rewrite (pbind_Ok _ _ _ (mkCp (mkChan [] (msg_bytes (PPC_CMD_FORK_CHILD, int_bytes bid)) [] []) bid true l (S k)) tt).
  - destruct n as [|n]; [done|]. cbn [child_loop]. by erewrite (pbind_Ok pget) by reflexivity.
  - unfold child_dispatch, pignore, server_cb_spawn_child, pbind, server_ppc_cmd_fork_child. cbn [cp_accept cp_chan cp_bid]. by rewrite Hw.
Qed.

Lemma ppc_int_bytes (bid : Z) (rest : list byte) : (- 2 ^ 31 <= bid < 2 ^ 31)%Z -> ppc_int (int_bytes bid ++ rest) = bid.
Proof.
  intros Hb. unfold ppc_int, int_bytes. rewrite take_app_length' by (by rewrite le_enc_length).
  rewrite le_dec_enc by (pose proof (Z.mod_pos_bound bid (2 ^ 32)); lia). unfold i32.
  rewrite Zplus_mod_idemp_l, Z.mod_small by lia. lia.
Qed.

Lemma fork_child_chans (j : nat) (s : server) : sys_chans (server_fork_child j s).1 = sys_chans s.
Proof.
  unfold server_fork_child, pbind, pget, get_be, pguard, next_fork, server_add_child, upd_be, pmod, server_watch_fd.
  destruct (s_bes s !! j) as [b|]; [|done]. destruct (bool_decide _); [|done]. destruct (bool_decide _); [|done].
  destruct (sys_forks s) as [|[| |pid fd] fk] eqn:E; cbn; [done|by destruct s..|]. case_decide; [by destruct s|].
  destruct (fd_in_set fd); by destruct s.
Qed.

(** The parent gets the request for a new child. *)
Lemma process_fork_request (others : ppc server) (hst stack : list byte) (s : server) (fd : Z) (j : nat) (b : backend) :
  length hst = PPC_HDR_SIZE -> length stack = PPC_MAX_DATA_SIZE -> (0 <= fd)%Z -> pool_ok s -> s_bes s !! j = Some b ->
  server_get_backend_by_id s (be_id b) = Ok j -> (- 2 ^ 31 <= be_id b < 2 ^ 31)%Z ->
  sys_chans s !! fd = Some (mkChan (msg_bytes (PPC_CMD_FORK_CHILD, int_bytes (be_id b))) [] [] []) -> room_for s b 1 ->
  exists s', server_process_ppc others hst stack fd s = (s', Ok tt) /\ pool_ok s' /\
    s_bes s' = alter (fun b => set_nchild b (be_nchild b + 1)) j (s_bes s) /\ sys_chans s' !! fd = Some (mkChan [] [] [] []).
Proof.
  intros Hh Hst Hfd Hp Hj Hid Hr Hch (R1 & R2 & R3 & R4). unfold server_process_ppc. rewrite bool_decide_true by done.
  erewrite (pbind_Ok (pguard _)) by reflexivity. erewrite (pbind_Ok pget) by reflexivity. rewrite Hch.
  pose proof (read_spec (PPC_CMD_FORK_CHILD, int_bytes (be_id b)) [] hst stack [] [] [] [] Hh) as Hrd. cbn [snd fst xfer] in Hrd.
  assert (length (int_bytes (be_id b)) = 4) as Hl by apply le_enc_length. rewrite Hl in Hrd.
  specialize (Hrd ltac:(unfold PPC_MAX_DATA_SIZE; lia) ltac:(rewrite Hst; unfold PPC_MAX_DATA_SIZE; lia) eq_refl). rewrite !app_nil_r in Hrd.
  rewrite Hrd. clear Hrd. rewrite take_ge, drop_ge by lia. rewrite decide_False by (intros E; by rewrite E in Hl).
  erewrite (pbind_Ok (pmod _)) by reflexivity. set (s1 := set_chans s _).
  assert (pool_ok s1) as Hp1 by (apply (pool_ok_view s); [by destruct s|done]).
  assert (s_bes s1 = s_bes s /\ s_children s1 = s_children s /\ s_max_child s1 = s_max_child s /\ sys_forks s1 = sys_forks s) as (V1 & V2 & V3 & V4) by (by destruct s).
  unfold ppc_dispatch, server_ppc, ppc_register. rewrite decide_True by done. unfold pignore, server_ppc_cb_fork_child.
  erewrite (pbind_Ok pget) by reflexivity. rewrite ppc_int_bytes by done. unfold server_get_backend_by_id in *. rewrite V1, Hid.
  erewrite (pbind_Ok (plift _)) by reflexivity. unfold pelse, server_spawn_child.
  pose proof (fork_child_spec s1 j b Hp1 ltac:(by rewrite V1)) as Hf. pose proof (fork_child_chans j s1) as Hcs. unfold pbind.
  destruct (server_fork_child j s1) as [s' [z| | |]]; try done; cbn [fst] in Hcs.
  - exists s'. cbn. destruct Hf as (H1 & _ & H2 & _). split_and!; [done..|by rewrite H2, V1|]. rewrite Hcs. destruct s; cbn. apply lookup_insert_eq.
  - exfalso. destruct Hf as (_ & _ & Hf). unfold can_fork, children_count in Hf. rewrite V2, V3, V4 in Hf.
    destruct (sys_forks s) as [|r fk]; [simpl in R4; lia|]. apply Forall_cons in R3 as [R3 _]. cbn in Hf.
    destruct Hf as [H|[H|[H|H]]]; [apply H; lia|done|..]; injection H as ->; done.
Qed.

(** C29: a slow request costs a process but not the pool.  A child of a prefork backend
    that has served [p] requests and meets one that takes more than a second serves that one, no
    other, and leaves the parent a message; on that message the parent, if there is room,
    starts another child of the same backend. *)
Theorem slow_child_replaced (others : ppc server) (hst stack : list byte) (p n : nat) (l : list (option bool)) (s : server) (fd : Z)
    (j : nat) (b : backend) :
  length hst = PPC_HDR_SIZE -> length stack = PPC_MAX_DATA_SIZE -> (0 <= fd)%Z -> p < n -> pool_ok s -> s_bes s !! j = Some b ->
  server_get_backend_by_id s (be_id b) = Ok j -> (- 2 ^ 31 <= be_id b < 2 ^ 31)%Z -> room_for s b 1 ->
  exists c', child_loop n (mkCp (mkChan [] [] [] []) (be_id b) false (replicate p (Some false) ++ Some true :: l) 0) = (c', Ok tt) /\
    cp_served c' = S p /\ cp_stop c' = true /\
    exists s', server_process_ppc others hst stack fd (set_chans s (<[fd := mkChan (ch_out (cp_chan c')) [] [] []]> (sys_chans s))) = (s', Ok tt) /\
      pool_ok s' /\ s_bes s' = alter (fun b => set_nchild b (be_nchild b + 1)) j (s_bes s).
Proof.
  intros Hh Hst Hfd Hpn Hp Hj Hid Hr Hroom. rewrite child_loop_fast, child_loop_slow by lia. eexists. split; [reflexivity|].
  split_and!; [cbn; lia|done|]. cbn [cp_chan ch_out].
  destruct (process_fork_request others hst stack (set_chans s (<[fd := mkChan (msg_bytes (PPC_CMD_FORK_CHILD, int_bytes (be_id b))) [] [] []]> (sys_chans s))) fd j b)
    as (s' & E & Hp' & B & _); try done.
  - apply (pool_ok_view s); [by destruct s|done].
  - by destruct s.
  - by destruct s.
  - destruct s. cbn. apply lookup_insert_eq.
  - by destruct s.
  - exists s'. split_and!; [exact E|done|]. rewrite B. by destruct s.
Qed.

(** ** Evaluation *)

Definition web_cfg (name : list byte) : option be_section :=
  if decide (name = bs "web") then Some (mkBeCfg (Some (bs "http")) None None (Some 5%Z) (Some 3%Z) None, true, true)
  else if decide (name = bs "adm") then Some (mkBeCfg (Some (bs "http")) (Some (bs "fork")) None None None None, true, true)
  else None.

Definition web_server : server :=
  match server_create (Some (bs "web adm")) web_cfg false (-1) (-1) None true with
  | Ok s => s
  | _ => mkSrv [] children_create ∅ ∅ ∅ 0 0 0 false 0 false [] 0 [] ∅ [] []
  end.

Definition no_cbs : ppc server := fun _ => None.
Definition web_wakes : list wake :=
  [mkWake [Forked 100 6; Forked 101 7; SockFail] true false [] ∅ [] []; mkWake [Forked 102 8; Forked 103 9] true true [101%Z] ∅ [Some 10%Z] [4%Z]].
Definition web_final : server :=
  fst ((server_listen [4; 5]%Z;;;
        server_passes no_cbs (fun _ _ => pret tt) (pret tt) (pret tt) (replicate 16 x00) (replicate PPC_MAX_DATA_SIZE x00) web_wakes) web_server).

Lemma web_wakes_ok : Forall wake_ok web_wakes.
Proof. repeat constructor; vm_compute; done. Qed.

Lemma server_pool_invariant_witness :
  server_create (Some (bs "web adm")) web_cfg false (-1) (-1) None true = Ok web_server /\
  map be_nchild (s_bes web_final) = [1; 2]%Z /\ map be_fork_child (s_bes web_final) = [0; 1]%Z /\ pool_ok web_final.
Proof.
  split; [reflexivity|]. split; [reflexivity|]. split; [reflexivity|].
  pose proof (server_pool_invariant no_cbs (fun _ _ => pret tt) (pret tt) (pret tt) (replicate 16 x00) (replicate PPC_MAX_DATA_SIZE x00)
    ltac:(done) ltac:(intros; apply pooled_ret) ltac:(intros; apply pooled_ret) ltac:(intros; apply pooled_ret)
    (Some (bs "web adm")) web_cfg false (-1) (-1) None true [4; 5]%Z web_wakes web_server eq_refl eq_refl ltac:(repeat constructor) web_wakes_ok) as H.
  unfold web_final. destruct (pbind _ _ web_server) as [s []]; [exact H|exact H|contradiction|contradiction].
Defined.

(** A backend that wants six children. *)
Definition pre_be (id n mx st fk : Z) : backend := mkBe id SERVER_MODEL_PREFORK (-1) n mx st 100 fk.
Definition srv_of (bes : list backend) (forks : list fork_result) : server :=
  mkSrv bes children_create ∅ ∅ ∅ 0 0 300 false 0 false forks 0 [] ∅ [] [].
Definition six : server := srv_of [pre_be 0 0 10 6 6] (map (fun i => Forked (100 + Z.of_nat i) (Z.of_nat i)) (seq 3 6)).

Lemma srv_of_ok (bes : list backend) (forks : list fork_result) : Forall (be_ok 0) bes -> Forall fork_ok forks -> pool_ok (srv_of bes forks).
Proof.
  intros Hb Hf. constructor; unfold kids_of, watched; cbn; try done. intros i b Hi. rewrite Forall_lookup in Hb. by apply (Hb i).
Qed.

Lemma six_ok : pool_ok six.
Proof. apply srv_of_ok; repeat constructor; cbn; try done; lia. Qed.


(** The first backend is full and asked for one more child, the second has none. *)
Definition full_then_empty : server := srv_of [pre_be 0 2 2 2 1; pre_be 1 0 10 4 4] [Forked 100 6].

Lemma server_pool_starves_witness : server_spawn_children full_then_empty = (full_then_empty, Fail).
Proof.
  apply (server_pool_starves full_then_empty (pre_be 0 2 2 2 1) [pre_be 1 0 10 4 4]).
  - reflexivity.
  - reflexivity.
  - cbn. lia.
  - reflexivity.
Defined.

Definition two_kids : server :=
  mkSrv [pre_be 0 2 10 2 0] (mkCs [mkChild 100 0 0; mkChild 101 0 0] 2) ∅ ∅ ∅ 0 0 300 false 0 false [] 0 [] ∅ [] [].

Lemma two_kids_ok : pool_ok two_kids.
Proof.
  constructor; unfold kids_of, watched; cbn; try done.
  - intros [|i] b Hb; [|done]. injection Hb as <-. constructor; cbn; try done; lia.
  - repeat constructor.
Qed.

Lemma server_shutdown_signals_witness :
  exists s', server_shutdown (fun _ => true) two_kids = (s', Ok tt) /\ sys_kills s' = [(101, SIGTERM); (100, SIGTERM)]%Z.
Proof. destruct (server_shutdown_signals (fun _ => true) two_kids two_kids_ok) as (s' & E & K). exists s'. split; [exact E|]. rewrite K. reflexivity. Defined.

Lemma slow_child_replaced_witness :
  exists c', child_loop 10 (mkCp (mkChan [] [] [] []) 0 false [Some false; Some false; Some true; Some false] 0) = (c', Ok tt) /\
    cp_served c' = 3 /\ cp_stop c' = true /\
    exists s', server_process_ppc no_cbs (replicate 16 x00) (replicate PPC_MAX_DATA_SIZE x00) 6
        (set_chans six (<[6%Z := mkChan (ch_out (cp_chan c')) [] [] []]> ∅)) = (s', Ok tt) /\
      pool_ok s' /\ s_bes s' = [pre_be 0 1 10 6 6].
Proof.
  apply (slow_child_replaced no_cbs (replicate 16 x00) (replicate PPC_MAX_DATA_SIZE x00) 2 10 [Some false] six 6 0 (pre_be 0 0 10 6 6)).
  - reflexivity.
  - apply length_replicate.
  - lia.
  - lia.
  - exact six_ok.
  - reflexivity.
  - reflexivity.
  - cbn. lia.
  - split_and!; [cbn; lia|cbn; lia|cbn; repeat constructor|cbn; lia].
Defined.
