(* ===== verification/PpcLog.v ===== *)
(** Logging across processes: src/src/kloned/ppc_log_add.c, ppc_log_get.c, ppc_access_log.c and
    the logging functions of server.c.

    Only the parent writes logs: a child sends its messages, and in the prefork model asks for
    the lines of a log in memory.  The structures of the messages are laid out as on a 64-bit
    little-endian machine, zeroed before they are filled.  The size of a log line, [LOGSZ], is
    a constant of libu. *)

From stdpp Require Import gmap.
From S2P Require Import Prelude Libu Date Klog Ppc Server.

Record lbe := mkLbe {
  lb_id : Z;
  lb_model : server_model;
  lb_klog : option klog;
  lb_vhosts : option (list (option klog))      (* of the http object in [arg] *)
}.

(** The part of the parent that the callbacks work on, with the channel to the caller. *)
Record lsrv := mkLs {
  l_klog : option klog;
  l_bes : list lbe;
  l_disk : disk;
  l_now : Z;
  l_chan : chan
}.

Definition KLOG_INFO : Z := 1.
Definition KLOG_ALERT : Z := 6.

Definition klog_lev : list Z := [7; 6; 5; 4; 3; 2; 1; 0]%Z.
Definition syslog_to_klog (level : Z) : Z :=
  if decide (level < 0 \/ 7 < level)%Z then KLOG_ALERT else nth (Z.to_nat level) klog_lev 0%Z.

(** A C string at the start of [s]; without a NUL it is read out of bounds. *)
Definition read_cstr (s : list byte) : res (list byte) := if decide (x00 ∈ s) then Ok (cstr s) else Fault.

Definition pad_nul (n : nat) (s : list byte) : list byte := s ++ replicate (n - length s) x00.

Section log.
Context {L : Libu}.
Variables (ctime : Z -> list byte) (fopen_ok : nat -> bool) (LOGSZ : nat).

(** ** Messages of a child *)

Definition log_add_bytes (bid level : Z) (str : list byte) : list byte :=
  int_bytes bid ++ int_bytes level ++ pad_nul LOGSZ (fst (u_strlcpy str LOGSZ)).

Definition server_ppc_cmd_log_add (bid level : Z) (str : list byte) : prog chan unit :=
  ppc_write PPC_CMD_LOG_ADD (log_add_bytes bid level str);;; pret tt.

(** The same layout, with the number of the virtual host. *)
Definition server_ppc_cmd_access_log (bid vhostid : Z) (str : list byte) : prog chan unit :=
  ppc_write PPC_CMD_ACCESS_LOG (log_add_bytes bid vhostid str);;; pret tt.

(** ** The parent's side *)

Fixpoint find_lbe (bid : Z) (i : nat) (l : list lbe) : option nat :=
  match l with [] => None | b :: l' => if decide (lb_id b = bid) then Some i else find_lbe bid (S i) l' end.

(** The log of the backend, or of the server: [Some i] for backend [i]. *)
Definition logger (s : lsrv) (bid : Z) : option (option nat * klog) :=
  match find_lbe bid 0 (l_bes s) with
  | Some i => match l_bes s !! i with
              | Some b => match lb_klog b with Some kl => Some (Some i, kl) | None => pair None <$> l_klog s end
              | None => None
              end
  | None => pair None <$> l_klog s
  end.

Definition set_logger (s : lsrv) (loc : option nat) (kl : klog) : lsrv :=
  match loc with
  | None => mkLs (Some kl) (l_bes s) (l_disk s) (l_now s) (l_chan s)
  | Some i => mkLs (l_klog s) (alter (fun b => mkLbe (lb_id b) (lb_model b) (Some kl) (lb_vhosts b)) i (l_bes s)) (l_disk s) (l_now s) (l_chan s)
  end.

Definition log_to (loc : option nat) (kl : klog) (level : Z) (text : list byte) : prog lsrv unit := fun s =>
  let '(d, kl', r) := klog_log ctime fopen_ok (l_disk s) kl level (l_now s) text in
  let s' := set_logger s loc kl' in
  (mkLs (l_klog s') (l_bes s') d (l_now s') (l_chan s'), r).

Definition server_ppc_cb_log_add : ppc_cb lsrv := fun _ data _ =>
  let! s := pget in
  match logger s (ppc_int data) with
  | None => pret tt
  | Some (loc, kl) =>
      let! text := plift (read_cstr (drop 8 data)) in
      log_to loc kl (syslog_to_klog (ppc_int (drop 4 data))) text
  end.

(** The http object is a local variable that is set only when the backend is found. *)
Definition server_ppc_cb_access_log : ppc_cb lsrv := fun _ data _ =>
  let! s := pget in
  let! i := plift (match find_lbe (ppc_int data) 0 (l_bes s) with Some i => Ok i | None => Fault end) in
  let! b := plift (match l_bes s !! i with Some b => Ok b | None => Fault end) in
  let! vhosts := plift (match lb_vhosts b with Some l => Ok l | None => Fault end) in
  let n := ppc_int (drop 4 data) in
  let! v := plift (if decide (n < 0)%Z then Fail else of_option (vhosts !! Z.to_nat n)) in
  match v with
  | None => pret tt
  | Some kl =>
      let! text := plift (read_cstr (drop 8 data)) in
      fun s => let '(d, kl', r) := klog_log ctime fopen_ok (l_disk s) kl KLOG_INFO (l_now s) text in
        (mkLs (l_klog s) (alter (fun b => mkLbe (lb_id b) (lb_model b) (lb_klog b) (Some (<[Z.to_nat n := Some kl']> vhosts))) i (l_bes s))
              d (l_now s) (l_chan s), r)
  end.

(** ** Reading a log in memory *)

Definition LOG_GET_SIZE : nat := N.to_nat 528.
Definition long_bytes (z : Z) : list byte := le_enc 8 (z mod 2 ^ 64).
Definition i64 (z : Z) : Z := (z + 2 ^ 63) mod 2 ^ 64 - 2 ^ 63.
Definition log_get_bytes (bid i : Z) : list byte := int_bytes bid ++ replicate 4 x00 ++ long_bytes i ++ replicate KLOG_LN_SZ x00.
Definition get_i (data : list byte) : Z := i64 (le_dec (take 8 (drop 8 data))).

(** [data] with [s] written at [off]. *)
Definition write_at (off : nat) (s data : list byte) : list byte := take off data ++ s ++ drop (off + length s) data.

Definition server_ppc_cb_log_get : ppc_cb lsrv := fun _ data _ =>
  let! s := pget in
  let! data := plift
    match logger s (ppc_int data) with
    | None => Ok (write_at 8 (long_bytes (-1)) data)
    | Some (_, kl) =>
        match klog_getln ctime kl (Z.to_nat (w64 (get_i data))) with
        | Ok l => Ok (match kl_u kl with Kmem _ => write_at 16 (l ++ [x00]) data | _ => data end)
        | Fail => Ok (write_at 8 (long_bytes (-1)) data)
        | Fault => Fault
        | Timeout => Timeout
        end
    end in
  fun s => let '(ch, r) := ppc_write PPC_CMD_LOG_GET (take LOG_GET_SIZE data) (l_chan s) in
    (mkLs (l_klog s) (l_bes s) (l_disk s) (l_now s) ch, (fun _ => tt) <$> r).

(** The child: [peer] is what comes back for what it sends, [hst] the stack under the header
    that [ppc_read] reads.  The line is copied with the size of a pointer. *)
Definition server_ppc_cmd_log_get (peer : list byte -> list byte) (hst : list byte) (bid i : Z) : res (list byte) :=
  let plg := log_get_bytes bid i in
  match ppc_write PPC_CMD_LOG_GET plg (mkChan [] [] [] []) with
  | (ch, Ok _) =>
      match ppc_read hst plg (mkChan (peer (ch_out ch)) [] [] []) with
      | (_, Ok (plg, Some (cmd, _))) =>
          if decide (cmd <> PPC_CMD_LOG_GET) then Fail else
          if decide (get_i plg < 0)%Z then Fail else
          line ← read_cstr (drop 16 plg);
          Ok (fst (u_strlcpy line 8))
      | (_, Ok (_, None)) => Fault                 (* cmd is not set *)
      | (_, e) => match e with Fault => Fault | Timeout => Timeout | _ => Fail end
      end
  | (_, e) => match e with Fault => Fault | Timeout => Timeout | _ => Fail end
  end.

(** [server_get_klog_line]: [klog_getln] writes up to [KLOG_LN_SZ + 1] bytes into the [KLOG_LN_SZ]
    of the caller's buffer. *)
Definition server_get_klog_line (peer : list byte -> list byte) (hst : list byte) (be : option lbe) (kl : klog) (i : Z) : res (list byte) :=
  match kl_u kl, be with
  | Kmem _, Some b =>
      if decide (lb_model b = SERVER_MODEL_PREFORK) then server_ppc_cmd_log_get peer hst (lb_id b) i
      else l ← klog_getln ctime kl (Z.to_nat i); if decide (length l < KLOG_LN_SZ) then Ok l else Fault
  | _, _ => Fail
  end.

(** [server_foreach_memlog_line]: the lines given to the callback, [n] at most. *)
Fixpoint memlog_loop (n : nat) (peer : list byte -> list byte) (hst : list byte) (be : option lbe) (kl : klog) (i : Z) : res (list (list byte)) :=
  match n with
  | 0 => Timeout
  | S n' =>
      match server_get_klog_line peer hst be kl i with
      | Ok l => ls ← memlog_loop n' peer hst be kl (i + 1); Ok (l :: ls)
      | Fail => Ok []
      | Fault => Fault
      | Timeout => Timeout
      end
  end.

Definition no_memlog : list byte := bs "logging is not configured or is not a in-memory log".

(** The log of the calling backend, or else of the server. *)
Definition server_get_logger (klog : option klog) (be : option lbe) : option Klog.klog :=
  match be with
  | Some b => match lb_klog b with Some kl => Some kl | None => klog end
  | None => klog
  end.

Definition server_foreach_memlog_line (n : nat) (peer : list byte -> list byte) (hst : list byte) (klog : option klog) (be : option lbe)
    : list (list byte) * res unit :=
  match server_get_logger klog be with
  | Some kl =>
      match kl_u kl with
      | Kmem _ =>
          match memlog_loop n peer hst be kl 1 with
          | Ok ls => (ls, Ok tt)
          | Fail => ([], Fail)
          | Fault => ([], Fault)
          | Timeout => ([], Timeout)
          end
      | _ => ([no_memlog], Fail)
      end
  | None => ([no_memlog], Fail)
  end.

(** The parent as the peer of a child: it reads one request and answers it. *)
Definition parent_answer (hst stack : list byte) (s : lsrv) (req : list byte) : list byte :=
  match ppc_read hst stack (mkChan req [] [] []) with
  | (_, Ok (data, Some (cmd, n))) =>
      ch_out (l_chan (fst (ppc_dispatch (ppc_register (ppc_register ppc_create PPC_CMD_LOG_ADD server_ppc_cb_log_add)
        PPC_CMD_LOG_GET server_ppc_cb_log_get) cmd data n (mkLs (l_klog s) (l_bes s) (l_disk s) (l_now s) (mkChan [] [] [] [])))))
  | _ => []
  end.
End log.

(** ** The layout of messages *)

Lemma int_bytes_length (z : Z) : length (int_bytes z) = 4.
Proof. apply le_enc_length. Qed.
Lemma long_bytes_length (z : Z) : length (long_bytes z) = 8.
Proof. apply le_enc_length. Qed.

Lemma i64_bytes (z : Z) (pre rest : list byte) : length pre = 8 -> (- 2 ^ 63 <= z < 2 ^ 63)%Z -> get_i (pre ++ long_bytes z ++ rest) = z.
Proof.
  intros Hp Hz. unfold get_i. rewrite drop_app_length' by done. rewrite take_app_length' by (by rewrite long_bytes_length). unfold long_bytes.
  rewrite le_dec_enc by (pose proof (Z.mod_pos_bound z (2 ^ 64)); lia). unfold i64. rewrite Zplus_mod_idemp_l, Z.mod_small by lia. lia.
Qed.

Lemma log_get_length (bid i : Z) : length (log_get_bytes bid i) = LOG_GET_SIZE.
Proof. unfold log_get_bytes. rewrite !length_app, int_bytes_length, long_bytes_length, !length_replicate. unfold KLOG_LN_SZ, LOG_GET_SIZE. lia. Qed.

Lemma read_cstr_app (s rest : list byte) : (x00 ∉ s) -> read_cstr (s ++ x00 :: rest) = Ok s.
Proof.
  intros Hs. unfold read_cstr. rewrite decide_True by set_solver. f_equal.
  induction s as [|c s IH]; [done|]. rewrite not_elem_of_cons in Hs. destruct Hs as [H1 H2]. cbn. rewrite decide_False by congruence. by rewrite IH.
Qed.

Section log_spec.
Context {L : Libu} {LS : LibuSpec L}.
Variables (ctime : Z -> list byte) (fopen_ok : nat -> bool) (hst stack : list byte).
Hypothesis Hhst : length hst = PPC_HDR_SIZE.
Hypothesis Hstack : length stack = PPC_MAX_DATA_SIZE.

(** A whole message, read into a buffer. *)
Lemma read_whole (cmd : byte) (data buf : list byte) : 0 < length data <= PPC_MAX_DATA_SIZE -> length data <= length buf ->
  ppc_read hst buf (mkChan (msg_bytes (cmd, data)) [] [] []) = (mkChan [] [] [] [], Ok (data ++ drop (length data) buf, Some (cmd, length data))).
Proof.
  intros [H1 H2] Hb. pose proof (read_spec (cmd, data) [] hst buf [] [] [] [] Hhst H2 Hb eq_refl) as H. cbn [fst snd xfer] in H. rewrite !app_nil_r in H.
  rewrite H. rewrite take_ge, drop_ge by lia. rewrite decide_False; [done|]. intros ->. simpl in H1. lia.
Qed.

(** A message of a child: written, it is read by the parent as one message, with its numbers
    and its text cut to the size of a log line. *)
Lemma log_message_delivered (LOGSZ : nat) (Hlog : 0 < LOGSZ /\ LOGSZ + 8 <= PPC_MAX_DATA_SIZE) (cmd : byte) (bid level : Z) (str : list byte) :
  (- 2 ^ 31 <= bid < 2 ^ 31)%Z -> (- 2 ^ 31 <= level < 2 ^ 31)%Z -> (x00 ∉ str) ->
  exists ch data n, (ppc_write cmd (log_add_bytes LOGSZ bid level str);;; pret tt) (mkChan [] [] [] []) = (ch, Ok tt) /\
    ppc_read hst stack (mkChan (ch_out ch) [] [] []) = (mkChan [] [] [] [], Ok (data, Some (cmd, n))) /\
    ppc_int data = bid /\ ppc_int (drop 4 data) = level /\ read_cstr (drop 8 data) = Ok (take (LOGSZ - 1) str).
Proof.
  intros Hb Hlv Hz. set (txt := take (LOGSZ - 1) str). destruct Hlog as [H0 Hmax].
  assert (length txt < LOGSZ) as Ht by (unfold txt; rewrite length_take; lia).
  assert (log_add_bytes LOGSZ bid level str = int_bytes bid ++ int_bytes level ++ txt ++ replicate (LOGSZ - length txt) x00) as El.
  { unfold log_add_bytes, pad_nul. rewrite u_strlcpy_spec by done. done. }
  assert (length (log_add_bytes LOGSZ bid level str) = LOGSZ + 8) as Ell.
  { rewrite El, !length_app, !int_bytes_length, length_replicate. lia. }
  exists (mkChan [] (msg_bytes (cmd, log_add_bytes LOGSZ bid level str)) [] []), (log_add_bytes LOGSZ bid level str ++ drop (LOGSZ + 8) stack), (LOGSZ + 8).
  split_and!.
  - pose proof (write_spec (cmd, log_add_bytes LOGSZ bid level str) [] [] []) as H. cbn [fst snd app] in H.
    by rewrite (pbind_Ok _ _ _ _ _ (H ltac:(lia))).
  - cbn [ch_out]. rewrite read_whole by lia. by rewrite Ell.
  - rewrite El, <- !app_assoc. by apply ppc_int_bytes.
  - rewrite El, <- !app_assoc, drop_app_length' by (by rewrite int_bytes_length). by apply ppc_int_bytes.
  - rewrite El, <- !app_assoc. rewrite (app_assoc (int_bytes bid)), drop_app_length' by (by rewrite length_app, !int_bytes_length).
    destruct (LOGSZ - length txt) as [|k] eqn:Ek; [lia|]. cbn [replicate app].
    apply read_cstr_app. unfold txt. intros (i & Hi & _)%elem_of_take. by apply Hz, (list_elem_of_lookup_2 _ i).
Qed.

(** A child's log message reaches the log.  What a child sends is read by the parent as one
    message, and logging it there is logging the text, cut to the size of a log line, in the
    log of the child's backend or else of the server at the level that the child gave. *)
Theorem log_add_delivered (LOGSZ : nat) (Hlog : 0 < LOGSZ /\ LOGSZ + 8 <= PPC_MAX_DATA_SIZE) (bid level : Z) (str : list byte) (s : lsrv) (loc : option nat) (kl : klog) :
  (- 2 ^ 31 <= bid < 2 ^ 31)%Z -> (- 2 ^ 31 <= level < 2 ^ 31)%Z -> (x00 ∉ str) -> logger s bid = Some (loc, kl) ->
  exists ch data n, server_ppc_cmd_log_add LOGSZ bid level str (mkChan [] [] [] []) = (ch, Ok tt) /\
    ppc_read hst stack (mkChan (ch_out ch) [] [] []) = (mkChan [] [] [] [], Ok (data, Some (PPC_CMD_LOG_ADD, n))) /\
    server_ppc_cb_log_add ctime fopen_ok PPC_CMD_LOG_ADD data n s =
      log_to ctime fopen_ok loc kl (syslog_to_klog level) (take (LOGSZ - 1) str) s.
Proof.
  intros Hb Hlv Hz Hlg. destruct (log_message_delivered LOGSZ Hlog PPC_CMD_LOG_ADD bid level str Hb Hlv Hz) as (ch & data & n & E1 & E2 & E3 & E4 & E5).
  exists ch, data, n. split; [exact E1|]. split; [exact E2|].
  unfold server_ppc_cb_log_add. erewrite (pbind_Ok pget) by reflexivity. rewrite E3, Hlg, E5.
  erewrite (pbind_Ok (plift _)) by reflexivity. by rewrite E4.
Qed.

(** The same for a line of the access log: it is logged in the log of its virtual host. *)
Lemma access_log_delivered (LOGSZ : nat) (Hlog : 0 < LOGSZ /\ LOGSZ + 8 <= PPC_MAX_DATA_SIZE) (bid : Z) (vid : nat) (str : list byte)
    (s : lsrv) (i : nat) (b : lbe) (vhosts : list (option klog)) (kl : klog) :
  (- 2 ^ 31 <= bid < 2 ^ 31)%Z -> (Z.of_nat vid < 2 ^ 31)%Z -> (x00 ∉ str) ->
  find_lbe bid 0 (l_bes s) = Some i -> l_bes s !! i = Some b -> lb_vhosts b = Some vhosts -> vhosts !! vid = Some (Some kl) ->
  exists ch data n, server_ppc_cmd_access_log LOGSZ bid (Z.of_nat vid) str (mkChan [] [] [] []) = (ch, Ok tt) /\
    ppc_read hst stack (mkChan (ch_out ch) [] [] []) = (mkChan [] [] [] [], Ok (data, Some (PPC_CMD_ACCESS_LOG, n))) /\
    server_ppc_cb_access_log ctime fopen_ok PPC_CMD_ACCESS_LOG data n s =
      let '(d, kl', r) := klog_log ctime fopen_ok (l_disk s) kl KLOG_INFO (l_now s) (take (LOGSZ - 1) str) in
      (mkLs (l_klog s) (alter (fun b => mkLbe (lb_id b) (lb_model b) (lb_klog b) (Some (<[vid := Some kl']> vhosts))) i (l_bes s)) d (l_now s) (l_chan s), r).
Proof.
  intros Hb Hv Hz Hi Hbe Hvh Hkl.
  destruct (log_message_delivered LOGSZ Hlog PPC_CMD_ACCESS_LOG bid (Z.of_nat vid) str Hb ltac:(lia) Hz) as (ch & data & n & E1 & E2 & E3 & E4 & E5).
  exists ch, data, n. split; [exact E1|]. split; [exact E2|].
  unfold server_ppc_cb_access_log. erewrite (pbind_Ok pget) by reflexivity. rewrite E3, Hi. erewrite (pbind_Ok (plift _)) by reflexivity.
  rewrite Hbe. erewrite (pbind_Ok (plift _)) by reflexivity. rewrite Hvh. erewrite (pbind_Ok (plift _)) by reflexivity.
  rewrite E4, decide_False, Nat2Z.id, Hkl by lia. erewrite (pbind_Ok (plift _)) by reflexivity. cbn [of_option].
  rewrite E5. erewrite (pbind_Ok (plift _)) by reflexivity. done.
Qed.

(** ** Reading the log of the parent *)

Lemma request_read (bid i : Z) : let plg := log_get_bytes bid i in
  ppc_write PPC_CMD_LOG_GET plg (mkChan [] [] [] []) = (mkChan [] (msg_bytes (PPC_CMD_LOG_GET, plg)) [] [], Ok 1) /\
  ppc_read hst stack (mkChan (msg_bytes (PPC_CMD_LOG_GET, plg)) [] [] []) =
    (mkChan [] [] [] [], Ok (plg ++ drop LOG_GET_SIZE stack, Some (PPC_CMD_LOG_GET, LOG_GET_SIZE))).
Proof.
  intros plg. pose proof (log_get_length bid i) as Hl. fold plg in Hl. unfold LOG_GET_SIZE in *. split.
  - apply (write_spec (PPC_CMD_LOG_GET, plg) [] [] []). cbn [snd]. lia.
  - rewrite read_whole by (rewrite ?Hl, ?Hstack; unfold PPC_MAX_DATA_SIZE; lia). by rewrite Hl.
Qed.

(** The answer for a line of the log, or none. *)
Definition answer (bid i : Z) (r : option (list byte)) : list byte :=
  match r with
  | Some l => int_bytes bid ++ replicate 4 x00 ++ long_bytes i ++ pad_nul KLOG_LN_SZ l
  | None => int_bytes bid ++ replicate 4 x00 ++ long_bytes (-1) ++ replicate KLOG_LN_SZ x00
  end.

Lemma answer_length (bid i : Z) (r : option (list byte)) : (forall l, r = Some l -> length l < KLOG_LN_SZ) -> length (answer bid i r) = LOG_GET_SIZE.
Proof.
  intros Hr. unfold answer, pad_nul. destruct r as [l|]; rewrite !length_app, int_bytes_length, long_bytes_length, !length_replicate.
  - specialize (Hr l eq_refl). unfold KLOG_LN_SZ, LOG_GET_SIZE in *. lia.
  - unfold KLOG_LN_SZ, LOG_GET_SIZE. lia.
Qed.

Lemma write_line (pre l tail_ : list byte) : length pre = 16 -> length l < KLOG_LN_SZ ->
  take LOG_GET_SIZE (write_at 16 (l ++ [x00]) ((pre ++ replicate KLOG_LN_SZ x00) ++ tail_)) = pre ++ pad_nul KLOG_LN_SZ l.
Proof.
  intros Hp Hl. unfold write_at, pad_nul. rewrite <- app_assoc. rewrite <- Hp at 1. rewrite take_app_length.
  rewrite length_app. cbn [length]. rewrite <- Hp, drop_app_add, drop_app_le by (rewrite length_replicate; lia). rewrite drop_replicate.
  assert (replicate (KLOG_LN_SZ - length l) x00 = [x00] ++ replicate (KLOG_LN_SZ - (length l + 1)) x00) as ->.
  { replace (KLOG_LN_SZ - length l) with (S (KLOG_LN_SZ - (length l + 1))) by lia. done. }
  rewrite !app_assoc. rewrite take_app_length'; [done|]. rewrite !length_app, length_replicate. cbn [length]. unfold LOG_GET_SIZE, KLOG_LN_SZ in *. lia.
Qed.

Lemma write_none (bid i : Z) (tail_ : list byte) :
  take LOG_GET_SIZE (write_at 8 (long_bytes (-1)) (log_get_bytes bid i ++ tail_)) = answer bid i None.
Proof.
  unfold write_at, log_get_bytes, answer. rewrite <- !app_assoc. rewrite long_bytes_length.
  assert (length (int_bytes bid ++ replicate 4 x00) = 8) as H8 by (by rewrite length_app, int_bytes_length).
  rewrite (app_assoc (int_bytes bid)). rewrite (take_app_length' (int_bytes bid ++ replicate 4 x00) _ 8) by (by rewrite H8).
  replace (8 + 8) with (length ((int_bytes bid ++ replicate 4 x00) ++ long_bytes i)) by (by rewrite length_app, H8, long_bytes_length).
  rewrite (app_assoc _ (long_bytes i)), drop_app_length. rewrite <- !app_assoc. rewrite !app_assoc. rewrite take_app_length'; [by rewrite <- !app_assoc|].
  rewrite !length_app, int_bytes_length, long_bytes_length, !length_replicate. unfold LOG_GET_SIZE, KLOG_LN_SZ. lia.
Qed.

Lemma parent_answers (s : lsrv) (bid i : Z) (loc : option nat) (m : klog_mem) (thr : Z) (id : list byte) (r : option (list byte)) :
  let kl := mkKlog thr id (Kmem m) in
  (- 2 ^ 31 <= bid < 2 ^ 31)%Z -> (0 <= i < 2 ^ 63)%Z -> logger s bid = Some (loc, kl) ->
  klog_getln ctime kl (Z.to_nat i) = match r with Some l => Ok l | None => Fail end -> (forall l, r = Some l -> length l < KLOG_LN_SZ) ->
  parent_answer ctime fopen_ok hst stack s (msg_bytes (PPC_CMD_LOG_GET, log_get_bytes bid i)) = msg_bytes (PPC_CMD_LOG_GET, answer bid i r).
Proof.
  intros kl Hb Hi Hlg Hget Hr. destruct (request_read bid i) as [_ E]. unfold parent_answer. rewrite E. unfold ppc_dispatch, ppc_register.
  rewrite decide_True by done. unfold pignore, server_ppc_cb_log_get. erewrite (pbind_Ok pget) by reflexivity.
  assert (ppc_int (log_get_bytes bid i ++ drop LOG_GET_SIZE stack) = bid) as -> by (unfold log_get_bytes; rewrite <- app_assoc; by apply ppc_int_bytes).
  assert (logger (mkLs (l_klog s) (l_bes s) (l_disk s) (l_now s) (mkChan [] [] [] [])) bid = Some (loc, kl)) as -> by (rewrite <- Hlg; by destruct s).
  assert (get_i (log_get_bytes bid i ++ drop LOG_GET_SIZE stack) = i) as ->.
  { unfold log_get_bytes. rewrite (app_assoc (int_bytes bid)). rewrite <- !app_assoc. rewrite (app_assoc (int_bytes bid)). apply i64_bytes; [by rewrite length_app, int_bytes_length|lia]. }
  rewrite w64_small by (unfold SIZE_MOD; lia). rewrite Hget.
  assert (0 < length (answer bid i r)) as Hpos by (rewrite answer_length by done; unfold LOG_GET_SIZE; lia).
  pose proof (write_spec (PPC_CMD_LOG_GET, answer bid i r) [] [] [] Hpos) as Hw. cbn [fst snd app] in Hw. destruct r as [l|].
  - cbn [kl_u kl]. erewrite (pbind_Ok (plift _)) by reflexivity. cbn [l_chan].
    assert (log_get_bytes bid i = (int_bytes bid ++ replicate 4 x00 ++ long_bytes i) ++ replicate KLOG_LN_SZ x00) as -> by (unfold log_get_bytes; by rewrite <- !app_assoc).
    rewrite write_line; [|by rewrite !length_app, int_bytes_length, long_bytes_length|by apply Hr].
    rewrite <- !app_assoc. unfold answer in Hw |- *. rewrite Hw. done.
  - erewrite (pbind_Ok (plift _)) by reflexivity. cbn [l_chan]. rewrite write_none, Hw. done.
Qed.

Lemma child_gets (peer : list byte -> list byte) (bid i : Z) (r : option (list byte)) :
  (0 <= i < 2 ^ 63)%Z -> (forall l, r = Some l -> length l < KLOG_LN_SZ /\ x00 ∉ l) ->
  peer (msg_bytes (PPC_CMD_LOG_GET, log_get_bytes bid i)) = msg_bytes (PPC_CMD_LOG_GET, answer bid i r) ->
  server_ppc_cmd_log_get peer hst bid i = match r with Some l => Ok (take 7 l) | None => Fail end.
Proof.
  intros Hi Hr Hp. unfold server_ppc_cmd_log_get. destruct (request_read bid i) as [E _]. rewrite E. cbn [ch_out]. rewrite Hp.
  assert (length (answer bid i r) = LOG_GET_SIZE) as Hl by (apply answer_length; intros l El; by apply Hr).
  rewrite read_whole by (rewrite ?Hl, ?log_get_length; unfold LOG_GET_SIZE, PPC_MAX_DATA_SIZE; lia).
  rewrite drop_ge by (by rewrite Hl, log_get_length). rewrite app_nil_r, decide_False by tauto.
  assert (length (int_bytes bid ++ replicate 4 x00) = 8) as H8 by (by rewrite length_app, int_bytes_length).
  destruct r as [l|]; cbn [answer]; rewrite (app_assoc (int_bytes bid)), (i64_bytes _ _ _ H8) by lia.
  - destruct (Hr l eq_refl) as [Hll Hz]. rewrite decide_False by lia. rewrite app_assoc, drop_app_length' by (by rewrite length_app, H8, long_bytes_length).
    unfold pad_nul. destruct (KLOG_LN_SZ - length l) as [|k] eqn:Ek; [lia|]. cbn [replicate]. rewrite read_cstr_app by done. cbn [mbind res_bind].
    by rewrite u_strlcpy_spec by lia.
  - by rewrite decide_True by lia.
Qed.

(** The lines that a log in memory has, newest first. *)
Definition log_has (kl : klog) (ls : list (list byte)) : Prop :=
  exists m, kl_u kl = Kmem m /\ klm_nmsgs m = length ls /\
  forall n l, ls !! n = Some l -> klog_getln ctime kl (S n) = Ok l /\ length l < KLOG_LN_SZ /\ (x00 ∉ l).

Lemma memlog_loop_spec (peer : list byte -> list byte) (be : option lbe) (kl : klog) (f : list byte -> list byte) (ls : list (list byte)) :
  (forall n l, ls !! n = Some l -> server_get_klog_line ctime peer hst be kl (Z.of_nat (S n)) = Ok (f l)) ->
  server_get_klog_line ctime peer hst be kl (Z.of_nat (S (length ls))) = Fail ->
  forall k, k <= length ls -> memlog_loop ctime (S k) peer hst be kl (Z.of_nat (S (length ls - k))) = Ok (map f (drop (length ls - k) ls)).
Proof.
  intros Hls Hend k. induction k as [|k IH]; intros Hk.
  - cbn [memlog_loop]. rewrite Nat.sub_0_r, Hend, drop_ge by lia. done.
  - destruct (lookup_lt_is_Some_2 ls (length ls - S k) ltac:(lia)) as [l Hl]. cbn [memlog_loop] in IH |- *. rewrite (Hls _ _ Hl).
    replace (Z.of_nat (S (length ls - S k)) + 1)%Z with (Z.of_nat (S (length ls - k))) by lia. rewrite IH by lia. cbn [mbind res_bind].
    rewrite (drop_S _ l _ Hl). replace (S (length ls - S k)) with (length ls - k) by lia. done.
Qed.

(** What a page sees of the log.  Where a log in memory can be read directly a page gets its
    lines, newest first; in a child of a prefork backend, where they come from the parent, it
    gets the first seven characters of each. *)
Theorem memlog_lines (s : lsrv) (be : lbe) (loc : option nat) (kl : klog) (klog : option klog) (ls : list (list byte)) :
  (- 2 ^ 31 <= lb_id be < 2 ^ 31)%Z -> (Z.of_nat (length ls) + 1 < 2 ^ 63)%Z -> log_has kl ls ->
  logger s (lb_id be) = Some (loc, kl) -> server_get_logger klog (Some be) = Some kl ->
  server_foreach_memlog_line ctime (S (length ls)) (parent_answer ctime fopen_ok hst stack s) hst klog (Some be) =
    (if decide (lb_model be = SERVER_MODEL_PREFORK) then map (take 7) ls else ls, Ok tt).
Proof.
  intros Hb Hn (m & Hm & Hc & Hls) Hlg Hgl. unfold server_foreach_memlog_line. rewrite Hgl, Hm. destruct kl as [thr id u]. cbn [kl_u] in Hm. subst u.
  assert (klog_getln ctime (mkKlog thr id (Kmem m)) (S (length ls)) = Fail) as Hend.
  { unfold klog_getln, klog_getln_mem. cbn [kl_u]. rewrite decide_True by lia. done. }
  set (f := if decide (lb_model be = SERVER_MODEL_PREFORK) then take 7 else (fun l : list byte => l)).
  pose proof (memlog_loop_spec (parent_answer ctime fopen_ok hst stack s) (Some be) (mkKlog thr id (Kmem m)) f ls) as H.
  assert ((if decide (lb_model be = SERVER_MODEL_PREFORK) then map (take 7) ls else ls) = map f ls) as ->.
  { unfold f. case_decide; [done|]. by rewrite map_id. }
  assert (forall n r, n <= length ls -> klog_getln ctime (mkKlog thr id (Kmem m)) (S n) = match r with Some l => Ok l | None => Fail end ->
    (forall l, r = Some l -> length l < KLOG_LN_SZ /\ x00 ∉ l) ->
    server_get_klog_line ctime (parent_answer ctime fopen_ok hst stack s) hst (Some be) (mkKlog thr id (Kmem m)) (Z.of_nat (S n)) =
      match r with Some l => Ok (f l) | None => Fail end) as Hline.
  { intros n r Hnl Hget Hr. unfold server_get_klog_line. cbn [kl_u]. rewrite <- (Nat2Z.id (S n)) in Hget. unfold f. case_decide.
    - apply child_gets; [lia|done|]. eapply parent_answers; try done; [lia|]. intros l El. by apply Hr.
    - rewrite Hget. destruct r as [l|]; [|done]. cbn [mbind res_bind]. rewrite decide_True; [done|]. by apply Hr. }
  specialize (H (fun n l Hl => let '(conj A B) := Hls n l Hl in
    Hline n (Some l) (Nat.lt_le_incl _ _ (lookup_lt_Some _ _ _ Hl)) A (fun l' El => ltac:(injection El as <-; exact B)))
    (Hline (length ls) None (le_n _) Hend ltac:(done)) (length ls) (le_n _)).
  rewrite Nat.sub_diag, drop_0 in H. change (Z.of_nat 1) with 1%Z in H. by rewrite H.
Qed.
End log_spec.

(** ** Evaluation *)

Definition mem_log : klog := mkKlog 0 (bs "k") (Kmem (mkKlm 5 2 [mkMsg 4 0 (Some (bs "second")); mkMsg 1 0 (Some (bs "first"))])).
Definition log_be (m : server_model) : lbe := mkLbe 3 m None None.
Definition log_srv : lsrv := mkLs (Some mem_log) [log_be SERVER_MODEL_PREFORK] (mkDisk ∅ None) 0 (mkChan [] [] [] []).
Definition a_time (_ : Z) : list byte := bs "now".

Lemma mem_log_has : log_has a_time mem_log [bs "[ERR] now <k>: second"; bs "[INF] now <k>: first"].
Proof.
  eexists. split; [reflexivity|]. split; [reflexivity|].
  intros [|[|n]] l Hl; [injection Hl as <-|injection Hl as <-|done]; (split; [reflexivity|]; split; [apply Nat.ltb_lt; vm_compute; done|compute_decide]).
Qed.

Lemma memlog_lines_witness :
  server_foreach_memlog_line (L:=libu_ref) a_time 3 (parent_answer (L:=libu_ref) a_time (fun _ => true) (replicate 16 x00) (replicate PPC_MAX_DATA_SIZE x00) log_srv)
    (replicate 16 x00) (Some mem_log) (Some (log_be SERVER_MODEL_PREFORK)) = ([bs "[ERR] n"; bs "[INF] n"], Ok tt).
Proof.
  apply (memlog_lines (L:=libu_ref) a_time (fun _ => true) (replicate 16 x00) (replicate PPC_MAX_DATA_SIZE x00) eq_refl ltac:(apply length_replicate)
    log_srv (log_be SERVER_MODEL_PREFORK) None mem_log (Some mem_log) [bs "[ERR] now <k>: second"; bs "[INF] now <k>: first"]).
  - cbn. lia.
  - cbn. lia.
  - exact mem_log_has.
  - reflexivity.
  - reflexivity.
Defined.

Lemma log_add_delivered_witness :
  exists ch data n, server_ppc_cmd_log_add (L:=libu_ref) 512 3 3 (bs "disk full") (mkChan [] [] [] []) = (ch, Ok tt) /\
    ppc_read (replicate 16 x00) (replicate PPC_MAX_DATA_SIZE x00) (mkChan (ch_out ch) [] [] []) = (mkChan [] [] [] [], Ok (data, Some (PPC_CMD_LOG_ADD, n))) /\
    server_ppc_cb_log_add (L:=libu_ref) a_time (fun _ => true) PPC_CMD_LOG_ADD data n log_srv =
      log_to (L:=libu_ref) a_time (fun _ => true) None mem_log 4 (bs "disk full") log_srv.
Proof.
  apply (log_add_delivered (L:=libu_ref) a_time (fun _ => true) (replicate 16 x00) (replicate PPC_MAX_DATA_SIZE x00)
    eq_refl ltac:(apply length_replicate) 512 ltac:(split; apply Nat.leb_le; vm_compute; reflexivity) 3 3 (bs "disk full") log_srv None mem_log).
  - lia.
  - lia.
  - compute_decide.
  - reflexivity.
Defined.
