(* ===== verification/SesClient.v ===== *)
(** Client-side sessions: src/src/libpage/ses_client.c, in the build with OpenSSL.

    The variables of a session travel in cookies of the client: the data, the time of the
    last change, the initialisation vector of the cipher, and a code (HMAC) that only the
    server can compute.  The HMAC of OpenSSL and the codecs that encrypt and decrypt are
    parameters.  The state of the driver is [cipher_iv], an array of the options of the
    module.  [session_prv_save_to_buf] and [session_prv_load_from_buf] are those of [Session],
    for sessions without the key variable. *)

From S2P Require Import Prelude Libu Encode Path Date Io IoSpec IoMem Getline Header Vars Request Response.
From S2P Require Import Md5 Session.

Definition KL1_CLISES_DATA : list byte := bs "KL1_CLISES_DATA".
Definition KL1_CLISES_MTIME : list byte := bs "KL1_CLISES_MTIME".
Definition KL1_CLISES_HMAC : list byte := bs "KL1_CLISES_HMAC".
Definition KL1_CLISES_IV : list byte := bs "KL1_CLISES_IV".

Definition CIPHER_IV_LEN : nat := 16.                    (* EVP_MAX_IV_LENGTH *)
Definition EVP_MAX_MD_SIZE : nat := 64.
Definition COOKIE_MAX_SIZE : nat := N.to_nat 4096.
Definition CLISES_BUF_SIZE : nat := COOKIE_MAX_SIZE + 32 + 96.    (* with EVP_MAX_BLOCK_LENGTH *)

(** ** strtoul(s, NULL, 0) *)

Definition digit_value (c : byte) : option Z :=
  if isdigit c then Some (bz c - bz "0")%Z
  else if in_range "a" "z" (tolower c) then Some (bz (tolower c) - bz "a" + 10)%Z
  else None.

Fixpoint base_value (base acc : Z) (s : list byte) : Z :=
  match s with
  | [] => acc
  | c :: s' =>
      match digit_value c with
      | Some d => if decide (d < base)%Z then base_value base (base * acc + d) s' else acc
      | None => acc
      end
  end.

(** The value of the digits: hexadecimal after 0x, octal after 0, decimal otherwise. *)
Definition strtoul_digits (s : list byte) : Z :=
  match s with
  | c0 :: s' =>
      if decide (c0 = "0"%byte) then
        match s' with
        | c1 :: c2 :: s'' =>
            if decide (tolower c1 = "x"%byte /\ isxdigit c2 = true) then base_value 16 0 (c2 :: s'') else base_value 8 0 s
        | _ => base_value 8 0 s
        end
      else base_value 10 0 s
  | [] => 0
  end.

Definition ULONG_MAX : Z := 2 ^ 64 - 1.
Definition strtoul (s : list byte) : Z :=
  let clamp v := Z.min v ULONG_MAX in
  match skip_space s with
  | c :: s' =>
      if decide (c = "-"%byte) then
        let v := strtoul_digits s' in if decide (ULONG_MAX < v)%Z then ULONG_MAX else w64 (- v)
      else if decide (c = "+"%byte) then clamp (strtoul_digits s')
      else clamp (strtoul_digits (c :: s'))
  | [] => 0
  end.

(** A [time_t] assigned from an [unsigned long]. *)
Definition to_time_t (v : Z) : Z := (v + 2 ^ 63) mod 2 ^ 64 - 2 ^ 63.

(** ** The driver *)

(** An HMAC context that has its key: [Init], any number of [Update]s and [Final]. *)
Class Hmac := {
  hm_ctx : Type;
  hm_init : hm_ctx;
  hm_update : hm_ctx -> list byte -> hm_ctx;
  hm_final : hm_ctx -> list byte
}.

(** The code depends on the bytes, not on how they were split, and fits its buffer. *)
Class HmacSpec (H : Hmac) := {
  hm_update_app c x y : hm_update (hm_update c x) y = hm_update c (x ++ y);
  hm_update_nil c : hm_update c [] = c;
  hm_final_size c : 0 < length (hm_final c) <= EVP_MAX_MD_SIZE
}.

Section client.
Context {L : Libu} {H : Hmac} {K D C : Type} {CK : CodecOps K} {DO : DevOps D} {CO : CodecOps C}.
(** the codecs of a vector *)
Variables (encrypt decrypt : list byte -> list K).
Variables (fuel n : nat) (env : ses_env).
Abbreviation cliprog A := (prog (world (list byte) D C) A).

Definition client_mac (data sid mtime : list byte) (hex_iv : option (list byte)) : list byte :=
  let c := hm_update (hm_update (hm_update hm_init data) sid) mtime in
  hm_final (match hex_iv with Some iv => hm_update c iv | None => c end).

Definition session_client_hmac (data sid mtime : list byte) (hex_iv : option (list byte)) : res (list byte) :=
  match Hex.u_hexncpy (client_mac data sid mtime hex_iv) (length (client_mac data sid mtime hex_iv)) COPY_ENCODE with
  | Ok [] => Fail
  | r => r
  end.

Definition set_client_cookie (name : list byte) (value : option (list byte)) : cliprog unit :=
  on_rs (response_set_cookie name value 0 None None false).

(** Writing [data] and a NUL at the start of an array. *)
Definition write_array (array data : list byte) : res (list byte) :=
  if decide (length array < length data + 1) then Fault else Ok (data ++ x00 :: drop (length data + 1) array).

(** [iv]: what [RAND_pseudo_bytes] gives. *)
Definition session_client_save (iv : list byte) : cliprog unit :=
  pmod (fun w => mkWorld (w_ss w) (w_rs w) iv);;;
  let! hex := plift (Hex.u_hexncpy iv (length iv) COPY_ENCODE) in
  pguard (bool_decide (hex <> []));;;
  set_client_cookie KL1_CLISES_IV (Some hex);;;
  let! w := pget in
  let! buf := plift (session_prv_save_to_buf (encrypt (w_store w)) fuel (w_ss w)) in
  pguard (bool_decide (length buf <= COOKIE_MAX_SIZE));;;
  let! ehex := plift (Hex.u_hexncpy buf (length buf) COPY_ENCODE) in
  plift (if decide (CLISES_BUF_SIZE < length ehex + 1) then Fault else Ok tt);;;
  pguard (bool_decide (ehex <> []));;;
  set_client_cookie KL1_CLISES_DATA (Some ehex);;;
  let mtime := i32 (now env) in
  on_ss (pmod (fun ss => set_ss_mtime ss mtime));;;
  set_client_cookie KL1_CLISES_MTIME (Some (fmt_d mtime));;;
  let! hmac := plift (session_client_hmac ehex (ss_id (w_ss w)) (fmt_d mtime) (Some hex)) in
  set_client_cookie KL1_CLISES_HMAC (Some hmac).

Definition session_client_remove : cliprog unit :=
  set_client_cookie KL1_CLISES_DATA None;;;
  set_client_cookie KL1_CLISES_MTIME None;;;
  set_client_cookie KL1_CLISES_HMAC None;;;
  set_client_cookie KL1_CLISES_IV None.

(** [session_remove] with this driver. *)
Definition client_session_remove : cliprog unit :=
  pignore (on_rs (response_set_cookie (so_name env) None 0 None None false));;;
  on_ss (pmod (fun ss => set_ss_removed ss true));;;
  session_client_remove.

(** [request_get_cookie(ss->rq, name)] *)
Definition client_cookie (name : list byte) : res (option (list byte)) :=
  o ← vars_get (rq_cookies env) name;
  Ok (o ≫= fun kv => cstr <$> var_get_value kv.2).

(** [strlen] of a NULL [cli_iv] is undefined. *)
Definition session_client_load : cliprog unit :=
  let! ebuf := plift (client_cookie KL1_CLISES_DATA) in
  let! mtime := plift (client_cookie KL1_CLISES_MTIME) in
  let! hmac := plift (client_cookie KL1_CLISES_HMAC) in
  let! iv := plift (client_cookie KL1_CLISES_IV) in
  match ebuf, mtime, hmac with
  | Some ebuf, Some mtime, Some cli_hmac =>
      let! w := pget in
      let! hmac := plift (session_client_hmac ebuf (ss_id (w_ss w)) mtime iv) in
      if negb (streq hmac cli_hmac) then pignore client_session_remove;;; pfail else
      match iv with
      | None => plift Fault
      | Some iv =>
          let! b := plift (Hex.u_hexncpy iv (length iv) COPY_DECODE) in
          let! a := plift (write_array (w_store w) b) in
          pmod (fun w => mkWorld (w_ss w) (w_rs w) a);;;
          pguard (bool_decide (b <> []));;;
          on_ss (pmod (fun ss => set_ss_mtime ss (to_time_t (strtoul mtime))));;;
          pguard (bool_decide (length ebuf <= COOKIE_MAX_SIZE));;;
          let! buf := plift (Hex.u_hexncpy ebuf (length ebuf) COPY_DECODE) in
          pguard (bool_decide (buf <> []));;;
          on_ss (fun ss => session_prv_load_from_buf (decrypt a) fuel n ss buf)
      end
  | _, _, _ => pfail
  end.
End client.

Lemma base_10 (s : list byte) (acc : Z) : Forall (fun c => isdigit c = true) s -> base_value 10 acc s = digits_value acc s.
Proof.
  intros Hs. revert acc. induction Hs as [|c s Hc _ IH]; intros acc; [done|]. cbn [base_value digits_value]. unfold digit_value. rewrite Hc.
  rewrite decide_True; [apply IH|]. unfold isdigit, in_range in Hc. apply andb_true_iff in Hc as [_ Hc]. apply Z.leb_le in Hc.
  change (bz "9") with 57%Z in Hc. change (bz "0") with 48%Z. lia.
Qed.

Lemma strtoul_decimal (s : list byte) : Forall (fun c => isdigit c = true) s -> hd "0"%byte s <> "0"%byte ->
  (digits_value 0 s <= ULONG_MAX)%Z -> strtoul s = digits_value 0 s.
Proof.
  intros Hs H0 Hm. destruct s as [|c s]; [done|]. cbn [hd] in H0. pose proof (Forall_inv Hs) as Hc.
  assert (isspace c = false /\ c <> "-"%byte /\ c <> "+"%byte) as (S1 & S2 & S3).
  { assert (forall b, isdigit b = true -> isspace b = false /\ b <> "-"%byte /\ b <> "+"%byte) as A; [|by apply A].
    intros b Hb. split_and!; [|intros ->; done..]. destruct (isspace b) eqn:E; [|done].
    revert Hb E. revert b. byte_brute. }
  unfold strtoul. cbn [skip_space]. rewrite S1, decide_False by done. rewrite decide_False by done.
  unfold strtoul_digits. rewrite decide_False by done. rewrite base_10 by done. lia.
Qed.

Lemma digits_value_bounds (s : list byte) (acc : Z) : Forall (fun c => isdigit c = true) s -> (0 <= acc)%Z ->
  (acc * 10 ^ Z.of_nat (length s) <= digits_value acc s < (acc + 1) * 10 ^ Z.of_nat (length s))%Z.
Proof.
  intros Hs. revert acc. induction Hs as [|c s Hc _ IH]; intros acc Ha; cbn [digits_value length].
  - change (10 ^ Z.of_nat 0)%Z with 1%Z. lia.
  - rewrite Hc, Nat2Z.inj_succ, Z.pow_succ_r by lia. unfold isdigit, in_range in Hc. apply andb_true_iff in Hc as [H0 H9].
    apply Z.leb_le in H0, H9. change (bz "9") with 57%Z in H9. change (bz "0") with 48%Z in H0.
    specialize (IH (10 * acc + (bz c - 48))%Z ltac:(lia)). assert (0 < 10 ^ Z.of_nat (length s))%Z by (apply Z.pow_pos_nonneg; lia). nia.
Qed.

Lemma dec_go_hd (k : nat) (v : Z) : (0 < v < 10 ^ Z.of_nat k)%Z -> hd "0"%byte (dec_go k v) <> "0"%byte.
Proof.
  revert v. induction k as [|k IH]; intros v Hv; [change (10 ^ Z.of_nat 0)%Z with 1%Z in Hv; lia|]. cbn [dec_go].
  destruct (v <? 10)%Z eqn:E.
  - apply Z.ltb_lt in E. cbn [hd]. intros Hz. apply (f_equal bz) in Hz. rewrite bz_zb, Z.mod_small in Hz by lia. change (bz "0") with 48%Z in Hz. lia.
  - apply Z.ltb_ge in E. rewrite Nat2Z.inj_succ, Z.pow_succ_r in Hv by lia.
    assert (0 < v / 10 < 10 ^ Z.of_nat k)%Z as Hq by (split; [apply Z.div_str_pos; lia|apply Z.div_lt_upper_bound; lia]).
    specialize (IH _ Hq). destruct (dec_go k (v / 10)); [done|exact IH].
Qed.

(** ** The code *)

Section hmac_spec.
Context {L : Libu} {H : Hmac} {HS : HmacSpec H}.

(** The code of a sequence of bytes, as the cookie has it. *)
Definition code_of (bytes : list byte) : list byte := flat_map Hex.hex_encode_char (hm_final (hm_update hm_init bytes)).

Lemma hex_nonempty (s : list byte) : s <> [] -> flat_map Hex.hex_encode_char s <> [].
Proof. intros Hs Hn. apply (f_equal length) in Hn. rewrite Hex.hex_encode_length in Hn. destruct s; [done|cbn in Hn; lia]. Qed.

(** The fields are signed without anything between them. *)
Lemma hmac_eq (data sid mtime : list byte) (iv : option (list byte)) :
  session_client_hmac data sid mtime iv = Ok (code_of (data ++ sid ++ mtime ++ default [] iv)).
Proof.
  assert (client_mac data sid mtime iv = hm_final (hm_update hm_init (data ++ sid ++ mtime ++ default [] iv))) as Em.
  { unfold client_mac. rewrite !hm_update_app. destruct iv as [iv|]; cbn [from_option id]; [rewrite hm_update_app|rewrite app_nil_r]; by rewrite !app_assoc. }
  unfold session_client_hmac, code_of. rewrite Em. set (m := hm_final _). cbn [Hex.u_hexncpy].
  replace (Hex.u_hexncpy_encode m (length m)) with (Ok (flat_map Hex.hex_encode_char m)).
  2: { pose proof (Hex.hex_encode_total m []) as E. rewrite app_nil_r in E. by rewrite E. }
  destruct (flat_map Hex.hex_encode_char m) eqn:E; [|done]. exfalso.
  apply (hex_nonempty m); [|done]. intros Hn. pose proof (hm_final_size (hm_update hm_init (data ++ sid ++ mtime ++ default [] iv))) as Hz.
  fold m in Hz. rewrite Hn in Hz. cbn in Hz. lia.
Qed.
End hmac_spec.

Lemma hex_decode_eq `{Libu} (s : list byte) :
  Hex.u_hexncpy (flat_map Hex.hex_encode_char s) (length (flat_map Hex.hex_encode_char s)) COPY_DECODE = Ok s.
Proof.
  cbn [Hex.u_hexncpy]. unfold Hex.u_hexncpy_decode. rewrite decide_False by (rewrite Hex.hex_encode_length, Nat.Div0.mod_mul; lia).
  induction s as [|c s IH]; [done|]. cbn [flat_map Hex.hex_encode_char app length Hex.hex_decode_loop]. rewrite IH. cbn [mbind res_bind].
  by rewrite Hex.hex_char_roundtrip.
Qed.

Lemma hex_encode_eq `{Libu} (s : list byte) : Hex.u_hexncpy s (length s) COPY_ENCODE = Ok (flat_map Hex.hex_encode_char s).
Proof. cbn [Hex.u_hexncpy]. pose proof (Hex.hex_encode_total s []) as E. by rewrite app_nil_r in E. Qed.

Lemma hex_drop (k : nat) (s : list byte) : drop (2 * k) (flat_map Hex.hex_encode_char s) = flat_map Hex.hex_encode_char (drop k s).
Proof.
  revert s. induction k as [|k IH]; intros s; [done|]. destruct s as [|c s]; [by rewrite !drop_nil|].
  replace (2 * S k) with (S (S (2 * k))) by lia. cbn [flat_map Hex.hex_encode_char app drop]. apply IH.
Qed.

Section client_spec.
Context {L : Libu} {LS : LibuSpec L} {LM : LibuMem L} {H : Hmac} {HS : HmacSpec H}.
Context {K D C : Type} {CK : CodecOps K} {DO : DevOps D} {CO : CodecOps C}.
Variables (encrypt decrypt : list byte -> list K) (fuel n : nat).
Implicit Types (env : ses_env) (w : world (list byte) D C).

(** The cookies of a request. *)
Record cookies_are env (data mtime hmac : list byte) (iv : option (list byte)) : Prop := {
  ck_data : client_cookie env KL1_CLISES_DATA = Ok (Some data);
  ck_mtime : client_cookie env KL1_CLISES_MTIME = Ok (Some mtime);
  ck_hmac : client_cookie env KL1_CLISES_HMAC = Ok (Some hmac);
  ck_iv : client_cookie env KL1_CLISES_IV = Ok iv
}.

(** What is left of [session_client_load] when the code is right. *)
Definition checked_load (data mtime : list byte) (iv : option (list byte)) : prog (world (list byte) D C) unit :=
  match iv with
  | None => plift Fault
  | Some iv =>
      let! b := plift (Hex.u_hexncpy iv (length iv) COPY_DECODE) in
      let! w := pget in
      let! a := plift (write_array (w_store w) b) in
      pmod (fun w => mkWorld (w_ss w) (w_rs w) a);;;
      pguard (bool_decide (b <> []));;;
      on_ss (pmod (fun ss => set_ss_mtime ss (to_time_t (strtoul mtime))));;;
      pguard (bool_decide (length data <= COOKIE_MAX_SIZE));;;
      let! buf := plift (Hex.u_hexncpy data (length data) COPY_DECODE) in
      pguard (bool_decide (buf <> []));;;
      on_ss (fun ss => session_prv_load_from_buf (decrypt a) fuel n ss buf)
  end.

Lemma load_checks env w (data mtime hmac : list byte) (iv : option (list byte)) : cookies_are env data mtime hmac iv ->
  session_client_load decrypt fuel n env w =
    if decide (hmac = code_of (data ++ ss_id (w_ss w) ++ mtime ++ default [] iv)) then checked_load data mtime iv w
    else (pignore (client_session_remove env);;; pfail) w.
Proof.
  intros [C1 C2 C3 C4]. unfold session_client_load. rewrite C1, C2, C3, C4. unfold plift at 1 2 3 4.
  do 4 (erewrite pbind_Ok by reflexivity). erewrite (pbind_Ok pget) by reflexivity. rewrite hmac_eq. unfold plift at 1.
  erewrite pbind_Ok by reflexivity. set (c := code_of _).
  case_decide as E.
  - subst hmac. replace (streq c c) with true by (symmetry; by apply streq_eq). destruct iv as [iv|]; [|done]. cbn [negb checked_load].
    unfold plift. unfold pbind at 1 11. destruct (Hex.u_hexncpy iv (length iv) COPY_DECODE); done.
  - destruct (streq c hmac) eqn:Es; [|done]. apply streq_eq in Es. by rewrite Es in E.
Qed.

Lemma remove_cookies (names : list (list byte)) (w : world (list byte) D C) : Forall (fun nm => length nm < N.to_nat 4000) names ->
  exists rs' olds, foldr (fun nm p => set_client_cookie nm None;;; p) (pret tt) names w = (mkWorld (w_ss w) rs' (w_store w), Ok tt) /\
    h_fields (rs_header rs') = h_fields (rs_header (w_rs w)) ++ olds /\
    olds = map (fun nm => mk_field (bs "Set-Cookie", nm ++ bs "=; expires=Wed, 01-Jan-1990 10:10:10 GMT")) names.
Proof.
  intros Hn. revert w. induction Hn as [|nm names Hl _ IH]; intros w; cbn [foldr map].
  { exists (w_rs w), []. rewrite app_nil_r. by destruct w. }
  destruct (set_cookie_none nm (w_rs w) Hl) as (rs1 & old & E & F & ->).
  destruct (IH (mkWorld (w_ss w) rs1 (w_store w))) as (rs' & olds & E' & F' & ->). cbn [w_rs w_ss w_store] in E', F'.
  exists rs'. eexists. split_and!; [|rewrite F', F, <- app_assoc; reflexivity|reflexivity].
  erewrite pbind_Ok; [exact E'|]. unfold set_client_cookie, on_rs. by rewrite E.
Qed.

(** C22: a session that the client changed is not loaded.  When the code in the cookie is
    not that of the data, the identifier, the time and the vector, [session_client_load]
    fails, keeps the variables as they were, marks the session as removed and tells the
    client to forget the session and all its cookies. *)
Theorem client_session_rejected env w (data mtime hmac : list byte) (iv : option (list byte)) :
  cookies_are env data mtime hmac iv -> length (so_name env) < N.to_nat 4000 ->
  hmac <> code_of (data ++ ss_id (w_ss w) ++ mtime ++ default [] iv) ->
  exists rs', session_client_load decrypt fuel n env w = (mkWorld (set_ss_removed (w_ss w) true) rs' (w_store w), Fail) /\
    h_fields (rs_header rs') = h_fields (rs_header (w_rs w)) ++
      map (fun nm => mk_field (bs "Set-Cookie", nm ++ bs "=; expires=Wed, 01-Jan-1990 10:10:10 GMT"))
        [so_name env; KL1_CLISES_DATA; KL1_CLISES_MTIME; KL1_CLISES_HMAC; KL1_CLISES_IV].
Proof.
  intros Hc Hn Hne. rewrite (load_checks _ _ _ _ _ _ Hc), decide_False by done.
  destruct (set_cookie_none (so_name env) (w_rs w) Hn) as (rs1 & old & E & F & ->).
  destruct (remove_cookies [KL1_CLISES_DATA; KL1_CLISES_MTIME; KL1_CLISES_HMAC; KL1_CLISES_IV] (mkWorld (set_ss_removed (w_ss w) true) rs1 (w_store w)))
    as (rs' & olds & E' & F' & ->); [repeat (apply Forall_cons; split); [apply Nat.ltb_lt; vm_compute; reflexivity..|constructor]|].
  exists rs'. cbn [w_rs w_ss w_store] in E', F'. split; [|by rewrite F', F, <- app_assoc].
  assert (client_session_remove env w = (mkWorld (set_ss_removed (w_ss w) true) rs' (w_store w), Ok tt)) as Er.
  { unfold client_session_remove. erewrite pbind_Ok; [|unfold pignore, on_rs; rewrite E; reflexivity].
    erewrite pbind_Ok; [|unfold on_ss, pmod; cbn [w_ss w_rs w_store]; reflexivity].
    rewrite <- E'. cbn [foldr]. unfold session_client_remove, pbind.
    do 4 (destruct (set_client_cookie _ None _) as [? [[]| | |]]; try done). }
  erewrite pbind_Ok; [reflexivity|]. unfold pignore. by rewrite Er.
Qed.

(** C39: the code does not protect the time.  Time and vector are signed one after the
    other with nothing between them, so a client can move digits of the vector of a session
    it was given to the end of its time: when the first [2 k] digits of the vector are
    decimal, the session is accepted as changed at a time [10 ^ (2 k)] times as large, and
    does not expire. *)
Theorem client_session_postdated env w (data iv : list byte) (k : nat) (t : Z) (bytes : list byte) :
  let hex := flat_map Hex.hex_encode_char iv in
  cookies_are env data (fmt_d t ++ take (2 * k) hex) (code_of (data ++ ss_id (w_ss w) ++ fmt_d t ++ hex)) (Some (drop (2 * k) hex)) ->
  length iv = CIPHER_IV_LEN -> length (w_store w) = CIPHER_IV_LEN -> 0 < k < CIPHER_IV_LEN ->
  data = flat_map Hex.hex_encode_char bytes -> bytes <> [] -> length data <= COOKIE_MAX_SIZE ->
  Forall (fun c => isdigit c = true) (take (2 * k) hex) -> (0 < t < 2 ^ 31)%Z -> ((t + 1) * 10 ^ Z.of_nat (2 * k) <= 2 ^ 63)%Z ->
  exists later a, (t * 10 ^ Z.of_nat (2 * k) <= later < (t + 1) * 10 ^ Z.of_nat (2 * k))%Z /\
    session_client_load decrypt fuel n env w =
      on_ss (fun ss => session_prv_load_from_buf (decrypt a) fuel n ss bytes) (mkWorld (set_ss_mtime (w_ss w) later) (w_rs w) a).
Proof.
  intros hex Hc Hiv Hst Hk -> Hb Hl Hdig Ht Hmax.
  assert (length (take (2 * k) hex) = 2 * k) as Hlt.
  { rewrite length_take. unfold hex. rewrite Hex.hex_encode_length, Hiv. lia. }
  destruct (dec_go_spec 10 t ltac:(change (10 ^ Z.of_nat 10)%Z with 10000000000%Z; lia)) as (D1 & D2 & D3).
  assert (fmt_d t = dec_go 10 t) as Ef by (unfold fmt_d; rewrite decide_False by lia; done).
  set (later := digits_value 0 (fmt_d t ++ take (2 * k) hex)).
  assert (t * 10 ^ Z.of_nat (2 * k) <= later < (t + 1) * 10 ^ Z.of_nat (2 * k))%Z as Hlater.
  { unfold later. rewrite Ef, digits_value_app, D2 by done. pose proof (digits_value_bounds _ t Hdig ltac:(lia)) as B. rewrite Hlt in B. exact B. }
  assert (to_time_t (strtoul (fmt_d t ++ take (2 * k) hex)) = later) as Es.
  { assert (0 < 10 ^ Z.of_nat (2 * k))%Z by (apply Z.pow_pos_nonneg; lia).
    rewrite strtoul_decimal; [|rewrite Ef; by apply Forall_app| |unfold ULONG_MAX; fold later; nia].
    - fold later. unfold to_time_t. rewrite Z.mod_small; nia.
    - rewrite Ef. pose proof (dec_go_hd 10 t ltac:(change (10 ^ Z.of_nat 10)%Z with 10000000000%Z; lia)) as Hh.
      specialize (D3 ltac:(lia)). destruct (dec_go 10 t); [done|exact Hh]. }
  exists later, (drop k iv ++ x00 :: drop (length (drop k iv) + 1) (w_store w)). split; [done|].
  rewrite (load_checks _ _ _ _ _ _ Hc). cbn [from_option id]. rewrite <- (app_assoc (fmt_d t)), take_drop, decide_True by done.
  unfold checked_load. unfold hex at 1 2. rewrite hex_drop, hex_decode_eq. erewrite (pbind_Ok (plift _)) by reflexivity.
  erewrite (pbind_Ok pget) by reflexivity. unfold write_array.
  rewrite decide_False by (rewrite length_drop, Hiv, Hst; lia). erewrite (pbind_Ok (plift _)) by reflexivity.
  erewrite (pbind_Ok (pmod _)) by reflexivity.
  rewrite bool_decide_true. 2: { intros Hn. apply (f_equal length) in Hn. rewrite length_drop, Hiv in Hn. cbn [length] in Hn. lia. }
  erewrite (pbind_Ok (pguard _)) by reflexivity. erewrite (pbind_Ok (on_ss _)) by reflexivity.
  rewrite bool_decide_true by done. erewrite (pbind_Ok (pguard _)) by reflexivity.
  rewrite hex_decode_eq. erewrite (pbind_Ok (plift _)) by reflexivity. rewrite bool_decide_true by done.
  erewrite (pbind_Ok (pguard _)) by reflexivity. cbn [w_ss w_rs w_store]. by rewrite Es.
Qed.

(** No session is loaded as it was saved.  Decoding the vector of [CIPHER_IV_LEN] bytes
    writes a NUL behind [cipher_iv]; and a client that sends no vector but appends its text to
    the time makes the server read a NULL string. *)
Theorem client_session_faults env w (data mtime iv : list byte) (with_iv : bool) :
  let hex := flat_map Hex.hex_encode_char iv in
  cookies_are env data (if with_iv then mtime else mtime ++ hex) (code_of (data ++ ss_id (w_ss w) ++ mtime ++ hex)) (if with_iv then Some hex else None) ->
  length iv = CIPHER_IV_LEN -> length (w_store w) = CIPHER_IV_LEN ->
  session_client_load decrypt fuel n env w = (w, Fault).
Proof.
  intros hex Hc Hiv Hst. rewrite (load_checks _ _ _ _ _ _ Hc). destruct with_iv; cbn [from_option id].
  - rewrite decide_True by done. unfold checked_load, hex. rewrite hex_decode_eq. erewrite (pbind_Ok (plift _)) by reflexivity.
    erewrite (pbind_Ok pget) by reflexivity. unfold write_array. rewrite decide_True by (rewrite Hiv, Hst; lia). done.
  - by rewrite app_nil_r, decide_True.
Qed.

(** A session of 2112 to 4096 bytes overruns a buffer when it is saved, because the
    limit is that of the bytes and the buffer holds their hexadecimal digits. *)
Theorem client_session_too_big env w (iv buf : list byte) :
  length iv = CIPHER_IV_LEN -> session_prv_save_to_buf (encrypt iv) fuel (w_ss w) = Ok buf -> N.to_nat 2112 <= length buf <= COOKIE_MAX_SIZE ->
  (session_client_save encrypt fuel env iv w).2 = Fault.
Proof.
  intros Hiv Hb Hl. unfold session_client_save. erewrite (pbind_Ok (pmod _)) by reflexivity. rewrite hex_encode_eq.
  erewrite (pbind_Ok (plift _)) by reflexivity. set (hex := flat_map _ iv).
  assert (length hex = 32) as Hh by (unfold hex; rewrite Hex.hex_encode_length, Hiv; done).
  rewrite bool_decide_true by (destruct hex; [discriminate|done]). erewrite (pbind_Ok (pguard _)) by reflexivity.
  assert (length (flat_map Url.url_encode_char hex) <= 3 * length hex) as Hu.
  { clear. induction hex as [|c l IH]; [cbn; lia|]. cbn [flat_map length]. rewrite length_app. pose proof (Url.url_encode_char_length c). lia. }
  destruct (set_cookie_back (D2:=D) (C2:=C) KL1_CLISES_IV hex 0 None None None false (w_rs w)) as (rs' & txt & E & _); try done.
  { by destruct hex. }
  { rewrite !length_app, Hh in *. rewrite COOKIE_OUT_BUFSZ_val. cbn [KL1_CLISES_IV cookie_attrs app length bs]. cbn. lia. }
  erewrite pbind_Ok; [|unfold set_client_cookie, on_rs; cbn [w_rs]; rewrite E; reflexivity].
  erewrite (pbind_Ok pget) by reflexivity. cbn [w_ss w_store]. rewrite Hb. erewrite (pbind_Ok (plift _)) by reflexivity.
  rewrite bool_decide_true by lia. erewrite (pbind_Ok (pguard _)) by reflexivity. rewrite hex_encode_eq.
  erewrite (pbind_Ok (plift _)) by reflexivity. rewrite decide_True; [done|]. rewrite Hex.hex_encode_length. unfold CLISES_BUF_SIZE, COOKIE_MAX_SIZE in *. lia.
Qed.
End client_spec.

(** ** Evaluation *)

(** A checksum in the place of an HMAC. *)
#[local] Instance sum_mac : Hmac := {|
  hm_ctx := list byte; hm_init := []; hm_update := app (A:=byte);
  hm_final := fun l => [zb (foldr (fun c z => bz c + z)%Z 0%Z l)] |}.
#[local] Instance sum_mac_spec : HmacSpec sum_mac.
Proof. split; cbn; intros; [by rewrite app_assoc|by rewrite app_nil_r|unfold EVP_MAX_MD_SIZE; lia]. Qed.

Definition cli_sid : list byte := bs "0123456789abcdef0123456789abcdef".
Definition cli_iv : list byte := replicate 16 x12.
Definition cli_hex : list byte := flat_map Hex.hex_encode_char cli_iv.
Definition cli_data : list byte := flat_map Hex.hex_encode_char (bs "name=value" ++ [x0a]).
Definition cli_env (mtime hmac : list byte) (iv : option (list byte)) : ses_env :=
  mkEnv (bs "klone_sid") (bs "/tmp") 1200
    (mkVars ([fresh_var KL1_CLISES_DATA cli_data; fresh_var KL1_CLISES_MTIME mtime; fresh_var KL1_CLISES_HMAC hmac] ++
             match iv with Some iv => [fresh_var KL1_CLISES_IV iv] | None => [] end) false)
    (bs "127.0.0.1:80") 1700000000 18 4322 7.
Definition cli_world : world (list byte) io_mem no_codec :=
  mkWorld (mkSess vars_create [] cli_sid false 1700000000) (mkRs (mkHeader [] 0) (mem_io []) 200 HM_GET false) (replicate 16 x00).
Definition cli_code : list byte := code_of (cli_data ++ cli_sid ++ bs "1600000000" ++ cli_hex).
Definition no_cipher (_ : list byte) : list no_codec := [].

(** A session of 2020 sent back with the first two digits of its vector at the end of its
    time. *)
Lemma client_session_postdated_witness :
  exists later a, (1600000000 * 10 ^ 2 <= later < 1600000001 * 10 ^ 2)%Z /\
    session_client_load (L:=libu_ref) no_cipher 100 10 (cli_env (bs "160000000012") cli_code (Some (drop 2 cli_hex))) cli_world =
      on_ss (fun ss => session_prv_load_from_buf (L:=libu_ref) (no_cipher a) 100 10 ss (bs "name=value" ++ [x0a]))
        (mkWorld (set_ss_mtime (w_ss cli_world) later) (w_rs cli_world) a).
Proof.
  apply (client_session_postdated (L:=libu_ref) no_cipher 100 10 (cli_env (bs "160000000012") cli_code (Some (drop 2 cli_hex))) cli_world
    cli_data cli_iv 1 1600000000 (bs "name=value" ++ [x0a])).
  - split; vm_compute; reflexivity.
  - reflexivity.
  - reflexivity.
  - unfold CIPHER_IV_LEN. lia.
  - reflexivity.
  - discriminate.
  - apply Nat.leb_le. vm_compute. reflexivity.
  - repeat constructor.
  - lia.
  - lia.
Defined.

Lemma client_session_rejected_witness :
  exists rs', session_client_load (L:=libu_ref) no_cipher 100 10 (cli_env (bs "1700000000") cli_code (Some cli_hex)) cli_world =
      (mkWorld (set_ss_removed (w_ss cli_world) true) rs' (w_store cli_world), Fail) /\
    h_fields (rs_header rs') =
      map (fun nm => mk_field (bs "Set-Cookie", nm ++ bs "=; expires=Wed, 01-Jan-1990 10:10:10 GMT"))
        [bs "klone_sid"; KL1_CLISES_DATA; KL1_CLISES_MTIME; KL1_CLISES_HMAC; KL1_CLISES_IV].
Proof.
  apply (client_session_rejected (L:=libu_ref) no_cipher 100 10 (cli_env (bs "1700000000") cli_code (Some cli_hex)) cli_world
    cli_data (bs "1700000000") cli_code (Some cli_hex)).
  - split; vm_compute; reflexivity.
  - apply Nat.ltb_lt. vm_compute. reflexivity.
  - vm_compute. discriminate.
Defined.

Lemma client_session_faults_witness :
  session_client_load (L:=libu_ref) no_cipher 100 10 (cli_env (bs "1600000000") cli_code (Some cli_hex)) cli_world = (cli_world, Fault).
Proof.
  apply (client_session_faults (L:=libu_ref) no_cipher 100 10 (cli_env (bs "1600000000") cli_code (Some cli_hex)) cli_world
    cli_data (bs "1600000000") cli_iv true).
  - split; vm_compute; reflexivity.
  - reflexivity.
  - reflexivity.
Defined.

Definition big_ss : session := mkSess (mkVars [fresh_var (bs "a") (replicate (N.to_nat 2110) "x"%byte)] false) [] cli_sid false 0.

Lemma client_session_too_big_witness :
  (session_client_save (L:=libu_ref) no_cipher (N.to_nat 3000) (cli_env [] [] None) cli_iv
     (mkWorld big_ss (w_rs cli_world) (replicate 16 x00))).2 = Fault.
Proof.
  apply (client_session_too_big (L:=libu_ref) no_cipher (N.to_nat 3000) (cli_env [] [] None)
    (mkWorld big_ss (w_rs cli_world) (replicate 16 x00)) cli_iv (bs "a=" ++ replicate (N.to_nat 2110) "x"%byte ++ [x0a])).
  - reflexivity.
  - vm_compute. reflexivity.
  - split; apply Nat.leb_le; vm_compute; reflexivity.
Defined.
