(* ===== verification/Cgi.v ===== *)
(** CGI programs: src/src/libhttp/sup_cgi.c.

    The supplier that runs a program for a request: which files it accepts, the environment
    it gives to the program, and the response it makes of the program's output.  The
    configuration below [cgi] is a function from file extensions to handlers (with the
    [script_alias] keys that [Http.vhost] has), [stat] and [access] are functions of the
    file name, and the program is a function from what it reads to a device that gives what
    it writes. *)

From stdpp Require Import list.
From S2P Require Import Prelude Libu Encode Addr Path Date Io IoSpec IoMem Getline Header Vars Request Response.
From S2P Require Import Http Md5 Session Files Filter.

(** ** Which files are programs *)

Section valid.
Context {L : Libu}.
Variable FILENAME_MAX : nat.
Variable handlers : option (list byte -> option (list byte)).     (* cgi.EXT.handler; no [cgi] key at all *)
Variable script_alias : list (option (list byte)).
Variable x_ok : list byte -> bool.                                (* access(fqn, X_OK) == 0 *)
Variable stat_reg : list byte -> option Z.                        (* the mtime of a regular file *)

(** The loop looks for a blank from the last character down to the second; 0 when there is
    none. *)
Fixpoint last_blank (dir : list byte) (t : nat) : nat :=
  match t with
  | 0 => 0
  | S t' => match dir !! t with Some c => if is_alias_sep c then t else last_blank dir t' | None => last_blank dir t' end
  end.

Definition script_dir (dir : list byte) : option (list byte) :=
  match dir with
  | [] => Some []                     (* t is -1 *)
  | _ => match last_blank dir (length dir - 1) with 0 => None | t => Some (drop (S t) dir) end
  end.

Fixpoint script_loop (rules : list (option (list byte))) (fqn : list byte) : bool :=
  match rules with
  | [] => false
  | None :: rules' => script_loop rules' fqn
  | Some v :: rules' =>
      match script_dir v with
      | Some dir => if strprefix dir fqn && x_ok fqn then true else script_loop rules' fqn
      | None => script_loop rules' fqn
      end
  end.

Definition cgi_script (fqn : list byte) : bool :=
  match handlers with Some _ => script_loop script_alias fqn | None => false end.

(** What follows the last dot of the whole name. *)
Definition name_ext (fqn : list byte) : option (list byte) :=
  match strrchr fqn "."%byte with Some i => Some (drop (S i) fqn) | None => None end.

Definition cgi_ext (fqn : list byte) : option (list byte) :=
  match name_ext fqn, handlers with
  | Some ext, Some h => if (u_snprintf (ext ++ bs ".handler") FILENAME_MAX).2 then None else h ext
  | _, _ => None
  end.

Fixpoint has_dotdot (s : list byte) : bool :=
  match s with [] => false | c :: s' => strprefix (bs "..") s || has_dotdot s' end.

Definition cgi_is_valid_uri (uri : list byte) : option Z :=
  if decide (FILENAME_MAX < length uri + 1) then None else
  if has_dotdot uri then None else
  match stat_reg uri with
  | Some mtime => if negb (bool_decide (is_Some (cgi_ext uri))) && negb (cgi_script uri) then None else Some mtime
  | None => None
  end.

(** What is run: the arguments of [execve]. *)
Definition cgi_argv (cgi_file : list byte) : list (list byte) :=
  match cgi_ext cgi_file with
  | Some handler => if strcaseeq handler (bs "exec") then [cgi_file] else [handler; cgi_file]
  | None => [cgi_file]
  end.
End valid.

(** ** The environment *)

(** The array has [ce_size] places, NULL where no string was stored. *)
Record cgi_env := mkCgiEnv {
  ce_env : list (option (list byte));
  ce_size : nat;
  ce_count : nat
}.

Definition cgi_env0 : cgi_env := mkCgiEnv [] 0 0.
Definition CGI_CHUNK : nat := 32.

Definition toupper (c : byte) : byte := if in_range "a" "z" c then zb (bz c - 32) else c.

Section environment.
Context {L : Libu} {D C : Type}.
Variable KLONE_VERSION : list byte.

Definition cgi_setenv (name value : list byte) : prog cgi_env unit :=
  pguard (bool_decide (name <> []));;;
  let! e := pget in
  (if decide (ce_size e = 0 \/ ce_size e = ce_count e) then
     let size := ce_size e + CGI_CHUNK in
     pguard (u_alloc (8 * size));;;
     pmod (fun e => mkCgiEnv (take (ce_count e) (ce_env e) ++ replicate (size - ce_count e) None) size (ce_count e))
   else pret tt);;;
  pguard (u_alloc (length name + length value + 2));;;
  let! e := pget in
  if decide (ce_count e < length (ce_env e)) then
    pmod (fun e => mkCgiEnv (<[ce_count e := Some (name ++ bs "=" ++ value)]> (ce_env e)) (ce_size e) (S (ce_count e)))
  else plift Fault.

(** What [execve] reads: the strings up to the first NULL. *)
Fixpoint env_vector (a : list (option (list byte))) : res (list (list byte)) :=
  match a with
  | [] => Fault
  | None :: _ => Ok []
  | Some s :: a' => r ← env_vector a'; Ok (s :: r)
  end.

Definition setenv_opt (name : list byte) (value : option (list byte)) : prog cgi_env unit :=
  match value with Some v => cgi_setenv name v | None => pret tt end.

Definition cgi_setenv_addr (addr label_addr label_port : list byte) : prog cgi_env unit :=
  setenv_opt label_addr (u_addr_get_ip addr 128);;;
  setenv_opt label_port (u_addr_get_port addr 128).

Definition cgi_setenv_ctype (h : header) : prog cgi_env unit :=
  let! v := plift (header_get_field_value h (bs "Content-type")) in setenv_opt (bs "CONTENT_TYPE") v.

Definition cgi_setenv_clen (len : Z) : prog cgi_env unit :=
  if decide (0 < len)%Z then
    let '(buf, trunc) := u_snprintf (fmt_lu len) 32 in
    pguard (negb trunc);;; cgi_setenv (bs "CONTENT_LENGTH") buf
  else pret tt.

Definition method_name (m : method) : list byte :=
  match m with HM_GET => bs "GET" | HM_HEAD => bs "HEAD" | HM_POST => bs "POST" | _ => bs "UNKNOWN" end.

(** Up to a colon letters become capitals and dashes underscores. *)
Fixpoint env_case (s : list byte) : list byte :=
  match s with
  | [] => []
  | c :: s' => if decide (c = ":"%byte) then s else (if decide (c = "-"%byte) then "_"%byte else toupper c) :: env_case s'
  end.

Definition CGI_NAME_BUFSZ : nat := N.to_nat 1024.

(** A field without a name is printed from a NULL string. *)
Fixpoint env_fields (h : header) (idxs : list nat) : prog cgi_env unit :=
  match idxs with
  | [] => pret tt
  | i :: idxs' =>
      match header_get_fieldn h i ≫= fun k => h_fields h !! k with
      | Some f =>
          match f_name f with
          | Some nm =>
              let '(buf, trunc) := u_snprintf (bs "HTTP_" ++ nm) CGI_NAME_BUFSZ in
              pguard (negb trunc);;;
              cgi_setenv (env_case buf) (default [] (f_value f));;;
              env_fields h idxs'
          | None => plift Fault
          end
      | None => pfail
      end
  end.

(** [addr], [peer]: the addresses of the connection; [secure]: its io is encrypted; [sysroot]:
    SYSTEMROOT of the server's own environment. *)
Definition cgi_makeenv (rq : request D C) (addr peer : option (list byte)) (secure : bool) (sysroot : option (list byte)) : prog cgi_env unit :=
  cgi_setenv (bs "SERVER_SOFTWARE") (bs "klone/" ++ KLONE_VERSION);;;
  cgi_setenv (bs "SERVER_PROTOCOL") (bs "HTTP/1.0");;;
  cgi_setenv (bs "GATEWAY_INTERFACE") (bs "CGI/1.1");;;
  cgi_setenv (bs "REDIRECT_STATUS") (bs "200");;;
  match addr with
  | Some a =>
      cgi_setenv_addr a (bs "SERVER_ADDR") (bs "SERVER_PORT");;;
      setenv_opt (bs "SERVER_NAME") (u_addr_get_ip a CGI_NAME_BUFSZ)
  | None => pret tt
  end;;;
  match peer with Some a => cgi_setenv_addr a (bs "REMOTE_ADDR") (bs "REMOTE_PORT") | None => pret tt end;;;
  cgi_setenv (bs "REQUEST_METHOD") (method_name (rq_method rq));;;
  (if secure then cgi_setenv (bs "HTTPS") (bs "on") else pret tt);;;
  setenv_opt (bs "PATH_INFO") (path_info rq);;;
  setenv_opt (bs "PATH_TRANSLATED") (resolved_path_info rq);;;
  setenv_opt (bs "QUERY_STRING") (query rq);;;
  cgi_setenv_clen (content_length rq);;;
  cgi_setenv_ctype (rq_header rq);;;
  setenv_opt (bs "SCRIPT_NAME") (filename rq);;;
  setenv_opt (bs "REQUEST_URI") (rq_uri rq);;;
  setenv_opt (bs "SCRIPT_FILENAME") (resolved_filename rq);;;
  setenv_opt (bs "SYSTEMROOT") sysroot;;;
  env_fields (rq_header rq) (seq 0 (header_field_count (rq_header rq))).
End environment.

(** The variables in their order. *)
Definition opt_var (name : list byte) (value : option (list byte)) : list (list byte * list byte) :=
  match value with Some v => [(name, v)] | None => [] end.
Definition addr_vars {L : Libu} (addr label_addr label_port : list byte) : list (list byte * list byte) :=
  opt_var label_addr (u_addr_get_ip addr 128) ++ opt_var label_port (u_addr_get_port addr 128).
Definition field_var (f : field) : list byte * list byte := (env_case (bs "HTTP_" ++ default [] (f_name f)), default [] (f_value f)).

Definition cgi_vars {L : Libu} {D C} (version : list byte) (rq : request D C) (addr peer : option (list byte)) (secure : bool)
    (sysroot : option (list byte)) : list (list byte * list byte) :=
  [(bs "SERVER_SOFTWARE", bs "klone/" ++ version); (bs "SERVER_PROTOCOL", bs "HTTP/1.0"); (bs "GATEWAY_INTERFACE", bs "CGI/1.1");
   (bs "REDIRECT_STATUS", bs "200")] ++
  match addr with
  | Some a => addr_vars a (bs "SERVER_ADDR") (bs "SERVER_PORT") ++ opt_var (bs "SERVER_NAME") (u_addr_get_ip a CGI_NAME_BUFSZ)
  | None => []
  end ++
  match peer with Some a => addr_vars a (bs "REMOTE_ADDR") (bs "REMOTE_PORT") | None => [] end ++
  [(bs "REQUEST_METHOD", method_name (rq_method rq))] ++
  (if secure then [(bs "HTTPS", bs "on")] else []) ++
  opt_var (bs "PATH_INFO") (path_info rq) ++
  opt_var (bs "PATH_TRANSLATED") (resolved_path_info rq) ++
  opt_var (bs "QUERY_STRING") (query rq) ++
  (if decide (0 < content_length rq)%Z then [(bs "CONTENT_LENGTH", fmt_lu (content_length rq))] else []) ++
  opt_var (bs "CONTENT_TYPE") (head (vals (rq_header rq) (bs "Content-type"))) ++
  opt_var (bs "SCRIPT_NAME") (filename rq) ++
  opt_var (bs "REQUEST_URI") (rq_uri rq) ++
  opt_var (bs "SCRIPT_FILENAME") (resolved_filename rq) ++
  opt_var (bs "SYSTEMROOT") sysroot ++
  map field_var (h_fields (rq_header rq)).

Definition var_string (nv : list byte * list byte) : list byte := nv.1 ++ bs "=" ++ nv.2.

(** The names that do not come from the client's header. *)
Definition cgi_names : list (list byte) :=
  [bs "SERVER_SOFTWARE"; bs "SERVER_PROTOCOL"; bs "GATEWAY_INTERFACE"; bs "REDIRECT_STATUS"; bs "SERVER_ADDR"; bs "SERVER_PORT";
   bs "SERVER_NAME"; bs "REMOTE_ADDR"; bs "REMOTE_PORT"; bs "REQUEST_METHOD"; bs "HTTPS"; bs "PATH_INFO"; bs "PATH_TRANSLATED";
   bs "QUERY_STRING"; bs "CONTENT_LENGTH"; bs "CONTENT_TYPE"; bs "SCRIPT_NAME"; bs "REQUEST_URI"; bs "SCRIPT_FILENAME";
   bs "SYSTEMROOT"].

Section env_spec.
Context {L : Libu} {LS : LibuSpec L} {LM : LibuMem L} {D C : Type}.
Implicit Types e : cgi_env.

(** The array after the strings [strs] were stored: whole chunks, the rest NULL. *)
Definition holds e (strs : list (list byte)) : Prop :=
  ce_count e = length strs /\ ce_size e = CGI_CHUNK * ((length strs + (CGI_CHUNK - 1)) / CGI_CHUNK) /\
  ce_env e = map Some strs ++ replicate (ce_size e - length strs) None.

Lemma chunks_step (n : nat) : let size := CGI_CHUNK * ((n + (CGI_CHUNK - 1)) / CGI_CHUNK) in
  (if decide (size = 0 \/ size = n) then size + CGI_CHUNK else size) = CGI_CHUNK * ((S n + (CGI_CHUNK - 1)) / CGI_CHUNK) /\
  n <= size /\ (~ (size = 0 \/ size = n) -> n < size).
Proof.
  unfold CGI_CHUNK. cbn zeta. pose proof (Nat.div_mod (n + (32 - 1)) 32 ltac:(lia)) as A. pose proof (Nat.mod_upper_bound (n + (32 - 1)) 32 ltac:(lia)) as B.
  pose proof (Nat.div_mod (S n + (32 - 1)) 32 ltac:(lia)) as A'. pose proof (Nat.mod_upper_bound (S n + (32 - 1)) 32 ltac:(lia)) as B'.
  set (q := (n + (32 - 1)) / 32) in *. set (q' := (S n + (32 - 1)) / 32) in *. clearbody q q'. case_decide; lia.
Qed.

Lemma setenv_spec e strs (name value : list byte) : holds e strs -> name <> [] ->
  exists e', cgi_setenv name value e = (e', Ok tt) /\ holds e' (strs ++ [var_string (name, value)]).
Proof.
  intros (Hc & Hs & He) Hn. destruct (chunks_step (length strs)) as (S1 & S2 & S3). rewrite <- Hs in S1, S2, S3.
  set (sz := if decide (ce_size e = 0 \/ ce_size e = length strs) then ce_size e + CGI_CHUNK else ce_size e) in *.
  assert (length strs < sz) as Hlt by (unfold sz; case_decide as Hd; [unfold CGI_CHUNK; lia|by apply S3]).
  set (e1 := mkCgiEnv (map Some strs ++ replicate (sz - length strs) None) sz (length strs)).
  assert ((if decide (ce_size e = 0 \/ ce_size e = ce_count e) then
     pguard (u_alloc (8 * (ce_size e + CGI_CHUNK)));;;
     pmod (fun e0 => mkCgiEnv (take (ce_count e0) (ce_env e0) ++ replicate (ce_size e + CGI_CHUNK - ce_count e0) None) (ce_size e + CGI_CHUNK) (ce_count e0))
   else pret tt) e = (e1, Ok tt)) as E1.
  { rewrite Hc. unfold e1, sz. case_decide.
    - rewrite u_alloc_ok. erewrite (pbind_Ok (pguard _)) by reflexivity. unfold pmod. rewrite Hc, He.
      rewrite (take_app_length' (map Some strs)) by (by rewrite length_map). done.
    - unfold pret. f_equal. destruct e. cbn in *. by subst. }
  unfold cgi_setenv. rewrite bool_decide_true by done. erewrite (pbind_Ok (pguard _)) by reflexivity.
  erewrite (pbind_Ok pget) by reflexivity. erewrite pbind_Ok by exact E1. rewrite u_alloc_ok.
  erewrite (pbind_Ok (pguard _)) by reflexivity. erewrite (pbind_Ok pget) by reflexivity. cbn [e1 ce_count ce_env].
  rewrite decide_True by (rewrite length_app, length_map, length_replicate; lia).
  eexists. split; [reflexivity|]. unfold holds, e1. cbn [ce_count ce_env ce_size]. rewrite !length_app. cbn [length]. split_and!; [lia| |].
  - rewrite Nat.add_1_r. exact S1.
  - rewrite map_app, <- app_assoc. rewrite insert_app_r_alt by (rewrite length_map; lia). rewrite length_map, Nat.sub_diag.
    destruct (sz - length strs) as [|k] eqn:Ek; [lia|]. cbn. replace (sz - (length strs + 1)) with k by lia. done.
Qed.

(** A part of [cgi_makeenv] adds variables. *)
Definition sets (p : prog cgi_env unit) (nvs : list (list byte * list byte)) : Prop :=
  forall e strs, holds e strs -> exists e', p e = (e', Ok tt) /\ holds e' (strs ++ map var_string nvs).

Lemma sets_ret : sets (pret tt) [].
Proof. intros e strs He. exists e. by rewrite app_nil_r. Qed.
Lemma sets_seq (p q : prog cgi_env unit) nvs nvs' : sets p nvs -> sets q nvs' -> sets (p;;; q) (nvs ++ nvs').
Proof.
  intros Hp Hq e strs He. destruct (Hp e strs He) as (e1 & E1 & H1). destruct (Hq e1 _ H1) as (e2 & E2 & H2). exists e2.
  rewrite (pbind_Ok _ _ _ _ _ E1), map_app, app_assoc. done.
Qed.
Lemma sets_var (name value : list byte) : name <> [] -> sets (cgi_setenv name value) [(name, value)].
Proof. intros Hn e strs He. by apply setenv_spec. Qed.
Lemma sets_opt (name : list byte) (value : option (list byte)) : name <> [] -> sets (setenv_opt name value) (opt_var name value).
Proof. intros Hn. destruct value; [by apply sets_var|apply sets_ret]. Qed.
Lemma sets_addr (addr la lp : list byte) : la <> [] -> lp <> [] -> sets (cgi_setenv_addr addr la lp) (addr_vars addr la lp).
Proof. intros. apply sets_seq; by apply sets_opt. Qed.

Lemma sets_fields (h : header) (pre fs : list field) : h_fields h = pre ++ fs -> nfields h = length (h_fields h) ->
  Forall (fun f => exists nm, f_name f = Some nm /\ 5 + length nm < CGI_NAME_BUFSZ) fs ->
  sets (env_fields h (seq (length pre) (length fs))) (map field_var fs).
Proof.
  intros Hh Hn Hf. revert pre Hh. induction Hf as [|f fs (nm & Hnm & Hl) _ IH]; intros pre Hh; [apply sets_ret|].
  cbn [length seq env_fields map]. assert (header_get_fieldn h (length pre) ≫= (fun k => h_fields h !! k) = Some f) as ->.
  { unfold header_get_fieldn. assert (length pre < length (h_fields h)) by (rewrite Hh, length_app; cbn; lia).
    rewrite decide_False, decide_True by lia. cbn. rewrite Hh, lookup_app_r, Nat.sub_diag by lia. done. }
  rewrite Hnm, u_snprintf_spec by (unfold CGI_NAME_BUFSZ; lia).
  rewrite bool_decide_false, take_ge by (rewrite length_app; cbn [bs length]; cbn; lia). cbn [negb].
  change (field_var f :: map field_var fs) with ([] ++ [field_var f] ++ map field_var fs).
  apply (sets_seq (pguard true)); [apply sets_ret|]. apply sets_seq.
  - unfold field_var. rewrite Hnm. cbn [from_option id]. apply sets_var. done.
  - specialize (IH (pre ++ [f])). rewrite length_app, Nat.add_1_r in IH. apply IH. by rewrite Hh, <- app_assoc.
Qed.

Lemma sets_clen (len : Z) : (len < 10 ^ 19)%Z ->
  sets (cgi_setenv_clen len) (if decide (0 < len)%Z then [(bs "CONTENT_LENGTH", fmt_lu len)] else []).
Proof.
  intros Hl. unfold cgi_setenv_clen. case_decide; [|apply sets_ret].
  assert (length (fmt_lu len) <= 19) as Hd by (apply dec_go_length; [lia|lia]).
  rewrite u_snprintf_spec by lia. rewrite bool_decide_false, take_ge by lia.
  apply (sets_seq (pguard true) _ []); [apply sets_ret|by apply sets_var].
Qed.

Lemma sets_ctype (h : header) : header_ok h -> sets (cgi_setenv_ctype h) (opt_var (bs "CONTENT_TYPE") (head (vals h (bs "Content-type")))).
Proof.
  intros Hh e strs He. unfold cgi_setenv_ctype. rewrite header_get_field_value_eq by done.
  erewrite (pbind_Ok (plift _)) by reflexivity. by apply sets_opt.
Qed.

Lemma sets_all (version : list byte) (rq : request D C) (addr peer : option (list byte)) (secure : bool) (sysroot : option (list byte)) :
  header_ok (rq_header rq) -> (content_length rq < 10 ^ 19)%Z ->
  Forall (fun f => exists nm, f_name f = Some nm /\ 5 + length nm < CGI_NAME_BUFSZ) (h_fields (rq_header rq)) ->
  sets (cgi_makeenv version rq addr peer secure sysroot) (cgi_vars version rq addr peer secure sysroot).
Proof.
  intros Hh Hl Hf. unfold cgi_makeenv, cgi_vars.
  change ([(bs "SERVER_SOFTWARE", bs "klone/" ++ version); (bs "SERVER_PROTOCOL", bs "HTTP/1.0"); (bs "GATEWAY_INTERFACE", bs "CGI/1.1");
    (bs "REDIRECT_STATUS", bs "200")]) with ([(bs "SERVER_SOFTWARE", bs "klone/" ++ version)] ++ [(bs "SERVER_PROTOCOL", bs "HTTP/1.0")] ++
    [(bs "GATEWAY_INTERFACE", bs "CGI/1.1")] ++ [(bs "REDIRECT_STATUS", bs "200")]). rewrite <- !app_assoc.
  do 4 (apply sets_seq; [by apply sets_var|]).
  apply sets_seq; [destruct addr; [apply sets_seq; [by apply sets_addr|by apply sets_opt]|apply sets_ret]|].
  apply sets_seq; [destruct peer; [by apply sets_addr|apply sets_ret]|]. apply sets_seq; [by apply sets_var|].
  apply sets_seq; [destruct secure; [by apply sets_var|apply sets_ret]|]. do 3 (apply sets_seq; [by apply sets_opt|]).
  apply sets_seq; [by apply sets_clen|]. apply sets_seq; [by apply sets_ctype|]. do 4 (apply sets_seq; [by apply sets_opt|]).
  unfold header_field_count. rewrite (proj1 Hh). by apply (sets_fields _ []); [|apply (proj1 Hh)|].
Qed.

(** Without a NULL after the last string the array is read past its end. *)
Lemma vector_spec e (strs : list (list byte)) : holds e strs ->
  env_vector (ce_env e) = if decide (length strs mod CGI_CHUNK = 0) then Fault else Ok strs.
Proof.
  intros (_ & Hs & ->). rewrite Hs. assert (CGI_CHUNK * ((length strs + (CGI_CHUNK - 1)) / CGI_CHUNK) - length strs =
    if decide (length strs mod CGI_CHUNK = 0) then 0 else CGI_CHUNK - length strs mod CGI_CHUNK) as ->.
  { unfold CGI_CHUNK. pose proof (Nat.div_mod (length strs + (32 - 1)) 32 ltac:(lia)). pose proof (Nat.mod_upper_bound (length strs + (32 - 1)) 32 ltac:(lia)).
    pose proof (Nat.div_mod (length strs) 32 ltac:(lia)). pose proof (Nat.mod_upper_bound (length strs) 32 ltac:(lia)).
    set (q := (length strs + (32 - 1)) / 32) in *. set (p := length strs / 32) in *. clearbody p q. case_decide; lia. }
  pose proof (Nat.mod_upper_bound (length strs) CGI_CHUNK ltac:(done)) as Hm. case_decide as Hd.
  - cbn [replicate]. rewrite app_nil_r. clear. induction strs as [|s strs IH]; [done|]. cbn. by rewrite IH.
  - destruct (CGI_CHUNK - length strs mod CGI_CHUNK) as [|k] eqn:Ek; [lia|]. cbn [replicate]. clear.
    induction strs as [|s strs IH]; [done|]. cbn. by rewrite IH.
Qed.

Lemma env_case_http (s : list byte) : exists s', env_case (bs "HTTP_" ++ s) = bs "HTTP_" ++ s'.
Proof. by exists (env_case s). Qed.

Lemma opt_var_names (name : list byte) (v : option (list byte)) (ns : list (list byte)) : name ∈ ns -> Forall (fun nv => nv.1 ∈ ns) (opt_var name v).
Proof. intros. destruct v; cbn; [by apply Forall_singleton|constructor]. Qed.

Lemma vars_names (version : list byte) (rq : request D C) (addr peer : option (list byte)) (secure : bool) (sysroot : option (list byte)) :
  exists fixed, cgi_vars version rq addr peer secure sysroot = fixed ++ map field_var (h_fields (rq_header rq)) /\ Forall (fun nv => nv.1 ∈ cgi_names) fixed.
Proof.
  eexists. split; [unfold cgi_vars; rewrite !app_assoc; reflexivity|].
  assert (forall nm, bool_decide (nm ∈ cgi_names) = true -> nm ∈ cgi_names) as Hin by (intros nm; by rewrite bool_decide_eq_true).
  repeat apply Forall_app_2; repeat first
    [apply opt_var_names; apply Hin; vm_compute; reflexivity
    |apply Forall_cons; split; [apply Hin; vm_compute; reflexivity|]
    |apply Forall_nil; exact Logic.I
    |case_match; unfold addr_vars; repeat apply Forall_app_2].
Qed.

(** C38: the environment of a CGI program.  [cgi_makeenv] stores, in order, the variables
    that describe the server, the connection and the request, and one for each field of the
    header; a variable whose name the client chooses starts with HTTP_, all others are of a
    fixed list.  The program gets exactly these variables, unless their number is a multiple
    of 32: then the array has no NULL at its end and is read past it. *)
Theorem cgi_environment (version : list byte) (rq : request D C) (addr peer : option (list byte)) (secure : bool) (sysroot : option (list byte)) :
  header_ok (rq_header rq) -> (content_length rq < 10 ^ 19)%Z ->
  Forall (fun f => exists nm, f_name f = Some nm /\ 5 + length nm < CGI_NAME_BUFSZ) (h_fields (rq_header rq)) ->
  let nvs := cgi_vars version rq addr peer secure sysroot in
  exists e, cgi_makeenv version rq addr peer secure sysroot cgi_env0 = (e, Ok tt) /\
    env_vector (ce_env e) = (if decide (length nvs mod CGI_CHUNK = 0) then Fault else Ok (map var_string nvs)) /\
    Forall (fun nv => nv.1 ∈ cgi_names \/ exists s, nv.1 = bs "HTTP_" ++ s) nvs.
Proof.
  intros Hh Hl Hf nvs. destruct (sets_all version rq addr peer secure sysroot Hh Hl Hf cgi_env0 []) as (e & E & He); [by split_and!|].
  exists e. split_and!; [done| |].
  - rewrite (vector_spec e _ He). cbn [app]. by rewrite length_map.
  - destruct (vars_names version rq addr peer secure sysroot) as (fixed & Ev & Hfix). unfold nvs. rewrite Ev. apply Forall_app_2.
    + eapply Forall_impl; [done|]. tauto.
    + apply Forall_map, Forall_forall. intros f _. right. apply env_case_http.
Qed.
End env_spec.

(** ** Running the program *)

(** The standard input of the program: a pipe that takes what is written to it. *)
Definition pipe_in : Type := list byte.

#[global] Instance pipe_in_ops : DevOps pipe_in := {|
  dev_read := fun d _ => (d, None);
  dev_write := fun d b => (d ++ b, Some (length b));
  dev_seek := fun d _ => (d, None);
  dev_tell := fun _ => None;
  dev_close := fun d => (d, true)
|}.

#[global] Program Instance pipe_in_sink : DevSink pipe_in := {|
  sunk := fun d => d;
  sink_ready := fun _ _ => True
|}.
Next Obligation. intros d b n Hb _. cbn. eexists _, _. split_and!; [done|lia|lia|by rewrite take_ge|done]. Qed.

Section serve.
Context {L : Libu} {DR CR D C D2 DI : Type} {DOR : DevOps DR} {COR : CodecOps CR} {DO2 : DevOps D2} {DOI : DevOps DI}.
Variables (f0 FILENAME_MAX rf_size fuel n : nat) (env : ses_env) (KLONE_VERSION : list byte).
Variable handlers : option (list byte -> option (list byte)).
(** The program: started in a directory with arguments and an environment, from what it
    reads to what it writes. *)
Variable run : list byte -> list (list byte) -> list (list byte) -> list byte -> DI.
Variable no_output : DI.                           (* when the child exits before [execve] *)
Variables (addr peer sysroot : option (list byte)).
Variables (forked stdin_ok stdout_ok : bool).      (* [pipe] and [fork] succeed; [io_fd_create] succeeds *)
#[local] Instance cgi_filter_ops : CodecOps (rfilter D C) := rf_ops f0 FILENAME_MAX env.

(** The child's part of [cgi_exec]: the directory, the arguments and the environment. *)
Definition cgi_exec_args (rq : request DR CR) : res (list byte * list (list byte) * list (list byte)) :=
  match resolved_filename rq with
  | None => Fail
  | Some file =>
      match strrchr file SLASH with
      | None => Fail
      | Some p =>
          let '(e, r) := cgi_makeenv KLONE_VERSION rq addr peer (io_secure (rq_io rq)) sysroot cgi_env0 in
          _ ← r;
          v ← env_vector (ce_env e);
          Ok (take (S p) file, cgi_argv FILENAME_MAX handlers file, v)
      end
  end.

(** The request, the response and the stream of the connection, with the response filter as
    its codec. *)
Record cgi_conn := mkCc {
  cc_rq : request DR CR;
  cc_rs : response D C;
  cc_out : io D2 (rfilter D C)
}.

Definition cc_on_rs {A} (m : prog (response D C) A) : prog cgi_conn A := fun c =>
  let '(rs, r) := m (cc_rs c) in (mkCc (cc_rq c) rs (cc_out c), r).
Definition set_cc_out (c : cgi_conn) (i : io D2 (rfilter D C)) : cgi_conn := mkCc (cc_rq c) (cc_rs c) i.

(** The filter looks at the response through a pointer: what has changed since it was attached
    is there when it next runs. *)
Definition set_rf_rs (rf : rfilter D C) (rs : response D C) : rfilter D C :=
  let 'mkRf _ b c d e f g := rf in mkRf rs b c d e f g.
Definition share : prog cgi_conn unit := pmod (fun c =>
  set_cc_out c (set_codecs (cc_out c)
    (map (fun k => mkCodec (set_rf_rs (c_state k) (cc_rs c)) (cbuf k) (ccount k) (coff k)) (io_codecs (cc_out c))))).

(** The posted data: what the program will read. *)
Definition cgi_feed : prog cgi_conn (list byte) := fun c =>
  let rq := cc_rq c in
  if decide (rq_method rq = HM_POST /\ 0 < content_length rq)%Z then
    if stdin_ok then
      let '(out, inp, r) := io_copy fuel n (io_prv_create ([] : pipe_in) : io pipe_in no_codec) (rq_io rq) (Z.to_nat (content_length rq)) in
      let '(_, d, _) := io_free fuel out in
      (mkCc (set_rq_io rq inp) (cc_rs c) (cc_out c), match r with Ok _ | Fail => Ok d | Fault => Fault | Timeout => Timeout end)
    else (c, Fail)
  else (c, Ok []).

Definition cgi_status (h : header) : res Z :=
  s ← header_get_field_value h (bs "Status");
  match s with
  | Some v => atoi v
  | None =>
      l ← header_get_field h (bs "Location");
      Ok (match l with Some _ => 302 | None => 200 end)%Z
  end.

(** The loop that sends the program's output; the count is that of the bytes sent. *)
Fixpoint cgi_copy (k : nat) (inp : io DI no_codec) (tot : nat) : prog cgi_conn nat := fun c =>
  match k with
  | 0 => (c, Timeout)
  | S k' =>
      let '(inp1, r) := io_read fuel inp (N.to_nat 4096) in
      match r with
      | Ok [] | Fail => (c, Ok tot)
      | Ok data =>
          let '(out, w) := io_write fuel (cc_out c) data in
          match w with
          | Ok _ => cgi_copy k' inp1 (tot + length data) (set_cc_out c out)
          | Fail => (set_cc_out c out, Ok tot)
          | Fault => (set_cc_out c out, Fault)
          | Timeout => (set_cc_out c out, Timeout)
          end
      | Fault => (c, Fault)
      | Timeout => (c, Timeout)
      end
  end.

(** The header of the program's output. *)
Definition cgi_load_header (inp : io DI no_codec) : prog cgi_conn (io DI no_codec) := fun c =>
  let '(inp', h, r) := header_load_ex fuel n (rs_header (cc_rs c)) inp HLM_OVERRIDE in
  (mkCc (cc_rq c) (set_rs_header (cc_rs c) h) (cc_out c), _ ← r; Ok inp').

Definition cgi_serve : prog cgi_conn unit :=
  cc_on_rs (response_set_status 400);;;
  let! c := pget in
  let fqn := resolved_filename (cc_rq c) in
  pguard forked;;;
  let child := cgi_exec_args (cc_rq c) in
  pignore (cc_on_rs response_disable_caching);;;
  let! input := cgi_feed in
  pguard stdout_ok;;;
  let! dev := plift (match child with
                     | Ok (dir, argv, envp) => Ok (run dir argv envp input)
                     | Fail => Ok no_output
                     | Fault => Fault
                     | Timeout => Timeout
                     end) in
  let inp := io_prv_create dev in
  let! fqn := plift (match fqn with Some f => Ok f | None => Fault end) in
  let! p := plift (of_option (strrchr fqn SLASH)) in
  let! inp :=
    if negb (strprefix (bs "nph-") (drop (S p) fqn)) then
      let! c := pget in
      let! rf := plift (response_filter_create rf_size (cc_rs c) None) in
      pmod (fun c => set_cc_out c (io_codec_add_tail (cc_out c) rf));;;
      let! inp := cgi_load_header inp in
      let! c := pget in
      let! st := plift (cgi_status (rs_header (cc_rs c))) in
      cc_on_rs (response_set_status st);;;
      pret inp
    else
      cc_on_rs (response_set_status 200);;;
      pret inp in
  share;;;
  let! tot := cgi_copy n inp 0 in
  if decide (tot = 0) then
    pignore (fun c => let '(out, r) := io_write fuel (cc_out c) [x0a] in (set_cc_out c out, r))
  else pret tt.
End serve.

(** ** What the client gets *)

Section copying.
Context {L : Libu} {LM : LibuMem L} {D1 C1 D2 C2 : Type}.
Context {DO1 : DevOps D1} {DK1 : DevSink D1} {CO1 : CodecOps C1}.
Context {DO2 : DevOps D2} {DS2 : DevSource D2} {CO2 : CodecOps C2}.

Lemma io_copy_spec (fuel n : nat) (out : io D1 C1) (inp : io D2 C2) (rem : nat) :
  writable out -> readable inp -> room out rem -> IO_RD_BUFSZ <= fuel -> rem <= n ->
  exists out' inp' k, io_copy fuel n out inp rem = (out', inp', Ok k) /\
    writable out' /\ outstream out' = outstream out ++ take rem (instream inp) /\ io_refcnt out' = io_refcnt out /\
    readable inp' /\ instream inp' = drop rem (instream inp).
Proof.
  pose proof IO_RD_BUFSZ_pos as Hp. revert out inp rem.
  induction n as [|n IH]; intros out inp rem Hw Hrd Hroom Hf Hn; cbn [io_copy].
  { rewrite decide_True by lia. assert (rem = 0) as -> by lia. exists out, inp, 0. rewrite take_0, app_nil_r, drop_0. by split_and!. }
  case_decide as H0.
  { subst. exists out, inp, 0. rewrite take_0, app_nil_r, drop_0. by split_and!. }
  destruct (io_read_spec fuel inp (min IO_RD_BUFSZ rem) Hrd ltac:(lia)) as (inp1 & -> & R1 & R2 & _ & _).
  set (m := min IO_RD_BUFSZ rem) in *. assert (0 < m <= rem) as Hm by lia. assert (m <= fuel) as Hmf by lia. clearbody m.
  assert (length (take m (instream inp)) <= m) as Hl by (rewrite length_take; lia).
  assert (take rem (instream inp) = take m (instream inp) ++ take (rem - length (take m (instream inp))) (instream inp1)) as Et.
  { rewrite R2, length_take. destruct (decide (m <= length (instream inp))) as [Hle|Hle].
    - rewrite Nat.min_l by lia. rewrite <- (take_drop m (take rem (instream inp))), take_take, Nat.min_l by lia. by rewrite skipn_firstn_comm.
    - rewrite !take_ge by lia. rewrite drop_ge by lia. by rewrite take_nil, app_nil_r. }
  assert (drop (rem - length (take m (instream inp))) (instream inp1) = drop rem (instream inp)) as Ed.
  { rewrite R2, drop_drop, length_take. destruct (decide (m <= length (instream inp))) as [Hle|Hle]; [f_equal; lia|].
    rewrite !drop_ge by lia. done. }
  destruct (take m (instream inp)) as [|b data] eqn:Ed0.
  { assert (instream inp = []) as Hz.
    { apply (f_equal length) in Ed0. rewrite length_take in Ed0. cbn in Ed0. apply length_zero_iff_nil. lia. }
    exists out, inp1, 0. rewrite Hz, take_nil, app_nil_r, drop_nil. rewrite Hz, drop_nil in R2. by split_and!. }
  destruct (io_write_spec fuel out (b :: data) (rem - length (b :: data)) Hw) as (out1 & -> & W1 & W2 & W3 & W4); [by replace (length (b :: data) + (rem - length (b :: data))) with rem by lia|lia|].
  destruct (IH out1 inp1 (rem - length (b :: data)) W1 R1 W2 Hf ltac:(cbn in *; lia)) as (out' & inp' & k & -> & P1 & P3 & P4 & P5 & P6).
  exists out', inp'. eexists. split; [reflexivity|]. rewrite P3, W3, <- app_assoc, Et, P6, Ed, P4. destruct W4 as (_ & _ & -> & _). by split_and!.
Qed.
End copying.

Section response_spec.
Context {L : Libu} {LS : LibuSpec L} {LM : LibuMem L} {DR CR D C D2 DI : Type}.
Context {DOR : DevOps DR} {DSR : DevSource DR} {COR : CodecOps CR} {DO2 : DevOps D2} {DK2 : DevSink D2} {DOI : DevOps DI} {DSI : DevSource DI}.
Variables (f0 FILENAME_MAX rf_size : nat) (env : ses_env) (KLONE_VERSION : list byte).
Variable handlers : option (list byte -> option (list byte)).
Variable run : list byte -> list (list byte) -> list (list byte) -> list byte -> DI.
Variables (no_output : DI) (addr peer sysroot : option (list byte)).
#[local] Hint Extern 0 (CodecOps (rfilter D C)) => exact (cgi_filter_ops f0 FILENAME_MAX env) : typeclass_instances.
#[local] Instance resp_filter_emitter : Emitter (rfilter D C) := rf_emitter f0 FILENAME_MAX env.
Abbreviation conn := (@cgi_conn DR CR D C D2).

(** The body goes through the filter piece by piece. *)
Lemma cgi_copy_emits (fuel m : nat) (k : nat) : forall (inp : io DI no_codec) (tot : nat) (c : conn) st b cc o,
  readable inp -> wwf (io_w (cc_out c)) -> io_codecs (cc_out c) = [mkCodec st b cc o] -> em_ok st ->
  room (cc_out c) (length (owed st) + (if passes st then length (instream inp) else 0) + m) ->
  3 * length (instream inp) + length (owed st) < fuel -> length (instream inp) < k ->
  exists out' st' b' cc' o', cgi_copy f0 FILENAME_MAX fuel env k inp tot c = (set_cc_out c out', Ok (tot + length (instream inp))) /\
    wwf (io_w out') /\ io_codecs out' = [mkCodec st' b' cc' o'] /\ em_ok st' /\ passes st' = passes st /\ room out' (length (owed st') + m) /\
    outstream out' ++ owed st' = outstream (cc_out c) ++ owed st ++ (if passes st then instream inp else []) /\
    length (owed st') <= length (owed st) + length (instream inp) /\ (w_alloc (io_w (cc_out c)) = true \/ instream inp <> [] -> w_alloc (io_w out') = true).
Proof.
  induction k as [|k IH]; intros inp tot c st b cc o Hr Hw Hc Hok Hroom Hf Hk; [lia|]. cbn [cgi_copy].
  destruct (io_read_spec fuel inp (N.to_nat 4096) Hr ltac:(lia)) as (inp1 & -> & R1 & R2 & _ & _).
  assert (0 < N.to_nat 4096) as H4 by lia. set (sz := N.to_nat 4096) in *. clearbody sz.
  pose proof (take_drop sz (instream inp)) as Etd. rewrite <- R2 in Etd.
  destruct (take sz (instream inp)) as [|x data] eqn:Ed.
  { assert (instream inp = []) as Hz by (apply (f_equal length) in Ed; rewrite length_take in Ed; apply length_zero_iff_nil; cbn in Ed; lia).
    exists (cc_out c), st, b, cc, o. rewrite Hz in *. cbn [length]. rewrite Nat.add_0_r.
    assert ((if passes st then @nil byte else []) = []) as -> by (by destruct (passes st)). rewrite app_nil_r.
    assert ((if passes st then length (@nil byte) else 0) = 0) as E0 by (by destruct (passes st)). rewrite E0, Nat.add_0_r in Hroom.
    split_and!; try done; [by destruct c|lia|by intros [?|?]]. }
  cbn beta iota. set (d := x :: data) in *.
  assert (length (instream inp) = length d + length (instream inp1)) as Hlen by (rewrite <- Etd at 1; by rewrite length_app).
  assert (0 < length d) by (unfold d; cbn; lia).
  destruct (io_write_emits fuel (cc_out c) st b cc o d ((if passes st then length (instream inp1) else 0) + m) Hw Hc Hok)
    as (out1 & st1 & -> & He & Hp1 & Rm & O1 & _ & _ & Hl1).
  { eapply eq_ind; [exact Hroom|]. destruct (passes st); lia. }
  { lia. }
  destruct He as (Hw1 & Ha1 & (b1 & c1 & o1 & Hc1) & Hok1).
  destruct (IH inp1 (tot + length d) (set_cc_out c out1) st1 b1 c1 o1 R1 Hw1 Hc1 Hok1) as (out' & st' & b' & cc' & o' & E & W & C' & K & P & R & O & Q & A).
  { rewrite Hp1. cbn [cc_out set_cc_out]. eapply eq_ind; [exact Rm|]. lia. }
  { lia. } { lia. }
  exists out', st', b', cc', o'. rewrite E. cbn [cc_out set_cc_out cc_rq cc_rs] in *.
  split_and!; try done; [f_equal; f_equal; lia|congruence| |lia|].
  - rewrite O, Hp1, app_assoc, O1, <- !app_assoc. do 2 f_equal. destruct (passes st); [done|done].
  - intros _. apply A. by left.
Qed.

Lemma disable_spec (rs : response D C) : header_ok (rs_header rs) ->
  exists h, response_disable_caching rs = (set_rs_header rs h, Ok tt) /\ header_ok h.
Proof.
  intros Hh. unfold response_disable_caching, response_set_field.
  destruct (header_set_field_vals (rs_header rs) (bs "Cache-Control") (bs "no-cache, must-revalidate") [] Hh) as (h1 & E1 & H1 & _).
  destruct (header_set_field_vals h1 (bs "Expires") (bs "Mon, 1 Jan 1990 05:00:00 GMT") [] H1) as (h2 & E2 & H2 & _).
  destruct (header_set_field_vals h2 (bs "Pragma") (bs "no-cache") [] H2) as (h3 & E3 & H3 & _).
  exists h3. split; [|done]. destruct rs as [h i s m g]. cbn [rs_header] in *.
  erewrite pbind_Ok; [|cbn [rs_header]; rewrite E1; reflexivity]. erewrite pbind_Ok; [|cbn [rs_header set_rs_header]; rewrite E2; reflexivity].
  cbn [rs_header set_rs_header]. by rewrite E3.
Qed.

(** What the program reads. *)
Definition posted (rq : request DR CR) : list byte :=
  if decide (rq_method rq = HM_POST /\ 0 < content_length rq)%Z then take (Z.to_nat (content_length rq)) (instream (rq_io rq)) else [].

Lemma feed_spec (fuel n : nat) (c : conn) : readable (rq_io (cc_rq c)) -> IO_RD_BUFSZ <= fuel -> Z.to_nat (content_length (cc_rq c)) <= n ->
  exists rq', cgi_feed fuel n true c = (mkCc rq' (cc_rs c) (cc_out c), Ok (posted (cc_rq c))).
Proof.
  intros Hr Hf Hn. unfold cgi_feed, posted. case_decide as Hp; [|exists (cc_rq c); by destruct c].
  destruct (io_copy_spec fuel n (io_prv_create ([] : pipe_in) : io pipe_in no_codec) (rq_io (cc_rq c)) (Z.to_nat (content_length (cc_rq c))))
    as (out & inp & k & -> & W & O & Rc & _ & _); [by split|done|done|done|done|].
  assert (room out 0) as R0 by exact Logic.I. destruct (io_free_flushes fuel out W R0 Rc) as (i1 & _ & -> & Es). eexists. repeat f_equal. change (sunk (io_dev i1) = take (Z.to_nat (content_length (cc_rq c))) (instream (rq_io (cc_rq c)))). rewrite Es, O. done.
Qed.

Lemma prv_readable (d : DI) : readable (io_prv_create d : io DI no_codec) /\ instream (io_prv_create d : io DI no_codec) = src_rest d.
Proof. split; [by split_and!|]. unfold instream, rwin, uwin. cbn. by rewrite !mread_0. Qed.

Lemma process_all_ok (mode : load_mode) (ls : list (list byte)) : forall h, header_ok h -> header_ok (process_all mode h ls).
Proof. induction ls as [|l ls IH]; intros h Hh; [done|]. apply IH. by apply process_line_ok_fst. Qed.

Lemma load_header_spec (fuel n : nat) (d : DI) (c : conn) (ls : list (list byte)) (body : list byte) :
  0 < fuel -> 0 < n -> src_rest d = send_lines ls ++ body -> Forall line_ok ls -> length ls < HEADER_MAX_FIELD_COUNT -> header_ok (rs_header (cc_rs c)) ->
  exists inp, cgi_load_header fuel n (io_prv_create d) c =
      (mkCc (cc_rq c) (set_rs_header (cc_rs c) (process_all HLM_OVERRIDE (rs_header (cc_rs c)) (unfold_lines [] ls))) (cc_out c), Ok inp) /\
    readable inp /\ instream inp = body.
Proof.
  intros Hf Hn Hd Hls Hc Hh. destruct (prv_readable d) as [Hr Hi]. rewrite Hd in Hi.
  pose proof (load_loop_lines fuel n HLM_OVERRIDE body ls Hf Hn Hls HEADER_MAX_FIELD_COUNT (io_prv_create d) (rs_header (cc_rs c)) [] Hh Hr Hi) as H.
  rewrite decide_True in H by done. destruct H as (inp & E & R & I). exists inp. split; [|done]. unfold cgi_load_header, header_load_ex.
  by rewrite u_string_create_eq, E.
Qed.

(** The status a header asks for. *)
Definition asked_status (h : header) : res Z :=
  match head (vals h (bs "Status")) with
  | Some v => atoi v
  | None => Ok (if decide (vals h (bs "Location") = []) then 200 else 302)%Z
  end.

Lemma status_eq (h : header) : header_ok h -> cgi_status h = asked_status h.
Proof.
  intros Hh. unfold cgi_status, asked_status. rewrite header_get_field_value_eq by done. cbn [mbind res_bind].
  destruct (head (vals h (bs "Status"))); [done|]. unfold header_get_field, vals.
  destruct (find_field_spec (h_fields h) (bs "Location") (proj2 Hh)) as [[-> Hn]|(pre & f & post & E & -> & Hm & Hp)].
  - rewrite fvals_none, decide_True by done. done.
  - cbn [mbind res_bind]. rewrite decide_False; [done|]. rewrite E, fvals_app. intros Hz. apply app_eq_nil in Hz as [_ Hz].
    pose proof (proj2 Hh) as Hf. rewrite E in Hf. apply Forall_app in Hf as [_ Hf]. apply Forall_cons in Hf as [[_ [v Hv]] _].
    unfold fvals in Hz. cbn [List.filter] in Hz. rewrite Hm in Hz. cbn in Hz. by rewrite Hv in Hz.
Qed.

(** The response that a program's header makes of the one it found. *)
Definition cgi_rs (rs : response D C) (ls : list (list byte)) (st : Z) : response D C :=
  let rs := (response_disable_caching (set_rs_status rs 400)).1 in
  set_rs_status (set_rs_header rs (process_all HLM_OVERRIDE (rs_header rs) (unfold_lines [] ls))) st.

(** From the loop on: everything reaches the stream when the filter is removed. *)
Lemma copy_and_end (fuel n : nat) (c : conn) (out0 : io D2 (rfilter D C)) (inp : io DI no_codec) (rf : rfilter D C) b cc o :
  cc_out c = set_codecs out0 [mkCodec rf b cc o] -> writable out0 -> em_ok rf -> readable inp -> IO_WR_BUFSZ <= fuel ->
  3 * S (length (instream inp)) + length (owed rf) < fuel -> length (instream inp) < n ->
  let data := if decide (instream inp = []) then [x0a] else instream inp in
  room out0 (length (owed rf) + (if passes rf then length data else 0)) ->
  exists c' out, (let! tot := cgi_copy f0 FILENAME_MAX fuel env n inp 0 in
     if decide (tot = 0) then pignore (fun c => let '(out, r) := io_write fuel (cc_out c) [x0a] in (set_cc_out c out, r)) else pret tt) c = (c', Ok tt) /\
    io_codecs_remove fuel (cc_out c') = (out, Ok tt) /\ writable out /\ outstream out = outstream out0 ++ owed rf ++ (if passes rf then data else []).
Proof.
  intros Hc Hw Hok Hr Hfw Hf Hn data Hroom.
  assert (wwf (io_w (cc_out c)) /\ io_codecs (cc_out c) = [mkCodec rf b cc o] /\ outstream (cc_out c) = outstream out0) as (Hwf & Hcs & Hos).
  { rewrite Hc. destruct Hw. by split_and!. }
  destruct (decide (instream inp = [])) as [Hz|Hz]; unfold data in *; clear data.
  - destruct (cgi_copy_emits fuel (if passes rf then 1 else 0) n inp 0 c rf b cc o Hr Hwf Hcs Hok) as (out1 & st1 & b1 & c1 & o1 & E & W1 & C1 & K1 & P1 & R1 & O1 & Q1 & _).
    { rewrite Hz. cbn [length]. rewrite Hc. eapply eq_ind; [exact Hroom|]. cbn [length]. destruct (passes rf); lia. } { lia. } { lia. }
    rewrite Hz in E, O1, Q1. cbn [length] in E, Q1. erewrite pbind_Ok by exact E. cbn [Nat.add]. rewrite decide_True by done.
    destruct (io_write_emits fuel out1 st1 b1 c1 o1 [x0a] 0 W1 C1 K1) as (out2 & st2 & E2 & He2 & P2 & R2 & O2 & _ & _ & Q2).
    { rewrite P1, Nat.add_0_r. eapply eq_ind; [exact R1|]. by destruct (passes rf). } { cbn [length]. lia. }
    destruct (codecs_remove_emits fuel out2 st2 0 He2 Hfw ltac:(cbn [length] in *; lia) R2) as (out3 & E3 & W3 & _ & O3 & _).
    exists (set_cc_out c out2), out3. split_and!; [|exact E3|done|].
    + unfold pignore. cbn [set_cc_out cc_out]. rewrite E2. by destruct c.
    + rewrite O3, O2, app_assoc, O1, Hos, P1. destruct (passes rf); by rewrite <- !app_assoc, ?app_nil_r.
  - destruct (cgi_copy_emits fuel 0 n inp 0 c rf b cc o Hr Hwf Hcs Hok) as (out1 & st1 & b1 & c1 & o1 & E & W1 & C1 & K1 & P1 & R1 & O1 & Q1 & A1).
    { rewrite Hc, Nat.add_0_r. exact Hroom. } { lia. } { lia. }
    erewrite pbind_Ok by exact E. cbn [Nat.add]. rewrite decide_False by (by destruct (instream inp)).
    assert (emitting out1 st1) as He by (split_and!; [done|by apply A1; right|by eexists _, _, _|done]).
    destruct (codecs_remove_emits fuel out1 st1 0 He Hfw ltac:(lia) R1) as (out3 & E3 & W3 & _ & O3 & _).
    exists (set_cc_out c out1), out3. split_and!; [done|exact E3|done|]. by rewrite O3, O1, Hos.
Qed.

(** The filter on a response that nothing was written of yet. *)
Definition fresh_filter (rs : response D C) : rfilter D C := mkRf rs None false false (replicate RFBUFSZ x00) 0 None.

Lemma serve_start (fuel n : nat) (c : conn) (file : list byte) (p : nat) (dir : list byte) (argv envp : list (list byte))
    (ls : list (list byte)) (body : list byte) (st : Z) :
  let rq := cc_rq c in
  let rs' := cgi_rs (cc_rs c) ls st in
  resolved_filename rq = Some file -> strrchr file SLASH = Some p -> strprefix (bs "nph-") (drop (S p) file) = false ->
  cgi_exec_args FILENAME_MAX KLONE_VERSION handlers addr peer sysroot rq = Ok (dir, argv, envp) ->
  src_rest (run dir argv envp (posted rq)) = send_lines ls ++ body -> Forall line_ok ls -> length ls < HEADER_MAX_FIELD_COUNT ->
  asked_status (rs_header rs') = Ok st -> header_ok (rs_header (cc_rs c)) -> readable (rq_io rq) -> writable (cc_out c) ->
  IO_RD_BUFSZ <= fuel -> Z.to_nat (content_length rq) <= n -> 0 < n ->
  header_ok (rs_header rs') /\ rs_status rs' = st /\ rs_method rs' = rs_method (cc_rs c) /\
  exists c4 inp, cgi_serve f0 FILENAME_MAX rf_size fuel n env KLONE_VERSION handlers run no_output addr peer sysroot true true true c =
    (let! tot := cgi_copy f0 FILENAME_MAX fuel env n inp 0 in
     if decide (tot = 0) then pignore (fun c => let '(out, r) := io_write fuel (cc_out c) [x0a] in (set_cc_out c out, r)) else pret tt) c4 /\
    cc_out c4 = set_codecs (cc_out c) [mkCodec (fresh_filter rs') (replicate CODEC_BUFSZ x00) 0 0] /\ readable inp /\ instream inp = body.
Proof.
  intros rq rs' Hfile Hp Hnph Hexec Hsrc Hls Hcnt Hst Hh Hrq Hw Hfr Hcl Hn. pose proof IO_RD_BUFSZ_pos as Hpos.
  destruct (disable_spec (set_rs_status (cc_rs c) 400)) as (h1 & E1 & Hh1); [by destruct (cc_rs c)|].
  set (c1 := mkCc rq (set_rs_header (set_rs_status (cc_rs c) 400) h1) (cc_out c)).
  destruct (feed_spec fuel n c1 Hrq Hfr Hcl) as (rq' & E2).
  assert (rs_header (cc_rs c1) = h1) as Ec1 by (cbn; by destruct (cc_rs c)).
  set (c3 := mkCc rq' (cc_rs c1) (io_codec_add_tail (cc_out c) (fresh_filter (cc_rs c1)))).
  destruct (load_header_spec fuel n (run dir argv envp (posted rq)) c3 ls body ltac:(lia) Hn Hsrc Hls Hcnt) as (inp & E3 & Ri & Ii); [change (header_ok (rs_header (cc_rs c1))); by rewrite Ec1|].
  change (cc_rs c3) with (cc_rs c1) in E3. rewrite Ec1 in E3.
  assert (rs' = set_rs_status (set_rs_header (cc_rs c1) (process_all HLM_OVERRIDE h1 (unfold_lines [] ls))) st) as Ers.
  { unfold rs', cgi_rs. rewrite E1. cbn [fst]. change (set_rs_header (set_rs_status (cc_rs c) 400) h1) with (cc_rs c1). by rewrite Ec1. }
  split_and!; [rewrite Ers; destruct (cc_rs c1); by apply process_all_ok|rewrite Ers; by destruct (cc_rs c1)|rewrite Ers; cbn; by destruct (cc_rs c)|].
  exists (mkCc rq' rs' (set_codecs (cc_out c) [mkCodec (fresh_filter rs') (replicate CODEC_BUFSZ x00) 0 0])), inp. split_and!; try done.
  unfold cgi_serve. erewrite pbind_Ok by reflexivity. erewrite (pbind_Ok pget) by reflexivity. erewrite (pbind_Ok (pguard _)) by reflexivity.
  cbn [cc_rq]. fold rq. rewrite Hexec, Hfile. erewrite pbind_Ok; [|unfold pignore, cc_on_rs; cbn [cc_rs]; rewrite E1; reflexivity].
  cbn [cc_rq cc_out]. fold c1. erewrite pbind_Ok by exact E2. erewrite (pbind_Ok (pguard _)) by reflexivity.
  do 2 (erewrite (pbind_Ok (plift _)) by reflexivity). rewrite Hp. erewrite (pbind_Ok (plift _)) by reflexivity. rewrite Hnph. cbn [negb].
  erewrite pbind_Ok.
  2: { erewrite (pbind_Ok pget) by reflexivity. unfold response_filter_create. rewrite u_alloc_ok. erewrite (pbind_Ok (plift _)) by reflexivity.
       cbn [cc_rs cc_out]. fold (fresh_filter (cc_rs c1)). erewrite (pbind_Ok (pmod _)) by reflexivity. unfold set_cc_out at 1. cbn [cc_rq cc_rs cc_out]. fold c3.
       erewrite pbind_Ok by exact E3. erewrite (pbind_Ok pget) by reflexivity. cbn [cc_rs].
       replace (rs_header (set_rs_header (cc_rs c1) (process_all HLM_OVERRIDE h1 (unfold_lines [] ls)))) with (rs_header rs') by (rewrite Ers; by destruct (cc_rs c1)).
       rewrite status_eq, Hst by (rewrite Ers; destruct (cc_rs c1); by apply process_all_ok). erewrite (pbind_Ok (plift _)) by reflexivity. erewrite (pbind_Ok (cc_on_rs _)) by reflexivity. reflexivity. }
  erewrite (pbind_Ok share) by reflexivity. f_equal. unfold set_cc_out. cbn [cc_rq cc_rs cc_out]. rewrite <- Ers. f_equal.
  unfold io_codec_add_tail. cbn. by rewrite (proj2 Hw).
Qed.

(** C15: a CGI program answers a request.  The program reads the posted data; of its
    output, the header lines are merged into the response, replacing the fields of the same
    name, the status is the one it asks for, 302 when it gives a location and 200 otherwise,
    and the client receives the header of this response and then the rest of the output, or
    one newline when there is none; to a HEAD request the header alone. *)
Theorem cgi_response (fuel n : nat) (c : conn) (file : list byte) (p : nat) (dir : list byte) (argv envp : list (list byte))
    (ls : list (list byte)) (body : list byte) (st : Z) :
  let rq := cc_rq c in
  let rs' := cgi_rs (cc_rs c) ls st in
  let sent := if decide (rs_method (cc_rs c) = HM_HEAD) then [] else if decide (body = []) then [x0a] else body in
  resolved_filename rq = Some file -> strrchr file SLASH = Some p -> strprefix (bs "nph-") (drop (S p) file) = false ->
  cgi_exec_args FILENAME_MAX KLONE_VERSION handlers addr peer sysroot rq = Ok (dir, argv, envp) ->
  src_rest (run dir argv envp (posted rq)) = send_lines ls ++ body -> Forall line_ok ls -> length ls < HEADER_MAX_FIELD_COUNT ->
  asked_status (rs_header rs') = Ok st -> (0 <= st < 10 ^ 10)%Z -> header_ok (rs_header (cc_rs c)) ->
  readable (rq_io rq) -> writable (cc_out c) -> room (cc_out c) (length (header_text rs') + length sent) ->
  length (header_text rs') + RFBUFSZ <= f0 -> IO_RD_BUFSZ <= fuel -> IO_WR_BUFSZ <= fuel -> 3 * S (length body) + length (header_text rs') < fuel ->
  Z.to_nat (content_length rq) <= n -> length body < n ->
  exists c' out, cgi_serve f0 FILENAME_MAX rf_size fuel n env KLONE_VERSION handlers run no_output addr peer sysroot true true true c = (c', Ok tt) /\
    io_codecs_remove fuel (cc_out c') = (out, Ok tt) /\ writable out /\ outstream out = outstream (cc_out c) ++ header_text rs' ++ sent.
Proof.
  intros rq rs' sent Hfile Hp Hnph Hexec Hsrc Hls Hcnt Hst Hstr Hh Hrq Hw Hroom Hf0 Hfr Hfw Hfuel Hcl Hn.
  destruct (serve_start fuel n c file p dir argv envp ls body st) as (Hh' & Hs' & Hm' & c4 & inp & -> & Ec4 & Ri & Ii); try done; [lia|].
  fold rs' in Hh', Hs', Hm', Ec4. set (rf := fresh_filter rs') in *.
  assert (em_ok rf) as Hok.
  { assert (0 < RFBUFSZ) by (unfold RFBUFSZ; lia). split; cbn [rf fresh_filter rf_buf rf_off rf_rs rf_ss rf_iob]; try done; [intros _; split_and!; [done|rewrite Hs'; lia|rewrite Hs'; lia|done]|lia]. }
  assert (owed rf = header_text rs') as Ho.
  { change (owed rf) with (rf_owed rf). unfold rf_owed, rf_text. cbn [rf fresh_filter rf_flushing rf_off rf_buf rf_rs]. rewrite take_0. destruct (is_head _); by rewrite app_nil_r. }
  assert (forall A (x y : A), (if passes rf then x else y) = if decide (rs_method (cc_rs c) = HM_HEAD) then y else x) as Hpass.
  { intros A x y. change (passes rf) with (negb (is_head rf)). unfold is_head. cbn [rf fresh_filter rf_rs]. rewrite Hm'. by destruct (rs_method (cc_rs c)). }
  destruct (copy_and_end fuel n c4 (cc_out c) inp rf _ _ _ Ec4 Hw Hok Ri Hfw ltac:(rewrite Ii, Ho; lia) ltac:(by rewrite Ii)) as (c' & out & E & R & W & O).
  - rewrite Ho, Hpass, Ii. eapply eq_ind; [exact Hroom|]. unfold sent. by destruct (decide (rs_method (cc_rs c) = HM_HEAD)).
  - exists c', out. split_and!; try done. rewrite O, Ho, Hpass, Ii. done.
Qed.
End response_spec.

(** ** Which files are run *)

Section valid_spec.
Context {L : Libu} {LS : LibuSpec L}.
Variables (FILENAME_MAX : nat) (handlers : option (list byte -> option (list byte))) (script_alias : list (option (list byte))).
Variables (x_ok : list byte -> bool) (stat_reg : list byte -> option Z).

(** The text of a [script_alias] value after its last blank starts the name of a file. *)
Definition in_script_dir (fqn : list byte) : Prop :=
  exists v dir, Some v ∈ script_alias /\ script_dir v = Some dir /\ strprefix dir fqn = true /\ x_ok fqn = true.

Lemma script_loop_spec (rules : list (option (list byte))) (fqn : list byte) :
  script_loop x_ok rules fqn = true <->
  exists v dir, Some v ∈ rules /\ script_dir v = Some dir /\ strprefix dir fqn = true /\ x_ok fqn = true.
Proof.
  induction rules as [|[v|] rules IH]; cbn [script_loop]; [split; [done|intros (? & ? & H & _); by apply not_elem_of_nil in H]| |].
  - destruct (script_dir v) as [dir|] eqn:Ed.
    + destruct (strprefix dir fqn && x_ok fqn) eqn:Em.
      * apply andb_true_iff in Em as [? ?]. split; [intros _|done]. exists v, dir. split_and!; try done. by left.
      * rewrite IH. split; intros (v' & d' & Hin & Hs & Hp & Hx); exists v', d'; split_and!; try done; [by right|].
        apply elem_of_cons in Hin as [[= ->]|Hin]; [|done]. simplify_eq. by rewrite Hp, Hx in Em.
    + rewrite IH. split; intros (v' & d' & Hin & Hs & Hp & Hx); exists v', d'; split_and!; try done; [by right|].
      apply elem_of_cons in Hin as [[= ->]|Hin]; [by rewrite Ed in Hs|done].
  - rewrite IH. split; intros (v' & d' & Hin & Hs & Hp & Hx); exists v', d'; split_and!; try done; [by right|].
    by apply elem_of_cons in Hin as [?|?].
Qed.

(** The supplier takes the regular files whose name has no two dots in a row and that
    either have an extension with a handler or are executable and begin with the directory of
    a [script_alias]; nothing requires a slash after that directory. *)
Theorem cgi_accepts (uri : list byte) (mtime : Z) :
  cgi_is_valid_uri FILENAME_MAX handlers script_alias x_ok stat_reg uri = Some mtime <->
  length uri < FILENAME_MAX /\ has_dotdot uri = false /\ stat_reg uri = Some mtime /\
  (is_Some (cgi_ext FILENAME_MAX handlers uri) \/ is_Some handlers /\ in_script_dir uri).
Proof.
  assert (cgi_script handlers script_alias x_ok uri = true <-> is_Some handlers /\ in_script_dir uri) as Hs.
  { unfold cgi_script. destruct handlers as [h|]; [rewrite script_loop_spec; split; [by split; [eexists|]|by intros [_ ?]]|split; [done|by intros [[? ?] _]]]. }
  unfold cgi_is_valid_uri. case_decide; [split; [done|intros (? & _); lia]|].
  destruct (has_dotdot uri); [split; [done|by intros (_ & ? & _)]|]. destruct (stat_reg uri) as [m|]; [|split; [done|by intros (_ & _ & ? & _)]].
  destruct (bool_decide (is_Some (cgi_ext FILENAME_MAX handlers uri))) eqn:Ee; cbn [negb andb].
  - apply bool_decide_eq_true in Ee. split; [intros [= ->]; split_and!; try done; [lia|by left]|by intros (_ & _ & ? & _)].
  - apply bool_decide_eq_false in Ee. destruct (cgi_script handlers script_alias x_ok uri) eqn:Ec; cbn [negb].
    + split; [intros [= ->]; split_and!; try done; [lia|right; by apply Hs]|by intros (_ & _ & ? & _)].
    + split; [done|]. intros (_ & _ & _ & [?|Hx]); [done|]. apply Hs in Hx. congruence.
Qed.
End valid_spec.

(** ** Evaluation *)

Definition cgi_rq : request io_mem no_codec :=
  mkRq (mem_io (bs "a=1&b=2 and more")) (mkHeader [mk_field (bs "Host", bs "h"); mk_field (bs "Content-Type", bs "text/plain"); mk_field (bs "Proxy", bs "evil:80")] 3)
    HM_POST None (Some (bs "/cgi/x")) None None (Some (bs "q=1")) (Some (bs "/cgi/x")) None (Some (bs "/srv/cgi/x"))
    vars_create vars_create vars_create vars_create vars_create [] None None 7 0 false 5120000 0.

(** The environment of a program; the client chooses the variable HTTP_PROXY. *)
Lemma cgi_environment_witness :
  exists e, cgi_makeenv (L:=libu_ref) (bs "3.0") cgi_rq None (Some (bs "10.0.0.1:4000")) false None cgi_env0 = (e, Ok tt) /\
    env_vector (ce_env e) = Ok (map var_string (cgi_vars (L:=libu_ref) (bs "3.0") cgi_rq None (Some (bs "10.0.0.1:4000")) false None)) /\
    Forall (fun nv => nv.1 ∈ cgi_names \/ exists s, nv.1 = bs "HTTP_" ++ s) (cgi_vars (L:=libu_ref) (bs "3.0") cgi_rq None (Some (bs "10.0.0.1:4000")) false None).
Proof.
  apply (cgi_environment (L:=libu_ref) (bs "3.0") cgi_rq None (Some (bs "10.0.0.1:4000")) false None).
  - split; [done|]. repeat constructor; by eexists.
  - done.
  - repeat (apply Forall_cons; split); [eexists; split; [reflexivity|apply Nat.ltb_lt; vm_compute; reflexivity]..|constructor].
Defined.

Example cgi_proxy_variable : (bs "HTTP_PROXY", bs "evil:80") ∈ cgi_vars (L:=libu_ref) (bs "3.0") cgi_rq None None false None.
Proof. compute_decide. Qed.

(** Header fields that make the number of variables 32. *)
Definition cgi_rq_32 : request io_mem no_codec := set_rq_header cgi_rq (mkHeader (replicate 22 (mk_field (bs "X", bs "y"))) 22).
Example cgi_unterminated : env_vector (ce_env (cgi_makeenv (L:=libu_ref) (bs "3.0") cgi_rq_32 None None false None cgi_env0).1) = Fault.
Proof. vm_compute. reflexivity. Qed.

(** A file beside the directory, and any program at all when a value is empty. *)
Example cgi_outside : cgi_is_valid_uri (L:=libu_ref) 255 (Some (fun _ => None)) [Some (bs "/cgi/ /srv/cgi")] (fun _ => true) (fun _ => Some 0%Z)
  (bs "/srv/cgi-private/tool") = Some 0%Z.
Proof. reflexivity. Qed.
Example cgi_anywhere : cgi_is_valid_uri (L:=libu_ref) 255 (Some (fun _ => None)) [Some []] (fun _ => true) (fun _ => Some 0%Z)
  (bs "/usr/bin/env") = Some 0%Z.
Proof. reflexivity. Qed.

(** A program that answers with what it read. *)
Definition echo (_ : list byte) (_ _ : list (list byte)) (input : list byte) : io_mem :=
  let text := send_lines [bs "Content-Type: text/plain"; bs "Status: 201"] ++ input in mkIoMem text (length text) 0 false.
Definition cgi_out0 : io io_mem (rfilter io_mem no_codec) := io_mem_create (replicate (N.to_nat 400) x00) (N.to_nat 400) false.
Definition cgi_rs0 : response io_mem no_codec := mkRs (mkHeader [mk_field (bs "Server", bs "klone")] 1) (mem_io []) 200 HM_POST false.

Lemma cgi_response_witness :
  exists c' out, cgi_serve (L:=libu_ref) (N.to_nat 5000) (N.to_nat 4096) (N.to_nat 8000) (N.to_nat 9000) 300 env_f (bs "3.0") None echo (mkIoMem [] 0 0 false) None None None
      true true true (mkCc cgi_rq cgi_rs0 cgi_out0) = (c', Ok tt) /\
    io_codecs_remove (CO:=rf_ops (L:=libu_ref) (N.to_nat 5000) (N.to_nat 4096) env_f) (N.to_nat 9000) (cc_out c') = (out, Ok tt) /\ writable out /\
    outstream out = outstream cgi_out0 ++ header_text (cgi_rs (L:=libu_ref) cgi_rs0 [bs "Content-Type: text/plain"; bs "Status: 201"] 201) ++ bs "a=1&b=2".
Proof.
  apply (cgi_response (L:=libu_ref) (N.to_nat 5000) (N.to_nat 4096) (N.to_nat 8000) env_f (bs "3.0") None echo (mkIoMem [] 0 0 false) None None None (N.to_nat 9000) 300
    (mkCc cgi_rq cgi_rs0 cgi_out0) (bs "/srv/cgi/x") 8 (bs "/srv/cgi/") [bs "/srv/cgi/x"]
    (map var_string (cgi_vars (L:=libu_ref) (bs "3.0") cgi_rq None None false None)) [bs "Content-Type: text/plain"; bs "Status: 201"] (bs "a=1&b=2") 201).
  - reflexivity.
  - reflexivity.
  - reflexivity.
  - vm_compute. reflexivity.
  - reflexivity.
  - repeat (apply Forall_cons; split); [compute_decide..|constructor].
  - apply Nat.ltb_lt. vm_compute. reflexivity.
  - vm_compute. reflexivity.
  - lia.
  - split; [done|]. repeat constructor; by eexists.
  - apply mem_io_readable.
  - by split.
  - compute_decide.
  - compute_decide.
  - compute_decide.
  - compute_decide.
  - compute_decide.
  - compute_decide.
  - compute_decide.
Defined.
