(* ===== verification/SupFs.v ===== *)
(** Files of the file system: src/src/libhttp/sup_fs.c.

    The supplier that answers with a file.  [stat] and [u_file_open] are functions of the
    file name; the theorems take those of a file system of [Files].  The last part follows
    a request from the first byte that is read to the last that is written. *)

From stdpp Require Import list gmap.
From S2P Require Import Prelude Libu Encode Addr Path Date Io IoSpec IoMem Getline Header Vars Request Response.
From S2P Require Import Http Files Mime Cgi.

Definition FS_BUFSZ : nat := N.to_nat 4096.

(** What the code takes of [struct stat]. *)
Record fstat := mkStat { st_size : Z; st_mtime : Z; st_reg : bool }.

Section fs_ops.
Context {L : Libu} {D C DF : Type} {DO : DevOps D} {CO : CodecOps C} {DOF : DevOps DF}.
Variables (FILENAME_MAX fuel n : nat).
Variable stat : list byte -> option fstat.
Variable u_file_open : list byte -> res (io DF no_codec).      (* with O_RDONLY *)
Variable stack : list byte.                                    (* the array [buf] before it is used *)
Abbreviation cprog A := (prog (conn D C) A).

Definition fs_is_valid_uri (uri : list byte) : option Z :=
  if decide (FILENAME_MAX < length uri + 1) then None else
  if has_dotdot uri then None else
  match stat uri with
  | Some st => if st_reg st then Some (st_mtime st) else None
  | None => None
  end.

Definition rs_write (data : list byte) : prog (response D C) nat := fun rs =>
  let '(i, r) := io_write fuel (rs_io rs) data in (set_rs_io rs i, r).

(** The loop.  The -1 of a failed [io_read] becomes the greatest [size_t], so the array is
    written as it is and then what follows it in memory, unless the stream fails before that
    byte is reached. *)
Fixpoint fs_copy (k : nat) (inp : io DF no_codec) (buf : list byte) : cprog unit :=
  match k with
  | 0 => plift Timeout
  | S k' =>
      let '(inp1, r) := io_read fuel inp FS_BUFSZ in
      match r with
      | Ok [] => pret tt
      | Ok data => with_rs (rs_write data);;; fs_copy k' inp1 (mwrite buf 0 data)
      | Fail => with_rs (rs_write (buf ++ [x00]));;; plift Fault
      | Fault => plift Fault
      | Timeout => plift Timeout
      end
  end.

Definition fs_serve : cprog unit :=
  let! cn := pget in
  let fqn := resolved_filename (cn_rq cn) in
  let! st := plift (of_option (fqn ≫= stat)) in
  with_rs (response_set_content_length (st_size st));;;
  with_rs (response_set_content_type (u_guess_mime_type fqn));;;
  with_rs (response_set_last_modified (st_mtime st));;;
  with_rs (response_print_header fuel);;;
  let! cn := pget in
  if decide (rs_method (cn_rs cn) = HM_HEAD) then pret tt else
  let! inp := plift (match fqn with Some f => u_file_open f | None => Fail end) in
  fs_copy n inp stack.

Definition sup_fs : supplier D C := mkSup (fun _ _ => fs_is_valid_uri) fs_serve false.
End fs_ops.

(** ** A regular file *)

(** [stat] on a file system of regular files. *)
Definition fs_stat (fs : fsys) (p : list byte) : option fstat :=
  (fun f => mkStat (Z.of_nat (length f.1)) f.2 true) <$> fs !! p.

Section fs_spec.
Context {L : Libu} {LS : LibuSpec L} {LM : LibuMem L} {D C : Type} {DO : DevOps D} {DK : DevSink D} {CO : CodecOps C}.
Context {P : Posix}.
Variables (FILENAME_MAX fuel n : nat) (fs : fsys) (stack : list byte).

Lemma rs_write_spec (rs : response D C) (data : list byte) (m : nat) :
  writable (rs_io rs) -> room (rs_io rs) (length data + m) -> length data <= fuel ->
  exists rs', rs_write fuel data rs = (rs', Ok (length data)) /\ printed rs rs' data /\ room (rs_io rs') m.
Proof.
  intros Hw Hr Hf. unfold rs_write. destruct (io_write_spec fuel (rs_io rs) data m Hw Hr Hf) as (i & -> & W & R & O & S).
  exists (set_rs_io rs i). destruct rs. by split_and!.
Qed.

(** The loop sends what is left of the file. *)
Lemma fs_copy_spec (k : nat) : forall (inp : io frd no_codec) (buf : list byte) (cn : conn D C),
  readable inp -> writable (rs_io (cn_rs cn)) -> room (rs_io (cn_rs cn)) (length (instream inp)) ->
  FS_BUFSZ <= fuel -> length (instream inp) < k ->
  exists rs', fs_copy fuel k inp buf cn = (set_cn_rs cn rs', Ok tt) /\ printed (cn_rs cn) rs' (instream inp).
Proof.
  assert (0 < FS_BUFSZ) as Hpos by (unfold FS_BUFSZ; lia).
  induction k as [|k IH]; intros inp buf cn Hr Hw Hroom Hf Hk; [lia|]. cbn [fs_copy].
  destruct (io_read_spec fuel inp FS_BUFSZ Hr ltac:(lia)) as (inp1 & -> & R1 & R2 & _).
  pose proof (take_drop FS_BUFSZ (instream inp)) as Etd. rewrite <- R2 in Etd.
  pose proof (length_take (instream inp) FS_BUFSZ) as Hl.
  destruct (take FS_BUFSZ (instream inp)) as [|x data] eqn:Ed.
  { assert (instream inp = []) as -> by (cbn in Hl; apply length_zero_iff_nil; lia).
    exists (cn_rs cn). split; [by destruct cn|by apply printed_refl]. }
  set (d := x :: data) in *. assert (0 < length d) by (cbn; lia). rewrite <- Etd, length_app in Hroom, Hk.
  destruct (rs_write_spec (cn_rs cn) d (length (instream inp1)) Hw Hroom ltac:(lia)) as (rs1 & E1 & P1 & Rm1).
  cbn beta iota. erewrite pbind_Ok by (by apply with_rs_Ok). pose proof P1 as (_ & W1 & _).
  destruct (IH inp1 (mwrite buf 0 d) (set_cn_rs cn rs1) R1) as (rs2 & E2 & P2);
    [by destruct cn|by destruct cn|done|lia|].
  exists rs2. unfold d in *. rewrite E2. split; [by destruct cn|]. rewrite <- Etd. eapply printed_trans; [exact P1|]. by destruct cn.
Qed.

(** The fields that describe a file. *)
Definition file_fields (file : list byte) (size : nat) (modified : list byte) : list (list byte * list byte) :=
  [(bs "Content-Length", fmt_u (Z.of_nat size)); (bs "Content-Type", u_guess_mime_type (Some file));
   (bs "Last-Modified", modified)].

Lemma fs_serve_spec (cn : conn D C) (rs0 : response D C) (file data : list byte) (mtime : Z) (modified sig date : list byte) :
  let fields := [(bs "Server", sig); (bs "Date", date)] ++ file_fields file (length data) modified in
  let rs := with_fields rs0 fields in
  let sent := if decide (rs_method rs0 = HM_HEAD) then [] else data in
  cn_rs cn = with_fields rs0 [(bs "Server", sig); (bs "Date", date)] -> resolved_filename (cn_rq cn) = Some file ->
  fs !! file = Some (data, mtime) -> open_ok file = true -> (Z.of_nat (length data) < 2 ^ 32)%Z -> u_tt_to_rfc822 mtime = Ok modified ->
  writable (rs_io rs0) -> room (rs_io rs0) (length (header_text rs) + length sent) ->
  length (header_text rs) <= fuel -> FS_BUFSZ <= fuel -> length data < n ->
  exists rs', fs_serve fuel n (fs_stat fs) (u_file_open_ro fs) stack cn = (set_cn_rs cn rs', Ok tt) /\
    printed rs rs' (header_text rs ++ sent).
Proof.
  intros fields rs sent Hrs Hfile Hfs Hopen Hsize Hmod Hw Hroom Hf1 Hf2 Hn. destruct cn as [rq rs1 sup vh]. cbn [cn_rs cn_rq] in *. subst rs1.
  unfold fs_serve. erewrite (pbind_Ok pget) by reflexivity. cbn [cn_rq]. rewrite Hfile. cbn [mbind option_bind].
  unfold fs_stat. rewrite Hfs. erewrite (pbind_Ok (plift _)) by reflexivity. cbn [fmap option_fmap st_size st_mtime fst snd].
  assert (length (fmt_u (Z.of_nat (length data))) <= 10) as Hfit by (unfold fmt_u; apply dec_go_length; lia).
  erewrite pbind_Ok.
  2: { apply with_rs_Ok. unfold response_set_content_length. rewrite u_snprintf_spec by (unfold RS_BUFSZ; lia).
       unfold u32. rewrite Z.mod_small by lia. rewrite bool_decide_false, take_ge by (unfold RS_BUFSZ in *; lia).
       erewrite (pbind_Ok (pguard _)) by reflexivity. by apply response_set_new. }
  cbn [set_cn_rs cn_rs]. erewrite pbind_Ok by (apply with_rs_Ok; unfold response_set_content_type; by apply response_set_new).
  cbn [set_cn_rs cn_rs]. erewrite pbind_Ok.
  2: { apply with_rs_Ok. unfold response_set_last_modified. rewrite Hmod. erewrite (pbind_Ok (plift _)) by reflexivity. by apply response_set_new. }
  cbn [set_cn_rs cn_rs app]. fold (file_fields file (length data) modified).
  change (with_fields rs0 _) with rs.
  destruct (print_header_spec fuel rs (length sent)) as (rs2 & E2 & P2 & R2); [|by destruct rs0|by destruct rs0|done|].
  { assert (rs_header rs = mkHeader (map mk_field fields) (length fields)) as -> by (unfold rs; by destruct rs0).
    split; [done|]. repeat (apply Forall_cons; split; [split; by eexists|]). by apply Forall_nil. }
  erewrite pbind_Ok by (by apply with_rs_Ok). cbn [set_cn_rs cn_rs]. erewrite (pbind_Ok pget) by reflexivity. cbn [cn_rs].
  pose proof P2 as (F2 & W2 & _).
  assert (rs_method rs2 = rs_method rs0) as -> by (rewrite F2; by destruct rs0).
  unfold sent in *. destruct (decide _) as [Hh|Hh].
  { exists rs2. by rewrite app_nil_r. }
  unfold u_file_open_ro. rewrite Hfs, Hopen. unfold io_name_set. rewrite u_alloc_ok. erewrite (pbind_Ok (plift _)) by reflexivity.
  match goal with |- context [fs_copy fuel n ?i] => set (inp := i) end.
  assert (readable inp /\ instream inp = data) as [Hr Hi].
  { split; [by split_and!|]. unfold instream, rwin, uwin. cbn. by rewrite !mread_0. }
  destruct (fs_copy_spec n inp stack (mkConn rq rs2 sup vh) Hr W2) as (rs3 & E3 & P3); [by rewrite Hi|done|by rewrite Hi|].
  exists rs3. rewrite E3. split; [done|]. rewrite Hi in P3. by eapply printed_trans.
Qed.
End fs_spec.

(** ** From the request to the response *)

(** The stream of a request that has not been read holds a request line, header lines and a
    body, within the limits of the parser, with a method other than POST. *)
Record sends {D C} {DO : DevOps D} {CO : CodecOps C} {DS : DevSource D} (rq : request D C) (m uri proto path : list byte)
    (nvs : list (list byte * list byte)) (body : list byte) : Prop := {
  sn_fresh : rq_header rq = header_create /\ cgi rq = false;
  sn_readable : readable (rq_io rq);
  sn_stream : instream (rq_io rq) = request_line m uri proto ++ [x0d; x0a] ++ send_lines (map field_line nvs) ++ body;
  sn_line : length (request_line m uri proto) + 2 < RQ_LINE_BUFSZ;
  sn_words : is_word m /\ is_word uri /\ is_word proto;
  sn_method : method_of m <> HM_UNKNOWN /\ method_of m <> HM_POST;
  sn_uri : length uri < MAX_URI /\ uri_path uri = Some path /\ length path < URI_MAX;
  sn_proto : strcaseprefix (bs "http") proto = true;
  sn_fields : Forall pair_ok nvs /\ length nvs < HEADER_MAX_FIELD_COUNT;
  sn_ims : forall s, head (vals (loaded rq nvs) (bs "If-Modified-Since")) = Some s -> safe (u_httpdate_to_tt s)
}.

Lemma broker_find_last {D C} (pre : list (supplier D C)) (s : supplier D C) (hd : header) (vh : option vhost) (p : list byte) (k : nat) :
  Forall (fun s => sup_valid s hd vh p = None) pre ->
  broker_find (pre ++ [s]) k hd vh p = (fun t => (k + length pre, t)) <$> sup_valid s hd vh p.
Proof.
  intros H. revert k. induction H as [|s' pre Hs _ IH]; intros k; cbn [app broker_find].
  - rewrite Nat.add_0_r. by destruct (sup_valid s hd vh p).
  - rewrite Hs, IH. cbn [length]. by rewrite Nat.add_succ_r.
Qed.

Section get.
Context {L : Libu} {LS : LibuSpec L} {LM : LibuMem L} {D C : Type} {DO : DevOps D} {DS : DevSource D} {DK : DevSink D} {CO : CodecOps C}.
Context {P : Posix}.
Variables (FILENAME_MAX fuel n : nat) (fs : fsys) (stack KLONE_VERSION : list byte).
Variables (h : http D C) (pre : list (supplier D C)) (v : vhost) (path file data : list byte) (mtime : Z).
Abbreviation fs_sup := (sup_fs FILENAME_MAX fuel n (fs_stat fs) (u_file_open_ro fs) stack : supplier D C).

(** The first virtual host has a file for the path, and the suppliers before this one do not
    know it. *)
Record serves_file : Prop := {
  sf_broker : ht_broker h = pre ++ [fs_sup];
  sf_others : Forall (fun s => forall hd vh, sup_valid s hd vh path = None /\ sup_valid s hd vh file = None) pre;
  sf_vhost : vhost_list_get_n (ht_vhosts h) 0 = Some v;
  sf_resolved : alias_resolv v path FILENAME_MAX = Some file;
  sf_raw : fs !! path = None;
  sf_name : has_dotdot file = false /\ length file < FILENAME_MAX;
  sf_file : fs !! file = Some (data, mtime) /\ open_ok file = true;
  sf_size : (Z.of_nat (length data) < 2 ^ 32)%Z
}.

Lemma valid_file : serves_file -> length path < URI_MAX -> valid_info FILENAME_MAX h None header_create path = Some (length pre, mtime).
Proof.
  intros [Hb Ho Hv Hr Hraw [Hdd Hlen] [Hf _] _] Hp. unfold valid_info. rewrite decide_False by lia. rewrite Hb.
  assert (fs_stat fs path = None) as Hs by (unfold fs_stat; by rewrite Hraw).
  assert (fs_stat fs file = Some (mkStat (Z.of_nat (length data)) mtime true)) as Hs' by (unfold fs_stat; by rewrite Hf).
  rewrite broker_find_last by (eapply Forall_impl; [exact Ho|intros s Hs0; apply Hs0]). cbn [sup_valid sup_fs].
  unfold fs_is_valid_uri. rewrite Hs. assert (forall b : bool, (if b then @None Z else None) = None) as Hnn by (by intros []).
  rewrite Hnn. case_decide; cbn [fmap option_fmap option_map];
    (unfold http_alias_resolv, http_get_vhost; cbn [header_get_field_value header_create];
     change (header_get_field_value header_create (bs "Host")) with (Ok (@None (list byte))); cbn [mbind res_bind];
     rewrite Hv, Hr; cbn [of_option];
     rewrite broker_find_last by (eapply Forall_impl; [exact Ho|intros s Hs0; apply Hs0]);
     cbn [sup_valid sup_fs]; unfold fs_is_valid_uri; rewrite decide_False, Hdd, Hs' by lia; done).
Qed.
(** The request as it is served. *)
Lemma parsed_fields (rq : request D C) (m uri proto : list byte) (nvs : list (list byte * list byte)) (valid : list byte -> nat -> bool) (i' : io D C) :
  valid path (length path) = true ->
  let rq1 := parsed_request rq m uri proto path nvs (Some valid) i' in
  filename rq1 = Some path /\ path_info rq1 = None /\ rq_header rq1 = loaded rq nvs /\ rq_method rq1 = method_of m /\
  if_modified_since rq1 = ims_time (loaded rq nvs) /\ rq_uri rq1 = Some uri.
Proof.
  intros Hv rq1. assert (split_path valid path = (path, None)) as E.
  { unfold split_path, cuts. cbn [List.find]. rewrite Hv. by rewrite take_ge, drop_ge by lia. }
  unfold rq1, parsed_request, uri_request. cbn [the_valid default from_option id]. rewrite E. destruct rq. by split_and!.
Qed.

Lemma prepared (cn : conn D C) (m uri proto : list byte) (nvs : list (list byte * list byte)) (body : list byte) (environ : list (list byte)) (now : Z) (date : list byte) :
  serves_file -> sends (cn_rq cn) m uri proto path nvs body -> cn_vhost cn = None -> rs_header (cn_rs cn) = header_create ->
  http_get_vhost h None (loaded (cn_rq cn) nvs) = Ok (Some v) -> u_tt_to_rfc822 now = Ok date -> 0 < fuel -> 0 < n ->
  exists rq', serve_prepare FILENAME_MAX fuel n true environ h now cn =
      (mkConn rq' (with_fields (set_rs_status (set_rs_method (cn_rs cn) (method_of m)) 200) [(bs "Server", vh_server_sig v); (bs "Date", date)])
         (Some (length pre, mtime)) (Some v), Ok tt) /\
    resolved_filename rq' = Some file /\ if_modified_since rq' = ims_time (loaded (cn_rq cn) nvs) /\ rq_uri rq' = Some uri.
Proof.
  intros Hsf [[S1 S1'] S2 S3 S4 (S5 & S5' & S5'') [S6 S6'] (S7 & S7' & S7'') S8 [S9 S9'] S10] Hvh Hh Hv Hd Hf Hn.
  destruct cn as [rq rs sup vh]. cbn [cn_rq cn_rs cn_vhost] in *. subst vh.
  unfold serve_prepare. erewrite pbind_Ok by (by apply with_rs_Ok). erewrite pbind_Ok by (by apply with_rs_Ok).
  cbn [set_cn_rs cn_rs]. unfold http_parse. cbn [cn_vhost cn_rq].
  set (valid := fun (buf : list byte) (len : nat) => bool_decide (is_Some (valid_info FILENAME_MAX h None (rq_header rq) (take len buf)))).
  assert (valid path (length path) = true) as Hval.
  { unfold valid. rewrite take_ge by lia. rewrite S1, valid_file by done. by rewrite bool_decide_true. }
  destruct (request_parsed fuel n rq m uri proto path nvs body (Some valid) environ) as (i' & _ & _ & E); try done; [by rewrite S1|].
  rewrite decide_False in E by done.
  destruct (parsed_fields rq m uri proto nvs valid i' Hval) as (F1 & F2 & F3 & F4 & F5 & F6).
  set (rq1 := parsed_request rq m uri proto path nvs (Some valid) i') in *.
  erewrite pbind_Ok.
  2: { cbn beta zeta. cbn [cn_rq cn_vhost cn_sup]. fold valid. rewrite E. unfold pret. cbn beta iota. rewrite F1, S1, valid_file by done. reflexivity. }
  cbn [set_cn_rq set_cn_sup]. erewrite pbind_Ok by (by apply with_rs_Ok). cbn [cn_rq cn_rs set_cn_rs]. rewrite F4.
  erewrite (pbind_Ok pget) by reflexivity. cbn [cn_vhost cn_rq]. rewrite F3, Hv. erewrite (pbind_Ok (plift _)) by reflexivity.
  cbn beta iota. erewrite (pbind_Ok (pmod _)) by reflexivity. cbn beta. cbn [set_cn_vhost].
  unfold http_resolv_request at 1. erewrite pbind_Ok.
  2: { erewrite (pbind_Ok pget) by reflexivity. cbn [cn_rq cn_vhost]. rewrite F1, F2. unfold http_alias_resolv, http_get_vhost. cbn [mbind res_bind].
       rewrite (sf_resolved Hsf). cbn [of_option]. erewrite pbind_Ok.
       2: { erewrite (pbind_Ok (plift _)) by reflexivity. unfold with_rq, request_set_resolved_filename. cbn [cn_rq]. rewrite set_string_field_total. reflexivity. }
       reflexivity. }
  cbn [set_cn_rq]. set (rq2 := set_resolved_filename (set_resolved_filename rq1 None) (Some file)).
  erewrite (pbind_Ok pget) by reflexivity. cbn [cn_sup]. erewrite (pbind_Ok (pret tt)) by reflexivity.
  erewrite pbind_Ok by (eapply (default_header_new h v now date _ (set_rs_method (set_rs_status (set_rs_method rs HM_GET) 400) (method_of m))); [done|done|];
    cbn [cn_rs]; destruct rs as [h0 i0 s0 m0 g0]; cbn in Hh |- *; by rewrite Hh).
  exists rq2. split; [|by unfold rq2; destruct rq1].
  cbn [set_cn_rs]. unfold with_rs, response_set_status, pmod. cbn [cn_rs set_cn_rs]. by destruct rs.
Qed.
(** What the client receives: the header of a 304 when its copy is not older than the file,
    otherwise the header that describes the file and the file, without the file for HEAD. *)
Definition file_answer (rs : response D C) (meth : method) (ims : Z) (date modified : list byte) : list byte :=
  let answer st fields := header_text (with_fields (set_rs_status (set_rs_method rs meth) st) ([(bs "Server", vh_server_sig v); (bs "Date", date)] ++ fields)) in
  if decide (ims <> 0 /\ mtime <> 0 /\ mtime <= ims)%Z then answer 304%Z []
  else answer 200%Z (file_fields file (length data) modified) ++ (if decide (meth = HM_HEAD) then [] else data).

(** C2: a request for a file is answered with the file.  The bytes that a client sends, a
    request line with any spelling of the path that normalises to it and any header fields,
    are parsed, the path is mapped to a file by the virtual host, the supplier is chosen, and
    the bytes written are a status line, the identification and date of the server, the
    length, type and time of the file, and exactly the contents of the file; for HEAD the
    header alone, and a 304 without a body when the client has a copy that is not older. *)
Theorem http_get_file (cn : conn D C) (m uri proto : list byte) (nvs : list (list byte * list byte)) (body : list byte)
    (environ : list (list byte)) (now : Z) (date modified : list byte) :
  let answer := file_answer (cn_rs cn) (method_of m) (ims_time (loaded (cn_rq cn) nvs)) date modified in
  serves_file -> sends (cn_rq cn) m uri proto path nvs body -> cn_vhost cn = None -> rs_header (cn_rs cn) = header_create ->
  http_get_vhost h None (loaded (cn_rq cn) nvs) = Ok (Some v) -> u_tt_to_rfc822 now = Ok date -> u_tt_to_rfc822 mtime = Ok modified ->
  writable (rs_io (cn_rs cn)) -> room (rs_io (cn_rs cn)) (length answer) -> length answer <= fuel -> FS_BUFSZ <= fuel -> length data < n ->
  exists cn', http_serve FILENAME_MAX KLONE_VERSION fuel n true environ h now cn = (cn', Ok tt) /\
    outstream (rs_io (cn_rs cn')) = outstream (rs_io (cn_rs cn)) ++ answer.
Proof.
  intros answer Hsf Hs Hvh Hh Hv Hd Hm Hw Hroom Hf Hfb Hn. assert (0 < FS_BUFSZ) as Hpos by (unfold FS_BUFSZ; lia).
  destruct (prepared cn m uri proto nvs body environ now date Hsf Hs Hvh Hh Hv Hd ltac:(lia) ltac:(lia)) as (rq' & E & R1 & R2 & R3).
  set (rs1 := set_rs_status (set_rs_method (cn_rs cn) (method_of m)) 200) in *.
  assert (rs_io rs1 = rs_io (cn_rs cn) /\ rs_method rs1 = method_of m) as [Eio Em] by (unfold rs1; by destruct (cn_rs cn)).
  assert (exists rs2 st, broker_serve fuel h (mkConn rq' (with_fields rs1 [(bs "Server", vh_server_sig v); (bs "Date", date)]) (Some (length pre, mtime)) (Some v)) =
     (mkConn rq' rs2 (Some (length pre, mtime)) (Some v), Ok 0%Z) /\ outstream (rs_io rs2) = outstream (rs_io (cn_rs cn)) ++ answer /\
     rs_status rs2 = st /\ st <> 404%Z) as (rs2 & st & Eb & Ob & Es & Hst).
  { unfold broker_serve. assert (ht_broker h !! length pre = Some fs_sup) as Hk by (rewrite (sf_broker Hsf); by apply list_lookup_middle).
    unfold answer, file_answer in *. rewrite <- R2 in *. destruct (decide (if_modified_since rq' <> 0 /\ mtime <> 0 /\ mtime <= if_modified_since rq')%Z) as [Hc|Hc].
    - cbn [app] in *. set (rs3 := with_fields (set_rs_status (set_rs_method (cn_rs cn) (method_of m)) 304) _) in *.
      destruct (print_header_spec fuel rs3 0) as (rs4 & E4 & (F4 & _ & O4 & _) & _).
      { assert (rs_header rs3 = mkHeader (map mk_field [(bs "Server", vh_server_sig v); (bs "Date", date)]) 2) as -> by (unfold rs3; by destruct (cn_rs cn)).
        split; [done|]. repeat (apply Forall_cons; split; [split; by eexists|]). by apply Forall_nil. }
      { by unfold rs3; destruct (cn_rs cn). } { rewrite Nat.add_0_r. by unfold rs3; destruct (cn_rs cn). } { done. }
      exists rs4, 304%Z. split_and!; [|rewrite O4; unfold rs3; by destruct (cn_rs cn)|rewrite F4; unfold rs3; by destruct (cn_rs cn)|done].
      apply pelse_Ok. erewrite (pbind_Ok pget) by reflexivity. cbn [cn_sup]. erewrite (pbind_Ok (pret _)) by reflexivity. cbn beta iota. rewrite Hk. cbn [cn_rq].
      rewrite decide_True by done. erewrite pbind_Ok by (by apply with_rs_Ok). cbn [set_cn_rs cn_rs].
      assert (set_rs_status (with_fields rs1 [(bs "Server", vh_server_sig v); (bs "Date", date)]) 304 = rs3) as -> by (unfold rs3, rs1; by destruct (cn_rs cn)).
      by erewrite pbind_Ok by (by apply with_rs_Ok).
    - rewrite length_app in Hroom, Hf. fold rs1 in Hroom, Hf |- *. rewrite <- Em in Hroom, Hf |- *.
      destruct (fs_serve_spec fuel n fs stack (mkConn rq' (with_fields rs1 [(bs "Server", vh_server_sig v); (bs "Date", date)]) (Some (length pre, mtime)) (Some v))
        rs1 file data mtime modified (vh_server_sig v) date) as (rs4 & E4 & (F4 & _ & O4 & _)); try done; try apply Hsf.
      { by rewrite Eio. } { by rewrite Eio. } { lia. }
      exists rs4, 200%Z. split_and!; [|rewrite O4, <- Eio; by destruct rs1|rewrite F4; unfold rs1; by destruct (cn_rs cn)|done].
      apply pelse_Ok. erewrite (pbind_Ok pget) by reflexivity. cbn [cn_sup]. erewrite (pbind_Ok (pret _)) by reflexivity. cbn beta iota. rewrite Hk. cbn [cn_rq].
      rewrite decide_False by done. erewrite pbind_Ok by exact E4. erewrite (pbind_Ok pget) by reflexivity. cbn [set_cn_rs cn_rs].
      assert (rs_status rs4 = 200%Z) as -> by (rewrite F4; unfold rs1; by destruct (cn_rs cn)). done. }
  exists (mkConn rq' rs2 (Some (length pre, mtime)) (Some v)). split; [|done].
  unfold http_serve. erewrite pbind_Ok.
  2: { apply pelse_Ok. unfold serve_page. erewrite pbind_Ok by exact E. erewrite pbind_Ok by exact Eb.
       unfold try_redirect. erewrite (pbind_Ok pget) by reflexivity. cbn [cn_rq cn_rs]. rewrite R3, decide_False by congruence. reflexivity. }
  done.
Qed.
End get.

(** ** Read errors *)

Section read_error.
Context {L : Libu} {LM : LibuMem L} {D C DF : Type} {DO : DevOps D} {DK : DevSink D} {CO : CodecOps C} {DOF : DevOps DF}.

(** When a read fails the loop does not stop: the array on the stack goes to the client, and
    the copy continues past its end, which is undefined. *)
Theorem fs_read_error (fuel k : nat) (inp inp' : io DF no_codec) (buf : list byte) (cn : conn D C) :
  io_read fuel inp FS_BUFSZ = (inp', Fail) -> writable (rs_io (cn_rs cn)) ->
  room (rs_io (cn_rs cn)) (S (length buf)) -> length buf < fuel ->
  exists cn' rest, fs_copy fuel (S k) inp buf cn = (cn', Fault) /\
    outstream (rs_io (cn_rs cn')) = outstream (rs_io (cn_rs cn)) ++ buf ++ rest.
Proof.
  intros Hr Hw Hroom Hf. cbn [fs_copy]. rewrite Hr. unfold pbind, with_rs, rs_write.
  destruct (io_write_spec fuel (rs_io (cn_rs cn)) (buf ++ [x00]) 0 Hw) as (i & -> & _ & _ & O & _);
    [rewrite length_app, Nat.add_0_r; cbn [length]; by rewrite Nat.add_1_r|rewrite length_app; cbn [length]; lia|].
  exists (set_cn_rs cn (set_rs_io (cn_rs cn) i)), [x00]. split; [done|]. destruct cn as [rq [h0 i0 s0 m0 g0] sup vh]. exact O.
Qed.
End read_error.

(** ** Evaluation *)

(** Descriptors of files and of directories, which cannot be read. *)
Inductive fdesc := FdReg (d : frd) | FdDir.

#[local] Instance posix_fs : Posix.
Proof. refine {| open_ok := fun _ => true; rd_part := fun n => n; wr_part := fun n => n |}; lia. Defined.

#[local] Instance fdesc_ops : DevOps fdesc := {|
  dev_read := fun d n => match d with FdReg f => let '(f', o) := io_fd_read f n in (FdReg f', o) | FdDir => (FdDir, None) end;
  dev_write := fun d _ => (d, None);
  dev_seek := fun d _ => (d, None);
  dev_tell := fun _ => None;
  dev_close := fun d => (d, true)
|}.

Definition disk : fsys := <[bs "/a/x.txt" := (bs "some text", 784111777%Z)]> (<[bs "/etc/passwd" := (bs "root:0:0", 784111777%Z)]> ∅).
Definition fs_server (fs : fsys) : http io_mem no_codec :=
  mkHttp [sup_fs (L:=libu_ref) 1024 (N.to_nat 5000) 100 (fs_stat fs) (u_file_open_ro (L:=libu_ref) fs) (replicate FS_BUFSZ "S"%byte)] [vh_a] [].
Definition fs_client (lines : list (list byte)) : conn io_mem no_codec :=
  mkConn (set_rq_io rq0 (mem_io (send_lines lines)))
         (mkRs header_create (mem_io (replicate (N.to_nat 6000) x00)) 0 HM_UNKNOWN false) None None.
Definition written (cn : conn io_mem no_codec) : list byte := outstream (rs_io (cn_rs cn)).

Example fs_get : written (http_serve (L:=libu_ref) 1024 (bs "x") (N.to_nat 5000) 100 true [] (fs_server disk) 784111777
    (fs_client [bs "GET /./x.txt HTTP/1.0"; bs "Host: h"])).1 =
  bs "HTTP/1.0 200 OK" ++ crlf ++ bs "Server: klone" ++ crlf ++ bs "Date: Sun, 06 Nov 1994 08:49:37 GMT" ++ crlf ++
  bs "Content-Length: 9" ++ crlf ++ bs "Content-Type: text/plain" ++ crlf ++
  bs "Last-Modified: Sun, 06 Nov 1994 08:49:37 GMT" ++ crlf ++ crlf ++ bs "some text".
Proof. vm_compute. reflexivity. Qed.

(** The path of a request is looked up as it is before the root of the virtual host is put
    in front of it: a conditional request for a file outside the roots is answered 304 when
    the file exists and is not newer than the given date. *)
Theorem fs_probe :
  let '(cn, r) := http_serve (L:=libu_ref) 1024 (bs "x") (N.to_nat 5000) 100 true [] (fs_server disk) 784111777
    (fs_client [bs "GET /etc/passwd HTTP/1.0"; bs "If-Modified-Since: Sat, 01 Jan 2005 00:00:00 GMT"]) in
  r = Ok tt /\ rs_status (cn_rs cn) = 304%Z /\ ~ in_roots vh_a (bs "/etc/passwd").
Proof.
  assert (~ in_roots vh_a (bs "/etc/passwd")) as Hno.
  { intros (root & Hr & Hb). repeat (apply elem_of_cons in Hr as [->|Hr]; [by vm_compute in Hb; decompose record Hb|]). by apply not_elem_of_nil in Hr. }
  vm_compute. by split_and!.
Qed.

(** The supplier and the type of a file are decided on the path as it is, the file that is
    opened is the resolved one.  When the first is a file and the second a directory, the
    read fails and the client gets what was on the stack. *)
Definition split_stat (p : list byte) : option fstat :=
  if streq p (bs "/x") then Some (mkStat 5 7 true) else
  if streq p (bs "/a/x") then Some (mkStat 512 7 false) else None.
Definition dir_open (p : list byte) : res (io fdesc no_codec) :=
  if streq p (bs "/a/x") then Ok (io_prv_create FdDir) else Fail.

Theorem fs_directory_fault :
  let sup := sup_fs (L:=libu_ref) 1024 (N.to_nat 5000) 100 split_stat dir_open (replicate FS_BUFSZ "S"%byte) in
  let '(cn, r) := http_serve (L:=libu_ref) 1024 (bs "x") (N.to_nat 5000) 100 true [] (mkHttp [sup] [vh_a] []) 784111777
    (fs_client [bs "GET /x HTTP/1.0"]) in
  r = Fault /\ take (N.to_nat 4000) (drop 200 (written cn)) = replicate (N.to_nat 4000) "S"%byte.
Proof. vm_compute. by split. Qed.

Lemma fs_read_error_witness :
  exists cn' rest, fs_copy (L:=libu_ref) 100 1 (io_prv_create FdDir) (bs "secret") (fs_client []) = (cn', Fault) /\
    outstream (rs_io (cn_rs cn')) = outstream (rs_io (cn_rs (fs_client []))) ++ bs "secret" ++ rest.
Proof.
  apply (fs_read_error (L:=libu_ref) 100 0 (io_prv_create FdDir) (io_read (L:=libu_ref) 100 (io_prv_create FdDir : io fdesc no_codec) FS_BUFSZ).1 (bs "secret") (fs_client [])).
  - vm_compute. reflexivity.
  - by split.
  - unfold room. cbn. compute_decide.
  - cbn. lia.
Defined.

Lemma http_get_file_witness :
  let cn := fs_client [bs "GET /./x.txt HTTP/1.0"; bs "Host: h"] in
  exists cn', http_serve (L:=libu_ref) 1024 (bs "x") (N.to_nat 5000) 100 true [] (fs_server disk) 784111777 cn = (cn', Ok tt) /\
    outstream (rs_io (cn_rs cn')) = outstream (rs_io (cn_rs cn)) ++
      file_answer vh_a (bs "/a/x.txt") (bs "some text") 784111777 (cn_rs cn) HM_GET 0
        (bs "Sun, 06 Nov 1994 08:49:37 GMT") (bs "Sun, 06 Nov 1994 08:49:37 GMT").
Proof.
  intros cn. apply (http_get_file (L:=libu_ref) 1024 (N.to_nat 5000) 100 disk (replicate FS_BUFSZ "S"%byte) (bs "x") (fs_server disk) [] vh_a
    (bs "/x.txt") (bs "/a/x.txt") (bs "some text") 784111777 cn (bs "GET") (bs "/./x.txt") (bs "HTTP/1.0") [(bs "Host", bs "h")] [] [] 784111777
    (bs "Sun, 06 Nov 1994 08:49:37 GMT") (bs "Sun, 06 Nov 1994 08:49:37 GMT")).
  - split.
    + reflexivity.
    + by apply Forall_nil.
    + reflexivity.
    + vm_compute. reflexivity.
    + vm_compute. reflexivity.
    + split; [reflexivity|compute_decide].
    + split; [vm_compute; reflexivity|reflexivity].
    + done.
  - split.
    + done.
    + by split_and!.
    + vm_compute. reflexivity.
    + compute_decide.
    + split_and!; compute_decide.
    + done.
    + split_and!; [compute_decide|vm_compute; reflexivity|compute_decide].
    + done.
    + split; compute_decide.
    + intros s Hs. vm_compute in Hs. done.
  - reflexivity.
  - reflexivity.
  - vm_compute. reflexivity.
  - vm_compute. reflexivity.
  - vm_compute. reflexivity.
  - by split.
  - unfold room. compute_decide.
  - compute_decide.
  - compute_decide.
  - compute_decide.
Defined.
