(* ===== verification/DyPage.v ===== *)
(** Dynamic pages: src/src/libhttp/dypage.c.

    A page is compiled C code that [dypage_serve] calls between the creation of a session
    and its release.  What the code of a page does between two writes is any function on
    the session, the response and the store of the sessions; writes go through the response
    filter, which looks at the response and the session through pointers. *)

From S2P Require Import Prelude Libu Encode Path Date Io IoSpec IoMem Getline Header Vars Request Multipart Response.
From S2P Require Import Md5 Session Filter.

(** ** Named parameters *)

(** The loop over [args->params]; a name that is not there is the empty string. *)
Fixpoint dypage_get_param (params : list (list byte * list byte)) (key : list byte) : list byte :=
  match params with
  | [] => []
  | (k, v) :: params' => if streq key k then v else dypage_get_param params' key
  end.

(** ** Pages *)

(** The code of a page: it ends, works on the session and the response, or writes and goes on
    with whether the write succeeded. *)
Inductive page (St D C : Type) :=
  | PEnd
  | PDo (f : world St D C -> world St D C) (k : world St D C -> page St D C)
  | PWrite (data : list byte) (k : bool -> page St D C).
Arguments PEnd {St D C}.
Arguments PDo {St D C} _ _.
Arguments PWrite {St D C} _ _.

Section dypage_ops.
Context {L : Libu} {DR CR D C D2 St T Ct : Type} {DOR : DevOps DR} {COR : CodecOps CR} {DO2 : DevOps D2} {SD : SesDriver St}.
Context {DOT : DevOps T} {COT : CodecOps Ct}.
Variables (f0 FILENAME_MAX rf_size fuel n k : nat) (env : ses_env) (timer : bool).
Variable tmpfile_open : nat -> option (io T Ct).
Variable stat_size : list byte -> option nat.
#[local] Instance page_filter_ops : CodecOps (rfilter D C) := rf_ops f0 FILENAME_MAX env.

(** The request with its uploaded files, the session, response and store, and the stream of
    the response. *)
Record pconn := mkPc {
  pc_rq : mpstate (D:=DR) (C:=CR) (T:=T);
  pc_w : world St D C;
  pc_out : io D2 (rfilter D C)
}.
Abbreviation pprog A := (prog pconn A).

Definition on_world {A} (m : prog (world St D C) A) : pprog A := fun c =>
  let '(w, r) := m (pc_w c) in (mkPc (pc_rq c) w (pc_out c), r).
Definition on_out {A} (m : io D2 (rfilter D C) -> io D2 (rfilter D C) * res A) : pprog A := fun c =>
  let '(o, r) := m (pc_out c) in (mkPc (pc_rq c) (pc_w c) o, r).

(** What the filter sees through its pointers before it runs, and what it has changed when
    it has run: the identifier of a new session and its cookie. *)
Definition rf_see (rs : response D C) (ss : option session) (rf : rfilter D C) : rfilter D C :=
  let 'mkRf _ _ c d e f g := rf in mkRf rs ss c d e f g.
Definition see (rs : response D C) (ss : option session) (o : io D2 (rfilter D C)) : io D2 (rfilter D C) :=
  set_codecs o (map (fun c => mkCodec (rf_see rs ss (c_state c)) (cbuf c) (ccount c) (coff c)) (io_codecs o)).
Definition seen (o : io D2 (rfilter D C)) (w : world St D C) : world St D C :=
  match io_codecs o with
  | c :: _ => mkWorld (default (w_ss w) (rf_ss (c_state c))) (rf_rs (c_state c)) (w_store w)
  | [] => w
  end.

Definition pc_write (data : list byte) : pprog nat := fun c =>
  let w := pc_w c in
  let '(o, r) := io_write fuel (see (w_rs w) (Some (w_ss w)) (pc_out c)) data in
  (mkPc (pc_rq c) (seen o w) o, r).

Fixpoint run_page (p : page St D C) : pprog unit := fun c =>
  match p with
  | PEnd => (c, Ok tt)
  | PDo f k => let w := f (pc_w c) in run_page (k w) (mkPc (pc_rq c) w (pc_out c))
  | PWrite data k =>
      let '(c', r) := pc_write data c in
      match r with
      | Ok _ => run_page (k true) c'
      | Fail => run_page (k false) c'
      | Fault => (c', Fault)
      | Timeout => (c', Timeout)
      end
  end.

(** The sessions look at the cookies of the request. *)
Definition page_env (rq : request DR CR) : ses_env :=
  mkEnv (so_name env) (so_path env) (so_max_age env) (cookies rq) (rq_addr env) (now env) (now_usec env) (pid env) (rnd env).
Definition with_env {A} (m : ses_env -> prog (world St D C) A) : pprog A := fun c =>
  on_world (m (page_env (pc_rq c).1)) c.

Definition pc_parse : pprog unit := fun c =>
  let '(s, r) := request_parse_data FILENAME_MAX tmpfile_open stat_size fuel n k timer (pc_rq c) in
  (mkPc s (pc_w c) (pc_out c), rc ← r; if decide (rc = 0)%Z then Ok tt else Fail).

(** [response_filter_create] and [io_codec_add_tail] *)
Definition pc_attach : pprog unit := fun c =>
  let w := pc_w c in
  match response_filter_create rf_size (w_rs w) (Some (w_ss w)) with
  | Ok rf => (mkPc (pc_rq c) w (io_codec_add_tail (pc_out c) rf), Ok tt)
  | Fail => (c, Fail)
  | Fault => (c, Fault)
  | Timeout => (c, Timeout)
  end.

Definition pc_feeded (c : pconn) : bool :=
  match last (io_codecs (pc_out c)) with Some k => response_filter_feeded (c_state k) | None => false end.

Definition dypage_serve (fun_ : request DR CR -> page St D C) : pprog unit :=
  pelse pc_parse (pignore (on_out io_flush);;; pfail);;;
  pelse (with_env (session_create FILENAME_MAX)) (pignore (on_out io_flush);;; pfail);;;
  pelse (on_world (on_rs (response_set_content_type (bs "text/html")));;;
         pignore (on_world (on_rs response_disable_caching));;;
         pc_attach)
        (pignore (on_out io_flush);;; with_env (session_free FILENAME_MAX);;; pfail);;;
  let! c := pget in
  run_page (fun_ (pc_rq c).1);;;
  pignore (on_out io_flush);;;
  let! c := pget in
  (if pc_feeded c then pret tt else pignore (pc_write [x0a]));;;
  with_env (session_free FILENAME_MAX).
End dypage_ops.

(** ** Writing through one codec, in general *)

Section one_codec.
Context {L : Libu} {LM : LibuMem L} {D K : Type} {DO : DevOps D} {DK : DevSink D} {CO : CodecOps K}.
Implicit Types i : io D K.

(** A stream with its write buffer in use and one codec. *)
Definition coded i (st : K) (b : list byte) (c o : nat) : Prop :=
  wwf (io_w i) /\ io_codecs i = [mkCodec st b c o].

Lemma write_alloc i (m : nat) : wwf (io_w i) -> room i m ->
  exists j, (if w_alloc (io_w i) then (i, Ok tt) else io_wbuf_alloc i) = (j, Ok tt) /\ wwf (io_w j) /\ w_alloc (io_w j) = true /\
    room j m /\ outstream j = outstream i /\ io_codecs j = io_codecs i.
Proof.
  intros Hw Hr. destruct (w_alloc (io_w i)) eqn:Ha; [by exists i; split_and!|].
  unfold io_wbuf_alloc. rewrite u_alloc_ok. eexists. split; [done|]. unfold wwf in Hw. rewrite Ha in Hw. split_and!; try done.
  - unfold wwf. cbn [set_w io_w w_alloc wbsz wbuf wcount]. rewrite length_replicate, Hw. split_and!; [done|done|lia].
  - unfold outstream. cbn [set_w io_w wbuf wcount io_dev]. by rewrite Hw, !mread_0.
Qed.

(** Bytes that the codec keeps. *)
Lemma io_write_kept (fuel : nat) i (st st' : K) b c o (data : list byte) (m : nat) :
  coded i st b c o -> room i m -> 1 < fuel ->
  (forall cap, 0 < cap -> c_transform st cap data = (st', Some ([], length data))) -> data <> [] ->
  exists i', io_write fuel i data = (i', Ok (length data)) /\ coded i' st' b c o /\ w_alloc (io_w i') = true /\
    room i' m /\ outstream i' = outstream i.
Proof.
  intros [Hw Hc] Hr Hf Ht Hd. unfold io_write. destruct (write_alloc i m Hw Hr) as (j & -> & Wj & Aj & Rj & Oj & Cj). rewrite Hc in Cj.
  destruct fuel as [|[|fuel]]; [lia..|]. destruct data as [|x data]; [done|].
  assert (writable (base j)) as Wb by (by split).
  destruct (flush_if_full_spec (base j) m Wb Aj Rj) as (j1 & E1 & W1 & Hlt & Hbs & R1 & O1 & A1 & _).
  assert (flush_if_full j = (set_codecs j1 [mkCodec st b c o], Ok tt)) as E2.
  { rewrite (set_codecs_base j _ Cj), flush_if_full_codecs, E1. done. }
  destruct (wbuf_put_spec j1 [] m W1 A1 ltac:(cbn; lia) R1) as (W2 & A2 & R2 & O2 & _).
  exists (set_codecs (wbuf_put j1 []) [mkCodec st' b c o]). cbn [write_loop]. rewrite E2. cbn [set_codecs io_w io_codecs].
  rewrite Hbs. unfold io_transfer. cbn [io_transform c_state cbuf ccount coff]. rewrite Ht by lia.
  rewrite !decide_False by (intros [? _]; done). rewrite drop_ge by done. cbn [write_loop].
  split_and!; try done; [split; [apply W2|done]|]. change (outstream (wbuf_put j1 []) = outstream i). rewrite O2, app_nil_r, O1. done.
Qed.

Lemma io_write_nil (fuel : nat) i (st : K) b c o (m : nat) : coded i st b c o -> room i m ->
  exists i', io_write fuel i [] = (i', Ok 0) /\ coded i' st b c o /\ room i' m /\ outstream i' = outstream i /\
    w_alloc (io_w i') = true.
Proof.
  intros [Hw Hc] Hr. unfold io_write. destruct (write_alloc i m Hw Hr) as (j & -> & Wj & Aj & Rj & Oj & Cj).
  exists j. rewrite Hc in Cj. destruct fuel; by split_and!.
Qed.

(** Only the first step of a write looks at the codec as it was. *)
Lemma io_write_first (fuel : nat) i (st st2 : K) b c o (data : list byte) (m : nat) :
  coded i st b c o -> room i m -> 0 < fuel ->
  (forall cap, c_transform st cap data = c_transform st2 cap data) -> data <> [] ->
  io_write fuel i data = io_write fuel (set_codecs i [mkCodec st2 b c o]) data.
Proof.
  intros [Hw Hc] Hr Hf Ht Hd. destruct fuel as [|fuel]; [lia|]. unfold io_write. cbn [set_codecs io_w].
  destruct (write_alloc (base i) m Hw Hr) as (j & Ej & Wj & Aj & Rj & _ & Cj).
  assert (forall s, (if w_alloc (io_w i) then (set_codecs i [mkCodec s b c o], Ok tt) else io_wbuf_alloc (set_codecs i [mkCodec s b c o])) =
    (set_codecs j [mkCodec s b c o], Ok tt)) as Ea.
  { intros s. unfold io_wbuf_alloc in *. cbn [base set_codecs io_w] in *. destruct (w_alloc (io_w i)).
    - by simplify_eq.
    - destruct (u_alloc _); [|done]. injection Ej as <-. done. }
  rewrite (Ea st2), (set_codecs_base i _ Hc). change (set_codecs (base i) [mkCodec st b c o]) with (set_codecs i [mkCodec st b c o]).
  change (w_alloc (io_w (set_codecs i [mkCodec st b c o]))) with (w_alloc (io_w i)). rewrite (Ea st). cbn beta iota.
  assert (writable j) as Wb by (by split). destruct (flush_if_full_spec j m Wb Aj Rj) as (j1 & E1 & _).
  destruct data as [|x data]; [done|]. cbn [write_loop]. rewrite !flush_if_full_codecs, E1. cbn [fst snd set_codecs io_w io_codecs].
  unfold io_transfer. cbn [io_transform c_state cbuf ccount coff]. by rewrite Ht.
Qed.

(** What every transformation keeps of a codec, a write keeps. *)
Lemma io_write_keeps {X} (f : K -> X) (P : K -> Prop) (fuel : nat) i (st : K) b c o (data : list byte) :
  (forall s cap src, P s -> let s' := (c_transform s cap src).1 in f s' = f s /\ P s') ->
  P st -> io_codecs i = [mkCodec st b c o] ->
  exists st' b' c' o', io_codecs (io_write fuel i data).1 = [mkCodec st' b' c' o'] /\ f st' = f st /\ P st'.
Proof.
  intros Hk. assert (forall n j s b c o rem, P s -> io_codecs j = [mkCodec s b c o] ->
    exists st' b' c' o', io_codecs (write_loop fuel n j rem).1 = [mkCodec st' b' c' o'] /\ f st' = f s /\ P st') as G.
  { induction n as [|n IH]; intros j s b0 c0 o0 rem Hs Hj; (destruct rem as [|x rem]; [by eexists _, _, _, _|]); [by eexists _, _, _, _|].
    cbn [write_loop]. rewrite (set_codecs_base j _ Hj), flush_if_full_codecs.
    destruct (flush_if_full (base j)) as [j1 r1]. cbn [fst snd]. destruct r1; try by eexists _, _, _, _.
    cbn [set_codecs io_w io_codecs]. unfold io_transfer. destruct fuel as [|fu]; [by eexists _, _, _, _|].
    cbn [io_transform c_state cbuf ccount coff].
    pose proof (Hk s (wbsz (io_w j1) - wcount (io_w j1)) (x :: rem) Hs) as [E1 E2].
    destruct (c_transform s _ (x :: rem)) as [s' [[out k]|]]; cbn [fst] in E1, E2; [|by eexists _, _, _, _].
    case_decide; [by eexists _, _, _, _|]. rewrite decide_False by done.
    destruct (IH (wbuf_put (set_codecs j1 [mkCodec s' b0 c0 o0]) out) s' b0 c0 o0 (drop k (x :: rem)) E2 eq_refl) as (st' & b' & c' & o' & I1 & I2 & I3).
    exists st', b', c', o'. split_and!; [exact I1|congruence|done]. }
  intros Hst Hi. unfold io_write. destruct (w_alloc (io_w i)).
  - destruct (G fuel i st b c o data Hst Hi) as (st' & b' & c' & o' & H). exists st', b', c', o'. by destruct (write_loop fuel fuel i data).
  - unfold io_wbuf_alloc. destruct (u_alloc _); [|by eexists _, _, _, _].
    set (i1 := set_w i _). destruct (G fuel i1 st b c o data Hst Hi) as (st' & b' & c' & o' & H). exists st', b', c', o'. by destruct (write_loop fuel fuel i1 data).
Qed.

(** A part of the codec's state that flushing ignores. *)
Lemma codecs_remove_map (g : K -> K) (fuel : nat) i (st : K) b c o :
  (forall s cap, c_flush (g s) cap = (g (c_flush s cap).1, (c_flush s cap).2)) ->
  io_codecs_remove fuel (set_codecs i [mkCodec (g st) b c o]) = io_codecs_remove fuel (set_codecs i [mkCodec st b c o]).
Proof.
  intros Hg. assert (forall n j s, exists j' s', io_chain_flush fuel n (set_codecs j [mkCodec s b c o]) = (set_codecs j' [mkCodec s' b c o], (io_chain_flush fuel n (set_codecs j [mkCodec s b c o])).2) /\
    io_chain_flush fuel n (set_codecs j [mkCodec (g s) b c o]) = (set_codecs j' [mkCodec (g s') b c o], (io_chain_flush fuel n (set_codecs j [mkCodec s b c o])).2)) as G.
  { induction n as [|n IH]; intros j s; [by exists j, s|]. cbn [io_chain_flush set_codecs io_codecs].
    destruct fuel as [|fu]; [by exists j, s|]. cbn [io_chain_flush_chunk c_state cbuf ccount coff]. rewrite Hg.
    destruct (c_flush s IO_WR_BUFSZ) as [s' r]. cbn [fst snd]. destruct r as [[[rc data] cnt]|]; cbn [of_option]; [|by exists j, s'].
    destruct rc; [by exists j, s'| ].
    case_decide; [by exists j, s'|]. cbn [set_codecs].
    change (mkIo (io_dev j) ?cs (io_r j) (io_w j) (io_refcnt j) (io_name j) (io_secure j)) with (set_codecs j cs).
    rewrite !put_flushing_codecs. destruct (put_flushing _ j _) as [j1 r1]. cbn [fst snd]. destruct r1; try by exists j1, s'.
    exact (IH j1 s'). }
  unfold io_codecs_remove. cbn [set_codecs io_codecs io_w]. destruct (w_alloc (io_w i)); [|done].
  destruct (G fuel i st) as (j' & s' & E1 & E2). cbn [set_codecs] in E1, E2. rewrite E1, E2. done.
Qed.
End one_codec.

(** ** What a page sends *)

Section page_spec.
Context {L : Libu} {D C St : Type} {SD : SesDriver St}.
Variables (FILENAME_MAX : nat) (env : ses_env).

(** The session, response and store as the page sees them; the text it has written; the
    response whose header is fixed, once 4096 bytes were written; whether it has written. *)
Record pspec := mkPs {
  sp_w : world St D C;
  sp_body : list byte;
  sp_head : option (response D C);
  sp_fed : bool
}.

(** A session gets its identifier, and the response its cookie, at the latest when the header
    is fixed. *)
Definition settle (w : world St D C) : option (world St D C) :=
  if decide (ss_id (w_ss w) = []) then
    match session_prv_set_id FILENAME_MAX env None (mkWorld (w_ss w) (w_rs w) tt) with
    | (w', Ok _) => Some (mkWorld (w_ss w') (w_rs w') (w_store w))
    | _ => None
    end
  else Some w.

Definition spec_write (data : list byte) (s : pspec) : option pspec :=
  if decide (data = []) then Some s else
  if decide (rs_method (w_rs (sp_w s)) = HM_HEAD) then Some (mkPs (sp_w s) (sp_body s) (sp_head s) true) else
  match sp_head s with
  | Some _ => Some (mkPs (sp_w s) (sp_body s ++ data) (sp_head s) true)
  | None =>
      if decide (length (sp_body s) + length data < RFBUFSZ) then Some (mkPs (sp_w s) (sp_body s ++ data) None true)
      else w ← settle (sp_w s); Some (mkPs w (sp_body s ++ data) (Some (w_rs w)) true)
  end.

(** A page whose writes succeed. *)
Fixpoint spec_page (p : page St D C) (s : pspec) : option pspec :=
  match p with
  | PEnd => Some s
  | PDo f k => let w := f (sp_w s) in spec_page (k w) (mkPs w (sp_body s) (sp_head s) (sp_fed s))
  | PWrite data k => s' ← spec_write data s; spec_page (k true) s'
  end.

(** A page that wrote nothing sends a newline; then the session is saved. *)
Definition spec_end (env' : ses_env) (s : pspec) : option pspec :=
  s ← (if sp_fed s then Some s else spec_write [x0a] s);
  match session_free FILENAME_MAX env' (sp_w s) with
  | (w, Ok _) => Some (mkPs w (sp_body s) (sp_head s) (sp_fed s))
  | _ => None
  end.

(** The response whose header is sent, and the text after it. *)
Definition sent_head (s : pspec) : response D C := default (w_rs (sp_w s)) (sp_head s).
Definition sent_body (s : pspec) : list byte :=
  match sp_head s with
  | None => if decide (rs_method (w_rs (sp_w s)) = HM_HEAD) then [] else sp_body s
  | Some _ => sp_body s
  end.

Lemma spec_write_grows (data : list byte) (s s' : pspec) : spec_write data s = Some s' ->
  length (sp_body s) <= length (sp_body s') /\ (forall rs, sp_head s = Some rs -> sp_head s' = Some rs).
Proof.
  unfold spec_write. intros H. repeat case_decide; try by (simplify_eq; cbn; split; [rewrite ?length_app; lia|]).
  all: destruct (sp_head s) eqn:E; try by (simplify_eq; cbn; split; [rewrite ?length_app; lia|]).
  all: destruct (settle (sp_w s)); cbn in H; try done; simplify_eq; cbn; (split; [rewrite ?length_app; lia|done]).
Qed.

Lemma spec_write_fed (data : list byte) (s s' : pspec) : spec_write data s = Some s' -> data <> [] -> sp_fed s' = true.
Proof.
  unfold spec_write. intros H Hd. rewrite decide_False in H by done. case_decide; [by injection H as <-|].
  destruct (sp_head s); [by injection H as <-|]. case_decide; [by injection H as <-|].
  destruct (settle (sp_w s)); [|done]. by injection H as <-.
Qed.

Lemma spec_page_grows (p : page St D C) : forall s s', spec_page p s = Some s' ->
  length (sp_body s) <= length (sp_body s') /\ (forall rs, sp_head s = Some rs -> sp_head s' = Some rs).
Proof.
  induction p as [|f k IH|data k IH]; intros s s' H; cbn [spec_page] in H.
  - by simplify_eq.
  - by apply IH in H.
  - destruct (spec_write data s) as [s1|] eqn:E; [|done]. apply spec_write_grows in E as [E1 E2]. apply IH in H as [H1 H2].
    split; [lia|]. auto.
Qed.

(** The identifier that is given is not empty and nothing but the header changes. *)
Lemma set_id_given (w w' : world unit D C) (u : unit) : session_prv_set_id FILENAME_MAX env None w = (w', Ok u) ->
  ss_id (w_ss w') <> [] /\ rs_method (w_rs w') = rs_method (w_rs w).
Proof.
  intros H. split.
  - unfold session_prv_set_id in H. apply pbind_inv in H as (w1 & [] & _ & H). unfold on_ss in H.
    destruct (session_set_filename FILENAME_MAX env (w_ss w1)) as [ss r] eqn:E. injection H as <- ->. cbn [w_ss].
    unfold session_set_filename in E. apply pbind_inv in E as (ss1 & ? & [= <- <-] & E). case_decide; [done|].
    destruct (u_path_snprintf _ _ _); [|done]. injection E as <-. by destruct (w_ss w1).
  - assert (keeps (fun a b : world unit D C => rs_method (w_rs b) = rs_method (w_rs a)) (session_prv_set_id FILENAME_MAX env None)) as K.
    { assert (PreOrder (fun a b : world unit D C => rs_method (w_rs b) = rs_method (w_rs a))) by (split; [done|intros ??? ? ?; congruence]).
      assert (forall A (m : prog session A), keeps (fun a b : world unit D C => rs_method (w_rs b) = rs_method (w_rs a)) (on_ss m)) as K1
        by (intros A m v; unfold on_ss; by destruct (m (w_ss v))).
      assert (forall nm val, keeps (fun a b : world unit D C => rs_method (w_rs b) = rs_method (w_rs a)) (on_rs (response_set_cookie nm val 0 None None false))) as K2.
      { intros nm val v. unfold on_rs. destruct (response_set_cookie nm val 0 None None false (w_rs v)) as [rs r] eqn:E. cbn.
        unfold response_set_cookie in E. apply (f_equal fst) in E. cbn [fst] in E. subst rs.
        unfold pbind, plift. destruct (cookie_text _ _ _ _ _ _); cbn; try done.
        unfold response_add_field, pbind, plift. destruct (field_create _ _); cbn; try done. by destruct (w_rs v). }
      unfold session_prv_set_id, session_gen_id. keeps_auto. }
    specialize (K w). by rewrite H in K.
Qed.

Lemma settle_given (w w' : world St D C) : settle w = Some w' ->
  ss_id (w_ss w') <> [] /\ rs_method (w_rs w') = rs_method (w_rs w).
Proof.
  unfold settle. case_decide as Hd; [|by intros [= <-]].
  destruct (session_prv_set_id _ _ _ _) as [w1 []] eqn:E; try done. intros [= <-]. by apply set_id_given in E.
Qed.
End page_spec.
Arguments sp_w {D C St} _.
Arguments sp_body {D C St} _.
Arguments sp_head {D C St} _.
Arguments sp_fed {D C St} _.

(** ** The code sends it *)

Section refine.
Context {L : Libu} {LS : LibuSpec L} {LM : LibuMem L} {DR CR D C D2 St T : Type}.
Context {DO2 : DevOps D2} {DK2 : DevSink D2} {SD : SesDriver St}.
Variables (f0 FILENAME_MAX fuel : nat) (env : ses_env).
#[local] Hint Extern 0 (CodecOps (rfilter D C)) => exact (page_filter_ops f0 FILENAME_MAX env) : typeclass_instances.
#[local] Instance page_emitter : Emitter (rfilter D C) := rf_emitter f0 FILENAME_MAX env.
Abbreviation pc := (@pconn DR CR D C D2 St T).
Abbreviation ps := (@pspec D C St).
Implicit Types (rf : rfilter D C) (o : io D2 (rfilter D C)).

Lemma see_coded (rs : response D C) (ss : option session) o rf b c k :
  coded o rf b c k -> coded (see rs ss o) (rf_see rs ss rf) b c k.
Proof. intros [H1 H2]. split; [done|]. unfold see. by rewrite H2. Qed.

(** Once the header is being sent, a write keeps what the filter points to. *)
Lemma flushing_keeps (st : rfilter D C) (cap : nat) (src : list byte) :
  rf_flushing st = true /\ rf_feeded st = true ->
  let st' := (c_transform st cap src).1 in
  (rf_rs st', rf_ss st') = (rf_rs st, rf_ss st) /\ rf_flushing st' = true /\ rf_feeded st' = true.
Proof.
  intros [H1 H2]. destruct st as [rs ss fl fe bf off iob]. cbn in H1, H2. subst fl fe.
  cbn [c_transform page_filter_ops rf_ops]. unfold rf_transform. cbn [set_rf_feeded rf_flushing].
  destruct (is_head _); [done|]. unfold rf_copyout, rf_drain. cbn [rf_iob].
  destruct iob as [i|]; [|done]. destruct (io_read f0 i cap) as [i' [[|x out]| | |]]; done.
Qed.

Lemma write_flushing o (st : rfilter D C) b c k (data : list byte) (m : nat) :
  coded o st b c k -> rf_ok f0 st -> rf_flushing st = true -> rf_feeded st = true -> is_head st = false ->
  room o (length (rf_owed st) + length data + m) -> 2 * length data + length (rf_owed st) < fuel ->
  exists o' st' b' c' k', io_write fuel o data = (o', Ok (length data)) /\ coded o' st' b' c' k' /\ w_alloc (io_w o') = true /\
    rf_ok f0 st' /\ rf_flushing st' = true /\ rf_feeded st' = true /\ (rf_rs st', rf_ss st') = (rf_rs st, rf_ss st) /\
    room o' (length (rf_owed st') + m) /\ outstream o' ++ rf_owed st' = outstream o ++ rf_owed st ++ data /\
    length (rf_owed st') <= length (rf_owed st) + length data.
Proof.
  intros [Hw Hc] Hok Hfl Hfe Hh Hr Hf. assert (passes st = true) as Hp by (cbn; by rewrite Hh).
  assert (em_ok st) as Hem by exact Hok.
  destruct (io_write_emits fuel o st b c k data m Hw Hc Hem) as (o' & st' & E & (W' & A' & (b' & c' & k' & C') & K') & _ & R' & O' & _ & _ & Hl); [by rewrite Hp|done|].
  destruct (io_write_keeps (fun s => (rf_rs s, rf_ss s)) (fun s => rf_flushing s = true /\ rf_feeded s = true) fuel o st b c k data flushing_keeps
    (conj Hfl Hfe) Hc) as (st2 & b2 & c2 & k2 & E2 & F2 & P2 & Q2). rewrite E in E2. cbn [fst] in E2. rewrite C' in E2. simplify_eq.
  rewrite Hp in O'. exists o', st2, b2, c2, k2. split_and!; try done; congruence.
Qed.

(** The write that fixes the header: as if the header had been fixed before. *)
Lemma transform_fixed rf (w w2 : world St D C) (st2 : rfilter D C) (data : list byte) (cap : nat) :
  settle FILENAME_MAX env w = Some w2 -> rf_flushing rf = false -> rs_method (w_rs w) <> HM_HEAD ->
  RFBUFSZ <= rf_off rf + length data ->
  rf_init_iob f0 (set_rf_flushing (set_rf_feeded (rf_see (w_rs w2) (Some (w_ss w2)) rf))) = (st2, Ok tt) ->
  c_transform (rf_see (w_rs w) (Some (w_ss w)) rf) cap data = c_transform st2 cap data.
Proof.
  intros Hs Hfl Hm Hb Hi. pose proof (settle_given FILENAME_MAX env w w2 Hs) as [_ Hm2].
  assert (is_head st2 = false /\ rf_flushing st2 = true /\ rf_feeded st2 = true) as (K1 & K2 & K3).
  { unfold rf_init_iob in Hi. destruct rf as [rs ss fl fe bf off iob]. cbn [rf_see set_rf_feeded set_rf_flushing rf_rs rf_off] in Hi.
    destruct (response_get_max_header_size (w_rs w2)); try done. destruct (u_alloc _); [|done]. destruct (rf_fill _ _ _) as [iob' []]; try done.
    injection Hi as <-. cbn [set_rf_iob rf_flushing rf_feeded]. split; [|done]. unfold is_head. cbn [set_rf_iob rf_rs]. rewrite Hm2. by destruct (rs_method (w_rs w)). }
  cbn [c_transform page_filter_ops rf_ops]. f_equal. unfold rf_transform at 2. assert (set_rf_feeded st2 = st2) as -> by (destruct st2; cbn in *; by subst).
  rewrite K1, K2. unfold rf_transform. destruct rf as [rs ss fl fe bf off iob]. cbn [rf_see set_rf_feeded set_rf_flushing rf_flushing rf_off] in *. subst fl.
  assert (is_head (mkRf (w_rs w) (Some (w_ss w)) false true bf off iob) = false) as -> by (unfold is_head; cbn [rf_rs]; by destruct (rs_method (w_rs w))).
  rewrite decide_False by lia. unfold rf_session, settle in *. cbn [rf_ss rf_rs rf_flushing rf_feeded rf_buf rf_off rf_iob].
  destruct (decide (ss_id (w_ss w) = [])); [|injection Hs as ->; by rewrite Hi].
  destruct (session_prv_set_id FILENAME_MAX env None _) as [w1 []]; try done. injection Hs as <-. cbn [w_ss w_rs] in Hi. by rewrite Hi.
Qed.

(** The filter and the stream while a page runs: before the header is fixed they hold the
    text and nothing has been sent; afterwards what was sent and what the filter still owes
    are the header and the text.  [H] and [B] bound the header and the text. *)
Variables (H B : nat) (O0 : list byte).

Definition page_inv (s : ps) (c : pc) : Prop :=
  pc_w c = sp_w s /\ exists rf b k j, coded (pc_out c) rf b k j /\ (sp_fed s = true -> w_alloc (io_w (pc_out c)) = true) /\
    rf_feeded rf = sp_fed s /\
    match sp_head s with
    | None => rf_flushing rf = false /\ rf_iob rf = None /\ length (rf_buf rf) = RFBUFSZ /\ rf_off rf = length (sp_body s) /\
        length (sp_body s) < RFBUFSZ /\ take (rf_off rf) (rf_buf rf) = sp_body s /\
        outstream (pc_out c) = O0 /\ room (pc_out c) (H + B)
    | Some hd => rf_ok f0 rf /\ rf_flushing rf = true /\ sp_fed s = true /\
        outstream (pc_out c) ++ rf_owed rf = O0 ++ header_text hd ++ sp_body s /\ length (rf_owed rf) <= H + length (sp_body s) /\
        room (pc_out c) (length (rf_owed rf) + (H - length (header_text hd) + (B - length (sp_body s))))
    end.

(** Bytes that stay in the filter, in a HEAD request or before the header is fixed. *)
Lemma write_kept (c : pc) rf b k j (rf' : rfilter D C) (data : list byte) (m : nat) :
  let w := pc_w c in let rf1 := rf_see (w_rs w) (Some (w_ss w)) rf in
  coded (pc_out c) rf b k j -> room (pc_out c) m -> 1 < fuel -> data <> [] ->
  (forall cap, 0 < cap -> c_transform rf1 cap data = (rf', Some ([], length data))) -> (rf_rs rf', rf_ss rf') = (w_rs w, Some (w_ss w)) ->
  exists o', pc_write f0 FILENAME_MAX fuel env data c = (mkPc (pc_rq c) w o', Ok (length data)) /\ coded o' rf' b k j /\
    w_alloc (io_w o') = true /\ room o' m /\ outstream o' = outstream (pc_out c).
Proof.
  intros w rf1 Hc Hr Hf Hd Ht Hrs. apply (see_coded (w_rs w) (Some (w_ss w))) in Hc. fold rf1 in Hc.
  destruct (io_write_kept fuel _ rf1 rf' b k j data m Hc Hr Hf Ht Hd) as (o' & E & C' & A' & R' & O').
  exists o'. unfold pc_write. fold w. rewrite E. unfold seen. rewrite (proj2 C'). cbn [c_state].
  injection Hrs as -> ->. cbn [default from_option id]. split_and!; try done; by destruct w.
Qed.

(** The filter with other pointers, and fed or not. *)
Definition rf_quiet (rs : response D C) (ss : option session) (fe : bool) rf : rfilter D C :=
  let 'mkRf _ _ c _ e f g := rf in mkRf rs ss c fe e f g.

(** A write that leaves the text as it is keeps the invariant. *)
Lemma inv_quiet (s : ps) (c : pc) : page_inv s c ->
  pc_w c = sp_w s /\ exists rf b k j m, coded (pc_out c) rf b k j /\ room (pc_out c) m /\ rf_feeded rf = sp_fed s /\
    forall o' rs ss fe, coded o' (rf_quiet rs ss fe rf) b k j -> outstream o' = outstream (pc_out c) -> room o' m -> w_alloc (io_w o') = true ->
      (sp_fed s = true -> fe = true) -> page_inv (mkPs (pc_w c) (sp_body s) (sp_head s) fe) (mkPc (pc_rq c) (pc_w c) o').
Proof.
  intros (Hw & rf & b & k & j & Hc & Ha & Hfe & Hinv). split; [done|].
  exists rf, b, k, j, (match sp_head s with None => H + B | Some hd => length (rf_owed rf) + (H - length (header_text hd) + (B - length (sp_body s))) end).
  split_and!; [done|destruct (sp_head s); apply Hinv|done|]. intros o' rs ss fe C' O' R' A' Hfd. split; [done|].
  exists (rf_quiet rs ss fe rf), b, k, j. cbn [pc_out sp_fed sp_head sp_body]. split_and!; try done; [by destruct rf|].
  rewrite O'. destruct (sp_head s) as [hd|] eqn:Eh.
  - destruct Hinv as (K1 & K2 & K3 & K4 & K5 & K6). destruct rf as [rs0 ss0 fl fe0 bf off iob]. cbn in K2. subst fl. destruct K1. split_and!; auto. by split.
  - destruct Hinv as (K1 & K2 & K3 & K4 & K5 & K6 & K7 & K8). destruct rf. by split_and!.
Qed.

(** The write that fixes the header. *)
Lemma write_fixing (s : ps) (c : pc) (w2 : world St D C) (data : list byte) :
  page_inv s c -> sp_head s = None -> rs_method (w_rs (pc_w c)) <> HM_HEAD -> RFBUFSZ <= length (sp_body s) + length data -> data <> [] ->
  settle FILENAME_MAX env (pc_w c) = Some w2 -> length (sp_body s) + length data <= B ->
  rs_fit f0 (w_rs w2) -> length (header_text (w_rs w2)) <= H -> 3 * B + H + 1 < fuel -> 0 < f0 ->
  exists c', pc_write f0 FILENAME_MAX fuel env data c = (c', Ok (length data)) /\ pc_rq c' = pc_rq c /\
    page_inv (mkPs w2 (sp_body s ++ data) (Some (w_rs w2)) true) c'.
Proof.
  intros (Hw & rf & b & k & j & Hc & Ha & Hfe & Hinv) Eh Hm Hbig Hd Es HB Hf1 Hf2 Hf H0. rewrite Eh in Hinv. set (w := pc_w c) in *.
  destruct Hinv as (K1 & K2 & K3 & K4 & K5 & K6 & K7 & K8).
  destruct (settle_given FILENAME_MAX env w w2 Es) as [G1 G2].
  set (rf2 := set_rf_flushing (set_rf_feeded (rf_see (w_rs w2) (Some (w_ss w2)) rf))).
  assert (rf_ok f0 rf2 /\ rf_rs rf2 = w_rs w2 /\ rf_text rf2 = header_text (w_rs w2) ++ sp_body s) as (J1 & J2 & J3).
  { unfold rf2. destruct rf as [rs0 ss0 fl fe bf off iob]. cbn in *. split_and!; try done.
    - split; cbn; try done; [lia|]. intros i Hi. congruence.
    - unfold rf_text, is_head. cbn. rewrite G2, K6. by destruct (rs_method (w_rs w)). }
  destruct (rf_init_spec f0 rf2 J1 ltac:(by rewrite J2)) as (i & Ei & Ri & Ii). set (st2 := set_rf_iob rf2 (Some i)) in *.
  assert (rf_ok f0 st2 /\ rf_flushing st2 = true /\ rf_feeded st2 = true /\ rf_owed st2 = header_text (w_rs w2) ++ sp_body s /\ is_head st2 = false /\
    (rf_rs st2, rf_ss st2) = (w_rs w2, Some (w_ss w2))) as (I1 & I2 & I3 & I4 & I5 & I6).
  { split; [apply rf_iob_ok; [done|by intros ? [= <-]]|]. rewrite <- J3, <- Ii. unfold st2, rf2. destruct rf as [rs0 ss0 fl fe bf off iob]. cbn. split_and!; try done.
    unfold is_head. cbn. rewrite G2. by destruct (rs_method (w_rs w)). }
  pose proof (see_coded (w_rs w) (Some (w_ss w)) _ rf b k j Hc) as Hc1.
  pose proof (io_write_first fuel _ _ st2 b k j data (H + B) Hc1 K8 ltac:(lia)
    (fun cap => transform_fixed rf w w2 st2 data cap Es K1 Hm ltac:(lia) Ei) Hd) as Ew.
  destruct (write_flushing (set_codecs (see (w_rs w) (Some (w_ss w)) (pc_out c)) [mkCodec st2 b k j]) st2 b k j data
    (H - length (header_text (w_rs w2)) + (B - (length (sp_body s) + length data))))
    as (o' & st' & b' & c' & k' & E & C' & A' & Ok' & F1 & F2 & F3 & R' & O' & Hl); try done; [split; [apply Hc1|done]|..].
  { rewrite I4, length_app. eapply eq_ind; [exact K8|]. lia. } { rewrite I4, length_app. lia. }
  exists (mkPc (pc_rq c) w2 o'). unfold pc_write. fold w. rewrite Ew, E. split_and!; [|done|].
  - unfold seen. rewrite (proj2 C'). cbn [c_state]. rewrite I6 in F3. injection F3 as -> ->. cbn [default from_option id].
    do 2 f_equal. unfold settle in Es. case_decide; [destruct (session_prv_set_id _ _ _ _) as [w1 []]; try done; by injection Es as <-|injection Es as <-; by destruct w].
  - split; [done|]. exists st', b', c', k'. cbn [pc_out sp_fed sp_head sp_body]. rewrite length_app. rewrite I4, length_app in Hl. split_and!; try done; [|lia].
    rewrite O', I4. change (outstream (set_codecs _ _)) with (outstream (pc_out c)). rewrite K7. by rewrite <- !app_assoc.
Qed.

(** A write after the header was fixed. *)
Lemma write_sent (s : ps) (c : pc) (hd : response D C) (data : list byte) :
  page_inv s c -> sp_head s = Some hd -> rs_method (w_rs (pc_w c)) <> HM_HEAD -> length (sp_body s) + length data <= B ->
  length (header_text hd) <= H -> 3 * B + H + 1 < fuel ->
  exists c', pc_write f0 FILENAME_MAX fuel env data c = (c', Ok (length data)) /\ pc_rq c' = pc_rq c /\
    page_inv (mkPs (pc_w c) (sp_body s ++ data) (Some hd) true) c'.
Proof.
  intros (Hw & rf & b & k & j & Hc & Ha & Hfe & Hinv) Eh Hm HB HH Hf. rewrite Eh in Hinv. set (w := pc_w c) in *.
  destruct Hinv as (K1 & K2 & K3 & K4 & K5 & K6). rewrite K3 in Hfe. set (rf1 := rf_see (w_rs w) (Some (w_ss w)) rf).
  assert (rf_ok f0 rf1 /\ rf_flushing rf1 = true /\ rf_feeded rf1 = true /\ rf_owed rf1 = rf_owed rf /\ is_head rf1 = false /\ (rf_rs rf1, rf_ss rf1) = (w_rs w, Some (w_ss w)))
    as (J1 & J2 & J3 & J4 & J5 & J6).
  { unfold rf1. destruct rf as [rs0 ss0 fl fe bf off iob]. cbn in K2, Hfe. subst fl fe. destruct K1. split_and!; try done.
    unfold is_head. cbn. by destruct (rs_method (w_rs w)). }
  destruct (write_flushing (see (w_rs w) (Some (w_ss w)) (pc_out c)) rf1 b k j data (H - length (header_text hd) + (B - (length (sp_body s) + length data))))
    as (o' & st' & b' & c' & k' & E & C' & A' & Ok' & F1 & F2 & F3 & R' & O' & Hl); try done; [by apply see_coded|..].
  { rewrite J4. eapply eq_ind; [exact K6|]. lia. } { rewrite J4. lia. }
  exists (mkPc (pc_rq c) w o'). unfold pc_write. fold w. rewrite E. split_and!; [|done|].
  - unfold seen. rewrite (proj2 C'). cbn [c_state]. rewrite J6 in F3. injection F3 as -> ->. by destruct w.
  - split; [done|]. exists st', b', c', k'. cbn [pc_out sp_fed sp_head sp_body]. rewrite length_app. rewrite J4 in Hl. split_and!; try done; [|lia].
    rewrite O', J4. change (outstream (see (w_rs w) (Some (w_ss w)) (pc_out c))) with (outstream (pc_out c)).
    rewrite app_assoc, K4. by rewrite <- !app_assoc.
Qed.

(** A write into the buffer of the filter. *)
Lemma page_write_buffered (s : ps) (c : pc) (data : list byte) :
  page_inv s c -> sp_head s = None -> rs_method (w_rs (pc_w c)) <> HM_HEAD -> length (sp_body s) + length data < RFBUFSZ -> data <> [] -> 1 < fuel ->
  exists c', pc_write f0 FILENAME_MAX fuel env data c = (c', Ok (length data)) /\ pc_rq c' = pc_rq c /\
    page_inv (mkPs (pc_w c) (sp_body s ++ data) None true) c'.
Proof.
  intros (Hw & rf & b & k & j & Hc & Ha & Hfe & Hinv) Eh Hm Hsmall Hd Hf. rewrite Eh in Hinv. set (w := pc_w c) in *.
  destruct Hinv as (K1 & K2 & K3 & K4 & K5 & K6 & K7 & K8).
  set (rf' := mkRf (w_rs w) (Some (w_ss w)) false true (mwrite (rf_buf rf) (rf_off rf) data) (rf_off rf + length data) None).
  destruct (write_kept c rf b k j rf' data (H + B) Hc K8) as (o' & E & C' & A' & R' & O'); [lia|done| |done|].
  { intros cap _. cbn [c_transform page_filter_ops rf_ops]. unfold rf_transform, is_head. destruct rf as [rs0 ss0 fl fe bf off iob]. cbn in *.
    fold w. destruct (rs_method (w_rs w)); [|..]; try done; subst fl; rewrite decide_True by lia; unfold rf'; cbn; by rewrite K2. }
  exists (mkPc (pc_rq c) w o'). split_and!; [done|done|]. split; [done|]. exists rf', b, k, j. cbn [pc_out sp_fed sp_head sp_body rf' rf_feeded rf_flushing rf_iob rf_buf rf_off].
  split_and!; try done; try congruence; [by rewrite length_mwrite by lia|rewrite length_app; lia|rewrite length_app; lia|].
  rewrite take_mwrite by lia. by rewrite K6.
Qed.

Lemma write_refines (s s' : ps) (c : pc) (data : list byte) :
  page_inv s c -> spec_write FILENAME_MAX env data s = Some s' -> length (sp_body s') <= B ->
  (forall rs, sp_head s' = Some rs -> rs_fit f0 rs /\ length (header_text rs) <= H) -> 3 * B + H + 1 < fuel -> 0 < f0 ->
  exists c', pc_write f0 FILENAME_MAX fuel env data c = (c', Ok (length data)) /\ pc_rq c' = pc_rq c /\ page_inv s' c'.
Proof.
  intros Hinv Hs HB Hfit Hf H0. destruct (inv_quiet s c Hinv) as (Hw & rf & b & k & j & m0 & Hc & Hm0 & Hfe & Hq). unfold spec_write in Hs.
  rewrite <- Hw in Hs. destruct (decide (data = [])) as [->|Hd].
  { injection Hs as <-. set (w := pc_w c) in *.
    destruct (io_write_nil fuel _ _ b k j m0 (see_coded (w_rs w) (Some (w_ss w)) _ rf b k j Hc) Hm0) as (o' & E & C' & R' & O' & A').
    exists (mkPc (pc_rq c) w o'). unfold pc_write. fold w. rewrite E. split_and!; [|done|].
    - unfold seen. rewrite (proj2 C'). cbn [c_state]. destruct w, rf. done.
    - destruct s as [w0 bd hd fe]. cbn in Hw. rewrite <- Hw. apply (Hq o' (w_rs w) (Some (w_ss w)) fe); try done. cbn in Hfe. destruct rf. cbn in *. by subst. }
  assert (0 < length data) as Hpos by (destruct data; [done|cbn; lia]). destruct (decide (rs_method (w_rs (pc_w c)) = HM_HEAD)) as [Hm|Hm].
  { injection Hs as <-. set (w := pc_w c) in *.
    destruct (write_kept c rf b k j (rf_quiet (w_rs w) (Some (w_ss w)) true rf) data m0 Hc Hm0) as (o' & E & C' & A' & R' & O'); [lia|done| |by destruct rf|].
    { intros cap _. cbn [c_transform page_filter_ops rf_ops]. unfold rf_transform, is_head. destruct rf. cbn. fold w. by rewrite Hm. }
    exists (mkPc (pc_rq c) w o'). split_and!; [done|done|]. by apply (Hq o' (w_rs w) (Some (w_ss w)) true). }
  destruct (sp_head s) as [hd|] eqn:Eh.
  { injection Hs as <-. cbn [sp_body sp_head] in *. rewrite length_app in HB. apply (write_sent s c hd); try done. by apply Hfit. }
  case_decide as Hsmall.
  { injection Hs as <-. apply page_write_buffered; try done. lia. }
  destruct (settle FILENAME_MAX env (pc_w c)) as [w2|] eqn:Es; [|done]. injection Hs as <-. cbn [sp_body sp_head] in *. rewrite length_app in HB.
  destruct (Hfit _ eq_refl) as [Hf1 Hf2]. apply (write_fixing s c w2); try done. lia.
Qed.

Lemma run_refines (p : page St D C) : forall (s s' : ps) (c : pc),
  page_inv s c -> spec_page FILENAME_MAX env p s = Some s' -> length (sp_body s') <= B ->
  (forall rs, sp_head s' = Some rs -> rs_fit f0 rs /\ length (header_text rs) <= H) -> 3 * B + H + 1 < fuel -> 0 < f0 ->
  exists c', run_page f0 FILENAME_MAX fuel env p c = (c', Ok tt) /\ pc_rq c' = pc_rq c /\ page_inv s' c'.
Proof.
  induction p as [|f k IH|data k IH]; intros s s' c Hi Hs HB Hfit Hf H0; cbn [spec_page run_page] in *.
  - injection Hs as <-. by exists c.
  - destruct Hi as (Hw & rest). rewrite Hw. by apply (IH (f (sp_w s)) _ s' (mkPc (pc_rq c) (f (sp_w s)) (pc_out c))) in Hs.
  - destruct (spec_write FILENAME_MAX env data s) as [s1|] eqn:E1; [|done]. cbn in Hs.
    destruct (spec_page_grows FILENAME_MAX env (k true) s1 s' Hs) as [G1 G2].
    destruct (write_refines s s1 c data Hi E1 ltac:(lia)) as (c1 & -> & Q1 & Hi1); [by intros rs Hrs; apply Hfit, G2|done|done|].
    destruct (IH true s1 s' c1 Hi1 Hs HB Hfit Hf H0) as (c2 & E2 & Q2 & Hi2). exists c2. by rewrite Q2.
Qed.

Lemma flush_refines (s : ps) (c : pc) : page_inv s c ->
  exists o', io_flush (pc_out c) = (o', Ok tt) /\ page_inv s (mkPc (pc_rq c) (pc_w c) o').
Proof.
  intros (Hw & rf & b & k & j & [Hc1 Hc2] & Ha & Hfe & Hinv).
  set (m := match sp_head s with None => H + B | Some hd => length (rf_owed rf) + (H - length (header_text hd) + (B - length (sp_body s))) end).
  assert (room (base (pc_out c)) m) as Hm by (unfold m; destruct (sp_head s); apply Hinv).
  destruct (io_flush_spec (base (pc_out c)) m (conj Hc1 eq_refl) Hm) as (o1 & E1 & W1 & _ & R1 & O1 & A1 & _).
  exists (set_codecs o1 [mkCodec rf b k j]). split.
  - rewrite (set_codecs_base (pc_out c) _ Hc2). unfold io_flush in *. cbn [base set_codecs io_w] in *. rewrite flush_loop_codecs.
    change (set_codecs (base (pc_out c)) []) with (base (pc_out c)) in *. by rewrite E1.
  - split; [done|]. exists rf, b, k, j. split_and!; [split; [apply W1|done]| |done|].
    + intros Hfd. change (w_alloc (io_w o1) = true). rewrite A1. by apply Ha.
    + unfold m in *. cbn [pc_out]. change (outstream (set_codecs o1 _)) with (outstream o1). rewrite O1. change (outstream (base (pc_out c))) with (outstream (pc_out c)).
      destruct (sp_head s); destruct_and! Hinv; by split_and!.
Qed.

(** Flushing does not look at the session. *)
Lemma flush_no_session (ss : option session) (st : rfilter D C) (cap : nat) :
  let g s := rf_see (rf_rs s) ss s in c_flush (g st) cap = (g (c_flush st cap).1, (c_flush st cap).2).
Proof.
  cbn [c_flush page_filter_ops rf_ops]. destruct st as [rs ss0 fl fe bf off iob]. unfold rf_flush. cbn [rf_see rf_rs rf_flushing set_rf_flushing].
  assert (forall fl iob, rf_drain f0 (mkRf rs ss fl fe bf off iob) cap =
    ((rf_see rs ss (rf_drain f0 (mkRf rs ss0 fl fe bf off iob) cap).1), (rf_drain f0 (mkRf rs ss0 fl fe bf off iob) cap).2) /\
    rf_rs (rf_drain f0 (mkRf rs ss0 fl fe bf off iob) cap).1 = rs) as G.
  { intros fl1 iob1. unfold rf_drain. cbn [rf_iob]. destruct iob1 as [i|]; [|done]. by destruct (io_read f0 i cap) as [i' [[|x out]| | |]]. }
  destruct fl.
  - destruct (G true iob) as [-> G2]. destruct (rf_drain f0 _ cap) as [rf2 r]. cbn [fst snd] in *. by rewrite G2.
  - unfold rf_init_iob. cbn [rf_rs rf_off]. destruct (response_get_max_header_size rs) as [hs| | |]; try done. destruct (u_alloc _); [|done].
    change (rf_fill f0 (mkRf rs ss true fe bf off iob)) with (rf_fill f0 (mkRf rs ss0 true fe bf off iob)).
    destruct (rf_fill f0 _ _) as [iob' [ht| | |]]; try done. cbn [set_rf_iob].
    destruct (G true (Some (io_mem_create (io_mem_get_buf iob') ht true))) as [-> G2]. destruct (rf_drain f0 _ cap) as [rf2 r]. cbn [fst snd] in *. by rewrite G2.
Qed.

(** When the stream is released the client has the header and the text. *)
Lemma finish_refines (s : ps) (c : pc) (ss : option session) :
  page_inv s c -> sp_fed s = true -> rs_fit f0 (sent_head s) -> length (header_text (sent_head s)) <= H -> length (sp_body s) <= B ->
  H + B < fuel -> IO_WR_BUFSZ <= fuel -> 0 < f0 ->
  exists o, io_codecs_remove fuel (see (w_rs (pc_w c)) ss (pc_out c)) = (o, Ok tt) /\ writable o /\
    outstream o = O0 ++ header_text (sent_head s) ++ sent_body s.
Proof.
  intros (Hw & rf & b & k & j & [Hc1 Hc2] & Ha & Hfe & Hinv) Hfd Hfit HH HB Hf Hfw H0. unfold see. rewrite Hc2. cbn [map c_state cbuf ccount coff].
  set (rf1 := rf_see (w_rs (pc_w c)) None rf).
  assert (rf_see (w_rs (pc_w c)) ss rf = rf_see (rf_rs rf1) ss rf1) as -> by (unfold rf1; by destruct rf).
  rewrite (codecs_remove_map (fun s => rf_see (rf_rs s) ss s) fuel (pc_out c) rf1 b k j (flush_no_session ss)).
  assert (rf_ok f0 rf1 /\ rf_owed rf1 = (match sp_head s with None => header_text (sent_head s) ++ sent_body s | Some _ => rf_owed rf end)) as [J1 J2].
  { unfold rf1, sent_head, sent_body, rf_owed in *. destruct (sp_head s) as [hd|]; cbn [default from_option id] in *.
    - destruct Hinv as (K1 & K2 & _). destruct rf as [rs0 ss0 fl fe bf off iob]. cbn in K2. subst fl. destruct K1. split; [by split|done].
    - destruct Hinv as (K1 & K2 & K3 & K4 & K5 & K6 & _). destruct rf as [rs0 ss0 fl fe bf off iob]. cbn in *. subst fl iob. split.
      + split; cbn; try done; [lia|by rewrite Hw].
      + unfold rf_text, is_head. cbn. rewrite Hw. f_equal. by destruct (rs_method (w_rs (sp_w s))). }
  assert (emitting (set_codecs (pc_out c) [mkCodec rf1 b k j]) rf1) as Hem by (split_and!; [done|by apply Ha|by eexists _, _, _|exact J1]).
  assert (length (sent_body s) <= length (sp_body s)) as Hsb by (unfold sent_body; destruct (sp_head s); [|case_decide]; cbn; lia).
  assert (exists m, room (pc_out c) (length (rf_owed rf1) + m)) as [m Hm].
  { rewrite J2. destruct (sp_head s) as [hd|] eqn:Eh.
    - destruct Hinv as (_ & _ & _ & _ & _ & K6). by eexists.
    - destruct Hinv as (_ & _ & _ & _ & _ & _ & _ & K8). exists (H - length (header_text (sent_head s)) + (B - length (sent_body s))).
      rewrite length_app. eapply eq_ind; [exact K8|]. lia. }
  assert (length (rf_owed rf1) <= H + B) as Hlen.
  { rewrite J2. destruct (sp_head s) as [hd|] eqn:Eh; [destruct Hinv as (_ & _ & _ & _ & K5 & _)|rewrite length_app]; lia. }
  destruct (codecs_remove_emits fuel _ rf1 m Hem Hfw ltac:(change (owed rf1) with (rf_owed rf1); lia) Hm) as (o & E & W & _ & O & _).
  exists o. split_and!; [done|done..|]. rewrite O. change (outstream (set_codecs (pc_out c) _)) with (outstream (pc_out c)). change (owed rf1) with (rf_owed rf1). rewrite J2.
  unfold sent_head, sent_body in *. destruct (sp_head s) as [hd|]; cbn [default from_option id] in *.
  - by destruct Hinv as (_ & _ & _ & K4 & _).
  - by destruct Hinv as (_ & _ & _ & _ & _ & _ & -> & _).
Qed.

End refine.

(** ** A page is served *)

Section serve_page.
Context {L : Libu} {LS : LibuSpec L} {LM : LibuMem L} {DR CR D C D2 St T Ct : Type} {DOR : DevOps DR} {COR : CodecOps CR}.
Context {DO2 : DevOps D2} {DK2 : DevSink D2} {SD : SesDriver St} {DOT : DevOps T} {COT : CodecOps Ct}.
Variables (f0 FILENAME_MAX rf_size fuel n k : nat) (env : ses_env) (timer : bool).
Variable tmpfile_open : nat -> option (io T Ct).
Variable stat_size : list byte -> option nat.
#[local] Hint Extern 0 (CodecOps (rfilter D C)) => exact (page_filter_ops f0 FILENAME_MAX env) : typeclass_instances.
Abbreviation pc := (@pconn DR CR D C D2 St T).

(** What the page finds: a response that is not cached, of type text/html. *)
Definition page_start (w : world St D C) : world St D C :=
  let rs := (response_set_content_type (bs "text/html") (w_rs w)).1 in
  mkWorld (w_ss w) (response_disable_caching rs).1 (w_store w).

Lemma set_field_Ok (rs : response D C) (nm v : list byte) : header_ok (rs_header rs) ->
  exists h, response_set_field nm v rs = (set_rs_header rs h, Ok tt) /\ header_ok h.
Proof.
  intros Hh. unfold response_set_field. destruct (header_set_field_vals (rs_header rs) nm v [] Hh) as (h & -> & Hok & _). by exists h.
Qed.

Lemma start_Ok (w : world St D C) : header_ok (rs_header (w_rs w)) ->
  response_set_content_type (bs "text/html") (w_rs w) = ((response_set_content_type (bs "text/html") (w_rs w)).1, Ok tt) /\
  response_disable_caching (response_set_content_type (bs "text/html") (w_rs w)).1 =
    ((response_disable_caching (response_set_content_type (bs "text/html") (w_rs w)).1).1, Ok tt).
Proof.
  intros Hh. unfold response_set_content_type. destruct (set_field_Ok (w_rs w) (bs "Content-Type") (bs "text/html") Hh) as (h0 & -> & H0). cbn [fst]. split; [done|].
  unfold response_disable_caching.
  destruct (set_field_Ok (set_rs_header (w_rs w) h0) (bs "Cache-Control") (bs "no-cache, must-revalidate") ltac:(by destruct (w_rs w))) as (h1 & E1 & H1).
  destruct (set_field_Ok (set_rs_header (set_rs_header (w_rs w) h0) h1) (bs "Expires") (bs "Mon, 1 Jan 1990 05:00:00 GMT") ltac:(by destruct (w_rs w))) as (h2 & E2 & H2).
  destruct (set_field_Ok (set_rs_header (set_rs_header (set_rs_header (w_rs w) h0) h1) h2) (bs "Pragma") (bs "no-cache") ltac:(by destruct (w_rs w))) as (h3 & E3 & H3).
  rewrite (pbind_Ok _ _ _ _ _ E1), (pbind_Ok _ _ _ _ _ E2). by rewrite E3.
Qed.

(** From the call of the page to the release of the session. *)
Lemma page_runs (H B : nat) (O0 : list byte) (p : page St D C) (s s1 s2 : @pspec D C St) (c : pc) :
  page_inv f0 H B O0 s c -> spec_page FILENAME_MAX env p s = Some s1 ->
  (if sp_fed s1 then Some s1 else spec_write FILENAME_MAX env [x0a] s1) = Some s2 -> length (sp_body s2) <= B ->
  (forall rs, sp_head s2 = Some rs -> rs_fit f0 rs /\ length (header_text rs) <= H) -> 3 * B + H + 1 < fuel -> 0 < f0 ->
  exists c2 c3 c4, run_page f0 FILENAME_MAX fuel env p c = (c2, Ok tt) /\ pignore (on_out io_flush) c2 = (c3, Ok tt) /\
    (if pc_feeded c3 then pret tt else pignore (pc_write f0 FILENAME_MAX fuel env [x0a])) c3 = (c4, Ok tt) /\
    pc_rq c4 = pc_rq c /\ page_inv f0 H B O0 s2 c4 /\ sp_fed s2 = true.
Proof.
  intros Hi Hp Hnl HB Hfit Hf H0.
  assert (length (sp_body s1) <= B /\ (forall rs, sp_head s1 = Some rs -> sp_head s2 = Some rs)) as [G1 G2].
  { destruct (sp_fed s1); [by injection Hnl as <-|]. apply spec_write_grows in Hnl as [? ?]. split; [lia|done]. }
  destruct (run_refines f0 FILENAME_MAX fuel env H B O0 p s s1 c Hi Hp G1) as (c2 & E3 & Q3 & Hi2); [by intros rs Hrs; apply Hfit, G2|done|done|].
  destruct (flush_refines f0 H B O0 s1 c2 Hi2) as (o3 & E4 & Hi3). set (c3 := mkPc (pc_rq c2) (pc_w c2) o3) in *.
  assert (pc_feeded c3 = sp_fed s1) as Efed.
  { destruct Hi3 as (_ & rf3 & b3 & k3 & j3 & [_ Hc3] & _ & Hfe3 & _). unfold pc_feeded. by rewrite Hc3. }
  assert (pignore (on_out io_flush) c2 = (c3, Ok tt)) as Efl by (unfold pignore, on_out; by rewrite E4).
  destruct (sp_fed s1) eqn:Ef1.
  { injection Hnl as <-. exists c2, c3, c3. rewrite Efed. by split_and!. }
  destruct (write_refines f0 FILENAME_MAX fuel env H B O0 s1 s2 c3 [x0a] Hi3 Hnl) as (c4 & E & Q & I); try done.
  exists c2, c3, c4. rewrite Efed. unfold pignore at 2. rewrite E. split_and!; try done; [rewrite Q; exact Q3|].
  by apply spec_write_fed in Hnl.
Qed.

(** C5: a dynamic page is served as its code says.  The code of a page is any sequence of
    writes and of changes of its session and of the response.  The client receives the
    header of the response and then everything that was written, or a newline if nothing
    was, and to a HEAD request the header alone.  The header is the one the response has
    when the session has been saved at the end, so that a page can set fields, the status
    and its session, and a new session its cookie, after it has written; unless 4096 bytes or
    more are written: then it is the one the response has at the write that reaches them,
    the session has got its identifier before, and later changes are not sent. *)
Theorem dypage_output (fun_ : request DR CR -> page St D C) (c : pc) (rqs : mpstate (D:=DR) (C:=CR) (T:=T)) (w1 : world St D C) (s1 s2 : @pspec D C St) :
  let env' := page_env env rqs.1 in
  request_parse_data FILENAME_MAX tmpfile_open stat_size fuel n k timer (pc_rq c) = (rqs, Ok 0%Z) ->
  session_create FILENAME_MAX env' (pc_w c) = (w1, Ok tt) -> header_ok (rs_header (w_rs w1)) ->
  spec_page FILENAME_MAX env (fun_ rqs.1) (mkPs (page_start w1) [] None false) = Some s1 -> spec_end FILENAME_MAX env env' s1 = Some s2 ->
  let B := length (sp_body s2) in let H := length (header_text (sent_head s2)) in
  rs_fit f0 (sent_head s2) -> writable (pc_out c) -> room (pc_out c) (H + B) -> 3 * B + H + 1 < fuel -> IO_WR_BUFSZ <= fuel ->
  exists c', dypage_serve f0 FILENAME_MAX rf_size fuel n k env timer tmpfile_open stat_size fun_ c = (c', Ok tt) /\
    pc_rq c' = rqs /\ pc_w c' = sp_w s2 /\
    forall ss, exists o, io_codecs_remove fuel (see (w_rs (pc_w c')) ss (pc_out c')) = (o, Ok tt) /\ writable o /\
      outstream o = outstream (pc_out c) ++ header_text (sent_head s2) ++ sent_body s2.
Proof.
  intros env' Hparse Hses Hh Hpage Hend B H Hfit [Hwf Hcs] Hroom Hf Hfw. assert (0 < RFBUFSZ) as Hrf by (unfold RFBUFSZ; lia).
  assert (0 < f0) as H0 by (destruct Hfit as (_ & _ & ?); lia).
  destruct (start_Ok w1 Hh) as [E1 E2]. set (rs0 := (response_set_content_type (bs "text/html") (w_rs w1)).1) in *.
  unfold spec_end in Hend. destruct (if sp_fed s1 then Some s1 else spec_write FILENAME_MAX env [x0a] s1) as [s1'|] eqn:Enl; [|done]. cbn [mbind option_bind] in Hend.
  destruct (session_free FILENAME_MAX env' (sp_w s1')) as [w2 [a| | |]] eqn:Esf; try done. injection Hend as <-. cbn [sp_body sp_head sp_w sp_fed] in *.
  set (rf := mkRf (w_rs (page_start w1)) (Some (w_ss (page_start w1))) false false (replicate RFBUFSZ x00) 0 None).
  set (c1 := mkPc rqs (page_start w1) (io_codec_add_tail (pc_out c) rf)).
  assert (page_inv f0 H B (outstream (pc_out c)) (mkPs (page_start w1) [] None false) c1) as Hi.
  { split; [done|]. exists rf, (replicate CODEC_BUFSZ x00), 0, 0. cbn [c1 pc_out sp_head sp_body sp_fed length]. split_and!; try done.
    split; [done|]. unfold io_codec_add_tail. by rewrite Hcs. }
  destruct (page_runs H B (outstream (pc_out c)) (fun_ rqs.1) _ s1 s1' c1 Hi Hpage Enl) as (c2 & c3 & c4 & E3 & E4 & E5 & Q5 & Hi4 & Hfd); try done.
  { intros rs Hrs. unfold H, sent_head in *. cbn [sp_head sp_w] in *. rewrite Hrs in *. by split. }
  destruct (Hi4) as (Ew4 & Hrest). exists (mkPc (pc_rq c4) w2 (pc_out c4)). split_and!; [|done|done|].
  - unfold dypage_serve. erewrite pbind_Ok by (apply pelse_Ok; unfold pc_parse; rewrite Hparse; reflexivity). cbv beta.
    erewrite pbind_Ok by (apply pelse_Ok; unfold with_env, on_world; cbn [pc_rq pc_w]; fold env'; rewrite Hses; reflexivity). cbv beta.
    erewrite pbind_Ok.
    2: { apply pelse_Ok. erewrite pbind_Ok by (unfold on_world, on_rs; cbn [pc_w]; rewrite E1; reflexivity).
         erewrite pbind_Ok by (unfold pignore, on_world, on_rs; cbn [pc_w w_rs]; fold rs0; rewrite E2; reflexivity).
         unfold pc_attach, response_filter_create. rewrite u_alloc_ok. reflexivity. }
    cbn [pc_rq pc_w pc_out w_ss w_rs w_store]. match goal with |- _ ?st = _ => change st with c1 end.
    erewrite (pbind_Ok pget) by reflexivity. cbv beta. change (pc_rq c1) with rqs.
    rewrite (pbind_Ok _ _ _ _ _ E3), (pbind_Ok _ _ _ _ _ E4). erewrite (pbind_Ok pget) by reflexivity. cbv beta. rewrite (pbind_Ok _ _ _ _ _ E5).
    unfold with_env, on_world. rewrite Q5. cbn [c1 pc_rq]. fold env'. rewrite Ew4, Esf. by destruct a.
  - intros ss. set (s2 := mkPs w2 (sp_body s1') (sp_head s1') (sp_fed s1')) in *.
    destruct (finish_refines f0 FILENAME_MAX fuel env H B (outstream (pc_out c)) s2 (mkPc (pc_rq c4) w2 (pc_out c4)) ss) as (o & E & W & O); try done; try lia.
    by exists o.
Qed.
End serve_page.

(** ** Evaluation *)

(** Sessions kept in a list. *)
#[local] Instance list_driver : SesDriver (list session) := {|
  drv_load := fun _ st ss => (st, ss, Fail);
  drv_save := fun _ st ss => (ss :: st, ss, Ok tt);
  drv_remove := fun _ st ss => (st, ss, Ok tt);
  drv_mtime := fun _ _ _ => 0%Z
|}.
Definition page_id : list byte := bs "ba6b3efd0b8e9014562e35c1242185b8".

Definition fields_of (rs : response io_mem no_codec) (fs : list (list byte * list byte)) : response io_mem no_codec :=
  set_rs_header rs (mkHeader (map mk_field fs) (length fs)).
Definition page_conn0 : @pconn io_mem no_codec io_mem no_codec io_mem (list session) io_mem :=
  mkPc (rq0, []) (mkWorld ses_zero (fields_of rs0 []) []) (io_mem_create (replicate (N.to_nat 8000) x00) (N.to_nat 8000) false).

Definition set_user (w : world (list session) io_mem no_codec) : world (list session) io_mem no_codec :=
  (on_ss (session_set (L:=libu_ref) (bs "user") (bs "tho")) w).1.
Definition add_field (w : world (list session) io_mem no_codec) : world (list session) io_mem no_codec :=
  (on_rs (response_set_field (L:=libu_ref) (bs "X-Late") (bs "1")) w).1.

(** Text, then a variable of the session and a field of the header, then text. *)
Definition greeting (text : list byte) (_ : request io_mem no_codec) : page (list session) io_mem no_codec :=
  PWrite text (fun _ => PDo set_user (fun _ => PDo add_field (fun _ => PWrite (bs "bye") (fun _ => PEnd)))).

Abbreviation serve_it p :=
  (dypage_serve (L:=libu_ref) (N.to_nat 9000) (N.to_nat 4096) (N.to_nat 8000) (N.to_nat 20000) 10 10 env_f true
     (fun _ => None : option (io io_mem no_codec)) (fun _ => None) p page_conn0).
Definition page_text (p : request io_mem no_codec -> page (list session) io_mem no_codec) : list byte :=
  let c := (serve_it p).1 in
  outstream (io_codecs_remove (CO:=page_filter_ops (L:=libu_ref) (N.to_nat 9000) (N.to_nat 4096) env_f) (N.to_nat 20000) (see (w_rs (pc_w c)) None (pc_out c))).1.

(** The cookie and the late field are in the header of a short page. *)
Example short_page : page_text (greeting (bs "Hello, ")) =
  bs "HTTP/1.0 200 OK" ++ crlf ++ bs "Content-Type: text/html" ++ crlf ++ bs "Cache-Control: no-cache, must-revalidate" ++ crlf ++
  bs "Expires: Mon, 1 Jan 1990 05:00:00 GMT" ++ crlf ++ bs "Pragma: no-cache" ++ crlf ++ bs "X-Late: 1" ++ crlf ++
  bs "Set-Cookie: klone_sid=; expires=Wed, 01-Jan-1990 10:10:10 GMT" ++ crlf ++ bs "Set-Cookie: klone_sid=" ++ page_id ++ crlf ++ crlf ++ bs "Hello, bye".
Proof. vm_compute. reflexivity. Qed.

(** The identifier of the session is sent with a long page too, the late field is not. *)
Definition long_text : list byte := replicate (N.to_nat 4096) "x"%byte.
Example long_page : page_text (greeting long_text) =
  bs "HTTP/1.0 200 OK" ++ crlf ++ bs "Content-Type: text/html" ++ crlf ++ bs "Cache-Control: no-cache, must-revalidate" ++ crlf ++
  bs "Expires: Mon, 1 Jan 1990 05:00:00 GMT" ++ crlf ++ bs "Pragma: no-cache" ++ crlf ++
  bs "Set-Cookie: klone_sid=; expires=Wed, 01-Jan-1990 10:10:10 GMT" ++ crlf ++ bs "Set-Cookie: klone_sid=" ++ page_id ++ crlf ++ crlf ++ long_text ++ bs "bye".
Proof. vm_compute. reflexivity. Qed.

(** A page that writes nothing sends a newline. *)
Example empty_page : drop (length (page_text (fun _ => PEnd)) - 5) (page_text (fun _ => PEnd)) = crlf ++ crlf ++ [x0a].
Proof. vm_compute. reflexivity. Qed.

Definition page_world : world (list session) io_mem no_codec := (session_create (L:=libu_ref) (N.to_nat 4096) env_f (pc_w page_conn0)).1.
Definition spec_text (text : list byte) : option (@pspec io_mem no_codec (list session)) :=
  spec_page (L:=libu_ref) (N.to_nat 4096) env_f (greeting text rq0) (mkPs (page_start (L:=libu_ref) page_world) [] None false).
Definition spec_final (text : list byte) : option (@pspec io_mem no_codec (list session)) :=
  s ← spec_text text; spec_end (L:=libu_ref) (N.to_nat 4096) env_f env_f s.
Definition spec0 : @pspec io_mem no_codec (list session) := mkPs page_world [] None false.

Definition spec2 : @pspec io_mem no_codec (list session) := default spec0 (spec_final (bs "Hello, ")).

Lemma dypage_output_witness :
  exists c', serve_it (greeting (bs "Hello, ")) = (c', Ok tt) /\ pc_rq c' = (rq0, []) /\ pc_w c' = sp_w spec2 /\
    forall ss, exists o, io_codecs_remove (CO:=page_filter_ops (L:=libu_ref) (N.to_nat 9000) (N.to_nat 4096) env_f) (N.to_nat 20000) (see (w_rs (pc_w c')) ss (pc_out c')) = (o, Ok tt) /\ writable o /\
      outstream o = outstream (pc_out page_conn0) ++ header_text (sent_head spec2) ++ sent_body spec2.
Proof.
  apply (dypage_output (L:=libu_ref) (N.to_nat 9000) (N.to_nat 4096) (N.to_nat 8000) (N.to_nat 20000) 10 10 env_f true
     (fun _ => None) (fun _ => None) (greeting (bs "Hello, ")) page_conn0 (rq0, []) page_world (default spec0 (spec_text (bs "Hello, "))) spec2).
  - vm_compute. reflexivity.
  - vm_compute. reflexivity.
  - vm_compute. split; [reflexivity|]. by apply Forall_nil.
  - vm_compute. reflexivity.
  - vm_compute. reflexivity.
  - split_and!.
    + split; [vm_compute; reflexivity|]. vm_compute. repeat (apply Forall_cons; split; [split; by eexists|]). by apply Forall_nil.
    + vm_compute. discriminate.
    + vm_compute. reflexivity.
    + apply Nat.leb_le. vm_compute. reflexivity.
  - by split.
  - unfold room. compute_decide.
  - apply Nat.ltb_lt. vm_compute. reflexivity.
  - compute_decide.
Defined.
