(* ===== verification/Emb.v ===== *)
(** Embedded resources: src/src/libemb/emb.c and the supplier src/src/libhttp/sup_emb.c.

    The files and pages of a site are compiled into the server, which keeps them in a hash
    map of libu; the map is a parameter, with what libu documents of it.  [register_pages],
    which the translator generates, is a parameter too.  The supplier is that of the build
    without HAVE_LIBZ and SSL_ON; [EmbCode] has the other one. *)

From S2P Require Import Prelude Libu Encode Path Date Io IoSpec IoMem Getline Header Vars Request Multipart Response.
From S2P Require Import Md5 Session Filter DyPage.

(** ** The map of libu *)

(** [u_hmap_easy_new], [_put], [_del], [_get], [u_hmap_count], and the values in the order of
    [u_hmap_foreach]. *)
Class HMap (V M : Type) := {
  hm_new : option M;
  hm_put : M -> list byte -> V -> option M;
  hm_del : M -> list byte -> option M;
  hm_get : M -> list byte -> option V;
  hm_count : M -> nat;
  hm_vals : M -> list V
}.

Class HMapSpec (V M : Type) {HM : HMap V M} : Prop := {
  hm_new_spec : exists m, hm_new = Some m /\ hm_vals m = [] /\ forall k, hm_get m k = None;
  hm_put_spec (m : M) (k : list byte) (v : V) : hm_get m k = None ->
    exists m', hm_put m k v = Some m' /\ (forall k', hm_get m' k' = if decide (k' = k) then Some v else hm_get m k') /\
      hm_vals m' ≡ₚ v :: hm_vals m;
  hm_del_spec (m : M) (k : list byte) : is_Some (hm_get m k) ->
    exists m', hm_del m k = Some m' /\ forall k', hm_get m' k' = if decide (k' = k) then None else hm_get m k';
  hm_count_spec (m : M) : hm_count m = length (hm_vals m)
}.

(** ** emb.c *)

Record embfile := mkEf {
  ef_filename : list byte;
  ef_data : list byte;                  (* its length is [size] *)
  ef_comp : bool;
  ef_encrypted : bool;
  ef_mtime : Z;
  ef_mime_type : list byte;
  ef_file_size : nat
}.

(** [type]: ET_FILE or ET_PAGE, with the function of a page. *)
Inductive embres (F : Type) :=
  | ET_FILE (e : embfile)
  | ET_PAGE (filename : list byte) (fun_ : F).
Arguments ET_FILE {F} _.
Arguments ET_PAGE {F} _ _.

Definition res_filename {F} (r : embres F) : list byte :=
  match r with ET_FILE e => ef_filename e | ET_PAGE f _ => f end.

Section emb_ops.
Context {L : Libu} {F M : Type} {HM : HMap (embres F) M}.

(** [init] and [embmap]. *)
Record emb_state := mkEmb { em_init : nat; em_map : option M }.
Abbreviation eprog A := (prog emb_state A).

(** A NULL map is not passed to libu by a program that initialises the module first. *)
Definition with_map {A} (f : M -> option M * res A) : eprog A := fun s =>
  match em_map s with
  | None => (s, Fault)
  | Some m => let '(m', r) := f m in (mkEmb (em_init s) (Some (default m m')), r)
  end.

Definition emb_register (res : embres F) : eprog unit := fun s =>
  if decide (em_init s = 0) then (s, Fail) else
  with_map (fun m => match hm_put m (res_filename res) res with Some m' => (Some m', Ok tt) | None => (None, Fail) end) s.

Definition emb_unregister (res : embres F) : eprog unit := fun s =>
  if decide (em_init s = 0) then (s, Fail) else
  match em_map s with
  | None => (s, Ok tt)
  | Some _ => with_map (fun m => match hm_del m (res_filename res) with Some m' => (Some m', Ok tt) | None => (None, Fail) end) s
  end.

Variables register_pages unregister_pages : eprog unit.       (* generated *)

(** [init] is counted up even when the map exists or cannot be made. *)
Definition emb_init : eprog unit := fun s =>
  let first := decide (em_init s = 0) in
  let s := mkEmb (S (em_init s)) (em_map s) in
  if first then
    match hm_new with
    | Some m => register_pages (mkEmb (em_init s) (Some m))
    | None => (s, Fail)
    end
  else (s, Ok tt).

Definition emb_term : eprog unit := fun s =>
  if decide (em_init s = 0) then (s, Fail) else
  let '(s', r) := unregister_pages s in (mkEmb (em_init s') None, r).

Definition emb_lookup (filename : list byte) : eprog (embres F) := fun s =>
  if decide (em_init s = 0) then (s, Fail) else
  if decide (filename = []) then (s, Fail) else
  with_map (fun m => (None, of_option (hm_get m filename))) s.

Definition emb_open (file : list byte) : eprog (io io_mem no_codec) :=
  let! e := emb_lookup file in
  match e with
  | ET_FILE e => pret (io_mem_create (ef_data e) (length (ef_data e)) false)
  | ET_PAGE _ _ => pfail
  end.

(** [listadd] puts the name into the first free slot of the array. *)
Fixpoint listadd (list_ : list (option (list byte))) (name : list byte) : res (list (option (list byte))) :=
  match list_ with
  | [] => Fault                                    (* past the end of the array *)
  | None :: l' => if u_alloc (S (length name)) then Ok (Some name :: l') else Fail
  | Some x :: l' => r ← listadd l' name; Ok (Some x :: r)
  end.

(** [u_hmap_foreach_arg] goes on until the callback fails; its result is ignored. *)
Fixpoint list_walk (vals : list (embres F)) (list_ : list (option (list byte))) : res (list (option (list byte))) :=
  match vals with
  | [] => Ok list_
  | v :: vals' =>
      match listadd list_ (res_filename v) with
      | Ok l => list_walk vals' l
      | Fail => Ok list_
      | Fault => Fault
      | Timeout => Timeout
      end
  end.

Definition emb_list : eprog (list (option (list byte))) :=
  with_map (fun m =>
    let nelems := hm_count m in
    (None, if decide (nelems = 0) then Fail else
           if u_alloc (8 * S nelems) then list_walk (hm_vals m) (replicate (S nelems) None) else Fail)).

(** The loop of [emb_to_ubuf]. *)
Fixpoint ubuf_loop (fuel n : nat) (tmp : io io_mem no_codec) (ubuf : list byte) : res (list byte) :=
  match n with
  | 0 => Timeout
  | S n' =>
      let '(tmp', r) := io_read fuel tmp (N.to_nat 1024) in
      data ← r;
      if decide (data = []) then Ok ubuf else
      match u_buf_append ubuf data with Some b => ubuf_loop fuel n' tmp' b | None => Fail end
  end.

Definition emb_to_ubuf (fuel n : nat) (res_name : list byte) : eprog (list byte) :=
  let! tmp := emb_open res_name in
  plift (match u_buf_create with Some b => ubuf_loop fuel n tmp b | None => Fail end).
End emb_ops.
Arguments emb_state : clear implicits.

(** ** The supplier *)

Section supemb.
Context {L : Libu} {DR CR D C D2 St T Ct M : Type} {DOR : DevOps DR} {COR : CodecOps CR} {DO2 : DevOps D2} {SD : SesDriver St}.
Context {DOT : DevOps T} {COT : CodecOps Ct}.
Abbreviation F := (request DR CR -> page St D C).
Context {HM : HMap (embres F) M}.
Variables (f0 FILENAME_MAX rf_size fuel n k : nat) (env : ses_env) (timer : bool).
Variable tmpfile_open : nat -> option (io T Ct).
Variable stat_size : list byte -> option nat.
Variable send_enc_deflate : option bool.            (* of the virtual host of the request *)
Variable emb : emb_state M.
#[local] Hint Extern 0 (CodecOps (rfilter D C)) => exact (page_filter_ops f0 FILENAME_MAX env) : typeclass_instances.
Abbreviation pprog A := (prog (@pconn DR CR D C D2 St T) A).

(** The time 0 keeps a resource out of conditional requests. *)
Definition supemb_is_valid_uri (uri : list byte) : res (option Z) :=
  if decide (FILENAME_MAX < length uri + 1) then Ok None else
  match (emb_lookup (F:=F) uri emb).2 with
  | Ok (ET_FILE e) => Ok (Some (if ef_encrypted e then 0 else ef_mtime e))%Z
  | Ok (ET_PAGE _ _) => Ok (Some 0%Z)
  | Fail => Ok None
  | Fault => Fault
  | Timeout => Timeout
  end.

(** The value is [sai]: the compressed data is sent as it is. *)
Definition supemb_static_set_header_fields (e : embfile) : pprog bool :=
  let! deflate := plift (of_option send_enc_deflate) in
  on_world (on_rs (response_set_content_type (ef_mime_type e)));;;
  on_world (on_rs (response_set_last_modified (ef_mtime e)));;;
  on_world (on_rs (response_set_content_length (Z.of_nat (ef_file_size e))));;;
  if deflate && ef_comp e then
    let! c := pget in
    let! sai := plift (request_is_encoding_accepted (bs "deflate") (pc_rq c).1).2 in
    if sai : bool then
      on_world (on_rs (response_set_content_encoding (bs "deflate")));;;
      on_world (on_rs (response_set_content_length (Z.of_nat (length (ef_data e)))));;;
      pret true
    else pret false
  else pret false.

(** The filter of a file has no session. *)
Definition static_attach : pprog unit := fun c =>
  match response_filter_create rf_size (w_rs (pc_w c)) None with
  | Ok rf => (mkPc (pc_rq c) (pc_w c) (io_codec_add_tail (pc_out c) rf), Ok tt)
  | Fail => (c, Fail)
  | Fault => (c, Fault)
  | Timeout => (c, Timeout)
  end.

Definition static_write (data : list byte) : pprog nat := fun c =>
  let '(o, r) := io_write fuel (see (w_rs (pc_w c)) None (pc_out c)) data in (mkPc (pc_rq c) (pc_w c) o, r).
Definition static_remove : pprog unit := fun c =>
  let '(o, r) := io_codecs_remove fuel (see (w_rs (pc_w c)) None (pc_out c)) in (mkPc (pc_rq c) (pc_w c) o, r).

(** The result of [io_write] is compared with an unsigned size, so a failure is not seen.
    A HEAD request leaves the filter attached. *)
Definition supemb_serve_static (e : embfile) : pprog unit :=
  pelse
   (static_attach;;;
    let! _ := supemb_static_set_header_fields e in
    let! c := pget in
    if decide (rq_method (pc_rq c).1 = HM_HEAD) then pret tt else
    pignore (static_write (ef_data e));;;
    static_remove)
   (pignore static_remove;;; pfail).

Definition supemb_serve_dynamic (fun_ : F) : pprog unit :=
  dypage_serve f0 FILENAME_MAX rf_size fuel n k env timer tmpfile_open stat_size fun_.

Definition supemb_serve : pprog unit :=
  let! c := pget in
  let! r := plift (match resolved_filename (pc_rq c).1 with
                   | None => Ok None
                   | Some f => match (emb_lookup f emb).2 with
                               | Ok e => Ok (Some e) | Fail => Ok None | Fault => Fault | Timeout => Timeout end
                   end) in
  match r with
  | None => on_world (on_rs (response_set_status 404))
  | Some (ET_FILE e) => supemb_serve_static e
  | Some (ET_PAGE _ fun_) => supemb_serve_dynamic fun_
  end.
End supemb.

(** ** The table *)

Section table.
Context {L : Libu} {LS : LibuSpec L} {LM : LibuMem L} {F M : Type} {HM : HMap (embres F) M} {HS : HMapSpec (embres F) M}.

(** What the generated function does with the resources of a site. *)
Fixpoint register_all (site : list (embres F)) : prog (emb_state M) unit :=
  match site with
  | [] => pret tt
  | r :: site' => pignore (emb_register r);;; register_all site'
  end.

Lemma register_all_spec (site : list (embres F)) : forall (i : nat) (m : M),
  NoDup (map res_filename site) -> Forall (fun r => hm_get m (res_filename r) = None) site ->
  exists m', register_all site (mkEmb (S i) (Some m)) = (mkEmb (S i) (Some m'), Ok tt) /\ hm_vals m' ≡ₚ site ++ hm_vals m /\
    (forall r, r ∈ site -> hm_get m' (res_filename r) = Some r) /\ forall f, f ∉ map res_filename site -> hm_get m' f = hm_get m f.
Proof.
  induction site as [|r site IH]; intros i m Hnd Hf; cbn [register_all map] in *.
  { exists m. split_and!; try done. by intros r Hr%not_elem_of_nil. }
  apply NoDup_cons in Hnd as [Hn Hnd]. apply Forall_cons in Hf as [Hr Hf].
  destruct (hm_put_spec m (res_filename r) r Hr) as (m1 & E1 & G1 & V1).
  destruct (IH i m1 Hnd) as (m2 & E2 & V2 & G2 & G3).
  { apply Forall_forall. intros x Hx. rewrite Forall_forall in Hf. specialize (Hf x Hx). cbn in Hf. rewrite G1. case_decide as Hd; [|done].
    destruct Hn. rewrite <- Hd. by apply list_elem_of_fmap_2. }
  exists m2. split_and!.
  - erewrite pbind_Ok; [exact E2|]. unfold pignore, emb_register, with_map. cbn [em_init em_map]. rewrite decide_False by done. by rewrite E1.
  - rewrite V2, V1. by rewrite <- Permutation_middle.
  - intros x [->|Hx]%elem_of_cons; [|by apply G2]. rewrite G3 by done. rewrite G1. by rewrite decide_True.
  - intros f [Hf1 Hf2]%not_elem_of_cons. rewrite G3, G1 by done. by rewrite decide_False.
Qed.

Lemma list_walk_spec (vals : list (embres F)) : forall (done_ : list (list byte)) (k : nat),
  list_walk vals (map Some done_ ++ replicate (length vals + k) None) =
  Ok (map Some (done_ ++ map res_filename vals) ++ replicate k None).
Proof.
  assert (forall (name : list byte) (done_ : list (list byte)) l, listadd (map Some done_ ++ None :: l) name = Ok (map Some (done_ ++ [name]) ++ l)) as G.
  { intros name done_ l. induction done_ as [|d done_ IH]; cbn; [by rewrite u_alloc_ok|]. by rewrite IH. }
  induction vals as [|v vals IH]; intros done_ k; cbn [list_walk length map]; [by rewrite app_nil_r|].
  cbn [Nat.add replicate]. rewrite G, IH. by rewrite <- app_assoc.
Qed.

(** The resources that are registered, and no others, are found under their names; the list of
    names is complete, each name once, with a NULL after the last. *)
Theorem emb_site_found (register_pages : prog (emb_state M) unit) (site : list (embres F)) :
  register_pages = register_all site -> site <> [] -> NoDup (map res_filename site) -> [] ∉ map res_filename site ->
  exists s names, emb_init register_pages (mkEmb 0 None) = (s, Ok tt) /\
    (forall r, r ∈ site -> emb_lookup (res_filename r) s = (s, Ok r)) /\
    (forall f, f ∉ map res_filename site -> emb_lookup f s = (s, Fail)) /\
    emb_list s = (s, Ok (map Some names ++ [None])) /\ names ≡ₚ map res_filename site.
Proof.
  intros -> Hne Hnd Hno. destruct hm_new_spec as (m & Em & Vm & Gm).
  destruct (register_all_spec site 0 m Hnd) as (m' & E & V & G1 & G2); [by apply Forall_true|].
  exists (mkEmb 1 (Some m')), (map res_filename (hm_vals m')). rewrite Vm, app_nil_r in V. split_and!.
  - unfold emb_init. cbn [em_init em_map]. rewrite decide_True by done. by rewrite Em.
  - intros r Hr. unfold emb_lookup, with_map. cbn [em_init em_map]. rewrite decide_False by done. rewrite decide_False; [by rewrite G1|].
    intros Hz. destruct Hno. rewrite <- Hz. by apply list_elem_of_fmap_2.
  - intros f Hf. unfold emb_lookup, with_map. cbn [em_init em_map]. rewrite decide_False by done. case_decide; [done|]. by rewrite G2, Gm.
  - unfold emb_list, with_map. cbn [em_map]. rewrite hm_count_spec, u_alloc_ok. rewrite decide_False.
    + do 2 f_equal. replace (S (length (hm_vals m'))) with (length (hm_vals m') + 1) by lia. apply (list_walk_spec (hm_vals m') [] 1).
    + rewrite V. by destruct site.
  - by rewrite V.
Qed.

Lemma ubuf_loop_spec (fuel n : nat) : forall (tmp : io io_mem no_codec) (b : list byte), readable tmp -> 0 < fuel -> length (instream tmp) < n ->
  ubuf_loop fuel n tmp b = Ok (b ++ instream tmp).
Proof.
  induction n as [|n IH]; intros tmp b Hr Hf Hn; [lia|]. cbn [ubuf_loop]. assert (0 < N.to_nat 1024) as Hp by lia. set (sz := N.to_nat 1024) in *. clearbody sz.
  destruct (io_read_spec fuel tmp sz Hr Hf) as (t1 & -> & R1 & I1 & _). cbn [mbind res_bind].
  pose proof (take_drop sz (instream tmp)) as Etd. pose proof (length_take (instream tmp) sz) as Hl. rewrite <- I1 in Etd. case_decide as Hd.
  - rewrite Hd in *. cbn in *. assert (instream tmp = []) as -> by (apply length_zero_iff_nil; lia). by rewrite app_nil_r.
  - rewrite u_buf_append_eq. rewrite IH; [|done|done|].
    + rewrite <- app_assoc. by rewrite Etd.
    + rewrite <- Etd, length_app in Hn. assert (0 < length (take sz (instream tmp))) by (destruct (take sz (instream tmp)); [done|cbn; lia]). lia.
Qed.

(** A file is read back as it was embedded. *)
Theorem emb_file_contents (fuel n : nat) (s : emb_state M) (e : embfile) (name : list byte) :
  emb_lookup name s = (s, Ok (ET_FILE e)) -> 0 < fuel -> length (ef_data e) < n ->
  emb_to_ubuf fuel n name s = (s, Ok (ef_data e)).
Proof.
  intros Hl Hf Hn. unfold emb_to_ubuf, emb_open. erewrite pbind_Ok by (by rewrite (pbind_Ok _ _ _ _ _ Hl)). unfold plift.
  rewrite u_buf_create_eq. destruct (mem_part_readable (ef_data e) (length (ef_data e)) false) as [Hr Hi]. rewrite take_ge in Hi by done.
  rewrite ubuf_loop_spec; [by rewrite Hi|done|done|by rewrite Hi].
Qed.
End table.

(** ** Files *)

Definition set_fields (fs : list (list byte * list byte)) {L : Libu} (h : header) : header :=
  foldl (fun h nv => (header_set_field h nv.1 nv.2).1) h fs.

(** The fields that describe a file; [asis]: compressed data for a client that takes it. *)
Definition static_fields (e : embfile) (modified : list byte) (asis : bool) : list (list byte * list byte) :=
  [(bs "Content-Type", ef_mime_type e); (bs "Last-Modified", modified); (bs "Content-Length", fmt_u (u32 (Z.of_nat (ef_file_size e))))] ++
  if asis then [(bs "Content-Encoding", bs "deflate"); (bs "Content-Length", fmt_u (u32 (Z.of_nat (length (ef_data e)))))] else [].

Section files.
Context {L : Libu} {LS : LibuSpec L} {LM : LibuMem L} {DR CR D C D2 St T Ct M : Type} {DOR : DevOps DR} {COR : CodecOps CR}.
Context {DO2 : DevOps D2} {DK2 : DevSink D2} {SD : SesDriver St} {DOT : DevOps T} {COT : CodecOps Ct}.
Abbreviation F := (request DR CR -> page St D C).
Context {HM : HMap (embres F) M}.
Variables (f0 FILENAME_MAX rf_size fuel n k : nat) (env : ses_env) (timer : bool).
Variable tmpfile_open : nat -> option (io T Ct).
Variable stat_size : list byte -> option nat.
Variable emb : emb_state M.
#[local] Hint Extern 0 (CodecOps (rfilter D C)) => exact (page_filter_ops f0 FILENAME_MAX env) : typeclass_instances.
#[local] Instance file_emitter : Emitter (rfilter D C) := rf_emitter f0 FILENAME_MAX env.
Abbreviation pc := (@pconn DR CR D C D2 St T).

Lemma set_fields_ok (fs : list (list byte * list byte)) : forall h, header_ok h -> header_ok (set_fields fs h).
Proof.
  induction fs as [|[nm v] fs IH]; intros h Hh; [done|]. apply IH. cbn. by destruct (header_set_field_vals h nm v [] Hh) as (h' & -> & ? & _).
Qed.

(** A field has the last value that it was given. *)
Lemma set_fields_head (pre post : list (list byte * list byte)) (nm v : list byte) (h : header) : header_ok h ->
  Forall (fun nv => strcaseeq nv.1 nm = false) post ->
  head (vals (set_fields (pre ++ (nm, v) :: post) h) nm) = Some v.
Proof.
  intros Hh Hpost. unfold set_fields. rewrite foldl_app. apply (set_fields_ok pre) in Hh. fold (set_fields pre h).
  generalize dependent (set_fields pre h). clear h. intros h Hh. cbn [foldl fst snd].
  destruct (header_set_field_vals h nm v nm Hh) as (h1 & -> & Hh1 & Hv & _). rewrite strcaseeq_refl in Hv. cbn [fst].
  assert (head (vals h1 nm) = Some v) as Hd by (by rewrite Hv). clear Hv. revert h1 Hh1 Hd.
  induction Hpost as [|[n2 v2] fs Hn _ IH]; intros h1 Hh1 Hd; cbn [foldl fst snd]; [done|]. cbn in Hn.
  destruct (header_set_field_vals h1 n2 v2 nm Hh1) as (h2 & -> & Hh2 & Hv2 & _). rewrite Hn in Hv2. cbn [fst]. apply IH; [done|]. by rewrite Hv2.
Qed.

Lemma on_field (w : world St D C) (nm v : list byte) : header_ok (rs_header (w_rs w)) ->
  on_rs (response_set_field nm v) w = (mkWorld (w_ss w) (set_rs_header (w_rs w) (set_fields [(nm, v)] (rs_header (w_rs w)))) (w_store w), Ok tt).
Proof.
  intros Hh. unfold on_rs, response_set_field. cbn [set_fields foldl fst snd]. unfold set_fields. cbn [foldl fst snd].
  by destruct (header_set_field_vals (rs_header (w_rs w)) nm v [] Hh) as (h & -> & _).
Qed.

Lemma on_length (w : world St D C) (sz : nat) : header_ok (rs_header (w_rs w)) ->
  on_rs (response_set_content_length (Z.of_nat sz)) w = on_rs (response_set_field (bs "Content-Length") (fmt_u (u32 (Z.of_nat sz)))) w.
Proof.
  intros Hh. unfold response_set_content_length. assert (length (fmt_u (u32 (Z.of_nat sz))) <= 10) as Hl.
  { unfold fmt_u. apply dec_go_length; [|lia]. unfold u32. pose proof (Z.mod_pos_bound (Z.of_nat sz) (2 ^ 32) ltac:(lia)). lia. }
  rewrite u_snprintf_spec by (unfold RS_BUFSZ; lia). rewrite bool_decide_false, take_ge by (unfold RS_BUFSZ in *; lia). done.
Qed.

Lemma set_header_fields_spec (e : embfile) (d acc : bool) (modified : list byte) (c : pc) :
  let asis := d && ef_comp e && acc in let rs := w_rs (pc_w c) in
  header_ok (rs_header rs) -> u_tt_to_rfc822 (ef_mtime e) = Ok modified ->
  (request_is_encoding_accepted (bs "deflate") (pc_rq c).1).2 = Ok acc ->
  supemb_static_set_header_fields (Some d) e c =
    (mkPc (pc_rq c) (mkWorld (w_ss (pc_w c)) (set_rs_header rs (set_fields (static_fields e modified asis) (rs_header rs))) (w_store (pc_w c))) (pc_out c), Ok asis).
Proof.
  intros asis rs Hh Hm Hacc. destruct c as [rq [ss rs0 st] out]. cbn [pc_rq pc_w pc_out w_ss w_rs w_store] in *. subst rs. destruct rs0 as [h i s0 m0 g0]. cbn [rs_header] in *.
  assert (forall nm v h, header_ok h -> on_world (on_rs (response_set_field nm v)) (mkPc rq (mkWorld ss (mkRs h i s0 m0 g0) st) out : pc) =
    (mkPc rq (mkWorld ss (mkRs (set_fields [(nm, v)] h) i s0 m0 g0) st) out, Ok tt)) as Hset.
  { intros nm v h1 Hh1. unfold on_world. cbn [pc_w]. by rewrite on_field. }
  assert (forall sz h, header_ok h -> on_world (on_rs (response_set_content_length (Z.of_nat sz))) (mkPc rq (mkWorld ss (mkRs h i s0 m0 g0) st) out : pc) =
    (mkPc rq (mkWorld ss (mkRs (set_fields [(bs "Content-Length", fmt_u (u32 (Z.of_nat sz)))] h) i s0 m0 g0) st) out, Ok tt)) as Hlen.
  { intros sz h1 Hh1. unfold on_world. cbn [pc_w]. by rewrite on_length, on_field. }
  unfold supemb_static_set_header_fields, response_set_content_type, response_set_content_encoding. erewrite (pbind_Ok (plift _)) by reflexivity.
  rewrite (pbind_Ok _ _ _ _ _ (Hset _ _ _ Hh)). pose proof (set_fields_ok [(bs "Content-Type", ef_mime_type e)] h Hh) as Hh1.
  erewrite pbind_Ok by (unfold response_set_last_modified; rewrite Hm; by apply Hset). apply (set_fields_ok [(bs "Last-Modified", modified)]) in Hh1.
  rewrite (pbind_Ok _ _ _ _ _ (Hlen _ _ Hh1)). apply (set_fields_ok [(bs "Content-Length", fmt_u (u32 (Z.of_nat (ef_file_size e))))]) in Hh1.
  unfold asis, static_fields. destruct (d && ef_comp e); cbn [andb]; [|done].
  erewrite (pbind_Ok pget) by reflexivity. cbn [pc_rq]. rewrite Hacc. erewrite (pbind_Ok (plift _)) by reflexivity. destruct acc; [|done].
  rewrite (pbind_Ok _ _ _ _ _ (Hset _ _ _ Hh1)). apply (set_fields_ok [(bs "Content-Encoding", bs "deflate")]) in Hh1.
  by rewrite (pbind_Ok _ _ _ _ _ (Hlen _ _ Hh1)).
Qed.

(** Without a session the filter never changes what it points to. *)
Lemma filter_keeps (st : rfilter D C) (cap : nat) (src : list byte) : rf_ss st = None ->
  let st' := (c_transform st cap src).1 in (rf_rs st', rf_ss st') = (rf_rs st, rf_ss st) /\ rf_ss st' = None.
Proof.
  intros Hs. destruct st as [rs ss fl fe bf off iob]. cbn in Hs. subst ss. cbn [c_transform page_filter_ops rf_ops]. unfold rf_transform.
  assert (forall fl fe bf off iob, let st' := (rf_copyout f0 (mkRf rs None fl fe bf off iob) cap src).1 in (rf_rs st', rf_ss st') = (rs, None) /\ rf_ss st' = None) as G.
  { intros fl1 fe1 bf1 off1 iob1. unfold rf_copyout, rf_drain. cbn [rf_iob]. destruct iob1 as [i|]; [|done]. by destruct (io_read f0 i cap) as [i' [[|x out]| | |]]. }
  cbn [set_rf_feeded rf_flushing rf_off]. destruct (is_head _); [done|]. destruct fl.
  { specialize (G true true bf off iob). by destruct (rf_copyout _ _ _ _). }
  case_decide; [done|]. unfold rf_session. cbn [set_rf_flushing rf_ss]. unfold rf_init_iob. cbn [rf_rs rf_off].
  destruct (response_get_max_header_size rs); try done. destruct (u_alloc _); [|done]. destruct (rf_fill _ _ _) as [iob' [ht| | |]]; try done.
  cbn [set_rf_iob]. specialize (G true true bf off (Some (io_mem_create (io_mem_get_buf iob') ht true))). by destruct (rf_copyout _ _ _ _).
Qed.

(** The file goes through the filter. *)
Lemma static_emits (c : pc) (rs' : response D C) (o : io D2 (rfilter D C)) (rs0 : response D C) (data : list byte) :
  w_rs (pc_w c) = rs' -> rs_method rs' <> HM_HEAD -> rs_fit f0 rs' -> writable o -> room o (length (header_text rs') + length data) ->
  3 * length data + length (header_text rs') < fuel -> IO_WR_BUFSZ <= fuel ->
  pc_out c = io_codec_add_tail o (mkRf rs0 None false false (replicate RFBUFSZ x00) 0 None) ->
  exists o2 o3, static_write f0 FILENAME_MAX fuel env data c = (mkPc (pc_rq c) (pc_w c) o2, Ok (length data)) /\
    static_remove f0 FILENAME_MAX fuel env (mkPc (pc_rq c) (pc_w c) o2) = (mkPc (pc_rq c) (pc_w c) o3, Ok tt) /\
    writable o3 /\ outstream o3 = outstream o ++ header_text rs' ++ data.
Proof.
  intros Hrs Hm Hfit [Hw Hcs] Hroom Hf Hfw Ho. assert (0 < RFBUFSZ) as Hrf by (unfold RFBUFSZ; lia).
  assert (0 < f0) as H0 by (destruct Hfit as (_ & _ & ?); lia).
  set (rf' := mkRf rs' None false false (replicate RFBUFSZ x00) 0 None : rfilter D C).
  assert (coded (see rs' None (pc_out c)) rf' (replicate CODEC_BUFSZ x00) 0 0) as [Cw Cc].
  { rewrite Ho. apply (see_coded rs' None _ (mkRf rs0 None false false (replicate RFBUFSZ x00) 0 None)). split; [done|]. unfold io_codec_add_tail. cbn. by rewrite Hcs. }
  assert (is_head rf' = false) as Hnh by (unfold is_head; cbn; by destruct (rs_method rs')).
  assert (em_ok rf') as Hem by (split; cbn; done || lia).
  assert (owed rf' = header_text rs') as Hod by (cbn; unfold rf_owed, rf_text; rewrite Hnh; cbn; by rewrite app_nil_r).
  assert (passes rf' = true) as Hps by (cbn; by rewrite Hnh).
  destruct (io_write_emits fuel (see rs' None (pc_out c)) rf' _ _ _ data 0 Cw Cc Hem) as (o2 & st2 & E2 & He2 & _ & R2 & O2 & _ & _ & L2).
  { rewrite Hps, Hod, Nat.add_0_r, Ho. exact Hroom. } { rewrite Hod. lia. }
  destruct (io_write_keeps (fun s => (rf_rs s, rf_ss s)) (fun s => rf_ss s = None) fuel _ rf' _ _ _ data filter_keeps eq_refl Cc) as (st3 & b3 & c3 & k3 & C3 & K3 & _).
  rewrite E2 in C3. cbn [fst] in C3. injection K3 as K3 K4.
  assert (st3 = st2) as ->.
  { destruct He2 as (_ & _ & (b & cc & j & Hc) & _). rewrite Hc in C3. by injection C3. }
  assert (see rs' None o2 = o2) as Esee.
  { unfold see. rewrite C3. cbn [map c_state cbuf ccount coff]. destruct st2. cbn in K3, K4. subst. destruct o2. cbn in C3 |- *. by rewrite C3. }
  rewrite Hod in L2. destruct (codecs_remove_emits fuel o2 st2 0 He2 Hfw ltac:(lia) R2) as (o3 & E3 & W3 & _ & O3 & _).
  exists o2, o3. unfold static_write, static_remove. cbn [pc_w pc_out pc_rq]. rewrite Hrs, E2, Esee, E3. split_and!; [done|done|done..|].
  rewrite O3, O2, Hod, Hps. by rewrite Ho.
Qed.

(** An embedded file is sent as it was embedded.  A request other than HEAD for the name
    of a file gets the header of the response with the type, time and length of the file, and
    then exactly its bytes; compressed bytes go to a client that accepts them when the
    virtual host allows it, with their encoding and their own length. *)
Theorem emb_file_output (c : pc) (name : list byte) (e : embfile) (d acc : bool) (modified : list byte) :
  let rs := w_rs (pc_w c) in
  let asis := d && ef_comp e && acc in
  let rs' := set_rs_header rs (set_fields (static_fields e modified asis) (rs_header rs)) in
  resolved_filename (pc_rq c).1 = Some name -> emb_lookup name emb = (emb, Ok (ET_FILE e)) ->
  rq_method (pc_rq c).1 <> HM_HEAD -> rs_method rs <> HM_HEAD -> header_ok (rs_header rs) -> u_tt_to_rfc822 (ef_mtime e) = Ok modified ->
  (request_is_encoding_accepted (bs "deflate") (pc_rq c).1).2 = Ok acc -> rs_fit f0 rs' ->
  writable (pc_out c) -> room (pc_out c) (length (header_text rs') + length (ef_data e)) ->
  3 * length (ef_data e) + length (header_text rs') < fuel -> IO_WR_BUFSZ <= fuel ->
  exists c', supemb_serve f0 FILENAME_MAX rf_size fuel n k env timer tmpfile_open stat_size (Some d) emb c = (c', Ok tt) /\
    w_rs (pc_w c') = rs' /\ writable (pc_out c') /\ outstream (pc_out c') = outstream (pc_out c) ++ header_text rs' ++ ef_data e /\
    head (vals (rs_header rs') (bs "Content-Type")) = Some (ef_mime_type e) /\
    head (vals (rs_header rs') (bs "Last-Modified")) = Some modified /\
    head (vals (rs_header rs') (bs "Content-Length")) = Some (fmt_u (u32 (Z.of_nat (if asis then length (ef_data e) else ef_file_size e)))) /\
    (asis = true -> head (vals (rs_header rs') (bs "Content-Encoding")) = Some (bs "deflate")).
Proof.
  intros rs asis rs' Hname Hl Hm Hm' Hh Hd Hacc Hfit Hw Hroom Hf Hfw.
  assert (rs_header rs' = set_fields (static_fields e modified asis) (rs_header rs)) as Ehd by (unfold rs'; by destruct rs).
  set (c1 := mkPc (pc_rq c) (pc_w c) (io_codec_add_tail (pc_out c) (mkRf rs None false false (replicate RFBUFSZ x00) 0 None)) : pc).
  set (c2 := mkPc (pc_rq c) (mkWorld (w_ss (pc_w c)) rs' (w_store (pc_w c))) (pc_out c1) : pc).
  destruct (static_emits c2 rs' (pc_out c) rs (ef_data e)) as (o2 & o3 & E2 & E3 & W3 & O3); try done; [unfold rs'; by destruct rs|].
  exists (mkPc (pc_rq c) (pc_w c2) o3). split_and!; try done.
  - unfold supemb_serve. erewrite (pbind_Ok pget) by reflexivity. rewrite Hname, Hl. erewrite (pbind_Ok (plift _)) by reflexivity.
    apply pelse_Ok. erewrite pbind_Ok by (unfold static_attach, response_filter_create; rewrite u_alloc_ok; reflexivity). fold rs. fold c1.
    rewrite (pbind_Ok _ _ _ _ _ (set_header_fields_spec e d acc modified c1 Hh Hd Hacc)). cbn [c1 pc_rq pc_w pc_out]. fold rs. fold asis. fold rs'.
    erewrite (pbind_Ok pget) by reflexivity. cbn [pc_rq]. rewrite decide_False by done.
    erewrite pbind_Ok by (unfold pignore; change (mkPc _ _ _) with c2 at 1; rewrite E2; reflexivity). exact E3.
  - rewrite Ehd. by apply (set_fields_head []); [|destruct asis; repeat (apply Forall_cons; split; [done|]); apply Forall_nil].
  - rewrite Ehd. by apply (set_fields_head [_]); [|destruct asis; repeat (apply Forall_cons; split; [done|]); apply Forall_nil].
  - rewrite Ehd. destruct asis; [by apply (set_fields_head [_; _; _; _] [])|by apply (set_fields_head [_; _] [])].
  - intros Ha. rewrite Ehd, Ha. apply (set_fields_head [_; _; _] [_]); [done|]. by apply Forall_cons.
Qed.
End files.

Section heads.
Context {L : Libu} {LS : LibuSpec L} {LM : LibuMem L} {DR CR D C D2 St T Ct M : Type} {DOR : DevOps DR} {COR : CodecOps CR}.
Context {DO2 : DevOps D2} {SD : SesDriver St} {DOT : DevOps T} {COT : CodecOps Ct} {HM : HMap (embres (request DR CR -> page St D C)) M}.
Variables (f0 FILENAME_MAX rf_size fuel n k : nat) (env : ses_env) (timer : bool).
Variable tmpfile_open : nat -> option (io T Ct).
Variable stat_size : list byte -> option nat.
Variable emb : emb_state M.
#[local] Hint Extern 0 (CodecOps (rfilter D C)) => exact (page_filter_ops f0 FILENAME_MAX env) : typeclass_instances.

(** To a HEAD request for an embedded file nothing is sent, not even the header: the filter
    prints it when something is written through it, and a stream on which nothing was
    written drops its codecs when it is released. *)
Theorem emb_head_silent (c : @pconn DR CR D C D2 St T) (name : list byte) (e : embfile) (d acc : bool) (modified : list byte) :
  resolved_filename (pc_rq c).1 = Some name -> emb_lookup name emb = (emb, Ok (ET_FILE e)) -> rq_method (pc_rq c).1 = HM_HEAD ->
  header_ok (rs_header (w_rs (pc_w c))) -> u_tt_to_rfc822 (ef_mtime e) = Ok modified ->
  (request_is_encoding_accepted (bs "deflate") (pc_rq c).1).2 = Ok acc -> io_codecs (pc_out c) = [] -> w_alloc (io_w (pc_out c)) = false ->
  exists c', supemb_serve f0 FILENAME_MAX rf_size fuel n k env timer tmpfile_open stat_size (Some d) emb c = (c', Ok tt) /\
    rs_status (w_rs (pc_w c')) = rs_status (w_rs (pc_w c)) /\
    forall ss, io_codecs_remove fuel (see (w_rs (pc_w c')) ss (pc_out c')) = (pc_out c, Ok tt).
Proof.
  intros Hname Hl Hm Hh Hd Hacc Hcs Ha. set (rs := w_rs (pc_w c)) in *.
  set (c1 := mkPc (pc_rq c) (pc_w c) (io_codec_add_tail (pc_out c) (mkRf rs None false false (replicate RFBUFSZ x00) 0 None))).
  eexists. split; [|split].
  - unfold supemb_serve. erewrite (pbind_Ok pget) by reflexivity. rewrite Hname, Hl. erewrite (pbind_Ok (plift _)) by reflexivity.
    apply pelse_Ok. erewrite pbind_Ok by (unfold static_attach, response_filter_create; rewrite u_alloc_ok; reflexivity). fold rs. fold c1.
    rewrite (pbind_Ok _ _ _ _ _ (set_header_fields_spec e d acc modified c1 Hh Hd Hacc)). cbn [c1 pc_rq pc_w pc_out].
    erewrite (pbind_Ok pget) by reflexivity. cbn [pc_rq]. rewrite decide_True by done. reflexivity.
  - cbn [pc_w w_rs]. fold rs. by destruct rs.
  - intros ss. cbn [pc_w w_rs pc_out]. unfold see, io_codecs_remove, io_codec_add_tail. rewrite Hcs. cbn [app map set_codecs io_codecs io_w]. rewrite Ha.
    destruct (pc_out c). cbn in *. by subst.
Qed.

(** A failure to write is taken for success: a response that breaks off in the middle is
    reported as served. *)
Theorem emb_write_failure_ignored (c c1 c2 c3 : @pconn DR CR D C D2 St T) (name : list byte) (e : embfile) (d asis : bool) :
  resolved_filename (pc_rq c).1 = Some name -> emb_lookup name emb = (emb, Ok (ET_FILE e)) ->
  (static_attach rf_size;;; supemb_static_set_header_fields (Some d) e) c = (c1, Ok asis) -> rq_method (pc_rq c1).1 <> HM_HEAD ->
  static_write f0 FILENAME_MAX fuel env (ef_data e) c1 = (c2, Fail) -> static_remove f0 FILENAME_MAX fuel env c2 = (c3, Ok tt) ->
  supemb_serve f0 FILENAME_MAX rf_size fuel n k env timer tmpfile_open stat_size (Some d) emb c = (c3, Ok tt).
Proof.
  intros Hname Hl H1 Hm Hw Hr. unfold supemb_serve. erewrite (pbind_Ok pget) by reflexivity. rewrite Hname, Hl.
  erewrite (pbind_Ok (plift _)) by reflexivity. apply pelse_Ok. apply pbind_inv in H1 as (c0 & [] & H0 & H1).
  rewrite (pbind_Ok _ _ _ _ _ H0), (pbind_Ok _ _ _ _ _ H1). erewrite (pbind_Ok pget) by reflexivity. rewrite decide_False by done.
  erewrite pbind_Ok; [exact Hr|]. unfold pignore. by rewrite Hw.
Qed.
End heads.

(** ** Evaluation *)

(** A map as a list of pairs. *)
#[local] Instance list_hmap (V : Type) : HMap V (list (list byte * V)) := {|
  hm_new := Some [];
  hm_put := fun m k v => if bool_decide (k ∈ map fst m) then None else Some ((k, v) :: m);
  hm_del := fun m k => Some (List.filter (fun kv => negb (bool_decide (kv.1 = k))) m);
  hm_get := fun m k => snd <$> List.find (fun kv => bool_decide (kv.1 = k)) m;
  hm_count := length;
  hm_vals := map snd
|}.

#[local] Instance list_hmap_spec (V : Type) : HMapSpec V (list (list byte * V)).
Proof.
  assert (forall m k, hm_get (V:=V) m k = None <-> k ∉ map fst m) as Hn.
  { intros m k. cbn. induction m as [|[k' v] m IH]; cbn; [split; [intros _; apply not_elem_of_nil|done]|].
    case_bool_decide as E; cbn; rewrite not_elem_of_cons; [split; [done|intros [? _]; congruence]|].
    rewrite IH. split; [intros ?; split; [congruence|done]|by intros [_ ?]]. }
  split.
  - exists []. done.
  - intros m k v Hk. apply Hn in Hk. exists ((k, v) :: m). cbn. rewrite bool_decide_false by done. split_and!; [done| |done].
    intros k'. case_decide as E; [subst; by rewrite bool_decide_true|]. by rewrite bool_decide_false by congruence.
  - intros m k _. eexists. split; [done|]. intros k'. cbn. induction m as [|[k2 v] m IH]; cbn; [by case_decide|].
    destruct (decide (k2 = k)) as [->|E2].
    + rewrite (bool_decide_true (k = k)) by done. cbn. rewrite IH. destruct (decide (k' = k)) as [->|E]; [done|]. by rewrite (bool_decide_false (k = k')) by congruence.
    + rewrite (bool_decide_false (k2 = k)) by done. cbn. destruct (decide (k2 = k')) as [->|E3].
      * by rewrite bool_decide_true, decide_False by congruence.
      * rewrite bool_decide_false by done. apply IH.
  - intros m. cbn. by rewrite length_map.
Qed.

#[local] Instance no_driver : SesDriver unit := {|
  drv_load := fun _ st ss => (st, ss, Ok tt);
  drv_save := fun _ st ss => (st, ss, Ok tt);
  drv_remove := fun _ st ss => (st, ss, Ok tt);
  drv_mtime := fun _ _ _ => 0%Z
|}.

Abbreviation page_fun := (request io_mem no_codec -> page unit io_mem no_codec).
Definition hello_file : embfile := mkEf (bs "/www/a.txt") (bs "embedded text") false false 784111777 (bs "text/plain") 13.
Definition hello_page : page_fun := fun _ => PWrite (bs "dynamic") (fun _ => PEnd).
Definition small_site : list (embres page_fun) := [ET_FILE hello_file; ET_PAGE (bs "/www/p.kl1") hello_page].
Definition site_state : emb_state (list (list byte * embres page_fun)) :=
  mkEmb 1 (Some [(bs "/www/p.kl1", ET_PAGE (bs "/www/p.kl1") hello_page); (bs "/www/a.txt", ET_FILE hello_file)]).

Lemma emb_site_found_witness :
  exists s names, emb_init (register_all small_site) (mkEmb 0 None) = (s, Ok tt) /\
    (forall r, r ∈ small_site -> emb_lookup (res_filename r) s = (s, Ok r)) /\
    (forall f, f ∉ map res_filename small_site -> emb_lookup f s = (s, Fail)) /\
    emb_list (L:=libu_ref) s = (s, Ok (map Some names ++ [None])) /\ names ≡ₚ map res_filename small_site.
Proof.
  apply (emb_site_found (L:=libu_ref) (register_all small_site) small_site).
  - reflexivity.
  - discriminate.
  - compute_decide.
  - compute_decide.
Defined.

Lemma emb_file_contents_witness : emb_to_ubuf (L:=libu_ref) 10 20 (bs "/www/a.txt") site_state = (site_state, Ok (bs "embedded text")).
Proof.
  apply (emb_file_contents (L:=libu_ref) 10 20 site_state hello_file (bs "/www/a.txt")).
  - vm_compute. reflexivity.
  - lia.
  - cbn. lia.
Defined.

Definition file_conn (m : method) : @pconn io_mem no_codec io_mem no_codec io_mem unit io_mem :=
  mkPc (set_resolved_filename (set_rq_method rq0 m) (Some (bs "/www/a.txt")), [])
       (mkWorld ses_zero (mkRs header_create (mem_io []) 200 m false) tt) (io_mem_create (replicate 600 x00) 600 false).
Definition file_rs : response io_mem no_codec :=
  set_rs_header (mkRs header_create (mem_io []) 200 HM_GET false)
    (set_fields (L:=libu_ref) (static_fields hello_file (bs "Sun, 06 Nov 1994 08:49:37 GMT") false) header_create).
Abbreviation serve_emb m :=
  (supemb_serve (L:=libu_ref) (N.to_nat 9000) 1000 (N.to_nat 8000) (N.to_nat 9000) 10 10 env_f true
     (fun _ => None : option (io io_mem no_codec)) (fun _ => None) (Some true) site_state (file_conn m)).

Lemma emb_file_output_witness :
  exists c', serve_emb HM_GET = (c', Ok tt) /\
    w_rs (pc_w c') = file_rs /\ writable (pc_out c') /\
    outstream (pc_out c') = outstream (pc_out (file_conn HM_GET)) ++ header_text file_rs ++ bs "embedded text" /\
    head (vals (rs_header file_rs) (bs "Content-Type")) = Some (bs "text/plain") /\
    head (vals (rs_header file_rs) (bs "Last-Modified")) = Some (bs "Sun, 06 Nov 1994 08:49:37 GMT") /\
    head (vals (rs_header file_rs) (bs "Content-Length")) = Some (fmt_u (u32 (Z.of_nat 13))) /\
    (false = true -> head (vals (rs_header file_rs) (bs "Content-Encoding")) = Some (bs "deflate")).
Proof.
  apply (emb_file_output (L:=libu_ref) (N.to_nat 9000) 1000 (N.to_nat 8000) (N.to_nat 9000) 10 10 env_f true
     (fun _ => None) (fun _ => None) site_state (file_conn HM_GET) (bs "/www/a.txt") hello_file true false (bs "Sun, 06 Nov 1994 08:49:37 GMT")).
  - reflexivity.
  - vm_compute. reflexivity.
  - discriminate.
  - discriminate.
  - split; [reflexivity|]. by apply Forall_nil.
  - vm_compute. reflexivity.
  - vm_compute. reflexivity.
  - split_and!.
    + split; [vm_compute; reflexivity|]. vm_compute. repeat (apply Forall_cons; split; [split; by eexists|]). by apply Forall_nil.
    + vm_compute. discriminate.
    + vm_compute. reflexivity.
    + apply Nat.leb_le. vm_compute. reflexivity.
  - by split.
  - unfold room. compute_decide.
  - apply Nat.ltb_lt. vm_compute. reflexivity.
  - compute_decide.
Defined.

Lemma emb_head_silent_witness :
  exists c', serve_emb HM_HEAD = (c', Ok tt) /\ rs_status (w_rs (pc_w c')) = 200%Z /\
    forall ss, io_codecs_remove (CO:=page_filter_ops (L:=libu_ref) (N.to_nat 9000) 1000 env_f) (N.to_nat 9000) (see (w_rs (pc_w c')) ss (pc_out c')) = (pc_out (file_conn HM_HEAD), Ok tt).
Proof.
  apply (emb_head_silent (L:=libu_ref) (N.to_nat 9000) 1000 (N.to_nat 8000) (N.to_nat 9000) 10 10 env_f true
     (fun _ => None) (fun _ => None) site_state (file_conn HM_HEAD) (bs "/www/a.txt") hello_file true false (bs "Sun, 06 Nov 1994 08:49:37 GMT")).
  - reflexivity.
  - vm_compute. reflexivity.
  - reflexivity.
  - split; [reflexivity|]. by apply Forall_nil.
  - vm_compute. reflexivity.
  - vm_compute. reflexivity.
  - reflexivity.
  - reflexivity.
Defined.

(** A stream of 0 bytes: the write fails, the file counts as served. *)
Example write_failure :
  let c := mkPc (pc_rq (file_conn HM_GET)) (pc_w (file_conn HM_GET)) (io_mem_create [] 0 false) in
  let big := mkEf (bs "/www/a.txt") (replicate (N.to_nat 9000) "x"%byte) false false 784111777 (bs "text/plain") (N.to_nat 9000) in
  let '(c1, _) := (static_attach (L:=libu_ref) (N.to_nat 8000);;; supemb_static_set_header_fields (L:=libu_ref) (Some true) big) c in
  (static_write (L:=libu_ref) (N.to_nat 9000) 1000 (N.to_nat 30000) env_f (ef_data big) c1).2 = Fail /\
  (supemb_serve_static (L:=libu_ref) (N.to_nat 9000) 1000 (N.to_nat 8000) (N.to_nat 30000) env_f (Some true) big c).2 = Ok tt.
Proof. vm_compute. by split. Qed.

(** After [emb_term] the table does not come back: [emb_init] counts on from where it was. *)
Example emb_no_return :
  let unregister := pret tt in
  let '(s1, _) := emb_term (M:=list (list byte * embres page_fun)) unregister site_state in
  let '(s2, r) := emb_init (register_all small_site) s1 in
  r = Ok tt /\ em_map s2 = None.
Proof. vm_compute. by split. Qed.
