(* ===== verification/Coder.v ===== *)
(** Codecs that change what crosses them, alone and in a chain, under a stream.

    [Coder] is the contract of a codec that turns its whole input into some output: the
    relation [co_rel st s o] says that a codec in state [st] which is fed [s], in any pieces,
    and then flushed gives out [o].  A chain of coders is again one ([chain_rel]), whatever
    its buffers hold; writing to a stream with a chain appends the output of the chain
    ([io_coded_output]) and reading from one returns it ([coded_read]).  The loops of
    src/src/libio/io.c that drive a chain end, with a bound on their fuel by the number of
    bytes that cross each codec. *)

From S2P Require Import Prelude Libu Io IoSpec IoMem Codec Getline Filter.

(** [co_tail st]: the codec leaves [*dcount] as it was when flushing is complete, so that it
    can only be the last of a chain.  [co_flush0 st]: it can be flushed into no room at all. *)
Class Coder (K : Type) {CO : CodecOps K} := {
  co_rel : K -> list byte -> list byte -> Prop;
  co_tail : K -> bool;
  co_flush0 : K -> bool;
  co_transform (st : K) (cap : nat) (src rest o : list byte) :
    co_rel st (src ++ rest) o -> 0 < cap -> src <> [] ->
    exists st' out c o', c_transform st cap src = (st', Some (out, c)) /\ c <= length src /\
      length out <= cap /\ (c <> 0 \/ out <> []) /\
      (out = [] -> length src <= CODEC_BUFSZ -> c = length src) /\
      o = out ++ o' /\ co_rel st' (drop c src ++ rest) o' /\
      co_tail st' = co_tail st /\ co_flush0 st' = co_flush0 st;
  co_flush (st : K) (cap : nat) (o : list byte) :
    co_rel st [] o -> 0 < cap \/ co_flush0 st = true ->
    exists st', co_tail st' = co_tail st /\ co_flush0 st' = co_flush0 st /\
      ((exists k, c_flush st cap = (st', Some (CODEC_FLUSH_COMPLETE, [], k)) /\ o = [] /\
          (co_tail st = false -> k = 0 /\ co_rel st' [] [])) \/
       (exists out o', c_flush st cap = (st', Some (CODEC_FLUSH_CHUNK, out, length out)) /\
          length out <= cap /\ (0 < cap -> out <> []) /\ o = out ++ o' /\ co_rel st' [] o'))
}.

Lemma CODEC_BUFSZ_pos : 0 < CODEC_BUFSZ.
Proof. apply Nat.ltb_lt. by vm_compute. Qed.

(** A tagged union of two kinds of codecs. *)
#[global] Instance sum_ops {A B : Type} {CA : CodecOps A} {CB : CodecOps B} : CodecOps (A + B) := {|
  c_transform := fun st cap src =>
    match st with
    | inl a => let '(a', r) := c_transform a cap src in (inl a', r)
    | inr b => let '(b', r) := c_transform b cap src in (inr b', r)
    end;
  c_flush := fun st cap =>
    match st with
    | inl a => let '(a', r) := c_flush a cap in (inl a', r)
    | inr b => let '(b', r) := c_flush b cap in (inr b', r)
    end
|}.

#[global] Instance sum_coder {A B : Type} {CA : CodecOps A} {CB : CodecOps B} {KA : Coder A} {KB : Coder B} : Coder (A + B).
Proof.
  refine {| co_rel := fun st s o => match st with inl a => co_rel a s o | inr b => co_rel b s o end;
            co_tail := fun st => match st with inl a => co_tail a | inr b => co_tail b end;
            co_flush0 := fun st => match st with inl a => co_flush0 a | inr b => co_flush0 b end |}.
  - intros [a|b] cap src rest o H Hc Hs;
      destruct (co_transform _ cap src rest o H Hc Hs) as (st' & out & c & o' & E & P); cbn [c_transform sum_ops];
      rewrite E; [exists (inl st')|exists (inr st')]; eexists _, _, _; by split.
  - intros [a|b] cap o H Hc;
      destruct (co_flush _ cap o H Hc) as (st' & H1 & H2 & [(k & E & P)|(out & o' & E & P)]); cbn [c_flush sum_ops];
      rewrite E; [exists (inl st')|exists (inl st')|exists (inr st')|exists (inr st')];
      (do 2 (split; [done|])); ((left; by eexists)||(right; by eexists _, _)).
Defined.

(** The null codec passes everything on. *)
#[global] Instance null_coder : Coder codec_null.
Proof.
  refine {| co_rel := fun _ s o => s = o; co_tail := fun _ => false; co_flush0 := fun _ => true |}.
  - intros [] cap src rest o <- Hc Hs. cbn [c_transform codec_null_ops]. unfold null_transform.
    rewrite decide_False by (intros [?|?]; [lia|done]). destruct src as [|b src]; [done|].
    set (wr := min (length (b :: src)) cap). assert (0 < wr <= length (b :: src) /\ wr <= cap) as [H1 H2] by (unfold wr; cbn [length]; lia).
    clearbody wr. eexists _, _, _, (drop wr (b :: src) ++ rest). split; [done|].
    assert (length (take wr (b :: src)) = wr) as Hl by (rewrite length_take; lia).
    rewrite Hl. split_and!; try done; [lia|left; lia| |by rewrite app_assoc, take_drop].
    intros Ht. rewrite Ht in Hl. simpl in Hl. lia.
  - intros [] cap o <- _. exists Null. do 2 (split; [done|]). left. by eexists.
Defined.

Section chain.
Context {K : Type} {CO : CodecOps K} {CK : Coder K}.
Implicit Types (k : codec K) (cs : list (codec K)).

(** [chain_rel cs s o w]: the chain, fed [s] and flushed, gives [o]; [w] counts the bytes
    that still have to go into and out of each codec. *)
Fixpoint chain_rel cs (s o : list byte) (w : nat) : Prop :=
  match cs with
  | [] => False
  | [k] => co_rel (c_state k) s o /\ w = length s + length o
  | k :: rest =>
      exists m w', co_rel (c_state k) s m /\ co_tail (c_state k) = false /\
        (2 <= length rest -> co_flush0 (c_state k) = true) /\
        chain_rel rest (cwin k ++ m) o w' /\ w = length s + length m + w'
  end.

(** Only the last codec of the chain matters for [co_tail]. *)
Fixpoint chain_tail cs : bool :=
  match cs with [] => false | [k] => co_tail (c_state k) | _ :: rest => chain_tail rest end.

Lemma chain_rel_cons k cs (s o : list byte) (w : nat) : cs <> [] ->
  chain_rel (k :: cs) s o w <->
  exists m w', co_rel (c_state k) s m /\ co_tail (c_state k) = false /\
    (2 <= length cs -> co_flush0 (c_state k) = true) /\
    chain_rel cs (cwin k ++ m) o w' /\ w = length s + length m + w'.
Proof. by destruct cs. Qed.

Lemma chain_tail_cons k cs : cs <> [] -> chain_tail (k :: cs) = chain_tail cs.
Proof. by destruct cs. Qed.

Lemma chain_rel_work cs (s o : list byte) (w : nat) : chain_rel cs s o w -> length s + length o <= w.
Proof.
  revert s w. induction cs as [|k [|k2 rest] IH]; intros s w H; [done|destruct H as [_ ->]; lia|].
  destruct H as (m & w' & _ & _ & _ & H & ->). apply IH in H. rewrite length_app in H. lia.
Qed.

(** The buffer of a codec of a chain: an empty window starts at the beginning. *)
Definition codec_ok k : Prop := codec_wf k /\ (ccount k = 0 -> coff k = 0).

Lemma codec_ok_fresh (st : K) : codec_ok (mkCodec st (replicate CODEC_BUFSZ x00) 0 0).
Proof. split; [split; [apply length_replicate|simpl; lia]|done]. Qed.

Lemma codec_ok_state k (st : K) : codec_ok k -> codec_ok (mkCodec st (cbuf k) (ccount k) (coff k)).
Proof. by intros [[? ?] ?]. Qed.

Lemma cwin_length k : codec_wf k -> length (cwin k) = ccount k.
Proof. intros [H1 H2]. apply length_mread. lia. Qed.

(** What a pass of some bytes through a chain does. *)
Definition passed cs (src rest o : list byte) (w : nat) cs' (out : list byte) (c : nat) : Prop :=
  Forall codec_ok cs' /\ length cs' = length cs /\ chain_tail cs' = chain_tail cs /\ c <= length src /\
  exists o' w', o = out ++ o' /\ chain_rel cs' (drop c src ++ rest) o' w' /\ w' < w.

(** Draining the buffer of a codec into the rest of the chain. *)
Lemma codec_buffer_coded
    (tr : list (codec K) -> nat -> list byte -> list (codec K) * res (list byte * nat))
    k cs (cap : nat) (m o : list byte) (w : nat) :
  (forall src, src <> [] -> chain_rel cs (src ++ m) o w ->
     exists cs' out c, tr cs cap src = (cs', Ok (out, c)) /\ passed cs src m o w cs' out c /\
       length out <= cap /\ (c <> 0 \/ out <> []) /\ (out = [] -> length cs = 1 -> length src <= CODEC_BUFSZ -> c = length src)) ->
  codec_ok k -> Forall codec_ok cs -> chain_rel cs (cwin k ++ m) o w ->
  exists k' cs' out o' w', io_transform_codec_buffer tr k cs cap = (k', cs', Ok out) /\ codec_ok k' /\
    Forall codec_ok cs' /\ length cs' = length cs /\ chain_tail cs' = chain_tail cs /\ c_state k' = c_state k /\ length out <= cap /\
    o = out ++ o' /\ chain_rel cs' (cwin k' ++ m) o' w' /\ w' <= w /\ ccount k' <= ccount k /\
    (ccount k <> 0 -> w' < w) /\ (ccount k <> 0 -> out = [] -> ccount k' < ccount k) /\
    (out = [] -> length cs = 1 -> ccount k' = 0) /\ (ccount k = 0 -> k' = k /\ out = []).
Proof.
  intros Htr Hk Hcs Hr. pose proof (cwin_length k (proj1 Hk)) as Hl. unfold io_transform_codec_buffer.
  destruct (decide (ccount k = 0)) as [H0|H0].
  { exists k, cs, [], o, w. rewrite H0. split_and!; try done; simpl; try lia; naive_solver. }
  destruct (Htr (cwin k)) as (cs' & out & c & E & (P1 & P2 & P2' & P3 & o' & w' & P4 & P5 & P6) & H1 & H2 & H3); [|done|].
  { intros E. rewrite E in Hl. by simpl in Hl. }
  fold (cwin k). rewrite E. set (k' := mkCodec _ _ _ _).
  destruct Hk as [[Hk1 Hk2] Hk3].
  assert (cwin k' = drop c (cwin k)) as Hw.
  { unfold cwin, k'. simpl. rewrite drop_mread. case_decide; [done|]. by replace (ccount k - c) with 0 by lia. }
  exists k', cs', out, o', w'. rewrite Hw. split_and!; try done; try (simpl; lia).
  - split; [split; [done|]|]; simpl; case_decide; lia.
  - intros _ Ho. simpl. destruct H2; [lia|done].
  - intros Ho Hc1. simpl. rewrite (H3 Ho Hc1) by lia. lia.
Qed.

(** The window of a codec after its output was put behind it. *)
Lemma codec_fed k (st : K) (mid : list byte) :
  codec_ok k -> length mid <= CODEC_BUFSZ - ccount k - coff k ->
  let k' := mkCodec st (mwrite (cbuf k) (coff k + ccount k) mid) (ccount k + length mid) (coff k) in
  codec_ok k' /\ cwin k' = cwin k ++ mid.
Proof.
  intros [[H1 H2] H3] Hl k'. split; [split; [split|]|]; simpl; [rewrite length_mwrite; lia|lia| |].
  - intros H0. apply H3. lia.
  - unfold cwin. simpl. apply mread_snoc_off. lia.
Qed.

Lemma io_transform_coded (fuel : nat) cs (cap : nat) (src rest o : list byte) (w : nat) :
  Forall codec_ok cs -> chain_rel cs (src ++ rest) o w -> 0 < cap -> src <> [] -> w + length cs <= fuel ->
  exists cs' out c, io_transform fuel cs cap src = (cs', Ok (out, c)) /\ passed cs src rest o w cs' out c /\
    length out <= cap /\ (c <> 0 \/ out <> []) /\
    (out = [] -> length cs = 1 -> length src <= CODEC_BUFSZ -> c = length src).
Proof.
  revert cs src rest o w. induction fuel as [|fuel IH]; intros cs src rest o w Hok Hr Hcap Hsrc Hf.
  { destruct cs; [done|]. simpl in Hf. lia. }
  assert (0 < length src) as Hlen by (destruct src; [done|simpl; lia]).
  destruct cs as [|k [|k2 rs]]; [done| |].
  - destruct Hr as [Hr Hw]. destruct (co_transform _ cap src rest o Hr Hcap Hsrc)
      as (st' & out & c & o' & E & H1 & H2 & H3 & H4 & H5 & H6 & H7 & H8).
    cbn [io_transform]. rewrite E. eexists _, out, c. rewrite decide_False by naive_solver.
    split; [done|]. split_and!; try done; [|naive_solver].
    apply Forall_cons in Hok as [Hok _]. split_and!; try done; [apply Forall_singleton; exact (codec_ok_state k st' Hok)|].
    exists o', (length (drop c src ++ rest) + length o'). split_and!; try done.
    rewrite Hw, H5, !length_app, length_drop. destruct H3; [lia|]. destruct out; [done|simpl; lia].
  - set (cs := k2 :: rs) in *. assert (cs <> []) as Hne by done.
    apply (chain_rel_cons k cs) in Hr as (m & w1 & R1 & R2 & R3 & R4 & ->); [|done].
    apply Forall_cons in Hok as [Hk Hcs]. rewrite length_app in *. cbn [length] in Hf.
    destruct (codec_buffer_coded (io_transform fuel) k cs cap m o w1) as
      (k1 & cs1 & out & o1 & w1' & E & B1 & B2 & B3 & B4 & B5 & B6 & B7 & B8 & B9 & _ & B10 & _ & _ & B11); [|done..|].
    { intros s Hs Hrel. apply IH; try done. lia. }
    assert (cs1 <> []) as Hne1 by (intros ->; done).
    assert (io_transform (S fuel) (k :: cs) cap src =
      let cavail := CODEC_BUFSZ - ccount k1 - coff k1 in
      if decide (src = [] \/ cavail = 0) then
        if decide (out = [] /\ (ccount k1 <> 0 \/ src <> [])) then io_transform fuel (k1 :: cs1) cap src
        else (k1 :: cs1, Ok (out, 0))
      else
        let '(st, r) := c_transform (c_state k1) cavail src in
        match r with
        | None => (mkCodec st (cbuf k1) (ccount k1) (coff k1) :: cs1, Fail)
        | Some (mid, c) =>
            let k2 := mkCodec st (mwrite (cbuf k1) (coff k1 + ccount k1) mid) (ccount k1 + length mid) (coff k1) in
            if decide (c = 0 /\ mid = []) then (k2 :: cs1, Fail)
            else if decide (c = 0 /\ out = []) then io_transform fuel (k2 :: cs1) cap src
            else (k2 :: cs1, Ok (out, c))
        end) as -> by (unfold cs in *; cbn [io_transform]; by rewrite E).
    cbv zeta. assert (length (k1 :: cs1) = length (k :: cs)) as Hlen1 by (cbn [length]; by rewrite B3).
    assert (chain_tail (k1 :: cs1) = chain_tail (k :: cs)) as Htl by (rewrite !chain_tail_cons by done; done).
    destruct (decide (src = [] \/ _)) as [[?|Hav]|Hav]; [done| |].
    + assert (ccount k <> 0) as Hc0.
      { intros H0. destruct (B11 H0) as [-> _]. destruct Hk as [_ Hk]. rewrite H0, Hk in Hav by done. pose proof CODEC_BUFSZ_pos. lia. }
      assert (chain_rel (k1 :: cs1) (src ++ rest) o1 (length src + length rest + length m + w1')) as Hr1.
      { apply chain_rel_cons; [done|]. exists m, w1'. rewrite B5, B3, length_app. by split_and!. }
      specialize (B10 Hc0). case_decide as Hd.
      * destruct Hd as [-> _]. destruct (IH (k1 :: cs1) src rest o1 _ ltac:(by constructor) Hr1 Hcap Hsrc) as (cs' & out & c & -> & (P1 & P2 & P3 & P4 & o2 & w2 & P5 & P6 & P7) & Q).
        { rewrite Hlen1. cbn [length]. lia. }
        exists cs', out, c. split; [done|]. rewrite Hlen1 in Q. split; [|done]. rewrite Hlen1, Htl in *. split_and!; try done.
        exists o2, w2. split_and!; try done; first [lia|by rewrite B7, P5].
      * exists (k1 :: cs1), out, 0. split; [done|]. split_and!; try done; [|right; intros ->; apply Hd; by split; [|right]].
        split_and!; try done; [by constructor|lia|]. exists o1, (length src + length rest + length m + w1').
        split_and!; try done. lia.
    + assert (0 < CODEC_BUFSZ - ccount k1 - coff k1) as Hav' by lia. rewrite B5.
      destruct (co_transform (c_state k) _ src rest m R1 Hav' Hsrc) as (st & mid & c & m' & -> & T1 & T2 & T3 & T4 & T5 & T6 & T7 & T8).
      destruct (codec_fed k1 st mid B1 T2) as [F1 F2]. cbv zeta in F1, F2. set (k3 := mkCodec st _ _ _) in *.
      rewrite decide_False by naive_solver.
      assert (chain_rel (k3 :: cs1) (drop c src ++ rest) o1 (length (drop c src ++ rest) + length m' + w1')) as Hr3.
      { apply chain_rel_cons; [done|]. exists m', w1'. rewrite F2, <- app_assoc, <- T5, B3. split_and!; try done; [by rewrite <- R2|].
        change (c_state k3) with st. by rewrite T8. }
      assert (length (drop c src ++ rest) + length m' + w1' < length src + length rest + length m + w1) as Hdec.
      { rewrite T5, !length_app, length_drop. destruct T3; [lia|]. destruct mid; [done|simpl; lia]. }
      assert (chain_tail (k3 :: cs1) = chain_tail (k :: cs)) as Htl3 by (rewrite !chain_tail_cons by done; done).
      assert (length (k3 :: cs1) = length (k :: cs)) as Hlen3 by (cbn [length]; by rewrite B3).
      case_decide as Hd.
      * destruct Hd as [-> ->]. rewrite drop_0 in *.
        destruct (IH (k3 :: cs1) src rest o1 _ ltac:(by constructor) Hr3 Hcap Hsrc) as (cs' & out & c & -> & (P1 & P2 & P3 & P4 & o2 & w2 & P5 & P6 & P7) & Q).
        { rewrite Hlen3. cbn [length]. lia. }
        exists cs', out, c. split; [done|]. rewrite Hlen3 in Q. split; [|done]. rewrite Hlen3, Htl3 in *. split_and!; try done.
        exists o2, w2. split_and!; try done; first [lia|by rewrite B7, P5].
      * exists (k3 :: cs1), out, c. split; [done|]. split_and!; try done; [|destruct (decide (c = 0)); [right; intros ->; by apply Hd|by left]].
        split_and!; try done; [by constructor|]. by exists o1, (length (drop c src ++ rest) + length m' + w1').
Qed.

(** What one chunk of flushing a chain does: the end, or a piece of the output. *)
Definition flushed cs (cap : nat) (o : list byte) (w : nat) cs' (r : res (flush_rc * list byte * nat)) : Prop :=
  Forall codec_ok cs' /\ length cs' = length cs /\ chain_tail cs' = chain_tail cs /\
  ((exists n, r = Ok (CODEC_FLUSH_COMPLETE, [], n) /\ o = [] /\
      (chain_tail cs = false -> n = 0 /\ exists w', chain_rel cs' [] [] w' /\ w' <= w)) \/
   (exists out o' w', r = Ok (CODEC_FLUSH_CHUNK, out, length out) /\ out <> [] /\ length out <= cap /\
      o = out ++ o' /\ chain_rel cs' [] o' w' /\ w' < w)).

Lemma flushed_weaken cs2 cs (cap : nat) (o : list byte) (w2 w : nat) cs' r :
  flushed cs2 cap o w2 cs' r -> length cs2 = length cs -> chain_tail cs2 = chain_tail cs -> w2 <= w ->
  flushed cs cap o w cs' r.
Proof.
  intros (H1 & H2 & H3 & H) H4 H5 H6. split_and!; [done|by rewrite H2|by rewrite H3|]. rewrite <- H5.
  destruct H as [(k & -> & -> & H)|(out & o' & w' & -> & ? & ? & -> & ? & ?)]; [left|right].
  - exists k. split_and!; try done. intros Ht. destruct (H Ht) as (-> & w' & ? & ?). split; [done|].
    exists w'. split; [done|lia].
  - exists out, o', w'. split_and!; try done. lia.
Qed.

(** Once a codec has nothing left, flushing goes on with the rest of the chain. *)
Lemma flushed_rest k cs1 (cap : nat) (o : list byte) (w1 w : nat) cs' r :
  flushed cs1 cap o w1 cs' r -> cs1 <> [] -> codec_ok k -> cwin k = [] -> co_rel (c_state k) [] [] ->
  co_tail (c_state k) = false -> (2 <= length cs1 -> co_flush0 (c_state k) = true) -> w1 <= w ->
  flushed (k :: cs1) cap o w (k :: cs') r.
Proof.
  intros (H1 & H2 & H3 & H) Hne Hk Hw Hr Ht H0 Hle. assert (cs' <> []) as Hne' by (by intros ->; destruct cs1).
  assert (forall o' w', chain_rel cs' [] o' w' -> chain_rel (k :: cs') [] o' w') as Hc.
  { intros o' w' Hr'. apply chain_rel_cons; [done|]. exists [], w'. rewrite Hw, H2. by split_and!. }
  split_and!; [by constructor|simpl; by rewrite H2|by rewrite !chain_tail_cons|]. rewrite !chain_tail_cons by done.
  destruct H as [(n & -> & -> & H)|(out & o' & w' & -> & ? & ? & -> & ? & ?)]; [left|right].
  - exists n. split_and!; try done. intros Htl. destruct (H Htl) as (-> & w' & ? & ?). split; [done|].
    exists w'. split; [by apply Hc|lia].
  - exists out, o', w'. split_and!; try done; [by apply Hc|lia].
Qed.

Lemma chain_flush_chunk_coded (fuel : nat) cs (cap : nat) (o : list byte) (w : nat) :
  Forall codec_ok cs -> chain_rel cs [] o w -> 0 < cap -> w + length cs <= fuel ->
  exists cs' r, io_chain_flush_chunk fuel cs cap = (cs', r) /\ flushed cs cap o w cs' r.
Proof.
  revert cs o w. induction fuel as [|fuel IH]; intros cs o w Hok Hr Hcap Hf.
  { destruct cs; [done|]. simpl in Hf. lia. }
  destruct cs as [|k [|k2 rs]]; [done| |].
  - destruct Hr as [Hr Hw]. apply Forall_cons in Hok as [Hok _]. cbn [io_chain_flush_chunk].
    destruct (co_flush _ cap o Hr (or_introl Hcap)) as (st & H1 & H2 & H). 
    assert (Forall codec_ok [mkCodec st (cbuf k) (ccount k) (coff k)]) as Hok'
      by (apply Forall_singleton; exact (codec_ok_state k st Hok)).
    destruct H as [(n & -> & -> & H)|(out & o' & -> & H3 & H4 & -> & H5)]; eexists _, _; (split; [done|]);
      split_and!; try done; [left|right].
    + exists n. split_and!; try done. intros Ht. destruct (H Ht) as [-> Hd]. split; [done|]. exists 0. split; [done|lia].
    + exists out, o', (length o'). split_and!; try done; [by apply H4|]. rewrite Hw, length_app.
      assert (out <> []) as Ho by (by apply H4). destruct out; [done|simpl; lia].
  - set (cs := k2 :: rs) in *. assert (cs <> []) as Hne by done.
    apply (chain_rel_cons k cs) in Hr as (m & w1 & R1 & R2 & R3 & R4 & ->); [|done].
    apply Forall_cons in Hok as [Hk Hcs]. cbn [length] in *.
    destruct (codec_buffer_coded (io_transform fuel) k cs cap m o w1) as
      (k1 & cs1 & out & o1 & w1' & E & B1 & B2 & B3 & B4 & B5 & B6 & B7 & B8 & B9 & B12 & B10 & _ & B13 & B11); [|done..|].
    { intros s Hs Hrel. apply io_transform_coded; try done. lia. }
    assert (cs1 <> []) as Hne1 by (intros ->; done).
    assert (io_chain_flush_chunk (S fuel) (k :: cs) cap =
      match out with
      | b :: out => (k1 :: cs1, Ok (CODEC_FLUSH_CHUNK, b :: out, S (length out)))
      | [] =>
          let sz := CODEC_BUFSZ - ccount k1 - coff k1 in
          let '(st, r) := c_flush (c_state k1) sz in
          match r with
          | None => (mkCodec st (cbuf k1) (ccount k1) (coff k1) :: cs1, Fail)
          | Some (er, mid, sz') =>
              let k2 := mkCodec st (mwrite (cbuf k1) (coff k1 + ccount k1) mid) (ccount k1 + sz') (coff k1) in
              if decide (er = CODEC_FLUSH_COMPLETE /\ ccount k2 = 0) then
                let '(rest2, r) := io_chain_flush_chunk fuel cs1 cap in (k2 :: rest2, r)
              else io_chain_flush_chunk fuel (k2 :: cs1) cap
          end
      end) as -> by (unfold cs in *; cbn [io_chain_flush_chunk]; by rewrite E).
    assert (length (k1 :: cs1) = length (k :: cs)) as Hlen1 by (cbn [length]; by rewrite B3).
    assert (forall j, chain_tail (j :: cs1) = chain_tail (k :: cs)) as Htl by (intros j; by rewrite !chain_tail_cons).
    destruct out as [|b out].
    2:{ assert (ccount k <> 0) as H0 by (intros H0; by destruct (B11 H0)). specialize (B10 H0).
        exists (k1 :: cs1), (Ok (CODEC_FLUSH_CHUNK, b :: out, S (length out))). split; [done|].
        split_and!; [by constructor|done|done|]. right. exists (b :: out), o1, (length m + w1').
        split_and!; try done; [|lia]. apply chain_rel_cons; [done|]. exists m, w1'. rewrite B5, B3. by split_and!. }
    simpl in B7. subst o1. cbv zeta.
    assert (0 < CODEC_BUFSZ - ccount k1 - coff k1 \/ co_flush0 (c_state k1) = true) as Hsz.
    { rewrite B5. destruct (decide (2 <= length cs)) as [H2|H2]; [right; by apply R3|]. left.
      assert (ccount k1 = 0) as H0.
      { apply B13; [done|]. destruct cs; [done|]. cbn [length] in *. lia. }
      destruct B1 as [_ B1]. rewrite H0, B1 by done. pose proof CODEC_BUFSZ_pos. lia. }
    assert (ccount k = 0 -> 0 < CODEC_BUFSZ - ccount k1 - coff k1) as Hsz0.
    { intros H0. destruct (B11 H0) as [-> _]. destruct B1 as [_ B1]. rewrite H0, B1 by done. pose proof CODEC_BUFSZ_pos. lia. }
    rewrite <- B5 in R1, R2, R3.
    destruct (co_flush (c_state k1) _ m R1 Hsz) as (st & F1 & F2 & [(n & -> & -> & F3)|(mid & m' & -> & F3 & F4 & -> & F5)]).
    + destruct (F3 R2) as [-> Hd]. destruct (codec_fed k1 st [] B1 ltac:(simpl; lia)) as [G1 G2]. cbv zeta in G1, G2.
      cbn [length] in G1, G2. set (k3 := mkCodec st _ _ _) in *. rewrite app_nil_r in G2.
      case_decide as Hdec.
      * destruct Hdec as [_ Hc0]. assert (cwin k3 = []) as Hw3.
        { apply nil_length_inv. rewrite cwin_length by apply G1. done. }
        rewrite <- G2, Hw3 in B8. destruct (IH cs1 o w1' B2 B8 Hcap ltac:(lia)) as (cs' & r & E2 & Hfl). rewrite E2.
        exists (k3 :: cs'), r. split; [done|].
        apply (flushed_weaken (k3 :: cs1) (k :: cs) cap o w1'); [|cbn [length]; by rewrite B3|done|simpl; lia].
        apply (flushed_rest k3 cs1 cap o w1'); try done; [exact (eq_trans F1 R2)|rewrite B3; intros H2; exact (eq_trans F2 (R3 H2))].
      * assert (ccount k3 <> 0) as Hc3 by (intros H0; by apply Hdec). simpl in Hc3. specialize (B10 ltac:(lia)).
        destruct (IH (k3 :: cs1) o w1' ltac:(by constructor)) as (cs' & r & -> & Hfl); [|done|cbn [length]; lia|].
        { apply chain_rel_cons; [done|]. exists [], w1'. rewrite G2, B3. split_and!; try done; [exact (eq_trans F1 R2)|intros H2; exact (eq_trans F2 (R3 H2))]. }
        exists cs', r. split; [done|]. apply (flushed_weaken _ _ _ _ _ _ _ _ Hfl); [cbn [length]; by rewrite B3|done|simpl; lia].
    + rewrite decide_False by (by intros [? _]).
      destruct (codec_fed k1 st mid B1 F3) as [G1 G2]. cbv zeta in G1, G2. set (k3 := mkCodec st _ _ _) in *.
      rewrite length_app in *. assert (length m' + w1' < length mid + length m' + w1) as Hlt.
      { destruct (decide (ccount k = 0)) as [H0|H0]; [|specialize (B10 H0); lia]. specialize (F4 (Hsz0 H0)).
        destruct mid; [done|simpl; lia]. }
      destruct (IH (k3 :: cs1) o (length m' + w1') ltac:(by constructor)) as (cs' & r & -> & Hfl); [|done|cbn [length]; lia|].
      { apply chain_rel_cons; [done|]. exists m', w1'. rewrite G2, B3, <- app_assoc. split_and!; try done; [exact (eq_trans F1 R2)|intros H2; exact (eq_trans F2 (R3 H2))]. }
      exists cs', r. split; [done|]. apply (flushed_weaken _ _ _ _ _ _ _ _ Hfl); [cbn [length]; by rewrite B3|done|lia].
Qed.
End chain.

(** ** Writing *)
Section coded_writing.
Context {L : Libu} {LM : LibuMem L} {D K : Type} {DO : DevOps D} {DK : DevSink D} {CO : CodecOps K} {CK : Coder K}.
Implicit Types i : io D K.

(** A stream whose chain, fed [s] and flushed, will give [o]. *)
Definition coding i (s o : list byte) (w : nat) : Prop :=
  wwf (io_w i) /\ Forall codec_ok (io_codecs i) /\ chain_rel (io_codecs i) s o w.

(** What writing through codecs leaves alone. *)
Definition same_but_coded i i' : Prop :=
  io_r i' = io_r i /\ io_refcnt i' = io_refcnt i /\ io_name i' = io_name i /\
  length (io_codecs i') = length (io_codecs i) /\ chain_tail (io_codecs i') = chain_tail (io_codecs i).

Lemma set_codecs_base_all i : set_codecs (base i) (io_codecs i) = i.
Proof. by destruct i. Qed.

Lemma write_loop_coded (fuel n : nat) i (rem rest o : list byte) (w m : nat) :
  coding i (rem ++ rest) o w -> w_alloc (io_w i) = true -> room i (length o + m) ->
  w + length (io_codecs i) <= fuel -> length rem + length o < n ->
  exists i' o' w', write_loop fuel n i rem = (i', Ok tt) /\ coding i' rest o' w' /\ w_alloc (io_w i') = true /\
    room i' (length o' + m) /\ outstream i' ++ o' = outstream i ++ o /\ w' <= w /\ same_but_coded i i'.
Proof.
  revert i rem o w. induction n as [|n IH]; intros i rem o w Hi Ha Hr Hf Hn; [lia|].
  destruct (decide (rem = [])) as [->|Hrem]; [by exists i, o, w|].
  destruct Hi as (Hw & Hok & Hch).
  assert (writable (base i)) as Wb by done.
  destruct (flush_if_full_spec (base i) _ Wb Ha Hr) as (j & Ej & Wj & Hlt & Hbs & Rj & Oj & Aj & (Sr & Sc & Sf & Sn)).
  assert (flush_if_full i = (set_codecs j (io_codecs i), Ok tt)) as Ei
    by (rewrite <- (set_codecs_base_all i), flush_if_full_codecs, Ej; done).
  destruct (io_transform_coded fuel (io_codecs i) (IO_WR_BUFSZ - wcount (io_w j)) rem rest o w Hok Hch ltac:(lia) Hrem Hf)
    as (cs & out & c & Et & (P1 & P2 & P3 & P4 & o1 & w1 & -> & P6 & P7) & Ho & Hprog & _).
  rewrite length_app, <- Nat.add_assoc in Rj. rewrite length_app in Hn.
  destruct (wbuf_put_spec j out _ Wj Aj ltac:(lia) Rj) as (W1 & A1 & R1 & O1 & (T1 & T2 & T3 & T4)).
  set (i2 := set_codecs (wbuf_put j out) cs).
  assert (write_loop fuel (S n) i rem = write_loop fuel n i2 (drop c rem)) as ->.
  { destruct rem as [|x rem]; [done|]. cbn [write_loop]. rewrite Ei. cbn [set_codecs io_w io_codecs]. rewrite Hbs.
    unfold io_transfer. destruct (io_codecs i) as [|k ks] eqn:Ek; [done|]. rewrite Et.
    rewrite decide_False by (intros [? ?]; destruct Hprog; done). done. }
  destruct (IH i2 (drop c rem) o1 w1) as (i' & o' & w' & E & Hc & Ha' & R' & O' & Hle & (U1 & U2 & U3 & U4 & U5)).
  { by split_and!; [apply W1| |]. } { done. } { done. } { change (io_codecs i2) with cs. lia. }
  { rewrite length_drop. destruct Hprog; [lia|]. destruct out; [done|simpl in *; lia]. }
  exists i', o', w'. split_and!; try done; [|lia|]; [|].
  - rewrite O'. change (outstream i2) with (outstream (wbuf_put j out)). rewrite O1, Oj, <- app_assoc. done.
  - change (io_codecs i2) with cs in *. split_and!; [exact (eq_trans U1 Sr)|exact (eq_trans U2 Sf)|exact (eq_trans U3 Sn)|lia|by rewrite U5].
Qed.

Lemma io_write_coded (fuel : nat) i (data rest o : list byte) (w m : nat) :
  coding i (data ++ rest) o w -> room i (length o + m) ->
  w + length (io_codecs i) <= fuel -> length data + length o < fuel ->
  exists i' o' w', io_write fuel i data = (i', Ok (length data)) /\ coding i' rest o' w' /\ w_alloc (io_w i') = true /\
    room i' (length o' + m) /\ outstream i' ++ o' = outstream i ++ o /\ w' <= w /\ same_but_coded i i'.
Proof.
  intros Hi Hr Hf Hn. unfold io_write. pose proof Hi as (Hw & Hok & Hch). destruct (w_alloc (io_w i)) eqn:Ha.
  - destruct (write_loop_coded fuel fuel i data rest o w m Hi Ha Hr Hf Hn) as (i' & o' & w' & -> & H).
    by exists i', o', w'.
  - unfold io_wbuf_alloc. rewrite u_alloc_ok. unfold wwf in Hw. rewrite Ha in Hw. set (i1 := set_w i _).
    assert (outstream i1 = outstream i) as E by (unfold outstream; simpl; by rewrite Hw, !mread_0).
    destruct (write_loop_coded fuel fuel i1 data rest o w m) as (i' & o' & w' & -> & H); try done.
    + split_and!; try done. unfold wwf. simpl. rewrite length_replicate. split_and!; [done..|lia].
    + exists i', o', w'. rewrite E in H. by split.
Qed.

Lemma io_writes_coded (fuel : nat) (chunks : list (list byte)) i (rest o : list byte) (w m : nat) :
  coding i (concat chunks ++ rest) o w -> room i (length o + m) -> w + length (io_codecs i) < fuel ->
  exists i' o' w', io_writes fuel i chunks = (i', Ok tt) /\ coding i' rest o' w' /\
    (chunks <> [] \/ w_alloc (io_w i) = true -> w_alloc (io_w i') = true) /\
    room i' (length o' + m) /\ outstream i' ++ o' = outstream i ++ o /\ w' <= w /\ same_but_coded i i'.
Proof.
  revert i o w. induction chunks as [|d chunks IH]; intros i o w Hi Hr Hf; cbn [io_writes concat] in *.
  { exists i, o, w. split_and!; try done. by intros [?|?]. }
  rewrite <- app_assoc in Hi. pose proof (chain_rel_work _ _ _ _ (proj2 (proj2 Hi))) as Hwk. rewrite length_app in Hwk.
  destruct (io_write_coded fuel i d (concat chunks ++ rest) o w m Hi Hr ltac:(lia) ltac:(lia))
    as (i1 & o1 & w1 & -> & H1 & H2 & H3 & H4 & H5 & (S1 & S2 & S3 & S4 & S5)).
  destruct (IH i1 o1 w1 H1 H3 ltac:(lia)) as (i' & o' & w' & -> & G1 & G2 & G3 & G4 & G5 & (T1 & T2 & T3 & T4 & T5)).
  exists i', o', w'. split_and!; try done; [intros _; apply G2; by right|congruence|lia|].
  split_and!; congruence.
Qed.

Lemma chain_flush_coded (fuel n : nat) i (o : list byte) (w m : nat) :
  coding i [] o w -> w_alloc (io_w i) = true -> room i (length o + m) ->
  w + length (io_codecs i) <= fuel -> IO_WR_BUFSZ <= fuel -> length o < n ->
  exists i', io_chain_flush fuel n i = (i', Ok tt) /\ wwf (io_w i') /\ room i' m /\
    outstream i' = outstream i ++ o /\ io_r i' = io_r i /\ io_refcnt i' = io_refcnt i.
Proof.
  pose proof IO_WR_BUFSZ_pos as Hp. revert i o w. induction n as [|n IH]; intros i o w (Hw & Hok & Hch) Ha Hr Hf Hbf Hn; [lia|].
  cbn [io_chain_flush]. destruct (chain_flush_chunk_coded fuel _ IO_WR_BUFSZ o w Hok Hch Hp Hf) as (cs & r & -> & Q1 & Q2 & _ & Q).
  destruct Q as [(k & -> & -> & _)|(out & o' & w' & -> & H1 & H2 & -> & H4 & H5)].
  { eexists. split; [done|]. rewrite app_nil_r. by split_and!. }
  rewrite decide_False, take_ge by lia. rewrite length_app in Hr, Hn. rewrite <- Nat.add_assoc in Hr.
  assert (writable (base i)) as Wb by done.
  destruct (put_flushing_spec fuel (base i) out _ Wb Ha Hr ltac:(lia)) as (j & Ej & Wj & Aj & Rj & Oj & S1 & S2).
  assert (0 < length out) as Hlo by (destruct out; [done|simpl; lia]).
  assert (put_flushing fuel (set_codecs i cs) out = (set_codecs j cs, Ok tt)) as ->.
  { change (set_codecs i cs) with (set_codecs (base i) cs). by rewrite put_flushing_codecs, Ej. }
  destruct (IH (set_codecs j cs) o' w') as (i' & -> & W' & R' & O' & T1 & T2); try done.
  { by split_and!; [apply Wj| |]. } { change (io_codecs (set_codecs j cs)) with cs. lia. } { lia. }
  exists i'. split_and!; try done; [|by rewrite T1|by rewrite T2]. rewrite O'. change (outstream (set_codecs j cs)) with (outstream j).
  by rewrite Oj, <- app_assoc.
Qed.
End coded_writing.

(** ** Reading *)
Section coded_reading.
Context {L : Libu} {LM : LibuMem L} {D K : Type} {DO : DevOps D} {DS : DevSource D} {CO : CodecOps K} {CK : Coder K}.
Implicit Types i : io D K.

(** Reading from [i], through its codecs, will return [s]. *)
Definition decoding i (s : list byte) (w : nat) : Prop :=
  rwf (io_r i) /\ Forall codec_ok (io_codecs i) /\ chain_tail (io_codecs i) = false /\
  (io_eof (io_r i) = true -> s = [] /\ ucount (io_r i) = 0 /\ src_rest (io_dev i) = []) /\
  exists o, s = rwin i ++ o /\ chain_rel (io_codecs i) (uwin i ++ src_rest (io_dev i)) o w.

(** What reading through codecs leaves alone. *)
Definition same_but_decoded i i' : Prop :=
  same_but_read i i' /\ length (io_codecs i') = length (io_codecs i).

Lemma same_but_decoded_trans i1 i2 i3 : same_but_decoded i1 i2 -> same_but_decoded i2 i3 -> same_but_decoded i1 i3.
Proof. intros [(? & ? & ?) ?] [(? & ? & ?) ?]. split; [split_and!|]; congruence. Qed.

Lemma underflow_transfer_coded (fuel : nat) i (s : list byte) (w : nat) :
  decoding i s w -> io_eof (io_r i) = false -> r_alloc (io_r i) = true -> rcount (io_r i) = 0 -> ucount (io_r i) <> 0 ->
  w + length (io_codecs i) <= fuel ->
  exists i' w', underflow_transfer fuel i = (i', Ok tt) /\ decoding i' s w' /\ w' < w /\ io_eof (io_r i') = false /\
    r_alloc (io_r i') = true /\ same_but_decoded i i'.
Proof.
  intros (Hwf & Hok & Htl & _ & o & -> & Hch) He Ha Hr Hu Hf. unfold underflow_transfer.
  unfold rwf in Hwf. rewrite Ha in Hwf. destruct Hwf as (Hz & Hb & Hub & Hro & Huo & Hu0). pose proof IO_RD_BUFSZ_pos as Hp.
  fold (uwin i). rewrite Hr, Hz, Nat.sub_0_r.
  assert (length (uwin i) = ucount (io_r i)) as Hlu by (apply length_mread; lia).
  destruct (io_transform_coded fuel (io_codecs i) IO_RD_BUFSZ (uwin i) (src_rest (io_dev i)) o w Hok Hch Hp) as
    (cs & out & c & Et & (P1 & P2 & P3 & P4 & o1 & w1 & -> & P6 & P7) & Ho & Hprog & _); [|done|].
  { intros E. rewrite E in Hlu. simpl in Hlu. lia. }
  assert (io_transfer fuel (io_codecs i) IO_RD_BUFSZ (uwin i) = (cs, Ok (out, c))) as ->
    by (unfold io_transfer; by destruct (io_codecs i)).
  rewrite decide_False by (intros [? ?]; destruct Hprog; done). eexists _, w1. split; [done|].
  unfold rwin at 1. rewrite Hr, mread_0, app_nil_l.
  split_and!; try done. split_and!; try done.
  - unfold rwf. simpl. rewrite Ha, length_mwrite by lia. split_and!; try done; try lia.
    + case_decide; lia.
    + intros H0. by rewrite decide_True.
  - by rewrite <- Htl.
  - simpl. by rewrite He.
  - exists o1. split.
    + unfold rwin. simpl. by rewrite mread_mwrite by lia.
    + simpl. replace (uwin _) with (drop c (uwin i)); [done|]. unfold uwin. simpl. rewrite drop_mread.
      case_decide as H0; [by rewrite H0|done].
Qed.

Lemma underflow_loop_coded (fuel n : nat) i (s : list byte) (w : nat) :
  decoding i s w -> r_alloc (io_r i) = true -> rcount (io_r i) = 0 ->
  w + length (io_codecs i) <= fuel -> w < n ->
  exists i' w', underflow_loop fuel n i = (i', Ok tt) /\ decoding i' s w' /\ w' <= w /\
    (rcount (io_r i') = 0 -> s = []) /\ same_but_decoded i i'.
Proof.
  revert i w. induction n as [|n IH]; intros i w Hd Ha Hr Hf Hn; [lia|]. cbn [underflow_loop].
  rewrite decide_False by lia. pose proof Hd as (Hwf & Hok & Htl & Heof & o & Hs & Hch).
  unfold rwf in Hwf. rewrite Ha in Hwf. destruct Hwf as (Hz & Hb & Hub & Hro & Huo & Hu0). pose proof IO_RD_BUFSZ_pos as Hp.
  assert (forall j w1, decoding j s w1 -> io_eof (io_r j) = false -> r_alloc (io_r j) = true -> rcount (io_r j) = 0 ->
    ucount (io_r j) <> 0 -> w1 <= w -> same_but_decoded i j ->
    exists i' w', (let '(i3, e) := underflow_transfer fuel j in match e with Ok _ => underflow_loop fuel n i3 | _ => (i3, e) end) = (i', Ok tt) /\
      decoding i' s w' /\ w' <= w /\ (rcount (io_r i') = 0 -> s = []) /\ same_but_decoded i i') as Hstep.
  { intros j w1 Dj Ej Aj Rj Uj Hle Sj. pose proof Sj as [_ Hlen].
    destruct (underflow_transfer_coded fuel j s w1 Dj Ej Aj Rj Uj ltac:(lia)) as (j2 & w2 & -> & D2 & H2 & E2 & A2 & S2).
    pose proof (same_but_decoded_trans _ _ _ Sj S2) as S'. destruct (decide (rcount (io_r j2) = 0)) as [R2|R2].
    - destruct (IH j2 w2 D2 A2 R2) as (i' & w' & E & D' & H' & R' & S3); [destruct S'; lia|lia|].
      exists i', w'. split_and!; try done; [lia|]. by apply (same_but_decoded_trans _ j2).
    - rewrite underflow_loop_done by done. exists j2, w2. split_and!; try done. lia. }
  assert (ucount (io_r i) <> 0 \/ src_rest (io_dev i) <> [] -> io_eof (io_r i) = false) as Hne.
  { destruct (io_eof (io_r i)); [|done]. destruct (Heof eq_refl) as (_ & H1 & H2). by intros [?|?]. }
  case_decide as Hu.
  2:{ apply (Hstep i w); try done. apply Hne. by left. }
  destruct (dev_read_src (io_dev i) (rbsz (io_r i))) as (d & data & -> & Hrest & Hl & Hnil); [lia|].
  assert (rwin i = []) as Hrw by (unfold rwin; by rewrite Hr). assert (uwin i = []) as Huw by (unfold uwin; by rewrite Hu).
  rewrite Huw, app_nil_l in Hch. rewrite Hrw, app_nil_l in Hs. subst o. destruct data as [|b data].
  - specialize (Hnil eq_refl). rewrite app_nil_l in Hrest. rewrite Hnil in Hch, Hrest.
    unfold underflow_eof. cbn [set_dev io_codecs io_r].
    destruct (chain_flush_chunk_coded fuel (io_codecs i) (rbsz (io_r i)) s w Hok Hch ltac:(lia) Hf) as (cs & r & E & Q1 & Q2 & Q3 & Q).
    destruct (io_codecs i) as [|k0 ks] eqn:Eks; [done|]. rewrite E.
    destruct Q as [(k & -> & -> & Q)|(out & o' & w' & -> & H1 & H2 & -> & H4 & H5)].
    + destruct (Q Htl) as (-> & w' & Hc' & Hle). eexists _, w'. split; [done|]. split_and!; try done; [|split; [done|cbn [io_codecs set_r set_codecs]; by rewrite Eks]].
      split_and!; try done; [|by rewrite <- Htl|].
      * unfold rwf. simpl. rewrite Ha, length_mwrite by (simpl; lia). split_and!; simpl; done || lia.
      * exists []. split; [unfold rwin; simpl; by rewrite Hr|]. simpl. unfold uwin. simpl.
        by rewrite Hu, mread_0, <- Hrest.
    + eexists _, w'. split; [done|]. split_and!; try done; [|lia| |split; [done|cbn [io_codecs set_r set_codecs]; by rewrite Eks]].
      * split_and!; try done; [|by rewrite <- Htl| |].
        -- unfold rwf. simpl. rewrite Ha, length_mwrite by lia. split_and!; done || lia.
        -- simpl. rewrite orb_false_r. intros He. destruct (Heof He) as [Hnl _]. by destruct out.
        -- exists o'. split; [unfold rwin; simpl; by rewrite Hr, mread_mwrite by lia|]. simpl. unfold uwin. simpl.
           by rewrite Hu, mread_0, <- Hrest.
      * simpl. intros H0. destruct out; [done|simpl in H0; lia].
  - set (i2 := set_r (set_dev i d) _). assert (io_eof (io_r i) = false) as He by (apply Hne; right; by rewrite Hrest).
    apply (Hstep i2 w); try done; [|simpl; lia]. split_and!; try done.
    + unfold rwf. simpl. rewrite Ha, length_mwrite by (simpl in *; lia). split_and!; try done; try lia.
      rewrite Hu, (Hu0 Hu). simpl in *. lia.
    + simpl. by rewrite He.
    + exists s. split; [unfold rwin; simpl; by rewrite Hr|]. simpl.
      replace (uwin i2) with (b :: data); [by rewrite <- Hrest|]. unfold uwin. simpl. rewrite Hu, (Hu0 Hu).
      symmetry. apply mread_mwrite; [lia|done].
Qed.

Lemma io_underflow_coded (fuel : nat) i (s : list byte) (w : nat) :
  decoding i s w -> rcount (io_r i) = 0 -> w + length (io_codecs i) < fuel ->
  exists i' w', io_underflow fuel i = (i', Ok (rcount (io_r i'))) /\ decoding i' s w' /\ w' <= w /\
    (rcount (io_r i') = 0 -> s = []) /\ same_but_decoded i i'.
Proof.
  intros Hd Hr Hf. unfold io_underflow. destruct (r_alloc (io_r i)) eqn:Ha.
  - destruct (underflow_loop_coded fuel fuel i s w Hd Ha Hr ltac:(lia) ltac:(lia)) as (i' & w' & -> & H). by exists i', w'.
  - unfold io_rbuf_alloc. rewrite u_alloc_ok. destruct Hd as (Hwf & Hok & Htl & He & o & Hs & Hch).
    unfold rwf in Hwf. rewrite Ha in Hwf. destruct Hwf as (_ & Hu & Huo). set (i1 := set_r i _).
    destruct (underflow_loop_coded fuel fuel i1 s w) as (i' & w' & -> & H); try done; try (simpl; lia); [|by exists i', w'].
    split_and!; try done.
    + unfold rwf. simpl. rewrite !length_replicate, Hr, Hu, Huo. split_and!; done || lia.
    + exists o. split; [rewrite Hs; unfold rwin; simpl; by rewrite Hr|]. simpl. replace (uwin i1) with (uwin i); [done|].
      unfold uwin. simpl. by rewrite Hu.
Qed.

Lemma rbuf_get_coded i (s : list byte) (w wr : nat) :
  decoding i s w -> wr <= rcount (io_r i) ->
  let '(i', out) := rbuf_get i wr in
  out = take wr s /\ length out = wr /\ decoding i' (drop wr s) w /\ same_but_decoded i i'.
Proof.
  intros (Hwf & Hok & Htl & He & o & -> & Hch) Hwr. unfold rbuf_get. pose proof (rwin_length i Hwf) as Hl.
  assert (mread (rbuf (io_r i)) (roff (io_r i)) wr = take wr (rwin i)) as Hm
    by (unfold rwin; rewrite take_mread; f_equal; lia).
  split_and!; try done.
  - rewrite Hm. by rewrite take_app_le by lia.
  - rewrite Hm, length_take. lia.
  - split_and!; try done.
    + unfold rwf in *. simpl. destruct (r_alloc (io_r i)); intuition lia.
    + simpl. intros Heof. destruct (He Heof) as (H0 & ? & ?). by rewrite H0, drop_nil.
    + exists o. split; [|done]. rewrite drop_app_le by lia. f_equal. unfold rwin. simpl. by rewrite drop_mread.
Qed.

Lemma read_loop_coded (fuel n : nat) i (s : list byte) (w size : nat) :
  decoding i s w -> w + length (io_codecs i) < fuel -> size < n ->
  exists i' w', read_loop fuel n i size = (i', Ok (take size s)) /\ decoding i' (drop size s) w' /\ w' <= w /\
    same_but_decoded i i'.
Proof.
  revert i s w size. induction n as [|n IH]; intros i s w size Hd Hf Hn; [lia|].
  cbn [read_loop]. destruct (decide (size = 0)) as [->|Hs]; [by exists i, w|].
  assert (exists i1 w1, (if decide (rcount (io_r i) = 0) then io_underflow fuel i
                        else (i, Ok (rcount (io_r i)))) = (i1, Ok (rcount (io_r i1))) /\ decoding i1 s w1 /\ w1 <= w /\
    (rcount (io_r i1) = 0 -> s = []) /\ same_but_decoded i i1) as (i1 & w1 & -> & H1 & H2 & H3 & H4).
  { destruct (decide _) as [Hr|Hr]; [by apply io_underflow_coded|]. by exists i, w. }
  destruct (rcount (io_r i1)) as [|c'] eqn:Ec.
  { rewrite (H3 eq_refl) in *. rewrite take_nil, drop_nil. by exists i1, w1. }
  rewrite <- Ec in *. pose proof (rbuf_get_coded i1 s w1 (min (rcount (io_r i1)) size) H1 ltac:(lia)) as G.
  destruct (rbuf_get i1 _) as [i2 out]. destruct G as (-> & G2 & G3 & G4). set (wr := min (rcount (io_r i1)) size) in *.
  pose proof (same_but_decoded_trans _ _ _ H4 G4) as S2.
  destruct (IH i2 (drop wr s) w1 (size - wr) G3) as (i3 & w3 & -> & K1 & K2 & K3); [destruct S2; lia|lia|].
  exists i3, w3. rewrite drop_drop in K1. replace (wr + (size - wr)) with size in K1 by lia.
  split_and!; try done; [|lia|by apply (same_but_decoded_trans _ i2)]. simpl. do 3 f_equal.
  replace size with (wr + (size - wr)) at 2 by lia. by rewrite take_take_drop.
Qed.

Lemma io_read_coded (fuel : nat) i (s : list byte) (w size : nat) :
  decoding i s w -> w + length (io_codecs i) < fuel ->
  exists i' w', io_read fuel i size = (i', Ok (take size s)) /\ decoding i' (drop size s) w' /\ w' <= w /\
    same_but_decoded i i'.
Proof.
  intros Hd Hf. unfold io_read. destruct (io_eof (io_r i)) eqn:He; [|apply read_loop_coded; try done; lia].
  destruct (proj1 (proj2 (proj2 (proj2 Hd))) He) as [-> _]. rewrite take_nil, drop_nil. by exists i, w.
Qed.

Lemma get_until_loop_coded (fuel n : nat) i (s : list byte) (w : nat) (stop : byte) (size : nat) :
  decoding i s w -> w + length (io_codecs i) < fuel -> rcount (io_r i) <> 0 -> size < n ->
  exists i' w', get_until_loop fuel n i stop size = (i', Ok (line_of stop size s)) /\
    decoding i' (drop (length (line_of stop size s)) s) w' /\ w' <= w /\ same_but_decoded i i'.
Proof.
  revert i s w size. induction n as [|n IH]; intros i s w size Hd Hf Hr Hn; [lia|].
  cbn [get_until_loop]. pose proof Hd as (Hwf & Hok & Htl & He & o & Hs & Hch).
  pose proof (rwin_length i Hwf) as Hl. unfold io_strnchr. fold (rwin i).
  destruct (strchr (rwin i) stop) as [p|] eqn:Ep.
  - pose proof Ep as [Hp _]%strchr_Some. apply lookup_lt_Some in Hp.
    pose proof (rbuf_get_coded i s w (min (S p) size) Hd ltac:(lia)) as G.
    destruct (rbuf_get i _) as [i1 out]. destruct G as (-> & Gl & G3 & G4).
    exists i1, w. rewrite Hs in Gl, G3 |- *. rewrite (line_of_found _ _ _ _ _ Ep), Gl. by split_and!.
  - apply strchr_None in Ep. destruct (decide (rcount (io_r i) <= size)) as [Hsz|Hsz].
    + set (i1 := set_r i _).
      assert (decoding i1 o w) as H1.
      { split_and!; try done; [|intros Heof; destruct (He Heof) as (H0 & ? & ?)|exists o; split; [|done]].
        - unfold i1, rwf in *. simpl. destruct (r_alloc _); intuition lia.
        - rewrite H0 in Hs. symmetry in Hs. apply app_eq_nil in Hs as [_ ->]. done.
        - done. }
      destruct (io_underflow_coded fuel i1 o w H1 eq_refl Hf) as (i2 & w2 & -> & U1 & U2 & U3 & U4).
      assert (same_but_decoded i i2) as S2 by done.
      rewrite Hs, line_of_skip, Hl by (done || lia). fold (rwin i).
      destruct (rcount (io_r i2)) as [|c] eqn:Ec.
      * exists i2, w2. rewrite (U3 eq_refl) in *. unfold line_of. rewrite take_nil. simpl. rewrite !app_nil_r, drop_all.
        by split_and!.
      * rewrite <- Ec in *.
        destruct (IH i2 o w2 (size - rcount (io_r i)) U1) as (i3 & w3 & -> & K1 & K2 & K3); [destruct S2; lia|lia|lia|].
        exists i3, w3. split_and!; try done; [|lia|by apply (same_but_decoded_trans _ i2)].
        rewrite length_app, <- drop_drop, drop_app_length. done.
    + pose proof (rbuf_get_coded i s w size Hd ltac:(lia)) as G.
      destruct (rbuf_get i size) as [i1 out]. destruct G as (-> & Gl & G3 & G4).
      exists i1, w. rewrite Hs in Gl, G3 |- *. rewrite line_of_short by (done || lia). rewrite Gl. by split_and!.
Qed.

Lemma io_get_until_coded (fuel : nat) i (s : list byte) (w : nat) (stop : byte) (size : nat) :
  decoding i s w -> w + length (io_codecs i) < fuel -> 2 <= size ->
  exists i' w', io_get_until fuel i stop size = (i', Ok (line_of stop (size - 1) s)) /\
    decoding i' (drop (length (line_of stop (size - 1) s)) s) w' /\ w' <= w /\ same_but_decoded i i'.
Proof.
  intros Hd Hf Hs. unfold io_get_until. rewrite decide_False by lia.
  assert (exists i1 w1 c, (if decide (rcount (io_r i) = 0) then io_underflow fuel i else (i, Ok 0)) = (i1, Ok c) /\
    decoding i1 s w1 /\ w1 <= w /\ (rcount (io_r i1) = 0 -> s = []) /\ same_but_decoded i i1)
    as (i1 & w1 & c & -> & H1 & H2 & H3 & H4).
  { destruct (decide _) as [Hr|Hr].
    - destruct (io_underflow_coded fuel i s w Hd Hr Hf) as (i1 & w1 & -> & ?). by eexists _, _, _.
    - exists i, w, 0. by split_and!. }
  destruct (decide _) as [Hr|Hr].
  - exists i1, w1. rewrite H3 by done. unfold line_of. rewrite take_nil. rewrite (H3 Hr) in H1. by split_and!.
  - destruct (get_until_loop_coded fuel size i1 s w1 stop (size - 1) H1) as (i2 & w2 & -> & K1 & K2 & K3); [destruct H4; lia|done|lia|].
    exists i2, w2. split_and!; try done; [lia|]. by apply (same_but_decoded_trans _ i1).
Qed.

(** A stream with codecs is a source of lines. *)
Lemma decoding_source (fuel : nat) :
  line_source (fun i s => exists w, decoding i s w /\ w + length (io_codecs i) < fuel /\ w_alloc (io_w i) = false) fuel.
Proof.
  intros i s size (w & Hd & Hf & Hw) Hs.
  destruct (io_get_until_coded fuel i s w x0a size Hd Hf Hs) as (i' & w' & -> & H1 & H2 & [(H3 & _) H4]).
  exists i'. split; [done|]. exists w'. split_and!; [done|lia|by rewrite H3].
Qed.
End coded_reading.

(** ** Whole streams *)

(** The codecs [sts], in this order, turn [s] into [o]; [w] counts the bytes that go into and
    out of each of them. *)
Fixpoint through {K : Type} {CO : CodecOps K} {CK : Coder K} (sts : list K) (s o : list byte) (w : nat) : Prop :=
  match sts with
  | [] => False
  | [st] => co_rel st s o /\ w = length s + length o
  | st :: rest =>
      exists m w', co_rel st s m /\ co_tail st = false /\ (2 <= length rest -> co_flush0 st = true) /\
        through rest m o w' /\ w = length s + length m + w'
  end.

Lemma through_cons {K : Type} {CO : CodecOps K} {CK : Coder K} (st : K) (rest : list K) (s o : list byte) (w : nat) : rest <> [] ->
  through (st :: rest) s o w <->
  exists m w', co_rel st s m /\ co_tail st = false /\ (2 <= length rest -> co_flush0 st = true) /\
    through rest m o w' /\ w = length s + length m + w'.
Proof. by destruct rest. Qed.

(** [io_codec_add_tail] for each of them. *)
Definition add_codecs {D K : Type} (i : io D K) (sts : list K) : io D K := foldl io_codec_add_tail i sts.

Section fresh.
Context {D K : Type} {CO : CodecOps K} {CK : Coder K}.
Implicit Types (i : io D K) (sts : list K).

Definition fresh (st : K) : codec K := mkCodec st (replicate CODEC_BUFSZ x00) 0 0.

Lemma add_codecs_eq i sts : add_codecs i sts = set_codecs i (io_codecs i ++ map fresh sts).
Proof.
  unfold add_codecs. revert i. induction sts as [|st sts IH]; intros i; simpl.
  { rewrite app_nil_r. by destruct i. }
  rewrite IH. unfold io_codec_add_tail. simpl. by rewrite <- app_assoc.
Qed.

Lemma fresh_ok sts : Forall codec_ok (map fresh sts).
Proof. apply Forall_forall. intros k (st & -> & _)%list_elem_of_fmap. apply codec_ok_fresh. Qed.

Lemma through_chain sts (s o : list byte) (w : nat) : through sts s o w -> chain_rel (map fresh sts) s o w.
Proof.
  revert s w. induction sts as [|st [|st2 sts] IH]; intros s w H; [done|done|].
  destruct H as (m & w' & H1 & H2 & H3 & H4 & ->). change (map fresh (st :: st2 :: sts)) with (fresh st :: map fresh (st2 :: sts)).
  apply chain_rel_cons; [done|]. exists m, w'. split_and!; try done.
  - by rewrite length_map.
  - by apply IH.
Qed.
End fresh.

(** Adding codecs to a stream from which nothing was read yet. *)
Lemma decoding_start {D K : Type} {DO : DevOps D} {DS : DevSource D} {CO : CodecOps K} {CK : Coder K}
    (i : io D K) (sts : list K) (o : list byte) (w : nat) :
  readable i -> rcount (io_r i) = 0 -> through sts (instream i) o w -> chain_tail (map fresh sts) = false ->
  decoding (add_codecs i sts) o w /\ length (io_codecs (add_codecs i sts)) = length sts.
Proof.
  intros (Hwf & Hc & He) Hr Ht Htl. rewrite add_codecs_eq, Hc, app_nil_l.
  assert (rwin i = []) as Hw by (unfold rwin; by rewrite Hr). unfold instream in Ht. rewrite Hw, app_nil_l in Ht.
  split; [|simpl; by rewrite length_map]. split_and!; try done; [apply fresh_ok|simpl; by rewrite He|].
  exists o. split; [|by apply through_chain]. change (rwin (set_codecs i (map fresh sts))) with (rwin i). by rewrite Hw.
Qed.

Section whole.
Context {L : Libu} {LM : LibuMem L} {D K : Type} {DO : DevOps D} {DK : DevSink D} {CO : CodecOps K} {CK : Coder K}.

Lemma codecs_remove_coded (fuel : nat) (i : io D K) (o : list byte) (w m : nat) :
  coding i [] o w -> w_alloc (io_w i) = true -> room i (length o + m) ->
  w + length (io_codecs i) < fuel -> IO_WR_BUFSZ <= fuel ->
  exists i', io_codecs_remove fuel i = (i', Ok tt) /\ writable i' /\ room i' m /\
    outstream i' = outstream i ++ o /\ io_r i' = io_r i /\ io_refcnt i' = io_refcnt i.
Proof.
  intros Hi Ha Hr Hf Hbf. pose proof (chain_rel_work _ _ _ _ (proj2 (proj2 Hi))) as Hwk.
  destruct (chain_flush_coded fuel fuel i o w m Hi Ha Hr ltac:(lia) Hbf ltac:(lia)) as (i3 & E & W & R & O & S1 & S2).
  exists (set_codecs i3 []). split_and!; try done. unfold io_codecs_remove. destruct Hi as (_ & _ & Hi).
  destruct (io_codecs i) eqn:Ec; [done|]. by rewrite Ha, E.
Qed.

End whole.

Section pipe.
Context {L : Libu} {LM : LibuMem L} {D1 C1 D2 K : Type} {DO1 : DevOps D1} {CO1 : CodecOps C1}
  {DO : DevOps D2} {DS : DevSource D2} {CO : CodecOps K} {CK : Coder K}.

(** Copying what a stream with codecs gives, to any stream [P] that takes it: [P out s] says that
    [out] is ready for [s]. *)
Lemma io_pipe_coded (P : io D1 C1 -> list byte -> Prop) (fuel n : nat) (out : io D1 C1) (inp : io D2 K) (s : list byte) (w : nat) :
  (forall out data rest, data <> [] -> P out (data ++ rest) -> exists out', io_write fuel out data = (out', Ok (length data)) /\ P out' rest) ->
  P out s -> decoding inp s w -> w + length (io_codecs inp) < fuel -> length s < n ->
  exists out' inp' w', io_pipe fuel n out inp = (out', inp', Ok (length s)) /\ P out' [] /\ decoding inp' [] w'.
Proof.
  intros HP. revert out inp s w. induction n as [|n IH]; intros out inp s w Ho Hd Hf Hn; [lia|]. cbn [io_pipe].
  destruct (io_read_coded fuel inp s w IO_RD_BUFSZ Hd Hf) as (inp1 & w1 & -> & D1' & Hw & [_ S2]).
  pose proof IO_RD_BUFSZ_pos as Hp. destruct (take IO_RD_BUFSZ s) as [|b data] eqn:Et.
  { assert (s = []) as ->. { destruct s; [done|]. destruct IO_RD_BUFSZ; [lia|done]. }
    rewrite drop_nil in D1'. by exists out, inp1, w1. }
  rewrite <- (take_drop IO_RD_BUFSZ s), Et in Ho. destruct (HP out (b :: data) _ ltac:(done) Ho) as (out1 & -> & P1).
  assert (length s = length (b :: data) + length (drop IO_RD_BUFSZ s)) as Hlen by (rewrite <- Et, <- length_app, take_drop; done).
  destruct (IH out1 inp1 (drop IO_RD_BUFSZ s) w1 P1 D1' ltac:(lia)) as (out2 & inp2 & w2 & -> & P2 & D2'); [simpl in Hlen; lia|].
  exists out2, inp2, w2. split_and!; try done. by rewrite Hlen.
Qed.
End pipe.

(** The two kinds of streams that take what is copied. *)
Section takers.
Context {L : Libu} {LM : LibuMem L} {D C : Type} {DO : DevOps D} {DK : DevSink D} {CO : CodecOps C}.

Definition takes_plain (target : list byte) (fuel m : nat) (out : io D C) (s : list byte) : Prop :=
  writable out /\ room out (length s + m) /\ outstream out ++ s = target /\ length s <= fuel.

Lemma takes_plain_write (target : list byte) (fuel m : nat) (out : io D C) (data rest : list byte) :
  data <> [] -> takes_plain target fuel m out (data ++ rest) ->
  exists out', io_write fuel out data = (out', Ok (length data)) /\ takes_plain target fuel m out' rest.
Proof.
  intros _ (Hw & Hr & Ho & Hf). rewrite length_app in Hr, Hf. rewrite <- Nat.add_assoc in Hr.
  destruct (io_write_spec fuel out data (length rest + m) Hw Hr ltac:(lia)) as (out' & -> & W & R & O & _).
  exists out'. split; [done|]. split_and!; try done; [|lia]. by rewrite O, <- app_assoc.
Qed.

Context {CK : Coder C}.

(** [tail] is what the stream will be given after [s]. *)
Definition takes_coded (target tail : list byte) (fuel n m : nat) (out : io D C) (s : list byte) : Prop :=
  exists o w, coding out (s ++ tail) o w /\ room out (length o + m) /\ outstream out ++ o = target /\
    w + length (io_codecs out) < fuel /\ length (io_codecs out) = n.

Lemma takes_coded_write (target tail : list byte) (fuel n m : nat) (out : io D C) (data rest : list byte) :
  data <> [] -> takes_coded target tail fuel n m out (data ++ rest) ->
  exists out', io_write fuel out data = (out', Ok (length data)) /\ takes_coded target tail fuel n m out' rest.
Proof.
  intros _ (o & w & Hc & Hr & Ho & Hf & Hn). rewrite <- app_assoc in Hc.
  pose proof (chain_rel_work _ _ _ _ (proj2 (proj2 Hc))) as Hwk. rewrite length_app in Hwk.
  destruct (io_write_coded fuel out data (rest ++ tail) o w m Hc Hr ltac:(lia) ltac:(lia)) as
    (out' & o' & w' & -> & H1 & _ & H3 & H4 & H5 & (_ & _ & _ & S4 & _)).
  exists out'. split; [done|]. exists o', w'. split_and!; try done; [by rewrite H4|lia|lia].
Qed.
End takers.

(** Two null codecs. *)
Definition null_out : io io_mem codec_null := io_mem_create (replicate 20 x00) 20 false.

