(* ===== verification/Gzip.v ===== *)
(** The compressing codec of src/src/libcodec/gzip.c, for zlib 1.2 and later.

    zlib is a parameter: [Zlib] has the calls that the codec makes, with the bytes of a
    [z_stream] that [next_in], [avail_in], [next_out] and [avail_out] describe as arguments
    and results, and [ZlibSpec] what its manual promises of them.  Under it the codec is a
    [Coder]: whatever the pieces it is given and the room for its output, it produces the
    compressed form of its whole input, or the data that its input is the compressed form
    of.  A stored format is an instance. *)

From S2P Require Import Prelude Libu Io IoSpec IoMem Codec Filter Coder.

Inductive gzip_op := GZIP_COMPRESS | GZIP_UNCOMPRESS.
Inductive z_flush := Z_NO_FLUSH | Z_FINISH.
Inductive z_code := Z_OK | Z_STREAM_END | Z_ERROR.

#[global] Instance gzip_op_eq_dec : EqDecision gzip_op.
Proof. solve_decision. Defined.
#[global] Instance z_code_eq_dec : EqDecision z_code.
Proof. solve_decision. Defined.

(** [deflate st flush src room]: new state, return code, output and number of bytes consumed. *)
Class Zlib := {
  z_stream : Type;
  deflateInit2 : option z_stream;
  inflateInit2 : option z_stream;
  deflate : z_stream -> z_flush -> list byte -> nat -> z_stream * z_code * list byte * nat;
  inflate : z_stream -> z_flush -> list byte -> nat -> z_stream * z_code * list byte * nat;
  deflateEnd : z_stream -> bool;
  inflateEnd : z_stream -> bool
}.

(** What zlib promises.  [defl st s o]: a compressing stream in state [st] that is given [s]
    more and finished will have written [o] more; [infl st z o]: for an uncompressing one,
    [z] is the rest of the compressed data.  Both read and write until the input is used up
    or the room is; the end is reported once everything has been written.  What is written
    depends on the data, not on the sizes of the pieces. *)
Class ZlibSpec (Z : Zlib) := {
  z_compress : list byte -> list byte;
  z_uncompress : list byte -> option (list byte);
  z_roundtrip (s : list byte) : z_uncompress (z_compress s) = Some s;
  defl : z_stream -> list byte -> list byte -> Prop;
  infl : z_stream -> list byte -> list byte -> Prop;
  defl_init (s : list byte) : exists st, deflateInit2 = Some st /\ defl st s (z_compress s);
  infl_init (z s : list byte) : z_uncompress z = Some s -> exists st, inflateInit2 = Some st /\ infl st z s;
  defl_run (st : z_stream) (src rest o : list byte) (cap : nat) :
    defl st (src ++ rest) o -> 0 < cap -> src <> [] ->
    exists st' out c o', deflate st Z_NO_FLUSH src cap = (st', Z_OK, out, c) /\ c <= length src /\ length out <= cap /\
      (c = length src \/ length out = cap) /\ o = out ++ o' /\ defl st' (drop c src ++ rest) o';
  defl_finish (st : z_stream) (o : list byte) (cap : nat) :
    defl st [] o -> 0 < cap ->
    exists st' out, length out <= cap /\
      ((deflate st Z_FINISH [] cap = (st', Z_STREAM_END, out, 0) /\ o = out) \/
       (exists o', deflate st Z_FINISH [] cap = (st', Z_OK, out, 0) /\ length out = cap /\ o = out ++ o' /\ defl st' [] o'));
  infl_run (st : z_stream) (src rest o : list byte) (cap : nat) :
    infl st (src ++ rest) o -> 0 < cap -> src <> [] ->
    exists st' code out c o', inflate st Z_NO_FLUSH src cap = (st', code, out, c) /\ c <= length src /\ length out <= cap /\
      (c = length src \/ length out = cap) /\ o = out ++ o' /\
      ((code = Z_OK /\ infl st' (drop c src ++ rest) o') \/ (code = Z_STREAM_END /\ drop c src ++ rest = [] /\ o' = []));
  infl_drain (st : z_stream) (o : list byte) (cap : nat) :
    infl st [] o -> 0 < cap ->
    exists st' out, length out <= cap /\
      ((inflate st Z_NO_FLUSH [] cap = (st', Z_STREAM_END, out, 0) /\ o = out) \/
       (exists o', inflate st Z_NO_FLUSH [] cap = (st', Z_OK, out, 0) /\ length out = cap /\ o = out ++ o' /\ infl st' [] o'))
}.

Section gzip.
Context {L : Libu} {Z : Zlib}.

Record codec_gzip := mkGz {
  gz_action : gzip_op;
  gz_err : z_code;          (* the last return code, [Z_OK] at first *)
  gz_zstr : z_stream
}.

(** [iz->op] *)
Definition gz_run (iz : codec_gzip) : z_stream -> z_flush -> list byte -> nat -> z_stream * z_code * list byte * nat :=
  match gz_action iz with GZIP_COMPRESS => deflate | GZIP_UNCOMPRESS => inflate end.

Definition gzip_flush (iz : codec_gzip) (cap : nat) : codec_gzip * option (flush_rc * list byte * nat) :=
  let '(iz', out) :=
    if decide (gz_err iz <> Z_STREAM_END) then
      let '(z, err, out, _) := gz_run iz (gz_zstr iz)
        (if decide (gz_action iz = GZIP_COMPRESS) then Z_FINISH else Z_NO_FLUSH) [] cap in
      (mkGz (gz_action iz) err z, out)
    else (iz, []) in
  if decide (gz_err iz' = Z_ERROR) then (iz', None)
  else (iz', Some (if decide (gz_err iz' = Z_STREAM_END /\ out = []) then CODEC_FLUSH_COMPLETE else CODEC_FLUSH_CHUNK,
                   out, length out)).

Definition gzip_transform (iz : codec_gzip) (cap : nat) (src : list byte) : codec_gzip * option (list byte * nat) :=
  if decide (cap = 0 \/ src = []) then (iz, None) else
  let '(z, err, out, c) := gz_run iz (gz_zstr iz) Z_NO_FLUSH src cap in
  (mkGz (gz_action iz) err z, if decide (err = Z_ERROR) then None else Some (out, c)).

(** [true] when the codec was released; otherwise it stays allocated. *)
Definition gzip_free (iz : codec_gzip) : bool :=
  match gz_action iz with GZIP_COMPRESS => deflateEnd | GZIP_UNCOMPRESS => inflateEnd end (gz_zstr iz).

Variable gz_size : nat.                (* sizeof(codec_gzip_t) *)

Definition codec_gzip_create (op : gzip_op) : res codec_gzip :=
  if u_alloc gz_size then
    match (match op with GZIP_COMPRESS => deflateInit2 | GZIP_UNCOMPRESS => inflateInit2 end) with
    | Some z => Ok (mkGz op Z_OK z)
    | None => Fail
    end
  else Fail.

#[global] Instance gzip_ops : CodecOps codec_gzip := {|
  c_transform := gzip_transform;
  c_flush := gzip_flush
|}.
End gzip.
Arguments codec_gzip {Z}.
Arguments mkGz {Z} _ _ _.

Section gzip_spec.
Context {L : Libu} {LM : LibuMem L} {Z : Zlib} {ZS : ZlibSpec Z}.

(** What the codec will give for the rest [s] of its input. *)
Definition gz_rel (iz : codec_gzip) (s o : list byte) : Prop :=
  match gz_err iz with
  | Z_OK => match gz_action iz with GZIP_COMPRESS => defl (gz_zstr iz) s o | GZIP_UNCOMPRESS => infl (gz_zstr iz) s o end
  | Z_STREAM_END => s = [] /\ o = []
  | Z_ERROR => False
  end.

Lemma full_or_fed (out : list byte) (c n cap : nat) : 0 < cap -> 0 < n -> c = n \/ length out = cap ->
  (c <> 0 \/ out <> []) /\ (out = [] -> c = n).
Proof. intros H1 H2 [H|H]; (split; [|intros ->; simpl in *; lia]); [left; lia|right; intros ->; simpl in *; lia]. Qed.

Lemma gzip_transform_spec (iz : codec_gzip) (cap : nat) (src rest o : list byte) :
  gz_rel iz (src ++ rest) o -> 0 < cap -> src <> [] ->
  exists iz' out c o', gzip_transform iz cap src = (iz', Some (out, c)) /\ c <= length src /\ length out <= cap /\
    (c = length src \/ length out = cap) /\ o = out ++ o' /\ gz_rel iz' (drop c src ++ rest) o'.
Proof.
  intros H Hc Hs. unfold gzip_transform. rewrite decide_False by (intros [?|?]; [lia|done]). unfold gz_run.
  destruct iz as [[] [] z]; cbn [gz_rel gz_err gz_action gz_zstr] in *; try done; try (by destruct H as [[? ?]%app_eq_nil _]).
  - destruct (defl_run z src rest o cap H Hc Hs) as (z' & out & c & o' & -> & ?). by eexists _, out, c, o'.
  - destruct (infl_run z src rest o cap H Hc Hs) as (z' & code & out & c & o' & -> & H1 & H2 & H3 & H4 & [(-> & H5)|(-> & H5 & H6)]);
      by eexists _, out, c, o'.
Qed.

Lemma gzip_flush_spec (iz : codec_gzip) (cap : nat) (o : list byte) :
  gz_rel iz [] o -> 0 < cap ->
  exists iz', (gzip_flush iz cap = (iz', Some (CODEC_FLUSH_COMPLETE, [], 0)) /\ o = [] /\ gz_rel iz' [] []) \/
    (exists out o', gzip_flush iz cap = (iz', Some (CODEC_FLUSH_CHUNK, out, length out)) /\ 0 < length out <= cap /\
       o = out ++ o' /\ gz_rel iz' [] o').
Proof.
  intros H Hc. unfold gzip_flush. destruct iz as [op err z]. cbn [gz_rel gz_err gz_action gz_zstr gz_run] in *.
  destruct (decide (err = Z_STREAM_END)) as [->|He].
  { destruct H as [_ ->]. rewrite decide_False by (by intros H). cbn [gz_err]. rewrite decide_False, decide_True by done.
    eexists. left. by split_and!. }
  rewrite (decide_True (P := err <> Z_STREAM_END)) by done. destruct err; [|done|done]. unfold gz_run. cbn [gz_action].
  assert (exists z' out, length out <= cap /\
    ((match op with GZIP_COMPRESS => deflate | GZIP_UNCOMPRESS => inflate end z (if decide (op = GZIP_COMPRESS) then Z_FINISH else Z_NO_FLUSH) [] cap
        = (z', Z_STREAM_END, out, 0) /\ o = out) \/
     (exists o', match op with GZIP_COMPRESS => deflate | GZIP_UNCOMPRESS => inflate end z (if decide (op = GZIP_COMPRESS) then Z_FINISH else Z_NO_FLUSH) [] cap
        = (z', Z_OK, out, 0) /\ length out = cap /\ o = out ++ o' /\ gz_rel (mkGz op Z_OK z') [] o')))
    as (z' & out & Hl & [(-> & ->)|(o' & -> & Hf & -> & Hr)]).
  { destruct op; [exact (defl_finish z o cap H Hc)|exact (infl_drain z o cap H Hc)]. }
  - cbn [gz_err]. rewrite decide_False by done. eexists. destruct out as [|b out].
    + rewrite decide_True by done. left. by split_and!.
    + rewrite decide_False by (by intros [_ ?]). right. exists (b :: out), []. rewrite app_nil_r. split_and!; try done. simpl. lia.
  - cbn [gz_err]. rewrite !decide_False by (done || by intros [? _]). eexists. right. exists out, o'. split_and!; try done; lia.
Qed.

#[global] Instance gzip_coder : Coder codec_gzip.
Proof.
  refine {| co_rel := gz_rel; co_tail := fun _ => false; co_flush0 := fun _ => false |}; cbn [c_transform c_flush gzip_ops].
  - intros iz cap src rest o H Hc Hs.
    destruct (gzip_transform_spec iz cap src rest o H Hc Hs) as (iz' & out & c & o' & -> & H1 & H2 & H3 & H4 & H5).
    destruct (full_or_fed out c (length src) cap Hc ltac:(destruct src; [done|simpl; lia]) H3) as [F1 F2].
    exists iz', out, c, o'. split_and!; try done. intros Ho _. by apply F2.
  - intros iz cap o H [Hc|Hc]; [|done].
    destruct (gzip_flush_spec iz cap o H Hc) as (iz' & [(-> & -> & Hr)|(out & o' & -> & Hl & -> & Hr)]);
      exists iz'; (do 2 (split; [done|])); [left; by exists 0|right]. exists out, o'. split_and!; try done; [lia|].
    intros _ ->. simpl in Hl. lia.
Defined.

(** A new codec and what it makes of a whole input. *)
Lemma gzip_create_compress (gz_size : nat) (s : list byte) :
  exists iz, codec_gzip_create gz_size GZIP_COMPRESS = Ok iz /\ gz_rel iz s (z_compress s).
Proof. unfold codec_gzip_create. rewrite u_alloc_ok. destruct (defl_init s) as (z & -> & H). by eexists. Qed.

Lemma gzip_create_uncompress (gz_size : nat) (z s : list byte) : z_uncompress z = Some s ->
  exists iz, codec_gzip_create gz_size GZIP_UNCOMPRESS = Ok iz /\ gz_rel iz z s.
Proof. intros Hz. unfold codec_gzip_create. rewrite u_alloc_ok. destruct (infl_init z s Hz) as (st & -> & H). by eexists. Qed.
End gzip_spec.

(** ** Copying an uncompressed block *)

Section unzip.
Context {L : Libu} {Z : Zlib} {D C : Type} {DO : DevOps D} {CO : CodecOps C}.
Variable gz_size : nat.

(** [u_io_unzip_copy] of src/src/libutils/utils.c *)
Definition u_io_unzip_copy (fuel n : nat) (out : io D C) (data : list byte) : io D C * res unit :=
  match codec_gzip_create gz_size GZIP_UNCOMPRESS with
  | Ok zip =>
      let ios := io_codec_add_tail (io_mem_create data (length data) false) zip in
      let '(out1, ios1, r) := io_pipe fuel n out ios in
      let '(_, _, _) := io_free fuel ios1 in
      (out1, (fun _ => tt) <$> r)
  | Fail => (out, Fail)
  | Fault => (out, Fault)
  | Timeout => (out, Timeout)
  end.
End unzip.

Section unzip_spec.
Context {L : Libu} {LM : LibuMem L} {Z : Zlib} {ZS : ZlibSpec Z} {D C : Type} {DO : DevOps D} {DK : DevSink D} {CO : CodecOps C}.

Lemma mem_fresh {K : Type} (data : list byte) :
  readable (io_mem_create (C:=K) data (length data) false) /\ instream (io_mem_create (C:=K) data (length data) false) = data.
Proof. split; [by split_and!|]. unfold instream, rwin, uwin. simpl. by rewrite !mread_0, drop_0, take_ge by lia. Qed.

Lemma unzip_copy_takes (P : io D C -> list byte -> Prop) (gz_size fuel n : nat) (out : io D C) (data s : list byte) :
  z_uncompress data = Some s ->
  (forall out data rest, data <> [] -> P out (data ++ rest) -> exists out', io_write fuel out data = (out', Ok (length data)) /\ P out' rest) ->
  P out s -> length data + length s + 1 < fuel -> length s < n ->
  exists out', u_io_unzip_copy gz_size fuel n out data = (out', Ok tt) /\ P out' [].
Proof.
  intros Hz HP Ho Hf Hn. unfold u_io_unzip_copy. destruct (gzip_create_uncompress gz_size data s Hz) as (iz & -> & Hr).
  destruct (mem_fresh (K:=codec_gzip) data) as [M1 M2].
  destruct (decoding_start (io_mem_create data (length data) false) [iz] s (length data + length s) M1 eq_refl) as [Hd Hl];
    [by rewrite M2|done|]. change (add_codecs _ [iz]) with (io_codec_add_tail (io_mem_create data (length data) false) iz) in Hd, Hl.
  destruct (io_pipe_coded P fuel n out _ s _ HP Ho Hd ltac:(rewrite Hl; simpl; lia) Hn) as (out' & ios' & w' & -> & H1 & _).
  destruct (io_free fuel ios') as [[? ?] ?]. by exists out'.
Qed.

(** A block that was compressed is copied to a stream as it was before. *)
Theorem unzip_copy_output (gz_size fuel n m : nat) (out : io D C) (s : list byte) :
  writable out -> room out (length s + m) -> length (z_compress s) + length s + 1 < fuel -> length s < n ->
  exists out', u_io_unzip_copy gz_size fuel n out (z_compress s) = (out', Ok tt) /\ writable out' /\ room out' m /\
    outstream out' = outstream out ++ s.
Proof.
  intros Hw Hr Hf Hn.
  destruct (unzip_copy_takes (takes_plain (outstream out ++ s) fuel m) gz_size fuel n out (z_compress s) s (z_roundtrip s)) as (out' & -> & W & R & O & _);
    [apply takes_plain_write|split_and!; try done; lia|done|done|].
  exists out'. rewrite app_nil_r in O. by split_and!.
Qed.
End unzip_spec.

(** ** A format without compression *)

(** Each byte is preceded by 1, and 0 ends the data. *)
Definition store (s : list byte) : list byte := concat (map (fun b => [x01; b]) s).

(** What an uncompressing stream expects: a mark, the byte after one, nothing more. *)
Inductive st_mode := SMark | SByte | SEnd.

Fixpoint unstore (m : st_mode) (z : list byte) : option (list byte) :=
  match m, z with
  | SEnd, [] => Some []
  | SMark, b :: z' =>
      if decide (b = x01) then unstore SByte z' else if decide (b = x00) then unstore SEnd z' else None
  | SByte, b :: z' => cons b <$> unstore SMark z'
  | _, _ => None
  end.

(** The bytes of [z] that are data, and the mode after them. *)
Fixpoint unstore_run (m : st_mode) (z : list byte) : option (st_mode * list byte) :=
  match z with
  | [] => Some (m, [])
  | b :: z' =>
      match m with
      | SMark => if decide (b = x01) then unstore_run SByte z' else if decide (b = x00) then unstore_run SEnd z' else None
      | SByte => prod_map id (cons b) <$> unstore_run SMark z'
      | SEnd => None
      end
  end.

Record st_stream := mkSt { st_out : list byte; st_mo : st_mode; st_fin : bool }.

#[local] Instance stored : Zlib := {|
  z_stream := st_stream;
  deflateInit2 := Some (mkSt [] SMark false);
  inflateInit2 := Some (mkSt [] SMark false);
  deflate := fun st fl src cap =>
    let fin := match fl with Z_FINISH => true | Z_NO_FLUSH => st_fin st end in
    let out := st_out st ++ store src ++ (if fin && negb (st_fin st) then [x00] else []) in
    (mkSt (drop cap out) SMark fin, if fin && bool_decide (length out < cap) then Z_STREAM_END else Z_OK, take cap out, length src);
  inflate := fun st fl src cap =>
    match unstore_run (st_mo st) src with
    | Some (m, data) =>
        let out := st_out st ++ data in
        (mkSt (drop cap out) m false,
         match m with SEnd => if decide (length out < cap) then Z_STREAM_END else Z_OK
                    | _ => if decide (out = [] /\ src = []) then Z_ERROR else Z_OK end,
         take cap out, length src)
    | None => (st, Z_ERROR, [], 0)
    end;
  deflateEnd := fun _ => true;
  inflateEnd := fun _ => true
|}.

Lemma unstore_run_app (m : st_mode) (z1 z2 o : list byte) : unstore m (z1 ++ z2) = Some o ->
  exists m' d o', unstore_run m z1 = Some (m', d) /\ o = d ++ o' /\ unstore m' z2 = Some o'.
Proof.
  revert m o. induction z1 as [|b z1 IH]; intros m o H; [by exists m, [], o|]. simpl in *. destruct m.
  - case_decide; [by apply IH|]. case_decide; [by apply IH|done].
  - apply fmap_Some in H as (o1 & H & ->). destruct (IH _ _ H) as (m' & d & o' & -> & -> & ?). by exists m', (b :: d), o'.
  - done.
Qed.

Lemma unstore_store (s z : list byte) : unstore SMark (store s ++ z) = app s <$> unstore SMark z.
Proof.
  induction s as [|b s IH]; [simpl; by destruct (unstore SMark z)|]. cbn [store map concat app unstore] in *. rewrite decide_True by done.
  fold (store s). rewrite IH. by destruct (unstore SMark z).
Qed.

Lemma take_drop_full {A} (l : list A) (cap : nat) : cap <= length l -> length (take cap l) = cap.
Proof. intros H. rewrite length_take. lia. Qed.

#[local] Instance stored_spec : ZlibSpec stored.
Proof.
  refine {| z_compress := fun s => store s ++ [x00]; z_uncompress := unstore SMark;
    defl := fun st s o => if st_fin st then s = [] /\ o = st_out st else o = st_out st ++ store s ++ [x00];
    infl := fun st z o => exists o', unstore (st_mo st) z = Some o' /\ o = st_out st ++ o' |}.
  - intros s. rewrite unstore_store. simpl. by rewrite app_nil_r.
  - intros s. by eexists.
  - intros z s H. eexists. split; [done|]. by exists s.
  - intros [out m fin] src rest o cap H Hc Hs. cbn [st_fin st_out] in H. destruct fin; [cbn in H; by destruct H as [[? ?]%app_eq_nil _]|].
    cbn [deflate stored st_fin st_out andb]. rewrite app_nil_r. eexists _, _, _, _. split; [done|].
    split_and!; [done|rewrite length_take; lia|by left| |].
    + rewrite H. unfold store. rewrite map_app, concat_app, <- !app_assoc. rewrite app_assoc.
      rewrite <- (take_drop cap (out ++ concat (map (fun b => [x01; b]) src))) at 1. rewrite <- app_assoc. reflexivity.
    + cbn [st_fin st_out]. rewrite drop_all. done.
  - intros [out m fin] o cap H Hc. cbn [st_fin st_out] in H. cbn [deflate stored st_fin st_out store map concat app].
    assert (out ++ (if true && negb fin then [x00] else []) = o) as ->.
    { destruct fin; simpl; [destruct H as [_ ->]; by rewrite app_nil_r|by rewrite H]. }
    exists (mkSt (drop cap o) SMark true), (take cap o). split; [rewrite length_take; lia|]. destruct (decide (length o < cap)) as [Hl|Hl].
    + left. rewrite bool_decide_true by done. split; [done|]. by rewrite take_ge by lia.
    + right. rewrite bool_decide_false by done. exists (drop cap o). split_and!; [done|apply take_drop_full; lia|by rewrite take_drop|done].
  - intros [out m fin] src rest o cap (o1 & H & ->) Hc Hs. cbn [st_mo st_out] in *.
    destruct (unstore_run_app m src rest o1 H) as (m' & d & o' & E & -> & H'). cbn [inflate stored st_mo st_out]. rewrite E.
    eexists _, _, _, _, (drop cap (out ++ d) ++ o'). split; [done|]. split_and!; [done|rewrite length_take; lia|by left| |].
    { rewrite (app_assoc (take _ _)), take_drop. by rewrite <- app_assoc. }
    rewrite drop_all, app_nil_l. cbn [st_mo st_out].
    destruct m'; [left; rewrite decide_False by (by intros [_ ?]); split; [done|by exists o']
                 |left; rewrite decide_False by (by intros [_ ?]); split; [done|by exists o']|].
    destruct rest; [|done]. injection H' as <-. case_decide as Hl; [right|left].
    + split_and!; try done. by rewrite drop_ge by lia.
    + split; [done|]. by exists [].
  - intros [out m fin] o cap (o' & H & ->) Hc. cbn [st_mo st_out] in *. destruct m; [done|done|]. injection H as <-.
    cbn [inflate stored unstore_run st_mo st_out length]. rewrite !app_nil_r.
    exists (mkSt (drop cap out) SEnd false), (take cap out). split; [rewrite length_take; lia|].
    case_decide as Hl; [left|right].
    + split; [done|]. by rewrite take_ge by lia.
    + exists (drop cap out). split_and!; [done|apply take_drop_full; lia|by rewrite take_drop|]. exists []. by rewrite app_nil_r.
Defined.
