(* ===== verification/Cipher.v ===== *)
(** The encrypting codec of src/src/libcodec/cipher.c, and [u_cipher_encrypt] and
    [u_cipher_decrypt] of src/src/libutils/utils.c, in the build with OpenSSL.

    OpenSSL is a parameter: [Evp] has the calls of one cipher that the code makes and
    [EvpSpec] what its manual promises of them.  Under it the codec is a [Coder] that
    produces the encrypted form of its whole input, or the text that its input is the
    encrypted form of, and never writes past its buffer.  A block cipher with padding is an
    instance. *)

From S2P Require Import Prelude Libu Io IoSpec IoMem Codec Filter Coder.

Inductive cipher_op := CIPHER_ENCRYPT | CIPHER_DECRYPT.

(** [EVP_EncryptInit_ex] and [EVP_DecryptInit_ex] on a key and a vector ([None] is NULL), [Update] and
    [Final_ex]: [None] is a return of 0. *)
Class Evp := {
  evp_ctx : Type;
  EVP_CIPHER_block_size : nat;
  EVP_Init_ex : cipher_op -> list byte -> option (list byte) -> option evp_ctx;
  EVP_Update : cipher_op -> evp_ctx -> list byte -> evp_ctx * option (list byte);
  EVP_Final_ex : cipher_op -> evp_ctx -> evp_ctx * option (list byte)
}.

(** [ev op ctx s o]: the context, given [s] more and then finished, writes [o] more.  An
    update writes less than a block more than it reads, and the end at most one block. *)
Class EvpSpec (E : Evp) := {
  evp_encrypt : list byte -> option (list byte) -> list byte -> list byte;
  evp_decrypt : list byte -> option (list byte) -> list byte -> option (list byte);
  evp_roundtrip (key : list byte) (iv : option (list byte)) (s : list byte) :
    evp_decrypt key iv (evp_encrypt key iv s) = Some s;
  evp_encrypt_size (key : list byte) (iv : option (list byte)) (s : list byte) :
    length s <= length (evp_encrypt key iv s) <= length s + EVP_CIPHER_block_size;
  ev : cipher_op -> evp_ctx -> list byte -> list byte -> Prop;
  evp_block_pos : 0 < EVP_CIPHER_block_size;
  ev_init_encrypt (key : list byte) (iv : option (list byte)) (s : list byte) :
    exists ctx, EVP_Init_ex CIPHER_ENCRYPT key iv = Some ctx /\ ev CIPHER_ENCRYPT ctx s (evp_encrypt key iv s);
  ev_init_decrypt (key : list byte) (iv : option (list byte)) (z s : list byte) : evp_decrypt key iv z = Some s ->
    exists ctx, EVP_Init_ex CIPHER_DECRYPT key iv = Some ctx /\ ev CIPHER_DECRYPT ctx z s;
  ev_update (op : cipher_op) (ctx : evp_ctx) (src rest o : list byte) : ev op ctx (src ++ rest) o -> src <> [] ->
    exists ctx' out o', EVP_Update op ctx src = (ctx', Some out) /\ length out <= length src + EVP_CIPHER_block_size - 1 /\
      o = out ++ o' /\ ev op ctx' rest o';
  ev_final (op : cipher_op) (ctx : evp_ctx) (o : list byte) : ev op ctx [] o ->
    exists ctx', EVP_Final_ex op ctx = (ctx', Some o) /\ length o <= EVP_CIPHER_block_size
}.

Definition CODEC_CIPHER_MAX_INPUT : nat := N.to_nat 4096.

Section cipher.
Context {L : Libu} {E : Evp}.

(** [cc_final]: the [final] pointer is not NULL.  [cc_overrun]: more was written to [cbuf] than
    it has room for. *)
Record codec_cipher := mkCc {
  cc_op : cipher_op;
  cc_ctx : evp_ctx;
  cc_buf : list byte;
  cc_off : nat;
  cc_count : nat;
  cc_final : bool;
  cc_overrun : bool
}.

Definition cbuf_size : nat := CODEC_CIPHER_MAX_INPUT + EVP_CIPHER_block_size - 1.

(** [codec_cbufcpy] *)
Definition codec_cbufcpy (cc : codec_cipher) (cap : nat) : codec_cipher * list byte :=
  let count := min cap (cc_count cc) in
  let left := cc_count cc - count in
  (mkCc (cc_op cc) (cc_ctx cc) (cc_buf cc) (if decide (left <> 0) then cc_off cc + count else 0) left (cc_final cc) (cc_overrun cc),
   mread (cc_buf cc) (cc_off cc) count).

(** The context writes [out] to the start of [cbuf]. *)
Definition cbuf_put (cc : codec_cipher) (ctx : evp_ctx) (out : list byte) (fin : bool) : codec_cipher :=
  mkCc (cc_op cc) ctx (mwrite (cc_buf cc) 0 out) (cc_off cc) (cc_count cc + length out) fin
       (cc_overrun cc || bool_decide (cbuf_size < length out)).

Definition cipher_flush (cc : codec_cipher) (cap : nat) : codec_cipher * option (flush_rc * list byte * nat) :=
  if decide (cc_count cc <> 0) then
    let '(cc', out) := codec_cbufcpy cc cap in (cc', Some (CODEC_FLUSH_CHUNK, out, length out))
  else if cc_final cc then
    let '(ctx, r) := EVP_Final_ex (cc_op cc) (cc_ctx cc) in
    match r with
    | None => (mkCc (cc_op cc) ctx (cc_buf cc) (cc_off cc) (cc_count cc) true (cc_overrun cc), None)
    | Some out =>
        let cc1 := cbuf_put cc ctx out false in
        if decide (out = []) then (cc1, Some (CODEC_FLUSH_COMPLETE, [], 0))
        else let '(cc2, o) := codec_cbufcpy cc1 cap in (cc2, Some (CODEC_FLUSH_CHUNK, o, length o))
    end
  else (cc, Some (CODEC_FLUSH_COMPLETE, [], 0)).

Definition cipher_transform (cc : codec_cipher) (cap : nat) (src : list byte) : codec_cipher * option (list byte * nat) :=
  if decide (cap = 0 \/ src = []) then (cc, None) else
  if decide (cc_count cc <> 0) then
    let '(cc', out) := codec_cbufcpy cc cap in (cc', Some (out, 0))
  else
    let c := min (length src) CODEC_CIPHER_MAX_INPUT in
    let '(ctx, r) := EVP_Update (cc_op cc) (cc_ctx cc) (take c src) in
    match r with
    | None => (mkCc (cc_op cc) ctx (cc_buf cc) (cc_off cc) (cc_count cc) (cc_final cc) (cc_overrun cc), None)
    | Some out =>
        let cc1 := cbuf_put cc ctx out (cc_final cc) in
        if decide (out = []) then (cc1, Some ([], c))
        else let '(cc2, o) := codec_cbufcpy cc1 cap in (cc2, Some (o, c))
    end.

Variable cc_size : nat.                (* sizeof(codec_cipher_t) *)

Definition codec_cipher_create (op : cipher_op) (key : list byte) (iv : option (list byte)) : res codec_cipher :=
  if u_alloc cc_size then
    if u_alloc cbuf_size then
      match EVP_Init_ex op key iv with
      | Some ctx => Ok (mkCc op ctx (replicate cbuf_size x00) 0 0 true false)
      | None => Fail
      end
    else Fail
  else Fail.

#[global] Instance cipher_ops : CodecOps codec_cipher := {|
  c_transform := cipher_transform;
  c_flush := cipher_flush
|}.

(** [u_cipher_encrypt] and [u_cipher_decrypt]: what is written to [dst]. *)
Definition u_cipher_crypt (op : cipher_op) (key iv src : list byte) : res (list byte) :=
  match EVP_Init_ex op key (Some iv) with
  | Some ctx =>
      let '(ctx1, r1) := EVP_Update op ctx src in
      match r1 with
      | Some out1 =>
          let '(_, r2) := EVP_Final_ex op ctx1 in
          match r2 with Some out2 => Ok (out1 ++ out2) | None => Fail end
      | None => Fail
      end
  | None => Fail
  end.
Definition u_cipher_encrypt : list byte -> list byte -> list byte -> res (list byte) := u_cipher_crypt CIPHER_ENCRYPT.
Definition u_cipher_decrypt : list byte -> list byte -> list byte -> res (list byte) := u_cipher_crypt CIPHER_DECRYPT.
End cipher.
Arguments codec_cipher {E}.
Arguments mkCc {E} _ _ _ _ _ _ _.

Lemma CODEC_CIPHER_MAX_INPUT_buf : CODEC_CIPHER_MAX_INPUT = CODEC_BUFSZ.
Proof. done. Qed.

#[global] Opaque CODEC_CIPHER_MAX_INPUT.

Section cipher_spec.
Context {L : Libu} {LM : LibuMem L} {E : Evp} {ES : EvpSpec E}.

(** The window of a codec lies in its buffer, which nothing was written past. *)
Definition cc_wf (cc : codec_cipher) : Prop :=
  length (cc_buf cc) = cbuf_size /\ cc_off cc + cc_count cc <= cbuf_size /\ (cc_count cc = 0 -> cc_off cc = 0) /\ cc_overrun cc = false.

Definition cc_win (cc : codec_cipher) : list byte := mread (cc_buf cc) (cc_off cc) (cc_count cc).

Definition cc_rel (cc : codec_cipher) (s o : list byte) : Prop :=
  cc_wf cc /\ exists o', o = cc_win cc ++ o' /\ if cc_final cc then ev (cc_op cc) (cc_ctx cc) s o' else s = [] /\ o' = [].

Lemma cc_win_length (cc : codec_cipher) : cc_wf cc -> length (cc_win cc) = cc_count cc.
Proof. intros (H1 & H2 & _). apply length_mread. lia. Qed.

(** Copying part of the window out. *)
Lemma cbufcpy_spec (cc : codec_cipher) (cap : nat) : cc_wf cc ->
  let '(cc', out) := codec_cbufcpy cc cap in
  cc_wf cc' /\ cc_win cc = out ++ cc_win cc' /\ length out = min cap (cc_count cc) /\
  cc_op cc' = cc_op cc /\ cc_ctx cc' = cc_ctx cc /\ cc_final cc' = cc_final cc.
Proof.
  intros (H1 & H2 & H3 & H4). unfold codec_cbufcpy, cc_wf. split_and!; try done; cbn [cc_off cc_count cc_buf].
  - case_decide; lia.
  - intros H0. by rewrite decide_False by lia.
  - unfold cc_win. cbn [cc_off cc_count cc_buf]. rewrite (mread_split _ _ (min cap (cc_count cc)) (cc_count cc)) by lia. f_equal.
    case_decide as Hd; [done|]. by replace (cc_count cc - min cap (cc_count cc)) with 0 by lia.
  - rewrite length_mread; lia.
Qed.

(** Filling an empty buffer. *)
Lemma cbuf_put_spec (cc : codec_cipher) (ctx : evp_ctx) (out : list byte) (fin : bool) :
  cc_wf cc -> cc_count cc = 0 -> length out <= cbuf_size ->
  cc_wf (cbuf_put cc ctx out fin) /\ cc_win (cbuf_put cc ctx out fin) = out.
Proof.
  intros (H1 & H2 & H3 & H4) H0 Hl. split.
  - unfold cc_wf. cbn [cbuf_put cc_buf cc_off cc_count cc_overrun]. rewrite length_mwrite by lia. rewrite H0, H3, H4, bool_decide_false by lia.
    split_and!; done || lia.
  - unfold cc_win. cbn [cbuf_put cc_buf cc_off cc_count]. rewrite H0, H3 by done. rewrite mread_mwrite by (done || lia). done.
Qed.

Lemma cipher_transform_spec (cc : codec_cipher) (cap : nat) (src rest o : list byte) :
  cc_rel cc (src ++ rest) o -> 0 < cap -> src <> [] ->
  exists cc' out c o', cipher_transform cc cap src = (cc', Some (out, c)) /\ c <= length src /\ length out <= cap /\
    (c <> 0 \/ out <> []) /\ (out = [] -> length src <= CODEC_BUFSZ -> c = length src) /\
    o = out ++ o' /\ cc_rel cc' (drop c src ++ rest) o'.
Proof.
  intros (Hwf & o1 & -> & Hev) Hc Hs. unfold cipher_transform. rewrite decide_False by (intros [?|?]; [lia|done]).
  assert (cc_final cc = true) as Hfin by (destruct (cc_final cc); [done|]; by destruct Hev as [[? ?]%app_eq_nil _]).
  assert (0 < length src) as Hls by (destruct src; [done|simpl; lia]).
  case_decide as Hcc.
  - pose proof (cbufcpy_spec cc cap Hwf) as H. destruct (codec_cbufcpy cc cap) as [cc' out]. destruct H as (H1 & H2 & H3 & H4 & H5 & H6).
    assert (out <> []) as Hne by (intros ->; simpl in H3; lia).
    exists cc', out, 0, (cc_win cc' ++ o1). split; [done|]. split_and!; try done; [lia|lia|by right|by rewrite H2, app_assoc|].
    split; [done|]. exists o1. split; [done|]. by rewrite H6, H4, H5, Hfin in *.
  - set (c := min (length src) CODEC_CIPHER_MAX_INPUT).
    assert (0 < c <= length src /\ c <= CODEC_CIPHER_MAX_INPUT) as [Hc1 Hc2].
    { unfold c. rewrite CODEC_CIPHER_MAX_INPUT_buf. pose proof CODEC_BUFSZ_pos. lia. }
    assert (length src <= CODEC_BUFSZ -> c = length src) as Hc3 by (unfold c; rewrite CODEC_CIPHER_MAX_INPUT_buf; lia).
    clearbody c. rewrite Hfin in Hev. rewrite <- (take_drop c src), <- app_assoc in Hev.
    assert (length (take c src) = c) as Hlt by (rewrite length_take; lia).
    destruct (ev_update _ _ _ _ _ Hev) as (ctx & out & o' & Eu & Hl & -> & Hev'); [intros Hn; rewrite Hn in Hlt; simpl in Hlt; lia|].
    rewrite Eu. rewrite Hlt in Hl. destruct (cbuf_put_spec cc ctx out (cc_final cc) Hwf Hcc ltac:(unfold cbuf_size; lia)) as [P1 P2].
    assert (cc_win cc = []) as Hw0 by (unfold cc_win; by rewrite Hcc). rewrite Hw0, app_nil_l.
    set (cc1 := cbuf_put cc ctx out (cc_final cc)) in *. case_decide as Ho.
    + exists cc1, [], c, o'. split; [done|]. split_and!; try done; try (simpl; lia); [by rewrite Ho|].
      split; [done|]. exists o'. rewrite P2, Ho. split; [done|]. unfold cc1. cbn [cbuf_put cc_final cc_op cc_ctx]. by rewrite Hfin.
    + pose proof (cbufcpy_spec cc1 cap P1) as H. destruct (codec_cbufcpy cc1 cap) as [cc2 out2]. destruct H as (H1 & H2 & H3 & H4 & H5 & H6).
      rewrite P2 in H2. exists cc2, out2, c, (cc_win cc2 ++ o'). split; [done|].
      assert (out2 <> []) as Hne.
      { intros ->. cbn [length] in H3. pose proof (cc_win_length cc1 P1) as Hw1. rewrite P2 in Hw1. destruct out; [done|cbn [length] in Hw1; lia]. }
      split_and!; try done; try lia; [by rewrite H2, app_assoc|].
      split; [done|]. exists o'. split; [done|]. rewrite H6, H4, H5. unfold cc1. cbn [cbuf_put cc_final cc_op cc_ctx]. by rewrite Hfin.
Qed.

Lemma cipher_flush_spec (cc : codec_cipher) (cap : nat) (o : list byte) : cc_rel cc [] o ->
  exists cc', (cipher_flush cc cap = (cc', Some (CODEC_FLUSH_COMPLETE, [], 0)) /\ o = [] /\ cc_rel cc' [] []) \/
    (exists out o', cipher_flush cc cap = (cc', Some (CODEC_FLUSH_CHUNK, out, length out)) /\ length out <= cap /\
       (0 < cap -> out <> []) /\ o = out ++ o' /\ cc_rel cc' [] o').
Proof.
  assert (forall k, cc_wf k -> cc_count k <> 0 -> let '(k', out) := codec_cbufcpy k cap in
    cc_wf k' /\ cc_win k = out ++ cc_win k' /\ length out <= cap /\ (0 < cap -> out <> []) /\
    cc_op k' = cc_op k /\ cc_ctx k' = cc_ctx k /\ cc_final k' = cc_final k) as Hcp.
  { intros k Hk Hn. pose proof (cbufcpy_spec k cap Hk) as H. destruct (codec_cbufcpy k cap) as [k' out].
    destruct H as (H1 & H2 & H3 & H4 & H5 & H6). split_and!; try done; [lia|]. intros Hc ->. simpl in H3. lia. }
  intros (Hwf & o1 & -> & Hev). unfold cipher_flush. case_decide as Hcc.
  - specialize (Hcp cc Hwf Hcc). destruct (codec_cbufcpy cc cap) as [cc' out]. destruct Hcp as (H1 & H2 & H3 & H4 & H5 & H6 & H7).
    exists cc'. right. exists out, (cc_win cc' ++ o1). rewrite H2, <- app_assoc. split_and!; try done. split; [done|]. exists o1. by rewrite H5, H6, H7.
  - assert (cc_win cc = []) as Hw0 by (unfold cc_win; by rewrite Hcc). rewrite Hw0, app_nil_l.
    destruct (cc_final cc) eqn:Hfin.
    2:{ destruct Hev as [_ ->]. exists cc. left. split_and!; try done. split; [done|]. exists []. by rewrite Hw0, Hfin. }
    destruct (ev_final _ _ _ Hev) as (ctx & -> & Hl).
    assert (length o1 <= cbuf_size) as Hl' by (unfold cbuf_size; rewrite CODEC_CIPHER_MAX_INPUT_buf; pose proof CODEC_BUFSZ_pos; lia).
    destruct (cbuf_put_spec cc ctx o1 false Hwf Hcc Hl') as [P1 P2]. set (cc1 := cbuf_put cc ctx o1 false) in *. case_decide as Ho.
    + exists cc1. left. split_and!; try done. split; [done|]. exists []. split; [by rewrite P2, Ho|done].
    + specialize (Hcp cc1 P1). rewrite <- (cc_win_length cc1 P1), P2 in Hcp. destruct (codec_cbufcpy cc1 cap) as [cc2 out2].
      destruct Hcp as (H1 & -> & H3 & H4 & H5 & H6 & H7); [by destruct o1|].
      exists cc2. right. exists out2, (cc_win cc2). split_and!; try done. split; [done|]. exists []. rewrite app_nil_r, H7. done.
Qed.

#[global] Instance cipher_coder : Coder codec_cipher.
Proof.
  refine {| co_rel := cc_rel; co_tail := fun _ => false; co_flush0 := fun _ => true |}; cbn [c_transform c_flush cipher_ops].
  - intros cc cap src rest o H Hc Hs.
    destruct (cipher_transform_spec cc cap src rest o H Hc Hs) as (cc' & out & c & o' & -> & H1 & H2 & H3 & H4 & H5 & H6).
    exists cc', out, c, o'. by split_and!.
  - intros cc cap o H _.
    destruct (cipher_flush_spec cc cap o H) as (cc' & [(-> & -> & Hr)|(out & o' & -> & Hl & Hn & -> & Hr)]);
      exists cc'; (do 2 (split; [done|])); [left; by exists 0|right]. by exists out, o'.
Defined.

Lemma cc_fresh (op : cipher_op) (ctx : evp_ctx) (s o : list byte) :
  ev op ctx s o -> cc_rel (mkCc op ctx (replicate cbuf_size x00) 0 0 true false) s o.
Proof. intros H. split; [|by exists o]. split_and!; try done; [apply length_replicate|simpl; lia]. Qed.

Lemma cipher_create_encrypt (cc_size : nat) (key : list byte) (iv : option (list byte)) (s : list byte) :
  exists cc, codec_cipher_create cc_size CIPHER_ENCRYPT key iv = Ok cc /\ cc_rel cc s (evp_encrypt key iv s).
Proof.
  unfold codec_cipher_create. rewrite !u_alloc_ok. destruct (ev_init_encrypt key iv s) as (ctx & -> & H).
  eexists. split; [done|]. by apply cc_fresh.
Qed.

Lemma cipher_create_decrypt (cc_size : nat) (key : list byte) (iv : option (list byte)) (z s : list byte) :
  evp_decrypt key iv z = Some s ->
  exists cc, codec_cipher_create cc_size CIPHER_DECRYPT key iv = Ok cc /\ cc_rel cc z s.
Proof.
  intros Hz. unfold codec_cipher_create. rewrite !u_alloc_ok. destruct (ev_init_decrypt key iv z s Hz) as (ctx & -> & H).
  eexists. split; [done|]. by apply cc_fresh.
Qed.

Lemma u_cipher_crypt_spec (op : cipher_op) (key iv src o : list byte) (ctx : evp_ctx) :
  EVP_Init_ex op key (Some iv) = Some ctx -> ev op ctx src o -> src <> [] -> u_cipher_crypt op key iv src = Ok o.
Proof.
  intros Hi He Hs. unfold u_cipher_crypt. rewrite Hi. rewrite <- (app_nil_r src) in He.
  destruct (ev_update _ _ _ _ _ He Hs) as (ctx1 & o1 & o2 & -> & _ & -> & He').
  by destruct (ev_final _ _ _ He') as (ctx2 & -> & _).
Qed.
End cipher_spec.

(** ** A block cipher with padding *)

(** Blocks of four bytes, each complemented under a key that is not empty; the padding
    counts itself. *)
Definition flip (on : bool) (b : byte) : byte := if on then zb (255 - bz b) else b.

Lemma flip_flip (on : bool) (s : list byte) : map (flip on) (map (flip on) s) = s.
Proof. induction s as [|b s IH]; [done|]. simpl. f_equal; [|done]. destruct on; [by destruct b|done]. Qed.

Definition pad_len (n : nat) : nat := 4 - n mod 4.
Definition padded (s : list byte) : list byte := s ++ replicate (pad_len (length s)) (zb (Z.of_nat (pad_len (length s)))).

Definition unpad (x : list byte) : option (list byte) :=
  let p := Z.to_nat (bz (List.last x x00)) in
  if decide (x <> [] /\ length x mod 4 = 0 /\ 1 <= p <= 4) then Some (take (length x - p) x) else None.

Lemma pad_len_range (n : nat) : 1 <= pad_len n <= 4 /\ (n + pad_len n) mod 4 = 0.
Proof.
  unfold pad_len. pose proof (Nat.mod_upper_bound n 4 ltac:(lia)). split; [lia|].
  pose proof (Nat.div_mod_eq n 4) as Hd. symmetry. apply (Nat.mod_unique _ 4 (n / 4 + 1) 0); lia.
Qed.

Lemma padded_app (a b : list byte) : length a mod 4 = 0 -> padded (a ++ b) = a ++ padded b.
Proof.
  intros Ha. unfold padded. rewrite length_app. replace (pad_len (length a + length b)) with (pad_len (length b)); [by rewrite app_assoc|].
  unfold pad_len. by rewrite Nat.Div0.add_mod, Ha, Nat.add_0_l, Nat.Div0.mod_mod.
Qed.

Lemma unpad_padded (s : list byte) : unpad (padded s) = Some s.
Proof.
  unfold unpad, padded. destruct (pad_len_range (length s)) as [H1 H2]. set (p := pad_len (length s)) in *.
  assert (List.last (s ++ replicate p (zb (Z.of_nat p))) x00 = zb (Z.of_nat p)) as ->.
  { destruct p as [|p']; [lia|]. rewrite replicate_S_end, app_assoc. apply List.last_last. }
  rewrite bz_zb, Z.mod_small, Nat2Z.id by lia. rewrite length_app, length_replicate, decide_True.
  - rewrite Nat.add_sub. by rewrite take_app_length.
  - split_and!; try lia. destruct s; [|done]. by destruct p; [lia|].
Qed.

Lemma unpad_app (a b o : list byte) : length a mod 4 = 0 -> b <> [] -> unpad (a ++ b) = Some o ->
  exists o', o = a ++ o' /\ unpad b = Some o'.
Proof.
  intros Ha Hb. unfold unpad. case_decide as Hd; [|done]. destruct Hd as (_ & H2 & H3). intros [= <-].
  assert (List.last (a ++ b) x00 = List.last b x00) as Hl.
  { destruct (exists_last Hb) as (b' & x & ->). by rewrite app_assoc, !List.last_last. }
  rewrite Hl in *. rewrite length_app in *. rewrite Nat.Div0.add_mod, Ha, Nat.add_0_l, Nat.Div0.mod_mod in H2.
  assert (4 <= length b) as H4.
  { destruct (decide (length b < 4)); [|lia]. rewrite Nat.mod_small in H2 by done. by destruct b. }
  rewrite decide_True by done. set (p := Z.to_nat _) in *. exists (take (length b - p) b). split; [|done].
  rewrite take_app_ge by lia. do 2 f_equal. lia.
Qed.

(** The first bytes of [buf] that make [n] whole blocks. *)
Definition blocks (n : nat) : nat := 4 * (n / 4).

Lemma blocks_le (n : nat) : blocks n <= n < blocks n + 4 /\ blocks n mod 4 = 0.
Proof.
  unfold blocks. pose proof (Nat.div_mod_eq n 4). pose proof (Nat.mod_upper_bound n 4 ltac:(lia)).
  split; [lia|]. rewrite Nat.mul_comm. apply Nat.Div0.mod_mul.
Qed.

Record flip_ctx := mkFlip { fl_on : bool; fl_held : list byte }.

#[local] Instance flips : Evp := {|
  evp_ctx := flip_ctx;
  EVP_CIPHER_block_size := 4;
  EVP_Init_ex := fun _ key iv => Some (mkFlip (bool_decide (key <> [])) []);
  EVP_Update := fun op ctx src =>
    let buf := fl_held ctx ++ src in
    let n := match op with CIPHER_ENCRYPT => blocks (length buf) | CIPHER_DECRYPT => blocks (length buf - 1) end in
    (mkFlip (fl_on ctx) (drop n buf), Some (map (flip (fl_on ctx)) (take n buf)));
  EVP_Final_ex := fun op ctx =>
    (ctx, match op with
          | CIPHER_ENCRYPT => Some (map (flip (fl_on ctx)) (padded (fl_held ctx)))
          | CIPHER_DECRYPT => unpad (map (flip (fl_on ctx)) (fl_held ctx))
          end)
|}.

#[local] Instance flips_spec : EvpSpec flips.
Proof.
  refine {| evp_encrypt := fun key _ s => map (flip (bool_decide (key <> []))) (padded s);
    evp_decrypt := fun key _ z => unpad (map (flip (bool_decide (key <> []))) z);
    ev := fun op ctx s o =>
      match op with
      | CIPHER_ENCRYPT => length (fl_held ctx) < 4 /\ o = map (flip (fl_on ctx)) (padded (fl_held ctx ++ s))
      | CIPHER_DECRYPT => length (fl_held ctx) <= 4 /\ unpad (map (flip (fl_on ctx)) (fl_held ctx ++ s)) = Some o
      end |}; cbn [EVP_CIPHER_block_size flips].
  - intros key iv s. rewrite flip_flip. apply unpad_padded.
  - intros key iv s. rewrite length_map. unfold padded. rewrite length_app, length_replicate. pose proof (pad_len_range (length s)). lia.
  - lia.
  - intros key iv s. eexists. split; [done|]. simpl. split; [lia|done].
  - intros key iv z s H. eexists. split; [done|]. simpl. split; [lia|done].
  - intros op [on held] src rest o H Hs. cbn [fl_on fl_held] in H. cbn [EVP_Update flips fl_on fl_held].
    assert (0 < length src) by (destruct src; [done|simpl; lia]). rewrite app_assoc in H. set (buf := held ++ src) in *.
    assert (length buf = length held + length src) as Hlb by apply length_app. destruct op.
    + destruct H as [Hh ->]. destruct (blocks_le (length buf)) as [Hb Hm]. set (n := blocks (length buf)) in *.
      eexists _, _, _. split; [done|]. rewrite length_map, length_take. split_and!; [lia| |cbn [fl_held]; rewrite length_drop; lia|reflexivity].
      rewrite <- (take_drop n buf) at 1. rewrite <- app_assoc, padded_app, map_app; [done|]. rewrite length_take, Nat.min_l by lia. done.
    + destruct H as [Hh H]. destruct (blocks_le (length buf - 1)) as [Hb Hm]. set (n := blocks (length buf - 1)) in *.
      rewrite <- (take_drop n buf), <- app_assoc, map_app in H. apply unpad_app in H as (o' & -> & H).
      * eexists _, _, o'. split; [done|]. rewrite length_map, length_take. split_and!; [lia|done|cbn [fl_held]; rewrite length_drop; lia|done].
      * rewrite length_map, length_take, Nat.min_l by lia. done.
      * intros Hn. apply (f_equal length) in Hn. rewrite length_map, length_app, length_drop in Hn. simpl in Hn. lia.
  - intros op [on held] o H. cbn [fl_on fl_held] in H. cbn [EVP_Final_ex flips fl_on fl_held]. rewrite app_nil_r in H. destruct op.
    + destruct H as [Hh ->]. eexists. split; [done|]. rewrite length_map. unfold padded. rewrite length_app, length_replicate.
      unfold pad_len. rewrite Nat.mod_small by done. lia.
    + destruct H as [Hh H]. rewrite H. eexists. split; [done|]. unfold unpad in H. case_decide; [|done]. injection H as <-.
      rewrite length_take, length_map. lia.
Defined.
