(* ===== verification/SesCode.v ===== *)
(** Sessions that are saved compressed and encrypted: [session_prv_save_to_io] and
    [session_prv_load_from_io] of src/src/libpage/session.c with the codecs that the options
    [compress] and [encrypt] ask for, and the key of embedded contents,
    [session_set_cipher_key] and [session_get_cipher_key]. *)

From S2P Require Import Prelude Libu Encode Path Date Io IoSpec IoMem Codec Getline Header Vars Request Response.
From S2P Require Import Md5 Session Filter Coder Gzip Cipher.

Definition SESSION_KEY_VAR : list byte := bs "KLONE_CIPHER_KEY".

(** The options of the module that matter here. *)
Record crypt_opt := mkCrypt {
  so_compress : bool;
  so_encrypt : bool;
  so_cipher_key : list byte;
  so_cipher_iv : list byte;
  so_session_key : list byte;       (* for the variable that holds a key *)
  so_session_iv : list byte
}.

Section codecs.
Context {L : Libu} {Z : Zlib} {E : Evp}.
Variables KEY_LEN BLOCK_LEN : nat.            (* CODEC_CIPHER_KEY_LEN, CODEC_CIPHER_BLOCK_LEN *)
Abbreviation KEY_BUFSZ := (2 * KEY_LEN).

(** ** The variable that holds a key *)

Definition is_key (v : var) : bool := bool_decide (var_get_name v = SESSION_KEY_VAR).

Definition session_set_cipher_key (data : list byte) : prog session unit := fun ss =>
  if decide (data = []) then (ss, Fail) else
  match vars_get (ss_vars ss) SESSION_KEY_VAR with
  | Ok o =>
      let vs := match o with Some (k, _) => vars_del (ss_vars ss) k | None => ss_vars ss end in
      match var_bin_create SESSION_KEY_VAR data with
      | Ok v => let '(vs1, r) := vars_add vs v in (set_ss_vars ss vs1, r)
      | Fail => (set_ss_vars ss vs, Fail)
      | Fault => (set_ss_vars ss vs, Fault)
      | Timeout => (set_ss_vars ss vs, Timeout)
      end
  | Fail => (ss, Fail)
  | Fault => (ss, Fault)
  | Timeout => (ss, Timeout)
  end.

(** The key copied to a buffer of [sz] bytes, and the position of the variable that was
    released although the list still has it. *)
Definition session_get_cipher_key (ss : session) (sz : nat) : res (list byte) * option nat :=
  if decide (sz = 0) then (Fail, None) else
  match vars_get (ss_vars ss) SESSION_KEY_VAR with
  | Ok (Some (k, v)) =>
      if decide (sz <= var_get_value_size v) then (Fail, Some k)
      else (Ok (take (var_get_value_size v) (default [] (var_get_value v))), None)
  | Ok None => (Fail, None)
  | Fail => (Fail, None)
  | Fault => (Fault, None)
  | Timeout => (Timeout, None)
  end.

(** Saving replaces the key by its encrypted form, in the variable itself. *)
Definition seal_key (so : crypt_opt) (v : var) : var * res unit :=
  if decide (var_get_value_size v <> KEY_LEN) then (v, Fail) else
  match u_cipher_encrypt (so_session_key so) (so_session_iv so) (take KEY_LEN (default [] (var_get_value v))) with
  | Ok ekey => if decide (KEY_BUFSZ < length ekey) then (v, Fault) else var_set_bin_value v ekey
  | Fail => (v, Fail)
  | Fault => (v, Fault)
  | Timeout => (v, Timeout)
  end.

(** Loading decrypts the variable [v] that was added last, or deletes the first variable of
    the name. *)
Definition unseal_key (so : crypt_opt) (vs : vars) (v : var) : vars * res unit :=
  match u_cipher_decrypt (so_session_key so) (so_session_iv so) (take (var_get_value_size v) (default [] (var_get_value v))) with
  | Ok key =>
      if decide (KEY_BUFSZ < length key) then (vs, Fault) else
      let '(v', r) := var_set_bin_value v key in
      (mkVars (<[length (v_list vs) - 1 := v']> (v_list vs)) (v_foreign vs), r)
  | Fail =>
      match vars_get vs SESSION_KEY_VAR with
      | Ok (Some (k, _)) => (vars_del vs k, Ok tt)
      | Ok None => (vs, Fault)
      | Fail => (vs, Fail)
      | Fault => (vs, Fault)
      | Timeout => (vs, Timeout)
      end
  | Fault => (vs, Fault)
  | Timeout => (vs, Timeout)
  end.

(** ** Saving and loading *)

Abbreviation kcodec := (codec_gzip + codec_cipher)%type.
Variables gz_size cc_size : nat.
Context {D : Type} {DO : DevOps D}.

(** [session_prv_save_var] *)
Definition ssl_save_var (so : crypt_opt) (fuel : nat) (v : var) (i : io D kcodec) : var * io D kcodec * res unit :=
  let nsz := 1 + 3 * length (var_get_name v) in
  let vsz := 1 + 3 * var_get_value_size v + BLOCK_LEN in
  if bool_decide (NAMESZ <= nsz) && negb (u_alloc nsz) then (v, i, Fail) else
  match Url.u_urlncpy (var_get_name v ++ [x00]) (length (var_get_name v)) COPY_ENCODE with
  | Ok uname =>
      if decide (uname = []) then (v, i, Fail) else
      match var_get_value v with
      | Some _ =>
          if bool_decide (VALSZ <= vsz) && negb (u_alloc vsz) then (v, i, Fail) else
          let '(v1, r1) := if is_key v then seal_key so v else (v, Ok tt) in
          match r1 with
          | Ok _ =>
              match Url.u_urlncpy (default [] (var_get_value v1)) (var_get_value_size v1) COPY_ENCODE with
              | Ok uvalue =>
                  if decide (uvalue = []) then (v1, i, Fail) else
                  let '(i1, r) := io_printf fuel i (uname ++ bs "=" ++ uvalue ++ [x0a]) in (v1, i1, r)
              | Fail => (v1, i, Fail)
              | Fault => (v1, i, Fault)
              | Timeout => (v1, i, Timeout)
              end
          | Fail => (v1, i, Fail)
          | Fault => (v1, i, Fault)
          | Timeout => (v1, i, Timeout)
          end
      | None => let '(i1, r) := io_printf fuel i (uname ++ bs "=" ++ [x0a]) in (v, i1, r)
      end
  | Fail => (v, i, Fail)
  | Fault => (v, i, Fault)
  | Timeout => (v, i, Timeout)
  end.

(** [vars_foreach] with it: a failure stops the loop. *)
Fixpoint ssl_save_loop (so : crypt_opt) (fuel : nat) (l : list var) (i : io D kcodec) : list var * io D kcodec * res unit :=
  match l with
  | [] => ([], i, Ok tt)
  | v :: l' =>
      let '(v1, i1, r) := ssl_save_var so fuel v i in
      match r with
      | Ok _ => let '(l1, i2, r2) := ssl_save_loop so fuel l' i1 in (v1 :: l1, i2, r2)
      | Fail => (v1 :: l', i1, Fail)
      | Fault => (v1 :: l', i1, Fault)
      | Timeout => (v1 :: l', i1, Timeout)
      end
  end.

(** The [while] of [session_prv_load_from_io]. *)
Fixpoint ssl_load_loop (so : crypt_opt) (fuel n : nat) (vs : vars) (i : io D kcodec) : vars * io D kcodec * res unit :=
  match n with
  | 0 => (vs, i, Timeout)
  | S n' =>
      let '(i1, line, r) := u_getline fuel fuel i in
      match r with
      | Ok _ =>
          if decide (line = []) then ssl_load_loop so fuel n' vs i1 else
          let '(vs1, o) := vars_add_urlvar vs (cstr line) in
          match o with
          | Ok v =>
              let '(vs2, r2) := if is_key v then unseal_key so vs1 v else (vs1, Ok tt) in
              match r2 with
              | Ok _ => ssl_load_loop so fuel n' vs2 i1
              | Fail => (vs2, i1, Fail)
              | Fault => (vs2, i1, Fault)
              | Timeout => (vs2, i1, Timeout)
              end
          | Fail => (vs1, i1, Fail)
          | Fault => (vs1, i1, Fault)
          | Timeout => (vs1, i1, Timeout)
          end
      | Fail => (vs, i1, Ok tt)
      | Fault => (vs, i1, Fault)
      | Timeout => (vs, i1, Timeout)
      end
  end.

(** [codec_gzip_create] or [codec_cipher_create] and [io_codec_add_tail], when asked for. *)
Definition add_zip (op : gzip_op) (so : crypt_opt) (i : io D kcodec) : io D kcodec * res unit :=
  if so_compress so then
    match codec_gzip_create gz_size op with
    | Ok zip => (io_codec_add_tail i (inl zip), Ok tt)
    | _ => (i, Fail)
    end
  else (i, Ok tt).
Definition add_cipher (op : cipher_op) (so : crypt_opt) (i : io D kcodec) : io D kcodec * res unit :=
  if so_encrypt so then
    match codec_cipher_create cc_size op (so_cipher_key so) (Some (so_cipher_iv so)) with
    | Ok cc => (io_codec_add_tail i (inr cc), Ok tt)
    | _ => (i, Fail)
    end
  else (i, Ok tt).

(** The error branch of both functions. *)
Definition drop_codecs (fuel : nat) (i : io D kcodec) : io D kcodec * res unit :=
  let '(i', r) := io_codecs_remove fuel i in (i', _ ← ignored r; Fail).

(** [session_prv_save_to_io] *)
Definition ssl_save_to_io (so : crypt_opt) (fuel : nat) (ss : session) (out : io D kcodec) : session * io D kcodec * res unit :=
  let '(out1, r1) := add_zip GZIP_COMPRESS so out in
  match r1 with
  | Ok _ =>
      let '(out2, r2) := add_cipher CIPHER_ENCRYPT so out1 in
      match r2 with
      | Ok _ =>
          let '(l, out3, r3) := ssl_save_loop so fuel (v_list (ss_vars ss)) out2 in
          let '(out4, r4) := io_codecs_remove fuel out3 in
          (set_ss_vars ss (mkVars l (v_foreign (ss_vars ss))), out4, _ ← ignored r3; ignored r4)
      | _ => let '(o, r) := drop_codecs fuel out2 in (ss, o, r)
      end
  | _ => let '(o, r) := drop_codecs fuel out1 in (ss, o, r)
  end.

(** [session_prv_load_from_io] *)
Definition ssl_load_from_io (so : crypt_opt) (fuel n : nat) (ss : session) (inp : io D kcodec)
    : session * io D kcodec * res unit :=
  let '(i1, r1) := add_cipher CIPHER_DECRYPT so inp in
  match r1 with
  | Ok _ =>
      let '(i2, r2) := add_zip GZIP_UNCOMPRESS so i1 in
      match r2 with
      | Ok _ =>
          let '(vs, i3, r) := ssl_load_loop so fuel n (ss_vars ss) i2 in
          let '(i4, r4) := io_codecs_remove fuel i3 in
          (set_ss_vars ss vs, i4, a ← r; _ ← ignored r4; Ok a)
      | _ => let '(i3, r) := drop_codecs fuel i2 in (ss, i3, r)
      end
  | _ => let '(i3, r) := drop_codecs fuel i1 in (ss, i3, r)
  end.
End codecs.

Section coded_spec.
Context {L : Libu} {LS : LibuSpec L} {LM : LibuMem L} {Z : Zlib} {ZS : ZlibSpec Z} {E : Evp} {ES : EvpSpec E}.
Abbreviation kcodec := (codec_gzip + codec_cipher)%type.

(** What becomes of a text, first when it is compressed and then when it is encrypted. *)
Definition zipped (so : crypt_opt) (s : list byte) : list byte := if so_compress so then z_compress s else s.
Definition crypted (so : crypt_opt) (s : list byte) : list byte :=
  if so_encrypt so then evp_encrypt (so_cipher_key so) (Some (so_cipher_iv so)) (zipped so s) else zipped so s.

(** The bytes that go into and out of the codecs. *)
Definition crypt_work (so : crypt_opt) (s : list byte) : nat := length s + 2 * length (zipped so s) + length (crypted so s).

(** ** The key *)

(** The value of a variable that holds a key, as it is saved. *)
Definition sealed (so : crypt_opt) (v : var) : var :=
  if is_key v then
    let e := evp_encrypt (so_session_key so) (Some (so_session_iv so)) (var_bytes v) in
    mkVar (v_sname v) None (Some (e ++ [x00])) (length e) (v_opaque v)
  else v.

Lemma encrypt_nonempty (key : list byte) (iv : option (list byte)) (s : list byte) : s <> [] -> evp_encrypt key iv s <> [].
Proof. intros Hs H. pose proof (evp_encrypt_size key iv s) as Hl. rewrite H in Hl. destruct s; [done|simpl in Hl; lia]. Qed.

Lemma sealed_bytes (so : crypt_opt) (v : var) : saveable v -> saveable (sealed so v) /\ v_sname (sealed so v) = v_sname v /\
  var_bytes (sealed so v) = if is_key v then evp_encrypt (so_session_key so) (Some (so_session_iv so)) (var_bytes v) else var_bytes v.
Proof.
  intros Hv. unfold sealed. destruct (is_key v); [|done]. destruct (saveable_data v Hv) as (_ & _ & Hne).
  pose proof (encrypt_nonempty (so_session_key so) (Some (so_session_iv so)) _ Hne) as He. set (e := evp_encrypt _ _ _) in *.
  destruct Hv as (_ & _ & H3 & H4). split_and!; try done.
  - split_and!; try done. unfold var_ok. cbn [v_data v_size]. rewrite length_app, last_snoc. split_and!; try done; [simpl; lia|].
    destruct e; [done|simpl; lia].
  - unfold var_bytes. cbn [v_data v_size from_option id]. apply take_app_length.
Qed.

Lemma set_bin_value_fresh (v : var) (data : list byte) : data <> [] -> v_svalue v = None ->
  var_set_bin_value v data = (mkVar (v_sname v) None (Some (data ++ [x00])) (length data) (v_opaque v), Ok tt).
Proof. intros Hd Hs. unfold var_set_bin_value. rewrite Hs, u_alloc_ok, decide_True; [done|]. destruct data; [done|simpl; lia]. Qed.

Lemma crypt_inverse (key iv s : list byte) : s <> [] ->
  u_cipher_encrypt key iv s = Ok (evp_encrypt key (Some iv) s) /\ u_cipher_decrypt key iv (evp_encrypt key (Some iv) s) = Ok s.
Proof.
  intros Hs. destruct (ev_init_encrypt key (Some iv) s) as (c1 & I1 & E1).
  destruct (ev_init_decrypt key (Some iv) _ s (evp_roundtrip key (Some iv) s)) as (c2 & I2 & E2).
  split; [by apply (u_cipher_crypt_spec _ key iv s _ c1)|]. apply (u_cipher_crypt_spec _ key iv _ _ c2); try done. by apply encrypt_nonempty.
Qed.

Variables KEY_LEN BLOCK_LEN : nat.
Hypothesis block_fits : EVP_CIPHER_block_size <= KEY_LEN.

(** A variable that holds a key has one of the right size. *)
Definition key_ok (v : var) : Prop := saveable v /\ (is_key v = true -> v_size v = KEY_LEN /\ v_svalue v = None).

Lemma seal_key_eq (so : crypt_opt) (v : var) : key_ok v -> is_key v = true -> seal_key KEY_LEN so v = (sealed so v, Ok tt).
Proof.
  intros [Hv Hk] Ek. destruct (Hk Ek) as [Hs Hn]. destruct (saveable_data v Hv) as (Hd & Hl & Hne). unfold seal_key, var_get_value_size, var_get_value.
  rewrite decide_False by lia. rewrite Hd. cbn [from_option id]. rewrite take_app_length' by lia.
  destruct (crypt_inverse (so_session_key so) (so_session_iv so) (var_bytes v) Hne) as [-> _].
  pose proof (evp_encrypt_size (so_session_key so) (Some (so_session_iv so)) (var_bytes v)) as He.
  rewrite decide_False by lia. rewrite set_bin_value_fresh by (try apply encrypt_nonempty; done). unfold sealed. by rewrite Ek.
Qed.

Lemma unseal_key_eq (so : crypt_opt) (vs : vars) (v : var) : key_ok v -> is_key v = true ->
  unseal_key KEY_LEN so (mkVars (v_list vs ++ [reloaded (sealed so v)]) (v_foreign vs)) (reloaded (sealed so v)) =
  (mkVars (v_list vs ++ [reloaded v]) (v_foreign vs), Ok tt).
Proof.
  intros [Hv Hk] Ek. destruct (Hk Ek) as [Hs _]. destruct (saveable_data v Hv) as (_ & Hl & Hne).
  destruct (sealed_bytes so v Hv) as (_ & Hnm & Hb). rewrite Ek in Hb. unfold unseal_key, reloaded at 1 2, var_get_value_size, var_get_value.
  cbn [fresh_var v_data v_size from_option id]. rewrite take_app_length, Hb.
  destruct (crypt_inverse (so_session_key so) (so_session_iv so) (var_bytes v) Hne) as [_ ->].
  rewrite decide_False by lia. rewrite set_bin_value_fresh by done. cbn [reloaded fresh_var v_sname v_opaque v_list v_foreign].
  rewrite Hnm, length_app, Nat.add_sub. rewrite insert_app_r_alt, Nat.sub_diag by lia. done.
Qed.

Lemma is_key_reloaded (so : crypt_opt) (v : var) : is_key (reloaded (sealed so v)) = is_key v.
Proof. unfold is_key, var_get_name, reloaded. cbn [fresh_var v_sname]. unfold sealed. by destruct (is_key v). Qed.

Section save.
Context {D : Type} {DO : DevOps D} {DK : DevSink D}.
Variables gz_size cc_size : nat.

(** The codecs of a saved session turn [s] into [crypted so s]. *)
Lemma save_codecs_through (so : crypt_opt) (s : list byte) (i : io D kcodec) :
  exists sts, (let '(o1, r1) := add_zip gz_size GZIP_COMPRESS so i in
     match r1 with Ok _ => add_cipher cc_size CIPHER_ENCRYPT so o1 | _ => (o1, r1) end) = (add_codecs i sts, Ok tt) /\
    length sts <= 2 /\
    ((sts = [] /\ crypted so s = s) \/ exists w, through sts s (crypted so s) w /\ w <= crypt_work so s).
Proof.
  unfold add_zip, add_cipher, crypt_work, crypted, zipped. destruct (so_compress so), (so_encrypt so).
  - destruct (gzip_create_compress gz_size s) as (iz & -> & Hz).
    destruct (cipher_create_encrypt cc_size (so_cipher_key so) (Some (so_cipher_iv so)) (z_compress s)) as (cc & -> & Hc).
    exists [inl iz; inr cc]. split_and!; [done|simpl; lia|]. right. eexists. split.
    { eexists _, _. split_and!; [exact Hz|done|simpl; lia|split; [exact Hc|reflexivity]|reflexivity]. } lia.
  - destruct (gzip_create_compress gz_size s) as (iz & -> & Hz). exists [inl iz]. split_and!; [done|simpl; lia|].
    right. eexists. split; [split; [exact Hz|reflexivity]|lia].
  - destruct (cipher_create_encrypt cc_size (so_cipher_key so) (Some (so_cipher_iv so)) s) as (cc & -> & Hc). exists [inr cc].
    split_and!; [done|simpl; lia|]. right. eexists. split; [split; [exact Hc|reflexivity]|lia].
  - exists []. split_and!; [done|simpl; lia|by left].
Qed.

Lemma ssl_save_var_prints (so : crypt_opt) (fuel : nat) (v : var) (i : io D kcodec) : key_ok v ->
  ssl_save_var KEY_LEN BLOCK_LEN so fuel v i =
  let '(i1, r) := io_printf fuel i (var_line (sealed so v) ++ [x0a]) in (sealed so v, i1, r).
Proof.
  intros Hv. pose proof Hv as [Hs _]. destruct (sealed_bytes so v Hs) as (Hss & Hnm & _).
  destruct (saveable_data v Hs) as (Hd & _ & _). destruct (saveable_data _ Hss) as (Hd' & Hl' & Hne').
  destruct Hs as (_ & _ & Hn & Hz). unfold ssl_save_var. rewrite !u_alloc_ok, !andb_false_r.
  assert (var_get_name v = v_sname v) as -> by (by apply cstr_id). unfold var_get_value at 1. rewrite Hd. unfold Url.u_urlncpy at 1. rewrite Url.url_encode_total, decide_False by (by apply enc_nonempty).
  assert ((if is_key v then seal_key KEY_LEN so v else (v, Ok tt)) = (sealed so v, Ok tt)) as ->.
  { destruct (is_key v) eqn:Ek; [by apply seal_key_eq|]. unfold sealed. by rewrite Ek. }
  unfold var_get_value, var_get_value_size. rewrite Hd'. cbn [from_option id]. unfold Url.u_urlncpy. rewrite <- Hl', Url.url_encode_total.
  rewrite decide_False by (by apply enc_nonempty). unfold var_line, encode_pair. rewrite Hnm. by rewrite <- !app_assoc.
Qed.

(** Printing the lines of the variables, with or without codecs: [takes] says that a stream
    takes a text. *)
Lemma ssl_save_loop_takes (P : io D kcodec -> list byte -> Prop) (so : crypt_opt) (fuel : nat) (vs : list var) (i : io D kcodec) :
  (forall out data rest, data <> [] -> P out (data ++ rest) -> exists out', io_write fuel out data = (out', Ok (length data)) /\ P out' rest) ->
  Forall key_ok vs -> P i (session_text (map (sealed so) vs)) ->
  exists i', ssl_save_loop KEY_LEN BLOCK_LEN so fuel vs i = (map (sealed so) vs, i', Ok tt) /\ P i' [].
Proof.
  intros HP Hvs. revert i. induction Hvs as [|v vs Hv _ IH]; intros i Hi; [by exists i|].
  unfold session_text in Hi. cbn [map concat] in Hi. fold (session_text (map (sealed so) vs)) in Hi.
  cbn [ssl_save_loop map]. rewrite ssl_save_var_prints by done. assert (var_line (sealed so v) ++ [x0a] <> []) as Hne by (by destruct (var_line (sealed so v))).
  destruct (HP i _ _ Hne Hi) as (i1 & E1 & P1).
  assert (io_printf fuel i (var_line (sealed so v) ++ [x0a]) = (i1, Ok tt)) as ->.
  { unfold io_printf. rewrite u_alloc_ok, E1. case_decide; [done|]. by rewrite decide_False. }
  destruct (IH i1 P1) as (i' & -> & P'). by exists i'.
Qed.

Lemma ssl_save_spec (so : crypt_opt) (fuel m : nat) (ss : session) (i : io D kcodec) :
  let vs := v_list (ss_vars ss) in let text := session_text (map (sealed so) vs) in
  Forall key_ok vs -> vs <> [] -> writable i -> room i (length (crypted so text) + m) ->
  crypt_work so text + 2 < fuel -> IO_WR_BUFSZ <= fuel ->
  exists i', ssl_save_to_io KEY_LEN BLOCK_LEN gz_size cc_size so fuel ss i =
      (set_ss_vars ss (mkVars (map (sealed so) vs) (v_foreign (ss_vars ss))), i', Ok tt) /\
    writable i' /\ room i' m /\ outstream i' = outstream i ++ crypted so text.
Proof.
  intros vs text Hvs Hne Hw Hr Hf Hbf. destruct (save_codecs_through so text i) as (sts & Ea & Hl & Hth).
  assert (exists i', ssl_save_loop KEY_LEN BLOCK_LEN so fuel vs (add_codecs i sts) = (map (sealed so) vs, i', Ok tt) /\
    exists i'', io_codecs_remove fuel i' = (i'', Ok tt) /\ writable i'' /\ room i'' m /\ outstream i'' = outstream i ++ crypted so text)
    as (i' & E1 & i'' & E2 & H).
  { destruct Hth as [(-> & Ec)|(w & Ht & Hwk)].
    - rewrite Ec in *. unfold crypt_work in Hf. rewrite Ec in Hf.
      destruct (ssl_save_loop_takes (takes_plain (outstream i ++ text) fuel m) so fuel vs i) as (i' & E' & W & R & O & _);
        [apply takes_plain_write|done|split_and!; try done; fold text; lia|].
      exists i'. split; [done|]. exists i'. unfold io_codecs_remove. rewrite (proj2 W). rewrite app_nil_r in O. by split_and!.
    - rewrite add_codecs_eq, (proj2 Hw), app_nil_l. set (i1 := set_codecs i _).
      assert (length (io_codecs i1) = length sts) as Hlen by (simpl; by rewrite length_map).
      destruct (ssl_save_loop_takes (fun o s => takes_coded (outstream i ++ crypted so text) [] fuel (length sts) m o s /\
          (s = text \/ w_alloc (io_w o) = true)) so fuel vs i1) as (i' & E' & (o' & w' & C' & R' & O' & F' & L') & A').
      + intros out data rest Hd [(o & w0 & Hc & Hr0 & Ho & Hf0 & Hn0) _]. rewrite <- app_assoc in Hc.
        pose proof (chain_rel_work _ _ _ _ (proj2 (proj2 Hc))) as Hk. rewrite length_app in Hk.
        destruct (io_write_coded fuel out data (rest ++ []) o w0 m Hc Hr0 ltac:(lia) ltac:(lia)) as
          (out' & o' & w' & -> & H1 & H2 & H3 & H4 & H5 & (_ & _ & _ & S4 & _)).
        exists out'. split; [done|]. split; [|by right]. exists o', w'. split_and!; try done; [by rewrite H4|lia|lia].
      + done.
      + split; [|by left]. exists (crypted so text), w. rewrite app_nil_r. split_and!; try done; [|lia].
        split_and!; [apply Hw|apply fresh_ok|by apply through_chain].
      + exists i'. split; [done|]. destruct A' as [A'|A']; [|
          by destruct (codecs_remove_coded fuel i' o' w' m C' A' R' F' Hbf) as (i3 & E3 & W3 & R3 & O3 & _); exists i3; rewrite <- O', O3].
        exfalso. destruct vs as [|v vs']; [done|]. unfold text, session_text in A'. cbn [map concat] in A'.
        by destruct (var_line (sealed so v)). }
  exists i''. split; [|done]. unfold ssl_save_to_io. fold vs. destruct (add_zip _ _ _ _) as [o1 [| | |]]; try by (injection Ea; intros; discriminate).
  rewrite Ea. by rewrite E1, E2.
Qed.
End save.

Section load.
Context {D : Type} {DO : DevOps D} {DS : DevSource D}.
Variables gz_size cc_size : nat.

Lemma load_codecs_through (so : crypt_opt) (s : list byte) (i : io D kcodec) :
  exists sts, (let '(o1, r1) := add_cipher cc_size CIPHER_DECRYPT so i in
     match r1 with Ok _ => add_zip gz_size GZIP_UNCOMPRESS so o1 | _ => (o1, r1) end) = (add_codecs i sts, Ok tt) /\
    length sts <= 2 /\ chain_tail (map fresh sts) = false /\
    ((sts = [] /\ crypted so s = s) \/ exists w, through sts (crypted so s) s w /\ w <= crypt_work so s).
Proof.
  unfold add_zip, add_cipher, crypt_work, crypted, zipped. destruct (so_compress so), (so_encrypt so).
  - destruct (cipher_create_decrypt cc_size (so_cipher_key so) (Some (so_cipher_iv so)) _ _ (evp_roundtrip _ _ (z_compress s))) as (cc & -> & Hc).
    destruct (gzip_create_uncompress gz_size _ _ (z_roundtrip s)) as (iz & -> & Hz).
    exists [inr cc; inl iz]. split_and!; [done|simpl; lia|done|]. right. eexists. split.
    { eexists _, _. split_and!; [exact Hc|done|simpl; lia|split; [exact Hz|reflexivity]|reflexivity]. } lia.
  - destruct (gzip_create_uncompress gz_size _ _ (z_roundtrip s)) as (iz & -> & Hz). exists [inl iz]. split_and!; [done|simpl; lia|done|].
    right. eexists. split; [split; [exact Hz|reflexivity]|lia].
  - destruct (cipher_create_decrypt cc_size (so_cipher_key so) (Some (so_cipher_iv so)) _ _ (evp_roundtrip _ _ s)) as (cc & -> & Hc). exists [inr cc].
    split_and!; [done|simpl; lia|done|]. right. eexists. split; [split; [exact Hc|reflexivity]|lia].
  - exists []. split_and!; [done|simpl; lia|done|by left].
Qed.

Lemma ssl_load_lines (P : io D kcodec -> list byte -> Prop) (so : crypt_opt) (fuel n : nat) (vs0 : list var) (vs : vars) (i : io D kcodec) :
  Forall key_ok vs0 -> Forall (fun v => length (var_line (sealed so v)) <= LINE_MAX) vs0 ->
  line_source P fuel -> P i (session_text (map (sealed so) vs0)) -> 0 < fuel -> length vs0 < n ->
  exists i', ssl_load_loop KEY_LEN so fuel n vs i =
    (mkVars (v_list vs ++ map reloaded vs0) (v_foreign vs), i', Ok tt) /\ P i' [].
Proof.
  intros Hs Hlen HP. revert n vs i. induction Hs as [|v vs0 Hv _ IH]; intros n vs i Hi Hf Hn;
    (destruct n as [|n]; [simpl in Hn; lia|]); cbn [ssl_load_loop].
  - destruct (getline_end P fuel fuel i HP Hi Hf) as (i1 & -> & R1). exists i1. rewrite app_nil_r. by destruct vs.
  - apply Forall_cons in Hlen as [Hl Hlen]. destruct (var_line_plain (sealed so v)) as (P1 & P2 & P3).
    unfold session_text in Hi. cbn [map concat] in Hi. rewrite <- app_assoc in Hi.
    destruct (getline_loop_short P fuel fuel i [] (var_line (sealed so v)) (session_text (map (sealed so) vs0)) HP Hi Hf P1 Hl) as (i1 & E1 & R1).
    unfold u_getline. rewrite E1. cbn [app]. rewrite decide_False, cstr_id by done. rewrite vars_add_urlvar_eq.
    2: { unfold LINE_MAX in Hl. rewrite GETLINE_BUFSZ_val in Hl. unfold SIZE_MOD. lia. }
    destruct (sealed_bytes so v (proj1 Hv)) as (Hss & _ & _). destruct (saveable_data _ Hss) as (_ & _ & Hne).
    destruct Hss as (_ & _ & Hn0 & Hz). unfold var_line. rewrite urlvar_encode by done. unfold var_data. rewrite decide_False by done.
    fold (reloaded (sealed so v)). rewrite is_key_reloaded.
    assert ((if is_key v then unseal_key KEY_LEN so (mkVars (v_list vs ++ [reloaded (sealed so v)]) (v_foreign vs)) (reloaded (sealed so v))
      else (mkVars (v_list vs ++ [reloaded (sealed so v)]) (v_foreign vs), Ok tt)) = (mkVars (v_list vs ++ [reloaded v]) (v_foreign vs), Ok tt)) as ->.
    { destruct (is_key v) eqn:Ek; [by apply unseal_key_eq|]. unfold sealed. by rewrite Ek. }
    destruct (IH Hlen n (mkVars (v_list vs ++ [reloaded v]) (v_foreign vs)) i1 R1 Hf) as (i' & -> & Hio);
      [simpl in Hn; lia|]. exists i'. cbn [map v_list v_foreign]. by rewrite <- app_assoc.
Qed.

Lemma ssl_load_spec (so : crypt_opt) (fuel n : nat) (vs : list var) (ss : session) (i : io D kcodec) :
  let text := session_text (map (sealed so) vs) in
  Forall key_ok vs -> Forall (fun v => length (var_line (sealed so v)) <= LINE_MAX) vs ->
  readable i -> rcount (io_r i) = 0 -> w_alloc (io_w i) = false -> instream i = crypted so text ->
  crypt_work so text + 2 < fuel -> length vs < n ->
  exists i', ssl_load_from_io KEY_LEN gz_size cc_size so fuel n ss i =
    (set_ss_vars ss (vars_app (ss_vars ss) (map reloaded vs)), i', Ok tt).
Proof.
  intros text Hs Hlen Hrd Hr Hwa Hi Hf Hn. assert (0 < fuel) as Hf0 by lia. destruct (load_codecs_through so text i) as (sts & Ea & Hl & Htl & Hth).
  assert (exists i1 i2, ssl_load_loop KEY_LEN so fuel n (ss_vars ss) (add_codecs i sts) =
    (mkVars (v_list (ss_vars ss) ++ map reloaded vs) (v_foreign (ss_vars ss)), i1, Ok tt) /\ io_codecs_remove fuel i1 = (i2, Ok tt)) as (i1 & i2 & E1 & E2).
  { destruct Hth as [(-> & Ec)|(w & Ht & Hwk)].
    - rewrite Ec in Hi. destruct (ssl_load_lines _ so fuel n vs (ss_vars ss) i Hs Hlen (readable_source (C:=kcodec) fuel Hf0) (conj Hrd Hi) Hf0 Hn) as (i1 & E1 & R1 & _).
      exists i1, i1. split; [done|]. unfold io_codecs_remove. by rewrite (proj1 (proj2 R1)).
    - rewrite <- Hi in Ht. destruct (decoding_start i sts _ w Hrd Hr Ht Htl) as [Hd Hlc].
      destruct (ssl_load_lines _ so fuel n vs (ss_vars ss) (add_codecs i sts) Hs Hlen (decoding_source (K:=kcodec) fuel)) as (i1 & E1 & w' & D' & F' & A').
      { exists w. split_and!; [done|lia|by rewrite add_codecs_eq]. } { lia. } { done. }
      exists i1. unfold io_codecs_remove. rewrite A'. destruct (io_codecs i1); by eexists. }
  exists i2. unfold ssl_load_from_io. destruct (add_cipher _ _ _ _) as [o1 [| | |]]; try by (injection Ea; intros; discriminate).
  rewrite Ea, E1, E2. done.
Qed.
End load.
End coded_spec.

Section coded_claims.
Context {L : Libu} {LS : LibuSpec L} {LM : LibuMem L} {Z : Zlib} {ZS : ZlibSpec Z} {E : Evp} {ES : EvpSpec E}.
Context {D1 D2 : Type} {DO1 : DevOps D1} {DK : DevSink D1} {DO2 : DevOps D2} {DS : DevSource D2}.
Abbreviation kcodec := (codec_gzip + codec_cipher)%type.
Variables KEY_LEN BLOCK_LEN gz_size cc_size : nat.


(** Saving changes the key in memory, so that it cannot be saved again: the second time the
    variable is refused for its size, and it and all the variables after it are left out,
    though saving reports success. *)
Theorem key_saved_once (so : crypt_opt) (fuel : nat) (v : var) (vs : list var) (i : io D1 kcodec) :
  EVP_CIPHER_block_size <= KEY_LEN -> key_ok KEY_LEN v -> is_key v = true ->
  length (evp_encrypt (so_session_key so) (Some (so_session_iv so)) (var_bytes v)) <> KEY_LEN ->
  seal_key KEY_LEN so v = (sealed so v, Ok tt) /\
  ssl_save_loop KEY_LEN BLOCK_LEN so fuel (sealed so v :: vs) i = (sealed so v :: vs, i, Fail).
Proof.
  intros Hb Hv Ek Hsz. split; [by apply seal_key_eq|]. cbn [ssl_save_loop]. pose proof Hv as [Hs _].
  destruct (sealed_bytes so v Hs) as (Hss & Hnm & _). destruct (saveable_data _ Hss) as (Hd & _ & _).
  assert (var_get_name (sealed so v) = v_sname v) as Hg by (unfold var_get_name; rewrite Hnm; apply cstr_id, Hs).
  assert (is_key (sealed so v) = true) as Ek' by (unfold is_key in *; unfold var_get_name in *; by rewrite Hnm).
  unfold ssl_save_var. rewrite !u_alloc_ok, !andb_false_r, Hg. unfold Url.u_urlncpy at 1. rewrite Url.url_encode_total.
  rewrite decide_False by (apply enc_nonempty, Hs). unfold var_get_value at 1. rewrite Hd, Ek'.
  assert (seal_key KEY_LEN so (sealed so v) = (sealed so v, Fail)) as ->; [|done].
  unfold seal_key. rewrite decide_True; [done|]. unfold var_get_value_size, sealed. by rewrite Ek.
Qed.

(** The key that was set last is the one that is found; a key that does not fit the buffer is
    released while the session still has it. *)
Theorem cipher_key_found (ss : session) (data : list byte) (sz : nat) :
  data <> [] -> named SESSION_KEY_VAR (v_list (ss_vars ss)) = [] ->
  exists ss1, session_set_cipher_key data ss = (ss1, Ok tt) /\
    session_get_cipher_key ss1 sz =
      if decide (length data < sz) then (Ok data, None)
      else (Fail, if decide (sz = 0) then None else Some (length (v_list (ss_vars ss)))).
Proof.
  intros Hd Hn. unfold session_set_cipher_key. rewrite decide_False by done.
  pose proof (vars_get_first (ss_vars ss) SESSION_KEY_VAR) as Hg. rewrite Hn in Hg. rewrite Hg.
  rewrite var_bin_create_eq, vars_add_eq by done. eexists. split; [done|]. unfold session_get_cipher_key.
  set (ss1 := set_ss_vars ss _). assert (ss_vars ss1 = mkVars (v_list (ss_vars ss) ++ [fresh_var SESSION_KEY_VAR data]) (v_foreign (ss_vars ss))) as Hv
    by (by destruct ss).
  pose proof (vars_get_first (ss_vars ss1) SESSION_KEY_VAR) as Hg1. rewrite Hv in Hg1 |- *. cbn [v_list] in Hg1.
  rewrite named_app, Hn in Hg1. change (named SESSION_KEY_VAR [fresh_var SESSION_KEY_VAR data]) with [fresh_var SESSION_KEY_VAR data] in Hg1.
  destruct Hg1 as (l1 & l2 & El & Hl1 & ->).
  assert (l1 = v_list (ss_vars ss)) as ->.
  { apply app_inj_2 in El as [El1 El2]; [done|]. destruct l2 as [|x l2]; [done|]. exfalso.
    destruct (exists_last (l := x :: l2)) as (l3 & y & El3); [done|]. rewrite El3 in El.
    change (fresh_var SESSION_KEY_VAR data :: l3 ++ [y]) with ((fresh_var SESSION_KEY_VAR data :: l3) ++ [y]) in El.
    rewrite app_assoc in El. apply app_inj_tail in El as [El _]. rewrite El, named_app in Hn. apply app_eq_nil in Hn as [_ Hn]. done. }
  cbn [var_get_value_size fresh_var v_size var_get_value v_data from_option id]. rewrite take_app_length.
  destruct (decide (sz = 0)) as [->|Hz]; [by rewrite decide_False by lia|].
  destruct (decide (sz <= length data)); [by rewrite decide_False by lia|by rewrite decide_True by lia].
Qed.
End coded_claims.

(** ** Evaluation *)

Definition so_x : crypt_opt := mkCrypt true true (bs "key") (bs "iv") (bs "secret") (bs "iv2").
Definition ses_x : session :=
  mkSess (mkVars [fresh_var (bs "user") (bs "thomas" ++ [x00]); fresh_var SESSION_KEY_VAR (bs "0123")] false) [] [] false 0.

Definition out_x : io io_mem (codec_gzip (Z:=stored) + codec_cipher (E:=flips)) := io_mem_create (replicate 200 x00) 200 false.

