(* ===== verification/EmbCode.v ===== *)
(** Compressed and encrypted embedded files: [supemb_get_cipher_key] and
    [supemb_serve_static] of src/src/libhttp/sup_emb.c in the build with HAVE_LIBZ and SSL_ON.

    The data of a file is written through up to three codecs: one that decrypts it with the
    key of the session, one that uncompresses it, and the filter that prints the header. *)

From S2P Require Import Prelude Libu Encode Path Date Io IoSpec IoMem Codec Getline Header Vars Request Multipart Response.
From S2P Require Import Md5 Session Filter Cgi DyPage Emb Coder Gzip Cipher SesCode.

(** ** The filter as a coder *)

Section filter_coder.
Context {L : Libu} {LS : LibuSpec L} {LM : LibuMem L} {D C : Type}.
Variables (f0 FILENAME_MAX : nat) (env : ses_env).
Implicit Types rf : rfilter D C.

Lemma rf_transform_eager rf rf' (cap c : nat) (src : list byte) : 0 < cap -> src <> [] ->
  rf_transform f0 FILENAME_MAX env rf cap src = (rf', Ok ([], c)) -> c = length src.
Proof.
  intros Hc Hs. assert (forall g g' : rfilter D C, rf_copyout f0 g cap src = (g', Ok ([], c)) -> c = length src) as Hcopy.
  { intros g g'. unfold rf_copyout, rf_drain. destruct (rf_iob g) as [i|]; [destruct (io_read f0 i cap) as [i' [[|b o]| | |]]|];
      cbn [mbind res_bind]; intros H; injection H; try done.
    - intros <- Ht _. apply (f_equal length) in Ht. rewrite length_take in Ht. simpl in Ht. destruct src; [done|simpl in *; lia].
    - intros <- Ht _. apply (f_equal length) in Ht. rewrite length_take in Ht. simpl in Ht. destruct src; [done|simpl in *; lia]. }
  unfold rf_transform. destruct (is_head _); [by intros [= _ <-]|]. destruct (rf_flushing _); [apply Hcopy|].
  case_decide; [by intros [= _ <-]|]. destruct (rf_session _ _ _) as [g [| | |]]; try done.
  destruct (rf_init_iob _ _) as [g2 [| | |]]; try done. apply Hcopy.
Qed.

Lemma rf_flush_keeps rf (cap : nat) : rf_rs (rf_flush f0 rf cap).1 = rf_rs rf /\ rf_ss (rf_flush f0 rf cap).1 = rf_ss rf.
Proof.
  assert (forall g : rfilter D C, rf_rs (rf_drain f0 g cap).1 = rf_rs g /\ rf_ss (rf_drain f0 g cap).1 = rf_ss g) as Hd.
  { intros [rs ss fl fe bf off iob]. unfold rf_drain. cbn [rf_iob]. destruct iob as [i|]; [|done].
    by destruct (io_read f0 i cap) as [i' [[|b o]| | |]]. }
  assert (forall g : rfilter D C, rf_rs (rf_init_iob f0 g).1 = rf_rs g /\ rf_ss (rf_init_iob f0 g).1 = rf_ss g) as Hi.
  { intros [rs ss fl fe bf off iob]. unfold rf_init_iob. cbn [rf_rs rf_off]. destruct (response_get_max_header_size rs); try done.
    destruct (u_alloc _); [|done]. by destruct (rf_fill _ _ _) as [iob' [ht| | |]]. }
  unfold rf_flush. set (g := if rf_flushing rf then (rf, Ok tt) else _). assert (rf_rs g.1 = rf_rs rf /\ rf_ss g.1 = rf_ss rf) as [G1 G2].
  { unfold g. destruct (rf_flushing rf); [done|]. destruct (Hi (set_rf_flushing rf)) as [-> ->]. by destruct rf. }
  destruct g as [g r]. cbn [fst] in *. destruct r; try done. destruct (Hd g) as [D1 D2]. destruct (rf_drain f0 g cap) as [g2 r2]. cbn [fst] in *. by rewrite D1, D2.
Qed.

(** A filter without session, on the response [R]. *)
Variable R : response D C.

Definition rf_at rf (s o : list byte) : Prop :=
  rf_ok f0 rf /\ rf_rs rf = R /\ rf_ss rf = None /\ o = rf_owed rf ++ (if is_head rf then [] else s).

#[local] Instance rf_coder : Coder (rfilter D C) (CO:=page_filter_ops f0 FILENAME_MAX env).
Proof.
  refine {| co_rel := rf_at; co_tail := fun _ => true; co_flush0 := fun _ => false |}; cbn [c_transform c_flush page_filter_ops rf_ops].
  - intros rf cap src rest o (Hok & HR & Hss & ->) Hc Hs. pose proof (filter_keeps f0 FILENAME_MAX env rf cap src Hss) as Hk.
    destruct (rf_transform_spec f0 FILENAME_MAX env rf cap src Hok Hc Hs) as (rf' & out & c & E & H1 & H2 & H3 & H4 & H5 & H6).
    cbn [c_transform page_filter_ops rf_ops] in Hk. rewrite E in Hk |- *. cbn [fst ok_or] in Hk. destruct Hk as [[= Hk1 Hk2] _].
    exists rf', out, c, (rf_owed rf' ++ (if is_head rf' then [] else drop c src ++ rest)). split_and!; try done.
    + intros Ho _. rewrite Ho in E. by eapply rf_transform_eager.
    + rewrite (app_assoc out), H6, H2. destruct (is_head rf); [by rewrite !app_nil_r|].
      by rewrite <- app_assoc, (app_assoc (take c src)), take_drop.
    + split_and!; try done; congruence.
  - intros rf cap o (Hok & HR & Hss & ->) [Hc|]; [|done]. destruct (rf_flush_keeps rf cap) as [K1 K2].
    assert ((if is_head rf then [] else []) = @nil byte) as -> by (by destruct (is_head rf)). rewrite app_nil_r.
    destruct (rf_flush_spec f0 rf cap Hok Hc) as (rf' & [(E & Ho)|(out & E & H1 & H2 & Ho)]); rewrite E in K1, K2 |- *; cbn [fst] in K1, K2;
      exists rf'; (do 2 (split; [done|])); [left; by exists cap|right].
    exists out, (rf_owed rf'). split_and!; try done; [lia|intros _ ->; simpl in H2; lia|].
    split_and!; try done; [congruence..|]. assert ((if is_head rf' then [] else []) = @nil byte) as -> by (by destruct (is_head rf')). by rewrite app_nil_r.
Defined.

Lemma rf_fresh_at (s : list byte) : rs_fit f0 R -> rs_method R <> HM_HEAD ->
  rf_at (mkRf R None false false (replicate RFBUFSZ x00) 0 None) s (header_text R ++ s).
Proof.
  intros Hfit Hm. assert (0 < RFBUFSZ) as Hp by (unfold RFBUFSZ; lia). destruct Hfit as (F1 & F2 & F3).
  set (rf := mkRf R None false false (replicate RFBUFSZ x00) 0 None). assert (is_head rf = false) as Hh by (unfold is_head; cbn; by destruct (rs_method R)).
  split_and!; try done.
  - split; cbn; try done; try lia.
  - rewrite Hh. f_equal. unfold rf_owed, rf_text. rewrite Hh. cbn. by rewrite app_nil_r.
Qed.
End filter_coder.

(** ** The supplier *)

Inductive key_state {E : Evp} := NoKeyNeeded | KeyMissing | Keyed (cc : codec_cipher).

Section serve.
Context {L : Libu} {Z : Zlib} {E : Evp}.
Context {DR CR D C D2 St T Ct : Type} {DOR : DevOps DR} {COR : CodecOps CR} {DO2 : DevOps D2} {SD : SesDriver St}.
Context {DOT : DevOps T} {COT : CodecOps Ct}.
Variables (f0 FILENAME_MAX rf_size gz_size cc_size KEY_BUFSZ fuel : nat) (env : ses_env).
Variable send_enc_deflate : option bool.
#[local] Hint Extern 0 (CodecOps (rfilter D C)) => exact (page_filter_ops f0 FILENAME_MAX env) : typeclass_instances.
Abbreviation ecodec := ((codec_gzip + codec_cipher) + rfilter D C)%type.
Abbreviation pprog A := (prog (@pconn DR CR D C D2 St T) A).

Record econn := mkEc {
  ec_rq : mpstate (D:=DR) (C:=CR) (T:=T);
  ec_w : world St D C;
  ec_out : io D2 ecodec
}.
Abbreviation eprog A := (prog econn A).

(** What does not touch the stream of the response. *)
Definition on_page {A} (m : pprog A) : eprog A := fun c =>
  let '(c', r) := m (mkPc (ec_rq c) (ec_w c) (io_prv_create (io_dev (ec_out c)))) in (mkEc (pc_rq c') (pc_w c') (ec_out c), r).
Definition ec_rs {A} (m : prog (response D C) A) : eprog A := on_page (on_world (on_rs m)).

(** What the filter sees of the response when it runs. *)
Definition see_through (rs : response D C) (o : io D2 ecodec) : io D2 ecodec :=
  set_codecs o (map (fun k => mkCodec (match c_state k with inl x => inl x | inr rf => inr (rf_see rs None rf) end)
                                (cbuf k) (ccount k) (coff k)) (io_codecs o)).

Definition supemb_get_cipher_key : pprog (list byte) :=
  with_env env (session_create FILENAME_MAX);;;
  let! key := pelse
    (let! c := pget in
     let! o := plift (vars_geti (ss_vars (w_ss (pc_w c))) SESSION_KEY_VAR 0) in
     match o with
     | Some (_, v) =>
         if decide (KEY_BUFSZ < var_get_value_size v) then pfail
         else let data := take (var_get_value_size v) (default [] (var_get_value v)) in
              pret (data ++ replicate (KEY_BUFSZ - length data) x00)
     | None => pfail
     end)
    (with_env env (session_free FILENAME_MAX);;; pfail) in
  with_env env (session_free FILENAME_MAX);;;
  pret key.

Definition ec_attach : eprog unit := fun c =>
  match response_filter_create rf_size (w_rs (ec_w c)) None with
  | Ok rf => (mkEc (ec_rq c) (ec_w c) (io_codec_add_tail (ec_out c) (inr rf)), Ok tt)
  | Fail => (c, Fail)
  | Fault => (c, Fault)
  | Timeout => (c, Timeout)
  end.
Definition ec_add_head (st : ecodec) : eprog unit := pmod (fun c => mkEc (ec_rq c) (ec_w c) (io_codec_add_head (ec_out c) st)).
Definition ec_write (data : list byte) : eprog nat := fun c =>
  let '(o, r) := io_write fuel (see_through (w_rs (ec_w c)) (ec_out c)) data in (mkEc (ec_rq c) (ec_w c) o, r).
Definition ec_remove : eprog unit := fun c =>
  let '(o, r) := io_codecs_remove fuel (see_through (w_rs (ec_w c)) (ec_out c)) in (mkEc (ec_rq c) (ec_w c) o, r).

(** The error branch before the data is being decrypted. *)
Definition ec_err {A} : eprog A := pignore ec_remove;;; pfail.

Definition ec_unzip (e : embfile) (sai : bool) : eprog (option codec_gzip) :=
  if ef_comp e && negb sai then let! z := plift (codec_gzip_create gz_size GZIP_UNCOMPRESS) in pret (Some z) else pret None.

Definition ec_decrypt (e : embfile) : eprog key_state :=
  if ef_encrypted e then
    let! k := (fun c => match on_page supemb_get_cipher_key c with
                        | (c', Ok key) => (c', Ok (Some key))
                        | (c', Fail) => (c', Ok None)
                        | (c', Fault) => (c', Fault)
                        | (c', Timeout) => (c', Timeout)
                        end) in
    match k with
    | None => ec_rs (response_set_status 430);;; pret KeyMissing
    | Some key =>
        pignore (ec_rs response_disable_caching);;;
        let! cc := plift (codec_cipher_create cc_size CIPHER_DECRYPT key None) in
        pret (Keyed cc)
    end
  else pret NoKeyNeeded.

Definition ec_copy (e : embfile) : eprog unit := pignore (ec_write (ef_data e));;; ec_remove.

Definition emb_serve_static (e : embfile) : eprog unit :=
  let! sai := pelse (ec_attach;;; on_page (supemb_static_set_header_fields send_enc_deflate e)) ec_err in
  let! c := pget in
  if decide (rq_method (ec_rq c).1 = HM_HEAD) then pret tt else
  let! gz := pelse (ec_unzip e sai) ec_err in
  let! ks := pelse (ec_decrypt e) ec_err in
  match ks with
  | KeyMissing => pignore ec_remove
  | NoKeyNeeded =>
      match gz with Some z => ec_add_head (inl (inl z)) | None => pret tt end;;;
      pelse (ec_copy e) ec_err
  | Keyed cc =>
      match gz with Some z => ec_add_head (inl (inl z)) | None => pret tt end;;;
      ec_add_head (inl (inr cc));;;
      pelse (ec_copy e) (pignore (ec_rs (response_set_status 430));;; pignore ec_remove)
  end.
End serve.

Section serve_spec.
Context {L : Libu} {LS : LibuSpec L} {LM : LibuMem L} {Z : Zlib} {ZS : ZlibSpec Z} {E : Evp} {ES : EvpSpec E}.
Context {DR CR D C D2 St T Ct : Type} {DOR : DevOps DR} {COR : CodecOps CR} {DO2 : DevOps D2} {DK2 : DevSink D2} {SD : SesDriver St}.
Context {DOT : DevOps T} {COT : CodecOps Ct}.
Variables (f0 FILENAME_MAX rf_size gz_size cc_size KEY_BUFSZ fuel : nat) (env : ses_env).
#[local] Hint Extern 0 (CodecOps (rfilter D C)) => exact (page_filter_ops f0 FILENAME_MAX env) : typeclass_instances.
Abbreviation ecodec := ((codec_gzip + codec_cipher) + rfilter D C)%type.
Abbreviation ec := (@econn Z E DR CR D C D2 St T).

Definition filter_on (R : response D C) : ecodec := inr (mkRf R None false false (replicate RFBUFSZ x00) 0 None).

Section copy.
Variable R : response D C.
#[local] Instance copy_coder : Coder (rfilter D C) := rf_coder f0 FILENAME_MAX env R.

(** The filter of a chain already sees the response. *)
Lemma chain_sees (cs : list (codec ecodec)) (s o : list byte) (w : nat) : chain_rel cs s o w ->
  map (fun k => mkCodec (match c_state k with inl x => inl x | inr rf => inr (rf_see R None rf) end) (cbuf k) (ccount k) (coff k)) cs = cs.
Proof.
  assert (forall (k : codec ecodec) s o, co_rel (c_state k) s o ->
    mkCodec (match c_state k with inl x => inl x | inr rf => inr (rf_see R None rf) end) (cbuf k) (ccount k) (coff k) = k) as Hone.
  { intros [[x|[rs ss ? ? ? ? ?]] b c0 k0] s1 o1 H; [done|]. destruct H as (_ & H1 & H2 & _). cbn in *. by subst. }
  revert s w. induction cs as [|k [|k2 rest] IH]; intros s w H; [done| |].
  - destruct H as [H _]. cbn [map]. by rewrite (Hone k s o H).
  - destruct H as (m & w' & H1 & _ & _ & H2 & _). cbn [map] in *. rewrite (Hone k s m H1). f_equal. by apply (IH _ _ H2).
Qed.

Lemma copy_output (c : ec) (e : embfile) (rs0 : response D C) (o : io D2 ecodec) (pre : list (codec_gzip + codec_cipher)) (out : list byte) (w : nat) :
  w_rs (ec_w c) = R -> writable o -> ec_out c = set_codecs o (map fresh (map inl pre ++ [filter_on rs0])) ->
  through (map inl pre ++ [filter_on R]) (ef_data e) out w -> room o (length out) -> w + length pre + 1 < fuel -> IO_WR_BUFSZ <= fuel ->
  exists o3, ec_copy f0 FILENAME_MAX fuel env e c = (mkEc (ec_rq c) (ec_w c) o3, Ok tt) /\ writable o3 /\ outstream o3 = outstream o ++ out.
Proof.
  intros HR [Hw Hc] Ho Ht Hr Hf Hbf. set (sts := map inl pre ++ [filter_on R]) in *.
  assert (see_through R (ec_out c) = set_codecs o (map fresh sts)) as Hsee.
  { rewrite Ho. unfold see_through, sts. cbn [io_codecs set_codecs]. rewrite !map_app, !map_map. done. }
  assert (length sts = length pre + 1) as Hl by (unfold sts; rewrite length_app, length_map; done).
  set (i1 := set_codecs o (map fresh sts)) in *. assert (length (io_codecs i1) = length sts) as Hl1 by (simpl; by rewrite length_map).
  assert (coding i1 (ef_data e ++ []) out w) as H1.
  { rewrite app_nil_r. split_and!; [done|apply fresh_ok|by apply through_chain]. }
  pose proof (chain_rel_work _ _ _ _ (proj2 (proj2 H1))) as Hwk. rewrite app_nil_r in Hwk.
  destruct (io_write_coded fuel i1 (ef_data e) [] out w 0 H1) as (i2 & o2 & w2 & E2 & C2 & A2 & R2 & O2 & W2 & (_ & _ & _ & S4 & _)).
  { by rewrite Nat.add_0_r. } { lia. } { lia. }
  assert (see_through R i2 = i2) as Hsee2.
  { unfold see_through. rewrite (chain_sees _ _ _ _ (proj2 (proj2 C2))). by destruct i2. }
  destruct (codecs_remove_coded fuel i2 o2 w2 0 C2 A2 R2 ltac:(lia) Hbf) as (i3 & E3 & W3 & _ & O3 & _).
  exists i3. unfold ec_copy, pignore, ec_write, ec_remove, pbind. rewrite HR, Hsee, E2. cbn [ec_w ec_out ec_rq]. rewrite HR, Hsee2, E3.
  split_and!; try done. by rewrite O3, O2.
Qed.
End copy.

(** What the translator stores for the contents [s] of a file, and what is sent. *)
Definition stored_form (e : embfile) (s : list byte) : list byte := if ef_comp e then z_compress s else s.
Definition sent_form (e : embfile) (asis : bool) (s : list byte) : list byte := if asis then stored_form e s else s.

(** The codecs in front of the filter turn the data into what is sent. *)
Lemma data_through (R : response D C) (e : embfile) (asis : bool) (key s : list byte) :
  let z := stored_form e s in
  ef_data e = (if ef_encrypted e then evp_encrypt key None z else z) -> (asis = true -> ef_comp e = true) ->
  rs_fit f0 R -> rs_method R <> HM_HEAD ->
  exists gz ks pre w, (forall c : ec, ec_unzip gz_size e asis c = (c, Ok gz)) /\
    (if ef_encrypted e then exists cc, codec_cipher_create cc_size CIPHER_DECRYPT key None = Ok cc /\ ks = Keyed cc else ks = NoKeyNeeded) /\
    pre = match ks with Keyed cc => [inr cc] | _ => [] end ++ match gz with Some iz => [inl iz] | None => [] end /\
    through (CK:=sum_coder (KB:=rf_coder f0 FILENAME_MAX env R)) (map inl pre ++ [filter_on R]) (ef_data e) (header_text R ++ sent_form e asis s) w /\
    w <= length (ef_data e) + 4 * length z + 3 * length s + length (header_text R).
Proof.
  intros z Hd Ha Hfit Hm. set (body := sent_form e asis s).
  assert (co_rel (Coder:=sum_coder (KB:=rf_coder f0 FILENAME_MAX env R)) (filter_on R : ecodec) body (header_text R ++ body)) as Hrf by (by apply rf_fresh_at).
  assert (forall x, co_tail (Coder:=sum_coder (KA:=sum_coder) (KB:=rf_coder f0 FILENAME_MAX env R)) (inl x : ecodec) = false) as Htl by (by intros []).
  (* the part that uncompresses *)
  assert (exists gz w1, (forall c : ec, ec_unzip gz_size e asis c = (c, Ok gz)) /\
    through (CK:=sum_coder (KB:=rf_coder f0 FILENAME_MAX env R)) (map inl (match gz with Some iz => [inl iz] | None => [] end) ++ [filter_on R]) z (header_text R ++ body) w1 /\
    w1 <= 3 * length z + 3 * length s + length (header_text R) /\ length (match gz with Some iz => [inl (B:=codec_cipher) iz] | None => [] end) <= 1)
    as (gz & w1 & Hu & Ht & Hw1 & Hlg).
  { unfold ec_unzip, body, z, sent_form, stored_form in *. destruct (ef_comp e) eqn:Ec, asis; cbn [andb negb].
    - exists None. eexists. split; [done|]. split; [split; [exact Hrf|reflexivity]|]. rewrite !length_app. split; [lia|simpl; lia].
    - destruct (gzip_create_uncompress gz_size _ _ (z_roundtrip s)) as (iz & Eiz & Hiz). exists (Some iz). eexists. split.
      { intros c. rewrite Eiz. done. }
      split; [|split; [|simpl; lia]].
      { eexists s, _. split_and!; [exact Hiz|done|simpl; lia|split; [exact Hrf|reflexivity]|reflexivity]. }
      rewrite !length_app. lia.
    - by specialize (Ha eq_refl).
    - exists None. eexists. split; [done|]. split; [split; [exact Hrf|reflexivity]|]. rewrite !length_app. split; [lia|simpl; lia]. }
  destruct (ef_encrypted e) eqn:Ee.
  - destruct (cipher_create_decrypt cc_size key None _ _ (evp_roundtrip key None z)) as (cc & Ecc & Hcc).
    exists gz, (Keyed cc). eexists _, (length (ef_data e) + length z + w1). split_and!; [done|by exists cc|reflexivity| |lia].
    rewrite Hd. cbn [map app]. apply through_cons; [by destruct gz|]. exists z, w1. by split_and!.
  - exists gz, NoKeyNeeded. eexists _, w1. split_and!; [done|done|reflexivity| |lia]. by rewrite Hd.
Qed.
End serve_spec.

(** ** What is sent *)

Section outputs.
Context {L : Libu} {LS : LibuSpec L} {LM : LibuMem L} {Z : Zlib} {ZS : ZlibSpec Z} {E : Evp} {ES : EvpSpec E}.
Context {DR CR D C D2 St T Ct : Type} {DOR : DevOps DR} {COR : CodecOps CR} {DO2 : DevOps D2} {DK2 : DevSink D2} {SD : SesDriver St}.
Context {DOT : DevOps T} {COT : CodecOps Ct}.
Variables (f0 FILENAME_MAX rf_size gz_size cc_size KEY_BUFSZ fuel : nat) (env : ses_env).
#[local] Hint Extern 0 (CodecOps (rfilter D C)) => exact (page_filter_ops f0 FILENAME_MAX env) : typeclass_instances.
Abbreviation ec := (@econn Z E DR CR D C D2 St T).
Implicit Types c : ec.

(** The connection when the fields of the file are set, and the response to an encrypted file. *)
Definition after_fields (e : embfile) (modified : list byte) (asis : bool) c : ec :=
  let w := ec_w c in let rs := w_rs w in
  mkEc (ec_rq c) (mkWorld (w_ss w) (set_rs_header rs (set_fields (static_fields e modified asis) (rs_header rs))) (w_store w))
    (io_codec_add_tail (ec_out c) (filter_on rs)).
Definition uncached c : ec := let w := ec_w c in mkEc (ec_rq c) (mkWorld (w_ss w) (response_disable_caching (w_rs w)).1 (w_store w)) (ec_out c).

Lemma serve_fields (e : embfile) (d acc : bool) (modified : list byte) c :
  let asis := d && ef_comp e && acc in
  header_ok (rs_header (w_rs (ec_w c))) -> u_tt_to_rfc822 (ef_mtime e) = Ok modified ->
  (request_is_encoding_accepted (bs "deflate") (ec_rq c).1).2 = Ok acc ->
  (ec_attach rf_size;;; on_page (supemb_static_set_header_fields (Some d) e)) c = (after_fields e modified asis c, Ok asis).
Proof.
  intros asis Hh Hd Hacc. erewrite pbind_Ok by (unfold ec_attach, response_filter_create; rewrite u_alloc_ok; reflexivity).
  unfold on_page. cbn [ec_rq ec_w ec_out].
  by rewrite (set_header_fields_spec e d acc modified (mkPc (ec_rq c) (ec_w c) _) Hh Hd Hacc).
Qed.

Lemma on_page_out {A} (m : prog (@pconn DR CR D C D2 St T) A) c c' r : on_page m c = (c', r) -> ec_out c' = ec_out c.
Proof. unfold on_page. destruct (m _) as [p x]. by intros [= <- _]. Qed.

Lemma disable_fields (rs : response D C) : header_ok (rs_header rs) ->
  (response_disable_caching rs).1 = set_rs_header rs (set_fields [(bs "Cache-Control", bs "no-cache, must-revalidate");
    (bs "Expires", bs "Mon, 1 Jan 1990 05:00:00 GMT"); (bs "Pragma", bs "no-cache")] (rs_header rs)).
Proof.
  intros Hh. unfold response_disable_caching, response_set_field, set_fields. destruct rs as [h i s m g]. cbn [rs_header foldl fst snd] in *.
  destruct (header_set_field_vals h (bs "Cache-Control") (bs "no-cache, must-revalidate") [] Hh) as (h1 & E1 & H1 & _).
  destruct (header_set_field_vals h1 (bs "Expires") (bs "Mon, 1 Jan 1990 05:00:00 GMT") [] H1) as (h2 & E2 & H2 & _).
  erewrite pbind_Ok; [|cbn [rs_header]; rewrite E1; reflexivity]. erewrite pbind_Ok; [|cbn [rs_header set_rs_header]; rewrite E2; reflexivity].
  cbn [rs_header set_rs_header]. rewrite E1. cbn [fst]. rewrite E2. cbn [fst]. by destruct (header_set_field h2 _ _).
Qed.

Lemma uncached_spec c : header_ok (rs_header (w_rs (ec_w c))) ->
  ec_rs response_disable_caching c = (uncached c, Ok tt) /\
  head (vals (rs_header (w_rs (ec_w (uncached c)))) (bs "Cache-Control")) = Some (bs "no-cache, must-revalidate").
Proof.
  intros Hh. split.
  - destruct (disable_spec _ Hh) as (h & E1 & _). unfold ec_rs, on_page, on_world, on_rs, uncached. cbn [pc_w pc_rq]. by rewrite E1.
  - unfold uncached. cbn [ec_w w_rs]. rewrite disable_fields by done. destruct (w_rs (ec_w c)) as [h i s m g]. cbn [rs_header set_rs_header] in *.
    apply (set_fields_head []); [done|]. by repeat (apply Forall_cons; split; [done|]).
Qed.

(** The connection when the data is about to be written. *)
Definition keyed (e : embfile) (c1 c2 : ec) (key : list byte) : Prop :=
  if ef_encrypted e then
    exists c', on_page (supemb_get_cipher_key FILENAME_MAX KEY_BUFSZ env) c1 = (c', Ok key) /\ header_ok (rs_header (w_rs (ec_w c'))) /\ c2 = uncached c'
  else c2 = c1.

(** A file that was compressed and encrypted when it was embedded is sent as its
    original contents.  A request other than HEAD gets the header and then the contents of the
    file, uncompressed and, with the key that the session holds, decrypted; compressed data
    that the client takes as it is goes out compressed.  An encrypted file is not cached. *)
Theorem emb_coded_file_output c c2 (e : embfile) (d acc : bool) (modified key s : list byte) :
  let asis := d && ef_comp e && acc in let z := stored_form e s in let R := w_rs (ec_w c2) in
  ef_data e = (if ef_encrypted e then evp_encrypt key None z else z) ->
  header_ok (rs_header (w_rs (ec_w c))) -> u_tt_to_rfc822 (ef_mtime e) = Ok modified ->
  (request_is_encoding_accepted (bs "deflate") (ec_rq c).1).2 = Ok acc -> rq_method (ec_rq c).1 <> HM_HEAD ->
  keyed e (after_fields e modified asis c) c2 key -> rs_fit f0 R -> rs_method R <> HM_HEAD -> writable (ec_out c) ->
  room (ec_out c) (length (header_text R ++ sent_form e asis s)) ->
  length (ef_data e) + 4 * length z + 3 * length s + length (header_text R) + 3 < fuel -> IO_WR_BUFSZ <= fuel ->
  exists c3, emb_serve_static f0 FILENAME_MAX rf_size gz_size cc_size KEY_BUFSZ fuel env (Some d) e c = (c3, Ok tt) /\ ec_w c3 = ec_w c2 /\
    writable (ec_out c3) /\ outstream (ec_out c3) = outstream (ec_out c) ++ header_text R ++ sent_form e asis s /\
    (ef_encrypted e = true -> head (vals (rs_header R) (bs "Cache-Control")) = Some (bs "no-cache, must-revalidate")).
Proof.
  intros asis z R Hd Hh Hm Hacc Hmeth Hk Hfit Hrm Hw Hroom Hf Hfw. set (c1 := after_fields e modified asis c) in *.
  destruct (data_through (DR:=DR) (CR:=CR) (D2:=D2) (St:=St) (T:=T) f0 FILENAME_MAX gz_size cc_size env R e asis key s Hd) as (gz & ks & pre & w & Hu & Hks & Hpre & Hth & Hwk); try done.
  { unfold asis. by destruct (ef_comp e), d. }
  assert (length pre <= 2) as Hlp by (rewrite Hpre; destruct ks, gz; simpl; lia).
  assert (ec_out c2 = ec_out c1 /\ ec_decrypt FILENAME_MAX cc_size KEY_BUFSZ env e c1 = (c2, Ok ks) /\ ks <> KeyMissing /\
    (ef_encrypted e = true -> head (vals (rs_header R) (bs "Cache-Control")) = Some (bs "no-cache, must-revalidate"))) as (Ho2 & Hdec & Hnm & Hcache).
  { unfold keyed, ec_decrypt in *. destruct (ef_encrypted e); [|by subst]. destruct Hks as (cc & Ecc & ->), Hk as (c' & Hkey & Hh' & Ec2).
    destruct (uncached_spec c' Hh') as [Hun Hca]. pose proof (on_page_out _ _ _ _ Hkey) as Hout. unfold R. rewrite Ec2. split_and!; [exact Hout| |done|by intros _].
    cbv iota beta. erewrite pbind_Ok by (cbv beta; rewrite Hkey; reflexivity). cbv iota beta. erewrite pbind_Ok by (unfold pignore; rewrite Hun; reflexivity).
    rewrite Ecc. by erewrite (pbind_Ok (plift _)) by reflexivity. }
  destruct (copy_output f0 FILENAME_MAX fuel env R (mkEc (ec_rq c2) (ec_w c2) (set_codecs (ec_out c) (map fresh (map inl pre ++ [filter_on (w_rs (ec_w c))])))) e
    (w_rs (ec_w c)) (ec_out c) pre (header_text R ++ sent_form e asis s) w) as (o3 & Ecp & W3 & O3); try done; [unfold z in *; lia|].
  exists (mkEc (ec_rq c2) (ec_w c2) o3). split_and!; [|reflexivity|exact W3|exact O3|done].
  unfold emb_serve_static. rewrite (pbind_Ok _ _ _ _ _ (pelse_Ok _ _ _ _ _ (serve_fields e d acc modified c Hh Hm Hacc))). fold asis c1.
  erewrite (pbind_Ok pget) by reflexivity. rewrite decide_False by done.
  rewrite (pbind_Ok _ _ _ _ _ (pelse_Ok _ _ _ _ _ (Hu c1))), (pbind_Ok _ _ _ _ _ (pelse_Ok _ _ _ _ _ Hdec)).
  assert (ec_out c1 = set_codecs (ec_out c) (map fresh [filter_on (w_rs (ec_w c))])) as Ho1.
  { cbn. unfold io_codec_add_tail. by rewrite (proj2 Hw). }
  destruct c2 as [rq2 w2 out2]. cbn [ec_out ec_w ec_rq] in *. rewrite Ho1 in Ho2. subst out2.
  destruct ks as [| |cc]; [| done |]; destruct gz as [iz|]; rewrite Hpre in Ecp;
    repeat (erewrite (pbind_Ok (pret tt)) by reflexivity || erewrite (pbind_Ok (ec_add_head _)) by reflexivity); apply pelse_Ok, Ecp.
Qed.

End outputs.

(** ** Evaluation *)

(** One session, kept as its variables. *)
#[local] Instance one_session : SesDriver (list var) := {|
  drv_load := fun _ st ss => (st, set_ss_vars ss (vars_app vars_create st), Ok tt);
  drv_save := fun _ _ ss => (v_list (ss_vars ss), ss, Ok tt);
  drv_remove := fun _ _ ss => ([], ss, Ok tt);
  drv_mtime := fun env _ _ => now env
|}.

Definition coded_key : list byte := bs "sesame" ++ [x00; x00].
Definition coded_file : embfile :=
  mkEf (bs "/www/s.txt") (evp_encrypt (EvpSpec:=flips_spec) coded_key None (z_compress (ZlibSpec:=stored_spec) (bs "secret text"))) true true 784111777 (bs "text/plain") 11.
Definition coded_rq : request io_mem no_codec :=
  set_cookies (set_rq_method rq0 HM_GET) (vars_app vars_create [fresh_var (bs "klone_sid") page_id]).
Definition coded_conn (stored_vars : list var) : @econn stored flips io_mem no_codec io_mem no_codec io_mem (list var) io_mem :=
  mkEc (coded_rq, []) (mkWorld ses_zero (mkRs header_create (mem_io []) 200 HM_GET false) stored_vars) (io_mem_create (replicate 600 x00) 600 false).
Definition key_vars : list var := [fresh_var SESSION_KEY_VAR (bs "sesame")].

Definition coded_fields (vs : list var) := after_fields (L:=libu_ref) coded_file (bs "Sun, 06 Nov 1994 08:49:37 GMT") false (coded_conn vs).
Abbreviation ask_key vs := (on_page (supemb_get_cipher_key (L:=libu_ref) (N.to_nat 4096) 8 env_f) (coded_fields vs)).
Definition coded_ready : @econn stored flips io_mem no_codec io_mem no_codec io_mem (list var) io_mem :=
  uncached (L:=libu_ref) (ask_key key_vars).1.
Abbreviation serve_coded vs :=
  (emb_serve_static (L:=libu_ref) (N.to_nat 9000) (N.to_nat 4096) (N.to_nat 8000) 100 100 8 (N.to_nat 9000) env_f (Some true) coded_file (coded_conn vs)).

Lemma asked {A B} (p : A * B) (r : B) : p.2 = r -> p = (p.1, r).
Proof. destruct p. by intros <-. Qed.

Lemma emb_coded_file_output_witness :
  let R := w_rs (ec_w coded_ready) in
  exists c3, serve_coded key_vars = (c3, Ok tt) /\ ec_w c3 = ec_w coded_ready /\ writable (ec_out c3) /\
    outstream (ec_out c3) = outstream (ec_out (coded_conn key_vars)) ++ header_text R ++ bs "secret text" /\
    (true = true -> head (vals (rs_header R) (bs "Cache-Control")) = Some (bs "no-cache, must-revalidate")).
Proof.
  apply (emb_coded_file_output (L:=libu_ref) (ZS:=stored_spec) (ES:=flips_spec) (N.to_nat 9000) (N.to_nat 4096) (N.to_nat 8000) 100 100 8 (N.to_nat 9000) env_f
    (coded_conn key_vars) coded_ready coded_file true false (bs "Sun, 06 Nov 1994 08:49:37 GMT") coded_key (bs "secret text")).
  - reflexivity.
  - split; [reflexivity|]. by apply Forall_nil.
  - vm_compute. reflexivity.
  - vm_compute. reflexivity.
  - discriminate.
  - exists (ask_key key_vars).1. split_and!; [apply asked; vm_compute; reflexivity| |reflexivity].
    split; [vm_compute; reflexivity|]. vm_compute. repeat (apply Forall_cons; split; [split; by eexists|]). by apply Forall_nil.
  - split_and!.
    + split; [vm_compute; reflexivity|]. vm_compute. repeat (apply Forall_cons; split; [split; by eexists|]). by apply Forall_nil.
    + vm_compute. discriminate.
    + vm_compute. reflexivity.
    + apply Nat.leb_le. vm_compute. reflexivity.
  - discriminate.
  - by split.
  - unfold room. compute_decide.
  - apply Nat.ltb_lt. vm_compute. reflexivity.
  - compute_decide.
Defined.


(** Compressed and encrypted data that is sent as it is: the length in the header is that of
    the encrypted data, not of what is sent. *)
Definition asis_rq : request io_mem no_codec :=
  set_rq_header coded_rq (mkHeader [mk_field (bs "Accept-Encoding", bs "deflate")] 1).
Example asis_length :
  let c := mkEc (asis_rq, []) (mkWorld ses_zero (mkRs header_create (mem_io []) 200 HM_GET false) key_vars) (io_mem_create (replicate 600 x00) 600 false) in
  let c3 := (emb_serve_static (L:=libu_ref) (Z:=stored) (E:=flips) (T:=io_mem) (D2:=io_mem) (N.to_nat 9000) (N.to_nat 4096) (N.to_nat 8000) 100 100 8 (N.to_nat 9000) env_f (Some true) coded_file c).1 in
  let sent := length (outstream (ec_out c3)) - length (header_text (w_rs (ec_w c3))) in
  (head (vals (rs_header (w_rs (ec_w c3))) (bs "Content-Length")), sent) = (Some (bs "24"), 23).
Proof. vm_compute. reflexivity. Qed.
