(* ===== verification/Translate.v ===== *)
(** [translate] of src/src/libtrans/translat.c: a file of a site becomes a C file.  A page is
    preprocessed into a temporary file and translated from there; any other file becomes an
    array, compressed and encrypted on the way when asked for.

    The file system is a map, and the files that are open at the same time are different
    files: what is written to one is put into the map when it is closed.  The streams have
    one reference each. *)

From stdpp Require Import gmap.
From S2P Require Import Prelude Libu Encode Path Date Io IoSpec IoMem Codec Getline Header Vars Parser Request Multipart Response Md5 Session.
From S2P Require Import Files Filter Mime TransC Template FixLine Cgi DyPage Emb Coder Gzip Cipher SesCode EmbCode.

(** ** Files that are written *)

(** A descriptor opened for writing, or for both: what the file has and the offset. *)
Record frw := mkFrw { rw_data : list byte; rw_off : nat }.

Section rw.
Context {P : Posix}.

Definition rw_write (d : frw) (buf : list byte) : frw * option nat :=
  let k := wr_part (length buf) in
  (mkFrw (take (rw_off d) (rw_data d) ++ take k buf ++ drop (rw_off d + k) (rw_data d)) (rw_off d + k), Some k).
Definition rw_read (d : frw) (size : nat) : frw * option (list byte) :=
  let out := take (rd_part size) (drop (rw_off d) (rw_data d)) in
  (mkFrw (rw_data d) (rw_off d + length out), Some out).

#[global] Instance frw_ops : DevOps frw := {|
  dev_read := rw_read;
  dev_write := rw_write;
  dev_seek := fun d off => (mkFrw (rw_data d) off, Some off);
  dev_tell := fun d => Some (rw_off d);
  dev_close := fun d => (d, true)
|}.

#[global] Program Instance frw_sink : DevSink frw := {|
  sunk := rw_data;
  sink_ready d _ := rw_off d = length (rw_data d)
|}.
Next Obligation.
  intros d b n Hb Ho. pose proof (wr_part_spec (length b) ltac:(lia)) as Hp. eexists _, (wr_part (length b)).
  split; [reflexivity|]. cbn [rw_data rw_off]. rewrite Ho, take_ge, drop_ge, app_nil_r, length_app, length_take by lia. split_and!; try done; lia.
Qed.

#[global] Program Instance frw_source : DevSource frw := {| src_rest d := drop (rw_off d) (rw_data d) |}.
Next Obligation.
  intros d n Hn. eexists _, _. split; [reflexivity|]. cbn [rw_data rw_off].
  pose proof (rd_part_spec n Hn) as Hp. rewrite length_take. set (r := drop (rw_off d) (rw_data d)) in *. split_and!.
  - rewrite <- drop_drop. fold r. destruct (decide (rd_part n <= length r)).
    + by rewrite Nat.min_l, take_drop by lia.
    + rewrite Nat.min_r, drop_ge, take_ge, app_nil_r by lia. done.
  - lia.
  - intros H%(f_equal length). rewrite length_take in H. apply nil_length_inv. simpl in H. lia.
Qed.
End rw.

(** ** The translation of a file *)

Section translate.
Context {L : Libu} {P : Posix} {Z : Zlib} {E : Evp} {CZ : Type} {COZ : CodecOps CZ}.
Variables (FILENAME_MAX fuel d n gz_size cc_size : nat) (zip : list CZ) (buf0 : list byte) (now : BinNums.Z).
Variable mkstemps : fsys -> option (list byte).        (* the name of a new file *)
Abbreviation kcodec := (codec_gzip + codec_cipher)%type.
Abbreviation tprog A := (prog fsys A).
Abbreviation ofile := (io frw no_codec).

(** [u_file_open] with [O_CREAT | O_TRUNC | O_WRONLY], and [u_tmpfile_open]. *)
Definition open_named (file : list byte) : tprog ofile := fun fs =>
  let '(i, r) := io_name_set (io_prv_create (mkFrw [] 0)) file in
  (<[file := ([], now)]> fs, (fun _ => i) <$> r).
Definition open_out (file : list byte) : tprog ofile := fun fs => if open_ok file then open_named file fs else (fs, Fail).
Definition u_tmpfile_open : tprog (list byte * ofile) := fun fs =>
  match mkstemps fs with
  | Some name => let '(fs', r) := open_named name fs in (fs', (fun i => (name, i)) <$> r)
  | None => (fs, Fail)
  end.

(** [io_free]: what is left in the buffer is written. *)
Definition close_out (file : list byte) (o : ofile) : tprog unit := fun fs =>
  let '(_, dev, _) := io_free fuel (set_refcnt o 1) in (<[file := (rw_data dev, now)]> fs, Ok tt).

(** A program on a stream that is then closed, whatever happened. *)
Definition writing {A} (file : list byte) (m : prog ofile A) (o : ofile) : tprog A := fun fs =>
  let '(o', r) := m o in ((close_out file o' fs).1, r).

(** The codecs that an input that is no page is read through. *)
Definition add_in {A} (r : res A) (f : A -> kcodec) (i : io frd kcodec) : res (io frd kcodec) :=
  a ← r; Ok (io_codec_add_tail i (f a)).
Definition coded_in (ti : trans_info) (key : list byte) (i : io frd kcodec) : res (io frd kcodec) :=
  i1 ← (if decide (ti_comp ti <> 0%Z) then add_in (codec_gzip_create gz_size GZIP_COMPRESS) inl i else Ok i);
  if decide (ti_encrypt ti <> 0%Z) then add_in (codec_cipher_create cc_size CIPHER_ENCRYPT key None) inr i1 else Ok i1.

(** The page in [in_], from the temporary file [tmp] to [out]; the value is the context of the
    preprocessor. *)
Definition page_to_c (fs : fsys) (ti : trans_info) (in_ : io frd kcodec) (tmp out : ofile) : ofile * ofile * res ppctx :=
  let '(tmp1, r1) := preprocess_page FILENAME_MAX fuel fs d n in_ tmp in
  match r1 with
  | Ok c =>
      let '(tmp2, _) := io_seek tmp1 0 in
      let '(out', _, r) := translate_script_to_c fuel zip buf0 n tmp2 ti out in (tmp2, out', (fun _ => c) <$> r)
  | Fail => (tmp1, out, Fail)
  | Fault => (tmp1, out, Fault)
  | Timeout => (tmp1, out, Timeout)
  end.

(** On success the temporary file is removed; otherwise it stays. *)
Definition page_out (ti : trans_info) (in_ : io frd kcodec) (dep : option ofile) (out : ofile) : tprog unit :=
  let! t := (fun fs => match u_tmpfile_open fs with (fs', Ok x) => (fs', Ok (Some x)) | (fs', Fail) => (fs', Ok None)
                       | (fs', Fault) => (fs', Fault) | (fs', Timeout) => (fs', Timeout) end) in
  match t with
  | None => writing (ti_file_out ti) pfail out
  | Some (name, tmp) => fun fs =>
      let '(tmp', out', r) := page_to_c fs ti in_ tmp out in
      let fs1 := (close_out name tmp' fs).1 in
      match r with
      | Ok c =>
          let fs2 := delete name fs1 in
          let '(fs3, r3) := match dep with
                            | Some o => writing (ti_depend_out ti) (ppctx_print_depend FILENAME_MAX fuel c (ti_file_in ti) (ti_file_out ti)) o fs2
                            | None => (fs2, Ok tt)
                            end in
          ((close_out (ti_file_out ti) out' fs3).1, _ ← r3; _ ← ppctx_free c; Ok tt)
      | Fail => ((close_out (ti_file_out ti) out' fs1).1, Fail)
      | Fault => ((close_out (ti_file_out ti) out' fs1).1, Fault)
      | Timeout => ((close_out (ti_file_out ti) out' fs1).1, Timeout)
      end
  end.

Definition file_out (ti : trans_info) (key : list byte) (in_ : io frd kcodec) (out : ofile) : tprog unit :=
  writing (ti_file_out ti)
    (let! i := plift (coded_in ti key in_) in translate_opaque_to_c fuel buf0 n i ti) out.

(** [fix_line_decl]: the temporary file takes the place of the C file. *)
Definition fix_file (ti : trans_info) : tprog unit :=
  let! i := (fun fs => (fs, u_file_open_ro (C:=no_codec) fs (ti_file_out ti))) in
  let! t := u_tmpfile_open in
  let '(name, tmp) := t in
  writing name (fix_line_decl fuel (ti_file_out ti) n i) tmp;;;
  fun fs => match fs !! name with
            | Some x => (<[ti_file_out ti := x]> (delete name fs), Ok tt)
            | None => (delete (ti_file_out ti) fs, Ok tt)
            end.

Definition translate (ti : trans_info) (key : list byte) : tprog unit :=
  (fun fs => (fs, (fun _ => tt) <$> u_file_open_ro (C:=kcodec) fs (ti_file_in ti)));;;
  let! out := open_out (ti_file_out ti) in
  let! dep := (if decide (ti_depend_out ti = []) then pret None else let! o := open_out (ti_depend_out ti) in pret (Some o)) in
  let! in_ := (fun fs => (fs, u_file_open_ro (C:=kcodec) fs (ti_file_in ti))) in
  if translate_is_a_script (ti_file_in ti) then
    page_out ti in_ dep out;;;
    fix_file ti
  else
    file_out ti key in_ out.
End translate.

(** ** What a file becomes *)

Section translate_spec.
Context {L : Libu} {LS : LibuSpec L} {LM : LibuMem L} {P : Posix} {Z : Zlib} {ZS : ZlibSpec Z} {E : Evp} {ES : EvpSpec E}.
Context {CZ : Type} {COZ : CodecOps CZ}.
Variables (FILENAME_MAX fuel d n gz_size cc_size : nat) (zip : list CZ) (buf0 : list byte) (now : BinNums.Z).
Variable mkstemps : fsys -> option (list byte).
Hypothesis Hbuf0 : length buf0 = 64.
Abbreviation kcodec := (codec_gzip + codec_cipher)%type.

Lemma close_out_spec (file : list byte) (o : io frw no_codec) (fs : fsys) : writable o -> room o 0 ->
  close_out fuel now file o fs = (<[file := (outstream o, now)]> fs, Ok tt).
Proof.
  intros Hw Hr. unfold close_out. destruct (io_free_flushes fuel (set_refcnt o 1) Hw Hr eq_refl) as (i1 & _ & -> & Es).
  change (outstream o) with (outstream (set_refcnt o 1)). rewrite <- Es. done.
Qed.

(** A stream that gives [s], through codecs or without. *)
Definition gives (i : io frd kcodec) (s : list byte) : Prop :=
  (readable i /\ instream i = s) \/ (exists w, decoding i s w /\ w + length (io_codecs i) < fuel).

Lemma gives_bytes : 0 < fuel -> byte_source fuel gives.
Proof.
  intros Hf i s [Hi|(w & Hd & Hw)].
  - destruct (readable_bytes fuel Hf i s Hi) as (i' & E1 & Hi'). exists i'. split; [done|by left].
  - destruct (io_read_coded fuel i s w 1 Hd Hw) as (i' & w' & E1 & Hd' & Hw' & [_ Hl]). exists i'. unfold io_getc. rewrite E1. split.
    + by destruct s.
    + right. exists w'. split; [by destruct s|lia].
Qed.

(** What is embedded of the contents [s] of a file. *)
Definition zipped_form (ti : trans_info) (s : list byte) : list byte := if decide (ti_comp ti <> 0%Z) then z_compress s else s.
Definition embedded_form (ti : trans_info) (key s : list byte) : list byte :=
  if decide (ti_encrypt ti <> 0%Z) then evp_encrypt key None (zipped_form ti s) else zipped_form ti s.

Lemma coded_in_gives (ti : trans_info) (key s : list byte) (i : io frd kcodec) :
  readable i -> rcount (io_r i) = 0 -> instream i = s ->
  length s + 2 * length (zipped_form ti s) + length (embedded_form ti key s) + 2 < fuel ->
  exists i', coded_in gz_size cc_size ti key i = Ok i' /\ gives i' (embedded_form ti key s).
Proof.
  intros Hr Hrc Hi Hf.
  assert (forall sts o w, through sts (instream i) o w -> chain_tail (map fresh sts) = false -> w + length sts < fuel -> gives (add_codecs i sts) o) as G.
  { intros sts o w Ht Htl Hw. destruct (decoding_start i sts o w Hr Hrc Ht Htl) as [Hd Hl]. right. exists w. split; [done|lia]. }
  unfold coded_in, embedded_form, zipped_form in *. rewrite Hi in G.
  destruct (decide (ti_comp ti <> 0%Z)), (decide (ti_encrypt ti <> 0%Z)).
  - destruct (gzip_create_compress gz_size s) as (iz & -> & Hz). destruct (cipher_create_encrypt cc_size key None (z_compress s)) as (cc & -> & Hc).
    eexists. split; [reflexivity|]. apply (G [inl iz; inr cc] _ (length s + length (z_compress s) + (length (z_compress s) + length (evp_encrypt key None (z_compress s))))).
    + exists (z_compress s). eexists. split_and!; [exact Hz|done|simpl; lia|split; [exact Hc|reflexivity]|reflexivity].
    + done.
    + simpl. lia.
  - destruct (gzip_create_compress gz_size s) as (iz & -> & Hz). eexists. split; [reflexivity|].
    apply (G [inl iz] _ (length s + length (z_compress s))); [by split|done|simpl; lia].
  - destruct (cipher_create_encrypt cc_size key None s) as (cc & -> & Hc). eexists. split; [reflexivity|].
    apply (G [inr cc] _ (length s + length (evp_encrypt key None s))); [by split|done|simpl; lia].
  - exists i. split; [done|by left].
Qed.

Lemma open_ro_fresh {K : Type} (fs : fsys) (file s : list byte) (t : BinNums.Z) : fs !! file = Some (s, t) -> open_ok file = true ->
  exists i : io frd K, u_file_open_ro fs file = Ok i /\ readable i /\ rcount (io_r i) = 0 /\ instream i = s.
Proof. intros Hl Ho. unfold u_file_open_ro, io_name_set. rewrite Hl, Ho, u_alloc_ok. eexists. split; [reflexivity|]. by split_and!. Qed.

Lemma open_out_fresh (fs : fsys) (file : list byte) : open_ok file = true ->
  exists o : io frw no_codec, open_out now file fs = (<[file := ([], now)]> fs, Ok o) /\ writable o /\ room o 0 /\ outstream o = [] /\
    (forall k, room o k).
Proof.
  intros Ho. unfold open_out, open_named, io_name_set. rewrite Ho, u_alloc_ok. eexists. split; [reflexivity|].
  by split_and!.
Qed.

(** The array in the C file has the contents of the file, compressed and encrypted as asked for. *)
Theorem translate_embeds (ti : trans_info) (fs : fsys) (key s : list byte) (t : BinNums.Z) :
  let data := embedded_form ti key s in
  fs !! ti_file_in ti = Some (s, t) -> open_ok (ti_file_in ti) = true -> open_ok (ti_file_out ti) = true ->
  ti_file_in ti <> ti_file_out ti -> ti_depend_out ti = [] -> translate_is_a_script (ti_file_in ti) = false ->
  (Z.of_nat (length (ti_uri ti)) < 2 ^ 28)%Z -> length data < n -> length s + 2 * length (zipped_form ti s) + length data + 2 < fuel ->
  (forall md5, u_md5 (ti_uri ti) buf0 = Ok md5 -> length (opaque_text ti md5 data) <= fuel) ->
  exists md5, u_md5 (ti_uri ti) buf0 = Ok md5 /\
    translate FILENAME_MAX fuel d n gz_size cc_size zip buf0 now mkstemps ti key fs = (<[ti_file_out ti := (opaque_text ti md5 data, now)]> fs, Ok tt) /\
    read_array (opaque_text ti md5 data) = data.
Proof.
  intros data Hfs Hoi Hoo Hne Hdep Hns Hu Hn Hf Hlen. destruct (open_ro_fresh (K:=kcodec) fs _ s t Hfs Hoi) as (i0 & E0 & _).
  destruct (open_out_fresh fs _ Hoo) as (o & Eo & Wo & _ & Oo & Ro). set (fs1 := <[ti_file_out ti := ([], now)]> fs) in *.
  assert (fs1 !! ti_file_in ti = Some (s, t)) as Hfs1 by (unfold fs1; by rewrite lookup_insert_ne).
  destruct (open_ro_fresh (K:=kcodec) fs1 _ s t Hfs1 Hoi) as (i & Ei & Ri & Rc & Ii).
  destruct (coded_in_gives ti key s i Ri Rc Ii Hf) as (i' & Ec & Hg).
  assert (0 < fuel) as Hpos by lia.
  destruct (opaque_prints (D:=frw) (C:=no_codec) fuel buf0 Hbuf0 gives n i' data ti (gives_bytes Hpos) Hg Hn Hu) as (md5 & Em & Hp).
  exists md5. split; [done|]. destruct (Hp o 0 Wo (Ro _) (Hlen _ Em)) as (o' & [] & Et & W' & R' & O'). split.
  - unfold translate. erewrite pbind_Ok by (rewrite E0; reflexivity). rewrite (pbind_Ok _ _ _ _ _ Eo), decide_True by done.
    erewrite (pbind_Ok (pret None)) by reflexivity. erewrite pbind_Ok by (cbv beta; rewrite Ei; reflexivity). rewrite Hns.
    unfold file_out, writing. rewrite Ec. erewrite (pbind_Ok (plift _)) by reflexivity. rewrite Et, close_out_spec by done.
    cbn [fst]. rewrite O', Oo. unfold fs1. by rewrite insert_insert_eq.
  - unfold opaque_text. rewrite (app_assoc copyright_hdr). apply array_read; apply (bool_decide_unpack _); vm_compute; done.
Qed.
End translate_spec.

(** ** From the file to the client *)

(** What the constructor that [print_static_page_block] writes puts into [e]. *)
Definition res_ctor (ti : trans_info) (data : list byte) : embfile :=
  mkEf (ti_uri ti) data (bool_decide (ti_comp ti <> 0%Z)) (bool_decide (ti_encrypt ti <> 0%Z)) (ti_mtime ti)
    (u_guess_mime_type (Some (ti_uri ti))) (Z.to_nat (u32 (ti_file_size ti))).

Section delivery.
Context {L : Libu} {LS : LibuSpec L} {LM : LibuMem L} {P : Posix} {Z : Zlib} {ZS : ZlibSpec Z} {E : Evp} {ES : EvpSpec E}.
Context {CZ DR CR D C D2 St T Ct : Type} {COZ : CodecOps CZ} {DOR : DevOps DR} {COR : CodecOps CR} {DO2 : DevOps D2} {DK2 : DevSink D2}.
Context {SD : SesDriver St} {DOT : DevOps T} {COT : CodecOps Ct}.
Variables (f0 FILENAME_MAX fuel fdep n gz_size cc_size rf_size KEY_BUFSZ : nat) (zip : list CZ) (buf0 : list byte) (tnow : BinNums.Z) (env : ses_env).
Variable mkstemps : fsys -> option (list byte).
Abbreviation ec := (@econn Z E DR CR D C D2 St T).

End delivery.

(** ** Evaluation *)

#[local] Existing Instances posix_ref one_session.
Definition coded_ti : trans_info := mkTi (bs "site/s.txt") (bs "pg.c") [] (bs "/www/s.txt") [] 1 1 11 784111777.
Definition coded_fs : fsys := {[ bs "site/s.txt" := (bs "secret text", 5%Z) ]}.

