(* ===== verification/Site.v ===== *)
(** The site tool: src/src/tools/klone/main.c and pm.c, with [u_foreach_dir_item] of
    src/src/libutils/utils.c.  [klone -c import] goes through a directory and writes the list
    of C files of the site, the make rules that translate each file, and the C file whose
    function registers them all; [klone -c translate] translates one of them.

    Reading a directory, [stat] and [fnmatch] are parameters.  The messages on the terminal
    are not modelled. *)

From stdpp Require Import gmap.
From S2P Require Import Prelude Libu Encode Path Date Io IoSpec IoMem Codec Getline Header Vars Parser Request Multipart Response Md5 Session.
From S2P Require Import Files Filter Mime TransC Template FixLine Cgi DyPage Emb Coder Gzip Cipher SesCode EmbCode Translate.

(** ** pm.c *)

(** The list of patterns. *)
Abbreviation pm := (list (list byte)).

Section pm_ops.
Context {L : Libu}.
Variable pm_size : nat.                   (* sizeof(pm_t) *)
Variable fnmatch : list byte -> list byte -> bool.

Definition pm_create : res pm := if u_alloc pm_size then Ok [] else Fail.

Definition pm_add (p : pm) (pattern : list byte) : pm * res unit :=
  if u_alloc pm_size && u_alloc (S (length pattern)) then (p ++ [pattern], Ok tt) else (p, Fail).

(** The loop goes on from the item that it has just released. *)
Definition pm_remove (p : pm) (pattern : list byte) : pm * res unit :=
  if bool_decide (pattern ∈ p) then (p, Fault) else (p, Ok tt).

Definition pm_is_empty (p : pm) : bool := match p with [] => true | _ => false end.
Definition pm_match (p : pm) (uri : list byte) : bool := existsb (fun patt => fnmatch patt uri) p.
End pm_ops.

(** ** Directories *)

Definition S_IFMT : Z := 0xF000.
Definition S_IFREG : Z := 0x8000.
Definition S_IFDIR : Z := 0x4000.
Definition S_IFSOCK : Z := 0xC000.

(** What the system has: the names in a directory and the mode of a file. *)
Record system := mkSys {
  sys_dir : list byte -> option (list (list byte));
  sys_mode : list byte -> option Z
}.

Section foreach.
Context {L : Libu} {S : Type}.
Variables (FILENAME_MAX : nat) (sys : system).

(** The loop of [u_foreach_dir_item]: a callback that fails ends it, a name that does not fit
    or whose [stat] fails is an error. *)
Fixpoint foreach_items (path : list byte) (mask : Z) (cb : list byte -> prog S unit) (names : list (list byte)) : prog S unit :=
  match names with
  | [] => pret tt
  | name :: names' =>
      if decide (name = bs "." \/ name = bs "..") then foreach_items path mask cb names' else
      let '(buf, trunc) := u_snprintf (path ++ bs "/" ++ name) FILENAME_MAX in
      if trunc : bool then pfail else
      match sys_mode sys buf with
      | None => pfail
      | Some mode =>
          if decide (Z.land (Z.land mode S_IFMT) mask <> 0%Z) then fun s =>
            match cb name s with
            | (s', Ok _) => foreach_items path mask cb names' s'
            | (s', Fail) => (s', Ok tt)
            | (s', Fault) => (s', Fault)
            | (s', Timeout) => (s', Timeout)
            end
          else foreach_items path mask cb names'
      end
  end.

Definition u_foreach_dir_item (path : list byte) (mask : Z) (cb : list byte -> prog S unit) : prog S unit :=
  match sys_dir sys path with
  | Some names => foreach_items path mask cb names
  | None => pfail
  end.
End foreach.

(** ** import *)

(** The switches of the command. *)
Record site_opt := mkSo {
  so_excl : pm;
  so_enc : pm;
  so_comp : pm;
  so_zip : bool;
  so_key_file : option (list byte)
}.

(** The texts for a file: [ext] of its C file, and whether it is a page, compressed, encrypted. *)
Record imported := mkImp {
  im_md5 : list byte;
  im_ext : list byte;
  im_file : list byte;
  im_uri : list byte;
  im_script : bool;
  im_zip : bool;
  im_enc : bool
}.

Definition c_name (m : imported) : list byte := bs "pg_" ++ im_md5 m ++ bs "." ++ im_ext m.
Definition mk_text (m : imported) : list byte := bs " \" ++ NL ++ c_name m.
Definition reg_text (m : imported) : list byte := bs "KLONE_REGISTER(action," ++ im_md5 m ++ bs ");" ++ NL.
Definition rule_text (key_file : option (list byte)) (m : imported) : list byte :=
  NL ++ c_name m ++ bs ": " ++ im_file m ++ NL ++
  bs "	$(KLONE) -c translate -i $< -o $@ " ++ (if im_script m then bs "-d $@.kld" else []) ++
  bs " -u /" ++ im_uri m ++ bs " " ++ (if im_zip m then bs "-z" else []) ++ bs " " ++ (if im_enc m then bs "-E" else []) ++ bs " " ++
  (if im_enc m && bool_decide (is_Some key_file) then bs "-k" else []) ++ bs " " ++
  (if im_enc m then default [] key_file else []) ++ NL ++
  (if im_script m then bs "	$(MKDEP) -f $@.d $(CFLAGS) -a $@" ++ NL else []).
Definition include_text (m : imported) (suffix : list byte) : list byte := NL ++ bs "-include " ++ c_name m ++ suffix ++ NL.

Definition register_head : list byte :=
  bs "#include <klone_conf.h>" ++ NL ++ bs "#include <klone/hook.h>" ++ NL ++ bs "static void do_register(int);" ++ NL ++
  bs "void unregister_pages(void);" ++ NL ++ bs "void register_pages(void);" ++ NL.
Definition unregister_fun : list byte := bs "void unregister_pages(void) { " ++ NL ++ bs "do_register(0); }" ++ NL.
Definition register_fun : list byte :=
  bs "void register_pages(void) { " ++ NL ++ bs "do_register(1);" ++ NL ++ bs "#ifdef ENABLE_HOOKS" ++ NL ++ bs "    hooks_setup(); " ++ NL ++
  bs "#endif " ++ NL ++ bs "}" ++ NL.
Definition do_register_head : list byte := bs "static void do_register(int action) {" ++ NL.
Definition register_macro : list byte :=
  bs "#define KLONE_REGISTER(a, md5)     \" ++ NL ++
  bs "    do {                           \" ++ NL ++
  bs "    void module_init_##md5(void);  \" ++ NL ++
  bs "    void module_term_##md5(void);  \" ++ NL ++
  bs "    if(a) module_init_##md5();     \" ++ NL ++
  bs "    else module_term_##md5();      \" ++ NL ++
  bs "    } while(0)                     " ++ NL.
Definition register_foot : list byte := bs "#undef KLONE_REGISTER" ++ NL ++ bs "}" ++ NL.

Section import.
Context {L : Libu} {P : Posix}.
Variables (FILENAME_MAX fuel : nat) (buf0 : list byte) (now : Z).
Variables (sys : system) (fnmatch : list byte -> list byte -> bool) (opt : site_opt).
Abbreviation ofile := (io frw no_codec).

(** The three files that are written and the counters. *)
Record sctx := mkSx {
  sx_iom : ofile;
  sx_iod : ofile;
  sx_ior : ofile;
  sx_ndir : Z;
  sx_nfile : Z;
  sx_nexcl : Z
}.
Abbreviation sprog A := (prog sctx A).

Definition to_mk (text : list byte) : sprog unit := fun c =>
  let '(o, r) := oprintf fuel text (sx_iom c) in (mkSx o (sx_iod c) (sx_ior c) (sx_ndir c) (sx_nfile c) (sx_nexcl c), r).
Definition to_dps (text : list byte) : sprog unit := fun c =>
  let '(o, r) := oprintf fuel text (sx_iod c) in (mkSx (sx_iom c) o (sx_ior c) (sx_ndir c) (sx_nfile c) (sx_nexcl c), r).
Definition to_reg (text : list byte) : sprog unit := fun c =>
  let '(o, r) := oprintf fuel text (sx_ior c) in (mkSx (sx_iom c) (sx_iod c) o (sx_ndir c) (sx_nfile c) (sx_nexcl c), r).
Definition count_dir : sprog unit := pmod (fun c => mkSx (sx_iom c) (sx_iod c) (sx_ior c) (w64 (sx_ndir c + 1)) (sx_nfile c) (sx_nexcl c)).
Definition count_file : sprog unit := pmod (fun c => mkSx (sx_iom c) (sx_iod c) (sx_ior c) (sx_ndir c) (w64 (sx_nfile c + 1)) (sx_nexcl c)).
Definition count_excl : sprog unit := pmod (fun c => mkSx (sx_iom c) (sx_iod c) (sx_ior c) (sx_ndir c) (sx_nfile c) (w64 (sx_nexcl c + 1))).

Definition excluded (uri : list byte) : bool := negb (pm_is_empty (so_excl opt)) && pm_match fnmatch (so_excl opt) uri.
Definition encrypted (uri : list byte) : bool := negb (pm_is_empty (so_enc opt)) && pm_match fnmatch (so_enc opt) uri.
Definition zipped_uri (uri : list byte) : bool :=
  so_zip opt &&
  (if pm_is_empty (so_comp opt) then bool_decide (mm_comp (u_get_mime_map (Some uri)) <> 0) else pm_match fnmatch (so_comp opt) uri).

Definition cb_file (base_uri path name : list byte) : sprog unit :=
  let! fullpath := snprintf (path ++ bs "/" ++ name) FILENAME_MAX in
  let! file_in := plift (translate_makefile_filepath FILENAME_MAX fullpath (bs "$(srcdir)") FILENAME_MAX) in
  let! uri := snprintf (base_uri ++ bs "/" ++ name) URI_BUFSZ in
  let! uri_md5 := plift (u_md5 uri buf0) in
  if excluded uri then count_excl else
  count_file;;;
  let m := mkImp uri_md5 (if Search.u_match_ext (Some file_in) (Some (bs "klx")) then bs "cc" else bs "c") file_in uri
             (translate_is_a_script name) (zipped_uri uri) (encrypted uri) in
  to_mk (mk_text m);;;
  to_reg (reg_text m);;;
  to_dps (rule_text (so_key_file opt) m);;;
  if im_script m then
    to_dps (include_text m (bs ".kld"));;;
    to_dps (include_text m (bs ".d"))
  else pret tt.

(** [depth] bounds the nesting of directories. *)
Fixpoint cb_dir (depth : nat) (cur_uri path name : list byte) : sprog unit :=
  match depth with
  | 0 => plift Timeout
  | S depth' =>
      count_dir;;;
      let! dir := snprintf (path ++ bs "/" ++ name) FILENAME_MAX in
      let! base_uri := snprintf (cur_uri ++ bs "/" ++ name) URI_BUFSZ in
      pignore (u_foreach_dir_item FILENAME_MAX sys dir S_IFREG (cb_file base_uri dir));;;
      pignore (u_foreach_dir_item FILENAME_MAX sys dir S_IFDIR (cb_dir depth' base_uri dir))
  end.

Definition print_register_header : sprog unit :=
  to_reg (bs "#include <klone_conf.h>" ++ NL);;;
  to_reg (bs "#include <klone/hook.h>" ++ NL);;;
  to_reg (bs "static void do_register(int);" ++ NL);;;
  to_reg (bs "void unregister_pages(void);" ++ NL);;;
  to_reg (bs "void register_pages(void);" ++ NL);;;
  to_reg unregister_fun;;;
  to_reg register_fun;;;
  to_reg do_register_head;;;
  to_reg register_macro.

Definition print_register_footer : sprog unit := to_reg (bs "#undef KLONE_REGISTER" ++ NL);;; to_reg (bs "}" ++ NL).

Definition site_body (depth : nat) (root_dir base_uri : list byte) : sprog unit :=
  print_register_header;;;
  to_mk (bs "embfs_rootdir=" ++ root_dir ++ NL);;;
  to_mk (bs "autogen_src= ");;;
  pignore (u_foreach_dir_item FILENAME_MAX sys root_dir S_IFREG (cb_file base_uri root_dir));;;
  pignore (u_foreach_dir_item FILENAME_MAX sys root_dir S_IFDIR (cb_dir depth base_uri root_dir));;;
  print_register_footer.

(** The value is the three counters. *)
Definition trans_site (depth : nat) (root_dir base_uri : list byte) : prog fsys (Z * Z * Z) :=
  let! iom := open_out now (bs "autogen.mk") in
  let! iod := open_out now (bs "autogen.dps") in
  let! ior := open_out now (bs "register.c") in
  fun fs =>
    let '(c, r) := site_body depth root_dir base_uri (mkSx iom iod ior 0 0 0) in
    let fs1 := (close_out fuel now (bs "register.c") (sx_ior c) fs).1 in
    let fs2 := (close_out fuel now (bs "autogen.dps") (sx_iod c) fs1).1 in
    ((close_out fuel now (bs "autogen.mk") (sx_iom c) fs2).1, (fun _ => (sx_ndir c, sx_nfile c, sx_nexcl c)) <$> r).
End import.

(** ** What is imported *)

(** A directory with what is below it. *)
Inductive stree := SFile | SDir (items : list (list byte * stree)).

Fixpoint height (t : stree) : nat :=
  match t with SFile => 0 | SDir items => S (list_max (map (fun x => height x.2) items)) end.

Fixpoint ndirs (t : stree) : nat :=
  match t with SFile => 0 | SDir items => S (list_sum (map (fun x => ndirs x.2) items)) end.

Definition join (a b : list byte) : list byte := a ++ bs "/" ++ b.

(** The files below a directory, those in it first: each with the URI and the path of its
    directory, and its name. *)
Abbreviation entry := (list byte * list byte * list byte)%type.
Definition is_file (t : stree) : bool := match t with SFile => true | SDir _ => false end.
Definition here (items : list (list byte * stree)) (base path : list byte) : list entry :=
  map (fun x => (base, path, x.1)) (List.filter (fun x => is_file x.2) items).

Fixpoint below (t : stree) (base path : list byte) : list entry :=
  match t with
  | SFile => []
  | SDir items => here items base path ++ concat (map (fun x => below x.2 (join base x.1) (join path x.1)) items)
  end.

Section import_spec.
Context {L : Libu} {LS : LibuSpec L} {LM : LibuMem L} {P : Posix}.
Variables (FILENAME_MAX fuel : nat) (buf0 : list byte) (now : Z).
Variables (sys : system) (fnmatch : list byte -> list byte -> bool) (opt : site_opt).
Hypothesis Hbuf0 : length buf0 = 64.
Hypothesis Hname : 2 <= FILENAME_MAX.
Hypothesis Hfuel : FILENAME_MAX + length (default [] (so_key_file opt)) + N.to_nat 3000 <= fuel.

(** The system shows the tree at a path. *)
Definition has_mode (path : list byte) (m : Z) : Prop := exists mode, sys_mode sys path = Some mode /\ Z.land mode S_IFMT = m.
Definition no_dots (name : list byte) : bool := negb (bool_decide (name = bs "." \/ name = bs "..")).

Fixpoint shows (path : list byte) (t : stree) : Prop :=
  match t with
  | SFile => has_mode path S_IFREG
  | SDir items =>
      has_mode path S_IFDIR /\
      (exists names, sys_dir sys path = Some names /\ List.filter no_dots names = map fst items) /\
      (fix all (l : list (list byte * stree)) : Prop := match l with [] => True | x :: l' => shows (join path x.1) x.2 /\ all l' end) items
  end.

(** Paths and URIs fit their buffers. *)
Definition mk_path (path : list byte) : list byte :=
  match path with
  | c :: rest => if bool_decide (c = "/"%byte \/ c = x5c) || (isalpha c && match rest with x :: _ => bool_decide (x = ":"%byte) | [] => false end)
                 then path else bs "$(srcdir)/" ++ path
  | [] => bs "$(srcdir)/"
  end.

Definition fits (e : entry) : Prop :=
  let '(base, path, name) := e in
  length (join path name) < FILENAME_MAX /\ length (mk_path (join path name)) < FILENAME_MAX /\ length (join base name) < URI_BUFSZ.

Fixpoint fitting (t : stree) (base path : list byte) : Prop :=
  match t with
  | SFile => True
  | SDir items =>
      (fix all (l : list (list byte * stree)) : Prop :=
         match l with [] => True | x :: l' => fits (base, path, x.1) /\ fitting x.2 (join base x.1) (join path x.1) /\ all l' end) items
  end.

(** What is written for a file. *)
Definition imp_of (e : entry) : imported :=
  let '(base, path, name) := e in
  let uri := join base name in let file := mk_path (join path name) in
  mkImp (match u_md5 uri buf0 with Ok m => m | _ => [] end) (if Search.u_match_ext (Some file) (Some (bs "klx")) then bs "cc" else bs "c")
    file uri (translate_is_a_script name) (zipped_uri fnmatch opt uri) (encrypted fnmatch opt uri).
Definition skipped (e : entry) : bool := let '(base, _, name) := e in excluded fnmatch opt (join base name).
Definition kept (es : list entry) : list imported := map imp_of (List.filter (fun e => negb (skipped e)) es).
Definition dps_text (m : imported) : list byte :=
  rule_text (so_key_file opt) m ++ (if im_script m then include_text m (bs ".kld") ++ include_text m (bs ".d") else []).

(** Streams that can be written to and counters in range. *)
Definition ready (o : io frw no_codec) : Prop := writable o /\ room o 0.
Definition sx_ok (c : sctx) : Prop :=
  ready (sx_iom c) /\ ready (sx_iod c) /\ ready (sx_ior c) /\
  (0 <= sx_ndir c < 2 ^ 64)%Z /\ (0 <= sx_nfile c < 2 ^ 64)%Z /\ (0 <= sx_nexcl c < 2 ^ 64)%Z.

(** [m] succeeds and writes [mk], [dps] and [reg] and counts. *)
Record step (c c' : sctx) (mk dps reg : list byte) (nd nf nx : nat) : Prop := {
  st_ok : sx_ok c';
  st_mk : outstream (sx_iom c') = outstream (sx_iom c) ++ mk;
  st_dps : outstream (sx_iod c') = outstream (sx_iod c) ++ dps;
  st_reg : outstream (sx_ior c') = outstream (sx_ior c) ++ reg;
  st_nd : sx_ndir c' = w64 (sx_ndir c + Z.of_nat nd);
  st_nf : sx_nfile c' = w64 (sx_nfile c + Z.of_nat nf);
  st_nx : sx_nexcl c' = w64 (sx_nexcl c + Z.of_nat nx)
}.

Definition writes {A} (m : prog sctx A) (a : A) (mk dps reg : list byte) (nd nf nx : nat) : Prop :=
  forall c, sx_ok c -> exists c', m c = (c', Ok a) /\ step c c' mk dps reg nd nf nx.

Lemma w64_id (z : Z) : (0 <= z < 2 ^ 64)%Z -> w64 (z + 0) = z.
Proof. intros H. rewrite Z.add_0_r. by apply Z.mod_small. Qed.

Lemma step_refl c : sx_ok c -> step c c [] [] [] 0 0 0.
Proof. intros H. pose proof H as (_ & _ & _ & ? & ? & ?). split; rewrite ?app_nil_r, ?w64_id; done. Qed.

Lemma step_trans c1 c2 c3 (mk1 mk2 d1 d2 r1 r2 : list byte) (n1 n2 f1 f2 x1 x2 : nat) :
  step c1 c2 mk1 d1 r1 n1 f1 x1 -> step c2 c3 mk2 d2 r2 n2 f2 x2 ->
  step c1 c3 (mk1 ++ mk2) (d1 ++ d2) (r1 ++ r2) (n1 + n2) (f1 + f2) (x1 + x2).
Proof.
  intros [A1 A2 A3 A4 A5 A6 A7] [B1 B2 B3 B4 B5 B6 B7].
  assert (forall a m n : nat, forall z z1, z1 = w64 (z + Z.of_nat m) -> w64 (z1 + Z.of_nat n) = w64 (z + Z.of_nat (m + n))) as W.
  { intros _ m n z z1 ->. unfold w64. rewrite Z.add_mod_idemp_l by done. f_equal. lia. }
  split; [done|..]; rewrite ?B2, ?B3, ?B4, ?B5, ?B6, ?B7; rewrite ?A2, ?A3, ?A4, ?app_assoc; try done; by apply (W 0).
Qed.

Lemma writes_ret {A} (a : A) : writes (pret a) a [] [] [] 0 0 0.
Proof. intros c Hc. exists c. split; [done|by apply step_refl]. Qed.

Lemma writes_seq {A B} (m : prog sctx A) (f : A -> prog sctx B) (a : A) (b : B) (mk1 mk2 d1 d2 r1 r2 : list byte) (n1 n2 f1 f2 x1 x2 : nat) :
  writes m a mk1 d1 r1 n1 f1 x1 -> writes (f a) b mk2 d2 r2 n2 f2 x2 ->
  writes (let! x := m in f x) b (mk1 ++ mk2) (d1 ++ d2) (r1 ++ r2) (n1 + n2) (f1 + f2) (x1 + x2).
Proof.
  intros Hm Hf c Hc. destruct (Hm c Hc) as (c1 & E1 & S1). destruct (Hf c1 (st_ok _ _ _ _ _ _ _ _ S1)) as (c2 & E2 & S2).
  exists c2. rewrite (pbind_Ok _ _ _ _ _ E1). split; [done|by eapply step_trans].
Qed.

Lemma writes_lift {A B} (r : res A) (a : A) (f : A -> prog sctx B) (b : B) (mk dp rg : list byte) (nd nf nx : nat) : r = Ok a ->
  writes (f a) b mk dp rg nd nf nx -> writes (let! x := plift r in f x) b mk dp rg nd nf nx.
Proof. intros -> Hf. by apply (writes_seq (plift (Ok a)) f a b [] mk [] dp [] rg 0 nd 0 nf 0 nx (writes_ret a)). Qed.

Lemma writes_snprintf {B} (text : list byte) (size : nat) (f : list byte -> prog sctx B) (b : B) (mk dp rg : list byte) (nd nf nx : nat) :
  length text < size -> writes (f text) b mk dp rg nd nf nx -> writes (let! x := snprintf text size in f x) b mk dp rg nd nf nx.
Proof.
  intros Hl Hf c Hc. unfold snprintf. rewrite u_snprintf_spec by lia. rewrite bool_decide_false, take_ge by lia.
  destruct (Hf c Hc) as (c' & E & S). exists c'. split; [|done]. by erewrite pbind_Ok by reflexivity.
Qed.

Lemma ready_printf (o : io frw no_codec) (text : list byte) : ready o -> length text <= fuel ->
  exists o', oprintf fuel text o = (o', Ok tt) /\ ready o' /\ outstream o' = outstream o ++ text.
Proof.
  intros [Hw Hr] Hl. assert (room o (length text + 0)) as Hr' by exact Hr. destruct (prints_printf fuel text o 0 Hw Hr' Hl) as (o' & [] & E & W & R & O). exists o'. by split_and!.
Qed.

Lemma writes_mk (text : list byte) : length text <= fuel -> writes (to_mk fuel text) tt text [] [] 0 0 0.
Proof.
  intros Hl c (H1 & H2 & H3 & H4). destruct (ready_printf (sx_iom c) text H1 Hl) as (o & E & R & O). unfold to_mk. rewrite E. eexists. split; [done|].
  destruct H4 as (? & ? & ?). split; cbn; rewrite ?app_nil_r, ?w64_id; done.
Qed.
Lemma writes_dps (text : list byte) : length text <= fuel -> writes (to_dps fuel text) tt [] text [] 0 0 0.
Proof.
  intros Hl c (H1 & H2 & H3 & H4). destruct (ready_printf (sx_iod c) text H2 Hl) as (o & E & R & O). unfold to_dps. rewrite E. eexists. split; [done|].
  destruct H4 as (? & ? & ?). split; cbn; rewrite ?app_nil_r, ?w64_id; done.
Qed.
Lemma writes_reg (text : list byte) : length text <= fuel -> writes (to_reg fuel text) tt [] [] text 0 0 0.
Proof.
  intros Hl c (H1 & H2 & H3 & H4). destruct (ready_printf (sx_ior c) text H3 Hl) as (o & E & R & O). unfold to_reg. rewrite E. eexists. split; [done|].
  destruct H4 as (? & ? & ?). split; cbn; rewrite ?app_nil_r, ?w64_id; done.
Qed.

Lemma w64_range (z : Z) : (0 <= w64 z < 2 ^ 64)%Z.
Proof. apply Z.mod_pos_bound. done. Qed.
Lemma writes_dir : writes count_dir tt [] [] [] 1 0 0.
Proof.
  intros c (H1 & H2 & H3 & H4 & H5 & H6). eexists. split; [done|]. split; cbn [sx_iom sx_iod sx_ior sx_ndir sx_nfile sx_nexcl];
    rewrite ?app_nil_r, ?w64_id; try done. repeat (split; [done|]). split; [apply w64_range|done].
Qed.
Lemma writes_file : writes count_file tt [] [] [] 0 1 0.
Proof.
  intros c (H1 & H2 & H3 & H4 & H5 & H6). eexists. split; [done|]. split; cbn [sx_iom sx_iod sx_ior sx_ndir sx_nfile sx_nexcl];
    rewrite ?app_nil_r, ?w64_id; try done. repeat (split; [done|]). split; [apply w64_range|done].
Qed.
Lemma writes_excl : writes count_excl tt [] [] [] 0 0 1.
Proof.
  intros c (H1 & H2 & H3 & H4 & H5 & H6). eexists. split; [done|]. split; cbn [sx_iom sx_iod sx_ior sx_ndir sx_nfile sx_nexcl];
    rewrite ?app_nil_r, ?w64_id; try done. repeat (split; [done|]). apply w64_range.
Qed.

(** ** The walk *)

(** [m] imports the files [es] and counts [nd] directories. *)
Definition imports (m : prog sctx unit) (es : list entry) (nd : nat) : Prop :=
  writes m tt (concat (map mk_text (kept es))) (concat (map dps_text (kept es))) (concat (map reg_text (kept es)))
    nd (length (kept es)) (length (List.filter skipped es)).

Lemma kept_app (a b : list entry) : kept (a ++ b) = kept a ++ kept b.
Proof. unfold kept. by rewrite List.filter_app, map_app. Qed.

Lemma imports_seq {A} (m : prog sctx A) (a : A) (f : A -> prog sctx unit) (es es' : list entry) (nd nd' : nat) :
  writes m a (concat (map mk_text (kept es))) (concat (map dps_text (kept es))) (concat (map reg_text (kept es)))
    nd (length (kept es)) (length (List.filter skipped es)) ->
  imports (f a) es' nd' -> imports (let! x := m in f x) (es ++ es') (nd + nd').
Proof.
  intros Hm Hf. unfold imports. rewrite kept_app, List.filter_app, !map_app, !concat_app, !length_app. by eapply writes_seq.
Qed.

Lemma imports_ret : imports (pret tt) [] 0.
Proof. apply writes_ret. Qed.

Lemma imports_ignore (m : prog sctx unit) (es : list entry) (nd : nat) : imports m es nd -> imports (pignore m) es nd.
Proof. intros Hm c Hc. destruct (Hm c Hc) as (c' & E & S). exists c'. split; [|done]. unfold pignore. by rewrite E. Qed.

(** The lengths of the texts. *)
Ltac text_lengths :=
  rewrite ?length_app; repeat match goal with |- context [length (bs ?s)] => let v := eval vm_compute in (length (bs s)) in change (length (bs s)) with v end.

Lemma rule_short (m : imported) : length (im_md5 m) = 32 -> length (im_ext m) <= 2 -> length (im_file m) < FILENAME_MAX -> length (im_uri m) < URI_BUFSZ ->
  length (rule_text (so_key_file opt) m) <= fuel.
Proof.
  intros H1 H2 H3 H4. unfold URI_BUFSZ in H4. unfold rule_text, c_name.
  destruct (im_script m), (im_zip m), (im_enc m), (so_key_file opt) as [k|]; cbn [andb default from_option id bool_decide] in *; text_lengths;
    try case_bool_decide; text_lengths; unfold id in *; cbn [length NL] in *; lia.
Qed.
Lemma include_short (m : imported) (suffix : list byte) : length (im_md5 m) = 32 -> length (im_ext m) <= 2 -> length suffix <= 10 ->
  length (include_text m suffix) <= fuel.
Proof. intros H1 H2 H3. unfold include_text, c_name. text_lengths. cbn [length NL]. lia. Qed.
Lemma mk_short (m : imported) : length (im_md5 m) = 32 -> length (im_ext m) <= 2 -> length (mk_text m) <= fuel.
Proof. intros H1 H2. unfold mk_text, c_name. text_lengths. cbn [length NL]. lia. Qed.
Lemma reg_short (m : imported) : length (im_md5 m) = 32 -> length (reg_text m) <= fuel.
Proof. intros H1. unfold reg_text. text_lengths. cbn [length NL]. lia. Qed.

Lemma mk_path_abs (path : list byte) :
  (if match path with
      | c :: rest => bool_decide (c = "/"%byte \/ c = x5c) || (isalpha c && match rest with x :: _ => bool_decide (x = ":"%byte) | [] => false end)
      | [] => false
      end then path else bs "$(srcdir)" ++ bs "/" ++ path) = mk_path path.
Proof. unfold mk_path. destruct path as [|c rest]; [done|]. by destruct (bool_decide _ || _). Qed.

Lemma mk_path_eq (path : list byte) : length (mk_path path) < FILENAME_MAX ->
  translate_makefile_filepath FILENAME_MAX path (bs "$(srcdir)") FILENAME_MAX = Ok (mk_path path).
Proof.
  intros H. unfold translate_makefile_filepath. rewrite mk_path_abs.
  rewrite u_snprintf_spec by lia. rewrite bool_decide_false, take_ge by lia.
  rewrite u_strlcpy_spec by lia. rewrite bool_decide_false, take_ge by lia. done.
Qed.

Lemma mk_path_long (path : list byte) : ~ length (mk_path path) < FILENAME_MAX ->
  translate_makefile_filepath FILENAME_MAX path (bs "$(srcdir)") FILENAME_MAX = Fail.
Proof. intros H. unfold translate_makefile_filepath. rewrite mk_path_abs, u_snprintf_spec by lia. by rewrite bool_decide_true by lia. Qed.

Lemma mk_then {B} (text : list byte) (k : prog sctx B) (b : B) (mk dp rg : list byte) (nd nf nx : nat) : length text <= fuel ->
  writes k b mk dp rg nd nf nx -> writes (to_mk fuel text;;; k) b (text ++ mk) dp rg nd nf nx.
Proof. intros Hl Hk. exact (writes_seq _ _ tt b text mk [] dp [] rg 0 nd 0 nf 0 nx (writes_mk text Hl) Hk). Qed.
Lemma dps_then {B} (text : list byte) (k : prog sctx B) (b : B) (mk dp rg : list byte) (nd nf nx : nat) : length text <= fuel ->
  writes k b mk dp rg nd nf nx -> writes (to_dps fuel text;;; k) b mk (text ++ dp) rg nd nf nx.
Proof. intros Hl Hk. exact (writes_seq _ _ tt b [] mk text dp [] rg 0 nd 0 nf 0 nx (writes_dps text Hl) Hk). Qed.
Lemma reg_then {B} (text : list byte) (k : prog sctx B) (b : B) (mk dp rg : list byte) (nd nf nx : nat) : length text <= fuel ->
  writes k b mk dp rg nd nf nx -> writes (to_reg fuel text;;; k) b mk dp (text ++ rg) nd nf nx.
Proof. intros Hl Hk. exact (writes_seq _ _ tt b [] mk [] dp text rg 0 nd 0 nf 0 nx (writes_reg text Hl) Hk). Qed.

Lemma cb_file_imports (base path name : list byte) : fits (base, path, name) ->
  imports (cb_file FILENAME_MAX fuel buf0 fnmatch opt base path name) [(base, path, name)] 0.
Proof.
  intros (H1 & H2 & H3). unfold cb_file, imports. fold (join path name). fold (join base name).
  apply writes_snprintf; [done|]. apply (writes_lift _ (mk_path (join path name))); [by apply mk_path_eq|]. apply writes_snprintf; [done|].
  assert (Z.of_nat (length (join base name)) < 2 ^ 28)%Z as Hu by (unfold URI_BUFSZ in H3; lia).
  destruct (tohex_digits 16 (md5_ref (join base name))) as (md5 & Em & Hlm & _); [by rewrite md5_ref_length|].
  rewrite <- (u_md5_eq _ _ Hbuf0 Hu) in Em. apply (writes_lift _ md5); [done|].
  unfold kept. cbn [List.filter skipped]. destruct (excluded fnmatch opt (join base name)) eqn:Hx; cbn [negb map concat length]; [apply writes_excl|].
  cbn [imp_of]. rewrite Em. set (m := mkImp md5 _ _ _ _ _ _). cbv zeta. fold m.
  assert (length (im_ext m) <= 2) as Hext by (unfold m; cbn [im_ext]; destruct (Search.u_match_ext _ _); apply Nat.leb_le; reflexivity).
  apply (writes_seq count_file _ tt tt [] (mk_text m ++ []) [] (dps_text m ++ []) [] (reg_text m ++ []) 0 0 1 0 0 0 writes_file).
  apply mk_then; [by apply mk_short|]. apply reg_then; [by apply reg_short|]. unfold dps_text. rewrite app_nil_r.
  apply dps_then; [apply rule_short; [exact Hlm|exact Hext|exact H2|exact H3]|]. destruct (im_script m); [|apply writes_ret].
  apply dps_then; [|apply writes_dps]; (apply include_short; [exact Hlm|exact Hext|apply Nat.leb_le; reflexivity]).
Qed.

(** The callbacks that match the mask are called in the order of the directory. *)
Lemma foreach_imports (path : list byte) (mask : Z) (cb : list byte -> prog sctx unit) (sel : stree -> bool)
    (es : list byte * stree -> list entry) (nd : list byte * stree -> nat) (names : list (list byte)) : forall (items : list (list byte * stree)),
  List.filter no_dots names = map fst items ->
  Forall (fun x => length (join path x.1) < FILENAME_MAX /\
    (exists mode, sys_mode sys (join path x.1) = Some mode /\ bool_decide (Z.land (Z.land mode S_IFMT) mask <> 0%Z) = sel x.2) /\
    (sel x.2 = true -> imports (cb x.1) (es x) (nd x)) /\ (sel x.2 = false -> es x = [] /\ nd x = 0)) items ->
  imports (foreach_items FILENAME_MAX sys path mask cb names) (concat (map es items)) (list_sum (map nd items)).
Proof.
  induction names as [|name names IH]; intros items Hi Hf; cbn [foreach_items].
  { cbn in Hi. destruct items; [|done]. apply imports_ret. }
  cbn [List.filter] in Hi. unfold no_dots at 1 in Hi. destruct (decide (name = bs "." \/ name = bs "..")) as [Hd|Hd].
  { rewrite bool_decide_true in Hi by exact Hd. apply (IH items Hi Hf). }
  rewrite bool_decide_false in Hi by done. cbn [negb] in Hi. destruct items as [|x items]; [done|]. injection Hi as Hx Hi. subst name.
  apply Forall_cons in Hf as [(Hl & (mode & Em & Hsel) & Hcb & Hno) Hf]. specialize (IH items Hi Hf).
  fold (join path x.1). rewrite u_snprintf_spec by lia. rewrite bool_decide_false, take_ge by lia. rewrite Em. cbn [map concat list_sum foldr].
  destruct (sel x.2) eqn:Es.
  - apply bool_decide_eq_true in Hsel. rewrite decide_True by done. specialize (Hcb eq_refl).
    intros c Hc. destruct (imports_seq (cb x.1) tt (fun _ => foreach_items FILENAME_MAX sys path mask cb names) (es x) _ (nd x) _ Hcb IH c Hc) as (c' & E & S).
    exists c'. split; [|exact S]. destruct (Hcb c Hc) as (c1 & E1 & _). rewrite (pbind_Ok _ _ _ _ _ E1) in E. by rewrite E1.
  - apply bool_decide_eq_false in Hsel. rewrite decide_False by done. destruct (Hno eq_refl) as [-> ->]. exact IH.
Qed.

Lemma shows_items (path : list byte) (items : list (list byte * stree)) : shows path (SDir items) ->
  (exists names, sys_dir sys path = Some names /\ List.filter no_dots names = map fst items) /\
  Forall (fun x => shows (join path x.1) x.2) items.
Proof.
  intros (_ & Hn & Ha). split; [done|]. clear Hn. induction items as [|x items IH]; [by apply Forall_nil|]. destruct Ha as [H1 H2].
  apply Forall_cons. split; [done|by apply IH].
Qed.

Lemma fitting_items (base path : list byte) (items : list (list byte * stree)) : fitting (SDir items) base path ->
  Forall (fun x => fits (base, path, x.1) /\ fitting x.2 (join base x.1) (join path x.1)) items.
Proof.
  cbn [fitting]. induction items as [|x items IH]; intros H; [by apply Forall_nil|]. destruct H as (H1 & H2 & H3).
  apply Forall_cons. split; [done|by apply IH].
Qed.

Lemma shows_mode (path : list byte) (t : stree) (mask : Z) (b : bool) : shows path t ->
  bool_decide (Z.land (match t with SFile => S_IFREG | SDir _ => S_IFDIR end) mask <> 0%Z) = b ->
  exists mode, sys_mode sys path = Some mode /\ bool_decide (Z.land (Z.land mode S_IFMT) mask <> 0%Z) = b.
Proof.
  intros Hs Hb. assert (has_mode path (match t with SFile => S_IFREG | SDir _ => S_IFDIR end)) as (mode & Em & El).
  { destruct t; [done|]. by destruct Hs as [? _]. }
  exists mode. by rewrite El.
Qed.

Lemma list_sum_zero {A} (l : list A) : list_sum (map (fun _ => 0) l) = 0.
Proof. by induction l. Qed.

(** Both passes over a directory, [cb] for the directories in it. *)
Lemma walk_imports (base path : list byte) (items : list (list byte * stree)) (cb : list byte -> prog sctx unit) :
  (exists names, sys_dir sys path = Some names /\ List.filter no_dots names = map fst items) ->
  Forall (fun x => shows (join path x.1) x.2) items -> fitting (SDir items) base path ->
  Forall (fun x => is_file x.2 = false -> imports (cb x.1) (below x.2 (join base x.1) (join path x.1)) (ndirs x.2)) items ->
  imports (pignore (u_foreach_dir_item FILENAME_MAX sys path S_IFREG (cb_file FILENAME_MAX fuel buf0 fnmatch opt base path));;;
           pignore (u_foreach_dir_item FILENAME_MAX sys path S_IFDIR cb)) (below (SDir items) base path) (list_sum (map (fun x => ndirs x.2) items)).
Proof.
  intros (names & Ed & En) Hs Hfit%fitting_items Hcb. unfold u_foreach_dir_item. rewrite Ed. cbn [below].
  apply (imports_seq (pignore _) tt (fun _ => pignore _) _ _ 0).
  - apply imports_ignore. pose proof (foreach_imports path S_IFREG (cb_file FILENAME_MAX fuel buf0 fnmatch opt base path) is_file
      (fun x => if is_file x.2 then [(base, path, x.1)] else []) (fun _ => 0) names items En) as G.
    rewrite list_sum_zero in G. assert (concat (map (fun x => if is_file x.2 then [(base, path, x.1)] else []) items) = here items base path) as Eh.
    { clear. unfold here. induction items as [|[nm t] items IH]; [done|]. cbn [map concat List.filter]. rewrite IH. by destruct (is_file _). }
    rewrite Eh in G. apply G. rewrite Forall_forall in Hs, Hfit |- *. intros x Hx. destruct (Hfit x Hx) as [Hf _].
    split_and!; [apply Hf|eapply shows_mode; [by apply Hs|by destruct x.2]| |by intros ->].
    intros ->. apply cb_file_imports. exact Hf.
  - apply imports_ignore. apply (foreach_imports path S_IFDIR cb (fun t => negb (is_file t)) (fun x => below x.2 (join base x.1) (join path x.1)) (fun x => ndirs x.2) names items En).
    rewrite Forall_forall in Hs, Hfit, Hcb |- *. intros x Hx. destruct (Hfit x Hx) as [Hf _].
    split_and!; [apply Hf|eapply shows_mode; [by apply Hs|by destruct x.2]| |].
    + intros Hd. apply Hcb; [done|]. by destruct (is_file x.2).
    + intros Hd. by destruct x.2.
Qed.

Lemma height_item (items : list (list byte * stree)) (nm : list byte) (t : stree) (depth : nat) : (nm, t) ∈ items ->
  height (SDir items) <= S depth -> height t <= depth.
Proof.
  intros Hx Hh%le_S_n. etrans; [|exact Hh]. clear Hh. induction items as [|y items IH]; [by apply not_elem_of_nil in Hx|].
  unfold list_max in *. apply elem_of_cons in Hx as [<-|Hx]; cbn [map foldr fst snd]; [apply Nat.le_max_l|]. specialize (IH Hx). lia.
Qed.

Lemma cb_dir_imports (depth : nat) : forall (items : list (list byte * stree)) (base path name : list byte),
  height (SDir items) <= depth -> shows (join path name) (SDir items) -> fits (base, path, name) -> fitting (SDir items) (join base name) (join path name) ->
  imports (cb_dir FILENAME_MAX fuel buf0 sys fnmatch opt depth base path name) (below (SDir items) (join base name) (join path name)) (ndirs (SDir items)).
Proof.
  induction depth as [|depth IH]; intros items base path name Hh Hs (F1 & _ & F3) Hfit; [cbn in Hh; lia|].
  cbn [cb_dir]. fold (join path name). fold (join base name). destruct (shows_items _ _ Hs) as [Hn Hall].
  change (ndirs (SDir items)) with (1 + list_sum (map (fun x => ndirs x.2) items)).
  apply (imports_seq count_dir tt _ [] _ 1 _ writes_dir). unfold imports. apply writes_snprintf; [done|]. apply writes_snprintf; [done|].
  apply walk_imports; try done. pose proof (fitting_items _ _ _ Hfit) as Hf2. rewrite Forall_forall in Hall, Hf2 |- *. intros [nm t] Hx Ht. cbn [fst snd] in *.
  destruct t as [|sub]; [done|]. destruct (Hf2 _ Hx) as [Hf Hsub]. apply IH; [|by apply (Hall (nm, SDir sub))|done|done].
  by apply (height_item items nm).
Qed.

(** The texts of the three files. *)
Definition reg_file (ms : list imported) : list byte :=
  register_head ++ unregister_fun ++ register_fun ++ do_register_head ++ register_macro ++ concat (map reg_text ms) ++ register_foot.
Definition mk_file (root_dir : list byte) (ms : list imported) : list byte :=
  bs "embfs_rootdir=" ++ root_dir ++ NL ++ bs "autogen_src= " ++ concat (map mk_text ms).
Definition dps_file (ms : list imported) : list byte := concat (map dps_text ms).

Lemma register_header_writes : writes (print_register_header fuel) tt [] [] (register_head ++ unregister_fun ++ register_fun ++ do_register_head ++ register_macro) 0 0 0.
Proof.
  unfold print_register_header, register_head. assert (forall t : list byte, (length t <=? 400) = true -> length t <= fuel) as Hs.
  { intros t Ht%Nat.leb_le. lia. }
  rewrite (app_assoc (bs "#include <klone_conf.h>")), (app_assoc (bs "#include <klone/hook.h>")), (app_assoc (bs "static void do_register(int);")),
    (app_assoc (bs "void unregister_pages(void);")), <- !(app_assoc (_ ++ NL)).
  do 8 (apply reg_then; [apply Hs; vm_compute; reflexivity|]). apply writes_reg, Hs. vm_compute. reflexivity.
Qed.

Lemma writes_assoc {A B X} (m : prog sctx A) (f : A -> prog sctx B) (g : B -> prog sctx X) (x : X) (mk dp rg : list byte) (nd nf nx : nat) :
  writes (let! b := (let! a := m in f a) in g b) x mk dp rg nd nf nx -> writes (let! a := m in let! b := f a in g b) x mk dp rg nd nf nx.
Proof. intros H c Hc. destruct (H c Hc) as (c' & E & S). exists c'. split; [|done]. rewrite <- E. unfold pbind. by destruct (m c) as [c1 [a| | |]]. Qed.

Lemma header_then {B} (k : prog sctx B) (b : B) (mk dp rg : list byte) (nd nf nx : nat) : writes k b mk dp rg nd nf nx ->
  writes (print_register_header fuel;;; k) b mk dp ((register_head ++ unregister_fun ++ register_fun ++ do_register_head ++ register_macro) ++ rg) nd nf nx.
Proof. intros Hk. exact (writes_seq _ _ tt b [] mk [] dp _ rg 0 nd 0 nf 0 nx register_header_writes Hk). Qed.

Lemma then_reg {A B} (m : prog sctx A) (a : A) (k : prog sctx B) (b : B) (mk dp rg rg' : list byte) (nd nf nx : nat) :
  writes m a mk dp rg nd nf nx -> writes k b [] [] rg' 0 0 0 -> writes (m;;; k) b mk dp (rg ++ rg') nd nf nx.
Proof.
  intros Hm Hk. pose proof (writes_seq m (fun _ => k) a b mk [] dp [] rg rg' nd 0 nf 0 nx 0 Hm Hk) as H. by rewrite !app_nil_r, !Nat.add_0_r in H.
Qed.

Lemma site_body_writes (depth : nat) (root base : list byte) (items : list (list byte * stree)) : length root <= FILENAME_MAX ->
  height (SDir items) <= S depth -> shows root (SDir items) -> fitting (SDir items) base root ->
  let es := below (SDir items) base root in
  writes (site_body FILENAME_MAX fuel buf0 sys fnmatch opt depth root base) tt (mk_file root (kept es)) (dps_file (kept es)) (reg_file (kept es))
    (list_sum (map (fun x => ndirs x.2) items)) (length (kept es)) (length (List.filter skipped es)).
Proof.
  intros Hroot Hh Hs Hfit es. destruct (shows_items _ _ Hs) as [Hn Hall].
  assert (imports (pignore (u_foreach_dir_item FILENAME_MAX sys root S_IFREG (cb_file FILENAME_MAX fuel buf0 fnmatch opt base root));;;
    pignore (u_foreach_dir_item FILENAME_MAX sys root S_IFDIR (cb_dir FILENAME_MAX fuel buf0 sys fnmatch opt depth base root))) es
    (list_sum (map (fun x => ndirs x.2) items))) as Hwalk.
  { apply walk_imports; try done. pose proof (fitting_items _ _ _ Hfit) as Hf2. rewrite Forall_forall in Hall, Hf2 |- *. intros [nm t] Hx Ht. cbn [fst snd] in *.
    destruct t as [|sub]; [done|]. destruct (Hf2 _ Hx) as [Hf Hsub]. apply cb_dir_imports; [|by apply (Hall (nm, SDir sub))|done|done].
    by apply (height_item items nm). }
  assert (forall t : list byte, (length t <=? 400) = true -> length t <= fuel) as Hl by (intros t Ht%Nat.leb_le; lia).
  unfold site_body, mk_file, dps_file, reg_file.
  replace (register_head ++ _) with ((register_head ++ unregister_fun ++ register_fun ++ do_register_head ++ register_macro) ++ concat (map reg_text (kept es)) ++ register_foot)
    by (by rewrite <- !app_assoc).
  apply header_then.
  replace (bs "embfs_rootdir=" ++ root ++ NL ++ bs "autogen_src= " ++ concat (map mk_text (kept es))) with ((bs "embfs_rootdir=" ++ root ++ NL) ++ bs "autogen_src= " ++ concat (map mk_text (kept es))) by (by rewrite <- !app_assoc).
  apply mk_then; [rewrite !length_app; cbn [length NL]; change (length (bs "embfs_rootdir=")) with 14; lia|].
  apply mk_then; [apply Hl; reflexivity|]. apply writes_assoc.
  apply (then_reg _ _ _ _ _ _ _ _ _ _ _ Hwalk). unfold print_register_footer, register_foot. rewrite (app_assoc (bs "#undef KLONE_REGISTER")).
  apply reg_then; [apply Hl; reflexivity|]. apply writes_reg, Hl. reflexivity.
Qed.

Lemma imp_md5 (e : entry) : fits e -> u_md5 (im_uri (imp_of e)) buf0 = Ok (im_md5 (imp_of e)).
Proof.
  destruct e as [[base path] name]. intros (_ & _ & H3). cbn [imp_of im_uri im_md5].
  assert (Z.of_nat (length (join base name)) < 2 ^ 28)%Z as Hu by (clear -H3; unfold URI_BUFSZ in H3; lia).
  destruct (tohex_digits 16 (md5_ref (join base name))) as (md5 & Em & _); [by rewrite md5_ref_length|].
  rewrite <- (u_md5_eq _ _ Hbuf0 Hu) in Em. by rewrite Em.
Qed.

Lemma below_fits (h : nat) : forall (t : stree) (base path : list byte), height t <= h -> fitting t base path -> Forall fits (below t base path).
Proof.
  induction h as [|h IH]; intros [|items] base path Hh Hf; cbn [below]; [by apply Forall_nil|cbn in Hh; lia|by apply Forall_nil|].
  apply fitting_items in Hf. apply Forall_app. split.
  - unfold here. apply Forall_map, Forall_forall. intros x Hx. apply list_elem_of_In, List.filter_In in Hx as [Hx _]. apply list_elem_of_In in Hx.
    rewrite Forall_forall in Hf. by apply (Hf x).
  - apply Forall_concat, Forall_map, Forall_forall. intros [nm t] Hx. rewrite Forall_forall in Hf. destruct (Hf _ Hx) as [_ Hft]. apply IH; [|done].
    by apply (height_item items nm).
Qed.

(** C17: an import is complete.  When the paths and URIs of a site fit their buffers,
    whatever its directories and in whatever order they list their names, the tool writes
    the rule, the name of the C file and the registration of each file below the root that no
    exclusion matches, each once and nothing else, under the URI that its path gives; the
    name registered is the digest of that URI; and the counts are right. *)
Theorem site_import (depth : nat) (root base : list byte) (items : list (list byte * stree)) (fs : fsys) :
  let es := below (SDir items) base root in let ms := kept es in
  length root <= FILENAME_MAX -> height (SDir items) <= S depth -> shows root (SDir items) -> fitting (SDir items) base root ->
  open_ok (bs "autogen.mk") = true -> open_ok (bs "autogen.dps") = true -> open_ok (bs "register.c") = true ->
  exists fs', trans_site FILENAME_MAX fuel buf0 now sys fnmatch opt depth root base fs =
      (fs', Ok (w64 (Z.of_nat (list_sum (map (fun x => ndirs x.2) items))), w64 (Z.of_nat (length ms)), w64 (Z.of_nat (length (List.filter skipped es))))) /\
    fs' !! bs "register.c" = Some (reg_file ms, now) /\ fs' !! bs "autogen.mk" = Some (mk_file root ms, now) /\
    fs' !! bs "autogen.dps" = Some (dps_file ms, now) /\
    (forall f, f ∉ [bs "register.c"; bs "autogen.mk"; bs "autogen.dps"] -> fs' !! f = fs !! f) /\
    Forall (fun m => u_md5 (im_uri m) buf0 = Ok (im_md5 m)) ms.
Proof.
  intros es ms Hroot Hh Hs Hfit O1 O2 O3.
  destruct (open_out_fresh now fs (bs "autogen.mk") O1) as (iom & E1 & W1 & _ & S1 & R1). set (fs1 := <[bs "autogen.mk" := _]> fs) in *.
  destruct (open_out_fresh now fs1 (bs "autogen.dps") O2) as (iod & E2 & W2 & _ & S2 & R2). set (fs2 := <[bs "autogen.dps" := _]> fs1) in *.
  destruct (open_out_fresh now fs2 (bs "register.c") O3) as (ior & E3 & W3 & _ & S3 & R3). set (fs3 := <[bs "register.c" := _]> fs2) in *.
  assert (sx_ok (mkSx iom iod ior 0 0 0)) as Hok by (split_and!; by try split).
  destruct (site_body_writes depth root base items Hroot Hh Hs Hfit (mkSx iom iod ior 0 0 0) Hok) as (c & Ec & [Sok Smk Sdps Sreg Snd Snf Snx]).
  fold es ms in Smk, Sdps, Sreg, Snf, Snx. cbn [sx_iom sx_iod sx_ior sx_ndir sx_nfile sx_nexcl] in Smk, Sdps, Sreg, Snd, Snf, Snx. rewrite S1 in Smk. rewrite S2 in Sdps. rewrite S3 in Sreg. destruct Sok as ([? ?] & [? ?] & [? ?] & _).
  assert (bs "register.c" <> bs "autogen.mk" /\ bs "register.c" <> bs "autogen.dps" /\ bs "autogen.dps" <> bs "autogen.mk") as (N1 & N2 & N3) by done.
  eexists. split; [|split_and!].
  - unfold trans_site. rewrite (pbind_Ok _ _ _ _ _ E1), (pbind_Ok _ _ _ _ _ E2), (pbind_Ok _ _ _ _ _ E3), Ec, !close_out_spec by done.
    cbn [fst fmap res_fmap]. rewrite Smk, Sdps, Sreg, Snd, Snf, Snx. reflexivity.
  - rewrite lookup_insert_ne, lookup_insert_ne by congruence. apply lookup_insert_eq.
  - apply lookup_insert_eq.
  - rewrite lookup_insert_ne by congruence. apply lookup_insert_eq.
  - intros f Hf. rewrite !not_elem_of_cons in Hf. destruct Hf as (F1 & F2 & F3 & _). unfold fs3, fs2, fs1. by rewrite !lookup_insert_ne by congruence.
  - unfold ms, kept. apply Forall_map, Forall_forall. intros e He. apply list_elem_of_In, List.filter_In in He as [He _]. apply list_elem_of_In in He.
    apply imp_md5. pose proof (below_fits (S depth) (SDir items) base root Hh Hfit) as Hall. rewrite Forall_forall in Hall. by apply Hall.
Qed.

(** ** Any file system *)

(** [m] ends, and leaves the streams usable. *)
Definition calm (m : prog sctx unit) : Prop :=
  forall c, sx_ok c -> exists c' r, m c = (c', r) /\ sx_ok c' /\ (r = Ok tt \/ r = Fail).

Lemma writes_calm (m : prog sctx unit) (mk dp rg : list byte) (nd nf nx : nat) : writes m tt mk dp rg nd nf nx -> calm m.
Proof. intros Hm c Hc. destruct (Hm c Hc) as (c' & E & S). exists c', (Ok tt). split_and!; [done|by eapply st_ok|by left]. Qed.

Lemma calm_fail : calm pfail.
Proof. intros c Hc. exists c, Fail. split_and!; [done|done|by right]. Qed.

Lemma calm_seq (m k : prog sctx unit) : calm m -> calm k -> calm (m;;; k).
Proof.
  intros Hm Hk c Hc. destruct (Hm c Hc) as (c1 & r & E & H1 & [->| ->]); [|exists c1, Fail; unfold pbind; rewrite E; split_and!; [done|done|by right]].
  rewrite (pbind_Ok _ _ _ _ _ E). by apply Hk.
Qed.

Lemma calm_ignore (m : prog sctx unit) : calm m -> calm (pignore m).
Proof. intros Hm c Hc. destruct (Hm c Hc) as (c' & r & E & H1 & H2). exists c', (Ok tt). unfold pignore. rewrite E. split_and!; [by destruct H2 as [->| ->]|done|by left]. Qed.

Lemma calm_snprintf (text : list byte) (size : nat) (f : list byte -> prog sctx unit) : 1 <= size -> (length text < size -> calm (f text)) ->
  calm (let! x := snprintf text size in f x).
Proof.
  intros Hs Hf. unfold snprintf. rewrite u_snprintf_spec by lia. destruct (decide (length text < size)) as [Hl|Hl].
  - rewrite bool_decide_false, take_ge by lia. intros c Hc. destruct (Hf Hl c Hc) as (c' & r & E & H). exists c', r. split; [|done]. by erewrite pbind_Ok by reflexivity.
  - rewrite bool_decide_true by lia. intros c Hc. exists c, Fail. split_and!; [done|done|by right].
Qed.

Lemma calm_lift_fail (r : res (list byte)) (f : list byte -> prog sctx unit) : r = Fail -> calm (let! x := plift r in f x).
Proof. intros -> c Hc. exists c, Fail. split_and!; [done|done|by right]. Qed.

Lemma cb_file_calm (base path name : list byte) : calm (cb_file FILENAME_MAX fuel buf0 fnmatch opt base path name).
Proof.
  destruct (decide (fits (base, path, name))) as [Hfit|Hfit]; [eapply writes_calm; by apply cb_file_imports|].
  unfold cb_file. fold (join path name). fold (join base name). apply calm_snprintf; [lia|]. intros H1.
  destruct (decide (length (mk_path (join path name)) < FILENAME_MAX)) as [H2|H2]; [|by apply calm_lift_fail, mk_path_long].
  rewrite mk_path_eq by done. intros c Hc. erewrite (pbind_Ok (plift _)) by reflexivity. revert c Hc.
  apply calm_snprintf; [unfold URI_BUFSZ; lia|]. intros H3. by destruct Hfit.
Qed.

Lemma foreach_calm (path : list byte) (mask : Z) (cb : list byte -> prog sctx unit) (names : list (list byte)) :
  (forall name, length (join path name) < FILENAME_MAX -> calm (cb name)) -> calm (foreach_items FILENAME_MAX sys path mask cb names).
Proof.
  intros Hcb. induction names as [|name names IH]; cbn [foreach_items]; [eapply writes_calm, writes_ret|]. case_decide; [done|].
  fold (join path name). rewrite u_snprintf_spec by lia. destruct (decide (length (join path name) < FILENAME_MAX)) as [Hl|Hl]; [|rewrite bool_decide_true by lia; apply calm_fail].
  rewrite bool_decide_false, take_ge by lia. destruct (sys_mode sys _); [|apply calm_fail]. case_decide; [|done].
  intros c Hc. destruct (Hcb name Hl c Hc) as (c1 & r & -> & H1 & [-> | ->]); [by apply IH|]. exists c1, (Ok tt). split_and!; [done|done|by left].
Qed.

Lemma dir_item_calm (path : list byte) (mask : Z) (cb : list byte -> prog sctx unit) :
  (forall name, length (join path name) < FILENAME_MAX -> calm (cb name)) -> calm (pignore (u_foreach_dir_item FILENAME_MAX sys path mask cb)).
Proof. intros Hcb. apply calm_ignore. unfold u_foreach_dir_item. destruct (sys_dir sys path); [by apply foreach_calm|apply calm_fail]. Qed.

(** A path grows with each directory until it does not fit its buffer. *)
Lemma cb_dir_calm (depth : nat) : forall (cur path name : list byte), length (join path name) < FILENAME_MAX ->
  FILENAME_MAX <= length (join path name) + depth -> calm (cb_dir FILENAME_MAX fuel buf0 sys fnmatch opt depth cur path name).
Proof.
  induction depth as [|depth IH]; intros cur path name Hl Hd; [lia|]. cbn [cb_dir]. fold (join path name). fold (join cur name).
  apply calm_seq; [eapply writes_calm, writes_dir|]. apply calm_snprintf; [lia|]. intros _. apply calm_snprintf; [unfold URI_BUFSZ; lia|]. intros _.
  apply calm_seq; apply dir_item_calm; intros nm Hnm; [apply cb_file_calm|]. apply IH; [done|]. unfold join in *. rewrite !length_app in *. cbn [length] in *. simpl in *. lia.
Qed.

(** C31: an import always ends.  Whatever the file system holds, loops of symbolic links
    included, the tool gets through it, without undefined behaviour, in a nesting of
    directories that the length of a path bounds. *)
Theorem import_ends (depth : nat) (root base : list byte) (fs : fsys) :
  length root <= FILENAME_MAX -> FILENAME_MAX <= length root + depth ->
  exists fs' r, trans_site FILENAME_MAX fuel buf0 now sys fnmatch opt depth root base fs = (fs', r) /\ ((exists counts, r = Ok counts) \/ r = Fail).
Proof.
  intros Hroot Hd. assert (calm (site_body FILENAME_MAX fuel buf0 sys fnmatch opt depth root base)) as Hc.
  { assert (forall t : list byte, (length t <=? 400) = true -> length t <= fuel) as Hl by (intros t Ht%Nat.leb_le; lia).
    unfold site_body. apply calm_seq; [eapply writes_calm, register_header_writes|].
    apply calm_seq; [eapply writes_calm, writes_mk; rewrite !length_app; cbn [length NL]; change (length (bs "embfs_rootdir=")) with 14; lia|].
    apply calm_seq; [eapply writes_calm, writes_mk; apply Hl; reflexivity|].
    apply calm_seq; [apply dir_item_calm; intros; apply cb_file_calm|].
    apply calm_seq; [apply dir_item_calm; intros nm Hnm; apply cb_dir_calm; [done|unfold join; rewrite !length_app; lia]|].
    unfold print_register_footer. apply calm_seq; (eapply writes_calm, writes_reg; apply Hl; reflexivity). }
  unfold trans_site, pbind.
  destruct (open_ok (bs "autogen.mk")) eqn:O1; [|unfold open_out; rewrite O1; eexists _, _; split; [reflexivity|by right]].
  destruct (open_out_fresh now fs (bs "autogen.mk") O1) as (iom & -> & W1 & _ & _ & R1).
  destruct (open_ok (bs "autogen.dps")) eqn:O2; [|unfold open_out; rewrite O2; eexists _, _; split; [reflexivity|by right]].
  destruct (open_out_fresh now (<[bs "autogen.mk" := ([], now)]> fs) (bs "autogen.dps") O2) as (iod & -> & W2 & _ & _ & R2).
  destruct (open_ok (bs "register.c")) eqn:O3; [|unfold open_out; rewrite O3; eexists _, _; split; [reflexivity|by right]].
  destruct (open_out_fresh now (<[bs "autogen.dps" := ([], now)]> (<[bs "autogen.mk" := ([], now)]> fs)) (bs "register.c") O3) as (ior & -> & W3 & _ & _ & R3).
  assert (sx_ok (mkSx iom iod ior 0 0 0)) as Hok by (split_and!; by try split).
  destruct (Hc _ Hok) as (c & r & -> & _ & Hr). eexists _, _. split; [reflexivity|]. destruct Hr as [-> | ->]; [left; by eexists|by right].
Qed.
End import_spec.

(** ** The command *)

Inductive command := CMD_UNKNOWN | CMD_TRANS | CMD_IMPORT.
#[global] Instance command_eq_dec : EqDecision command.
Proof. solve_decision. Defined.

Record context := mkCtx {
  cx_file_in : option (list byte);
  cx_file_out : option (list byte);
  cx_depend_out : option (list byte);
  cx_uri : option (list byte);
  cx_cmd : command;
  cx_base_uri : option (list byte);
  cx_encrypt : bool;
  cx_compress : bool;
  cx_comp_patt : pm;
  cx_enc_patt : pm;
  cx_excl_patt : pm;
  cx_key_file : option (list byte)
}.

Definition set_in c v := let 'mkCtx _ b d e f g h i j k l m := c in mkCtx v b d e f g h i j k l m.
Definition set_out c v := let 'mkCtx a _ d e f g h i j k l m := c in mkCtx a v d e f g h i j k l m.
Definition set_depend_out c v := let 'mkCtx a b _ e f g h i j k l m := c in mkCtx a b v e f g h i j k l m.
Definition set_uri c v := let 'mkCtx a b d _ f g h i j k l m := c in mkCtx a b d v f g h i j k l m.
Definition set_cmd c v := let 'mkCtx a b d e _ g h i j k l m := c in mkCtx a b d e v g h i j k l m.
Definition set_base c v := let 'mkCtx a b d e f _ h i j k l m := c in mkCtx a b d e f v h i j k l m.
Definition set_encrypt c v := let 'mkCtx a b d e f g _ i j k l m := c in mkCtx a b d e f g v i j k l m.
Definition set_compress c v := let 'mkCtx a b d e f g h _ j k l m := c in mkCtx a b d e f g h v j k l m.
Definition set_comp c v := let 'mkCtx a b d e f g h i _ k l m := c in mkCtx a b d e f g h i v k l m.
Definition set_enc c v := let 'mkCtx a b d e f g h i j _ l m := c in mkCtx a b d e f g h i j v l m.
Definition set_excl c v := let 'mkCtx a b d e f g h i j k _ m := c in mkCtx a b d e f g h i j k v m.
Definition set_key c v := let 'mkCtx a b d e f g h i j k l _ := c in mkCtx a b d e f g h i j k l v.

Definition remove_trailing_slash (s : list byte) : list byte :=
  if decide (last s = Some "/"%byte) then take (length s - 1) s else s.

Definition is_cpp (file_in : list byte) : bool :=
  if decide (length file_in < 4) then false
  else forallb (fun c => bool_decide (tolower c = "c"%byte)) (drop (length file_in - 2) file_in).

Section tool.
Context {L : Libu} {P : Posix} {Z : Zlib} {E : Evp} {CZ : Type} {COZ : CodecOps CZ}.
Variables (FILENAME_MAX fuel d n gz_size cc_size pm_size : nat) (zip : list CZ) (buf0 : list byte) (now : BinNums.Z).
Variable mkstemps : fsys -> option (list byte).
Variables (sys : system) (fnmatch : list byte -> list byte -> bool).
Variables (KEY_LEN : nat) (env_key : option (list byte)).         (* CODEC_CIPHER_KEY_LEN, getenv("KLONE_CIPHER_KEY") *)
Abbreviation KEY_BUFSZ := (2 * KEY_LEN).

(** [u_strdup] *)
Definition dup (s : list byte) : res (list byte) := if u_alloc (S (length s)) then Ok s else Fail.

(** An absolute URI: the tool ends with a message otherwise. *)
Definition absolute (s : list byte) : res (list byte) :=
  v ← dup s; if decide (head v = Some "/"%byte) then Ok (remove_trailing_slash v) else Fail.

Definition add_patt (p : pm) (arg : list byte) : res pm :=
  let '(p', r) := pm_add pm_size p arg in _ ← r; Ok p'.

(** One option and its argument, as [getopt] gives them; [Fail] stands for the ways out that
    end the program. *)
Definition parse_one (c : context) (o : byte * list byte) : res context :=
  let '(opt, arg) := o in
  match opt with
  | "v"%byte => Ok c
  | "E"%byte => Ok (set_encrypt c true)
  | "e"%byte => p ← add_patt (cx_enc_patt c) arg; Ok (set_enc c p)
  | "k"%byte => v ← dup arg; Ok (set_key c (Some v))
  | "Z"%byte => p ← add_patt (cx_comp_patt c) arg; Ok (set_comp (set_compress c true) p)
  | "z"%byte => Ok (set_compress c true)
  | "c"%byte =>
      if strcaseeq arg (bs "import") then Ok (set_cmd c CMD_IMPORT)
      else if strcaseeq arg (bs "translate") then Ok (set_cmd c CMD_TRANS) else Fail
  | "i"%byte => v ← dup arg; Ok (set_in c (Some v))
  | "x"%byte => p ← add_patt (cx_excl_patt c) arg; Ok (set_excl c p)
  | "b"%byte => v ← absolute arg; Ok (set_base c (Some v))
  | "o"%byte => v ← dup arg; Ok (set_out c (Some v))
  | "d"%byte => v ← dup arg; Ok (set_depend_out c (Some v))
  | "u"%byte => match arg with [] => Fault | _ :: arg' => v ← absolute arg'; Ok (set_uri c (Some v)) end
  | _ => Fail
  end.

Fixpoint parse_loop (c : context) (opts : list (byte * list byte)) : res context :=
  match opts with
  | [] => Ok c
  | o :: opts' => c' ← parse_one c o; parse_loop c' opts'
  end.

Definition context0 : context := mkCtx None None None None CMD_UNKNOWN None false false [] [] [] None.

Definition parse_opt (opts : list (byte * list byte)) (args : list (list byte)) : res context :=
  if decide (opts = [] /\ args = []) then Fail else
  c ← parse_loop context0 opts; if decide (cx_cmd c = CMD_UNKNOWN) then Fail else Ok c.

(** [set_key_from_file]: the file overwrites the start of the key. *)
Definition set_key_from_file (key file : list byte) (fs : fsys) : res (list byte) :=
  i ← u_file_open_ro (C:=no_codec) fs file;
  data ← (io_read fuel i KEY_LEN).2;
  if decide (data = []) then Fail else Ok (data ++ drop (length data) key).

(** The key that the file is encrypted with. *)
Definition trans_key (c : context) (fs : fsys) : res (list byte) :=
  let key0 := replicate KEY_BUFSZ x00 in
  if bool_decide (is_Some (cx_key_file c)) && negb (cx_encrypt c) then Fail else
  key1 ← (match env_key with
          | Some ((_ :: _) as k) => if decide (length k = KEY_LEN) then Ok (k ++ drop KEY_LEN key0) else Fail
          | _ => Ok key0
          end);
  key2 ← (match cx_key_file c with Some f => set_key_from_file key1 f fs | None => Ok key1 end);
  if cx_encrypt c && negb (match env_key with Some (_ :: _) => true | _ => bool_decide (is_Some (cx_key_file c)) end) then Fail
  else Ok key2.

(** A failure removes the output file; a missing argument or input ends the program first. *)
Definition command_trans (c : context) (args : list (list byte)) : prog fsys unit := fun fs =>
  match args, cx_file_in c, cx_file_out c, cx_uri c with
  | [], Some file_in, Some file_out, Some uri =>
      let out := (u_strlcpy file_out FILENAME_MAX).1 in
      match trans_key c fs with
      | Ok key =>
          match fs !! file_in with
          | None => (fs, Fail)
          | Some (data, mtime) =>
              let ti := mkTi (u_strlcpy file_in FILENAME_MAX).1 out (u_strlcpy (default [] (cx_depend_out c)) FILENAME_MAX).1 (u_strlcpy uri URI_BUFSZ).1 []
                          (if cx_compress c then 1 else 0)%Z (if cx_encrypt c then 1 else 0)%Z (Z.of_nat (length data)) mtime in
              pelse (translate FILENAME_MAX fuel d n gz_size cc_size zip buf0 now mkstemps ti key) (fun fs => (delete out fs, Fail)) fs
          end
      | Fail => (delete out fs, Fail)
      | Fault => (fs, Fault)
      | Timeout => (fs, Timeout)
      end
  | _, _, _, _ => (fs, Fail)
  end.

Definition command_import (depth : nat) (c : context) (args : list (list byte)) : prog fsys unit :=
  match args with
  | [root_dir] =>
      let! base_uri := plift (match cx_base_uri c with Some b => Ok b | None => dup [] end) in
      let! _ := trans_site FILENAME_MAX fuel buf0 now sys fnmatch
                  (mkSo (cx_excl_patt c) (cx_enc_patt c) (cx_comp_patt c) (cx_compress c) (cx_key_file c)) depth root_dir base_uri in
      pret tt
  | _ => pfail
  end.

Definition dispatch_command (depth : nat) (c : context) (args : list (list byte)) : prog fsys unit :=
  match cx_cmd c with
  | CMD_TRANS => command_trans c args
  | CMD_IMPORT => command_import depth c args
  | CMD_UNKNOWN => pfail
  end.

Definition klone_main (depth : nat) (opts : list (byte * list byte)) (args : list (list byte)) : prog fsys unit :=
  let! _ := plift (a ← pm_create pm_size; b ← pm_create pm_size; pm_create pm_size) in
  let! c := plift (parse_opt opts args) in
  dispatch_command depth c args.
End tool.

(** ** The rule of a file *)

Section rules.
Context {L : Libu} {LS : LibuSpec L} {LM : LibuMem L} {P : Posix} {Z : Zlib} {ZS : ZlibSpec Z} {E : Evp} {ES : EvpSpec E}.
Context {CZ : Type} {COZ : CodecOps CZ}.
Variables (FILENAME_MAX fuel d n gz_size cc_size pm_size depth : nat) (zip : list CZ) (buf0 : list byte) (now : BinNums.Z).
Variable mkstemps : fsys -> option (list byte).
Variables (sys : system) (fnmatch : list byte -> list byte -> bool) (opt : site_opt).
Variables (KEY_LEN : nat) (env_key : option (list byte)).

(** The options in the command of the rule, for the prerequisite [infile] and the target [out]. *)
Definition rule_opts (m : imported) (infile out : list byte) : list (byte * list byte) :=
  [("c"%byte, bs "translate"); ("i"%byte, infile); ("o"%byte, out)] ++
  (if im_script m then [("d"%byte, out ++ bs ".kld")] else []) ++ [("u"%byte, bs "/" ++ im_uri m)] ++
  (if im_zip m then [("z"%byte, [])] else []) ++ (if im_enc m then [("E"%byte, [])] else []) ++
  match so_key_file opt with Some k => if im_enc m then [("k"%byte, k)] else [] | None => [] end.

Definition rule_context (m : imported) (infile out : list byte) : context :=
  mkCtx (Some infile) (Some out) (if im_script m then Some (out ++ bs ".kld") else None) (Some (im_uri m)) CMD_TRANS None (im_enc m) (im_zip m) [] [] []
    (if im_enc m then so_key_file opt else None).

Lemma rule_parsed (m : imported) (infile out : list byte) : head (im_uri m) = Some "/"%byte -> last (im_uri m) <> Some "/"%byte ->
  parse_opt pm_size (rule_opts m infile out) [] = Ok (rule_context m infile out).
Proof.
  intros Hh Hl. unfold parse_opt, rule_opts, rule_context. rewrite decide_False by (by intros [? _]).
  assert (forall s, dup s = Ok s) as Hdup by (intros s; unfold dup; by rewrite u_alloc_ok).
  assert (forall c rest, parse_loop pm_size c (("u"%byte, bs "/" ++ im_uri m) :: rest) = parse_loop pm_size (set_uri c (Some (im_uri m))) rest) as Hu.
  { intros c rest. cbn [parse_loop parse_one app bs String.list_byte_of_string]. change (bs "/" ++ im_uri m) with ("/"%byte :: im_uri m). cbv beta iota.
    unfold absolute. rewrite Hdup. cbn [mbind res_bind]. rewrite decide_True by done. cbn [mbind res_bind].
    unfold remove_trailing_slash. by rewrite decide_False by done. }
  assert (forall c o rest c', parse_one pm_size c o = Ok c' -> parse_loop pm_size c (o :: rest) = parse_loop pm_size c' rest) as Hstep.
  { intros c o rest c' Ho. cbn [parse_loop]. by rewrite Ho. }
  destruct (im_script m), (im_zip m), (im_enc m), (so_key_file opt) as [k|]; cbn [app];
    repeat first [rewrite Hu | erewrite Hstep by (cbn [parse_one]; rewrite ?Hdup; reflexivity)]; reflexivity.
Qed.

End rules.

(** ** Evaluation *)

#[local] Existing Instance posix_ref.

(** A small site: [fnmatch] here only knows patterns that begin with a star. *)
Definition star_match (p uri : list byte) : bool := Search.u_match_ext (Some uri) (Some (drop 1 p)).
Definition small_tree : list (list byte * stree) :=
  [(bs "a.txt", SFile); (bs "b.kl1", SFile); (bs "img", SDir [(bs "x.gif", SFile); (bs "y.o", SFile)])].
Definition reg_mode : Z := 0x81A4.
Definition dir_mode : Z := 0x41ED.
Definition small_sys : system := mkSys
  (fun p => if decide (p = bs "site") then Some [bs "."; bs ".."; bs "a.txt"; bs "b.kl1"; bs "img"]
            else if decide (p = bs "site/img") then Some [bs "x.gif"; bs ".."; bs "y.o"; bs "."] else None)
  (fun p => if decide (p ∈ [bs "site/a.txt"; bs "site/b.kl1"; bs "site/img/x.gif"; bs "site/img/y.o"]) then Some reg_mode
            else if decide (p ∈ [bs "site"; bs "site/img"]) then Some dir_mode else None).
Definition small_opt : site_opt := mkSo [bs "*.o"] [bs "*.gif"] [] true (Some (bs "key")).
Definition small_entries : list entry := below (SDir small_tree) (bs "/www") (bs "site").

Lemma site_import_witness :
  let ms := kept (replicate 64 x00) star_match small_opt small_entries in
  exists fs', trans_site (L:=libu_ref) (N.to_nat 200) (N.to_nat 4000) (replicate 64 x00) 9 small_sys star_match small_opt 3 (bs "site") (bs "/www") ∅ =
      (fs', Ok (1, 3, 1)%Z) /\
    fs' !! bs "register.c" = Some (reg_file ms, 9%Z) /\ fs' !! bs "autogen.mk" = Some (mk_file (bs "site") ms, 9%Z) /\
    fs' !! bs "autogen.dps" = Some (dps_file small_opt ms, 9%Z) /\
    (forall f, f ∉ [bs "register.c"; bs "autogen.mk"; bs "autogen.dps"] -> fs' !! f = (∅ : fsys) !! f) /\
    Forall (fun m => u_md5 (im_uri m) (replicate 64 x00) = Ok (im_md5 m)) ms.
Proof.
  apply (site_import (L:=libu_ref) (N.to_nat 200) (N.to_nat 4000) (replicate 64 x00) 9 small_sys star_match small_opt eq_refl ltac:(lia)
    ltac:(apply Nat.leb_le; vm_compute; reflexivity) 3 (bs "site") (bs "/www") small_tree ∅).
  - apply Nat.leb_le. vm_compute. reflexivity.
  - apply Nat.leb_le. vm_compute. reflexivity.
  - repeat split; try (eexists; split; reflexivity).
  - repeat split; apply Nat.ltb_lt; vm_compute; reflexivity.
  - reflexivity.
  - reflexivity.
  - reflexivity.
Defined.

(** The registration of the small site: the excluded file is not in it. *)
Example small_uris : map im_uri (kept (replicate 64 x00) star_match small_opt small_entries) =
  [bs "/www/a.txt"; bs "/www/b.kl1"; bs "/www/img/x.gif"].
Proof. vm_compute. reflexivity. Qed.

Definition rule_fs : fsys := {[ bs "x.gif" := (bs "GIF89a", 5%Z); bs "key" := (bs "sesame00", 4%Z) ]}.
Definition gif_entry : entry := (bs "/www/img", bs "site/img", bs "x.gif").
Definition gif_imp : imported := imp_of (replicate 64 x00) star_match small_opt gif_entry.
Definition gif_ti : trans_info := mkTi (bs "x.gif") (bs "pg.c") [] (bs "/www/img/x.gif") [] 0 1 6 5.
Definition gif_key : list byte := bs "sesame00" ++ replicate 8 x00.
Definition gif_data : list byte := embedded_form (ZS:=stored_spec) (ES:=flips_spec) gif_ti gif_key (bs "GIF89a").


(** What an import of a directory with the names [names] of the modes [modes] counts. *)
Definition flat_sys (files : list (list byte * option Z)) : system := mkSys
  (fun p => if decide (p = bs "s") then Some (map fst files) else None)
  (fun p => List.find (fun x => bool_decide (join (bs "s") x.1 = p)) files ≫= snd).
Definition flat_counts (files : list (list byte * option Z)) : res (Z * Z * Z) :=
  (trans_site (L:=libu_ref) (N.to_nat 200) (N.to_nat 4000) (replicate 64 x00) 9 (flat_sys files) star_match (mkSo [] [] [] false None) 3 (bs "s") [] ∅).2.

(** A link that leads nowhere ends the walk of its directory: what comes after it is not
    imported, and the tool reports success. *)
Example dangling_link : flat_counts [(bs "a", Some reg_mode); (bs "b", None); (bs "c", Some reg_mode); (bs "d", Some reg_mode)] = Ok (0, 1, 0)%Z.
Proof. vm_compute. reflexivity. Qed.

(** The type of a file is tested bit by bit: a socket counts as a file and as a directory. *)
Example socket_imported : flat_counts [(bs "a", Some reg_mode); (bs "b", Some 0xC1A4%Z)] = Ok (1, 2, 0)%Z.
Proof. vm_compute. reflexivity. Qed.

(** A key file that is shorter than the key of the environment overwrites only its start. *)
Example mixed_key : trans_key (L:=libu_ref) 100 8 (Some (bs "environm")) (rule_context small_opt gif_imp (bs "x.gif") (bs "pg.c"))
    {[ bs "key" := (bs "abc", 1%Z) ]} = Ok (bs "abcironm" ++ replicate 8 x00).
Proof. vm_compute. reflexivity. Qed.

(** A page is translated by way of the temporary file, which is gone afterwards. *)
Example small_page :
  let fs : fsys := {[ bs "p.kl1" := (bs "Hi <%= name %>!", 5%Z) ]} in
  let '(fs', r) := translate (L:=libu_ref) (Z:=stored) (E:=flips) (CZ:=no_codec) (N.to_nat 200) (N.to_nat 9000) 3 100 100 100 [] (replicate 64 x00) 7 (fun _ => Some (bs "tmp"))
    (mkTi (bs "p.kl1") (bs "pg.c") (bs "pg.c.kld") (bs "/p.kl1") [] 0 0 15 5) [] fs in
  r = Ok tt /\ fs' !! bs "tmp" = None /\ fs' !! bs "pg.c.kld" = Some (bs "pg.c pg.c.kld: $(srcdir)/p.kl1 " ++ NL, 7%Z) /\
  (is_Some (strchr (default [] (fst <$> fs' !! bs "pg.c")) "{") : Prop).
Proof. vm_compute. split_and!; try reflexivity. by eexists. Qed.

(** A directory that contains itself. *)
Definition loop_sys : system := mkSys (fun _ => Some [bs "."; bs "a"]) (fun _ => Some dir_mode).

Lemma import_ends_witness :
  exists fs' r, trans_site (L:=libu_ref) 20 (N.to_nat 4000) (replicate 64 x00) 9 loop_sys star_match small_opt 20 (bs "s") [] ∅ = (fs', r) /\
    ((exists counts, r = Ok counts) \/ r = Fail).
Proof.
  apply (import_ends (L:=libu_ref) 20 (N.to_nat 4000) (replicate 64 x00) 9 loop_sys star_match small_opt eq_refl ltac:(lia)
    ltac:(apply Nat.leb_le; vm_compute; reflexivity)).
  - apply Nat.leb_le. vm_compute. reflexivity.
  - apply Nat.leb_le. vm_compute. reflexivity.
Defined.
