(* ===== verification/Priv.v ===== *)
(** The start of the server: [server_chroot], [server_drop_privileges] and the checks of
    [server_loop] in src/src/kloned/server.c, on a system with fork(2).

    The state is what the system keeps of the process: its user and group identifiers (real,
    effective and saved), its root and working directory and the directories that it has open,
    over the files of the host.  The calls behave as POSIX says, with an effective user of 0 as
    the appropriate privilege.  A directory is named by its path on the host; one that has been
    removed stays for the processes that are in it, and no new one takes its name.  There are
    no symbolic links. *)

From stdpp Require Import gmap.
From S2P Require Import Prelude Libu Encode Path Date Response Site.

Abbreviation dirpath := (list (list byte)).

Inductive kind := KDir | KReg.
#[global] Instance kind_eq : EqDecision kind.
Proof. solve_decision. Defined.

Record node := mkNode { n_kind : kind; n_mode : Z; n_uid : Z; n_gid : Z; n_linked : bool }.

Record proc := mkProc {
  ruid : Z; euid : Z; suid : Z;
  rgid : Z; egid : Z; sgid : Z;
  groups : list Z;
  p_mask : Z;                             (* umask *)
  p_root : dirpath;
  p_cwd : dirpath;
  p_dirs : gmap Z dirpath;                (* the directories that are open *)
  p_fs : gmap dirpath node
}.

Definition set_uids (p : proc) r e s := let 'mkProc _ _ _ d f g h i j k l m := p in mkProc r e s d f g h i j k l m.
Definition set_gids (p : proc) r e s := let 'mkProc a b c _ _ _ h i j k l m := p in mkProc a b c r e s h i j k l m.
Definition set_groups (p : proc) v := let 'mkProc a b c d e f _ i j k l m := p in mkProc a b c d e f v i j k l m.
Definition set_root (p : proc) v := let 'mkProc a b c d e f g i _ k l m := p in mkProc a b c d e f g i v k l m.
Definition set_cwd (p : proc) v := let 'mkProc a b c d e f g i j _ l m := p in mkProc a b c d e f g i j v l m.
Definition set_dirs (p : proc) v := let 'mkProc a b c d e f g i j k _ m := p in mkProc a b c d e f g i j k v m.
Definition set_fs (p : proc) v := let 'mkProc a b c d e f g i j k l _ := p in mkProc a b c d e f g i j k l v.

(** ** The calls of the system *)

Definition may_read : Z := 4.
Definition may_write : Z := 2.
Definition may_search : Z := 1.

Definition allowed (p : proc) (n : node) (bit : Z) : bool :=
  if decide (euid p = 0%Z) then true
  else if decide (n_uid n = euid p) then bool_decide (Z.land (Z.shiftr (n_mode n) 6) bit <> 0%Z)
  else if decide (n_gid n ∈ egid p :: groups p) then bool_decide (Z.land (Z.shiftr (n_mode n) 3) bit <> 0%Z)
  else bool_decide (Z.land (n_mode n) bit <> 0%Z).

Definition is_dir (n : node) : bool := bool_decide (n_kind n = KDir).

(** A path, component by component: ".." stays in the root directory of the process. *)
Fixpoint walk (p : proc) (cur : dirpath) (ts : list (list byte)) : option dirpath :=
  match ts with
  | [] => Some cur
  | t :: ts' =>
      n ← p_fs p !! cur;
      if is_dir n && allowed p n may_search then
        if decide (t = dot) then walk p cur ts'
        else if decide (t = dotdot) then walk p (if decide (cur = p_root p) then cur else removelast cur) ts'
        else
          n' ← p_fs p !! (cur ++ [t]);
          if n_linked n' then walk p (cur ++ [t]) ts' else None
      else None
  end.

Definition start_of (p : proc) (path : list byte) : dirpath :=
  if decide (head path = Some SLASH) then p_root p else p_cwd p.

Definition resolve_path (p : proc) (path : list byte) : option dirpath :=
  if decide (path = []) then None else walk p (start_of p path) (strtok is_slash path).

(** The directory that a path names and its node. *)
Definition find_dir (path : list byte) (bit : Z) : prog proc dirpath := fun p =>
  (p, of_option (
    d ← resolve_path p path;
    n ← p_fs p !! d;
    if is_dir n && allowed p n bit then Some d else None)).

Definition sys_chroot (path : list byte) : prog proc unit :=
  let! p := pget in
  pguard (bool_decide (euid p = 0%Z));;;
  let! d := find_dir path may_search in
  pmod (fun p => set_root p d).

Definition sys_chdir (path : list byte) : prog proc unit :=
  let! d := find_dir path may_search in
  pmod (fun p => set_cwd p d).

Definition next_fd (p : proc) : Z := map_fold (fun fd _ m => Z.max m (fd + 1)) 3%Z (p_dirs p).

(** [open] of a directory for reading. *)
Definition sys_opendir (path : list byte) : prog proc Z :=
  let! d := find_dir path may_read in
  let! p := pget in
  pmod (fun p => set_dirs p (<[next_fd p := d]> (p_dirs p)));;;
  pret (next_fd p).

Definition sys_fchdir (fd : Z) : prog proc unit :=
  let! p := pget in
  match p_dirs p !! fd with
  | Some d =>
      match p_fs p !! d with
      | Some n => if is_dir n && allowed p n may_search then pmod (fun p => set_cwd p d) else pfail
      | None => pfail
      end
  | None => pfail
  end.

Definition sys_closedir (fd : Z) : prog proc unit := pmod (fun p => set_dirs p (delete fd (p_dirs p))).

Definition sys_fstat (fd : Z) : prog proc node := fun p =>
  (p, of_option (d ← p_dirs p !! fd; p_fs p !! d)).

(** The directory that is to hold the last component of a path. *)
Definition parent_of (p : proc) (path : list byte) : option (dirpath * list byte) :=
  t ← last (strtok is_slash path);
  d ← walk p (start_of p path) (removelast (strtok is_slash path));
  n ← p_fs p !! d;
  if decide (t = dot \/ t = dotdot) then None
  else if is_dir n && n_linked n && allowed p n may_write && allowed p n may_search then Some (d, t) else None.

Definition sys_create (k : kind) (path : list byte) (mode : Z) : prog proc unit := fun p =>
  match parent_of p path with
  | Some (d, t) =>
      match p_fs p !! (d ++ [t]) with
      | Some _ => (p, Fail)
      | None =>
          (set_fs p (<[d ++ [t] := mkNode k (Z.land mode (Z.lnot (p_mask p))) (euid p) (egid p) true]> (p_fs p)), Ok tt)
      end
  | None => (p, Fail)
  end.

Definition sys_mkdir : list byte -> Z -> prog proc unit := sys_create KDir.

(** The names in a directory. *)
Definition names_in (fs : gmap dirpath node) (d : dirpath) : list (list byte) :=
  omap (fun '(k, n) => if (n_linked n : bool) && bool_decide (k <> [] /\ removelast k = d) then last k else None) (map_to_list fs).

Definition unlink_node (n : node) : node := mkNode (n_kind n) (n_mode n) (n_uid n) (n_gid n) false.

Definition sys_rmdir (path : list byte) : prog proc unit := fun p =>
  match parent_of p path with
  | Some (d, t) =>
      match p_fs p !! (d ++ [t]), names_in (p_fs p) (d ++ [t]) with
      | Some n, [] =>
          if is_dir n && n_linked n then (set_fs p (<[d ++ [t] := unlink_node n]> (p_fs p)), Ok tt) else (p, Fail)
      | _, _ => (p, Fail)
      end
  | None => (p, Fail)
  end.

(** The user and group identifiers. *)
Definition sys_setuid (u : Z) : prog proc unit := fun p =>
  if decide (euid p = 0%Z) then (set_uids p u u u, Ok tt)
  else if decide (u = ruid p \/ u = suid p) then (set_uids p (ruid p) u (suid p), Ok tt)
  else (p, Fail).

Definition sys_seteuid (u : Z) : prog proc unit := fun p =>
  if decide (euid p = 0%Z \/ u = ruid p \/ u = suid p) then (set_uids p (ruid p) u (suid p), Ok tt) else (p, Fail).

Definition sys_setgid (g : Z) : prog proc unit := fun p =>
  if decide (euid p = 0%Z) then (set_gids p g g g, Ok tt)
  else if decide (g = rgid p \/ g = sgid p) then (set_gids p (rgid p) g (sgid p), Ok tt)
  else (p, Fail).

Definition sys_setegid (g : Z) : prog proc unit := fun p =>
  if decide (euid p = 0%Z \/ g = rgid p \/ g = sgid p) then (set_gids p (rgid p) g (sgid p), Ok tt) else (p, Fail).

Definition sys_setgroups (l : list Z) : prog proc unit := fun p =>
  if decide (euid p = 0%Z) then (set_groups p l, Ok tt) else (p, Fail).

(** [setresuid] and [setresgid], with every identifier given. *)
Definition held (a b c x : Z) : bool := bool_decide (x = a \/ x = b \/ x = c).

Definition sys_setresuid (r e s : Z) : prog proc unit := fun p =>
  let ok := held (ruid p) (euid p) (suid p) in
  if bool_decide (euid p = 0%Z) || (ok r && ok e && ok s) then (set_uids p r e s, Ok tt) else (p, Fail).

Definition sys_setresgid (r e s : Z) : prog proc unit := fun p =>
  let ok := held (rgid p) (egid p) (sgid p) in
  if bool_decide (euid p = 0%Z) || (ok r && ok e && ok s) then (set_gids p r e s, Ok tt) else (p, Fail).

(** What [u_foreach_dir_item] sees. *)
Definition node_mode (n : node) : Z := Z.lor (match n_kind n with KDir => S_IFDIR | KReg => S_IFREG end) (n_mode n).

Definition system_of (p : proc) : system := mkSys
  (fun path => d ← resolve_path p path; n ← p_fs p !! d;
     if is_dir n && allowed p n may_read then Some (dot :: dotdot :: names_in (p_fs p) d) else None)
  (fun path => d ← resolve_path p path; n ← p_fs p !! d; Some (node_mode n)).

(** ** server.c *)

(** The configuration: chroot, blind_chroot, uid, gid and allow_root. *)
Record confine := mkCf {
  sc_chroot : option (list byte);
  sc_blind : bool;
  sc_uid : Z;
  sc_gid : Z;
  sc_allow_root : bool
}.

(** [server_create]: the values of the configuration, -1 for one that is missing. *)
Definition server_create_ids (chroot : option (list byte)) (blind : bool) (uid gid : option Z) (allow_root : bool) : res confine :=
  let s := mkCf chroot blind (default (-1)%Z uid) (default (-1)%Z gid) allow_root in
  if decide (sc_uid s = 0 \/ sc_gid s = 0)%Z then Fail else Ok s.

Definition server_chroot_to (dir : list byte) : prog proc unit :=
  sys_chroot dir;;;
  sys_chdir (bs "/").

(** The flag of the caller. *)
Definition server_foreach_cb (d : list byte) : prog Z unit := pput 1%Z;;; pfail.

Section start.
Context {L : Libu}.
Variables (U_PATH_MAX FILENAME_MAX : nat) (pid : Z).
Variable fork_ok : bool.

(** The child that removes the directory runs beside its parent: [when] is the number of the
    steps below after which it does. *)
Variable when : nat.

Definition BLIND_DIR_MODE : Z := 64.      (* 0100 *)
Definition all_kinds : Z := 0xF000.

(** The child has the identifiers and the root of the process at the time of the fork. *)
Definition child_removes (c : proc) (dir : list byte) : prog proc unit :=
  pmod (fun p => set_fs p (p_fs (sys_rmdir dir (set_fs c (p_fs p))).1)).

Definition child_at (k : nat) (c : proc) (dir : list byte) : prog proc unit :=
  if decide (when = k) then child_removes c dir else pret tt.

Definition dir_is_empty : prog proc unit := fun p =>
  match u_foreach_dir_item FILENAME_MAX (system_of p) (bs "/") all_kinds server_foreach_cb 0%Z with
  | (found, Ok _) => (p, if decide (found = 0%Z) then Ok tt else Fail)
  | (_, Fail) => (p, Fail)
  | (_, Fault) => (p, Fault)
  | (_, Timeout) => (p, Timeout)
  end.

Definition blind_checks (fd : Z) (dir : list byte) : prog proc unit :=
  pguard fork_ok;;;
  let! c := pget in
  child_at 0 c dir;;;
  server_chroot_to dir;;;
  child_at 1 c dir;;;
  let! st := sys_fstat fd in
  pguard (negb (bool_decide (n_gid st <> 0%Z) || bool_decide (n_uid st <> 0%Z)));;;
  pguard (bool_decide (Z.land (node_mode st) 0xFFF = BLIND_DIR_MODE));;;
  child_at 2 c dir;;;
  dir_is_empty;;;
  child_at 3 c dir.

Definition blind_dir (chroot : list byte) : list byte :=
  chroot ++ bs "/kloned_blind_chroot_" ++ fmt_d pid ++ bs ".dir".

Definition server_chroot_blind (chroot : list byte) : prog proc unit :=
  match u_path_snprintf (blind_dir chroot) U_PATH_MAX SLASH with
  | None => pfail
  | Some dir =>
      sys_mkdir dir BLIND_DIR_MODE;;;
      let! fd := sys_opendir dir in
      pelse (blind_checks fd dir) (sys_closedir fd;;; pfail);;;
      sys_closedir fd
  end.

Definition server_chroot (s : confine) (chroot : list byte) : prog proc unit :=
  if sc_blind s then server_chroot_blind chroot else server_chroot_to chroot.

Definition drop_gid (gid : Z) : prog proc unit :=
  sys_setgroups [gid];;;
  sys_setgid gid;;;
  sys_setegid gid;;;
  let! p := pget in
  pguard (negb (bool_decide (rgid p <> gid) || bool_decide (egid p <> gid))).

Definition drop_uid (uid : Z) : prog proc unit :=
  sys_setuid uid;;;
  sys_seteuid uid;;;
  let! p := pget in
  pguard (negb (bool_decide (ruid p <> uid) || bool_decide (euid p <> uid))).

Definition server_drop_privileges (s : confine) : prog proc unit :=
  (if decide (0 < sc_gid s)%Z then drop_gid (sc_gid s) else pret tt);;;
  (if decide (0 < sc_uid s)%Z then drop_uid (sc_uid s) else pret tt).

(** What [server_loop] does between [server_listen] and its loop. *)
Definition server_confine (s : confine) : prog proc unit :=
  match sc_chroot s with Some dir => server_chroot s dir | None => pret tt end;;;
  server_drop_privileges s;;;
  let! p := pget in
  if sc_allow_root s then pret tt
  else pguard (negb (bool_decide (ruid p = 0%Z) || bool_decide (euid p = 0%Z) || bool_decide (rgid p = 0%Z) || bool_decide (egid p = 0%Z))).
End start.

(** ** What a process can do afterwards *)

Inductive syscall :=
  | Setuid (u : Z) | Seteuid (u : Z) | Setresuid (r e s : Z)
  | Setgid (g : Z) | Setegid (g : Z) | Setresgid (r e s : Z) | Setgroups (l : list Z)
  | Chroot (path : list byte) | Chdir (path : list byte) | Fchdir (fd : Z)
  | Opendir (path : list byte) | Closedir (fd : Z)
  | Create (k : kind) (path : list byte) (mode : Z) | Rmdir (path : list byte).

Definition run (c : syscall) (p : proc) : proc :=
  match c with
  | Setuid u => (sys_setuid u p).1 | Seteuid u => (sys_seteuid u p).1 | Setresuid r e s => (sys_setresuid r e s p).1
  | Setgid g => (sys_setgid g p).1 | Setegid g => (sys_setegid g p).1 | Setresgid r e s => (sys_setresgid r e s p).1
  | Setgroups l => (sys_setgroups l p).1
  | Chroot path => (sys_chroot path p).1 | Chdir path => (sys_chdir path p).1 | Fchdir fd => (sys_fchdir fd p).1
  | Opendir path => (sys_opendir path p).1 | Closedir fd => (sys_closedir fd p).1
  | Create k path mode => (sys_create k path mode p).1 | Rmdir path => (sys_rmdir path p).1
  end.

(** The states that a process gets to by calls of its own while other processes change the
    files as [E] says. *)
Inductive reach (E : gmap dirpath node -> gmap dirpath node -> Prop) (p : proc) : proc -> Prop :=
  | reach_start : reach E p p
  | reach_call (q : proc) (c : syscall) : reach E p q -> reach E p (run c q)
  | reach_other (q : proc) (fs : gmap dirpath node) : reach E p q -> E (p_fs q) fs -> reach E p (set_fs q fs).

(** ** Below the root *)

Lemma prefix_removelast {A} `{EqDecision A} (r cur : list A) : r `prefix_of` cur -> cur <> r -> r `prefix_of` removelast cur.
Proof.
  intros [k ->] Hne. destruct k as [|x k' _] using rev_ind; [by rewrite app_nil_r in Hne|].
  rewrite (assoc_L (++)), removelast_last. by apply prefix_app_r.
Qed.

Lemma walk_below (p : proc) (ts : list (list byte)) : forall cur d,
  p_root p `prefix_of` cur -> walk p cur ts = Some d -> p_root p `prefix_of` d.
Proof.
  induction ts as [|t ts IH]; simpl; intros cur d Hc E; [by simplify_eq|].
  destruct (p_fs p !! cur) as [n|]; [|done]. cbn [mbind option_bind] in E.
  destruct (is_dir n && _); [|done]. destruct (decide (t = dot)); [by eapply IH|].
  destruct (decide (t = dotdot)).
  - eapply IH; [|exact E]. destruct (decide (cur = p_root p)); [done|by apply prefix_removelast].
  - destruct (p_fs p !! (cur ++ [t])) as [n'|]; [|done]. cbn [mbind option_bind] in E.
    destruct (n_linked n'); [|done]. eapply IH; [|exact E]. by apply prefix_app_r.
Qed.

(** The process has the identifiers [u] and [g] only and knows no directory outside of [r]. *)
Record jailed (u g : Z) (r : dirpath) (p : proc) : Prop := {
  j_uids : (ruid p, euid p, suid p) = (u, u, u);
  j_gids : (rgid p, egid p, sgid p) = (g, g, g);
  j_groups : groups p = [g];
  j_root : p_root p = r;
  j_cwd : r `prefix_of` p_cwd p;
  j_dirs : map_Forall (fun _ d => r `prefix_of` d) (p_dirs p)
}.

Section jailed.
Variables (u g : Z) (r : dirpath) (p : proc).
Hypothesis J : jailed u g r p.

Lemma jailed_euid : euid p = u.
Proof using J. by pose proof (j_uids _ _ _ _ J); simplify_eq. Qed.

Lemma jailed_resolve (path : list byte) (d : dirpath) : resolve_path p path = Some d -> r `prefix_of` d.
Proof using J.
  unfold resolve_path, start_of. destruct (decide (path = [])); [done|].
  rewrite <-(j_root _ _ _ _ J). apply walk_below. destruct (decide _); [done|].
  rewrite (j_root _ _ _ _ J). apply J.
Qed.

Lemma jailed_find_dir (path : list byte) (bit : Z) (p' : proc) (d : dirpath) :
  find_dir path bit p = (p', Ok d) -> p' = p /\ r `prefix_of` d.
Proof using J.
  unfold find_dir. intros [= <- E]. split; [done|].
  destruct (resolve_path p path) as [d'|] eqn:R; [|done]. cbn [mbind option_bind] in E.
  destruct (p_fs p !! d'); [|done]. cbn [mbind option_bind] in E. destruct (_ && _); [|done].
  injection E as <-. by eapply jailed_resolve.
Qed.

Lemma jailed_set_fs (fs : gmap dirpath node) : jailed u g r (set_fs p fs).
Proof using J. destruct J, p. by constructor. Qed.

Lemma jailed_set_cwd (d : dirpath) : r `prefix_of` d -> jailed u g r (set_cwd p d).
Proof using J. intros Hd. destruct J, p. by constructor. Qed.

Lemma jailed_set_dirs (ds : gmap Z dirpath) : map_Forall (fun _ d => r `prefix_of` d) ds -> jailed u g r (set_dirs p ds).
Proof using J. intros Hd. destruct J, p. by constructor. Qed.

Lemma jailed_uids (a b c : Z) : a = u -> b = u -> c = u -> jailed u g r (set_uids p a b c).
Proof using J. intros -> -> ->. destruct J, p. by constructor. Qed.

Lemma jailed_gids (a b c : Z) : a = g -> b = g -> c = g -> jailed u g r (set_gids p a b c).
Proof using J. intros -> -> ->. destruct J, p. by constructor. Qed.
End jailed.

Ltac jail_ids J :=
  let E := fresh in
  pose proof (j_uids _ _ _ _ J) as E; injection E as ?Hru ?Heu ?Hsu;
  pose proof (j_gids _ _ _ _ J) as E; injection E as ?Hrg ?Heg ?Hsg.

Lemma held_same (a x : Z) : held a a a x = true -> x = a.
Proof. unfold held. rewrite bool_decide_eq_true. tauto. Qed.

Lemma jailed_ids_call (u g : Z) (r : dirpath) (p : proc) (c : syscall) :
  u <> 0%Z -> jailed u g r p ->
  match c with
  | Setuid _ | Seteuid _ | Setresuid _ _ _ | Setgid _ | Setegid _ | Setresgid _ _ _ | Setgroups _ => jailed u g r (run c p)
  | _ => True
  end.
Proof.
  intros Hu J. jail_ids J.
  destruct c; try done; unfold run, sys_setuid, sys_seteuid, sys_setresuid, sys_setgid, sys_setegid, sys_setresgid, sys_setgroups;
    rewrite ?Hru, ?Heu, ?Hsu, ?Hrg, ?Heg, ?Hsg.
  1,4: rewrite decide_False by done; destruct (decide _); [|done]; (apply jailed_uids || apply jailed_gids); naive_solver.
  1,3: destruct (decide _); [|done]; (apply jailed_uids || apply jailed_gids); naive_solver.
  1,2: rewrite (bool_decide_eq_false_2 (u = 0%Z)) by done; cbn [orb];
    destruct (held _ _ _ r0 && _ && _) eqn:E; [|done]; apply andb_true_iff in E as [[E1 E2]%andb_true_iff E3];
    apply held_same in E1, E2, E3; (apply jailed_uids || apply jailed_gids); done.
  by rewrite decide_False by done.
Qed.

Lemma create_shape (k : kind) (path : list byte) (mode : Z) (p : proc) :
  (sys_create k path mode p).1 = p \/
  exists key n, p_fs p !! key = None /\ (sys_create k path mode p).1 = set_fs p (<[key := n]> (p_fs p)).
Proof.
  unfold sys_create. destruct (parent_of p path) as [[d t]|]; [|by left].
  destruct (p_fs p !! (d ++ [t])) eqn:E; [by left|right; eauto].
Qed.

Lemma rmdir_shape (path : list byte) (p : proc) :
  (sys_rmdir path p).1 = p \/
  exists key n, p_fs p !! key = Some n /\ (sys_rmdir path p).1 = set_fs p (<[key := unlink_node n]> (p_fs p)).
Proof.
  unfold sys_rmdir. destruct (parent_of p path) as [[d t]|]; [|by left].
  destruct (p_fs p !! (d ++ [t])) as [n|] eqn:E; [|by left].
  destruct (names_in _ _); [|by left]. destruct (_ && _); [right; eauto|by left].
Qed.

Lemma jailed_run (u g : Z) (r : dirpath) (p : proc) (c : syscall) :
  u <> 0%Z -> jailed u g r p -> jailed u g r (run c p).
Proof.
  intros Hu J. pose proof (jailed_ids_call u g r p c Hu J) as I. destruct c; try exact I; unfold run.
  - unfold sys_chroot, pget, pbind, pguard. rewrite (jailed_euid u g r p J), bool_decide_eq_false_2 by done. done.
  - unfold sys_chdir, pbind. destruct (find_dir path may_search p) as [p' []] eqn:E; try (unfold find_dir in E; by simplify_eq).
    apply (jailed_find_dir u g r p J) in E as [-> Hd]. by apply jailed_set_cwd.
  - unfold sys_fchdir, pget, pbind. destruct (p_dirs p !! fd) as [d|] eqn:E; [|done].
    destruct (p_fs p !! d); [|done]. destruct (_ && _); [|done]. apply jailed_set_cwd; [done|].
    by eapply (j_dirs _ _ _ _ J).
  - unfold sys_opendir, pbind. destruct (find_dir path may_read p) as [p' []] eqn:E; try (unfold find_dir in E; by simplify_eq).
    apply (jailed_find_dir u g r p J) in E as [-> Hd]. apply jailed_set_dirs; [done|].
    apply map_Forall_insert_2; [done|apply J].
  - apply jailed_set_dirs; [done|]. apply map_Forall_delete, J.
  - destruct (create_shape k path mode p) as [->|(key & n & _ & ->)]; [done|by apply jailed_set_fs].
  - destruct (rmdir_shape path p) as [->|(key & n & _ & ->)]; [done|by apply jailed_set_fs].
Qed.

Lemma jailed_reach E (u g : Z) (r : dirpath) (p q : proc) :
  u <> 0%Z -> jailed u g r p -> reach E p q -> jailed u g r q.
Proof.
  intros Hu J R. induction R as [|q c R IH|q fs R IH _]; [done|by apply jailed_run|by apply jailed_set_fs].
Qed.

(** ** The start *)

Lemma sys_setgroups_inv (l : list Z) (p p' : proc) (x : unit) :
  sys_setgroups l p = (p', Ok x) -> euid p = 0%Z /\ p' = set_groups p l.
Proof. unfold sys_setgroups. destruct (decide _); naive_solver. Qed.

(** The groups are changed by root only. *)
Lemma drop_gid_inv (g : Z) (p p' : proc) (x : unit) :
  drop_gid g p = (p', Ok x) -> euid p = 0%Z /\ p' = set_gids (set_groups p [g]) g g g.
Proof.
  unfold drop_gid. intros (p1 & y & [He ->]%sys_setgroups_inv & E)%pbind_inv. split; [done|].
  destruct p; cbn in He; subst. unfold sys_setgid, sys_setegid, pbind, pget, pguard in E. cbn in E.
  rewrite ?(decide_True (P := (0 = 0)%Z)) in E by done. cbn in E.
  destruct (decide (0%Z = 0%Z \/ _)); [|done]. by destruct (negb _); simplify_eq.
Qed.

Lemma drop_uid_inv (u : Z) (p p' : proc) (x : unit) :
  euid p = 0%Z -> drop_uid u p = (p', Ok x) -> p' = set_uids p u u u.
Proof.
  intros He E. destruct p; cbn in He; subst. unfold drop_uid, sys_setuid, sys_seteuid, pbind, pget, pguard in E. cbn in E.
  rewrite ?(decide_True (P := (0 = 0)%Z)) in E by done. cbn in E.
  destruct (decide _); [|done]. by destruct (negb _); simplify_eq.
Qed.

Lemma find_dir_inv (path : list byte) (bit : Z) (p p' : proc) (d : dirpath) :
  find_dir path bit p = (p', Ok d) ->
  p' = p /\ resolve_path p path = Some d /\ exists n, p_fs p !! d = Some n /\ is_dir n = true.
Proof.
  unfold find_dir. intros [= <- E]. split; [done|].
  destruct (resolve_path p path) as [d'|] eqn:R; [|done]. cbn [mbind option_bind] in E.
  destruct (p_fs p !! d') as [n|] eqn:N; [|done]. cbn [mbind option_bind] in E. destruct (is_dir n) eqn:D; [|done].
  destruct (allowed p n bit); [|done]. injection E as <-. eauto.
Qed.

Lemma resolve_slash (p : proc) : resolve_path p (bs "/") = Some (p_root p).
Proof. done. Qed.

Lemma server_chroot_to_inv (dir : list byte) (p p' : proc) (x : unit) :
  server_chroot_to dir p = (p', Ok x) ->
  exists d, resolve_path p dir = Some d /\ p' = set_cwd (set_root p d) d.
Proof.
  unfold server_chroot_to, sys_chroot, sys_chdir.
  intros (p1 & y & (p2 & y2 & [= <- <-] & (p3 & z & E1 & (p4 & d & E2 & [= <- <-])%pbind_inv)%pbind_inv)%pbind_inv
             & (p5 & d' & E3 & [= <- <-])%pbind_inv)%pbind_inv.
  unfold pguard in E1. destruct (bool_decide _); [|done]. injection E1 as <- <-.
  apply find_dir_inv in E2 as (-> & E2 & _). apply find_dir_inv in E3 as (-> & E3 & _).
  rewrite resolve_slash in E3. exists d. split; [done|]. injection E3 as <-. by destruct p.
Qed.

(** ** Owners and modes *)

Definition same_meta (n n' : node) : Prop := n_kind n' = n_kind n /\ n_mode n' = n_mode n /\ n_uid n' = n_uid n /\ n_gid n' = n_gid n.

(** The nodes stay, with their kind, mode, owner and group. *)
Definition owners_kept (fs fs' : gmap dirpath node) : Prop :=
  forall k n, fs !! k = Some n -> exists n', fs' !! k = Some n' /\ same_meta n n'.

#[global] Instance owners_kept_pre : PreOrder owners_kept.
Proof.
  split; [intros fs k n H; by exists n|]. intros a b c Hab Hbc k n (n' & H' & M)%Hab.
  destruct (Hbc k n' H') as (n'' & H'' & M'). exists n''. unfold same_meta in *. naive_solver congruence.
Qed.

Lemma owners_kept_create (k : kind) (path : list byte) (mode : Z) (p : proc) : owners_kept (p_fs p) (p_fs (sys_create k path mode p).1).
Proof.
  destruct (create_shape k path mode p) as [->|(key & n & H & ->)]; [done|]. intros key' n' H'. exists n'.
  destruct p. cbn in *. by rewrite lookup_insert_ne by congruence.
Qed.

Lemma owners_kept_rmdir (path : list byte) (p : proc) : owners_kept (p_fs p) (p_fs (sys_rmdir path p).1).
Proof.
  destruct (rmdir_shape path p) as [->|(key & n & H & ->)]; [done|]. intros key' n' H'. destruct p. cbn in *.
  destruct (decide (key = key')) as [<-|Hne]; [rewrite lookup_insert_eq|by rewrite lookup_insert_ne by done; exists n'].
  exists (unlink_node n). by simplify_eq.
Qed.

Lemma child_at_fs (when k : nat) (c : proc) (dir : list byte) (p p' : proc) (x : unit) :
  child_at when k c dir p = (p', Ok x) -> exists fs, p' = set_fs p fs /\ owners_kept (p_fs p) fs.
Proof.
  unfold child_at, child_removes. destruct (decide _); intros [= <- _].
  - eexists. split; [done|]. pose proof (owners_kept_rmdir dir (set_fs c (p_fs p))) as H. by destruct c.
  - exists (p_fs p). by destruct p.
Qed.

(** Where a path leads does not depend on the files, if it leads anywhere. *)
Definition lexical (r : dirpath) : dirpath -> list (list byte) -> dirpath :=
  foldl (fun cur t => if decide (t = dot) then cur
                      else if decide (t = dotdot) then if decide (cur = r) then cur else removelast cur
                      else cur ++ [t]).

Lemma walk_lexical (p : proc) (ts : list (list byte)) : forall cur d, walk p cur ts = Some d -> d = lexical (p_root p) cur ts.
Proof.
  induction ts as [|t ts IH]; simpl; intros cur d E; [by simplify_eq|].
  destruct (p_fs p !! cur) as [n|]; [|done]. cbn [mbind option_bind] in E.
  destruct (is_dir n && _); [|done]. destruct (decide (t = dot)); [by apply IH|].
  destruct (decide (t = dotdot)); [by apply IH|].
  destruct (p_fs p !! (cur ++ [t])) as [n'|]; [|done]. cbn [mbind option_bind] in E.
  destruct (n_linked n'); [by apply IH|done].
Qed.

Lemma resolve_same (p p' : proc) (path : list byte) (d d' : dirpath) :
  p_root p = p_root p' -> p_cwd p = p_cwd p' -> resolve_path p path = Some d -> resolve_path p' path = Some d' -> d = d'.
Proof.
  unfold resolve_path, start_of. intros Hr Hc. destruct (decide (path = [])); [done|].
  intros ->%walk_lexical ->%walk_lexical. by rewrite Hr, Hc.
Qed.

(** The blind directory is root's, and root alone may search it. *)
Definition blind_node (n : node) : Prop := n_uid n = 0%Z /\ n_gid n = 0%Z /\ Z.land (node_mode n) 0xFFF = BLIND_DIR_MODE.

Lemma blind_node_meta (n n' : node) : same_meta n n' -> blind_node n -> blind_node n'.
Proof. unfold same_meta, blind_node, node_mode. intros (-> & -> & -> & ->). done. Qed.

Lemma blind_mode (n : node) (m : Z) : blind_node n -> Z.land 0xFFF m = m -> Z.land (n_mode n) m = Z.land BLIND_DIR_MODE m.
Proof.
  intros (_ & _ & H) Hm. rewrite <-H, <-Z.land_assoc, Hm. unfold node_mode. rewrite Z.land_lor_distr_l.
  replace (Z.land (match n_kind n with KDir => S_IFDIR | KReg => S_IFREG end) m) with 0%Z; [done|].
  rewrite <-Hm, Z.land_assoc. by destruct (n_kind n).
Qed.

Lemma blind_not_allowed (p : proc) (n : node) (bit : Z) :
  euid p <> 0%Z -> blind_node n -> bit ∈ [may_read; may_write; may_search] -> allowed p n bit = false.
Proof.
  intros He Hn Hb. unfold allowed. rewrite decide_False by done.
  rewrite decide_False by (destruct Hn as (-> & _); congruence).
  assert (Z.land (n_mode n) bit = 0%Z /\ Z.land (Z.shiftr (n_mode n) 3) bit = 0%Z) as [H1 H2].
  { assert (forall m, Z.land 0xFFF m = m -> Z.land BLIND_DIR_MODE m = 0%Z -> Z.land (n_mode n) m = 0%Z) as H
      by (intros m Hm H0; by rewrite blind_mode).
    assert (forall m b, Z.shiftr m 3 = b -> Z.land (n_mode n) m = 0%Z -> Z.land (Z.shiftr (n_mode n) 3) b = 0%Z) as H'
      by (intros m b <- H0; by rewrite <-Z.shiftr_land, H0).
    rewrite !elem_of_cons, elem_of_nil in Hb. destruct Hb as [->|[->|[->|[]]]];
      (split; [by apply H|]); [apply (H' 32%Z)|apply (H' 16%Z)|apply (H' 8%Z)]; auto. }
  rewrite H1, H2. by destruct (decide _).
Qed.

Section start_proofs.
Context {L : Libu}.
Variables (U_PATH_MAX FILENAME_MAX : nat) (pid : Z) (fork_ok : bool) (when : nat).
Abbreviation confine_of := (server_confine U_PATH_MAX FILENAME_MAX pid fork_ok when).

Lemma dir_is_empty_inv (p p' : proc) (x : unit) : dir_is_empty FILENAME_MAX p = (p', Ok x) -> p' = p.
Proof. unfold dir_is_empty. destruct (u_foreach_dir_item _ _ _ _ _ _) as [z []]; naive_solver. Qed.

(** Two processes that differ in the files only. *)
Definition proc_kept (p p' : proc) : Prop := exists fs, p' = set_fs p fs /\ owners_kept (p_fs p) fs.

Lemma blind_checks_inv (fd : Z) (dir : list byte) (p p' : proc) (x : unit) :
  blind_checks FILENAME_MAX fork_ok when fd dir p = (p', Ok x) ->
  exists d fs1, resolve_path (set_fs p fs1) dir = Some d /\ proc_kept (set_cwd (set_root p d) d) p' /\
    forall d', p_dirs p !! fd = Some d' -> exists n, p_fs p' !! d' = Some n /\ blind_node n.
Proof.
  unfold blind_checks.
  intros (p1 & y1 & E1 & (p2 & c & [= <- <-] & (p3 & y3 & (fs1 & -> & K1)%child_at_fs & (p4 & y4 & E4 & (p5 & y5 & (fs2 & -> & K2)%child_at_fs
    & (p6 & st & E6 & (p7 & y7 & E7 & (p8 & y8 & E8 & (p9 & y9 & (fs3 & -> & K3)%child_at_fs & (p10 & y10 & E10 & (fs4 & -> & K4)%child_at_fs)%pbind_inv)%pbind_inv)%pbind_inv)%pbind_inv)%pbind_inv)%pbind_inv)%pbind_inv)%pbind_inv)%pbind_inv)%pbind_inv.
  unfold pguard in *. destruct fork_ok; [|done]. injection E1 as <- _.
  apply server_chroot_to_inv in E4 as (d & Hd & ->). apply dir_is_empty_inv in E10 as ->.
  unfold sys_fstat in E6. injection E6 as <- E6.
  destruct (bool_decide (n_gid st <> 0%Z)) eqn:G; [by destruct (bool_decide (n_uid st <> 0%Z))|].
  destruct (bool_decide (n_uid st <> 0%Z)) eqn:U; [done|]. cbn in E7. injection E7 as <- _.
  destruct (bool_decide (Z.land _ _ = _)) eqn:M; [|done]. injection E8 as <- _.
  apply bool_decide_eq_false in G, U. apply bool_decide_eq_true in M.
  exists d, fs1. destruct p. cbn in *. split_and!; [done|by exists fs4; split; [|by repeat (etrans; [eassumption|])]|].
  intros d' Hd'. rewrite Hd' in E6. cbn in E6. destruct (fs2 !! d') as [n|] eqn:N; [|done]. injection E6 as ->.
  apply K3 in N as (n3 & N3 & M3). apply K4 in N3 as (n4 & N4 & M4). exists n4. split; [done|].
  apply (blind_node_meta n3); [done|]. apply (blind_node_meta st); [done|]. split_and!; [lia|lia|done].
Qed.

Lemma mkdir_inv (path : list byte) (mode : Z) (p p' : proc) (x : unit) :
  sys_mkdir path mode p = (p', Ok x) -> exists fs, p' = set_fs p fs.
Proof.
  unfold sys_mkdir, sys_create. destruct (parent_of p path) as [[d t]|]; [|done].
  destruct (p_fs p !! _); [done|]. intros [= <- _]. eauto.
Qed.

Lemma opendir_inv (path : list byte) (p p' : proc) (fd : Z) :
  sys_opendir path p = (p', Ok fd) -> exists d, resolve_path p path = Some d /\ p' = set_dirs p (<[fd := d]> (p_dirs p)).
Proof.
  unfold sys_opendir. intros (p1 & d & (-> & R & _)%find_dir_inv & (p2 & y & [= <- <-] & (p3 & z & [= <- <-] & [= <- <-])%pbind_inv)%pbind_inv)%pbind_inv.
  eauto.
Qed.

Lemma server_chroot_inv (s : confine) (dir : list byte) (p p' : proc) (x : unit) :
  p_dirs p = ∅ -> server_chroot U_PATH_MAX FILENAME_MAX pid fork_ok when s dir p = (p', Ok x) ->
  exists d fs, p' = set_fs (set_cwd (set_root p d) d) fs /\
    if sc_blind s then exists n, fs !! d = Some n /\ blind_node n else resolve_path p dir = Some d.
Proof.
  intros Hd. unfold server_chroot. destruct (sc_blind s).
  2: { intros (d & R & ->)%server_chroot_to_inv. exists d, (p_fs p). by destruct p. }
  unfold server_chroot_blind. destruct (u_path_snprintf _ _ _) as [path|]; [|done].
  intros (p1 & y1 & [fs0 ->]%mkdir_inv & (p2 & fd & (d0 & R0 & ->)%opendir_inv & (p3 & y3 & E & [= <- _])%pbind_inv)%pbind_inv)%pbind_inv.
  unfold pelse in E. destruct (blind_checks _ _ _ _ _ _) as [p4 r] eqn:B. destruct r; try done. injection E as -> _.
  apply blind_checks_inv in B as (d & fs1 & R & (fs & -> & _) & N).
  destruct p. cbn in Hd. subst. cbn in *. destruct (N d0) as (n & Hn & Bn); [apply lookup_insert_eq|].
  assert (d0 = d) as -> by (eapply (resolve_same _ _ path); [| |exact R0|exact R]; done).
  exists d, fs. rewrite delete_insert_eq, delete_empty. eauto.
Qed.

(** A start that returns has dropped every identifier, wherever the process started from. *)
Lemma server_confine_jailed (s : confine) (dir : list byte) (p p' : proc) (x : unit) :
  confine_of s p = (p', Ok x) -> (0 < sc_uid s)%Z -> (0 < sc_gid s)%Z -> sc_chroot s = Some dir -> p_dirs p = ∅ ->
  exists d, jailed (sc_uid s) (sc_gid s) d p' /\ p_cwd p' = d /\ p_dirs p' = ∅ /\
    if sc_blind s then exists n, p_fs p' !! d = Some n /\ blind_node n else resolve_path p dir = Some d.
Proof.
  unfold server_confine. intros E Hu Hg Hc Hd. rewrite Hc in E.
  apply pbind_inv in E as (p1 & y1 & E1 & (p2 & y2 & E2 & (p3 & y3 & [= <- <-] & E3)%pbind_inv)%pbind_inv).
  apply server_chroot_inv in E1 as (d & fs & -> & R); [|done].
  unfold server_drop_privileges in E2. rewrite !decide_True in E2 by done.
  apply pbind_inv in E2 as (p4 & y4 & [He ->]%drop_gid_inv & E2). apply drop_uid_inv in E2 as ->; [|by destruct p].
  assert (p' = set_uids (set_gids (set_groups (set_fs (set_cwd (set_root p d) d) fs) [sc_gid s]) (sc_gid s) (sc_gid s) (sc_gid s)) (sc_uid s) (sc_uid s) (sc_uid s)) as ->.
  { destruct (sc_allow_root s); [by injection E3|]. unfold pguard in E3. by destruct (negb _); simplify_eq. }
  exists d. destruct p. cbn in *. subst. split_and!; [|done..]. by constructor.
Qed.
End start_proofs.

(** * Theorems *)


(** A process in a blind directory: it holds no other one, and may not search that one. *)
Definition blinded (r : dirpath) (p : proc) : Prop :=
  p_cwd p = r /\ p_dirs p = ∅ /\ exists n, p_fs p !! r = Some n /\ blind_node n.

Section blinded.
Variables (u g : Z) (r : dirpath).
Hypothesis Hu : u <> 0%Z.

Lemma blinded_walk (p : proc) (cur d : dirpath) (ts : list (list byte)) :
  jailed u g r p -> blinded r p -> cur = r -> walk p cur ts = Some d -> ts = [] /\ d = r.
Proof using Hu.
  intros J (_ & _ & n & Hn & B) -> E. destruct ts as [|t ts]; [naive_solver|]. simpl in E. rewrite Hn in E. cbn [mbind option_bind] in E.
  rewrite blind_not_allowed, andb_false_r in E; [done| |done|set_solver]. by rewrite (jailed_euid u g r p J).
Qed.

Lemma blinded_start (p : proc) (path : list byte) : jailed u g r p -> blinded r p -> start_of p path = r.
Proof. intros J (Hc & _). unfold start_of. rewrite Hc, (j_root _ _ _ _ J). by destruct (decide _). Qed.

Lemma blinded_resolve (p : proc) (path : list byte) (d : dirpath) :
  jailed u g r p -> blinded r p -> resolve_path p path = Some d -> d = r.
Proof using Hu.
  intros J B. unfold resolve_path. destruct (decide _); [done|].
  intros H. by eapply blinded_walk in H as [_ ->]; [| | |apply blinded_start].
Qed.

(** No directory can be opened, entered or written. *)
Lemma blinded_find_dir (p : proc) (path : list byte) (bit : Z) :
  jailed u g r p -> blinded r p -> bit ∈ [may_read; may_write; may_search] -> find_dir path bit p = (p, Fail).
Proof using Hu.
  intros J B Hb. unfold find_dir. destruct (resolve_path p path) as [d|] eqn:E; [|done].
  apply blinded_resolve in E as ->; [|done..]. destruct B as (_ & _ & n & Hn & B). cbn. rewrite Hn. cbn.
  by rewrite blind_not_allowed, andb_false_r by (done || by rewrite (jailed_euid u g r p J)).
Qed.

Lemma blinded_parent (p : proc) (path : list byte) : jailed u g r p -> blinded r p -> parent_of p path = None.
Proof using Hu.
  intros J B. unfold parent_of. destruct (last _) as [t|]; [|done]. cbn.
  destruct (walk p _ _) as [d|] eqn:E; [|done].
  eapply blinded_walk in E as [_ ->]; [|done|done|by apply blinded_start].
  destruct B as (_ & _ & n & Hn & B). cbn. rewrite Hn. cbn. destruct (decide _); [done|].
  rewrite blind_not_allowed, andb_false_r; [done| |done|set_solver]. by rewrite (jailed_euid u g r p J).
Qed.
End blinded.

(** What the process asks of the files, in a given state. *)
Definition file_call (c : syscall) (p : proc) : option (res unit) :=
  match c with
  | Chroot path => Some (sys_chroot path p).2
  | Chdir path => Some (sys_chdir path p).2
  | Fchdir fd => Some (sys_fchdir fd p).2
  | Opendir path => Some ((sys_opendir path p).2 ≫= fun _ => Ok tt)
  | Create k path mode => Some (sys_create k path mode p).2
  | Rmdir path => Some (sys_rmdir path p).2
  | _ => None
  end.

Section blinded_calls.
Variables (u g : Z) (r : dirpath).
Hypothesis Hu : u <> 0%Z.

Lemma blinded_calls_fail (p : proc) (c : syscall) (o : res unit) :
  jailed u g r p -> blinded r p -> file_call c p = Some o -> o = Fail.
Proof using Hu.
  intros J B. destruct c; unfold file_call; intros H; try done; apply (inj Some) in H as <-.
  - unfold sys_chroot, pget, pbind, pguard. by rewrite (jailed_euid u g r p J), bool_decide_eq_false_2 by done.
  - unfold sys_chdir, pbind. by rewrite (blinded_find_dir u g r Hu) by (done || set_solver).
  - destruct B as (_ & Hd & _). unfold sys_fchdir, pget, pbind. by rewrite Hd, lookup_empty.
  - unfold sys_opendir, pbind. by rewrite (blinded_find_dir u g r Hu) by (done || set_solver).
  - unfold sys_create. by rewrite (blinded_parent u g r Hu).
  - unfold sys_rmdir. by rewrite (blinded_parent u g r Hu).
Qed.

Lemma blinded_set_fs (p : proc) (fs : gmap dirpath node) : blinded r p -> owners_kept (p_fs p) fs -> blinded r (set_fs p fs).
Proof.
  intros (Hc & Hd & n & Hn & B) K. destruct (K r n Hn) as (n' & Hn' & M). destruct p. split_and!; [done..|].
  exists n'. split; [done|by apply (blind_node_meta n)].
Qed.

Lemma blinded_run (p : proc) (c : syscall) : jailed u g r p -> blinded r p -> blinded r (run c p).
Proof using Hu.
  intros J B. pose proof (blinded_calls_fail p c) as F.
  assert (forall a b e, blinded r (set_uids p a b e)) as Iu by (intros; by destruct p).
  assert (forall a b e, blinded r (set_gids p a b e)) as Ig by (intros; by destruct p).
  assert (forall l, blinded r (set_groups p l)) as Il by (intros; by destruct p).
  destruct c; unfold run.
  1-7: unfold sys_setuid, sys_seteuid, sys_setresuid, sys_setgid, sys_setegid, sys_setresgid, sys_setgroups; repeat case_match; by cbn.
  - unfold sys_chroot, pget, pbind, pguard. by rewrite (jailed_euid u g r p J), bool_decide_eq_false_2 by done.
  - unfold sys_chdir, pbind. by rewrite (blinded_find_dir u g r Hu) by (done || set_solver).
  - pose proof B as (_ & Hd & _). unfold sys_fchdir, pget, pbind. by rewrite Hd, lookup_empty.
  - unfold sys_opendir, pbind. by rewrite (blinded_find_dir u g r Hu) by (done || set_solver).
  - pose proof B as (Hc & Hd & HB). destruct p. cbn in *. subst. unfold blinded. cbn. by rewrite delete_empty.
  - unfold sys_create. by rewrite (blinded_parent u g r Hu).
  - unfold sys_rmdir. by rewrite (blinded_parent u g r Hu).
Qed.

Lemma blinded_reach (p q : proc) : jailed u g r p -> blinded r p -> reach owners_kept p q -> blinded r q.
Proof using Hu.
  intros J B R. induction R as [|q c R IH|q fs R IH K]; [done| |by apply blinded_set_fs].
  apply blinded_run; [by eapply jailed_reach|done].
Qed.
End blinded_calls.

(** C14: With a blind directory, a server that has started gets at no file at all: while
    other processes leave the owners and modes of the files alone, at every moment each of
    its calls that names a directory or a file (to open, create or remove one, or to change
    the working or the root directory) fails, and no path leads anywhere but to the empty
    root.  This holds both before and after the child has removed the directory. *)
Theorem blind_server_sees_nothing {L : Libu} (U_PATH_MAX FILENAME_MAX : nat) (pid : Z) (fork_ok : bool) (when : nat)
    (s : confine) (dir : list byte) (p p' q : proc) :
  server_confine U_PATH_MAX FILENAME_MAX pid fork_ok when s p = (p', Ok tt) ->
  sc_chroot s = Some dir -> sc_blind s = true -> (0 < sc_uid s)%Z -> (0 < sc_gid s)%Z -> p_dirs p = ∅ ->
  reach owners_kept p' q ->
  (forall c o, file_call c q = Some o -> o = Fail) /\
  (forall path d, resolve_path q path = Some d -> d = p_root q).
Proof.
  intros E Hc Hb Hu Hg Hd R. eapply server_confine_jailed in E as (d & J & Hw & Hds & B); try done.
  rewrite Hb in B. pose proof (jailed_reach _ (sc_uid s) (sc_gid s) d p' q ltac:(lia) J R) as Jq.
  pose proof (blinded_reach (sc_uid s) (sc_gid s) d ltac:(lia) p' q J (conj Hw (conj Hds B)) R) as Bq.
  split; [intros c o; eapply blinded_calls_fail; eauto; lia|].
  intros path d' H. rewrite (j_root _ _ _ _ Jq). eapply blinded_resolve; eauto; lia.
Qed.

(** A start that the check lets through does not run as root, whatever the configuration. *)
Theorem server_not_root {L : Libu} (U_PATH_MAX FILENAME_MAX : nat) (pid : Z) (fork_ok : bool) (when : nat) (s : confine) (p p' : proc) :
  server_confine U_PATH_MAX FILENAME_MAX pid fork_ok when s p = (p', Ok tt) -> sc_allow_root s = false ->
  ruid p' <> 0%Z /\ euid p' <> 0%Z /\ rgid p' <> 0%Z /\ egid p' <> 0%Z.
Proof.
  unfold server_confine. intros (p1 & y1 & _ & (p2 & y2 & _ & (p3 & y3 & [= <- <-] & E)%pbind_inv)%pbind_inv)%pbind_inv Ha.
  rewrite Ha in E. unfold pguard in E. destruct (negb _) eqn:G; [|done]. injection E as <-.
  apply negb_true_iff in G. rewrite !orb_false_iff, !bool_decide_eq_false in G. tauto.
Qed.

(** ** Examples *)

(** Modes 0755 and 0644, a mask of 022. *)
Definition host : gmap dirpath node := list_to_map [
  ([], mkNode KDir 493 0 0 true);
  ([bs "srv"], mkNode KDir 493 0 0 true);
  ([bs "srv"; bs "www"], mkNode KReg 420 0 0 true);
  ([bs "etc"], mkNode KDir 493 0 0 true)].

Definition root_proc : proc := mkProc 0 0 0 0 0 0 [0%Z; 4%Z] 18 [] [bs "etc"] ∅ host.
Definition www_conf (blind : bool) : confine := mkCf (Some (bs "/srv/")) blind 80 81 false.
Definition confine_ref := server_confine (L := libu_ref) 4096 4096 77 true.

Definition www_proc : proc := (confine_ref 9 (www_conf false) root_proc).1.
Definition blind_proc (when : nat) : proc := (confine_ref when (www_conf true) root_proc).1.

(** The way back to root, and the way out by "..". *)
Definition attack (p : proc) : proc :=
  foldl (fun p c => run c p) p
    [Seteuid 0; Setresuid 0 0 0; Setgroups [0%Z]; Chroot (bs "srv"); Chdir (bs "../../.."); Opendir (bs "/"); Fchdir 3; Setuid 80].

Lemma attack_reach (E : gmap dirpath node -> gmap dirpath node -> Prop) (p : proc) : reach E p (attack p).
Proof. unfold attack. cbn [foldl]. do 8 apply reach_call. apply reach_start. Qed.

Lemma started_ok {A} (m : prog proc A) (p : proc) (a : A) : (m p).2 = Ok a -> m p = ((m p).1, Ok a).
Proof. destruct (m p). cbn. congruence. Qed.

Definition ids (p : proc) : list Z := [ruid p; euid p; suid p; rgid p; egid p; sgid p] ++ groups p.


Lemma blind_server_sees_nothing_witness :
  let q := attack (blind_proc 2) in
  p_root q = [bs "srv"; bs "kloned_blind_chroot_77.dir"] /\
  (n_linked <$> p_fs q !! p_root q) = Some false /\
  (forall path, (sys_chdir path q).2 = Fail) /\ (forall path mode, (sys_mkdir path mode q).2 = Fail).
Proof.
  destruct (blind_server_sees_nothing (L := libu_ref) 4096 4096 77 true 2 (www_conf true) (bs "/srv/") root_proc (blind_proc 2) (attack (blind_proc 2)))
    as [H _]; [apply started_ok; by vm_compute|done..|apply attack_reach|].
  cbv zeta. split; [by vm_compute|]. split; [by vm_compute|].
  split; [intros path; by apply (H (Chdir path))|intros path mode; by apply (H (Create KDir path mode))].
Defined.

(** When the child comes before its parent, the server does not start. *)
Example blind_race : (confine_ref 0 (www_conf true) root_proc).2 = Fail.
Proof. by vm_compute. Qed.

(** A configuration without uid and gid is accepted: the values are -1, and the check is
    against 0.  Nothing is dropped then: a process with a saved user of root starts, and can
    take that user again. *)
Definition saved_root : proc := mkProc 80 80 0 81 81 0 [0%Z] 18 [] [] ∅ host.

Example missing_ids :
  server_create_ids None false None None false = Ok (mkCf None false (-1) (-1) false) /\
  let c := confine_ref 9 (mkCf None false (-1) (-1) false) saved_root in
  c.2 = Ok tt /\ ids c.1 = ids saved_root /\ euid (run (Seteuid 0) c.1) = 0%Z.
Proof. by vm_compute. Qed.

(** With allow_root and no user, the server keeps every identifier of root. *)
Example root_kept :
  let c := confine_ref 9 (mkCf None false (-1) (-1) true) root_proc in c.2 = Ok tt /\ ids c.1 = [0; 0; 0; 0; 0; 0; 0; 4]%Z.
Proof. by vm_compute. Qed.

(** A blind directory without a root directory is not asked for. *)
Example blind_ignored :
  let c := confine_ref 9 (mkCf None true 80 81 false) root_proc in c.2 = Ok tt /\ p_root c.1 = [] /\ p_cwd c.1 = [bs "etc"].
Proof. by vm_compute. Qed.

(** The working directory matters: a process whose root alone is changed walks out of it. *)
Example chroot_alone :
  resolve_path (sys_chroot (bs "/srv") root_proc).1 (bs "../etc") = Some [bs "etc"] /\
  resolve_path (server_chroot_to (bs "/srv") root_proc).1 (bs "../etc") = None.
Proof. by vm_compute. Qed.
