(* ===== verification/Config.v ===== *)
(** The configuration: what the modules read from libu's configuration tree when the server
    starts.  [http_create] and the virtual hosts (src/src/libhttp/http.c), [klog_args]
    (src/src/libklog/klog.c), [session_module_init] and its drivers (src/src/libpage/session.c,
    ses_mem.c, ses_file.c), [request_load_config] (src/src/libpage/request.c).

    A [u_config_t] is represented by its contents: a key, a value or none, and its children in
    order.  The functions on it are those of libu, parameters with what the code relies on; a
    pointer to a child is its position. *)

From stdpp Require Import gmap.
From S2P Require Import Prelude Libu Encode Path Date Io IoSpec IoMem Getline Header Vars Request Response Session Files Http Klog.

Inductive ucfg := UCfg (key : list byte) (value : option (list byte)) (kids : list ucfg).

Definition u_config_get_key (c : ucfg) : list byte := let 'UCfg k _ _ := c in k.
Definition u_config_get_value (c : ucfg) : option (list byte) := let 'UCfg _ v _ := c in v.
Definition kids (c : ucfg) : list ucfg := let 'UCfg _ _ cs := c in cs.

Class UConfig := {
  u_config_get_child_n : ucfg -> option (list byte) -> nat -> option ucfg;
  u_config_get_child : ucfg -> list byte -> option ucfg;
  u_config_get_subkey : ucfg -> list byte -> option ucfg;
  u_config_get_subkey_nth : ucfg -> list byte -> nat -> option ucfg;
  u_config_get_subkey_value : ucfg -> list byte -> option (list byte);
  (** [u_config_get_subkey_value_b(c, key, def, &v)], [None] for a value that is no boolean *)
  u_config_get_subkey_value_b : ucfg -> list byte -> bool -> option bool;
  (** the tree with a new child, and where it is *)
  u_config_add_child : ucfg -> list byte -> option (ucfg * nat);
  u_config_set_value : ucfg -> option (list byte) -> option ucfg;
  (** [u_atoi(s, &n)], [None] when [s] is not a number that fits *)
  u_atoi : list byte -> option Z;
  (** [u_tokenize(s, delims, v, n)], [None] when there are [n] tokens or more *)
  u_tokenize : list byte -> list byte -> nat -> option (list (list byte))
}.

(** The first child with a key. *)
Fixpoint child_named (k : list byte) (cs : list ucfg) : option ucfg :=
  match cs with
  | [] => None
  | c :: cs' => if strcaseeq (u_config_get_key c) k then Some c else child_named k cs'
  end.

Definition no_dot (k : list byte) : Prop := "."%byte ∉ k.

Class UConfigSpec (U : UConfig) : Prop := {
  get_child_n_spec (c : ucfg) (n : nat) : u_config_get_child_n c None n = kids c !! n;
  get_child_n_key (c : ucfg) (k : list byte) (n : nat) :
    u_config_get_child_n c (Some k) n = filter (fun d => strcaseeq (u_config_get_key d) k) (kids c) !! n;
  get_child_spec (c : ucfg) (k : list byte) : u_config_get_child c k = child_named k (kids c);
  get_subkey_spec (c : ucfg) (k : list byte) : no_dot k -> u_config_get_subkey c k = child_named k (kids c);
  get_subkey_dotted (c : ucfg) (k k' : list byte) :
    no_dot k -> u_config_get_subkey c (k ++ bs "." ++ k') = d ← child_named k (kids c); u_config_get_subkey d k';
  get_subkey_value_spec (c : ucfg) (k : list byte) :
    u_config_get_subkey_value c k = u_config_get_subkey c k ≫= u_config_get_value;
  get_subkey_value_b_none (c : ucfg) (k : list byte) (def : bool) :
    u_config_get_subkey_value c k = None -> u_config_get_subkey_value_b c k def = Some def;
  add_child_spec (c r : ucfg) (k : list byte) (i : nat) :
    u_config_add_child c k = Some (r, i) ->
    r = UCfg (u_config_get_key c) (u_config_get_value c) (kids c ++ [UCfg k None []]) /\ i = length (kids c);
  set_value_spec (c r : ucfg) (v : option (list byte)) :
    u_config_set_value c v = Some r -> r = UCfg (u_config_get_key c) v (kids c);
  u_atoi_range (s : list byte) (v : Z) : u_atoi s = Some v -> (- 2 ^ 31 <= v < 2 ^ 31)%Z
}.

(** Memory is not exhausted. *)
Class UConfigMem (U : UConfig) : Prop := {
  add_child_ok (c : ucfg) (k : list byte) : is_Some (u_config_add_child c k);
  set_value_ok (c : ucfg) (v : option (list byte)) : is_Some (u_config_set_value c v)
}.

(** The tree with its [i]-th child changed. *)
Definition put_kid (c : ucfg) (i : nat) (d : ucfg) : ucfg := UCfg (u_config_get_key c) (u_config_get_value c) (<[i := d]> (kids c)).

(** The number of nodes: enough fuel to go through a tree. *)
Fixpoint tree_size (c : ucfg) : nat := let 'UCfg _ _ cs := c in S (list_sum (map tree_size cs)).

(** ** Log devices: klog.c *)

Record klog_args_t := mkKa {
  ka_type : Z;
  ka_ident : option (list byte);
  ka_threshold : Z;
  ka_mlimit : Z;
  ka_fbasename : option (list byte);
  ka_fsplits : Z;
  ka_flimit : Z;
  ka_soptions : Z;
  ka_sfacility : Z
}.

Definition KLOG_TYPE_UNKNOWN : Z := 0.
Definition KLOG_FACILITY_UNKNOWN : Z := -1.

(** The values of <syslog.h>. *)
Definition LOG_PID : Z := 1.
Definition LOG_CONS : Z := 2.
Definition LOG_NDELAY : Z := 8.
Definition LOG_PERROR : Z := 32.
Definition LOG_LOCAL (n : Z) : Z := Z.shiftl (16 + n) 3.

Definition klog_type (type : option (list byte)) : Z :=
  match type with
  | None => KLOG_TYPE_UNKNOWN
  | Some t =>
      if strcaseeq t (bs "memory") then KLOG_TYPE_MEM
      else if strcaseeq t (bs "file") then KLOG_TYPE_FILE
      else if strcaseeq t (bs "syslog") then KLOG_TYPE_SYSLOG
      else KLOG_TYPE_UNKNOWN
  end.

Fixpoint facility_loop (n : nat) (names : list (list byte)) (fac : list byte) : Z :=
  match names with
  | [] => KLOG_FACILITY_UNKNOWN
  | f :: names' => if strcaseeq fac f then LOG_LOCAL (Z.of_nat n) else facility_loop (S n) names' fac
  end.

Definition facilities : list (list byte) :=
  [bs "LOG_LOCAL0"; bs "LOG_LOCAL1"; bs "LOG_LOCAL2"; bs "LOG_LOCAL3"; bs "LOG_LOCAL4"; bs "LOG_LOCAL5"; bs "LOG_LOCAL6"; bs "LOG_LOCAL7"].

Definition klog_facility (type : Z) (fac : option (list byte)) : Z :=
  match fac with
  | None => KLOG_FACILITY_UNKNOWN
  | Some f => if decide (type <> KLOG_TYPE_SYSLOG) then KLOG_FACILITY_UNKNOWN else facility_loop 0 facilities f
  end.

Definition logopt_of (o : list byte) : Z :=
  if strcaseeq o (bs "LOG_CONS") then LOG_CONS
  else if strcaseeq o (bs "LOG_NDELAY") then LOG_NDELAY
  else if strcaseeq o (bs "LOG_PERROR") then LOG_PERROR
  else if strcaseeq o (bs "LOG_PID") then LOG_PID
  else 0%Z.

Definition klog_args_check (ka : klog_args_t) : res klog_args_t :=
  if decide (ka_type ka = KLOG_TYPE_UNKNOWN) then Fail else
  let thr := if decide (ka_threshold ka = KLOG_LEVEL_UNKNOWN) then KLOG_DEBUG else ka_threshold ka in
  let 'mkKa ty id _ ml fb fs fl so sf := ka in
  if decide (ty = KLOG_TYPE_MEM) then
    Ok (mkKa ty id thr (if decide (ml = 0%Z) then KLOG_MLIMIT_DFL else ml) fb fs fl so sf)
  else if decide (ty = KLOG_TYPE_FILE) then
    match fb with
    | None => Fail
    | Some _ =>
        Ok (mkKa ty id thr ml fb (if decide (fs = 0%Z) then KLOG_FSPLITS_DFL else fs)
              (if decide (fl = 0%Z) then KLOG_FLIMIT_DFL else fl) so sf)
    end
  else if decide (ty = KLOG_TYPE_SYSLOG) then
    Ok (mkKa ty id thr ml fb fs fl so (if decide (sf = KLOG_FACILITY_UNKNOWN) then LOG_LOCAL 7 else sf))
  else Fail.

(** The logs that are open, and the files of each base name. *)
Record logs := mkLogs { lg_open : list klog; lg_disks : gmap (list byte) disk }.

Section config.
Context {L : Libu} {U : UConfig}.
Variable have_syslog : bool.

Definition klog_logopt (options : option (list byte)) : Z :=
  match options with
  | None => 0%Z
  | Some o =>
      if negb (u_alloc (S (length o))) then 0%Z else
      match u_tokenize o [" "%byte; x09] 5 with
      | None => 0%Z
      | Some optv => foldl (fun acc t => Z.lor acc (logopt_of t)) 0%Z optv
      end
  end.

Definition u_strdup (s : list byte) : option (list byte) := if u_alloc (S (length s)) then Some s else None.

(** A number of the configuration, 0 when it is missing. *)
Definition num_key (ls : ucfg) (key : list byte) : res Z :=
  match u_config_get_subkey_value ls key with None => Ok 0%Z | Some cs => of_option (u_atoi cs) end.

Definition klog_args (ls : ucfg) : res klog_args_t :=
  let type := klog_type (u_config_get_subkey_value ls (bs "type")) in
  let ident := u_config_get_subkey_value ls (bs "ident") ≫= u_strdup in
  let thr := klog_threshold (u_config_get_subkey_value ls (bs "threshold")) in
  ml ← num_key ls (bs "memory.limit");
  let fb := u_config_get_subkey_value ls (bs "file.basename") ≫= u_strdup in
  fl ← num_key ls (bs "file.limit");
  fs ← num_key ls (bs "file.splits");
  let sf := if have_syslog then klog_facility type (u_config_get_subkey_value ls (bs "syslog.facility")) else 0%Z in
  let so := if have_syslog then klog_logopt (u_config_get_subkey_value ls (bs "syslog.options")) else 0%Z in
  klog_args_check (mkKa type ident thr ml fb fs fl so sf).

Variable fopen_ok : nat -> bool.
Variable klf_size : nat.

(** An [int] as a [size_t]. *)
Definition size_of_int (z : Z) : nat := Z.to_nat (w64 z).

Definition klog_open_from_config (ls : ucfg) : prog logs nat := fun g =>
  match klog_args ls with
  | Ok ka =>
      let base := default [] (ka_fbasename ka) in
      let '(d, r) := klog_open fopen_ok klf_size (default (mkDisk ∅ None) (lg_disks g !! base)) (ka_type ka) (ka_threshold ka) (ka_ident ka)
                       (size_of_int (ka_mlimit ka)) (size_of_int (ka_fsplits ka)) (size_of_int (ka_flimit ka)) in
      match r with
      | Ok kl => (mkLogs (lg_open g ++ [kl]) (<[base := d]> (lg_disks g)), Ok (length (lg_open g)))
      | Fail => (mkLogs (lg_open g) (<[base := d]> (lg_disks g)), Fail)
      | Fault => (g, Fault)
      | Timeout => (g, Timeout)
      end
  | Fail => (g, Fail)
  | Fault => (g, Fault)
  | Timeout => (g, Timeout)
  end.

(** ** Virtual hosts: http.c *)

(** The values that the keys of a host have, read while requests are served. *)
Fixpoint nth_values (fuel : nat) (c : ucfg) (key : list byte) (i : nat) : list (option (list byte)) :=
  match fuel with
  | 0 => []
  | S fuel' =>
      match u_config_get_subkey_nth c key i with
      | Some d => u_config_get_value d :: nth_values fuel' c key (S i)
      | None => []
      end
  end.

Definition script_values (c : ucfg) : list (option (list byte)) :=
  match u_config_get_subkey c (bs "cgi") with Some cgi => nth_values (tree_size cgi) cgi (bs "script_alias") 0 | None => [] end.

Definition error_values (c : ucfg) : list (Z * list byte) :=
  omap (fun st => (st,.) <$> u_config_get_subkey_value c (bs "error." ++ fmt_d st)) (seqZ 0 600).

Variable KLONE_VERSION : list byte.

(** A host, where its configuration is (the main one, or that child of it), its access log and
    the section that configures it. *)
Record vhost_conf := mkVc {
  vc_vhost : vhost;
  vc_where : option nat;
  vc_klog : option nat;
  vc_al_config : option ucfg;
  vc_deflate : bool
}.

Definition next_id (vs : list vhost_conf) : nat := match last vs with Some v => S (vh_id (vc_vhost v)) | None => 0 end.

Definition open_access_log (c : ucfg) (vs : list vhost_conf) : prog logs (option nat * option ucfg) :=
  match u_config_get_child c (bs "access_log") with
  | Some child =>
      let! kl := (if match u_config_get_value child with None => true | Some v => negb (strcaseeq v (bs "no")) end
                  then let! i := klog_open_from_config child in pret (Some i)
                  else pret None) in
      pret (kl, Some child)
  | None => pret (match head vs with Some top => (vc_klog top, vc_al_config top) | None => (None, None) end)
  end.

Definition http_add_vhost (vs : list vhost_conf) (host : list byte) (wh : option nat) (c : ucfg) : prog logs (list vhost_conf) :=
  let! '(kl, al) := open_access_log c vs in
  let! deflate := plift (of_option (u_config_get_subkey_value_b c (bs "send_enc_deflate") false)) in
  let sig := default (bs "klone/" ++ KLONE_VERSION) (u_config_get_subkey_value c (bs "server_sig")) in
  match u_config_get_subkey_value c (bs "dir_root") with
  | None => pfail
  | Some root =>
      let v := mkVhost host (next_id vs) root sig
                 (nth_values (tree_size c) c (bs "dir_alias") 0) (script_values c)
                 (u_config_get_subkey_value c (bs "index")) (error_values c) in
      pret (vs ++ [mkVc v wh kl al deflate])
  end.

Definition dont_inherit : list (list byte) :=
  [bs "addr"; bs "model"; bs "type"; bs "dir_root"; bs "dir_alias"; bs "script_alias"; bs "access_log"].

(** [config_inherit]: the children of [from], from the [n]-th, are added to [dst]. *)
Fixpoint inherit_loop (fuel : nat) (dst from : ucfg) (n : nat) : res ucfg :=
  match fuel with
  | 0 => Timeout
  | S fuel' =>
      match u_config_get_child_n from None n with
      | None => Ok dst
      | Some config =>
          if u_config_get_child config (bs "dir_root") then inherit_loop fuel' dst from (S n) else
          let key := u_config_get_key config in
          if existsb (fun di => strcaseeq di key) dont_inherit then inherit_loop fuel' dst from (S n) else
          match u_config_add_child dst key with
          | None => Fail
          | Some (dst1, i) =>
              child ← (match kids dst1 !! i with Some child => Ok child | None => Fault end);
              child1 ← of_option (u_config_set_value child (u_config_get_value config));
              child2 ← inherit_loop fuel' child1 config 0;
              inherit_loop fuel' (put_kid dst1 i child2) from (S n)
          end
      end
  end.

Definition config_inherit (dst from : ucfg) : res ucfg := inherit_loop (S (tree_size from)) dst from 0.

(** The hosts of [config], from its [n]-th child; the tree is changed on the way. *)
Fixpoint vhosts_loop (fuel : nat) (config : ucfg) (vs : list vhost_conf) (n : nat) : prog logs (ucfg * list vhost_conf) :=
  match fuel with
  | 0 => plift Timeout
  | S fuel' =>
      match u_config_get_child_n config None n with
      | None => pret (config, vs)
      | Some c =>
          if u_config_get_child c (bs "dir_root") then
            let! c' := plift (config_inherit c config) in
            let! vs' := http_add_vhost vs (u_config_get_key c') (Some n) c' in
            vhosts_loop fuel' (put_kid config n c') vs' (S n)
          else vhosts_loop fuel' config vs (S n)
      end
  end.

Definition http_set_vhost_list (config : ucfg) : prog logs (ucfg * list vhost_conf) :=
  let! vs := http_add_vhost [] [] None config in
  vhosts_loop (S (length (kids config))) config vs 0.

(** The configuration of a host in the tree. *)
Definition config_of (config : ucfg) (v : vhost_conf) : option ucfg :=
  match vc_where v with None => Some config | Some n => kids config !! n end.

(** ** Requests *)

Definition REQUEST_DEFAULT_IDLE_TIMEOUT : Z := 10.
Definition REQUEST_DEFAULT_POST_TIMEOUT : Z := 600.
Definition REQUEST_DEFAULT_POST_MAXSIZE : Z := 5120000.

Record rq_limits := mkLim { idle_timeout : Z; post_timeout : Z; lim_post_maxsize : Z; temp_dir : option (list byte) }.

Definition num_at_least (c : ucfg) (key : list byte) (least def : Z) : res Z :=
  match u_config_get_subkey_value c key with None => Ok def | Some v => n ← atoi v; Ok (Z.max least n) end.

Definition load_limits (c : ucfg) : res rq_limits :=
  i ← num_at_least c (bs "idle_timeout") 1 REQUEST_DEFAULT_IDLE_TIMEOUT;
  t ← num_at_least c (bs "post_timeout") 5 REQUEST_DEFAULT_POST_TIMEOUT;
  m ← num_at_least c (bs "post_maxsize") 1024 REQUEST_DEFAULT_POST_MAXSIZE;
  Ok (mkLim i t m (u_config_get_subkey_value c (bs "temp_dir"))).

(** The host of a request: by the cached one, its Host field, or the first. *)
Definition request_load_config {D C : Type} (h : http D C) (config : ucfg) (vs : list vhost_conf) (cached : option vhost) (hd : header) : res rq_limits :=
  v ← http_get_vhost h cached hd;
  v ← of_option v;
  vc ← of_option (find (fun vc => bool_decide (vh_id (vc_vhost vc) = vh_id v)) vs);
  c ← of_option (config_of config vc);
  load_limits c.

(** [request_create], from the configuration on: the header of the new request is empty. *)
Definition request_create_limits {D C : Type} (h : http D C) (config : ucfg) (vs : list vhost_conf) : res rq_limits :=
  request_load_config h config vs None header_create.

(** ** Sessions *)

Inductive hash_fun := NoHash | Hash_md5 | Hash_sha1 | Hash_ripemd160.
Inductive session_type := SESSION_TYPE_FILE | SESSION_TYPE_MEMORY | SESSION_TYPE_CLIENT.

Record session_conf := mkSc {
  sn_type : session_type;
  sn_max_age : Z;
  sn_compress : bool;
  sn_encrypt : bool;
  sn_name : list byte;
  sn_path : list byte;
  sn_max_count : Z;
  sn_mem_limit : Z;
  sn_keys : bool;                         (* the cipher and its keys are set up *)
  sn_hash : hash_fun                      (* of the code of client-side sessions *)
}.

Definition set_sn_path (s : session_conf) v := let 'mkSc a b c d e _ g h i j := s in mkSc a b c d e v g h i j.
Definition set_sn_limits (s : session_conf) n m := let 'mkSc a b c d e f _ _ i j := s in mkSc a b c d e f n m i j.
Definition set_sn_hash (s : session_conf) v := let 'mkSc a b c _ e f g h i _ := s in mkSc a b c true e f g h i v.

Definition DEFAULT_SESSION_EXPIRATION : Z := 1200.
Definition SID_NAME : list byte := bs "klone_sid".
Definition SID_BUFSZ : nat := 128.

(** The build has zlib, has OpenSSL; random bytes can be had. *)
Variables have_libz ssl_on rand_ok : bool.
Variable U_FILENAME_MAX : nat.

Definition session_type_of (v : option (list byte)) : res session_type :=
  match v with
  | None => Ok SESSION_TYPE_FILE
  | Some v =>
      if strcaseeq v (bs "memory") then Ok SESSION_TYPE_MEMORY
      else if strcaseeq v (bs "file") then Ok SESSION_TYPE_FILE
      else if ssl_on && strcaseeq v (bs "client") then Ok SESSION_TYPE_CLIENT
      else Fail
  end.

(** Minutes to seconds, in an [int]. *)
Definition max_age_of (v : option (list byte)) : res Z :=
  match v with
  | None => Ok DEFAULT_SESSION_EXPIRATION
  | Some v =>
      iv ← of_option (u_atoi v);
      if decide (- 2 ^ 31 <= iv * 60 < 2 ^ 31)%Z then Ok (Z.max (iv * 60) 60) else Fault
  end.

Definition session_section (c : ucfg) : res session_conf :=
  ty ← session_type_of (u_config_get_subkey_value c (bs "type"));
  age ← max_age_of (u_config_get_subkey_value c (bs "max_age"));
  comp ← of_option (u_config_get_subkey_value_b c (bs "compress") false);
  enc ← of_option (u_config_get_subkey_value_b c (bs "encrypt") false);
  name ← (match u_config_get_subkey_value c (bs "sid_name") with
          | None => Ok SID_NAME
          | Some v => let '(n, trunc) := u_strlcpy v SID_BUFSZ in if trunc : bool then Fail else Ok n
          end);
  if comp && negb have_libz then Fail else
  if enc && negb ssl_on then Fail else
  if ssl_on && negb rand_ok then Fail else
  Ok (mkSc ty age comp enc name [] 0 0 ssl_on NoHash).

Definition session_file_module_init (c : option ucfg) (so : session_conf) : res session_conf :=
  match (c ≫= fun c => u_config_get_subkey_value c (bs "file.path")) with
  | Some v => Ok (set_sn_path so (u_strlcpy v U_FILENAME_MAX).1)
  | None => Ok (set_sn_path so (u_strlcpy (bs "/tmp") U_FILENAME_MAX).1)
  end.

(** A [size_t] from a number of the configuration. *)
Definition limit_key (c : ucfg) (key : list byte) : res Z :=
  match u_config_get_subkey_value c key with None => Ok 0%Z | Some v => n ← atoi v; Ok (w64 n) end.

Definition session_mem_module_init (c : option ucfg) (so : session_conf) : res session_conf :=
  match (c ≫= fun c => u_config_get_subkey c (bs "memory")) with
  | Some c =>
      n ← limit_key c (bs "max_count");
      m ← limit_key c (bs "limit");
      Ok (set_sn_limits so n m)
  | None => Ok (set_sn_limits so 0 0)
  end.

Definition hash_of (v : option (list byte)) : res hash_fun :=
  match v with
  | None => Ok Hash_sha1
  | Some v =>
      if strcaseeq v (bs "md5") then Ok Hash_md5
      else if strcaseeq v (bs "sha1") then Ok Hash_sha1
      else if strcaseeq v (bs "ripemd160") then Ok Hash_ripemd160
      else Fail
  end.

(** Encryption is always on; [set_sn_hash] turns it on. *)
Definition session_client_module_init (c : option ucfg) (so : session_conf) : res session_conf :=
  h ← hash_of (c1 ← c; c2 ← u_config_get_subkey c1 (bs "client"); u_config_get_subkey_value c2 (bs "hash_function"));
  if rand_ok then Ok (set_sn_hash so h) else Fail.

Definition session_module_init (config : ucfg) : res session_conf :=
  let c := u_config_get_subkey config (bs "session") in
  so ← (match c with
        | Some c => session_section c
        | None => Ok (mkSc SESSION_TYPE_FILE DEFAULT_SESSION_EXPIRATION false false SID_NAME [] 0 0 false NoHash)
        end);
  match sn_type so with
  | SESSION_TYPE_MEMORY => session_mem_module_init c so
  | SESSION_TYPE_FILE => session_file_module_init c so
  | SESSION_TYPE_CLIENT => session_client_module_init c so
  end.
End config.

(** ** What is inherited *)

Definition listed (k : list byte) : bool := existsb (fun di => strcaseeq di k) dont_inherit.
Definition has_root (c : ucfg) : bool := match child_named (bs "dir_root") (kids c) with Some _ => true | None => false end.

(** The copy of a section: without hosts and listed keys, at every depth. *)
Fixpoint copy (c : ucfg) : option ucfg :=
  let 'UCfg k v cs := c in
  if child_named (bs "dir_root") cs then None
  else if listed k then None
  else Some (UCfg k v (omap copy cs)).

(** A host with what it inherits. *)
Definition extend (main c : ucfg) : ucfg := UCfg (u_config_get_key c) (u_config_get_value c) (kids c ++ omap copy (kids main)).
Definition extended (main c : ucfg) : ucfg := if has_root c then extend main c else c.

(** A setting of a host: its own, or that of the main server. *)
Definition inheritable (c : ucfg) : bool := negb (has_root c) && negb (listed (u_config_get_key c)).
Definition setting (main c : ucfg) (k : list byte) : option (list byte) :=
  match child_named k (kids c) with
  | Some d => u_config_get_value d
  | None => child_named k (filter inheritable (kids main)) ≫= u_config_get_value
  end.

Lemma copy_spec (c : ucfg) : copy c = if inheritable c then Some (UCfg (u_config_get_key c) (u_config_get_value c) (omap copy (kids c))) else None.
Proof. destruct c as [k v cs]. unfold inheritable, has_root. simpl. destruct (child_named _ _); [done|]. by destruct (listed k). Qed.

Lemma child_named_app (k : list byte) (l l' : list ucfg) :
  child_named k (l ++ l') = match child_named k l with Some c => Some c | None => child_named k l' end.
Proof. induction l as [|c l IH]; simpl; [done|]. by destruct (strcaseeq _ _). Qed.

Lemma omap_copy_cons (c : ucfg) (l : list ucfg) :
  omap copy (c :: l) = (if inheritable c then [UCfg (u_config_get_key c) (u_config_get_value c) (omap copy (kids c))] else []) ++ omap copy l.
Proof.
  change (omap copy (c :: l)) with (match copy c with Some d => d :: omap copy l | None => omap copy l end).
  rewrite copy_spec. by destruct (inheritable c).
Qed.

Lemma child_named_copy (k : list byte) (l : list ucfg) :
  child_named k (omap copy l) ≫= u_config_get_value = child_named k (filter inheritable l) ≫= u_config_get_value.
Proof.
  induction l as [|c l IH]; [done|]. rewrite filter_cons, omap_copy_cons.
  destruct (inheritable c) eqn:I; [rewrite decide_True by done|by rewrite decide_False by (intros [])].
  simpl. by destruct (strcaseeq _ _).
Qed.

Lemma extend_child (main c : ucfg) (k : list byte) :
  child_named k (kids (extend main c)) ≫= u_config_get_value = setting main c k.
Proof.
  unfold extend, setting. simpl. rewrite child_named_app. destruct (child_named k (kids c)); [done|].
  apply child_named_copy.
Qed.

Lemma extend_has_root (main c : ucfg) : has_root c = true -> has_root (extend main c) = true.
Proof. unfold has_root, extend. simpl. rewrite child_named_app. by destruct (child_named _ (kids c)). Qed.

Lemma copy_extended (main c : ucfg) : copy (extended main c) = copy c.
Proof.
  unfold extended. destruct (has_root c) eqn:H; [|done].
  rewrite !copy_spec. unfold inheritable. by rewrite extend_has_root, H.
Qed.

Ltac no_dots := unfold no_dot; apply (bool_decide_unpack _); vm_compute; exact I.

Section config_proofs.
Context {L : Libu} {U : UConfig} {US : UConfigSpec U} {UM : UConfigMem U}.
Notation sizes l := (list_sum (map tree_size l)).

(** Going through a tree ends, and leaves the copies of its children at the end. *)
Lemma inherit_loop_spec (fuel : nat) : forall dst from n,
  sizes (drop n (kids from)) < fuel ->
  inherit_loop fuel dst from n = Ok (UCfg (u_config_get_key dst) (u_config_get_value dst) (kids dst ++ omap copy (drop n (kids from)))).
Proof.
  induction fuel as [|fuel IH]; intros dst from n Hf; [lia|]. cbn [inherit_loop]. rewrite get_child_n_spec.
  destruct (kids from !! n) as [c|] eqn:E.
  2: { rewrite drop_ge by (by apply lookup_ge_None). simpl. rewrite app_nil_r. by destruct dst. }
  rewrite (drop_S _ c n E) in Hf |- *. simpl in Hf. rewrite get_child_spec, omap_copy_cons. unfold inheritable, has_root.
  destruct (child_named _ (kids c)) as [|] eqn:R; cbn [negb andb app]; [rewrite IH by (destruct c; simpl in *; lia); reflexivity|].
  change (existsb _ dont_inherit) with (listed (u_config_get_key c)). destruct (listed _); cbn [negb andb app]; [rewrite IH by (destruct c; simpl in *; lia); reflexivity|].
  destruct (add_child_ok dst (u_config_get_key c)) as [[dst1 i] A]. rewrite A. apply add_child_spec in A as [-> ->].
  cbn [kids]. rewrite list_lookup_middle by done. simpl.
  destruct (set_value_ok (UCfg (u_config_get_key c) None []) (u_config_get_value c)) as [child1 S]. rewrite S.
  apply set_value_spec in S as ->. simpl. rewrite IH by (rewrite drop_0; destruct c; simpl in *; lia). simpl.
  rewrite IH by (destruct c; simpl in *; lia). unfold put_kid. simpl. f_equal. f_equal.
  rewrite (insert_app_r_alt _ _ (length (kids dst)) _) by done. rewrite Nat.sub_diag, drop_0. simpl. by rewrite <-(assoc_L (++)).
Qed.

Lemma config_inherit_spec (dst from : ucfg) : config_inherit dst from = Ok (extend from dst).
Proof.
  unfold config_inherit. rewrite inherit_loop_spec; [by rewrite drop_0|]. rewrite drop_0. destruct from. simpl. lia.
Qed.

Lemma subkey_value (c : ucfg) (k : list byte) :
  no_dot k -> u_config_get_subkey_value c k = child_named k (kids c) ≫= u_config_get_value.
Proof. intros Hk. by rewrite get_subkey_value_spec, get_subkey_spec. Qed.

Lemma subkey_extend (main c : ucfg) (k : list byte) :
  no_dot k -> u_config_get_subkey_value (extend main c) k = setting main c k.
Proof. intros Hk. by rewrite subkey_value, extend_child. Qed.

Lemma omap_copy_extended (main : ucfg) (l : list ucfg) : omap copy (map (extended main) l) = omap copy l.
Proof.
  induction l as [|c l IH]; [done|].
  change (omap copy (map (extended main) (c :: l))) with
    (match copy (extended main c) with Some d => d :: omap copy (map (extended main) l) | None => omap copy (map (extended main) l) end).
  rewrite copy_extended, IH. done.
Qed.

Variables (have_syslog : bool) (fopen_ok : nat -> bool) (klf_size : nat) (KLONE_VERSION : list byte).
Abbreviation add_vhost := (http_add_vhost have_syslog fopen_ok klf_size KLONE_VERSION).
Abbreviation vhosts := (vhosts_loop have_syslog fopen_ok klf_size KLONE_VERSION).
Abbreviation default_sig := (bs "klone/" ++ KLONE_VERSION).

(** What [http_add_vhost] makes of a configuration. *)
Record host_of (vs : list vhost_conf) (host : list byte) (wh : option nat) (c : ucfg) (v : vhost_conf) : Prop := {
  ho_host : vh_host (vc_vhost v) = host;
  ho_id : vh_id (vc_vhost v) = next_id vs;
  ho_where : vc_where v = wh;
  ho_root : u_config_get_subkey_value c (bs "dir_root") = Some (vh_dir_root (vc_vhost v));
  ho_index : vh_index (vc_vhost v) = u_config_get_subkey_value c (bs "index");
  ho_sig : vh_server_sig (vc_vhost v) = default default_sig (u_config_get_subkey_value c (bs "server_sig"));
  ho_log : match child_named (bs "access_log") (kids c), head vs with
           | Some a, _ => vc_al_config v = Some a
           | None, Some top => vc_al_config v = vc_al_config top /\ vc_klog v = vc_klog top
           | None, None => vc_al_config v = None /\ vc_klog v = None
           end
}.

Lemma open_access_log_inv (c : ucfg) (vs : list vhost_conf) (g g' : logs) kl al :
  open_access_log have_syslog fopen_ok klf_size c vs g = (g', Ok (kl, al)) ->
  match child_named (bs "access_log") (kids c), head vs with
  | Some a, _ => al = Some a
  | None, Some top => al = vc_al_config top /\ kl = vc_klog top
  | None, None => al = None /\ kl = None
  end.
Proof using US.
  unfold open_access_log. rewrite get_child_spec. destruct (child_named _ _) as [a|].
  - intros (g1 & k & _ & [= _ _ <-])%pbind_inv. done.
  - intros [= _ H]. destruct (head vs); by simplify_eq.
Qed.

Lemma http_add_vhost_inv (vs vs' : list vhost_conf) (host : list byte) (wh : option nat) (c : ucfg) (g g' : logs) :
  add_vhost vs host wh c g = (g', Ok vs') -> exists v, vs' = vs ++ [v] /\ host_of vs host wh c v.
Proof using US.
  unfold http_add_vhost.
  intros (g1 & [kl al] & E1%open_access_log_inv & (g2 & dfl & E2 & E3)%pbind_inv)%pbind_inv.
  destruct (u_config_get_subkey_value c (bs "dir_root")) as [root|] eqn:R; [|done].
  injection E3 as _ <-. eexists. split; [done|]. by constructor.
Qed.

(** The hosts of the configuration, with their positions. *)
Fixpoint hosts (n : nat) (l : list ucfg) : list (nat * ucfg) :=
  match l with
  | [] => []
  | c :: l' => if has_root c then (n, c) :: hosts (S n) l' else hosts (S n) l'
  end.

(** A host has the settings of its section, and for the others those of the main server. *)
Record configured (main : ucfg) (top : vhost_conf) (n : nat) (c : ucfg) (v : vhost_conf) : Prop := {
  cf_host : vh_host (vc_vhost v) = u_config_get_key c;
  cf_where : vc_where v = Some n;
  cf_root : u_config_get_subkey_value c (bs "dir_root") = Some (vh_dir_root (vc_vhost v));
  cf_index : vh_index (vc_vhost v) = setting main c (bs "index");
  cf_sig : vh_server_sig (vc_vhost v) = default default_sig (setting main c (bs "server_sig"));
  cf_log : match child_named (bs "access_log") (kids c) with
           | Some a => vc_al_config v = Some a
           | None => vc_al_config v = vc_al_config top /\ vc_klog v = vc_klog top
           end
}.

Lemma child_named_listed (k : list byte) (l : list ucfg) :
  listed k = true -> child_named k (omap copy l) = None.
Proof.
  intros Hk. induction l as [|c l IH]; [done|]. rewrite omap_copy_cons. unfold inheritable.
  destruct (has_root c); [done|]. destruct (listed (u_config_get_key c)) eqn:Hc; [done|]. simpl.
  destruct (strcaseeq (u_config_get_key c) k) eqn:E; [|done]. exfalso. apply not_true_iff_false in Hc. apply Hc.
  unfold listed in *. apply existsb_exists in Hk as (d & Hd & Hdk). apply existsb_exists. exists d. split; [done|].
  eapply strcaseeq_trans; [exact Hdk|]. by rewrite strcaseeq_sym.
Qed.

Lemma host_of_configured (main c : ucfg) (vs : list vhost_conf) (top v : vhost_conf) (n : nat) :
  has_root c = true -> head vs = Some top -> host_of vs (u_config_get_key (extend main c)) (Some n) (extend main c) v -> configured main top n c v.
Proof using US.
  intros Hr Ht [H1 _ H3 H4 H5 H6 H7]. rewrite subkey_extend in H5, H6 by no_dots.
  rewrite subkey_extend in H4 by no_dots. split; try done.
  - rewrite subkey_value by no_dots. unfold setting in H4. unfold has_root in Hr.
    by destruct (child_named _ (kids c)).
  - unfold extend in H7. cbn [kids] in H7. rewrite child_named_app, Ht in H7.
    destruct (child_named _ (kids c)); [done|]. by rewrite child_named_listed in H7.
Qed.

Definition ids_ok (vs : list vhost_conf) : Prop := map (fun v => vh_id (vc_vhost v)) vs = seq 0 (length vs).

Lemma ids_next (vs : list vhost_conf) : ids_ok vs -> next_id vs = length vs.
Proof.
  unfold ids_ok, next_id. destruct vs as [|v vs' _] using rev_ind; [done|]. rewrite map_app, length_app, last_snoc. simpl.
  rewrite Nat.add_1_r, seq_S. intros [_ [= ->]]%app_inj_tail. simpl. lia.
Qed.

Lemma ids_snoc (vs : list vhost_conf) (v : vhost_conf) : ids_ok vs -> vh_id (vc_vhost v) = next_id vs -> ids_ok (vs ++ [v]).
Proof.
  intros H Hv. rewrite ids_next in Hv by done. unfold ids_ok in *. rewrite map_app, H, length_app, Nat.add_1_r, seq_S. simpl. by rewrite Hv.
Qed.

(** The tree on the way: the children up to the [n]-th have what they inherit. *)
Definition on_the_way (main : ucfg) (n : nat) : ucfg :=
  UCfg (u_config_get_key main) (u_config_get_value main) (map (extended main) (take n (kids main)) ++ drop n (kids main)).

Lemma extend_on_the_way (main c : ucfg) (n : nat) : extend (on_the_way main n) c = extend main c.
Proof. unfold extend, on_the_way. cbn [kids]. by rewrite omap_app, omap_copy_extended, <-omap_app, take_drop. Qed.

Lemma on_the_way_S (main c c' : ucfg) (n : nat) :
  kids main !! n = Some c -> c' = extended main c -> put_kid (on_the_way main n) n c' = on_the_way main (S n).
Proof.
  intros Hc ->. unfold put_kid, on_the_way. cbn [kids u_config_get_key u_config_get_value]. f_equal.
  rewrite (take_S_r _ _ c Hc), map_app, <-(assoc_L (++)), (drop_S _ c n Hc). pose proof (lookup_lt_Some _ _ _ Hc).
  rewrite (insert_app_r_alt _ _ n _) by (rewrite length_map, length_take; lia).
  replace (n - length (map (extended main) (take n (kids main)))) with 0 by (rewrite length_map, length_take; lia). done.
Qed.

Lemma lookup_on_the_way (main : ucfg) (n : nat) : kids (on_the_way main n) !! n = kids main !! n.
Proof.
  unfold on_the_way. cbn [kids]. destruct (decide (n < length (kids main))).
  - rewrite lookup_app_r by (rewrite length_map, length_take; lia). rewrite length_map, length_take, lookup_drop. f_equal. lia.
  - rewrite !lookup_ge_None_2; [done|lia|rewrite length_app, length_map, length_take, length_drop; lia].
Qed.

Lemma on_the_way_same (main c : ucfg) (n : nat) :
  kids main !! n = Some c -> has_root c = false -> on_the_way main n = on_the_way main (S n).
Proof.
  intros Hc Hr. rewrite <-(on_the_way_S main c c) by (done || unfold extended; by rewrite Hr).
  unfold put_kid, on_the_way. cbn [kids u_config_get_key u_config_get_value]. f_equal.
  rewrite list_insert_id; [done|]. rewrite <-Hc. apply (lookup_on_the_way main n).
Qed.

Lemma vhosts_loop_inv (main : ucfg) (top : vhost_conf) (fuel : nat) : forall n vs g g' config' vs',
  head vs = Some top -> ids_ok vs ->
  vhosts fuel (on_the_way main n) vs n g = (g', Ok (config', vs')) ->
  config' = UCfg (u_config_get_key main) (u_config_get_value main) (map (extended main) (kids main)) /\
  exists new, vs' = vs ++ new /\ ids_ok vs' /\ Forall2 (fun '(m, c) v => configured main top m c v) (hosts n (drop n (kids main))) new.
Proof using US UM.
  induction fuel as [|fuel IH]; intros n vs g g' config' vs' Ht Hi; cbn [vhosts_loop]; [done|].
  rewrite get_child_n_spec, lookup_on_the_way. destruct (kids main !! n) as [c|] eqn:Hc.
  2: { apply lookup_ge_None in Hc. intros [= _ <- <-]. unfold on_the_way. rewrite take_ge, drop_ge, !app_nil_r by done.
    split; [done|]. exists []. by rewrite app_nil_r. }
  rewrite get_child_spec, (drop_S _ c n Hc). cbn [hosts].
  destruct (child_named _ (kids c)) as [r|] eqn:R.
  2: { assert (has_root c = false) as Hr by (unfold has_root; by rewrite R). rewrite Hr, (on_the_way_same main c n) by done. by apply IH. }
  assert (has_root c = true) as Hr by (unfold has_root; by rewrite R). rewrite Hr, config_inherit_spec, extend_on_the_way.
  intros (g1 & c' & [= <- <-] & (g2 & vs1 & (v & -> & Hv)%http_add_vhost_inv & E)%pbind_inv)%pbind_inv.
  rewrite (on_the_way_S main c) in E by (done || unfold extended; by rewrite Hr).
  apply IH in E as (-> & new & -> & Hids & F); [|by destruct vs|by apply ids_snoc, Hv].
  split; [done|]. exists (v :: new). rewrite <-(assoc_L (++)) in *. split; [done|]. split; [done|]. constructor; [|done].
  by eapply host_of_configured.
Qed.

(** A section that needs no access log and no number: it makes a host. *)
Definition plain_section (c : ucfg) : Prop :=
  is_Some (u_config_get_subkey_value c (bs "dir_root")) /\ child_named (bs "access_log") (kids c) = None /\
  is_Some (u_config_get_subkey_value_b c (bs "send_enc_deflate") false).

Lemma http_add_vhost_ok (vs : list vhost_conf) (host : list byte) (wh : option nat) (c : ucfg) (g : logs) :
  plain_section c -> exists vs', add_vhost vs host wh c g = (g, Ok vs').
Proof using US.
  intros ([root Hr] & Ha & [b Hb]). unfold http_add_vhost, open_access_log, pbind, pret, plift. rewrite get_child_spec, Ha, Hb, Hr.
  destruct (head vs); by eexists.
Qed.

Lemma vhosts_loop_ok (main : ucfg) (fuel : nat) : forall n vs g,
  n <= length (kids main) < n + fuel ->
  (forall c, c ∈ kids main -> has_root c = true -> plain_section (extend main c)) ->
  exists r, vhosts fuel (on_the_way main n) vs n g = (g, Ok r).
Proof using US UM.
  induction fuel as [|fuel IH]; intros n vs g Hf Hp; cbn [vhosts_loop]; [lia|].
  destruct (kids main !! n) as [c|] eqn:Hc; [pose proof (lookup_lt_Some _ _ _ Hc)|].
  2: { rewrite get_child_n_spec, lookup_on_the_way, Hc. by eexists. }
  rewrite get_child_n_spec, lookup_on_the_way, Hc, get_child_spec.
  destruct (child_named _ (kids c)) as [r|] eqn:R.
  - assert (has_root c = true) as Hr by (unfold has_root; by rewrite R). rewrite config_inherit_spec, extend_on_the_way.
    destruct (http_add_vhost_ok vs (u_config_get_key (extend main c)) (Some n) (extend main c) g) as [vs1 E].
    { apply Hp; [by eapply list_elem_of_lookup_2|done]. }
    unfold pbind at 1, plift at 1. rewrite (pbind_Ok _ _ _ _ _ E), (on_the_way_S main c) by (done || unfold extended; by rewrite Hr).
    apply IH; [lia|done].
  - rewrite (on_the_way_same main c n) by (done || unfold has_root; by rewrite R). apply IH; [lia|done].
Qed.
End config_proofs.

(** ** libu's tree, to evaluate examples *)

Fixpoint subkeys_go (acc : list byte) (c : ucfg) (k : list byte) : list ucfg :=
  match k with
  | [] => filter (fun d => strcaseeq (u_config_get_key d) (rev acc)) (kids c)
  | b :: k' =>
      if decide (b = "."%byte) then
        match child_named (rev acc) (kids c) with Some d => subkeys_go [] d k' | None => [] end
      else subkeys_go (b :: acc) c k'
  end.

Definition bool_of (v : list byte) : option bool :=
  if existsb (strcaseeq v) [bs "yes"; bs "true"; bs "1"; bs "on"] then Some true
  else if existsb (strcaseeq v) [bs "no"; bs "false"; bs "0"; bs "off"] then Some false
  else None.

Definition atoi_ref (s : list byte) : option Z :=
  if forallb isdigit s && negb (bool_decide (s = [])) then
    let v := digits_value 0 s in if decide (v < 2 ^ 31)%Z then Some v else None
  else None.

Definition subkey_ref (c : ucfg) (k : list byte) : option ucfg := head (subkeys_go [] c k).

Definition uconfig_ref : UConfig := {|
  u_config_get_child_n c k n := match k with None => kids c !! n | Some k => filter (fun d => strcaseeq (u_config_get_key d) k) (kids c) !! n end;
  u_config_get_child c k := child_named k (kids c);
  u_config_get_subkey := subkey_ref;
  u_config_get_subkey_nth c k n := subkeys_go [] c k !! n;
  u_config_get_subkey_value c k := subkey_ref c k ≫= u_config_get_value;
  u_config_get_subkey_value_b c k def := match subkey_ref c k ≫= u_config_get_value with None => Some def | Some v => bool_of v end;
  u_config_add_child c k := Some (UCfg (u_config_get_key c) (u_config_get_value c) (kids c ++ [UCfg k None []]), length (kids c));
  u_config_set_value c v := Some (UCfg (u_config_get_key c) v (kids c));
  u_atoi := atoi_ref;
  u_tokenize s d n := let ts := strtok (fun c => bool_decide (c ∈ d)) s in if decide (n <= length ts) then None else Some ts
|}.

Lemma head_filter_named (k : list byte) (l : list ucfg) : head (filter (fun d => strcaseeq (u_config_get_key d) k) l) = child_named k l.
Proof.
  induction l as [|c l IH]; [done|]. rewrite filter_cons. simpl.
  destruct (strcaseeq (u_config_get_key c) k) eqn:E; [by rewrite decide_True by done|by rewrite decide_False by (intros [])].
Qed.

Lemma subkeys_go_app (k k' : list byte) : forall acc c, no_dot k -> subkeys_go acc c (k ++ k') = subkeys_go (rev k ++ acc) c k'.
Proof.
  induction k as [|b k IH]; intros acc c Hk; [done|]. cbn [app subkeys_go rev].
  rewrite decide_False by (intros ->; apply Hk; by left). rewrite IH by (unfold no_dot in *; set_solver).
  by rewrite <-(assoc_L (++)).
Qed.

Lemma digits_value_nonneg (s : list byte) : forall acc, (0 <= acc)%Z -> (0 <= digits_value acc s)%Z.
Proof.
  induction s as [|c s IH]; intros acc Ha; simpl; [done|]. destruct (isdigit c) eqn:E; [|done]. apply IH.
  unfold isdigit, in_range in E. apply andb_true_iff in E as [E1%Z.leb_le _]. change (bz "0"%byte) with 48%Z in E1. lia.
Qed.

#[global] Instance uconfig_ref_spec : UConfigSpec uconfig_ref.
Proof.
  split; try done.
  - intros c k Hk. simpl. unfold subkey_ref. pose proof (subkeys_go_app k [] [] c Hk) as E. rewrite !app_nil_r in E. rewrite E.
    cbn [subkeys_go]. by rewrite rev_involutive, head_filter_named.
  - intros c k k' Hk. simpl. unfold subkey_ref. rewrite subkeys_go_app, app_nil_r by done. cbn [app subkeys_go].
    rewrite decide_True, rev_involutive by done. by destruct (child_named k (kids c)).
  - intros c k def. simpl. by intros ->.
  - simpl. intros c r k i [= <- <-]. done.
  - simpl. intros c r v [= <-]. done.
  - simpl. intros s v. unfold atoi_ref. destruct (forallb _ _ && _); [|done]. destruct (decide _); [|done].
    intros [= <-]. pose proof (digits_value_nonneg s 0). lia.
Qed.

#[global] Instance uconfig_ref_mem : UConfigMem uconfig_ref.
Proof. split; intros; simpl; by eexists. Qed.

(** * Theorems *)

(** C11: The virtual hosts are those of the configuration: the main server first, then every
    section that has a [dir_root], in order and numbered in order.  A host has its own
    settings, and those of the main server for what its section does not say, except the keys
    that are not inherited; its access log is its own or the main one.  The loading changes
    the tree only by adding the inherited sections to the hosts.  It does return when the
    sections have a [dir_root] and no access log to open. *)
Theorem vhosts_configured {L : Libu} {U : UConfig} {US : UConfigSpec U} {UM : UConfigMem U}
    (have_syslog : bool) (fopen_ok : nat -> bool) (klf_size : nat) (KLONE_VERSION : list byte) (main : ucfg) (g : logs) :
  (plain_section main -> (forall c, c ∈ kids main -> has_root c = true -> plain_section (extend main c)) ->
   exists r, http_set_vhost_list have_syslog fopen_ok klf_size KLONE_VERSION main g = (g, Ok r)) /\
  forall g' main' vs,
    http_set_vhost_list have_syslog fopen_ok klf_size KLONE_VERSION main g = (g', Ok (main', vs)) ->
    main' = UCfg (u_config_get_key main) (u_config_get_value main) (map (extended main) (kids main)) /\
    map (fun v => vh_id (vc_vhost v)) vs = seq 0 (length vs) /\
    exists top new, vs = top :: new /\ vc_where top = None /\
      u_config_get_subkey_value main (bs "dir_root") = Some (vh_dir_root (vc_vhost top)) /\
      Forall2 (fun '(n, c) v => configured KLONE_VERSION main top n c v) (hosts 0 (kids main)) new.
Proof.
  assert (main = on_the_way main 0) as E0 by (unfold on_the_way; rewrite drop_0; by destruct main).
  unfold http_set_vhost_list. split.
  - intros Hm Hp. destruct (http_add_vhost_ok have_syslog fopen_ok klf_size KLONE_VERSION [] [] None main g Hm) as [vs E].
    rewrite (pbind_Ok _ _ _ _ _ E). remember (S (length (kids main))) as fuel eqn:Ef. rewrite E0. apply vhosts_loop_ok; [lia|done].
  - intros g' main' vs (g1 & vs1 & (top & -> & Ht)%http_add_vhost_inv & E)%pbind_inv. remember (S (length (kids main))) as fuel. rewrite E0 in E.
    eapply vhosts_loop_inv in E as (-> & new & -> & Hi & F); [|done|].
    2: { apply (ids_snoc []); [done|apply Ht]. }
    split; [done|]. split; [done|]. exists top, new. split; [done|]. split; [apply Ht|]. split; [apply Ht|done].
Qed.

(** The limits of a request are those of the main server, whatever host it turns out to be
    for: they are read before its header. *)
Theorem request_limits_main {L : Libu} {U : UConfig} {D C : Type} (h : http D C) (config : ucfg) (vs : list vhost_conf) (top : vhost_conf) :
  ht_vhosts h = map vc_vhost vs -> head vs = Some top -> vc_where top = None ->
  request_create_limits h config vs = load_limits config.
Proof.
  intros Hv Ht Hw. unfold request_create_limits, request_load_config, http_get_vhost.
  destruct vs as [|v vs]; [done|]. injection Ht as ->. rewrite Hv. cbn -[load_limits].
  rewrite bool_decide_eq_true_2 by done. cbn -[load_limits]. unfold config_of. by rewrite Hw.
Qed.

(** The limits that a configuration can set. *)
Theorem request_limits_least {L : Libu} {U : UConfig} (c : ucfg) (l : rq_limits) :
  load_limits c = Ok l -> (1 <= idle_timeout l /\ 5 <= post_timeout l /\ 1024 <= lim_post_maxsize l)%Z.
Proof.
  assert (forall key least def n, (least <= def)%Z -> num_at_least c key least def = Ok n -> (least <= n)%Z) as N.
  { unfold num_at_least. intros key least def n Hd. destruct (u_config_get_subkey_value c key); [|intros [= <-]; done].
    destruct (atoi _); try done. cbn. intros [= <-]. lia. }
  unfold load_limits. destruct (num_at_least c _ 1 _) as [i| | |] eqn:Ei; try done. cbn [mbind res_bind].
  destruct (num_at_least c _ 5 _) as [t| | |] eqn:Et; try done. cbn [mbind res_bind].
  destruct (num_at_least c _ 1024 _) as [m| | |] eqn:Em; try done. intros [= <-]. cbn.
  apply N in Ei; [|done]. apply N in Et; [|done]. apply N in Em; [|done]. done.
Qed.

(** What a session section can give. *)
Definition section_ok (have_libz ssl_on : bool) (so : session_conf) : Prop :=
  (60 <= sn_max_age so)%Z /\ (sn_compress so = true -> have_libz = true) /\ (sn_encrypt so = true -> ssl_on = true /\ sn_keys so = true) /\
  (sn_type so = SESSION_TYPE_CLIENT -> ssl_on = true /\ sn_keys so = true).

Lemma session_section_ok {L : Libu} {U : UConfig} (have_libz ssl_on rand_ok : bool) (c : ucfg) (so : session_conf) :
  session_section have_libz ssl_on rand_ok c = Ok so -> section_ok have_libz ssl_on so.
Proof.
  unfold session_section, section_ok.
  destruct (session_type_of _ _) as [ty| | |] eqn:Ty; try done. cbn [mbind res_bind].
  destruct (max_age_of _) as [age| | |] eqn:Age; try done. cbn [mbind res_bind].
  destruct (of_option (u_config_get_subkey_value_b c (bs "compress") _)) as [comp| | |]; try done. cbn [mbind res_bind].
  destruct (of_option (u_config_get_subkey_value_b c (bs "encrypt") _)) as [enc| | |]; try done. cbn [mbind res_bind].
  destruct (match u_config_get_subkey_value c (bs "sid_name") with Some _ => _ | None => _ end) as [nm| | |]; try done. cbn [mbind res_bind].
  destruct (comp && negb have_libz) eqn:B1; [done|]. destruct (enc && negb ssl_on) eqn:B2; [done|]. destruct (ssl_on && negb rand_ok); [done|].
  intros [= <-]. cbn. split_and!.
  - clear -Age. unfold max_age_of in Age. destruct (u_config_get_subkey_value c _) as [v|]; [|by injection Age as <-].
    destruct (u_atoi v); [|done]. cbn [of_option mbind res_bind] in Age. destruct (decide _); [|done]. injection Age as <-. lia.
  - intros ->. by destruct have_libz.
  - intros ->. by destruct ssl_on.
  - intros ->. clear -Ty. unfold session_type_of in Ty. destruct (u_config_get_subkey_value c _) as [v|]; [|by injection Ty].
    destruct (strcaseeq v _); [by injection Ty|]. destruct (strcaseeq v _); [by injection Ty|]. by destruct ssl_on.
Qed.

(** The options of sessions that the configuration can give: no compression or encryption
    that the build does not have, and client-side sessions are always encrypted. *)
Theorem session_conf_ok {L : Libu} {U : UConfig} (have_libz ssl_on rand_ok : bool) (U_FILENAME_MAX : nat) (config : ucfg) (so : session_conf) :
  session_module_init have_libz ssl_on rand_ok U_FILENAME_MAX config = Ok so ->
  (60 <= sn_max_age so)%Z /\ (sn_compress so = true -> have_libz = true) /\
  (sn_encrypt so = true -> ssl_on = true /\ sn_keys so = true) /\
  (sn_type so = SESSION_TYPE_CLIENT -> sn_encrypt so = true /\ sn_hash so <> NoHash).
Proof.
  unfold session_module_init. intros E.
  destruct (match u_config_get_subkey config (bs "session") with Some c => session_section have_libz ssl_on rand_ok c | None => _ end) as [s0| | |] eqn:E0; try done.
  cbn [mbind res_bind] in E.
  assert (section_ok have_libz ssl_on s0) as (H1 & H2 & H3 & H4).
  { clear E. destruct (u_config_get_subkey config _) as [c|]; [by eapply session_section_ok|by injection E0 as <-]. }
  destruct (sn_type s0) eqn:Ty.
  - unfold session_file_module_init in E. destruct (mbind _ _) in E; injection E as <-; destruct s0; cbn in *; subst; naive_solver.
  - unfold session_mem_module_init in E. destruct (mbind _ _) in E; [|by injection E as <-; destruct s0; cbn in *; subst; naive_solver].
    destruct (limit_key _ (bs "max_count")) in E; try done. cbn [mbind res_bind] in E.
    destruct (limit_key _ (bs "limit")) in E; try done. injection E as <-; destruct s0; cbn in *; subst; naive_solver.
  - unfold session_client_module_init in E. destruct (hash_of _) as [hf| | |] eqn:Hh in E; try done. cbn [mbind res_bind] in E.
    destruct rand_ok; [|done]. injection E as <-. assert (hf <> NoHash) by (unfold hash_of in Hh; repeat case_match; by simplify_eq).
    destruct s0; cbn in *; subst; naive_solver.
Qed.

(** A description of a log has a device, a level, and what its device needs. *)
Definition klog_args_ok (ka : klog_args_t) : Prop :=
  (KLOG_TYPE_MEM <= ka_type ka <= KLOG_TYPE_SYSLOG)%Z /\ (KLOG_DEBUG <= ka_threshold ka < KLOG_LEVEL_UNKNOWN)%Z /\
  (ka_type ka = KLOG_TYPE_MEM -> ka_mlimit ka <> 0%Z) /\
  (ka_type ka = KLOG_TYPE_FILE -> is_Some (ka_fbasename ka) /\ ka_fsplits ka <> 0%Z /\ ka_flimit ka <> 0%Z) /\
  (ka_type ka = KLOG_TYPE_SYSLOG -> ka_sfacility ka <> KLOG_FACILITY_UNKNOWN).

Lemma threshold_loop_range (t : list byte) (l : list (list byte)) : forall i,
  (0 <= i)%Z -> (i + Z.of_nat (length l) = KLOG_LEVEL_UNKNOWN)%Z -> (0 <= threshold_loop i l t <= KLOG_LEVEL_UNKNOWN)%Z.
Proof.
  induction l as [|x l IH]; intros i Hi Hl; cbn [threshold_loop length] in *; [unfold KLOG_LEVEL_UNKNOWN; lia|].
  destruct (strcaseeq t x); [lia|]. apply IH; lia.
Qed.

Lemma klog_threshold_range (t : option (list byte)) : (0 <= klog_threshold t <= KLOG_LEVEL_UNKNOWN)%Z.
Proof. destruct t as [t|]; [|done]. apply threshold_loop_range; [done|]. by vm_compute. Qed.

Lemma klog_args_check_ok (ka ka' : klog_args_t) :
  (0 <= ka_threshold ka <= KLOG_LEVEL_UNKNOWN)%Z -> klog_args_check ka = Ok ka' -> klog_args_ok ka'.
Proof.
  destruct ka as [ty id thr ml fb fs fl so sf]. unfold klog_args_check, klog_args_ok. cbn [ka_type ka_threshold]. intros Ht.
  assert (KLOG_DEBUG <= (if decide (thr = KLOG_LEVEL_UNKNOWN) then KLOG_DEBUG else thr) < KLOG_LEVEL_UNKNOWN)%Z as H
    by (unfold KLOG_DEBUG, KLOG_LEVEL_UNKNOWN in *; destruct (decide _); lia).
  assert (forall x def : Z, def <> 0%Z -> (if decide (x = 0%Z) then def else x) <> 0%Z) as N by (intros x def Hd; destruct (decide (x = 0%Z)); assumption).
  destruct (decide (ty = KLOG_TYPE_UNKNOWN)); [done|]. destruct (decide (ty = KLOG_TYPE_MEM)) as [->|]; [|destruct (decide (ty = KLOG_TYPE_FILE)) as [->|]; [|destruct (decide (ty = KLOG_TYPE_SYSLOG)) as [->|]; [|done]]].
  - intros [= <-]. cbn [ka_type ka_threshold ka_mlimit]. split; [done|]. split; [exact H|]. split; [intros _; by apply (N _ KLOG_MLIMIT_DFL)|done].
  - destruct fb as [b|]; [|done]. intros [= <-]. split; [done|]. split; [exact H|]. split; [done|]. cbn. split; [|done].
    intros _. split; [done|]. split; [by apply (N _ KLOG_FSPLITS_DFL)|by apply (N _ KLOG_FLIMIT_DFL)].
  - intros [= <-]. split; [done|]. split; [exact H|]. cbn. split; [done|]. split; [done|]. intros _. destruct (decide (sf = KLOG_FACILITY_UNKNOWN)); [done|assumption].
Qed.

Theorem klog_args_valid {L : Libu} {U : UConfig} (have_syslog : bool) (ls : ucfg) (ka : klog_args_t) :
  klog_args have_syslog ls = Ok ka -> klog_args_ok ka.
Proof.
  unfold klog_args.
  destruct (num_key ls (bs "memory.limit")) as [ml| | |]; try done. cbn [mbind res_bind].
  destruct (num_key ls (bs "file.limit")) as [fl| | |]; try done. cbn [mbind res_bind].
  destruct (num_key ls (bs "file.splits")) as [fs| | |]; try done. cbn [mbind res_bind].
  apply klog_args_check_ok, klog_threshold_range.
Qed.

(** ** Examples *)

Definition kv (k v : list byte) : ucfg := UCfg k (Some v) [].

Definition www_config : ucfg := UCfg (bs "www") None [
  kv (bs "type") (bs "http"); kv (bs "addr") (bs "tcp4://*:80"); kv (bs "dir_root") (bs "/www"); kv (bs "index") (bs "home.kl1");
  kv (bs "server_sig") (bs "main"); kv (bs "idle_timeout") (bs "30");
  UCfg (bs "log") None [kv (bs "type") (bs "memory"); kv (bs "ident") (bs "www")];
  UCfg (bs "doc.org") None [kv (bs "dir_root") (bs "/doc"); kv (bs "server_sig") (bs "doc"); kv (bs "post_maxsize") (bs "2048"); kv (bs "idle_timeout") (bs "3")];
  UCfg (bs "img.org") None [kv (bs "dir_root") (bs "/img")]].

Definition no_logs : logs := mkLogs [] ∅.
Definition www_hosts := http_set_vhost_list (L := libu_ref) (U := uconfig_ref) false (fun _ => true) 100 (bs "3.0") www_config no_logs.

Definition host_view (v : vhost_conf) := (vh_host (vc_vhost v), vh_dir_root (vc_vhost v), vh_index (vc_vhost v), vh_server_sig (vc_vhost v)).

Lemma vhosts_configured_witness :
  exists main' vs, www_hosts = (no_logs, Ok (main', vs)) /\
    map host_view vs = [([], bs "/www", Some (bs "home.kl1"), bs "main"); (bs "doc.org", bs "/doc", Some (bs "home.kl1"), bs "doc");
                        (bs "img.org", bs "/img", Some (bs "home.kl1"), bs "main")] /\
    length (hosts 0 (kids www_config)) = 2 /\ map (fun v => vh_id (vc_vhost v)) vs = seq 0 (length vs).
Proof.
  pose proof (vhosts_configured (L := libu_ref) (U := uconfig_ref) false (fun _ => true) 100 (bs "3.0") www_config no_logs) as [H1 H2].
  destruct H1 as [[main' vs] E].
  - split; [by eexists|]. split; [by vm_compute|]. by eexists.
  - intros c Hc Hr. unfold www_config in Hc. cbn [kids] in Hc.
    repeat (apply elem_of_cons in Hc as [->|Hc]; [first [discriminate Hr|split; [by eexists|split; [by vm_compute|by eexists]]]|]).
    by apply elem_of_nil in Hc.
  - exists main', vs. split; [exact E|]. destruct (H2 no_logs main' vs E) as (_ & Hids & _).
    assert (www_hosts.2 = Ok (main', vs)) as E2 by (unfold www_hosts; by rewrite E).
    assert (match www_hosts.2 with Ok r => map host_view r.2 | _ => [] end = map host_view vs) as <- by (by rewrite E2).
    split; [by vm_compute|]. split; [by vm_compute|exact Hids].
Defined.

(** The inherited copy of the log section has lost its type: it cannot be opened. *)
Example log_section_broken :
  let main' := match www_hosts.2 with Ok r => r.1 | _ => www_config end in
  let log_of c := c ≫= fun c => u_config_get_child (UConfig := uconfig_ref) c (bs "log") in
  (klog_args (L := libu_ref) (U := uconfig_ref) false <$> log_of (Some www_config)) = Some (Ok (mkKa 1 (Some (bs "www")) 0 250 None 0 0 0 0)) /\
  (klog_args (L := libu_ref) (U := uconfig_ref) false <$> log_of (kids main' !! 7)) = Some Fail.
Proof. by vm_compute. Qed.

(** The limits of doc.org are never used. *)
Example host_limits_ignored :
  let r := match www_hosts.2 with Ok r => r | _ => (www_config, []) end in
  let h := mkHttp (D := unit) (C := unit) [] (map vc_vhost r.2) [] in
  request_create_limits (L := libu_ref) (U := uconfig_ref) h r.1 r.2 = Ok (mkLim 30 600 5120000 None) /\
  (c ← of_option (kids r.1 !! 7); load_limits (U := uconfig_ref) c) = Ok (mkLim 3 600 2048 None).
Proof. by vm_compute. Qed.

(** A section with a huge age overflows an [int]; without a section, the keys of a build with
    OpenSSL are not set up. *)
Definition ses_config (l : list ucfg) : ucfg := UCfg (bs "www") None [UCfg (bs "session") None l].
Definition init_ref := session_module_init (L := libu_ref) (U := uconfig_ref) true true true 1024.

Example session_max_age_overflow : init_ref (ses_config [kv (bs "max_age") (bs "40000000")]) = Fault.
Proof. by vm_compute. Qed.

Example session_no_section :
  init_ref (UCfg (bs "www") None []) = Ok (mkSc SESSION_TYPE_FILE 1200 false false SID_NAME (bs "/tmp") 0 0 false NoHash) /\
  init_ref (ses_config []) = Ok (mkSc SESSION_TYPE_FILE 1200 false false SID_NAME (bs "/tmp") 0 0 true NoHash).
Proof. by vm_compute. Qed.
