(* ===== verification/Access.v ===== *)
(** The access log: src/src/libhttp/access.c.  A line for each request that the configuration
    selects, logged by the parent or sent to it by a child.

    [fnmatch], the local time and its offset are parameters, as is the size of a log line,
    a constant of libu.  The context of the caller is its log, the files of the log, the time
    and the channel to the parent. *)

From stdpp Require Import gmap.
From S2P Require Import Prelude Libu Encode Path Date Addr Io IoSpec IoMem Getline Header Vars Request Response Session Files Http Klog Config Ppc Server PpcLog.

Definition value_or_dash (v : option (list byte)) : list byte :=
  match v with Some (c :: v') => c :: v' | _ => bs "-" end.

(** The offset from Greenwich in seconds, as hours and minutes. *)
Definition get_timezone (have_gmtoff : bool) (off : Z) : Z :=
  if have_gmtoff then
    let sign := (if decide (0 < off) then 1 else -1)%Z in
    let h := (Z.abs off / 3600)%Z in
    let m := ((h mod 3600) / 60)%Z in
    (sign * (h * 100 + m))%Z
  else 0%Z.

Definition default_prefix : list byte := bs "[access]".
Definition FNM_NOMATCH : Z := 1.

Definition fmt_4d (v : Z) : list byte := let s := fmt_d v in replicate (4 - length s) " "%byte ++ s.

Record actx := mkAx { ax_disk : disk; ax_klog : option klog; ax_now : Z; ax_chan : chan }.

Section access.
Context {L : Libu} {U : UConfig}.
Variable fnmatch : list byte -> list byte -> Z.
Variable localtime : Z -> tm * Z.         (* and the offset *)
Variables (have_gmtoff : bool) (LOGSZ : nat).
Variables (ctime : Z -> list byte) (fopen_ok : nat -> bool).

(** Does one of the "log" keys match? *)
Fixpoint log_loop (fuel : nat) (config : ucfg) (fn : list byte) (n : nat) : bool :=
  match fuel with
  | 0 => false
  | S fuel' =>
      match u_config_get_child_n config (Some (bs "log")) n with
      | None => false
      | Some sub =>
          match u_config_get_value sub with
          | None => log_loop fuel' config fn (S n)
          | Some value => if decide (fnmatch value fn = 0%Z) then true else log_loop fuel' config fn (S n)
          end
      end
  end.

(** Does one of the "dontlog" keys match, or fail? *)
Fixpoint dontlog_loop (fuel : nat) (config : ucfg) (fn : list byte) (n : nat) : bool :=
  match fuel with
  | 0 => false
  | S fuel' =>
      match u_config_get_child_n config (Some (bs "dontlog")) n with
      | None => false
      | Some sub =>
          match u_config_get_value sub with
          | None => dontlog_loop fuel' config fn (S n)
          | Some value => if decide (fnmatch value fn = FNM_NOMATCH) then dontlog_loop fuel' config fn (S n) else true
          end
      end
  end.

Definition selected (config : ucfg) (fn : list byte) : bool :=
  let fuel := S (length (kids config)) in
  match u_config_get_child_n config (Some (bs "log")) 0 with Some _ => log_loop fuel config fn 0 | None => true end &&
  negb (dontlog_loop fuel config fn 0).

Definition log_prefix (config : ucfg) : list byte := default default_prefix (u_config_get_child config (bs "prefix") ≫= u_config_get_value).

Definition log_date (now : Z) : list byte :=
  let '(t, off) := localtime now in
  bs "[" ++ fmt_02u (tm_mday t) ++ bs "/" ++ nth (Z.to_nat (tm_mon t)) months [] ++ bs "/" ++ fmt_4d (tm_year t + 1900) ++ bs ":" ++
  fmt_02u (tm_hour t) ++ bs ":" ++ fmt_02u (tm_min t) ++ bs ":" ++ fmt_02u (tm_sec t) ++ bs " " ++ fmt_d (get_timezone have_gmtoff off) ++ bs "]".

Definition quoted (s : list byte) : list byte := [x22] ++ s ++ [x22].

Definition access_text (config : ucfg) (now : Z) (addr cli len referer agent : option (list byte)) (status : Z) : list byte :=
  log_prefix config ++ bs " " ++ value_or_dash (addr ≫= fun a => u_addr_get_ip a 128) ++ bs " - - " ++ log_date now ++ bs " " ++
  quoted (value_or_dash cli) ++ bs " " ++ fmt_d status ++ bs " " ++ value_or_dash len ++ bs " " ++
  quoted (value_or_dash referer) ++ bs " " ++ quoted (value_or_dash agent) ++ bs " " ++ quoted (bs "-").

Definition log_here (buf : list byte) : prog actx unit := fun c =>
  match ax_klog c with
  | Some kl =>
      let '(d, kl', r) := klog_log ctime fopen_ok (ax_disk c) kl KLOG_INFO (ax_now c) buf in
      (mkAx d (Some kl') (ax_now c) (ax_chan c), r)
  | None => (c, Ok tt)
  end.

Definition send_parent (bid vid : Z) (buf : list byte) : prog actx unit := fun c =>
  let '(ch, r) := server_ppc_cmd_access_log LOGSZ bid vid buf (ax_chan c) in
  (mkAx (ax_disk c) (ax_klog c) (ax_now c) ch, r).

(** [vid] is the number of the virtual host, [bid] that of the back end of a child. *)
Definition access_log {D C : Type} (config : ucfg) (bid : option Z) (vid : Z) (peer : option (list byte)) (rq : request D C) (rs : response D C) : prog actx unit :=
  let! c := pget in
  pguard (bool_decide (is_Some (ax_klog c)));;;
  let! fn := plift (of_option (filename rq)) in
  if negb (selected config fn) then pret tt else
  let! len := plift (header_get_field_value (rs_header rs) (bs "Content-Length")) in
  let! referer := plift (header_get_field_value (rq_header rq) (bs "Referer")) in
  let! agent := plift (header_get_field_value (rq_header rq) (bs "User-Agent")) in
  let '(buf, trunc) := u_snprintf (access_text config (ax_now c) peer (cli_rq rq) len referer agent (rs_status rs)) LOGSZ in
  pguard (negb trunc);;;
  match bid with
  | None => log_here buf
  | Some b => send_parent b vid buf
  end.
End access.

(** ** Which requests are logged *)

Section access_proofs.
Context {L : Libu} {LS : LibuSpec L} {U : UConfig} {US : UConfigSpec U}.
Variable fnmatch : list byte -> list byte -> Z.

Abbreviation keyed k c := (filter (fun d => strcaseeq (u_config_get_key d) k) (kids c)).

(** The values of a key. *)
Definition values_of (c : ucfg) (k : list byte) : list (list byte) := omap u_config_get_value (keyed k c).

Lemma log_loop_spec (config : ucfg) (fn : list byte) (fuel : nat) : forall n,
  length (keyed (bs "log") config) < n + fuel ->
  log_loop fnmatch fuel config fn n = existsb (fun v => bool_decide (fnmatch v fn = 0%Z)) (omap u_config_get_value (drop n (keyed (bs "log") config))).
Proof using US.
  induction fuel as [|fuel IH]; intros n Hf; [rewrite drop_ge by lia; done|]. cbn [log_loop]. rewrite get_child_n_key.
  destruct (keyed (bs "log") config !! n) as [d|] eqn:E; [|rewrite drop_ge by (by apply lookup_ge_None); done].
  rewrite (drop_S _ d n E). cbn [omap list_omap]. destruct (u_config_get_value d) as [v|]; [|apply IH; lia].
  cbn [existsb]. rewrite IH by lia. destruct (decide _); [by rewrite bool_decide_eq_true_2|by rewrite bool_decide_eq_false_2].
Qed.

Lemma dontlog_loop_spec (config : ucfg) (fn : list byte) (fuel : nat) : forall n,
  length (keyed (bs "dontlog") config) < n + fuel ->
  dontlog_loop fnmatch fuel config fn n =
    existsb (fun v => bool_decide (fnmatch v fn <> FNM_NOMATCH)) (omap u_config_get_value (drop n (keyed (bs "dontlog") config))).
Proof using US.
  induction fuel as [|fuel IH]; intros n Hf; [rewrite drop_ge by lia; done|]. cbn [dontlog_loop]. rewrite get_child_n_key.
  destruct (keyed (bs "dontlog") config !! n) as [d|] eqn:E; [|rewrite drop_ge by (by apply lookup_ge_None); done].
  rewrite (drop_S _ d n E). cbn [omap list_omap]. destruct (u_config_get_value d) as [v|]; [|apply IH; lia].
  cbn [existsb]. rewrite IH by lia. destruct (decide _); [by rewrite bool_decide_eq_false_2 by tauto|by rewrite bool_decide_eq_true_2].
Qed.

(** A file is logged when there is no "log" key or one of them matches its name, and no
    "dontlog" key matches it; a "dontlog" pattern that is not valid excludes every file. *)
Theorem selected_spec (config : ucfg) (fn : list byte) :
  selected fnmatch config fn = true <->
  (keyed (bs "log") config = [] \/ Exists (fun v => fnmatch v fn = 0%Z) (values_of config (bs "log"))) /\
  Forall (fun v => fnmatch v fn = FNM_NOMATCH) (values_of config (bs "dontlog")).
Proof using US.
  unfold selected, values_of. rewrite get_child_n_key, andb_true_iff, negb_true_iff.
  assert (forall k, length (keyed k config) < 0 + S (length (kids config))) as Hl by (intros k; pose proof (length_filter (fun d => strcaseeq (u_config_get_key d) k) (kids config)); lia).
  rewrite dontlog_loop_spec, drop_0 by apply Hl. rewrite log_loop_spec, drop_0 by apply Hl. f_equiv.
  - destruct (keyed (bs "log") config) as [|d l] eqn:E; [by split; [left|]|]. cbn [lookup list_lookup].
    rewrite existsb_exists, Exists_exists. split.
    + intros (v & Hv & Hm%bool_decide_eq_true). right. exists v. by rewrite list_elem_of_In.
    + intros [|(v & Hv & Hm)]; [done|]. exists v. by rewrite <-list_elem_of_In, bool_decide_eq_true.
  - rewrite <-not_true_iff_false, existsb_exists, Forall_forall. split.
    + intros H v Hv. destruct (decide (fnmatch v fn = FNM_NOMATCH)); [done|]. exfalso. apply H. exists v. split; [by apply list_elem_of_In|by apply bool_decide_eq_true].
    + intros H (v & Hv & Hm%bool_decide_eq_true). apply Hm, H. by apply list_elem_of_In.
Qed.

Variable localtime : Z -> tm * Z.
Variables (have_gmtoff : bool) (LOGSZ : nat).
Variables (ctime : Z -> list byte) (fopen_ok : nat -> bool).
Abbreviation access := (access_log fnmatch localtime have_gmtoff LOGSZ ctime fopen_ok).

(** The line of a request. *)
Definition line_of {D C : Type} (config : ucfg) (now : Z) (peer : option (list byte)) (rq : request D C) (rs : response D C) : list byte :=
  access_text localtime have_gmtoff config now peer (cli_rq rq) (head (vals (rs_header rs) (bs "Content-Length")))
    (head (vals (rq_header rq) (bs "Referer"))) (head (vals (rq_header rq) (bs "User-Agent"))) (rs_status rs).

(** What is left to do for a selected request. *)
Lemma access_log_line {D C : Type} (config : ucfg) (bid : option Z) (vid : Z) (peer : option (list byte)) (rq : request D C) (rs : response D C) (fn : list byte) (c : actx) :
  0 < LOGSZ -> header_ok (rq_header rq) -> header_ok (rs_header rs) -> is_Some (ax_klog c) -> filename rq = Some fn -> selected fnmatch config fn = true ->
  let line := line_of config (ax_now c) peer rq rs in
  access config bid vid peer rq rs c =
    if decide (LOGSZ <= length line) then (c, Fail)
    else match bid with None => log_here ctime fopen_ok line c | Some b => send_parent LOGSZ b vid line c end.
Proof using LS.
  intros H0 Hq Hs Hk Hf Hsel. unfold access_log, line_of. erewrite (pbind_Ok pget) by reflexivity.
  rewrite bool_decide_eq_true_2 by done. erewrite (pbind_Ok (pguard _)) by reflexivity.
  rewrite Hf. erewrite (pbind_Ok (plift _)) by reflexivity. rewrite Hsel. cbn [negb].
  rewrite !header_get_field_value_eq by done. do 3 (erewrite (pbind_Ok (plift _)) by reflexivity).
  set (line := access_text _ _ _ _ _ _ _ _ _ _). rewrite u_snprintf_spec by done. destruct (decide (LOGSZ <= length line)) as [Hl|Hl].
  - by rewrite bool_decide_eq_true_2.
  - rewrite bool_decide_eq_false_2 by done. erewrite (pbind_Ok (pguard _)) by reflexivity. rewrite take_ge by lia. by destruct bid.
Qed.

(** The line is at least as long as the fields of the client in it. *)
Lemma line_of_length {D C : Type} (config : ucfg) (now : Z) (peer : option (list byte)) (rq : request D C) (rs : response D C) (v : list byte) :
  head (vals (rq_header rq) (bs "Referer")) = Some v -> length v <= length (line_of config now peer rq rs).
Proof.
  intros Hv. unfold line_of, access_text. rewrite Hv. rewrite !length_app. unfold quoted. rewrite !length_app.
  assert (length v <= length (value_or_dash (Some v))) by (destruct v; simpl; lia). lia.
Qed.
End access_proofs.

(** * Theorems *)

(** C33: A request that the configuration selects is logged if its line fits, and not at all
    otherwise.  When it fits, the message that a child sends is read by the parent as one
    message, and the line, with the request, the status and the fields of the client, is
    logged in the log of the virtual host of the request.  A line that does not fit fails: no
    message is sent and nothing is logged. *)
Theorem access_logged {L : Libu} {LS : LibuSpec L} {U : UConfig} {US : UConfigSpec U} {D C : Type}
    (fnmatch : list byte -> list byte -> Z) (localtime : Z -> tm * Z) (have_gmtoff : bool) (LOGSZ : nat) (ctime : Z -> list byte) (fopen_ok : nat -> bool)
    (hst stack : list byte) (config : ucfg) (bid : Z) (vid : nat) (peer : option (list byte)) (rq : request D C) (rs : response D C) (fn : list byte)
    (c : actx) (s : lsrv) (i : nat) (b : lbe) (vhosts : list (option klog)) (kl : klog) :
  length hst = PPC_HDR_SIZE -> length stack = PPC_MAX_DATA_SIZE -> 0 < LOGSZ /\ LOGSZ + 8 <= PPC_MAX_DATA_SIZE ->
  header_ok (rq_header rq) -> header_ok (rs_header rs) -> is_Some (ax_klog c) -> ax_chan c = mkChan [] [] [] [] ->
  filename rq = Some fn -> selected fnmatch config fn = true ->
  (- 2 ^ 31 <= bid < 2 ^ 31)%Z -> (Z.of_nat vid < 2 ^ 31)%Z ->
  find_lbe bid 0 (l_bes s) = Some i -> l_bes s !! i = Some b -> lb_vhosts b = Some vhosts -> vhosts !! vid = Some (Some kl) ->
  let line := line_of localtime have_gmtoff config (ax_now c) peer rq rs in
  (x00 ∉ line) ->
  if decide (LOGSZ <= length line)
  then access_log fnmatch localtime have_gmtoff LOGSZ ctime fopen_ok config (Some bid) (Z.of_nat vid) peer rq rs c = (c, Fail)
  else exists c' data n,
    access_log fnmatch localtime have_gmtoff LOGSZ ctime fopen_ok config (Some bid) (Z.of_nat vid) peer rq rs c = (c', Ok tt) /\
    ppc_read hst stack (mkChan (ch_out (ax_chan c')) [] [] []) = (mkChan [] [] [] [], Ok (data, Some (PPC_CMD_ACCESS_LOG, n))) /\
    server_ppc_cb_access_log ctime fopen_ok PPC_CMD_ACCESS_LOG data n s =
      let '(d, kl', r) := klog_log ctime fopen_ok (l_disk s) kl KLOG_INFO (l_now s) line in
      (mkLs (l_klog s) (alter (fun b => mkLbe (lb_id b) (lb_model b) (lb_klog b) (Some (<[vid := Some kl']> vhosts))) i (l_bes s)) d (l_now s) (l_chan s), r).
Proof.
  intros Hh Hst Hlog Hq Hs Hk Hc Hf Hsel Hb Hv Hi Hbe Hvh Hkl line Hz.
  rewrite (access_log_line fnmatch localtime have_gmtoff LOGSZ ctime fopen_ok config (Some bid) (Z.of_nat vid) peer rq rs fn c) by (done || lia).
  fold line. destruct (decide (LOGSZ <= length line)) as [|Hl]; [done|].
  destruct (access_log_delivered ctime fopen_ok hst stack Hh Hst LOGSZ Hlog bid vid line s i b vhosts kl Hb Hv Hz Hi Hbe Hvh Hkl) as (ch & data & n & E1 & E2 & E3).
  rewrite take_ge in E3 by lia. exists (mkAx (ax_disk c) (ax_klog c) (ax_now c) ch), data, n.
  unfold send_parent. rewrite Hc, E1. done.
Qed.

(** A client that sends a long Referer field keeps its request out of the access log. *)
Theorem access_log_evaded {L : Libu} {LS : LibuSpec L} {U : UConfig} {D C : Type}
    (fnmatch : list byte -> list byte -> Z) (localtime : Z -> tm * Z) (have_gmtoff : bool) (LOGSZ : nat) (ctime : Z -> list byte) (fopen_ok : nat -> bool)
    (config : ucfg) (bid : option Z) (vid : Z) (peer : option (list byte)) (rq : request D C) (rs : response D C) (fn v : list byte) (c : actx) :
  0 < LOGSZ -> header_ok (rq_header rq) -> header_ok (rs_header rs) -> is_Some (ax_klog c) -> filename rq = Some fn ->
  selected fnmatch config fn = true -> head (vals (rq_header rq) (bs "Referer")) = Some v -> LOGSZ <= length v ->
  access_log fnmatch localtime have_gmtoff LOGSZ ctime fopen_ok config bid vid peer rq rs c = (c, Fail).
Proof.
  intros H0 Hq Hs Hk Hf Hsel Hr Hv. rewrite (access_log_line _ _ _ _ _ _ _ _ _ _ _ _ fn) by done.
  rewrite decide_True; [done|]. pose proof (line_of_length localtime have_gmtoff config (ax_now c) peer rq rs v Hr). lia.
Qed.

(** The minutes of the offset are lost: India is logged as +5:00, and as a number without sign
    and leading zero. *)
Example timezone_minutes_lost : get_timezone true 19800 = 500%Z.
Proof. done. Qed.

(** ** Examples *)

Definition get_rq (fields : list (list byte * list byte)) : request io_mem no_codec :=
  set_cli_rq (set_filename (set_rq_header rq0 (mkHeader (map mk_field fields) (length fields))) (Some (bs "/a.html"))) (Some (bs "GET /a.html HTTP/1.0")).
Definition ok_rs : response io_mem no_codec := mkRs (mkHeader [mk_field (bs "Content-Length", bs "12")] 1) (mem_io []) 200 HM_GET false.
Definition noon (_ : Z) : tm * Z := (mkTm 7 5 12 1 2 113 5, 3600%Z).
Definition exact_match (p s : list byte) : Z := if decide (p = s) then 0%Z else FNM_NOMATCH.
Definition al_config : ucfg := UCfg (bs "access_log") None [UCfg (bs "dontlog") (Some (bs "/favicon.ico")) []].
Definition child_ctx : actx := mkAx (mkDisk ∅ None) (Some mem_log) 0 (mkChan [] [] [] []).
Definition al_srv : lsrv := mkLs None [mkLbe 3 SERVER_MODEL_PREFORK None (Some [None; Some mem_log])] (mkDisk ∅ None) 0 (mkChan [] [] [] []).

Definition al_line : list byte :=
  bs "[access] 10.0.0.1 - - [01/Mar/2013:12:05:07 100] " ++ quoted (bs "GET /a.html HTTP/1.0") ++ bs " 200 12 " ++
  quoted (bs "-") ++ bs " " ++ quoted (bs "curl") ++ bs " " ++ quoted (bs "-").

Definition access_ref := access_log (L := libu_ref) (U := uconfig_ref) (D := io_mem) (C := no_codec) exact_match noon true 512 a_time (fun _ => true).

Lemma access_logged_witness :
  exists c' data n,
    access_ref al_config (Some 3%Z) 1 (Some (bs "10.0.0.1:99")) (get_rq [(bs "User-Agent", bs "curl")]) ok_rs child_ctx = (c', Ok tt) /\
    ppc_read (replicate 16 x00) (replicate PPC_MAX_DATA_SIZE x00) (mkChan (ch_out (ax_chan c')) [] [] []) =
      (mkChan [] [] [] [], Ok (data, Some (PPC_CMD_ACCESS_LOG, n))) /\
    server_ppc_cb_access_log (L := libu_ref) a_time (fun _ => true) PPC_CMD_ACCESS_LOG data n al_srv =
      let '(d, kl', r) := klog_log (L := libu_ref) a_time (fun _ => true) (l_disk al_srv) mem_log KLOG_INFO 0 al_line in
      (mkLs None (alter (fun b => mkLbe (lb_id b) (lb_model b) (lb_klog b) (Some (<[1 := Some kl']> [None; Some mem_log]))) 0 (l_bes al_srv)) d 0 (mkChan [] [] [] []), r).
Proof.
  pose proof (access_logged (L := libu_ref) (U := uconfig_ref) exact_match noon true 512 a_time (fun _ => true) (replicate 16 x00) (replicate PPC_MAX_DATA_SIZE x00)
    al_config 3 1 (Some (bs "10.0.0.1:99")) (get_rq [(bs "User-Agent", bs "curl")]) ok_rs (bs "/a.html") child_ctx al_srv 0
    (mkLbe 3 SERVER_MODEL_PREFORK None (Some [None; Some mem_log])) [None; Some mem_log] mem_log) as H.
  assert (line_of (L := libu_ref) (U := uconfig_ref) noon true al_config 0 (Some (bs "10.0.0.1:99")) (get_rq [(bs "User-Agent", bs "curl")]) ok_rs = al_line) as El by by vm_compute.
  cbn [ax_now child_ctx] in H. rewrite El in H. rewrite decide_False in H by (rewrite <-Nat.leb_le; vm_compute; discriminate).
  apply H; try reflexivity; try lia.
  - split; apply Nat.leb_le; vm_compute; reflexivity.
  - split; [done|]. by repeat constructor.
  - split; [done|]. by repeat constructor.
  - by eexists.
  - compute_decide.
Defined.

(** The same request with a long Referer leaves no trace. *)
Example long_referer : (access_ref al_config (Some 3%Z) 1 (Some (bs "10.0.0.1:99")) (get_rq [(bs "Referer", replicate 512 "x"%byte)]) ok_rs child_ctx).2 = Fail.
Proof. by vm_compute. Qed.
